(* ===== verification/_CoqProject ===== *)
-Q . S2P
Prelude.v
Errdefs.v
GoValue.v
Common.v
HostPorts.v
ComposePorts.v
Effects.v
DiskGuard.v
Records.v
World.v
TunnelRules.v
EnvVars.v
Store.v
Observer.v
Launch.v
Transitions.v
StateMachine.v
AppManager.v
Steps.v
Frames.v
Examples.v
Locks.v
Outcomes.v
Emergency.v
Cancels.v
EnvSpec.v
StoreSpec.v
Counting.v
LaunchSpec.v
ManagerSpec.v
Frp.v
Tunnels.v
TunnelSpec.v
TunnelReports.v
Supervision.v
LogText.v
LogSpec.v
LogManager.v
LogManagerSpec.v
Observing.v
ObservingSpec.v
ObserverRaces.v
SpawnerSpec.v
Messenger.v
MessengerSpec.v
WampValues.v
Requests.v
RequestsSpec.v
ApiWorld.v
Transfer.v
TransferSpec.v
Api.v
ApiSpec.v
Startup.v
StartupSpec.v
SelfUpdate.v
SelfUpdateSpec.v
Terminals.v
TerminalSpec.v
TerminalRaces.v
Updates.v
UpdatesSpec.v
DockerClient.v
DockerPolls.v
DockerSpec.v
ComposeClient.v
ComposeSpec.v
NetworkManager.v
Network.v
NetworkSpec.v
ContainerTerminals.v
Service.v
ServiceSpec.v
InstanceLock.v
Codesign.v
Config.v
AgentStart.v
Files.v
Shells.v
OsCalls.v
