(* ===== verification/Prelude.v ===== *)
(** * IronFlock device-management agent: a verified model

    The agent (src/src, in Go) runs apps on a device: it takes requested states from the
    cloud, drives docker containers and compose projects to them, opens tunnels to them,
    streams their logs, serves terminals, files and network settings, updates itself and
    keeps the disk from filling up.  This development models it as executable definitions
    and proves what makes each part correct.  This file is the shared prelude; the map below
    is of the whole.

    ** How code is modelled

    Stateful code is written in the monad [M] of Effects.v, over the component's state and
    one type of external calls per component.  A call (docker, compose, the database
    driver, the messenger, the filesystem, a started goroutine) is logged with its answer;
    the answer is an arbitrary function of the call and of the log before it, and after
    every call an arbitrary function changes the shared state, as other goroutines may.
    The theorems quantify over both; a theorem that needs other goroutines to respect
    something says so in a hypothesis on that function ([lock_private], [app_private],
    [ports_through_registry], [tunnels_private], [observers_private]...).  An outcome is a
    value, an error, a panic or a block for ever, so a panic under [safe.Go], a lock that
    is never released and an error branch are all visible.  Maps iterated in Go's
    unspecified order are lists in iteration order, so a statement about every list is one
    about every order.  [uint64] arithmetic wraps with [wrap64]; the conversions from and
    to [float64] and signed integers are written out.  Code outside the repository is a
    class parameter: [Host] (configuration, hmac, url and port parsing), [GoRuntime]
    (float text and conversions), [FrpHost], [LogRuntime], [WampHost] (topics and the
    library of the session), [ApiHost], [UpdateHost], [SysHost], [DockerSdk], [ComposeHost],
    [NetHost], [ServiceHost], [ShellHost], [Crypto] (which certificate signed which).
    Goroutines that share more than a map are step relations over explicit places
    (Terminals, ContainerTerminals, Updates, DockerPolls, InstanceLock, Shells), and their
    theorems hold for every interleaving.  A part with its theorems in one file has the
    definitions first; otherwise they are in the file named [...Spec].

    ** The parts

    - Errdefs, GoValue, Common, Records: the error causes (errdefs/), [interface{}] values,
      states, names and payloads (common/), and the app record with its setters.
    - Effects: the monad, its Hoare-style logic ([triple], [keeps], [returns],
      [errorless]), audited logs.
    - HostPorts (apps/hostports.go), ComposePorts (apps/compose_ports.go), EnvVars
      (environment of containers, dotenv and credential files), TunnelRules (port rules).
    - World: the state shared by manager, state machine and observers, and [AgentCall];
      Store (persistence/database.go, store/app_store.go) over tables as lists of rows.
    - Observer (notification, correction), Launch (port resolution, pulls, container and
      compose start), Transitions (one definition per handler), StateMachine (the table of
      state_machine.go and its interpreter), AppManager (requests, verification, crash
      loops, reconciliation): src/src/apps.  [RequestAppState] composes them all.
    - Observing: the turns of the observer loops, their clean-up, the spawner
      (apps/state_observer.go).
    - DiskGuard (diskguard/diskguard.go): one guard iteration over its own calls.
    - Frp, Tunnels (tunnel/frp.go, tunnel/tunnel.go): client configuration and manager.
    - LogText, LogManager (logging/): batching, histories, windows, the agent log;
      subscriptions, gates, streams and stored histories.
    - Messenger (messenger/wamp.go): dialling, sessions with watcher and heartbeat,
      reconnecting.  WampValues, Requests, Api, ApiWorld (api/, privilege/): arguments,
      requests for app states, the topics with their privileges and every handler.
      Transfer (filesystem/transfer.go): chunks of files.
    - Startup (agent.go, store/): a connection and the reconciliation at start; AgentStart:
      the order of the start, the callbacks that join the guard to the store, the opening
      of the database and its scripts, the shutdown.
    - SelfUpdate (selfupdate/), Codesign (codesign/), Updates (system/system.go, downloads,
      the configuration file), OsCalls (system/rauc.go and other calls), Files (archives,
      small files, the caps on logs, the files of the agent's log), Config (the command line, directories, release/build.go).
    - Service (main.go, servicecmd*.go, service_windows.go, lifecycle/): the process, its
      Windows service and its restarts; InstanceLock (platform_*.go): one agent per machine.
    - Terminals (terminal/pty.go), ContainerTerminals (terminal/docker_term.go), Shells
      (terminal/pty_windows.go, pty_unix.go).
    - DockerClient, DockerPolls (container/docker.go), ComposeClient (container/compose.go):
      the clients that the calls of [AgentCall] stand for.
    - NetworkManager (the bindings in use), Network (network/): profiles, scans, addresses.

    ** What is proved

    - Steps gives every handler as a sequence of atomic steps by kind, Frames which kinds
      each handler takes; the invariants below follow by induction on the steps.
    - Locks: transition locks are as before whenever a request returns; the state lock of
      an upsert.  Outcomes: where every transition ends.  Emergency: the disk gate, and the
      cancellations that pass beside it.
      Cancels: registration of cancelable contexts.  Counting, LaunchSpec: bounded
      attempts, exclusive host ports during a request.  ManagerSpec: verification and
      crash-loop pauses.  StoreSpec, EnvSpec: round trips and precedence.
    - ObservingSpec: one observer per name; ObserverRaces: observers leave transitions
      alone, but their look at a lock can swallow a request; SpawnerSpec: which observer a
      started container gets.
    - TunnelSpec: the manager refines a map of tunnels; TunnelReports: reported states and
      change detection; Supervision: bounded restarts.
    - LogSpec, LogManagerSpec: bounded histories and batches, a closed batcher holds
      nothing back, the page of a windowed query and the source of its lines, the scan of the agent log against
      its reference, gates under interleaved subscriptions.
    - MessengerSpec: a reconnect leaves the client it announced kept and watched once, or
      ends for a reason.  ApiSpec: nothing is done before a topic's privilege is granted,
      and which seven topics have none; RequestsSpec: which requests are accepted;
      TransferSpec: the file of a transfer, by its path, is the pieces in order.
    - StartupSpec, AgentStart: of the apps on record a connection keeps exactly the listed
      ones; the guard asks the store and spares the images and volumes on record; the order of the start; an initialised database has its schema.
    - SelfUpdateSpec: an activation never leaves the device without a binary, and a version
      that does not stay up is rolled back; Codesign: the verdict over a binary is the
      specification, and the content an enforced activation leaves active is the one that
      passed it; UpdatesSpec: verified downloads, progress that ends, the configuration's
      round trip through the tags of its fields.
    - TerminalSpec, TerminalRaces: text intact, no panic, teardowns that finish;
      ContainerTerminals: input in order from the topic to the shell, sessions that can
      end; Shells: no closed handle is used, a close always finishes although closing the
      console waits for the output, a failed start leaks nothing.
    - DockerPolls, DockerSpec, ComposeSpec: what stands behind the answers of waits, streams
      and commands.  NetworkSpec: what a profile holds after a change, lists of networks,
      which routes are told, what a watched connection reports.
    - ServiceSpec: copies are whole, rights come before files; Config: the registered
      command line finds what the installer made; InstanceLock: at most one agent, and no
      lock outlives its agent; Files: archives stay below their destination and arrive
      whole, the caps on logs settle after one start and keep foreign settings, rotations
      are read in order; OsCalls: what the report of an
      installation says and when it ends.
    - Examples: a concrete device, configuration and answers, for the witnesses.

    ** Bounds and fuel

    The retry loops ([compose_up_attempts], [start_attempts], [supervise]) recurse on the
    attempts left, with the constants of the code.  Port scans recurse on the number of
    ports left of the pool or of the 65535.  An endless loop (observers, the guard, the
    tunnel monitor, the spawner) is modelled by its turns; [turns] takes any number of
    them and its theorems hold for all.  No theorem has the form "if it terminates".

    ** Not modelled

    Pure I/O: the bytes copied between pipes and pseudo terminals, the registry and
    event log of Windows, the set-up of the log writers (logging/logger.go), timings that
    are only logged (benchmark/).  Code that nothing calls: the rest of the
    NetworkManager bindings (VPNs, statistics, single properties, their JSON and generated
    enumerations), the debouncer, the stand-in messengers and networks.  Other people's code: the syntax of JSON,
    TOML and D-Bus messages (of JSON the values are modelled, and for the configuration how
    texts and fields become values and back),
    archives' formats, the cryptography of a signature, docker, compose, frpc, RAUC and the
    service manager, which are calls or class parameters.  Of the modelled parts: the TOML
    rendering of fixed client options, the copying of bytes in log readers, the asynchronous result callbacks of the
    session and the text of most log messages. *)
From stdpp Require Export prelude strings gmap list pretty sorting.
From Stdlib Require Export Ascii Lia.

#[export] Set Default Proof Using "Type".
#[export] Set Warnings "-register-all".

Declare Scope agent_scope.
Delimit Scope agent_scope with agent.
Open Scope string_scope.

(** ** Tactics *)

(** Split on the scrutinee of the first [match]/[if] of the goal. *)
Ltac split_match :=
  match goal with
  | |- context [match ?x with _ => _ end] => destruct x eqn:?
  end.

(** Split on the scrutinee of a [match] of a hypothesis. *)
Ltac split_match_in H :=
  match type of H with
  | context [match ?x with _ => _ end] => destruct x eqn:?
  end.

(** Turn boolean tests in the context into propositions. *)
Ltac bool_to_prop :=
  repeat match goal with
  | H : _ && _ = true |- _ => apply andb_prop in H as [? ?]
  | H : _ || _ = false |- _ => apply orb_false_elim in H as [? ?]
  | H : negb _ = true |- _ => apply negb_true_iff in H
  | H : negb _ = false |- _ => apply negb_false_iff in H
  | H : bool_decide _ = true |- _ => apply bool_decide_eq_true_1 in H
  | H : bool_decide _ = false |- _ => apply bool_decide_eq_false_1 in H
  | H : (_ =? _)%N = true |- _ => apply N.eqb_eq in H
  | H : (_ =? _)%N = false |- _ => apply N.eqb_neq in H
  | H : (_ <? _)%N = true |- _ => apply N.ltb_lt in H
  | H : (_ <? _)%N = false |- _ => apply N.ltb_ge in H
  | H : (_ <=? _)%N = true |- _ => apply N.leb_le in H
  | H : (_ <=? _)%N = false |- _ => apply N.leb_gt in H
  | H : (_ <? _)%Z = true |- _ => apply Z.ltb_lt in H
  | H : (_ <? _)%Z = false |- _ => apply Z.ltb_ge in H
  | H : (_ <=? _)%Z = true |- _ => apply Z.leb_le in H
  | H : (_ <=? _)%Z = false |- _ => apply Z.leb_gt in H
  end.

Create HintDb agent discriminated.

(** stdpp blocks [simpl] on string concatenation; the name-building functions of
    the agent concatenate literals, so it computes here. *)
#[global] Arguments String.append : simpl nomatch.

(** ** Machine integers *)

(** [uint64] values are naturals below [two64]; the operations of the code
    that can leave the range wrap with [wrap64]. *)
Definition two64 : N := 18446744073709551616%N.
Definition wrap64 (n : N) : N := (n mod two64)%N.

Lemma wrap64_small n : (n < two64)%N → wrap64 n = n.
Proof. apply N.mod_small. Qed.

(** The elements that are there. *)
Fixpoint present {A} (l : list (option A)) : list A :=
  match l with
  | [] => []
  | Some x :: l => x :: present l
  | None :: l => present l
  end.

(** ** Strings as byte sequences: the part of Go's [strings] package in use *)

Definition ascii_lower (a : ascii) : ascii :=
  let n := N_of_ascii a in
  if ((65 <=? n) && (n <=? 90))%N then ascii_of_N (n + 32) else a.

Definition ascii_upper (a : ascii) : ascii :=
  let n := N_of_ascii a in
  if ((97 <=? n) && (n <=? 122))%N then ascii_of_N (n - 32) else a.

Fixpoint str_map (f : ascii → ascii) (s : string) : string :=
  match s with
  | "" => ""
  | String a s' => String (f a) (str_map f s')
  end.

Definition to_lower : string → string := str_map ascii_lower.
Definition to_upper : string → string := str_map ascii_upper.

Fixpoint str_filter (f : ascii → bool) (s : string) : string :=
  match s with
  | "" => ""
  | String a s' => if f a then String a (str_filter f s') else str_filter f s'
  end.

Fixpoint str_forall (f : ascii → bool) (s : string) : bool :=
  match s with
  | "" => true
  | String a s' => f a && str_forall f s'
  end.

Definition has_prefix (p s : string) : bool := String.prefix p s.

(** [strings.Contains]. *)
Fixpoint str_contains (sub s : string) : bool :=
  has_prefix sub s ||
  match s with
  | "" => false
  | String _ s' => str_contains sub s'
  end.

(** [strings.ContainsAny] with the characters given by a predicate. *)
Definition contains_any (f : ascii → bool) (s : string) : bool :=
  negb (str_forall (λ a, negb (f a)) s).

Definition not_char (c : ascii) (a : ascii) : bool := negb (Ascii.eqb a c).
Definition lacks (c : ascii) (s : string) : bool := str_forall (not_char c) s.

(** [strings.TrimLeft] with the cutset given by a predicate. *)
Fixpoint trim_left (f : ascii → bool) (s : string) : string :=
  match s with
  | "" => ""
  | String a s' => if f a then trim_left f s' else s
  end.

(** [strings.TrimPrefix]. *)
Definition trim_prefix (p s : string) : string :=
  if has_prefix p s
  then String.substring (String.length p) (String.length s - String.length p) s
  else s.

(** [strings.TrimSuffix]. *)
Definition has_suffix (suffix s : string) : bool :=
  (String.length suffix <=? String.length s)%nat
  && String.eqb (String.substring (String.length s - String.length suffix) (String.length suffix) s) suffix.
Definition trim_suffix (suffix s : string) : string :=
  if has_suffix suffix s then String.substring 0 (String.length s - String.length suffix) s else s.

(** [strings.Split] with a one-character separator. *)
Fixpoint split_on (c : ascii) (s : string) : list string :=
  match s with
  | "" => [""]
  | String a s' =>
      if Ascii.eqb a c then "" :: split_on c s'
      else match split_on c s' with
           | [] => [String a ""]
           | w :: ws => String a w :: ws
           end
  end.

(** [strings.Join] with a one-character separator. *)
Fixpoint join_with (c : ascii) (ws : list string) : string :=
  match ws with
  | [] => ""
  | [w] => w
  | w :: ws' => w +:+ String c (join_with c ws')
  end.

(** [strings.Cut] with a one-character separator: before, after, found. *)
Definition str_cut (c : ascii) (s : string) : string * string * bool :=
  match split_on c s with
  | [] => (s, "", false)
  | [w] => (w, "", false)
  | w :: ws => (w, join_with c ws, true)
  end.

(** Decimal rendering of an unsigned integer ([%d], [strconv.FormatUint]). *)
Definition itoa (n : N) : string := pretty n.

Definition digit_of (a : ascii) : option N :=
  let n := N_of_ascii a in
  if ((48 <=? n) && (n <=? 57))%N then Some (n - 48)%N else None.

Fixpoint parse_digits (acc : N) (s : string) : option N :=
  match s with
  | "" => Some acc
  | String a s' =>
      match digit_of a with
      | Some d => parse_digits (acc * 10 + d)%N s'
      | None => None
      end
  end.

(** [strconv.ParseUint(s, 10, bits)]: a non-empty string of decimal digits
    whose value fits in [bits] bits; every other input is an error. *)
Definition parse_uint (bits : N) (s : string) : option N :=
  match s with
  | "" => None
  | _ => match parse_digits 0 s with
         | Some n => if (n <? 2 ^ bits)%N then Some n else None
         | None => None
         end
  end.

(** [strconv.ParseInt(s, 10, 64)]. *)
Definition parse_int64 (s : string) : option Z :=
  match s with
  | String "-" d => n ← parse_uint 64 d; if (n <=? 2 ^ 63)%N then Some (- Z.of_N n)%Z else None
  | String "+" d => n ← parse_uint 64 d; if (n <? 2 ^ 63)%N then Some (Z.of_N n) else None
  | d => n ← parse_uint 64 d; if (n <? 2 ^ 63)%N then Some (Z.of_N n) else None
  end.

(** ** Lemmas on strings *)

Lemma str_app_assoc (s t u : string) : (s +:+ t) +:+ u = s +:+ (t +:+ u).
Proof. induction s as [|a s IH]; simpl; [done|]. by rewrite IH. Qed.

Lemma str_app_nil_r (s : string) : s +:+ "" = s.
Proof. induction s as [|a s IH]; simpl; [done|]. by rewrite IH. Qed.

Lemma str_length_app s t : String.length (s +:+ t) = (String.length s + String.length t)%nat.
Proof. induction s as [|a s IH]; simpl; [done|]. by rewrite IH. Qed.
Lemma substring_all s : String.substring 0 (String.length s) s = s.
Proof. induction s as [|a s IH]; simpl; [done|]. by rewrite IH. Qed.
Lemma substring_front s t : String.substring 0 (String.length s) (s +:+ t) = s.
Proof. induction s as [|a s IH]; simpl; [by destruct t|]. by rewrite IH. Qed.
Lemma substring_back s t : String.substring (String.length s) (String.length t) (s +:+ t) = t.
Proof. induction s as [|a s IH]; simpl; [apply substring_all|done]. Qed.

Lemma trim_suffix_app s t : trim_suffix t (s +:+ t) = s.
Proof.
  unfold trim_suffix, has_suffix. rewrite str_length_app.
  replace (String.length s + String.length t - String.length t)%nat with (String.length s) by lia.
  rewrite substring_back, String.eqb_refl, substring_front.
  by rewrite (proj2 (Nat.leb_le _ _)) by lia.
Qed.

Lemma has_prefix_app s t : has_prefix s (s +:+ t) = true.
Proof. induction s as [|a s IH]; simpl; [by destruct t|].
  destruct (Ascii.ascii_dec a a); [exact IH|done]. Qed.

Lemma has_suffix_app s t : has_suffix t (s +:+ t) = true.
Proof.
  unfold has_suffix. rewrite str_length_app. replace (String.length s + String.length t - String.length t)%nat with (String.length s) by lia.
  rewrite substring_back, String.eqb_refl. by rewrite (proj2 (Nat.leb_le _ _)) by lia.
Qed.

Lemma str_app_cons (a : ascii) (s t : string) :
  String a s +:+ t = String a (s +:+ t).
Proof. done. Qed.

Lemma str_forall_app f s t : str_forall f (s +:+ t) = str_forall f s && str_forall f t.
Proof. induction s as [|a s IH]; simpl; [done|]. by rewrite IH, andb_assoc. Qed.

Lemma str_map_app f s t : str_map f (s +:+ t) = str_map f s +:+ str_map f t.
Proof. induction s as [|a s IH]; simpl; [done|]. by rewrite IH. Qed.

Lemma str_filter_app f s t : str_filter f (s +:+ t) = str_filter f s +:+ str_filter f t.
Proof.
  induction s as [|a s IH]; simpl; [done|]. destruct (f a); simpl; by rewrite IH.
Qed.

Lemma str_filter_id f s : str_forall f s = true → str_filter f s = s.
Proof.
  induction s as [|a s IH]; simpl; [done|]. intros [-> ?]%andb_prop. by rewrite IH.
Qed.

Lemma str_forall_filter f s : str_forall f (str_filter f s) = true.
Proof.
  induction s as [|a s IH]; simpl; [done|]. destruct (f a) eqn:E; simpl; by rewrite ?E.
Qed.

Lemma str_forall_impl (f g : ascii → bool) s :
  (∀ a, f a = true → g a = true) → str_forall f s = true → str_forall g s = true.
Proof.
  intros Hfg. induction s as [|a s IH]; simpl; [done|].
  intros [? ?]%andb_prop. apply andb_true_intro. auto.
Qed.

Lemma str_map_id f s : (∀ a, f a = a) → str_map f s = s.
Proof. intros Hf. induction s as [|a s IH]; simpl; [done|]. by rewrite Hf, IH. Qed.

Lemma to_lower_app s t : to_lower (s +:+ t) = to_lower s +:+ to_lower t.
Proof. apply str_map_app. Qed.

Lemma ascii_lower_idem a : ascii_lower (ascii_lower a) = ascii_lower a.
Proof. destruct a as [[] [] [] [] [] [] [] []]; reflexivity. Qed.

Lemma to_lower_idem s : to_lower (to_lower s) = to_lower s.
Proof.
  unfold to_lower. induction s as [|a s IH]; simpl; [done|].
  by rewrite ascii_lower_idem, IH.
Qed.

Lemma split_on_nonempty c s : split_on c s ≠ [].
Proof.
  destruct s as [|a s]; simpl; [done|].
  destruct (Ascii.eqb a c); [done|]. by destruct (split_on c s).
Qed.

Lemma join_split c s : join_with c (split_on c s) = s.
Proof.
  induction s as [|a s IH]; simpl; [done|].
  destruct (Ascii.eqb_spec a c) as [->|_].
  - destruct (split_on c s) as [|w ws] eqn:E; [by apply split_on_nonempty in E|].
    rewrite <- IH. by destruct ws.
  - destruct (split_on c s) as [|w ws] eqn:E; [by apply split_on_nonempty in E|].
    rewrite <- IH. by destruct ws.
Qed.

Lemma split_on_lacks c s : lacks c s = true → split_on c s = [s].
Proof.
  unfold lacks, not_char. induction s as [|a s IH]; simpl; [done|].
  intros [Ha Hs]%andb_prop. apply negb_true_iff in Ha. rewrite Ha, IH by done. done.
Qed.

Lemma split_on_app c s t :
  lacks c s = true → split_on c (s +:+ String c t) = s :: split_on c t.
Proof.
  unfold lacks, not_char. induction s as [|a s IH]; simpl.
  - by rewrite Ascii.eqb_refl.
  - intros [Ha Hs]%andb_prop. apply negb_true_iff in Ha. rewrite Ha, IH by done. done.
Qed.

Lemma split_join c ws : ws ≠ [] → Forall (λ w, lacks c w = true) ws → split_on c (join_with c ws) = ws.
Proof.
  intros Hne Hall. induction Hall as [|w ws Hw Hws IH]; [done|].
  destruct ws as [|w' ws]; simpl; [by apply split_on_lacks|].
  rewrite split_on_app by done. f_equal. by apply IH.
Qed.

Lemma split_on_parts c s : Forall (λ w, lacks c w = true) (split_on c s).
Proof.
  unfold lacks, not_char. induction s as [|a s IH]; simpl; [by repeat constructor|].
  destruct (Ascii.eqb a c) eqn:E; [by constructor|].
  destruct (split_on c s) as [|w ws] eqn:Es.
  - repeat constructor. simpl. by rewrite E.
  - inversion IH; subst. constructor; [|done]. simpl. rewrite E. simpl. done.
Qed.

(** ** Decimal round trip *)

Lemma digit_of_pretty_char (d : N) :
  (d < 10)%N → digit_of (pretty_N_char d) = Some d.
Proof.
  intros Hd. assert (d = 0 ∨ d = 1 ∨ d = 2 ∨ d = 3 ∨ d = 4 ∨ d = 5 ∨ d = 6
    ∨ d = 7 ∨ d = 8 ∨ d = 9)%N as Hc by lia.
  repeat (destruct Hc as [->|Hc]; [reflexivity|]). by subst.
Qed.

Lemma parse_digits_go (x : N) s :
  parse_digits 0 (pretty_N_go x s) = parse_digits x s.
Proof.
  revert s. induction (N.lt_wf_0 x) as [x _ IH]; intros s.
  destruct (decide (0 < x)%N) as [Hx|Hx].
  - rewrite pretty_N_go_step by done. rewrite IH by (apply N.div_lt; lia).
    simpl. rewrite digit_of_pretty_char by (apply N.mod_lt; lia).
    f_equal. rewrite N.mul_comm. symmetry. apply N.div_mod. lia.
  - assert (x = 0)%N as -> by lia. by rewrite pretty_N_go_0.
Qed.

Lemma itoa_nonempty n : itoa n ≠ "".
Proof.
  unfold itoa, pretty, pretty_N. destruct (decide (n = 0)%N) as [->|Hn]; [done|].
  intros Hs. assert (parse_digits 0 (pretty_N_go n "") = Some 0%N) as Hp by by rewrite Hs.
  rewrite parse_digits_go in Hp. simpl in Hp. congruence.
Qed.

Lemma parse_digits_itoa n : parse_digits 0 (itoa n) = Some n.
Proof.
  unfold itoa, pretty, pretty_N. destruct (decide (n = 0)%N) as [->|Hn]; [done|].
  by rewrite parse_digits_go.
Qed.

(** Rendering and parsing are inverse on integers that fit the width. *)
Lemma parse_uint_itoa bits n : (n < 2 ^ bits)%N → parse_uint bits (itoa n) = Some n.
Proof.
  intros Hn. unfold parse_uint. pose proof (itoa_nonempty n) as Hne.
  destruct (itoa n) as [|a s] eqn:E; [done|]. rewrite <- E, parse_digits_itoa.
  apply N.ltb_lt in Hn. by rewrite Hn.
Qed.

Lemma pretty_Z_of_N n : pretty (Z.of_N n) = itoa n.
Proof. by destruct n. Qed.

Lemma itoa_head n : ∃ a s, itoa n = String a s ∧ digit_of a ≠ None.
Proof.
  pose proof (parse_digits_itoa n) as Hp. pose proof (itoa_nonempty n) as Hne.
  destruct (itoa n) as [|a s]; [done|]. exists a, s. split; [done|]. simpl in Hp. by destruct (digit_of a).
Qed.

Lemma parse_int64_itoa n : (n < 2 ^ 63)%N → parse_int64 (itoa n) = Some (Z.of_N n).
Proof.
  intros Hn. assert (parse_uint 64 (itoa n) = Some n) as Hp by (apply parse_uint_itoa; lia).
  destruct (itoa_head n) as (a & s & E & Hd). rewrite E in *.
  assert (a ≠ "-"%char ∧ a ≠ "+"%char) as [H1 H2] by (split; intros ->; by apply Hd).
  assert (parse_int64 (String a s) = (m ← parse_uint 64 (String a s); if (m <? 2 ^ 63)%N then Some (Z.of_N m) else None)) as ->.
  { unfold parse_int64. destruct a as [[] [] [] [] [] [] [] []]; done || (exfalso; by apply H1) || (exfalso; by apply H2). }
  rewrite Hp. simpl. by rewrite (proj2 (N.ltb_lt _ _) Hn).
Qed.

Lemma parse_uint_bound bits s n : parse_uint bits s = Some n → (n < 2 ^ bits)%N.
Proof.
  unfold parse_uint. destruct s; [done|]. destruct (parse_digits _ _); [|done].
  destruct (_ <? _)%N eqn:E; [|done]. intros [= ->]. by apply N.ltb_lt.
Qed.

Lemma itoa_inj n m : itoa n = itoa m → n = m.
Proof. apply pretty_N_inj. Qed.

Definition is_digit (a : ascii) : bool := bool_decide (is_Some (digit_of a)).

Lemma parse_digits_forall acc s n :
  parse_digits acc s = Some n → str_forall is_digit s = true.
Proof.
  revert acc. induction s as [|a s IH]; intros acc; simpl; [done|].
  destruct (digit_of a) as [d|] eqn:E; [|done]. intros Hp.
  apply andb_true_intro. split; [|by eapply IH].
  unfold is_digit. apply bool_decide_eq_true_2. rewrite E. by eexists.
Qed.

Lemma itoa_digits n : str_forall is_digit (itoa n) = true.
Proof. eapply parse_digits_forall, parse_digits_itoa. Qed.

(** A separator that is not a digit does not occur in a rendered integer. *)
Lemma itoa_lacks c n : is_digit c = false → lacks c (itoa n) = true.
Proof.
  intros Hc. eapply str_forall_impl; [|apply itoa_digits].
  intros a Ha. unfold not_char. destruct (Ascii.eqb_spec a c); [congruence|done].
Qed.

Lemma is_digit_lower a : is_digit a = true → ascii_lower a = a.
Proof. by destruct a as [[] [] [] [] [] [] [] []]. Qed.

Lemma to_lower_itoa n : to_lower (itoa n) = itoa n.
Proof.
  unfold to_lower. pose proof (itoa_digits n) as Hd. induction (itoa n) as [|a s IH]; simpl; [done|].
  simpl in Hd. apply andb_prop in Hd as [Ha Hs]. by rewrite is_digit_lower, IH.
Qed.

(** ** Byte-wise string order ([sort.Strings]) *)

Definition str_le (s t : string) : Prop := String.leb s t = true.

#[export] Instance str_le_dec : RelDecision str_le.
Proof. intros s t. unfold str_le. apply _. Defined.

Lemma ascii_compare_refl a : Ascii.compare a a = Eq.
Proof. apply N.compare_refl. Qed.

Lemma str_leb_cons a s b t :
  String.leb (String a s) (String b t) =
  match Ascii.compare a b with Lt => true | Gt => false | Eq => String.leb s t end.
Proof.
  unfold String.leb. simpl. destruct (Ascii.compare a b); simpl; done.
Qed.

Lemma ascii_compare_eq a b : Ascii.compare a b = Eq → a = b.
Proof.
  unfold Ascii.compare. intros ?%N.compare_eq_iff.
  rewrite <- (ascii_N_embedding a), <- (ascii_N_embedding b). by f_equal.
Qed.

#[export] Instance str_le_trans : Transitive str_le.
Proof.
  unfold str_le. intros s. induction s as [|a s IH]; intros [|b t] [|c u]; try done.
  rewrite !str_leb_cons.
  destruct (Ascii.compare a b) eqn:E1; [|destruct (Ascii.compare b c) eqn:E2|]; try done.
  - apply ascii_compare_eq in E1 as ->. destruct (Ascii.compare b c); [apply IH|done|done].
  - apply ascii_compare_eq in E2 as ->. by rewrite E1.
  - unfold Ascii.compare in *. rewrite N.compare_lt_iff in E1, E2. intros _ _.
    destruct (N.compare_spec (N_of_ascii a) (N_of_ascii c)); [lia|done|lia].
Qed.

#[export] Instance str_le_total : Total str_le.
Proof.
  unfold str_le. intros s. induction s as [|a s IH]; intros [|b t]; try (left; done) || (right; done).
  rewrite !str_leb_cons. unfold Ascii.compare.
  destruct (N.compare_spec (N_of_ascii a) (N_of_ascii b)) as [E|E|E].
  - rewrite E, N.compare_refl. apply IH.
  - by left.
  - right. rewrite (proj2 (N.compare_lt_iff _ _)) by done. done.
Qed.

#[export] Instance str_le_antisym : AntiSymm (=) str_le.
Proof.
  unfold str_le. intros s. induction s as [|a s IH]; intros [|b t]; try done.
  rewrite !str_leb_cons. unfold Ascii.compare.
  destruct (N.compare_spec (N_of_ascii a) (N_of_ascii b)) as [E|E|E]; [|intros _|done].
  - rewrite E, N.compare_refl. intros H1 H2. f_equal; [|by apply IH].
    apply ascii_compare_eq. unfold Ascii.compare. by rewrite E, N.compare_refl.
  - rewrite (proj2 (N.compare_gt_iff _ _)) by done. done.
Qed.

#[export] Instance str_le_refl : Reflexive str_le.
Proof. intros s. by destruct (total str_le s s). Qed.

Definition sort_strings (l : list string) : list string := merge_sort str_le l.

Lemma sort_strings_perm l : sort_strings l ≡ₚ l.
Proof. apply merge_sort_Permutation. Qed.

(** Sorting forgets the order of its input. *)
Lemma sort_strings_proper l k : l ≡ₚ k → sort_strings l = sort_strings k.
Proof.
  intros Hp. apply (StronglySorted_unique str_le).
  - apply (StronglySorted_merge_sort _).
  - apply (StronglySorted_merge_sort _).
  - by rewrite !sort_strings_perm.
Qed.

(** ** Matching: the regular expressions in use, one definition per shape *)

Fixpoint drop_while (f : ascii → bool) (s : string) : string :=
  match s with
  | String c r => if f c then drop_while f r else s
  | "" => ""
  end.

(** [f+] and then [rest]: [f] holds of no character [rest] can start with, so taking all
    of them is the only match. *)
Definition some_then (f : ascii → bool) (rest : string → bool) (s : string) : bool :=
  match s with
  | String c r => f c && rest (drop_while f r)
  | "" => false
  end.

Fixpoint lit (p : string) (rest : string → bool) (s : string) : bool :=
  match p, s with
  | "", _ => rest s
  | String c p, String d s => Ascii.eqb c d && lit p rest s
  | String _ _, "" => false
  end.

(** An unanchored match: somewhere in the text. *)
Fixpoint somewhere (f : string → bool) (s : string) : bool :=
  f s || match s with "" => false | String _ r => somewhere f r end.

Lemma drop_while_app f d c r : str_forall f d = true → f c = false →
  drop_while f (d +:+ String c r) = String c r.
Proof.
  intros Hd Hc. induction d as [|a d IH]; simpl in *; [by rewrite Hc|]. apply andb_prop in Hd as [-> Hd]. by apply IH.
Qed.

Lemma some_then_app f g d c r : d ≠ "" → str_forall f d = true → f c = false →
  some_then f g (d +:+ String c r) = g (String c r).
Proof.
  intros Hd Hf Hc. destruct d as [|a d]; [done|]. simpl in *. apply andb_prop in Hf as [-> Hf].
  by rewrite drop_while_app.
Qed.

Lemma lit_app p g s : lit p g (p +:+ s) = g s.
Proof. induction p as [|a p IH]; simpl; [done|]. by rewrite Ascii.eqb_refl. Qed.

Lemma somewhere_here f s : f s = true → somewhere f s = true.
Proof. intros Hs. destruct s; simpl; by rewrite Hs. Qed.

Lemma somewhere_later f a s : somewhere f s = true → somewhere f (String a s) = true.
Proof. intros Hs. simpl. by rewrite Hs, orb_true_r. Qed.
