(* ===== verification/Errdefs.v ===== *)
(** * Typed errors (src/src/errdefs)

    Go errors as values: a plain error, an error wrapped in one of the typed
    structs of [errdefs/helpers.go], or an error wrapped with a message
    ([fmt.Errorf] with [%w], [errors.Wrap]).  The [Is...] predicates of
    [errdefs/is.go] are type assertions on the outermost value. *)
From S2P Require Import Prelude.

Inductive errkind :=
  | KBuildFailed | KContainerNameAlreadyInUse | KContainerNotFound
  | KImageNotFound | KContainerRemovalAlreadyInProgress
  | KRegistrationHandlerFailed | KDockerfileCannotBeEmpty
  | KDockerfileIsMissing | KDockerStreamCanceled | KDockerComposeNotSupported
  | KNoActionTransition | KDockerBuildFilesNotFound | KInProgress
  | KInsufficientPrivileges.

#[export] Instance errkind_eq_dec : EqDecision errkind.
Proof. solve_decision. Defined.

Inductive error :=
  | Plain (msg : string)
  | Typed (k : errkind) (e : error)
  | Annotated (msg : string) (e : error).

#[export] Instance error_eq_dec : EqDecision error.
Proof. solve_decision. Defined.

(** [err.Error()]: the typed structs embed the wrapped error and promote its
    method, so they leave the text unchanged. *)
Fixpoint error_text (e : error) : string :=
  match e with
  | Plain m => m
  | Typed _ e' => error_text e'
  | Annotated m e' => m +:+ ": " +:+ error_text e'
  end.

Definition is_kind (k : errkind) (e : error) : bool :=
  match e with
  | Typed k' _ => bool_decide (k = k')
  | _ => false
  end.

Definition IsContainerNotFound : error → bool := is_kind KContainerNotFound.
Definition IsImageNotFound : error → bool := is_kind KImageNotFound.
Definition IsContainerRemovalAlreadyInProgress : error → bool :=
  is_kind KContainerRemovalAlreadyInProgress.
Definition IsDockerStreamCanceled : error → bool := is_kind KDockerStreamCanceled.
Definition IsNoActionTransition : error → bool := is_kind KNoActionTransition.
Definition IsDockerfileCannotBeEmpty : error → bool := is_kind KDockerfileCannotBeEmpty.
Definition IsDockerfileIsMissing : error → bool := is_kind KDockerfileIsMissing.
Definition IsDockerBuildFilesNotFound : error → bool := is_kind KDockerBuildFilesNotFound.
Definition IsInProgress : error → bool := is_kind KInProgress.

(** The constructors: [nil] stays [nil], an error that already has the type is
    returned as it is. *)
Definition wrap_kind (k : errkind) (e : error) : error :=
  if is_kind k e then e else Typed k e.

Definition ContainerNotFound : error → error := wrap_kind KContainerNotFound.
Definition DockerStreamCanceled : error → error := wrap_kind KDockerStreamCanceled.
Definition DockerComposeNotSupported : error → error := wrap_kind KDockerComposeNotSupported.

(** [errdefs.NoActionTransition()]. *)
Definition NoActionTransition : error :=
  Typed KNoActionTransition (Plain "no action").

Lemma is_kind_wrap k e : is_kind k (wrap_kind k e) = true.
Proof.
  unfold wrap_kind. destruct (is_kind k e) eqn:E; [done|]. simpl. by rewrite bool_decide_true.
Qed.

Lemma error_text_wrap k e : error_text (wrap_kind k e) = error_text e.
Proof. unfold wrap_kind. by destruct (is_kind k e). Qed.

Lemma is_kind_unique k k' e : is_kind k e = true → is_kind k' e = true → k = k'.
Proof. destruct e; simpl; try done. intros ?%bool_decide_eq_true_1 ?%bool_decide_eq_true_1. congruence. Qed.
