(* ===== verification/GoValue.v ===== *)
(** * Dynamically typed values ([interface{}]) and string-keyed maps

    Compose definitions, environment maps and port lists travel through the
    agent as JSON-decoded [interface{}] values.  A Go map is ranged over in an
    unspecified order; a map is represented by the list of its entries in the
    order an iteration visits them, so a statement about every list is a
    statement about every iteration order. *)
From S2P Require Import Prelude.

(** A [float64] is kept as the exact rational it denotes. *)
Inductive goval :=
  | VNil
  | VBool (b : bool)
  | VInt (z : Z)
  | VFloat (num : Z) (den : positive)
  | VStr (s : string)
  | VList (l : list goval)
  | VMap (m : list (string * goval)).

Abbreviation gomap := (list (string * goval)).

(** What the language and its library decide below the level of this model: the text
    of a non-integral or huge float, the result of converting a float that does not
    fit [uint64], the [uint64] a JSON decoder reads from a float beyond 2^53, and
    the rounding of such a [uint64] to the nearest float. *)
Class GoRuntime := {
  fmt_float : Z → positive → string;
  float_overflow_u64 : Z → N;
  json_big_uint : Z → option N;
  round_f64 : N → N;
}.

(** The amd64 runtime for integral floats, used by the concrete examples. *)
Definition amd64_runtime : GoRuntime :=
  {| fmt_float := λ n d, pretty n +:+ "/" +:+ pretty (Zpos d);
     float_overflow_u64 := λ _, 9223372036854775808%N;
     json_big_uint := λ _, None; round_f64 := id |}.

Fixpoint map_get {A} (k : string) (m : list (string * A)) : option A :=
  match m with
  | [] => None
  | (k', v) :: m' => if String.eqb k k' then Some v else map_get k m'
  end.

(** [m[k] = v]. *)
Fixpoint map_set {A} (k : string) (v : A) (m : list (string * A)) : list (string * A) :=
  match m with
  | [] => [(k, v)]
  | (k', v') :: m' => if String.eqb k k' then (k, v) :: m' else (k', v') :: map_set k v m'
  end.

(** [m[k]] of a [map[string]interface{}]: [nil] when absent. *)
Definition map_index (k : string) (m : gomap) : goval := default VNil (map_get k m).

Definition as_map (v : goval) : option gomap :=
  match v with VMap m => Some m | _ => None end.
Definition as_list (v : goval) : option (list goval) :=
  match v with VList l => Some l | _ => None end.
Definition as_str (v : goval) : option string :=
  match v with VStr s => Some s | _ => None end.

(** [services, ok := dockerCompose["services"].(map[string]interface{})]. *)
Definition compose_services (dc : gomap) : option gomap := as_map (map_index "services" dc).

Definition float_trunc (num : Z) (den : positive) : Z := Z.quot num (Zpos den).
Definition float_integral (num : Z) (den : positive) : bool := (Z.rem num (Zpos den) =? 0)%Z.

Section conversions.
Context `{GoRuntime}.

(** [uint64(f)] for a [float64]: truncation towards zero when it fits. *)
Definition u64_of_float (num : Z) (den : positive) : N :=
  let t := float_trunc num den in
  if ((0 <=? t) && (t <? Z.of_N two64))%Z then Z.to_N t else float_overflow_u64 t.

(** [uint64(i)] for an [int]: two's complement wrap-around. *)
Definition u64_of_int (z : Z) : N := Z.to_N (z mod Z.of_N two64).

(** [fmt.Sprint(v)]. *)
Fixpoint sprint (v : goval) : string :=
  match v with
  | VNil => "<nil>"
  | VBool b => if b then "true" else "false"
  | VInt z => pretty z
  | VFloat n d =>
      if float_integral n d && (Z.abs (float_trunc n d) <? 10 ^ 21)%Z
      then pretty (float_trunc n d) else fmt_float n d
  | VStr s => s
  | VList l => "[" +:+ join_with " " (map sprint l) +:+ "]"
  | VMap m =>
      (* maps are printed in key order *)
      let texts := map (λ kv, (kv.1, sprint kv.2)) m in
      let keys := sort_strings (map fst texts) in
      "map[" +:+ join_with " " (map (λ k, k +:+ ":" +:+ default "" (map_get k texts)) keys) +:+ "]"
  end.
End conversions.

(** A JSON round trip: integers come back as floats, everything else as it was. *)
Fixpoint json_roundtrip (v : goval) : goval :=
  match v with
  | VInt z => VFloat z 1
  | VList l => VList (map json_roundtrip l)
  | VMap m => VMap (map (λ kv, (kv.1, json_roundtrip kv.2)) m)
  | _ => v
  end.

(** ** Map lemmas *)

Lemma map_get_set_eq {A} k (v : A) m : map_get k (map_set k v m) = Some v.
Proof.
  induction m as [|[k' v'] m IH]; simpl; [by rewrite String.eqb_refl|].
  destruct (String.eqb k k') eqn:E; simpl; [by rewrite String.eqb_refl|by rewrite E].
Qed.

Lemma map_get_set_ne {A} k k' (v : A) m :
  k ≠ k' → map_get k' (map_set k v m) = map_get k' m.
Proof.
  intros Hne. induction m as [|[j w] m IH]; simpl.
  - destruct (String.eqb_spec k' k); congruence.
  - destruct (String.eqb_spec k j) as [->|]; simpl.
    + destruct (String.eqb_spec k' j); congruence.
    + by rewrite IH.
Qed.

Lemma map_get_set {A} k k' (v : A) m :
  map_get k' (map_set k v m) = if String.eqb k' k then Some v else map_get k' m.
Proof.
  destruct (String.eqb_spec k' k) as [->|Hne]; [apply map_get_set_eq|].
  by apply map_get_set_ne.
Qed.

Lemma map_get_elem {A} k (v : A) m : map_get k m = Some v → (k, v) ∈ m.
Proof.
  induction m as [|[k' v'] m IH]; simpl; [done|].
  destruct (String.eqb_spec k k') as [->|]; [intros [= ->]; left|right; auto].
Qed.

Lemma map_index_set_eq k v m : map_index k (map_set k v m) = v.
Proof. unfold map_index. by rewrite map_get_set_eq. Qed.

Lemma map_index_set_ne k k' v m : k ≠ k' → map_index k' (map_set k v m) = map_index k' m.
Proof. intros. unfold map_index. by rewrite map_get_set_ne. Qed.

Lemma map_set_keys {A} k (v : A) m :
  k ∈ map fst m → map fst (map_set k v m) = map fst m.
Proof.
  induction m as [|[k' v'] m IH]; simpl; [by intros ?%elem_of_nil|].
  destruct (String.eqb_spec k k') as [->|Hne]; simpl; [done|].
  intros [?|?]%elem_of_cons; [congruence|]. by rewrite IH.
Qed.
