(* ===== verification/Common.v ===== *)
(** * Shared constants, names and payloads (src/src/common)

    [constants.go] (states, stages and their classifications), the naming
    functions and coercions of [utils.go], and the records of [types.go]. *)
From S2P Require Import Prelude Errdefs GoValue.

(** ** States and stages *)

(** [AppState] is a Go string type: the declared constants, or any other
    string a backend or database row may hold (the empty one included). *)
Inductive AppState :=
  | PRESENT | REMOVED | UNINSTALLED | FAILED | BUILT | BUILDING | TRANSFERED
  | TRANSFERING | PUBLISHING | PUBLISHED | DOWNLOADING | STARTING | STOPPING
  | STOPPED | UPDATING | DELETING | RUNNING
  | OtherState (s : string).

#[export] Instance AppState_eq_dec : EqDecision AppState.
Proof. solve_decision. Defined.

Inductive Stage := DEV | PROD | OtherStage (s : string).

#[export] Instance Stage_eq_dec : EqDecision Stage.
Proof. solve_decision. Defined.

Definition stage_string (st : Stage) : string :=
  match st with DEV => "DEV" | PROD => "PROD" | OtherStage s => s end.

Definition state_string (s : AppState) : string :=
  match s with
  | PRESENT => "PRESENT" | REMOVED => "REMOVED" | UNINSTALLED => "UNINSTALLED"
  | FAILED => "FAILED" | BUILT => "BUILT" | BUILDING => "BUILDING"
  | TRANSFERED => "TRANSFERED" | TRANSFERING => "TRANSFERING"
  | PUBLISHING => "PUBLISHING" | PUBLISHED => "PUBLISHED"
  | DOWNLOADING => "DOWNLOADING" | STARTING => "STARTING"
  | STOPPING => "STOPPING" | STOPPED => "STOPPED" | UPDATING => "UPDATING"
  | DELETING => "DELETING" | RUNNING => "RUNNING" | OtherState s => s
  end.

Definition known_states : list AppState :=
  [PRESENT; REMOVED; UNINSTALLED; FAILED; BUILT; BUILDING; TRANSFERED; TRANSFERING;
   PUBLISHING; PUBLISHED; DOWNLOADING; STARTING; STOPPING; STOPPED; UPDATING;
   DELETING; RUNNING].

(** The state a stored string denotes: the constant of that text if there is one. *)
Definition state_of_string (s : string) : AppState :=
  default (OtherState s) (list_find (λ c, state_string c = s) known_states ≫= λ ic, Some ic.2).

Definition empty_state : AppState := OtherState "".

Inductive UpdateStatus := COMPLETED | CANCELED | PENDING_REMOTE_CONFIRMATION | NoUpdateStatus.

#[export] Instance UpdateStatus_eq_dec : EqDecision UpdateStatus.
Proof. solve_decision. Defined.

Definition IsCancelableState (s : AppState) : bool :=
  match s with
  | BUILDING | PUBLISHING | DOWNLOADING | TRANSFERING | UPDATING => true
  | _ => false
  end.

Inductive LogType := PULL | PUSH | BUILD | APP.

Definition GetCurrentLogType (currentState : AppState) : LogType :=
  if bool_decide (currentState = DOWNLOADING) || bool_decide (currentState = UPDATING) then PULL
  else if bool_decide (currentState = PUBLISHING) then PUSH
  else if bool_decide (currentState = BUILDING) then BUILD
  else APP.

Definition IsDiskGrowingState (s : AppState) : bool :=
  match s with
  | RUNNING | PRESENT | BUILT | BUILDING | PUBLISHING | PUBLISHED | DOWNLOADING | UPDATING => true
  | _ => false
  end.

Definition TransientToActualState (s : AppState) : AppState :=
  match s with
  | BUILDING | TRANSFERED | DOWNLOADING | TRANSFERING | PUBLISHING | UPDATING | STOPPING => PRESENT
  | DELETING => REMOVED
  | STARTING => RUNNING
  | _ => s
  end.

Definition IsTransientState (s : AppState) : bool :=
  match s with
  | BUILDING | BUILT | TRANSFERED | DELETING | TRANSFERING | PUBLISHING | PUBLISHED
  | DOWNLOADING | STOPPING | UPDATING | STARTING => true
  | _ => false
  end.

(** The exit code is accepted and ignored, as in the source. *)
Definition ContainerStateToAppState (containerState : string) (exitCode : Z) : AppState + error :=
  let unknownStateErr := Plain "unkown state" in
  if String.eqb containerState "running" then inl RUNNING
  else if String.eqb containerState "created" then inl PRESENT
  else if String.eqb containerState "removing" then inl STOPPING
  else if String.eqb containerState "paused" then inr unknownStateErr
  else if String.eqb containerState "restarting" then inl FAILED
  else if String.eqb containerState "exited" then inl FAILED
  else if String.eqb containerState "dead" then inl FAILED
  else inr unknownStateErr.

(** ** Names *)

Definition underscore : ascii := "_"%char.

Definition BuildContainerName (stage : Stage) (appKey : N) (appName : string) : string :=
  to_lower (stage_string stage +:+ "_" +:+ itoa appKey +:+ "_" +:+ appName).

Definition BuildComposeContainerName (stage : Stage) (appKey : N) (appName : string) : string :=
  to_lower (stage_string stage +:+ "_" +:+ itoa appKey +:+ "_" +:+ appName +:+ "_compose").

Definition project_char (a : ascii) : bool :=
  let n := N_of_ascii a in
  ((97 <=? n) && (n <=? 122) || (48 <=? n) && (n <=? 57) || (n =? 95) || (n =? 45))%N.

Definition separator_char (a : ascii) : bool :=
  let n := N_of_ascii a in ((n =? 95) || (n =? 45))%N.

Definition NormalizeComposeProjectName (name : string) : string :=
  trim_left separator_char (str_filter project_char (to_lower name)).

Definition BuildImageName (stage : Stage) (arch : string) (appKey : N) (appName : string) : string :=
  to_lower (stage_string stage +:+ "_" +:+ arch +:+ "_" +:+ itoa appKey +:+ "_" +:+ appName).

Definition BuildRegistryImageName (registryURL mainRepositoryName imageName : string) : string :=
  to_lower (registryURL +:+ mainRepositoryName +:+ imageName).

Definition BuildDockerBuildID (appKey : N) (appName : string) : string :=
  "build_" +:+ itoa appKey +:+ "_" +:+ appName.
Definition BuildDockerPullID (appKey : N) (appName : string) : string :=
  "pull_" +:+ itoa appKey +:+ "_" +:+ appName.
Definition BuildDockerPushID (appKey : N) (appName : string) : string :=
  "push_" +:+ itoa appKey +:+ "_" +:+ appName.

(** ** Topics *)

Definition topicPrefix : string := "re.mgmt".
Definition BuildExternalApiTopic (serialNumber topic : string) : string :=
  topicPrefix +:+ "." +:+ serialNumber +:+ "." +:+ topic.

Definition BuildDownloadOSUpdateProgress (serialNumber : string) : string := BuildExternalApiTopic serialNumber "download_os_update_progress".
Definition BuildInstallOSUpdateProgress (serialNumber : string) : string := BuildExternalApiTopic serialNumber "install_os_update_progress".
Definition BuildPerformOSUpdateProgress (serialNumber : string) : string := BuildExternalApiTopic serialNumber "perform_os_update_progress".
Definition BuildTunnelStateUpdate (serialNumber : string) : string := BuildExternalApiTopic serialNumber "tunnel_state_update/onreload".

(** The leading-slash cleanup shared by the two parsers. *)
Definition drop_leading_slash (s : string) : string :=
  match s with
  | String a s' => if Ascii.eqb a "/" then s' else s
  | "" => s
  end.

Definition stage_of_prefix (p : string) : Stage :=
  if String.eqb p "dev" then DEV
  else if String.eqb p "prod" then PROD
  else if String.eqb p "pub" then DEV
  else OtherStage "".

Definition ParseContainerName (containerName : string) : (Stage * N * string) + error :=
  if String.eqb containerName "" then inr (Plain "container name is empty")
  else match split_on underscore (drop_leading_slash containerName) with
       | s0 :: s1 :: s2 :: rest =>
           match parse_uint 64 s1 with
           | Some appKey => inl (stage_of_prefix s0, appKey, join_with underscore (s2 :: rest))
           | None => inr (Plain "strconv.ParseUint")
           end
       | _ => inr (Plain "invalid container name")
       end.

Definition ParseComposeContainerName (containerName : string) : (Stage * N * string) + error :=
  if String.eqb containerName "" then inr (Plain "container name is empty")
  else match split_on underscore (drop_leading_slash containerName) with
       | s0 :: s1 :: s2 :: s3 :: _ =>
           if String.eqb s3 "compose" then
             match parse_uint 64 s1 with
             | Some appKey => inl (stage_of_prefix s0, appKey, s2)
             | None => inr (Plain "strconv.ParseUint")
             end
           else inr (Plain "invalid compose container name")
       | _ => inr (Plain "invalid compose container name")
       end.

(** ** Environment strings *)

Definition newline : ascii := "010"%char.
Definition tab : ascii := "009"%char.
Definition carriage_return : ascii := "013"%char.
Definition backslash : ascii := "\"%char.

(** [strings.ReplaceAll] of a one-character string. *)
Fixpoint replace_char (c : ascii) (by_ : string) (s : string) : string :=
  match s with
  | "" => ""
  | String a s' => if Ascii.eqb a c then by_ +:+ replace_char c by_ s' else String a (replace_char c by_ s')
  end.

Definition EscapeNewlineCharacters (input : string) : string :=
  let input := replace_char newline (String backslash "n") input in
  let input := replace_char tab (String backslash "t") input in
  replace_char carriage_return (String backslash "r") input.

Section env_arrays.
Context `{GoRuntime}.

(** One [range] step of the two functions below: the type assertion
    [entry.(map[string]interface{})] panics ([None]) on any other value. *)
Definition env_entry (field : string) (entry : goval) : option goval :=
  m ← as_map entry; Some (map_index field m).

Definition env_line (key : string) (value : goval) : string :=
  key +:+ "=" +:+ EscapeNewlineCharacters (sprint value).

Fixpoint EnvironmentTemplateToStringArray (environmentsTemplateMap : gomap) : option (list string) :=
  match environmentsTemplateMap with
  | [] => Some []
  | (key, entry) :: rest =>
      value ← env_entry "defaultValue" entry;
      lines ← EnvironmentTemplateToStringArray rest;
      Some (match value with VNil => lines | _ => env_line key value :: lines end)
  end.

Fixpoint EnvironmentVarsToStringArray (environmentsMap : gomap) : option (list string) :=
  match environmentsMap with
  | [] => Some []
  | (key, entry) :: rest =>
      value ← env_entry "value" entry;
      lines ← EnvironmentVarsToStringArray rest;
      Some (env_line key value :: lines)
  end.
End env_arrays.

(** ** Ordinals *)

Definition Ordinal (x : N) : string :=
  let suffix :=
    match (x mod 10)%N with
    | 1%N => if (x mod 100 =? 11)%N then "th" else "st"
    | 2%N => if (x mod 100 =? 12)%N then "th" else "nd"
    | 3%N => if (x mod 100 =? 13)%N then "th" else "rd"
    | _ => "th"
    end in
  (* strconv.Itoa(int(x)): the conversion of a uint above MaxInt64 wraps *)
  (if (x <? 2 ^ 63)%N then itoa x else pretty (Z.of_N x - Z.of_N two64)%Z) +:+ suffix.

(** ** Free ports *)

(** The first port from [startPort] on that can be listened on; [fuel] is the number of ports
    up to 65535. *)
Fixpoint free_port_from (listens : Z → bool) (fuel : nat) (port : Z) : Z + error :=
  match fuel with
  | O => inr (Plain "no free port available")
  | S fuel => if listens port then inl port else free_port_from listens fuel (port + 1)
  end.

Definition GetFreePortFromStart (listens : Z → bool) (startPort : Z) : Z + error :=
  free_port_from listens (Z.to_nat (65536 - startPort)) startPort.

(** ** Number coercion *)

(** The dynamic types [ToUint64] distinguishes. *)
Inductive wamp_number :=
  | WUint64 (n : N) | WUint32 (n : N) | WUint (n : N)
  | WInt64 (z : Z) | WInt (z : Z)
  | WFloat64 (num : Z) (den : positive)
  | WJsonNumber (s : string) | WString (s : string) | WOther.

Section coercion.
Context `{GoRuntime}.

Definition ToUint64 (value : wamp_number) : option N :=
  match value with
  | WUint64 n | WUint32 n | WUint n => Some n
  | WInt64 z | WInt z => if (z <? 0)%Z then None else Some (Z.to_N z)
  | WFloat64 num den =>
      if (num <? 0)%Z || negb (float_integral num den) then None
      else Some (u64_of_float num den)
  | WJsonNumber s | WString s => parse_uint 64 s
  | WOther => None
  end.
End coercion.

(** ** Records of types.go *)

Record StageBasedResult := { Dev : string; Prod : string }.

Record DockerCredential := { Username : string; Password : string }.

Record PortForwardRule := {
  pr_Main : bool;
  pr_RuleName : string;
  pr_Active : bool;
  pr_Public : bool;
  pr_Port : N;
  pr_Protocol : string;
  pr_LocalIP : string;
  pr_RemotePortEnvironment : string;
  pr_RemotePort : N;
  pr_HostPort : N;
  pr_CloudRemotePort : N;
}.

#[export] Instance PortForwardRule_eq_dec : EqDecision PortForwardRule.
Proof. solve_decision. Defined.

Record TransitionPayload := {
  tp_RequestedState : AppState;
  tp_CurrentState : AppState;
  tp_Stage : Stage;
  tp_RequestorAccountKey : N;
  tp_DeviceOwnerAccountKey : N;
  tp_DeviceToAppKey : N;
  tp_AppKey : N;
  tp_InstanceKey : N;
  tp_AppCredEpoch : N;
  tp_AppName : string;
  tp_ImageName : StageBasedResult;
  tp_RegistryImageName : StageBasedResult;
  tp_ContainerName : StageBasedResult;
  tp_DockerCredentials : option (list (string * DockerCredential));
  tp_EnvironmentVariables : option gomap;
  tp_EnvironmentTemplate : option gomap;
  tp_DockerCompose : option gomap;
  tp_NewDockerCompose : option gomap;
  tp_Ports : list goval;
  tp_PublishContainerName : string;
  tp_RegisteryToken : string;
  tp_NewestVersion : string;
  tp_PresentVersion : string;
  tp_ReleaseKey : N;
  tp_NewReleaseKey : N;
  tp_Version : string;
  tp_RequestUpdate : bool;
  tp_Retrying : bool;
  tp_CancelTransition : bool;
}.

(** The slice of the configuration the agent core reads. *)
Record Config := {
  cfg_SerialNumber : string;
  cfg_DeviceKey : N;
  cfg_SwarmKey : N;
  cfg_Name : string;
  cfg_SwarmName : string;
  cfg_SwarmOwnerName : string;
  cfg_Secret : string;
  cfg_DockerRegistryURL : string;
  cfg_DockerMainRepository : string;
  cfg_DeviceEndpointURL : string;
  cfg_ReswarmBaseURL : string;
  cfg_ApplianceDomain : string;
  cfg_Environment : string;
  cfg_AppsDirectory : string;
  cfg_AppsSharedDir : string;
  cfg_AppsBuildDir : string;
  cfg_AppsComposeDir : string;
  cfg_AgentDir : string;
  cfg_CompressedBuildExtension : string;
}.

(** [initContainerData] and [BuildTransitionPayload]; [imageArchName] is
    [sysInfo.Arch + sysInfo.Variant] of the host. *)
Definition BuildTransitionPayload (imageArchName : string) (config : Config)
    (appKey : N) (appName : string) (requestorAccountKey : N) (stage : Stage)
    (currentState requestedState : AppState) (releaseKey newReleaseKey : N) : TransitionPayload :=
  let devImageName := BuildImageName DEV imageArchName appKey appName in
  let prodImageName := BuildImageName PROD imageArchName appKey appName in
  let registry := BuildRegistryImageName (cfg_DockerRegistryURL config) (cfg_DockerMainRepository config) in
  {| tp_RequestedState := requestedState;
     tp_CurrentState := currentState;
     tp_Stage := stage;
     tp_RequestorAccountKey := requestorAccountKey;
     tp_DeviceOwnerAccountKey := 0;
     tp_DeviceToAppKey := 0;
     tp_AppKey := appKey;
     tp_InstanceKey := 0;
     tp_AppCredEpoch := 0;
     tp_AppName := appName;
     tp_ImageName := {| Dev := devImageName; Prod := prodImageName |};
     tp_RegistryImageName := {| Dev := registry devImageName; Prod := registry prodImageName |};
     tp_ContainerName := {| Dev := BuildContainerName DEV appKey appName;
                            Prod := BuildContainerName PROD appKey appName |};
     tp_DockerCredentials := None;
     tp_EnvironmentVariables := None;
     tp_EnvironmentTemplate := None;
     tp_DockerCompose := None;
     tp_NewDockerCompose := None;
     tp_Ports := [];
     tp_PublishContainerName := BuildContainerName (OtherStage "pub") appKey appName;
     tp_RegisteryToken := "";
     tp_NewestVersion := "";
     tp_PresentVersion := "";
     tp_ReleaseKey := releaseKey;
     tp_NewReleaseKey := newReleaseKey;
     tp_Version := "";
     tp_RequestUpdate := false;
     tp_Retrying := false;
     tp_CancelTransition := false |}.

(** The container-name topic of a stage, as the transitions select it. *)
Definition stage_container_name (stage : Stage) (p : TransitionPayload) : string :=
  if bool_decide (stage = DEV) then Dev (tp_ContainerName p) else Prod (tp_ContainerName p).

(** ** Lemmas *)

Lemma state_of_state_string s :
  (∀ t, s ≠ OtherState t) → state_of_string (state_string s) = s.
Proof. destruct s; try reflexivity. intros H. by destruct (H s). Qed.

Lemma stage_of_prefix_lower stage :
  stage = DEV ∨ stage = PROD → stage_of_prefix (to_lower (stage_string stage)) = stage.
Proof. by intros [-> | ->]. Qed.

Lemma BuildContainerName_eq stage key name :
  BuildContainerName stage key name =
  to_lower (stage_string stage) +:+ String underscore (itoa key +:+ String underscore (to_lower name)).
Proof. unfold BuildContainerName. by rewrite !to_lower_app, to_lower_itoa. Qed.

Lemma BuildComposeContainerName_eq stage key name :
  BuildComposeContainerName stage key name =
  to_lower (stage_string stage) +:+ String underscore
    (itoa key +:+ String underscore (to_lower name +:+ String underscore "compose")).
Proof. unfold BuildComposeContainerName. by rewrite !to_lower_app, to_lower_itoa. Qed.

Lemma itoa_lacks_underscore n : lacks underscore (itoa n) = true.
Proof. by apply itoa_lacks. Qed.

Lemma to_lower_lacks_underscore s : lacks underscore (to_lower s) = lacks underscore s.
Proof.
  unfold lacks, to_lower. induction s as [|a s IH]; simpl; [done|]. rewrite IH. f_equal.
  by destruct a as [[] [] [] [] [] [] [] []].
Qed.

Lemma stage_prefix_clean stage :
  stage = DEV ∨ stage = PROD →
  lacks underscore (to_lower (stage_string stage)) = true ∧
  ∀ t, drop_leading_slash (to_lower (stage_string stage) +:+ t) = to_lower (stage_string stage) +:+ t.
Proof. by intros [-> | ->]. Qed.

(** The pieces of a built name between underscores. *)
Lemma split_container_name stage key rest :
  stage = DEV ∨ stage = PROD →
  split_on underscore (drop_leading_slash (to_lower (stage_string stage) +:+
    String underscore (itoa key +:+ String underscore rest)))
  = to_lower (stage_string stage) :: itoa key :: split_on underscore rest.
Proof.
  intros Hst. destruct (stage_prefix_clean stage Hst) as [Hl Hd].
  rewrite Hd, split_on_app by done. rewrite split_on_app by apply itoa_lacks_underscore. done.
Qed.

Lemma built_name_nonempty stage t : stage = DEV ∨ stage = PROD →
  String.eqb (to_lower (stage_string stage) +:+ t) "" = false.
Proof. by intros [-> | ->]. Qed.

Lemma parse_container_text stage key rest :
  stage = DEV ∨ stage = PROD → (key < two64)%N →
  ParseContainerName (to_lower (stage_string stage) +:+ String underscore (itoa key +:+ String underscore rest))
  = inl (stage, key, rest).
Proof.
  intros Hst Hk. unfold ParseContainerName.
  rewrite built_name_nonempty, split_container_name by done.
  destruct (split_on underscore rest) as [|w ws] eqn:E.
  { by apply split_on_nonempty in E. }
  rewrite parse_uint_itoa by done. rewrite stage_of_prefix_lower by done.
  by rewrite <- E, join_split.
Qed.

Lemma parse_built_container_name stage key name :
  stage = DEV ∨ stage = PROD → (key < two64)%N →
  ParseContainerName (BuildContainerName stage key name) = inl (stage, key, to_lower name).
Proof. intros Hst Hk. rewrite BuildContainerName_eq. by apply parse_container_text. Qed.

Lemma parse_built_compose_name stage key name :
  stage = DEV ∨ stage = PROD → (key < two64)%N → lacks underscore name = true →
  ParseComposeContainerName (BuildComposeContainerName stage key name) = inl (stage, key, to_lower name).
Proof.
  intros Hst Hk Hl. unfold ParseComposeContainerName.
  rewrite BuildComposeContainerName_eq, built_name_nonempty, split_container_name by done.
  rewrite split_on_app by (by rewrite to_lower_lacks_underscore). simpl.
  rewrite parse_uint_itoa, stage_of_prefix_lower by done. done.
Qed.

Lemma NormalizeComposeProjectName_chars name :
  str_forall project_char (NormalizeComposeProjectName name) = true.
Proof.
  unfold NormalizeComposeProjectName.
  pose proof (str_forall_filter project_char (to_lower name)) as H. revert H.
  generalize (str_filter project_char (to_lower name)). intros s.
  induction s as [|a s IH]; simpl; [done|]. intros H. destruct (separator_char a); [|done].
  apply IH. by apply andb_prop in H as [_ ?].
Qed.

Lemma project_char_lower s : str_forall project_char s = true → to_lower s = s.
Proof.
  unfold to_lower. induction s as [|a s IH]; simpl; [done|]. intros [Ha Hs]%andb_prop.
  rewrite IH by done. f_equal. by destruct a as [[] [] [] [] [] [] [] []].
Qed.

Lemma trim_left_idem f s : trim_left f (trim_left f s) = trim_left f s.
Proof.
  induction s as [|a s IH]; simpl; [done|]. destruct (f a) eqn:E; [done|]. simpl. by rewrite E.
Qed.

(** A normalized name is a fixed point: the label docker compose stamps and the
    name the agent derives agree however often either side normalizes. *)
Lemma NormalizeComposeProjectName_idem name :
  NormalizeComposeProjectName (NormalizeComposeProjectName name) = NormalizeComposeProjectName name.
Proof.
  pose proof (NormalizeComposeProjectName_chars name) as H.
  unfold NormalizeComposeProjectName at 1.
  rewrite project_char_lower, str_filter_id by done. unfold NormalizeComposeProjectName.
  apply trim_left_idem.
Qed.

(** ** Properties *)

(** container names parse back to the app they were built for; app names are
    compared case-insensitively. *)
Theorem container_name_roundtrip stage key name :
  stage = DEV ∨ stage = PROD → (key < two64)%N →
  ParseContainerName (BuildContainerName stage key name) = inl (stage, key, to_lower name)
  ∧ ParseContainerName ("/" +:+ BuildContainerName stage key name) = inl (stage, key, to_lower name).
Proof.
  intros Hst Hk. split; [by apply parse_built_container_name|].
  rewrite <- parse_built_container_name with (stage := stage) (name := name) by done.
  unfold ParseContainerName. rewrite BuildContainerName_eq, built_name_nonempty by done.
  by rewrite (proj2 (stage_prefix_clean stage Hst)).
Qed.

Lemma container_name_roundtrip_witness :
  ParseContainerName "/prod_6_net_data" = inl (PROD, 6%N, "net_data").
Proof.
  apply (container_name_roundtrip PROD 6 "Net_Data"); [by right|reflexivity].
Defined.

(** compose project names parse back exactly when the app name has no
    underscore: with one, the parser rejects the name or returns another app name. *)
Theorem compose_name_roundtrip_iff stage key name :
  stage = DEV ∨ stage = PROD → (key < two64)%N →
  ParseComposeContainerName (BuildComposeContainerName stage key name) = inl (stage, key, to_lower name)
  ↔ lacks underscore name = true.
Proof.
  intros Hst Hk. split; [|by apply parse_built_compose_name]. unfold ParseComposeContainerName.
  rewrite BuildComposeContainerName_eq, built_name_nonempty, split_container_name by done.
  rewrite <- (to_lower_lacks_underscore name).
  intros Hp. pose proof (split_on_parts underscore (to_lower name +:+ String underscore "compose")) as Hf.
  destruct (split_on underscore (to_lower name +:+ String underscore "compose"))
    as [|w [|w' ws]]; [done|done|].
  destruct (String.eqb w' "compose"); [|done].
  destruct (parse_uint 64 (itoa key)); [|done]. injection Hp as _ _ <-.
  by inversion Hf.
Qed.

Lemma compose_name_roundtrip_iff_witness :
  ParseComposeContainerName "prod_6_wireguard_easy_compose" ≠ inl (PROD, 6%N, "wireguard_easy").
Proof.
  intros H. assert (lacks underscore "WireGuard_Easy" = true) as Hl.
  { apply (proj1 (compose_name_roundtrip_iff PROD 6 "WireGuard_Easy" (or_intror eq_refl) eq_refl)).
    exact H. }
  vm_compute in Hl. discriminate Hl.
Defined.

(** settling a state: the actual state behind a transient one is never
    cancelable, settling is idempotent, and every cancelable state is transient. *)
Theorem transient_states_settle s :
  IsCancelableState (TransientToActualState s) = false
  ∧ TransientToActualState (TransientToActualState s) = TransientToActualState s
  ∧ (IsCancelableState s = true → IsTransientState s = true)
  ∧ (IsTransientState (TransientToActualState s) = true ↔ s = BUILT ∨ s = PUBLISHED).
Proof.
  destruct s; simpl; repeat split; try done; try (by intros [?|?]); auto.
Qed.
