(* ===== verification/HostPorts.v ===== *)
(** * Host port registry (src/src/apps/hostports.go)

    The registry that hands out host ports to app containers: its state, every
    operation, the ownership invariant and reachability through operations. *)
From S2P Require Import Prelude Common.

Definition hostPortRangeStart : N := 40000.
Definition hostPortRangeEnd : N := 49999.

Record hostPortKey := {
  hk_Stage : Stage;
  hk_AppKey : N;
  hk_Protocol : string;
  hk_Port : N;
  hk_Service : string;
}.

#[export] Instance hostPortKey_eq_dec : EqDecision hostPortKey.
Proof. solve_decision. Defined.

#[export] Instance Stage_countable : Countable Stage.
Proof.
  refine (inj_countable' (λ st, match st with
    | DEV => inl false | PROD => inl true | OtherStage s => inr s end)
    (λ x, match x with inl false => DEV | inl true => PROD | inr s => OtherStage s end) _).
  by intros [].
Defined.

#[export] Instance hostPortKey_countable : Countable hostPortKey.
Proof.
  refine (inj_countable'
    (λ k, (hk_Stage k, hk_AppKey k, hk_Protocol k, hk_Port k, hk_Service k))
    (λ '(a, b, c, d, e), Build_hostPortKey a b c d e) _).
  by intros [].
Defined.

Record HostPortRegistry := {
  assigned : gmap hostPortKey N;
  inUse : gset N;
}.

Definition NewHostPortRegistry : HostPortRegistry := {| assigned := ∅; inUse := ∅ |}.

Definition record (r : HostPortRegistry) (key : hostPortKey) (port : N) : HostPortRegistry :=
  {| assigned := <[key := port]> (assigned r); inUse := {[port]} ∪ inUse r |}.

(** [delete(r.assigned, key); delete(r.inUse, port)]. *)
Definition forget (r : HostPortRegistry) (key : hostPortKey) (port : N) : HostPortRegistry :=
  {| assigned := delete key (assigned r); inUse := inUse r ∖ {[port]} |}.

Definition Get (r : HostPortRegistry) (key : hostPortKey) : option N := assigned r !! key.

Definition key_matches (stage : Stage) (appKey : N) (protocol : string) (port : N)
    (key : hostPortKey) : bool :=
  bool_decide (hk_Stage key = stage) && (hk_AppKey key =? appKey)%N
  && String.eqb (hk_Protocol key) protocol && (hk_Port key =? port)%N.

(** The range over the map stops at the first match. *)
Definition GetByPort (r : HostPortRegistry) (stage : Stage) (appKey : N) (protocol : string)
    (port : N) : option N :=
  snd ∘ snd <$> list_find (λ kv, key_matches stage appKey protocol port kv.1 = true)
    (map_to_list (assigned r)).

Section probing.
(** [probeFree]: whether the OS would let the agent bind the port now. *)
Variable probeFree : string → N → bool.

(** The scan of the pool, one port per unit of fuel. *)
Fixpoint scan_free (r : HostPortRegistry) (protocol : string) (fuel : nat) (port : N) : option N :=
  match fuel with
  | O => None
  | S fuel' =>
      if bool_decide (port ∈ inUse r) then scan_free r protocol fuel' (port + 1)
      else if negb (probeFree protocol port) then scan_free r protocol fuel' (port + 1)
      else Some port
  end.

Definition pool_size : nat := N.to_nat (hostPortRangeEnd + 1 - hostPortRangeStart).

Definition reserveFreeLocked (r : HostPortRegistry) (key : hostPortKey)
    : option N * HostPortRegistry :=
  match scan_free r (hk_Protocol key) pool_size hostPortRangeStart with
  | Some port => (Some port, record r key port)
  | None => (None, r)
  end.

Definition RecoverOrReserve (r : HostPortRegistry) (key : hostPortKey) (preferred : N)
    : option N * HostPortRegistry :=
  match assigned r !! key with
  | Some port => (Some port, r)
  | None =>
      if (0 <? preferred)%N && bool_decide (preferred ∉ inUse r)
      then (Some preferred, record r key preferred)
      else reserveFreeLocked r key
  end.

Definition ReserveDeclared (r : HostPortRegistry) (key : hostPortKey) : bool * HostPortRegistry :=
  if bool_decide (assigned r !! key = Some (hk_Port key)) then (true, r)
  else if bool_decide (hk_Port key ∈ inUse r) then (false, r)
  else (true, record r key (hk_Port key)).

Definition ReassignFresh (r : HostPortRegistry) (key : hostPortKey) : option N * HostPortRegistry :=
  let r' := match assigned r !! key with
            | Some port => forget r key port
            | None => r
            end in
  reserveFreeLocked r' key.

(** Keys of one app. *)
Definition of_app (stage : Stage) (appKey : N) (key : hostPortKey) : Prop :=
  hk_Stage key = stage ∧ hk_AppKey key = appKey.

#[export] Instance of_app_dec stage appKey key : Decision (of_app stage appKey key).
Proof. unfold of_app. apply _. Defined.

Definition app_ports (r : HostPortRegistry) (stage : Stage) (appKey : N) : gset N :=
  list_to_set (snd <$> filter (λ kv, of_app stage appKey kv.1) (map_to_list (assigned r))).

Definition ReleaseApp (r : HostPortRegistry) (stage : Stage) (appKey : N) : HostPortRegistry :=
  {| assigned := filter (λ kv, ¬ of_app stage appKey kv.1) (assigned r);
     inUse := inUse r ∖ app_ports r stage appKey |}.

(** Every assigned port is marked in use, and no port serves two keys. *)
Definition registry_wf (r : HostPortRegistry) : Prop :=
  (∀ k p, assigned r !! k = Some p → p ∈ inUse r) ∧
  (∀ k1 k2 p, assigned r !! k1 = Some p → assigned r !! k2 = Some p → k1 = k2).

(** ** Lemmas *)

Lemma pool_range q :
  (hostPortRangeStart ≤ q < hostPortRangeStart + N.of_nat pool_size)%N
  ↔ (hostPortRangeStart ≤ q ≤ hostPortRangeEnd)%N.
Proof. unfold pool_size. rewrite N2Nat.id. unfold hostPortRangeStart, hostPortRangeEnd. lia. Qed.

Lemma reserveFree_first r key :
  hostPortRangeStart ∉ inUse r → probeFree (hk_Protocol key) hostPortRangeStart = true →
  reserveFreeLocked r key = (Some hostPortRangeStart, record r key hostPortRangeStart).
Proof.
  intros Hin Hp. unfold reserveFreeLocked.
  assert (∃ n, pool_size = S n) as [n ->] by (exists (Nat.pred pool_size); by vm_compute).
  simpl. by rewrite bool_decide_false, Hp.
Qed.

(* ten thousand units of fuel: unfold only on request *)
#[local] Opaque pool_size.

Lemma record_wf r key port :
  registry_wf r → port ∉ inUse r → registry_wf (record r key port).
Proof.
  intros [Huse Hinj] Hfresh. split; simpl.
  - intros k p [[_ <-]|[_ ?]]%lookup_insert_Some; set_solver.
  - intros k1 k2 p [[<- <-]|[_ H1]]%lookup_insert_Some [[<- Hp]|[_ H2]]%lookup_insert_Some; eauto;
      subst; exfalso; eauto.
Qed.

Lemma forget_wf r key port :
  registry_wf r → assigned r !! key = Some port → registry_wf (forget r key port).
Proof.
  intros [Huse Hinj] Hkey. split; simpl.
  - intros k p [Hne Hk]%lookup_delete_Some. apply elem_of_difference. split; [eauto|].
    intros ->%elem_of_singleton. by apply Hne, (Hinj _ _ port).
  - intros k1 k2 p [_ H1]%lookup_delete_Some [_ H2]%lookup_delete_Some. eauto.
Qed.

Lemma scan_free_Some r protocol fuel port p :
  scan_free r protocol fuel port = Some p →
  (port ≤ p < port + N.of_nat fuel)%N ∧ (p ∉ inUse r) ∧ probeFree protocol p = true.
Proof.
  revert port. induction fuel as [|fuel IH]; intros port; simpl; [done|].
  case_bool_decide as Hin; [intros (?&?&?)%IH; split_and!; [lia..|done|done]|].
  destruct (probeFree protocol port) eqn:Hp; simpl.
  - intros [= <-]. split_and!; [lia..|done|done].
  - intros (?&?&?)%IH; split_and!; [lia..|done|done].
Qed.

Lemma scan_free_least r protocol fuel port p q :
  scan_free r protocol fuel port = Some p → (port ≤ q < p)%N →
  q ∈ inUse r ∨ probeFree protocol q = false.
Proof.
  revert port. induction fuel as [|fuel IH]; intros port; simpl; [done|].
  case_bool_decide as Hin; [|destruct (probeFree protocol port) eqn:Hp; simpl];
    intros Hs Hq; [..|]; try (destruct (decide (q = port)) as [->|]; [by auto|]; eapply IH; [done|lia]).
  injection Hs as <-. lia.
Qed.

Lemma scan_free_None r protocol fuel port q :
  scan_free r protocol fuel port = None → (port ≤ q < port + N.of_nat fuel)%N →
  q ∈ inUse r ∨ probeFree protocol q = false.
Proof.
  revert port. induction fuel as [|fuel IH]; intros port; simpl; [lia|].
  case_bool_decide as Hin; [|destruct (probeFree protocol port) eqn:Hp; simpl; [done|]];
    intros Hs Hq; (destruct (decide (q = port)) as [->|]; [by auto|]; eapply IH; [done|lia]).
Qed.

Lemma reserveFree_cases r key :
  (∃ p, reserveFreeLocked r key = (Some p, record r key p)
        ∧ (hostPortRangeStart ≤ p ≤ hostPortRangeEnd)%N
        ∧ (p ∉ inUse r) ∧ probeFree (hk_Protocol key) p = true
        ∧ ∀ q, (hostPortRangeStart ≤ q < p)%N → q ∈ inUse r ∨ probeFree (hk_Protocol key) q = false)
  ∨ (reserveFreeLocked r key = (None, r)
     ∧ ∀ q, (hostPortRangeStart ≤ q ≤ hostPortRangeEnd)%N →
            q ∈ inUse r ∨ probeFree (hk_Protocol key) q = false).
Proof.
  unfold reserveFreeLocked. destruct (scan_free _ _ _ _) as [p|] eqn:E.
  - left. exists p. pose proof (scan_free_Some _ _ _ _ _ E) as (?&?&?). rewrite <- pool_range.
    repeat (split; [done|]). intros q Hq. by eapply scan_free_least.
  - right. split; [done|]. intros q Hq%pool_range. by eapply scan_free_None.
Qed.

Lemma reserveFree_wf r key : registry_wf r → registry_wf (reserveFreeLocked r key).2.
Proof.
  intros Hwf. destruct (reserveFree_cases r key) as [(p&->&_&Hp&_)|[-> _]]; simpl; [|done].
  by apply record_wf.
Qed.

Lemma RecoverOrReserve_wf r key pref : registry_wf r → registry_wf (RecoverOrReserve r key pref).2.
Proof.
  intros Hwf. unfold RecoverOrReserve. destruct (assigned r !! key); [done|].
  destruct (_ && _) eqn:E; [|by apply reserveFree_wf]. bool_to_prop. by apply record_wf.
Qed.

Lemma ReserveDeclared_wf r key : registry_wf r → registry_wf (ReserveDeclared r key).2.
Proof.
  intros Hwf. unfold ReserveDeclared. repeat case_bool_decide; try done. by apply record_wf.
Qed.

Lemma ReassignFresh_wf r key : registry_wf r → registry_wf (ReassignFresh r key).2.
Proof.
  intros Hwf. unfold ReassignFresh. apply reserveFree_wf.
  destruct (assigned r !! key) eqn:E; [by apply forget_wf|done].
Qed.

Lemma elem_of_app_ports r stage appKey p :
  p ∈ app_ports r stage appKey ↔ ∃ k, assigned r !! k = Some p ∧ of_app stage appKey k.
Proof.
  unfold app_ports. rewrite elem_of_list_to_set, list_elem_of_fmap. split.
  - intros ([k q]&->&[Hof Hin]%list_elem_of_filter). exists k. by apply elem_of_map_to_list in Hin.
  - intros (k&Hk&Hof). exists (k, p). split; [done|]. apply list_elem_of_filter.
    by rewrite elem_of_map_to_list.
Qed.

Lemma ReleaseApp_wf r stage appKey : registry_wf r → registry_wf (ReleaseApp r stage appKey).
Proof.
  intros [Huse Hinj]. split; simpl.
  - intros k p [Hk Hof]%map_lookup_filter_Some. apply elem_of_difference. split; [eauto|].
    intros (k'&Hk'&Hof')%elem_of_app_ports. simpl in Hof. by rewrite (Hinj k k' p) in Hof.
  - intros k1 k2 p [H1 _]%map_lookup_filter_Some [H2 _]%map_lookup_filter_Some. eauto.
Qed.
End probing.


(** ** Operations as a step relation

    What the operating system reports free may change between operations, so
    each step carries its own probe. *)

Inductive registry_step : HostPortRegistry → HostPortRegistry → Prop :=
  | step_recover probe r key preferred :
      registry_step r (RecoverOrReserve probe r key preferred).2
  | step_declared r key :
      registry_step r (ReserveDeclared r key).2
  | step_reassign probe r key :
      registry_step r (ReassignFresh probe r key).2
  | step_release r stage appKey :
      registry_step r (ReleaseApp r stage appKey).

Definition reachable (r : HostPortRegistry) : Prop := rtc registry_step NewHostPortRegistry r.

Lemma registry_step_wf r r' : registry_step r r' → registry_wf r → registry_wf r'.
Proof.
  destruct 1; eauto using RecoverOrReserve_wf, ReserveDeclared_wf, ReassignFresh_wf, ReleaseApp_wf.
Qed.

Lemma new_wf : registry_wf NewHostPortRegistry.
Proof. split; simpl; [intros k p|intros k1 k2 p]; by rewrite lookup_empty. Qed.

Lemma reachable_wf r : reachable r → registry_wf r.
Proof.
  intros Hr. unfold reachable in Hr. pose proof new_wf as Hwf. revert Hwf.
  induction Hr as [|x y z Hxy _ IH]; [done|]. intros Hx. apply IH. by eapply registry_step_wf.
Qed.

#[export] Hint Resolve record_wf forget_wf RecoverOrReserve_wf ReserveDeclared_wf
  ReassignFresh_wf ReleaseApp_wf reachable_wf : agent.

(** ** Properties *)

(** C37: however the registry's operations are interleaved, no host port is ever
    assigned to two app ports, and every assigned port is marked in use. *)
Theorem host_ports_never_shared r k1 k2 p :
  reachable r → assigned r !! k1 = Some p → assigned r !! k2 = Some p →
  k1 = k2 ∧ p ∈ inUse r.
Proof. intros [Huse Hinj]%reachable_wf H1 H2. split; [by eapply Hinj|by eapply Huse]. Qed.

Definition ex_key (app port : N) : hostPortKey :=
  {| hk_Stage := PROD; hk_AppKey := app; hk_Protocol := "tcp"; hk_Port := port; hk_Service := "" |}.

Definition ex_registry : HostPortRegistry :=
  (RecoverOrReserve (λ _ _, true)
    (RecoverOrReserve (λ _ _, true) NewHostPortRegistry (ex_key 1 80) 0).2 (ex_key 2 80) 40000).2.

Lemma host_ports_never_shared_witness :
  assigned ex_registry !! ex_key 1 80 = Some 40000%N
  ∧ assigned ex_registry !! ex_key 2 80 = Some 40001%N
  ∧ ex_key 2 80 = ex_key 2 80 ∧ 40001%N ∈ inUse ex_registry.
Proof.
  split; [by vm_compute|]. split; [by vm_compute|].
  apply (host_ports_never_shared ex_registry _ _ 40001); [|by vm_compute|by vm_compute].
  unfold reachable, ex_registry. eapply rtc_l; [apply (step_recover (λ _ _, true) _ (ex_key 1 80) 0)|].
  eapply rtc_l; [apply (step_recover (λ _ _, true) _ (ex_key 2 80) 40000)|]. apply rtc_refl.
Defined.

(** [RecoverOrReserve] on every branch: an existing assignment is returned
    unchanged, a free preferred port is claimed verbatim, otherwise the least
    port of 40000-49999 that is neither held nor occupied is recorded; it fails,
    leaving the registry as it was, only when that range is exhausted. *)
Theorem RecoverOrReserve_spec probe r key preferred :
  match assigned r !! key with
  | Some port => RecoverOrReserve probe r key preferred = (Some port, r)
  | None =>
      if decide (preferred ≠ 0%N ∧ preferred ∉ inUse r)
      then RecoverOrReserve probe r key preferred = (Some preferred, record r key preferred)
      else
        (∃ p, RecoverOrReserve probe r key preferred = (Some p, record r key p)
          ∧ (hostPortRangeStart ≤ p ≤ hostPortRangeEnd)%N
          ∧ (p ∉ inUse r) ∧ probe (hk_Protocol key) p = true
          ∧ ∀ q, (hostPortRangeStart ≤ q < p)%N → q ∈ inUse r ∨ probe (hk_Protocol key) q = false)
        ∨ (RecoverOrReserve probe r key preferred = (None, r)
          ∧ ∀ q, (hostPortRangeStart ≤ q ≤ hostPortRangeEnd)%N →
                 q ∈ inUse r ∨ probe (hk_Protocol key) q = false)
  end.
Proof.
  unfold RecoverOrReserve. destruct (assigned r !! key) eqn:E; [done|].
  case_decide as Hd.
  - destruct Hd as [Hnz Hfree]. rewrite bool_decide_true by done.
    by rewrite (proj2 (N.ltb_lt 0 preferred)) by lia.
  - assert ((0 <? preferred)%N && bool_decide (preferred ∉ inUse r) = false) as ->.
    { apply andb_false_iff. destruct (decide (preferred = 0%N)) as [->|]; [by left|].
      right. apply bool_decide_eq_false_2. naive_solver. }
    apply reserveFree_cases.
Qed.

(** port assignments are stable: once a key has a port, asking again, with
    any preferred port and whatever the OS reports, returns that port and
    changes nothing; the assignments of other keys never change. *)
Theorem assignments_stable probe probe' r key preferred preferred' p r' :
  registry_wf r → RecoverOrReserve probe r key preferred = (Some p, r') →
  RecoverOrReserve probe' r' key preferred' = (Some p, r')
  ∧ ∀ k, k ≠ key → assigned r' !! k = assigned r !! k.
Proof.
  intros Hwf Hr. assert (assigned r' !! key = Some p ∧ ∀ k, k ≠ key → assigned r' !! k = assigned r !! k)
    as [Hkey Hother]; [|split; [unfold RecoverOrReserve; by rewrite Hkey|done]].
  pose proof (RecoverOrReserve_spec probe r key preferred) as Hspec.
  destruct (assigned r !! key) eqn:E; [rewrite Hspec in Hr; by injection Hr as <- <-|].
  case_decide; [rewrite Hspec in Hr; injection Hr as <- <-
               |destruct Hspec as [(q&Hq&_)|[Hq _]]; rewrite Hq in Hr; [injection Hr as <- <-|done]];
    (split; [apply lookup_insert_eq|intros; by apply lookup_insert_ne]).
Qed.

Lemma assignments_stable_witness :
  RecoverOrReserve (λ _ _, false) (record NewHostPortRegistry (ex_key 1 80) 40000) (ex_key 1 80) 41000
  = (Some 40000%N, record NewHostPortRegistry (ex_key 1 80) 40000).
Proof.
  apply (assignments_stable (λ _ _, true) (λ _ _, false) NewHostPortRegistry (ex_key 1 80) 0 41000);
    [apply new_wf|vm_compute; reflexivity].
Defined.

(** releasing an app removes exactly its assignments and makes exactly its
    ports available again; every other app keeps its ports. *)
Theorem ReleaseApp_frees_exactly r stage appKey :
  registry_wf r →
  (∀ k, assigned (ReleaseApp r stage appKey) !! k
        = if decide (of_app stage appKey k) then None else assigned r !! k)
  ∧ (∀ k p, of_app stage appKey k → assigned r !! k = Some p → p ∉ inUse (ReleaseApp r stage appKey))
  ∧ (∀ k p, ¬ of_app stage appKey k → assigned r !! k = Some p → p ∈ inUse (ReleaseApp r stage appKey)).
Proof.
  intros Hwf. pose proof (ReleaseApp_wf r stage appKey Hwf) as [Huse _].
  assert (∀ k, assigned (ReleaseApp r stage appKey) !! k
    = if decide (of_app stage appKey k) then None else assigned r !! k) as Hlook.
  { intros k. simpl. rewrite map_lookup_filter. simpl. destruct (assigned r !! k) as [p|]; simpl; [|by case_decide].
    destruct (decide (of_app stage appKey k)).
    - by rewrite option_guard_False by (intros ?; contradiction).
    - by rewrite option_guard_True. }
  split_and!; [done|..].
  - intros k p Hof Hk. simpl. rewrite elem_of_difference. intros [_ Hn]. apply Hn, elem_of_app_ports. eauto.
  - intros k p Hof Hk. apply (Huse k). rewrite Hlook. by rewrite decide_False.
Qed.

Lemma ReleaseApp_frees_exactly_witness :
  (40000%N ∉ inUse (ReleaseApp ex_registry PROD 1)) ∧ 40001%N ∈ inUse (ReleaseApp ex_registry PROD 1).
Proof.
  destruct (ReleaseApp_frees_exactly ex_registry PROD 1) as (_&Hfree&Hkeep).
  { apply RecoverOrReserve_wf, RecoverOrReserve_wf, new_wf. }
  split; [apply (Hfree (ex_key 1 80)); [by split|by vm_compute]
         |apply (Hkeep (ex_key 2 80)); [by intros [_ ?]|by vm_compute]].
Defined.

(** [ReserveDeclared] can strand a port: when a DEV key that holds a pool
    port later claims its declared port, the old port stays marked in use with
    no owner, and releasing the app does not free it. *)
Theorem ReserveDeclared_leaks_port probe :
  probe "tcp" hostPortRangeStart = true →
  ∃ r key, reachable r ∧ (40000%N ∈ inUse r) ∧ (∀ k, assigned r !! k ≠ Some 40000%N)
    ∧ 40000%N ∈ inUse (ReleaseApp r (hk_Stage key) (hk_AppKey key)).
Proof.
  intros Hp.
  set (dev := {| hk_Stage := DEV; hk_AppKey := 1; hk_Protocol := "tcp"; hk_Port := 80; hk_Service := "" |}).
  set (r0 := record NewHostPortRegistry dev 40000).
  set (r1 := record r0 dev 80).
  assert (registry_step NewHostPortRegistry r0) as H0.
  { replace r0 with (RecoverOrReserve probe NewHostPortRegistry dev 0).2; [apply step_recover|].
    unfold RecoverOrReserve. simpl. by rewrite reserveFree_first. }
  assert (registry_step r0 r1) as H1.
  { replace r1 with (ReserveDeclared r0 dev).2; [apply step_declared|].
    unfold ReserveDeclared, r0, r1. rewrite !bool_decide_false; [done|..]; simpl; [set_solver|].
    by rewrite lookup_insert_eq. }
  assert (40000%N ∈ inUse r1) as Hin by (simpl; set_solver).
  assert (∀ k, assigned r1 !! k ≠ Some 40000%N) as Hno.
  { intros k. simpl. intros [[_ ?]|[Hne [[? _]|[_ Hk]]%lookup_insert_Some]]%lookup_insert_Some;
      [done|done|by rewrite lookup_empty in Hk]. }
  exists r1, dev. split_and!; [|done|done|].
  - unfold reachable. by eapply rtc_l; [|apply rtc_once].
  - simpl. apply elem_of_difference. split; [done|].
    intros (k&Hk&_)%elem_of_app_ports. by apply (Hno k).
Qed.

Lemma ReserveDeclared_leaks_port_witness : ∃ r, reachable r ∧ 40000%N ∈ inUse r.
Proof.
  destruct (ReserveDeclared_leaks_port (λ _ _, true) eq_refl) as (r&_&Hr&Hin&_). by exists r.
Defined.
