(* ===== verification/ComposePorts.v ===== *)
(** * Compose port entries (src/src/apps/compose_ports.go)

    Parsing of a service's [ports:] items in compose short and long syntax, and
    the replacement value that publishes an entry on an agent-managed port. *)
From S2P Require Import Prelude GoValue Common.

Definition colon : ascii := ":"%char.
Definition slash : ascii := "/"%char.
Definition dollar : ascii := "$"%char.

Definition wireProtocol (protocol : string) : string :=
  if String.eqb protocol "udp" then "udp" else "tcp".

Record composePortEntry := {
  ce_Service : string;
  ce_HostIP : string;
  ce_HostPort : N;
  ce_ContainerPort : N;
  ce_Protocol : string;
  ce_Raw : goval;
  ce_Rewritable : bool;
}.

Definition DeclaredPort (e : composePortEntry) : N :=
  if (ce_HostPort e =? 0)%N then ce_ContainerPort e else ce_HostPort e.

Definition matchesRule (e : composePortEntry) (rulePort : N) (ruleProtocol : string) : bool :=
  ce_Rewritable e && (DeclaredPort e =? rulePort)%N
  && String.eqb (ce_Protocol e) (wireProtocol ruleProtocol).

(** [entry := composePortEntry{Raw: raw, Protocol: "tcp"}]. *)
Definition blank_entry (raw : goval) : composePortEntry :=
  {| ce_Service := ""; ce_HostIP := ""; ce_HostPort := 0; ce_ContainerPort := 0;
     ce_Protocol := "tcp"; ce_Raw := raw; ce_Rewritable := false |}.

Definition with_service (s : string) (e : composePortEntry) : composePortEntry :=
  {| ce_Service := s; ce_HostIP := ce_HostIP e; ce_HostPort := ce_HostPort e;
     ce_ContainerPort := ce_ContainerPort e; ce_Protocol := ce_Protocol e;
     ce_Raw := ce_Raw e; ce_Rewritable := ce_Rewritable e |}.
Definition with_protocol (p : string) (e : composePortEntry) : composePortEntry :=
  {| ce_Service := ce_Service e; ce_HostIP := ce_HostIP e; ce_HostPort := ce_HostPort e;
     ce_ContainerPort := ce_ContainerPort e; ce_Protocol := p;
     ce_Raw := ce_Raw e; ce_Rewritable := ce_Rewritable e |}.
Definition with_host (ip : string) (port : N) (e : composePortEntry) : composePortEntry :=
  {| ce_Service := ce_Service e; ce_HostIP := ip; ce_HostPort := port;
     ce_ContainerPort := ce_ContainerPort e; ce_Protocol := ce_Protocol e;
     ce_Raw := ce_Raw e; ce_Rewritable := ce_Rewritable e |}.
(** [entry.ContainerPort = p; entry.Rewritable = entry.ContainerPort > 0]. *)
Definition with_container (p : N) (e : composePortEntry) : composePortEntry :=
  {| ce_Service := ce_Service e; ce_HostIP := ce_HostIP e; ce_HostPort := ce_HostPort e;
     ce_ContainerPort := p; ce_Protocol := ce_Protocol e;
     ce_Raw := ce_Raw e; ce_Rewritable := (0 <? p)%N |}.
Definition with_target (p : N) (e : composePortEntry) : composePortEntry :=
  {| ce_Service := ce_Service e; ce_HostIP := ce_HostIP e; ce_HostPort := ce_HostPort e;
     ce_ContainerPort := p; ce_Protocol := ce_Protocol e;
     ce_Raw := ce_Raw e; ce_Rewritable := ce_Rewritable e |}.
Definition rewritable (e : composePortEntry) : composePortEntry :=
  {| ce_Service := ce_Service e; ce_HostIP := ce_HostIP e; ce_HostPort := ce_HostPort e;
     ce_ContainerPort := ce_ContainerPort e; ce_Protocol := ce_Protocol e;
     ce_Raw := ce_Raw e; ce_Rewritable := true |}.

(** [strconv.ParseUint(value, 10, 16)], 0 on error. *)
Definition parsePort (value : string) : N := default 0%N (parse_uint 16 value).

(** The text after the last ['/'] and the text before it, if there is one. *)
Definition cut_last_slash (spec : string) : option (string * string) :=
  match rev (split_on slash spec) with
  | last :: ((_ :: _) as front) => Some (join_with slash (rev front), last)
  | _ => None
  end.

Definition known_protocol (p : string) : bool := String.eqb p "tcp" || String.eqb p "udp".

(** The [switch len(parts)] of the short syntax, on the reversed parts. *)
Definition parse_parts (spec : string) (entry : composePortEntry) : composePortEntry :=
  match rev (split_on colon spec) with
  | [] => entry
  | [cport] => with_container (parsePort cport) entry
  | [cport; hport] =>
      let entry := with_host (ce_HostIP entry) (parsePort hport) entry in
      if (ce_HostPort entry =? 0)%N then entry
      else with_container (parsePort cport) entry
  | cport :: hport :: ip =>
      let entry := with_host (join_with colon (rev ip)) (parsePort hport) entry in
      if (ce_HostPort entry =? 0)%N then entry
      else with_container (parsePort cport) entry
  end.

Definition parseShortSyntax (value : string) (entry : composePortEntry) : composePortEntry :=
  if negb (lacks dollar value) then entry
  else match cut_last_slash value with
       | Some (spec, proto) =>
           let protocol := to_lower proto in
           if negb (known_protocol protocol) then entry
           else parse_parts spec (with_protocol protocol entry)
       | None => parse_parts value entry
       end.

Section parsing.
Context `{GoRuntime}.

Definition parsePortValue (value : goval) : N :=
  match value with
  | VStr s => parsePort s
  | VFloat n d => u64_of_float n d
  | VInt z => u64_of_int z
  | _ => 0%N
  end.

(** [published, present := value["published"]] and what follows it. *)
Definition long_published (value : gomap) (entry : composePortEntry) : composePortEntry :=
  match map_get "published" value with
  | Some published =>
      let entry := with_host (ce_HostIP entry) (parsePortValue published) entry in
      if (ce_HostPort entry =? 0)%N then entry else rewritable entry
  | None => rewritable entry
  end.

Definition long_host (value : gomap) (entry : composePortEntry) : composePortEntry :=
  match as_str (map_index "host_ip" value) with
  | Some hostIP => with_host hostIP (ce_HostPort entry) entry
  | None => entry
  end.

Definition parseLongSyntax (value : gomap) (entry : composePortEntry) : composePortEntry :=
  let entry := with_target (parsePortValue (map_index "target" value)) entry in
  if (ce_ContainerPort entry =? 0)%N then entry
  else match as_str (map_index "protocol" value) with
       | Some p =>
           let protocol := to_lower p in
           if negb (known_protocol protocol) then entry
           else long_published value (long_host value (with_protocol protocol entry))
       | None => long_published value (long_host value entry)
       end.

Definition parseComposePortEntry (raw : goval) : composePortEntry :=
  let entry := blank_entry raw in
  match raw with
  | VStr value => parseShortSyntax value entry
  | VFloat n d => with_container (u64_of_float n d) entry
  | VInt z => with_container (u64_of_int z) entry
  | VMap value => parseLongSyntax value entry
  | _ => entry
  end.

Definition service_ports (service : goval) : list goval :=
  default [] (m ← as_map service; as_list (map_index "ports" m)).

Definition parseComposePorts (dockerCompose : gomap) : list composePortEntry :=
  match compose_services dockerCompose with
  | None => []
  | Some services =>
      flat_map (λ '(serviceName, service),
        map (λ raw, with_service serviceName (parseComposePortEntry raw)) (service_ports service))
        services
  end.
End parsing.

Definition rewriteComposePortEntry (entry : composePortEntry) (bindIP : string) (hostPort : N) : goval :=
  match ce_Raw entry with
  | VMap longSyntax =>
      VMap (map_set "host_ip" (VStr bindIP) (map_set "published" (VStr (itoa hostPort)) longSyntax))
  | _ =>
      let spec := bindIP +:+ ":" +:+ itoa hostPort +:+ ":" +:+ itoa (ce_ContainerPort entry) in
      VStr (if String.eqb (ce_Protocol entry) "udp" then spec +:+ "/udp" else spec)
  end.

(** [PublishedPortKey] of container/compose.go. *)
Definition PublishedPortKey (service : string) (targetPort : N) (protocol : string) : string :=
  service +:+ "|" +:+ itoa targetPort +:+ "/" +:+ (if String.eqb protocol "" then "tcp" else protocol).

(** ** Lemmas *)

Lemma parsePort_bound s : (parsePort s < 65536)%N.
Proof.
  unfold parsePort. destruct (parse_uint 16 s) eqn:E; simpl; [|lia].
  by apply parse_uint_bound in E.
Qed.

Lemma parsePort_itoa n : (n < 65536)%N → parsePort (itoa n) = n.
Proof. intros Hn. unfold parsePort. by rewrite parse_uint_itoa. Qed.

Lemma lacks_app c s t : lacks c (s +:+ t) = lacks c s && lacks c t.
Proof. apply str_forall_app. Qed.

(** Splitting a text whose last separator is known. *)
Lemma split_on_snoc c s t :
  lacks c t = true → split_on c (s +:+ String c t) = (split_on c s ++ [t])%list.
Proof.
  intros Ht. induction s as [|a s IH]; simpl.
  - by rewrite Ascii.eqb_refl, split_on_lacks.
  - rewrite IH. destruct (Ascii.eqb a c); simpl; [done|].
    pose proof (split_on_nonempty c s) as Hs. by destruct (split_on c s).
Qed.

Lemma split_on_last c s t :
  lacks c t = true → rev (split_on c (s +:+ String c t)) = t :: rev (split_on c s).
Proof. intros Ht. by rewrite split_on_snoc, rev_app_distr. Qed.

Lemma rev_split_cons c s : ∃ w ws, rev (split_on c s) = w :: ws.
Proof.
  destruct (rev (split_on c s)) as [|w ws] eqn:E; [|eauto].
  apply (f_equal (@rev string)) in E. rewrite rev_involutive in E. by apply split_on_nonempty in E.
Qed.

Lemma cut_last_slash_found s t :
  lacks slash t = true → cut_last_slash (s +:+ String slash t) = Some (s, t).
Proof.
  intros Ht. unfold cut_last_slash. rewrite split_on_last by done.
  pose proof (join_split slash s) as Hj. rewrite <- (rev_involutive (split_on slash s)) in Hj.
  destruct (rev_split_cons slash s) as (w&ws&E). rewrite E in Hj |- *. by rewrite Hj.
Qed.

Lemma cut_last_slash_none s : lacks slash s = true → cut_last_slash s = None.
Proof. intros Hs. unfold cut_last_slash. by rewrite split_on_lacks. Qed.

Lemma known_protocol_cases p : known_protocol p = true → p = "tcp" ∨ p = "udp".
Proof. unfold known_protocol. by intros [?%String.eqb_eq|?%String.eqb_eq]%orb_prop; auto. Qed.

Lemma parse_parts_protocol spec e : ce_Protocol (parse_parts spec e) = ce_Protocol e.
Proof. unfold parse_parts. repeat split_match; done. Qed.

Lemma parse_parts_raw spec e : ce_Raw (parse_parts spec e) = ce_Raw e.
Proof. unfold parse_parts. repeat split_match; done. Qed.

Lemma parse_parts_rewritable spec e :
  ce_Rewritable e = false → ce_Rewritable (parse_parts spec e) = true →
  (0 < ce_ContainerPort (parse_parts spec e) < 65536)%N.
Proof.
  intros He. unfold parse_parts. repeat split_match; simpl; try congruence;
    intros ?%N.ltb_lt; split; try done; apply parsePort_bound.
Qed.

Lemma parse_parts_hostport spec e :
  (ce_HostPort e < 65536)%N → (ce_HostPort (parse_parts spec e) < 65536)%N.
Proof.
  intros He. unfold parse_parts. repeat split_match; simpl; try done; apply parsePort_bound.
Qed.

(** The short form the agent writes: [ip:host:container]. *)
Lemma parse_parts_written ip hp cp e :
  (0 < hp < 65536)%N → (0 < cp < 65536)%N →
  parse_parts (ip +:+ ":" +:+ itoa hp +:+ ":" +:+ itoa cp) e
  = with_container cp (with_host ip hp e).
Proof.
  intros [Hh0 Hh] [Hc0 Hc]. unfold parse_parts.
  replace (ip +:+ ":" +:+ itoa hp +:+ ":" +:+ itoa cp)
    with ((ip +:+ String colon (itoa hp)) +:+ String colon (itoa cp))
    by (rewrite str_app_assoc; done).
  rewrite !split_on_last by (by apply itoa_lacks).
  pose proof (join_split colon ip) as Hj. rewrite <- (rev_involutive (split_on colon ip)) in Hj.
  destruct (rev_split_cons colon ip) as (w&ws&E). rewrite E in Hj |- *. rewrite Hj.
  rewrite !parsePort_itoa by done. simpl. by rewrite (proj2 (N.eqb_neq hp 0)) by lia.
Qed.

Section rewriting.
Context `{GoRuntime}.

Lemma parse_protocol_known raw :
  ce_Protocol (parseComposePortEntry raw) = "tcp" ∨ ce_Protocol (parseComposePortEntry raw) = "udp".
Proof.
  unfold parseComposePortEntry, parseShortSyntax, parseLongSyntax, long_published, long_host.
  repeat split_match; simpl; rewrite ?parse_parts_protocol; simpl; bool_to_prop;
    eauto using known_protocol_cases.
Qed.

Lemma parse_raw raw : ce_Raw (parseComposePortEntry raw) = raw.
Proof.
  unfold parseComposePortEntry, parseShortSyntax, parseLongSyntax, long_published, long_host.
  repeat split_match; simpl; by rewrite ?parse_parts_raw.
Qed.

Lemma parse_rewritable_port raw :
  ce_Rewritable (parseComposePortEntry raw) = true →
  (0 < ce_ContainerPort (parseComposePortEntry raw))%N.
Proof.
  destruct raw as [|b|z|n d|s|l|m]; simpl; try done; try (by intros ?%N.ltb_lt).
  - unfold parseShortSyntax. repeat split_match; simpl; try done;
      intros Hr; apply parse_parts_rewritable in Hr; [lia|done|lia|done].
  - unfold parseLongSyntax, long_published, long_host.
    repeat split_match; simpl in *; try done; bool_to_prop; lia.
Qed.

(** The value the agent writes for an entry of the short (or numeric) form. *)
Lemma reparse_short ip hp cp proto :
  (0 < hp < 65536)%N → (0 < cp < 65536)%N →
  lacks slash ip = true → lacks dollar ip = true → proto = "tcp" ∨ proto = "udp" →
  let spec := ip +:+ ":" +:+ itoa hp +:+ ":" +:+ itoa cp in
  let v := VStr (if String.eqb proto "udp" then spec +:+ "/udp" else spec) in
  parseComposePortEntry v
  = with_container cp (with_host ip hp (with_protocol proto (blank_entry v))).
Proof.
  intros Hh Hc Hsl Hdo Hp spec v.
  assert (∀ c, is_digit c = false → c ≠ colon → lacks c ip = true → lacks c spec = true) as Hlack.
  { intros c Hd Hne Hip.
    assert (lacks c ":" = true) as Hcol.
    { unfold lacks, not_char, str_forall. destruct (Ascii.eqb_spec ":" c); [subst; by destruct Hne|done]. }
    unfold spec. by rewrite !lacks_app, Hip, Hcol, !itoa_lacks. }
  unfold parseComposePortEntry, v, parseShortSyntax. destruct Hp as [-> | ->].
  - change (String.eqb "tcp" "udp") with false. cbv iota.
    rewrite (Hlack dollar), cut_last_slash_none by (done || by apply Hlack).
    unfold spec. cbn [negb]. by rewrite parse_parts_written.
  - change (String.eqb "udp" "udp") with true. cbv iota.
    change (spec +:+ "/udp") with (spec +:+ String slash "udp").
    rewrite lacks_app, (Hlack dollar), cut_last_slash_found by done. cbn.
    unfold spec. by rewrite parse_parts_written.
Qed.

(** The long form keeps every key but [published] and [host_ip]. *)
Lemma reparse_long m ip hp :
  (0 < hp < 65536)%N →
  ce_Rewritable (parseLongSyntax m (blank_entry (VMap m))) = true →
  let e := parseLongSyntax m (blank_entry (VMap m)) in
  let m' := map_set "host_ip" (VStr ip) (map_set "published" (VStr (itoa hp)) m) in
  parseLongSyntax m' (blank_entry (VMap m'))
  = rewritable (with_host ip hp (with_target (ce_ContainerPort e)
      (with_protocol (ce_Protocol e) (blank_entry (VMap m'))))).
Proof.
  intros [Hh0 Hh] He e m'. subst e.
  assert (map_index "target" m' = map_index "target" m) as Ht
    by (unfold m'; by rewrite !map_index_set_ne).
  assert (map_index "protocol" m' = map_index "protocol" m) as Hp
    by (unfold m'; by rewrite !map_index_set_ne).
  assert (map_get "published" m' = Some (VStr (itoa hp))) as Hpub
    by (unfold m'; by rewrite map_get_set_ne, map_get_set_eq).
  assert (map_index "host_ip" m' = VStr ip) as Hip by (unfold m'; by rewrite map_index_set_eq).
  revert He. unfold parseLongSyntax. rewrite Ht, Hp. unfold long_published, long_host.
  rewrite Hpub, Hip. simpl. rewrite parsePort_itoa by done. rewrite (proj2 (N.eqb_neq hp 0)) by lia.
  destruct (_ =? 0)%N; [done|].
  destruct (as_str (map_index "protocol" m)); [destruct (known_protocol _); [simpl|done]|];
    (destruct (as_str (map_index "host_ip" m)); simpl;
     destruct (map_get "published" m); simpl; try destruct (_ =? 0)%N; simpl; done).
Qed.

(** round trip of compose port entries: a rewritable entry re-parsed after
    the agent rewrote it publishes the same container port and protocol, on the
    address and host port the agent chose, and is still rewritable. *)
Theorem rewrite_then_parse raw bindIP hostPort :
  let e := parseComposePortEntry raw in
  let e' := parseComposePortEntry (rewriteComposePortEntry e bindIP hostPort) in
  ce_Rewritable e = true → (ce_ContainerPort e < 65536)%N → (0 < hostPort < 65536)%N →
  lacks slash bindIP = true → lacks dollar bindIP = true →
  ce_HostIP e' = bindIP ∧ ce_HostPort e' = hostPort
  ∧ ce_ContainerPort e' = ce_ContainerPort e ∧ ce_Protocol e' = ce_Protocol e
  ∧ ce_Rewritable e' = true ∧ DeclaredPort e' = hostPort.
Proof.
  intros e e' Hr Hcp Hhp Hsl Hdo.
  pose proof (parse_rewritable_port raw Hr) as Hc0. fold e in Hc0.
  assert (DeclaredPort e' = if (ce_HostPort e' =? 0)%N then ce_ContainerPort e' else ce_HostPort e')
    as -> by done.
  assert ((hostPort =? 0)%N = false) as Hz by (apply N.eqb_neq; lia).
  destruct (as_map raw) as [m|] eqn:Em.
  - destruct raw; try done. injection Em as ->. subst e e'.
    unfold rewriteComposePortEntry. rewrite parse_raw. cbn [parseComposePortEntry].
    rewrite reparse_long by done. simpl. by rewrite Hz.
  - assert (e' = with_container (ce_ContainerPort e) (with_host bindIP hostPort
      (with_protocol (ce_Protocol e) (blank_entry (rewriteComposePortEntry e bindIP hostPort))))) as ->.
    { unfold e', rewriteComposePortEntry. subst e. rewrite parse_raw.
      destruct raw; try done; apply reparse_short; auto using parse_protocol_known. }
    simpl. rewrite Hz. split_and!; try done. by apply N.ltb_lt.
Qed.
End rewriting.

Lemma rewrite_then_parse_witness :
  ce_HostPort (@parseComposePortEntry amd64_runtime (VStr "0.0.0.0:40001:53/udp")) = 40001%N
  ∧ ce_Protocol (@parseComposePortEntry amd64_runtime (VStr "0.0.0.0:40001:53/udp")) = "udp".
Proof.
  pose proof (rewrite_then_parse (H := amd64_runtime) (VStr "[::1]:8053:53/UDP") "0.0.0.0" 40001
    eq_refl eq_refl (conj eq_refl eq_refl) eq_refl eq_refl) as (_&Hh&_&Hp&_).
  split; [exact Hh|exact Hp].
Defined.

(** the short syntax never invents a port: an entry the agent will rewrite
    has a container port of 1-65535 and a host port below 65536 (0 when the text
    names none), and text with a compose variable is never rewritten. *)
Theorem short_entry_in_range value raw :
  let e := parseShortSyntax value (blank_entry raw) in
  (ce_HostPort e < 65536)%N
  ∧ (ce_Rewritable e = true →
     (0 < ce_ContainerPort e < 65536)%N ∧ (0 < DeclaredPort e < 65536)%N
     ∧ lacks dollar value = true).
Proof.
  unfold parseShortSyntax. split.
  - repeat split_match; simpl; try done; by apply parse_parts_hostport.
  - assert (∀ spec p, ce_Rewritable (parse_parts spec (with_protocol p (blank_entry raw))) = true →
      (0 < ce_ContainerPort (parse_parts spec (with_protocol p (blank_entry raw))) < 65536)%N
      ∧ (0 < DeclaredPort (parse_parts spec (with_protocol p (blank_entry raw))) < 65536)%N) as Hmain.
    { intros spec p Hr. pose proof (parse_parts_rewritable spec (with_protocol p (blank_entry raw)) eq_refl Hr) as Hc. split; [done|].
      pose proof (parse_parts_hostport spec (with_protocol p (blank_entry raw)) eq_refl).
      unfold DeclaredPort. destruct (_ =? 0)%N eqn:E; bool_to_prop; lia. }
    repeat split_match; simpl; try done; intros Hr; bool_to_prop.
    + by destruct (Hmain _ _ Hr).
    + by destruct (Hmain _ "tcp" Hr).
Qed.

(** Looking ports up in a compose file: every parsed entry belongs to a service
    of the file and comes from that service's [ports:] list. *)
Lemma parseComposePorts_origin `{GoRuntime} dc e :
  e ∈ parseComposePorts dc →
  ∃ services service raw, compose_services dc = Some services
    ∧ (ce_Service e, service) ∈ services ∧ raw ∈ service_ports service
    ∧ e = with_service (ce_Service e) (parseComposePortEntry raw).
Proof.
  unfold parseComposePorts. destruct (compose_services dc) as [services|]; [|by intros ?%elem_of_nil].
  rewrite list_elem_of_In, in_flat_map. intros ([name service]&Hin&(raw&<-&Hraw)%in_map_iff).
  exists services, service, raw. by rewrite !list_elem_of_In.
Qed.
