(* ===== verification/Effects.v ===== *)
(** * Effectful Go code as state passing with an oracle

    A handler is a function from the answers of its environment (Docker, the
    file system, the network, the database driver) and the current state to an
    outcome and a new state.  The state carries the component's own data and the
    log of the external calls made so far, newest first; an event records the
    call, its answer and the data as it was when the call was made.  After every
    call the
    environment may also change the data: that is what other goroutines do while
    this one waits. *)
From S2P Require Import Prelude Errdefs.

Inductive outcome (A : Type) :=
  | Ok (a : A)
  | Err (e : error)
  | Panic
  | Hang.
Arguments Ok {A} a.
Arguments Err {A} e.
Arguments Panic {A}.
Arguments Hang {A}.

Section monad.
Context {Call : Type → Type} {S : Type}.

Inductive event := | Ev {T : Type} (c : Call T) (r : T) (at_ : S).

Record env := {
  answer : ∀ T, Call T → list event → T;
  interfere : list event → S → S;
}.

Record state := mk_state { world : S; log : list event }.

Definition M (A : Type) : Type := env → state → outcome A * state.

Definition ret {A} (a : A) : M A := λ _ st, (Ok a, st).
Definition throw {A} (e : error) : M A := λ _ st, (Err e, st).
Definition panic {A} : M A := λ _ st, (Panic, st).
Definition hang {A} : M A := λ _ st, (Hang, st).

Definition bind {A B} (m : M A) (f : A → M B) : M B := λ env st,
  match m env st with
  | (Ok a, st') => f a env st'
  | (Err e, st') => (Err e, st')
  | (Panic, st') => (Panic, st')
  | (Hang, st') => (Hang, st')
  end.

Definition gets {A} (f : S → A) : M A := λ _ st, (Ok (f (world st)), st).
Definition modify (f : S → S) : M unit := λ _ st, (Ok tt, mk_state (f (world st)) (log st)).

Definition call {T} (c : Call T) : M T := λ env st,
  let r := answer env T c (log st) in
  let log' := Ev c r (world st) :: log st in
  (Ok r, mk_state (interfere env log' (world st)) log').

Definition lift {A} (r : A + error) : M A :=
  match r with inl a => ret a | inr e => throw e end.

(** [x, err := f(); if err != nil { return err }]. *)
Definition callE {A} (c : Call (A + error)) : M A := bind (call c) lift.

(** [err := f()] with the error inspected by what follows. *)
Definition try_ {A} (m : M A) : M (A + error) := λ env st,
  match m env st with
  | (Ok a, st') => (Ok (inl a), st')
  | (Err e, st') => (Ok (inr e), st')
  | (Panic, st') => (Panic, st')
  | (Hang, st') => (Hang, st')
  end.

(** [_ = f()] / an error that is only logged. *)
Definition ignore {A} (m : M A) : M unit := bind (try_ m) (λ _, ret tt).

(** [defer f()]: runs on return, on error and while a panic unwinds. *)
Definition finally {A} (m : M A) (f : M unit) : M A := λ env st,
  match m env st with
  | (Hang, st') => (Hang, st')
  | (o, st') =>
      match f env st' with
      | (Ok _, st'') => (o, st'')
      | (Err e, st'') => (Err e, st'')
      | (Panic, st'') => (Panic, st'')
      | (Hang, st'') => (Hang, st'')
      end
  end.

(** A goroutine started with [safe.Go] whose result another one waits for on a
    channel: a recovered panic leaves the waiter without a value for ever. *)
Definition await {A} (m : M A) : M A := λ env st,
  match m env st with
  | (Panic, st') => (Hang, st')
  | r => r
  end.

(** A goroutine nobody waits for, run to its end: a panic is recovered and an
    error has nowhere to go. *)
Definition background (m : M unit) : M unit := λ env st,
  match m env st with
  | (_, st') => (Ok tt, st')
  end.

Definition when (b : bool) (m : M unit) : M unit := if b then m else ret tt.

Fixpoint for_each {A} (l : list A) (f : A → M unit) : M unit :=
  match l with
  | [] => ret tt
  | x :: l' => bind (f x) (λ _, for_each l' f)
  end.

Fixpoint map_m {A B} (l : list A) (f : A → M B) : M (list B) :=
  match l with
  | [] => ret []
  | x :: l' => bind (f x) (λ y, bind (map_m l' f) (λ ys, ret (y :: ys)))
  end.

Fixpoint fold_m {A B} (f : B → A → M B) (b : B) (l : list A) : M B :=
  match l with
  | [] => ret b
  | x :: l' => bind (f b x) (λ b', fold_m f b' l')
  end.

(** ** Program logic *)

Abbreviation assertion := (state → Prop).

Definition triple {A} (en : env) (P : assertion) (m : M A) (Q : outcome A → assertion) : Prop :=
  ∀ st, P st → Q (m en st).1 (m en st).2.

(** The assertion a sequence needs between its halves. *)
Definition seq_post {A B} (R : A → assertion) (Q : outcome B → assertion) : outcome A → assertion :=
  λ o st, match o with
  | Ok a => R a st
  | Err e => Q (Err e) st
  | Panic => Q Panic st
  | Hang => Q Hang st
  end.

(** Partial correctness: what holds if the code returns without an error. *)
Definition on_ok {A} (Q : A → assertion) : outcome A → assertion :=
  λ o st, match o with Ok a => Q a st | _ => True end.

(** An invariant that every way of leaving the code maintains. *)
Definition keeps {A} (en : env) (I : assertion) (m : M A) : Prop := triple en I m (λ _, I).

Lemma triple_conseq {A} en (P P' : assertion) (m : M A) Q Q' :
  triple en P' m Q' → (∀ st, P st → P' st) → (∀ o st, Q' o st → Q o st) → triple en P m Q.
Proof. unfold triple. eauto. Qed.

Lemma triple_pre {A} en (P P' : assertion) (m : M A) Q :
  triple en P' m Q → (∀ st, P st → P' st) → triple en P m Q.
Proof. unfold triple. eauto. Qed.

Lemma triple_post {A} en (P : assertion) (m : M A) (Q Q' : outcome A → assertion) :
  triple en P m Q' → (∀ o st, Q' o st → Q o st) → triple en P m Q.
Proof. unfold triple. eauto. Qed.

Lemma triple_ret {A} en (a : A) Q : triple en (Q (Ok a)) (ret a) Q.
Proof. by intros st. Qed.

Lemma triple_throw {A} en e Q : triple en (Q (Err e)) (@throw A e) Q.
Proof. by intros st. Qed.

Lemma triple_bind {A B} en P (m : M A) (f : A → M B) R Q :
  triple en P m (seq_post R Q) → (∀ a, triple en (R a) (f a) Q) → triple en P (bind m f) Q.
Proof.
  intros Hm Hf st HP. specialize (Hm st HP). unfold bind.
  destruct (m en st) as [[a|e| |] st']; simpl in *; [by apply Hf|done..].
Qed.

Lemma triple_gets {A} en (f : S → A) Q :
  triple en (λ st, Q (Ok (f (world st))) st) (gets f) Q.
Proof. by intros st. Qed.

Lemma triple_modify en f Q :
  triple en (λ st, Q (Ok tt) (mk_state (f (world st)) (log st))) (modify f) Q.
Proof. by intros st. Qed.

Lemma triple_call {T} en (c : Call T) Q :
  triple en (λ st, let r := answer en T c (log st) in
     Q (Ok r) (mk_state (interfere en (Ev c r (world st) :: log st) (world st)) (Ev c r (world st) :: log st))) (call c) Q.
Proof. by intros st. Qed.

Lemma triple_try {A} en P (m : M A) Q :
  triple en P m (λ o st, match o with
    | Ok a => Q (Ok (inl a)) st | Err e => Q (Ok (inr e)) st
    | Panic => Q Panic st | Hang => Q Hang st end) → triple en P (try_ m) Q.
Proof.
  intros Hm st HP. specialize (Hm st HP). unfold try_.
  destruct (m en st) as [[a|e| |] st']; done.
Qed.

Lemma triple_finally {A} en P (m : M A) f R Q :
  triple en P m (λ o st, match o with Hang => Q Hang st | _ => R o st end) →
  (∀ o, triple en (R o) f (λ o2 st, match o2 with
     | Ok _ => Q o st | Err e => Q (Err e) st | Panic => Q Panic st | Hang => Q Hang st end)) →
  triple en P (finally m f) Q.
Proof.
  intros Hm Hf st HP. specialize (Hm st HP). unfold finally.
  destruct (m en st) as [[a|e| |] st']; simpl in *; [..|done];
    specialize (Hf _ st' Hm); destruct (f en st') as [[[]|e'| |] st'']; done.
Qed.

Lemma triple_await {A} en P (m : M A) Q :
  triple en P m (λ o st, match o with Panic => Q Hang st | _ => Q o st end) →
  triple en P (await m) Q.
Proof.
  intros Hm st HP. specialize (Hm st HP). unfold await.
  by destruct (m en st) as [[a|e| |] st'].
Qed.

(** *** Invariants *)

Lemma keeps_ret {A} en I (a : A) : keeps en I (ret a).
Proof. by intros st. Qed.
Lemma keeps_throw {A} en I e : keeps en I (@throw A e).
Proof. by intros st. Qed.
Lemma keeps_panic {A} en I : keeps en I (@panic A).
Proof. by intros st. Qed.
Lemma keeps_hang {A} en I : keeps en I (@hang A).
Proof. by intros st. Qed.
Lemma keeps_lift {A} en I (r : A + error) : keeps en I (lift r).
Proof. destruct r; by intros st. Qed.
Lemma keeps_gets {A} en I (f : S → A) : keeps en I (gets f).
Proof. by intros st. Qed.

Lemma keeps_bind {A B} en I (m : M A) (f : A → M B) :
  keeps en I m → (∀ a, keeps en I (f a)) → keeps en I (bind m f).
Proof.
  intros Hm Hf. apply triple_bind with (R := λ _, I); [|done].
  eapply triple_post; [exact Hm|]. by intros [].
Qed.

Lemma keeps_try {A} en I (m : M A) : keeps en I m → keeps en I (try_ m).
Proof. intros Hm. apply triple_try. eapply triple_post; [exact Hm|]. by intros []. Qed.

Lemma keeps_ignore {A} en I (m : M A) : keeps en I m → keeps en I (ignore m).
Proof. intros Hm. apply keeps_bind; [by apply keeps_try|intros; apply keeps_ret]. Qed.

Lemma keeps_finally {A} en I (m : M A) f : keeps en I m → keeps en I f → keeps en I (finally m f).
Proof.
  intros Hm Hf. apply triple_finally with (R := λ _, I).
  - eapply triple_post; [exact Hm|]. by intros [].
  - intros o. eapply triple_post; [exact Hf|]. by intros [].
Qed.

Lemma keeps_await {A} en I (m : M A) : keeps en I m → keeps en I (await m).
Proof. intros Hm. apply triple_await. eapply triple_post; [exact Hm|]. by intros []. Qed.

Lemma keeps_background en I m : keeps en I m → keeps en I (background m).
Proof. intros Hm st HI. specialize (Hm st HI). unfold background. by destruct (m en st). Qed.

Lemma keeps_when en I b m : keeps en I m → keeps en I (when b m).
Proof. intros Hm. destruct b; [done|apply keeps_ret]. Qed.

Lemma keeps_for_each {A} en I (l : list A) f : (∀ x, keeps en I (f x)) → keeps en I (for_each l f).
Proof.
  intros Hf. induction l; simpl; [apply keeps_ret|]. apply keeps_bind; [apply Hf|done].
Qed.

Lemma keeps_map_m {A B} en I (l : list A) (f : A → M B) :
  (∀ x, keeps en I (f x)) → keeps en I (map_m l f).
Proof.
  intros Hf. induction l; simpl; [apply keeps_ret|].
  apply keeps_bind; [apply Hf|intros]. apply keeps_bind; [done|intros; apply keeps_ret].
Qed.

Lemma keeps_fold_m {A B} en I (f : B → A → M B) b l :
  (∀ b x, keeps en I (f b x)) → keeps en I (fold_m f b l).
Proof.
  intros Hf. revert b. induction l; intros b; simpl; [apply keeps_ret|].
  apply keeps_bind; [apply Hf|done].
Qed.

Lemma keeps_modify en (I : assertion) f :
  (∀ st, I st → I (mk_state (f (world st)) (log st))) → keeps en I (modify f).
Proof. intros Hf st HI. by apply Hf. Qed.

Lemma keeps_call {T} en (I : assertion) (c : Call T) :
  (∀ st r, I st → I (mk_state (interfere en (Ev c r (world st) :: log st) (world st)) (Ev c r (world st) :: log st))) →
  keeps en I (call c).
Proof. intros Hc st HI. by apply Hc. Qed.

Lemma keeps_callE {A} en (I : assertion) (c : Call (A + error)) :
  keeps en I (call c) → keeps en I (callE c).
Proof. intros Hc. apply keeps_bind; [done|intros; apply keeps_lift]. Qed.

(** A call always answers. *)
Lemma triple_call_then {T B} en (I : assertion) (c : Call T) (f : T → M B) Q :
  keeps en I (call c) → (∀ r, triple en I (f r) Q) → triple en I (bind (call c) f) Q.
Proof. intros Hc Hf st Hst. specialize (Hc st Hst). unfold bind, call in *. simpl in *. by apply Hf. Qed.

Lemma triple_gets_then {A B} en (I : assertion) (g : S → A) (f : A → M B) Q :
  (∀ a, triple en (λ st, I st ∧ g (world st) = a) (f a) Q) → triple en I (bind (gets g) f) Q.
Proof. intros Hf st Hst. unfold bind, gets. by apply Hf. Qed.

(** When only the end of a sequence matters. *)
Lemma on_ok_then {A B} en P (m : M A) (f : A → M B) Q :
  (∀ a, triple en (λ _, True) (f a) (on_ok Q)) → triple en P (bind m f) (on_ok Q).
Proof.
  intros Hf st _. unfold bind. destruct (m en st) as [[a|e| |] st']; [by apply Hf|done..].
Qed.

(** Running a sequence one statement at a time. *)
Lemma bind_ok {A B} en st st' (m : M A) (f : A → M B) a :
  m en st = (Ok a, st') → bind m f en st = f a en st'.
Proof. intros Hm. unfold bind. by rewrite Hm. Qed.

Lemma bind_err {A B} en st st' (m : M A) (f : A → M B) e :
  m en st = (Err e, st') → bind m f en st = (Err e, st').
Proof. intros Hm. unfold bind. by rewrite Hm. Qed.

Lemma bind_returned {A B} en (m : M A) (f : A → M B) st b st' :
  bind m f en st = (Ok b, st') → ∃ a st1, m en st = (Ok a, st1) ∧ f a en st1 = (Ok b, st').
Proof. unfold bind. destruct (m en st) as [[a|e| |] st1]; [eauto|done..]. Qed.

(** *** Code that has no error to return *)

Definition errorless {A} (en : env) (m : M A) : Prop := ∀ st e st', m en st ≠ (Err e, st').

Lemma errorless_ret {A} en (a : A) : errorless en (ret a).
Proof. by intros st e st'. Qed.
Lemma errorless_panic {A} en : errorless en (@panic A).
Proof. by intros st e st'. Qed.
Lemma errorless_hang {A} en : errorless en (@hang A).
Proof. by intros st e st'. Qed.
Lemma errorless_gets {A} en (f : S → A) : errorless en (gets f).
Proof. by intros st e st'. Qed.
Lemma errorless_modify en f : errorless en (modify f).
Proof. by intros st e st'. Qed.
Lemma errorless_call {T} en (c : Call T) : errorless en (call c).
Proof. by intros st e st'. Qed.
Lemma errorless_try {A} en (m : M A) : errorless en (try_ m).
Proof. intros st e st'. unfold try_. destruct (m en st) as [[] ?]; congruence. Qed.
Lemma errorless_await {A} en (m : M A) : errorless en m → errorless en (await m).
Proof.
  intros Hm st e st'. unfold await. specialize (Hm st). destruct (m en st) as [[a|e0| |] s]; try congruence.
Qed.
Lemma errorless_bind {A B} en (m : M A) (f : A → M B) :
  errorless en m → (∀ a, errorless en (f a)) → errorless en (bind m f).
Proof.
  intros Hm Hf st e st'. unfold bind. specialize (Hm st).
  destruct (m en st) as [[a|e0| |] s]; [by apply Hf|by destruct (Hm e0 s)|done..].
Qed.

(** *** Code that neither panics nor blocks *)

Definition returns {A} (en : env) (m : M A) : Prop :=
  ∀ st, match (m en st).1 with Ok _ | Err _ => True | _ => False end.

Lemma returns_ret {A} en (a : A) : returns en (ret a).
Proof. by intros st. Qed.
Lemma returns_throw {A} en e : returns en (@throw A e).
Proof. by intros st. Qed.
Lemma returns_gets {A} en (f : S → A) : returns en (gets f).
Proof. by intros st. Qed.
Lemma returns_modify en f : returns en (modify f).
Proof. by intros st. Qed.
Lemma returns_call {T} en (c : Call T) : returns en (call c).
Proof. by intros st. Qed.
Lemma returns_lift {A} en (r : A + error) : returns en (lift r).
Proof. by destruct r. Qed.
Lemma returns_bind {A B} en (m : M A) (f : A → M B) :
  returns en m → (∀ a, returns en (f a)) → returns en (bind m f).
Proof.
  intros Hm Hf st. specialize (Hm st). unfold bind.
  destruct (m en st) as [[a|e| |] st']; simpl in *; [apply Hf|done..].
Qed.
Lemma returns_callE {A} en (c : Call (A + error)) : returns en (callE c).
Proof. apply returns_bind; [apply returns_call|intros; apply returns_lift]. Qed.
Lemma returns_try {A} en (m : M A) : returns en m → returns en (try_ m).
Proof. intros Hm st. specialize (Hm st). unfold try_. by destruct (m en st) as [[] ?]. Qed.
Lemma returns_ignore {A} en (m : M A) : returns en m → returns en (ignore m).
Proof. intros Hm. apply returns_bind; [by apply returns_try|intros; apply returns_ret]. Qed.
Lemma returns_finally {A} en (m : M A) f : returns en m → returns en f → returns en (finally m f).
Proof.
  intros Hm Hf st. specialize (Hm st). unfold finally.
  destruct (m en st) as [[a|e| |] st']; simpl in *; try done;
    specialize (Hf st'); by destruct (f en st') as [[] ?].
Qed.
Lemma returns_when en b m : returns en m → returns en (when b m).
Proof. by destruct b. Qed.
Lemma returns_for_each {A} en (l : list A) f : (∀ x, returns en (f x)) → returns en (for_each l f).
Proof. intros Hf. induction l; simpl; [apply returns_ret|]. by apply returns_bind. Qed.

End monad.

Arguments event : clear implicits.
Arguments env : clear implicits.
Arguments state : clear implicits.
Arguments M : clear implicits.

(** *** Auditing the calls of a run

    A justification says what the earlier log must show for a call to be allowed;
    a log is audited when every one of its events was justified when it was made. *)
Section audit.
Context {Call : Type → Type} {S : Type}.
Variable justified : list (event Call S) → event Call S → Prop.
Variable en : env Call S.

Fixpoint audited (l : list (event Call S)) : Prop :=
  match l with
  | [] => True
  | e :: l' => audited l' ∧ justified l' e
  end.

(** Facts that survive further calls. *)
Definition stable (K : state Call S → Prop) : Prop :=
  ∀ st e, K st → K (mk_state (interfere en (e :: log st) (world st)) (e :: log st)).

Definition known (K : state Call S → Prop) (st : state Call S) : Prop := audited (log st) ∧ K st.

Definition seen {T} (c : Call T) (r : T) (st : state Call S) : Prop := ∃ w, Ev c r w ∈ log st.

Lemma stable_seen {T} (c : Call T) r : stable (seen c r).
Proof. intros st e [w Hw]. exists w. simpl. by right. Qed.

Lemma stable_and K1 K2 : stable K1 → stable K2 → stable (λ st, K1 st ∧ K2 st).
Proof. intros H1 H2 st e [? ?]. auto. Qed.

Lemma stable_pure (φ : Prop) : stable (λ _, φ).
Proof. by intros st e. Qed.

Lemma keeps_known_call {T} (c : Call T) K :
  stable K → (∀ st r, K st → justified (log st) (Ev c r (world st))) → keeps en (known K) (call c).
Proof. intros HK Hj. apply keeps_call. intros st r [Hall Hk]. split; [split; auto|by apply HK]. Qed.

(** A call whose answer the rest of the handler relies on. *)
Lemma keeps_learn {T B} (c : Call T) (f : T → M Call S B) K :
  stable K → (∀ st r, K st → justified (log st) (Ev c r (world st))) →
  (∀ r, keeps en (known (λ st, K st ∧ seen c r st)) (f r)) →
  keeps en (known K) (bind (call c) f).
Proof.
  intros HK Hj Hf. apply triple_bind with (R := λ r, known (λ st, K st ∧ seen c r st)).
  - intros st [Hall Hk]. cbn [call fst snd seq_post]. split.
    + split; auto.
    + split; [by apply HK|]. eexists. by left.
  - intros r. eapply triple_post; [apply Hf|]. by intros o st [? [? _]].
Qed.

Lemma keeps_known_weaken {A} (K K' : state Call S → Prop) (m : M Call S A) :
  keeps en (known K') m → (∀ st, K st ↔ K' st) → keeps en (known K) m.
Proof.
  intros Hm HK. eapply triple_conseq; [exact Hm|..]; [intros st [? ?]|intros _ st [? ?]];
    (split; [done|by apply HK]).
Qed.
End audit.

(** [for_each] when it matters that the elements are the list's. *)
Lemma keeps_for_each_in {Call S A} (en : env Call S) I (l : list A) (f : A → M Call S unit) :
  (∀ x, x ∈ l → keeps en I (f x)) → keeps en I (for_each l f).
Proof.
  induction l as [|x l IH]; intros Hf; simpl; [apply keeps_ret|].
  apply keeps_bind; [apply Hf; left|intros; apply IH; intros; apply Hf; by right].
Qed.

Declare Scope go_scope.
Delimit Scope go_scope with go.
Notation "'let!' x := m 'in' k" := (bind m (λ x, k))
  (at level 10, x strict pattern, m at level 200, k at level 200,
   format "'[v' 'let!'  x  :=  m  'in' '/' k ']'") : go_scope.
Notation "m ;; k" := (bind m (λ _, k))
  (at level 100, k at level 200, right associativity) : go_scope.

(** Walk through a handler, leaving the calls, the updates and the branches whose
    invariant needs an argument. *)
Ltac keeps_step :=
  lazymatch goal with
  | |- triple ?en ?I ?m (λ _, ?I) => change (keeps en I m)
  | |- keeps _ _ (ret _) => apply keeps_ret
  | |- keeps _ _ (throw _) => apply keeps_throw
  | |- keeps _ _ panic => apply keeps_panic
  | |- keeps _ _ hang => apply keeps_hang
  | |- keeps _ _ (lift _) => apply keeps_lift
  | |- keeps _ _ (gets _) => apply keeps_gets
  | |- keeps _ _ (bind _ _) => apply keeps_bind; [|intros ?]
  | |- keeps _ _ (try_ _) => apply keeps_try
  | |- keeps _ _ (ignore _) => apply keeps_ignore
  | |- keeps _ _ (finally _ _) => apply keeps_finally
  | |- keeps _ _ (await _) => apply keeps_await
  | |- keeps _ _ (background _) => apply keeps_background
  | |- keeps _ _ (when _ _) => apply keeps_when
  | |- keeps _ _ (for_each _ _) => apply keeps_for_each; intros ?
  | |- keeps _ _ (map_m _ _) => apply keeps_map_m; intros ?
  | |- keeps _ _ (fold_m _ _ _) => apply keeps_fold_m; intros ? ?
  | |- keeps _ _ (callE _) => apply keeps_callE
  | |- keeps _ _ (match ?x with _ => _ end) => destruct x eqn:?
  | |- keeps _ _ (let _ := _ in _) => cbv zeta
  end.

Ltac errorless :=
  repeat lazymatch goal with
  | |- errorless _ (bind _ _) => apply errorless_bind; [|intros ?]
  | |- errorless _ (ret _) => apply errorless_ret
  | |- errorless _ panic => apply errorless_panic
  | |- errorless _ hang => apply errorless_hang
  | |- errorless _ (gets _) => apply errorless_gets
  | |- errorless _ (modify _) => apply errorless_modify
  | |- errorless _ (call _) => apply errorless_call
  | |- errorless _ (try_ _) => apply errorless_try
  | |- errorless _ (await _) => apply errorless_await
  | |- errorless _ (match ?x with _ => _ end) => destruct x
  end.

Create HintDb returning discriminated.

Ltac returning :=
  repeat lazymatch goal with
  | |- returns _ (bind _ _) => apply returns_bind; [|intros ?]
  | |- returns _ (ret _) => apply returns_ret
  | |- returns _ (throw _) => apply returns_throw
  | |- returns _ (gets _) => apply returns_gets
  | |- returns _ (modify _) => apply returns_modify
  | |- returns _ (call _) => apply returns_call
  | |- returns _ (callE _) => apply returns_callE
  | |- returns _ (lift _) => apply returns_lift
  | |- returns _ (try_ _) => apply returns_try
  | |- returns _ (ignore _) => apply returns_ignore
  | |- returns _ (finally _ _) => apply returns_finally
  | |- returns _ (when _ _) => apply returns_when
  | |- returns _ (for_each _ _) => apply returns_for_each; intros ?
  | |- returns _ (match ?x with _ => _ end) => destruct x
  | |- returns _ (let _ := _ in _) => cbv zeta
  | |- _ => solve [auto with returning nocore]
  end.

Ltac keeps_auto := repeat (keeps_step || (progress cbv beta zeta)); auto with agent.
