(* ===== verification/DiskGuard.v ===== *)
(** * Disk guard (src/src/diskguard)

    The periodic pass that reclaims disk space and maintains the device-wide
    emergency flag, with every call it makes to Docker, the file system and the
    host's commands. *)
From S2P Require Import Prelude Errdefs GoValue Common Effects.
Open Scope go_scope.

(** ** Data *)

Record VolumeResult := { vol_Name : string; vol_Labels : list (string * string) }.

Record ContainerSummary := {
  cs_ID : string;
  cs_Names : list string;
  cs_ImageID : string;
  cs_State : string;
  cs_Labels : list (string * string);
}.

Record ImageSummary := { img_ID : string; img_RepoTags : list string }.

Record dir_entry := { de_name : string; de_is_dir : bool }.

(** What [filepath.WalkDir] hands its callback; the size is [None] when [Info] fails. *)
Record walk_entry := { we_path : string; we_err : bool; we_is_dir : bool; we_size : option Z }.

Definition mib : Z := 1048576.
Definition gib : Z := 1073741824.

Definition composeProjectLabel : string := "com.docker.compose.project".
Definition applianceComposeProject : string := "ironflock-appliance".

Inductive action := actNone | actWarn | actEmergency.

#[export] Instance action_eq_dec : EqDecision action.
Proof. solve_decision. Defined.

(** Durations are in nanoseconds. *)
Definition second : Z := 1000000000.
Definition minute : Z := 60 * second.
Definition registryGCMinInterval : Z := 15 * minute.

(** The callbacks of the configuration are calls below; what is kept here is
    whether they are set. *)
Record GuardConfig := {
  DataRoot : string;
  Interval : Z;
  EmergencyInterval : Z;
  WarnFreeBytes : Z;
  EmergencyFreeBytes : Z;
  LogMaxBytes : Z;
  AppsComposeDir : string;
  AppsBuildDir : string;
  AppImageRegistry : string;
  has_InstalledAppNames : bool;
  has_WantedAppImages : bool;
  has_OnRecover : bool;
  has_docker : bool;
}.

Definition or_default {A} (zero : A → bool) (d v : A) : A := if zero v then d else v.

Definition withDefaults (c : GuardConfig) : GuardConfig :=
  {| DataRoot := or_default (String.eqb "") "/var/lib/docker" (DataRoot c);
     Interval := or_default (Z.eqb 0) (5 * minute)%Z (Interval c);
     EmergencyInterval := or_default (Z.eqb 0) (5 * second)%Z (EmergencyInterval c);
     WarnFreeBytes := or_default (Z.eqb 0) (3 * gib)%Z (WarnFreeBytes c);
     EmergencyFreeBytes := or_default (Z.eqb 0) (1 * gib)%Z (EmergencyFreeBytes c);
     LogMaxBytes := or_default (Z.eqb 0) (50 * mib)%Z (LogMaxBytes c);
     AppsComposeDir := AppsComposeDir c;
     AppsBuildDir := AppsBuildDir c;
     AppImageRegistry := AppImageRegistry c;
     has_InstalledAppNames := has_InstalledAppNames c;
     has_WantedAppImages := has_WantedAppImages c;
     has_OnRecover := has_OnRecover c;
     has_docker := has_docker c |}.

(** The flag the whole agent reads, and the guard's own registry-GC state. *)
Record GuardState := {
  emergency : bool;
  registryGC : bool;
  lastRegistryGC : Z;
}.

Definition set_emergency_flag (v : bool) (s : GuardState) : GuardState :=
  {| emergency := v; registryGC := registryGC s; lastRegistryGC := lastRegistryGC s |}.
Definition stamp_registryGC (t : Z) (s : GuardState) : GuardState :=
  {| emergency := emergency s; registryGC := registryGC s; lastRegistryGC := t |}.

Inductive GuardCall : Type → Type :=
  | Statfs : GuardCall ((N * N) + error)
  | Now : GuardCall Z
  | RunRegistryGC : GuardCall unit
  | PruneDanglingImages : GuardCall (unit + error)
  | PruneBuildCache : GuardCall (unit + error)
  | ListDanglingVolumes : GuardCall (list VolumeResult + error)
  | RemoveVolume (name : string) : GuardCall (unit + error)
  | ListContainers (all : bool) : GuardCall (list ContainerSummary + error)
  | StopContainerByID (id : string) : GuardCall (unit + error)
  | ListImages : GuardCall (list ImageSummary + error)
  | RemoveImage (tag : string) : GuardCall (unit + error)
  | InstalledAppNames : GuardCall (list string + error)
  | WantedAppImages : GuardCall (list (string * bool) + error)
  | ReadDir (root : string) : GuardCall (list dir_entry + error)
  | LookPath (name : string) : GuardCall bool
  | RunCommand (name : string) (args : list string) : GuardCall (unit + error)
  | WalkDir (root : string) : GuardCall (list walk_entry)
  | Truncate (path : string) : GuardCall (unit + error)
  | OnRecover : GuardCall unit.

Abbreviation G := (M GuardCall GuardState).

(** ** Pure parts *)

Definition hex_lower (a : ascii) : bool :=
  let n := N_of_ascii a in ((48 <=? n) && (n <=? 57) || (97 <=? n) && (n <=? 102))%N.

Definition isAnonymousVolumeName (name : string) : bool :=
  Nat.eqb (String.length name) 64 && str_forall hex_lower name.

Definition normalizeProjectName : string → string := NormalizeComposeProjectName.

Definition dot_or_colon (a : ascii) : bool := Ascii.eqb a "." || Ascii.eqb a ":".

(** [strings.EqualFold] against an ASCII word. *)
Definition equal_fold (s t : string) : bool := String.eqb (to_lower s) (to_lower t).

Definition registryHostOf (ref : string) : string :=
  match str_cut "/" ref with
  | (host, _, true) =>
      if negb (contains_any dot_or_colon host) && negb (equal_fold host "localhost") then "" else host
  | (_, _, false) => ""
  end.

Definition trim_suffix_slash (s : string) : string :=
  match rev (String.list_ascii_of_string s) with
  | a :: rest => if Ascii.eqb a "/" then String.string_of_list_ascii (rev rest) else s
  | [] => s
  end.

(** The host part of [net.SplitHostPort], when it succeeds. *)
Definition split_host_port (hostport : string) : option string :=
  match rev (split_on ":" hostport) with
  | port :: ((_ :: _) as front) =>
      let host := join_with ":" (rev front) in
      match hostport with
      | String "[" rest =>
          match str_cut "]" rest with
          | (inner, String ":" after, true) =>
              if lacks ":" after && lacks "[" inner && lacks "[" after && lacks "]" after
              then Some inner else None
          | _ => None
          end
      | _ =>
          if lacks ":" host && lacks "[" hostport && lacks "]" hostport then Some host else None
      end
  | _ => None
  end.

(** [strings.Trim(name, "[]")]. *)
Definition bracket (a : ascii) : bool := Ascii.eqb a "[" || Ascii.eqb a "]".
Definition trim_brackets (s : string) : string :=
  let front := trim_left bracket s in
  String.string_of_list_ascii (rev (String.list_ascii_of_string
    (trim_left bracket (String.string_of_list_ascii (rev (String.list_ascii_of_string front)))))).

Section guard.
(** [net.ParseIP(name)] succeeds and the address is loopback, private or
    link-local unicast. *)
Variable is_local_ip : string → bool.
Variable cfg : GuardConfig.

Definition localRegistryHost (registryURL : string) : option string :=
  let host := registryHostOf (trim_suffix_slash registryURL +:+ "/") in
  if String.eqb host "" then None
  else let name := trim_brackets (default host (split_host_port host)) in
       if equal_fold name "localhost" then Some host
       else if is_local_ip name then Some host else None.

Definition decide_action (freeBytes : Z) : action :=
  if (freeBytes <? EmergencyFreeBytes cfg)%Z then actEmergency
  else if (freeBytes <? WarnFreeBytes cfg)%Z then actWarn
  else actNone.

(** ** The guard's steps *)

(** [int64(uint64(st.Bavail) * uint64(st.Bsize))]. *)
Definition int64_of_u64 (n : N) : Z :=
  let z := Z.of_N (wrap64 n) in if (z <? 2 ^ 63)%Z then z else (z - Z.of_N two64)%Z.

Definition freeBytes : G Z :=
  let! r := call Statfs in
  match r with
  | inl (bavail, bsize) => ret (int64_of_u64 (bavail * bsize))
  | inr _ => ret (2 ^ 50)%Z
  end.

(** [setEmergency]: stores the flag, returns whether it changed. *)
Definition setEmergency (v : bool) : G bool :=
  let! old := gets emergency in
  modify (set_emergency_flag v);;
  ret (negb (Bool.eqb old v)).

Definition stopForeignContainers : G unit :=
  if negb (has_docker cfg) then ret tt
  else
    let! r := call (ListContainers false) in
    match r with
    | inr _ => ret tt
    | inl containers =>
        for_each containers (λ c,
          if negb (String.eqb (cs_State c) "running") then ret tt
          else if String.eqb (default "" (map_get composeProjectLabel (cs_Labels c)))
                    applianceComposeProject then ret tt
          else call (StopContainerByID (cs_ID c));; ret tt)
    end.

Definition updateEmergency (free : Z) : G unit :=
  match decide_action free with
  | actEmergency => setEmergency true;; stopForeignContainers
  | actNone =>
      let! changed := setEmergency false in
      when (changed && has_OnRecover cfg) (call OnRecover)
  | actWarn => ret tt
  end.

Definition triggerRegistryGC : G unit :=
  let! s := gets id in
  if negb (registryGC s) then ret tt
  else
    let! now := call Now in
    if (now - lastRegistryGC s <? registryGCMinInterval)%Z then ret tt
    else
      let! now' := call Now in
      modify (stamp_registryGC now');;
      call RunRegistryGC.

Fixpoint hasAppDirIn (roots : list string) (project : string) : G bool :=
  match roots with
  | [] => ret false
  | root :: roots' =>
      if String.eqb root "" then hasAppDirIn roots' project
      else
        let! r := call (ReadDir root) in
        match r with
        | inr _ => hasAppDirIn roots' project
        | inl entries =>
            if existsb (λ e, de_is_dir e && String.eqb (normalizeProjectName (de_name e)) project) entries
            then ret true else hasAppDirIn roots' project
        end
  end.

Definition hasAppDirForProject (project : string) : G bool :=
  hasAppDirIn [AppsComposeDir cfg; AppsBuildDir cfg] project.

Definition removeVolume (name : string) : G unit := call (RemoveVolume name);; ret tt.

(** The normalized names of the installed apps; [None] when they are unknown. *)
Definition installedProjects : G (option (list string)) :=
  if negb (has_InstalledAppNames cfg) then ret None
  else
    let! r := call InstalledAppNames in
    match r with
    | inr _ => ret None
    | inl names => ret (Some (map normalizeProjectName names))
    end.

Definition prune_volume (installed : option (list string)) (v : VolumeResult) : G unit :=
  let project := default "" (map_get composeProjectLabel (vol_Labels v)) in
  if String.eqb project "" then
    when (bool_decide (vol_Labels v = []) && isAnonymousVolumeName (vol_Name v))
      (removeVolume (vol_Name v))
  else if String.eqb project applianceComposeProject then ret tt
  else match installed with
       | None => ret tt
       | Some names =>
           if bool_decide (project ∈ names) then ret tt
           else
             let! has := hasAppDirForProject project in
             if has then removeVolume (vol_Name v) else ret tt
       end.

Definition pruneOrphanedVolumes : G unit :=
  let! r := call ListDanglingVolumes in
  match r with
  | inr _ => ret tt
  | inl [] => ret tt
  | inl volumes =>
      let! installed := installedProjects in
      for_each volumes (prune_volume installed)
  end.

Definition removeImageTag (tag : string) : G unit := call (RemoveImage tag);; ret tt.

Definition reclaim_image (host : string) (wanted : list (string * bool)) (inUse : list string)
    (img : ImageSummary) : G unit :=
  if bool_decide (img_ID img ∈ inUse) then ret tt
  else for_each (img_RepoTags img) (λ tag,
         if negb (String.eqb (registryHostOf tag) host) || default false (map_get tag wanted)
         then ret tt else removeImageTag tag).

Definition reclaimSupersededAppImages : G unit :=
  match localRegistryHost (AppImageRegistry cfg) with
  | None => ret tt
  | Some host =>
      if negb (has_WantedAppImages cfg) then ret tt
      else
        let! w := call WantedAppImages in
        match w with
        | inr _ => ret tt
        | inl wanted =>
            let! cr := call (ListContainers true) in
            match cr with
            | inr _ => ret tt
            | inl containers =>
                let inUse := map cs_ImageID containers in
                let! ir := call ListImages in
                match ir with
                | inr _ => ret tt
                | inl images => for_each images (reclaim_image host wanted inUse)
                end
            end
        end
  end.

(** [filepath.Ext]. *)
Definition file_ext (path : string) : string :=
  let base := default "" (last (split_on "/" path)) in
  match rev (split_on "." base) with
  | ext :: (_ :: _) => "." +:+ ext
  | _ => ""
  end.

Definition truncate_log (e : walk_entry) : G unit :=
  if we_err e || we_is_dir e then ret tt
  else if negb (String.eqb (file_ext (we_path e)) ".log") then ret tt
  else match we_size e with
       | None => ret tt
       | Some size => if (size <=? LogMaxBytes cfg)%Z then ret tt
                      else call (Truncate (we_path e));; ret tt
       end.

Definition truncateOversizedLogs : G unit :=
  let! entries := call (WalkDir (DataRoot cfg +:+ "/containers")) in
  for_each entries truncate_log.

Definition run_command (name : string) (args : list string) : G unit :=
  call (RunCommand name args);; ret tt.

Definition safeCleanup : G unit :=
  triggerRegistryGC;;
  when (has_docker cfg)
    (call PruneDanglingImages;;
     call PruneBuildCache;;
     pruneOrphanedVolumes;;
     reclaimSupersededAppImages);;
  run_command "journalctl" ["--vacuum-size=100M"];;
  let! found := call (LookPath "apt-get") in
  when found (run_command "apt-get" ["clean"]);;
  truncateOversizedLogs.

Definition runOnce : G unit :=
  let! free := freeBytes in
  when (bool_decide (decide_action free = actEmergency)) (updateEmergency free);;
  let! free := (if bool_decide (decide_action free = actNone) then ret free
                else safeCleanup;; freeBytes) in
  updateEmergency free.

Definition CheckNow : G unit := runOnce.

(** One iteration of [Run]: a pass, and the time to sleep before the next. *)
Definition run_iteration : G Z :=
  runOnce;;
  let! e := gets emergency in
  ret (if e then EmergencyInterval cfg else Interval cfg).

End guard.

(** ** The hysteresis of the emergency flag *)

Section hysteresis.
#[local] Set Default Proof Using "Type*".
Variable is_local_ip : string → bool.
Variable cfg : GuardConfig.
Variable en : env GuardCall GuardState.

(** Nothing but the guard writes the flag. *)
Hypothesis flag_private : ∀ l s, emergency (interfere en l s) = emergency s.

(** The abstract specification: one reading moves the flag. *)
Definition band_flag (free : Z) (flag : bool) : bool :=
  match decide_action cfg free with
  | actEmergency => true
  | actWarn => flag
  | actNone => false
  end.

Definition reading_of (e : event GuardCall GuardState) : option Z :=
  match e with
  | Ev c r _ =>
      match c in GuardCall T return T → option Z with
      | Statfs => λ r, Some match r with inl (a, b) => int64_of_u64 (a * b) | inr _ => (2 ^ 50)%Z end
      | _ => λ _, None
      end r
  end.

(** The free-space readings of a log, newest first. *)
Definition readings (l : list (event GuardCall GuardState)) : list Z := omap reading_of l.

Definition flag_after (init : bool) (l : list (event GuardCall GuardState)) : bool :=
  foldr band_flag init (readings l).

Definition critical (l : list (event GuardCall GuardState)) : Prop :=
  ∃ f, head (readings l) = Some f ∧ decide_action cfg f = actEmergency.

(** Every call made after a critical reading sees the flag already set. *)
Fixpoint latched (l : list (event GuardCall GuardState)) : Prop :=
  match l with
  | [] => True
  | Ev _ _ w :: l' => latched l' ∧ (critical l' → emergency w = true)
  end.

Variable init : bool.

Definition guard_inv (st : state GuardCall GuardState) : Prop :=
  emergency (world st) = flag_after init (log st) ∧ latched (log st).

(** Between a reading and the update it causes. *)
Definition pending (f : Z) (st : state GuardCall GuardState) : Prop :=
  ∃ rd, readings (log st) = f :: rd
    ∧ emergency (world st) = foldr band_flag init rd ∧ latched (log st).

Lemma critical_flag l : critical l → flag_after init l = true.
Proof.
  intros (f&Hf&Hd). unfold flag_after. destruct (readings l); [done|]. injection Hf as ->.
  simpl. unfold band_flag. by rewrite Hd.
Qed.

Definition is_statfs {T} (c : GuardCall T) : bool := match c with Statfs => true | _ => false end.

Lemma readings_other {T} (c : GuardCall T) r w l :
  is_statfs c = false → readings (Ev c r w :: l) = readings l.
Proof. by destruct c. Qed.

Lemma keeps_guard_call {T} (c : GuardCall T) : is_statfs c = false → keeps en guard_inv (call c).
Proof.
  intros Hc. apply keeps_call. intros st r [Hflag Hl]. unfold guard_inv. cbn [world log latched].
  rewrite flag_private. split_and!; [|done|].
  - unfold flag_after. by rewrite readings_other.
  - intros Hcrit. rewrite Hflag. by apply critical_flag.
Qed.

Ltac guard_keeps := repeat (keeps_step || (apply keeps_guard_call; reflexivity)).

Lemma keeps_stamp t : keeps en guard_inv (modify (stamp_registryGC t)).
Proof. by apply keeps_modify. Qed.

Lemma keeps_stopForeign : keeps en guard_inv (stopForeignContainers cfg).
Proof. unfold stopForeignContainers. guard_keeps. Qed.

Lemma keeps_hasAppDirIn roots project : keeps en guard_inv (hasAppDirIn roots project).
Proof. induction roots; simpl; guard_keeps; done. Qed.

Lemma keeps_safeCleanup : keeps en guard_inv (safeCleanup is_local_ip cfg).
Proof.
  unfold safeCleanup, triggerRegistryGC, pruneOrphanedVolumes, installedProjects, prune_volume,
    hasAppDirForProject, reclaimSupersededAppImages, reclaim_image, removeVolume, removeImageTag,
    truncateOversizedLogs, truncate_log, run_command.
  repeat (keeps_step || (apply keeps_guard_call; reflexivity) || apply keeps_stamp
          || apply keeps_hasAppDirIn).
Qed.

Lemma triple_freeBytes :
  triple en guard_inv freeBytes (λ o st, ∃ f, o = Ok f ∧ pending f st).
Proof.
  intros st [Hflag Hl]. unfold freeBytes, bind, call. cbn -[int64_of_u64 Z.pow].
  destruct (answer en _ Statfs (log st)) as [[a b]|e] eqn:E; cbn -[int64_of_u64 Z.pow];
    (eexists; split; [reflexivity|]; exists (readings (log st)); cbn -[int64_of_u64 Z.pow];
     rewrite flag_private; split_and!; try done; intros Hc; rewrite Hflag; by apply critical_flag).
Qed.

Lemma triple_setEmergency f v :
  (∀ b, band_flag f b = v) →
  triple en (pending f) (setEmergency v) (λ o st, (∃ b, o = Ok b) ∧ guard_inv st).
Proof.
  intros Hv st (rd&Hr&Hflag&Hl). unfold setEmergency, bind, gets, modify, ret. simpl.
  split; [eauto|]. split; [|done]. unfold flag_after. simpl. rewrite Hr. simpl. by rewrite Hv.
Qed.

Lemma pending_warn f st : decide_action cfg f = actWarn → pending f st → guard_inv st.
Proof.
  intros Hd (rd&Hr&Hflag&Hl). split; [|done]. unfold flag_after. rewrite Hr, Hflag. simpl.
  unfold band_flag at 2. by rewrite Hd.
Qed.

Lemma triple_updateEmergency f :
  triple en (pending f) (updateEmergency cfg f) (λ _, guard_inv).
Proof.
  unfold updateEmergency. destruct (decide_action cfg f) eqn:Hd.
  - apply triple_bind with (R := λ _, guard_inv).
    + eapply triple_post; [apply (triple_setEmergency f); intros b; unfold band_flag; by rewrite Hd|].
      by intros o st [[b ->] ?].
    + intros b. guard_keeps.
  - intros st Hp. by apply (pending_warn f).
  - apply triple_bind with (R := λ _, guard_inv).
    + eapply triple_post; [apply (triple_setEmergency f); intros b; unfold band_flag; by rewrite Hd|].
      by intros o st [[b ->] ?].
    + intros b. apply keeps_stopForeign.
Qed.

Lemma keeps_runOnce : keeps en guard_inv (runOnce is_local_ip cfg).
Proof.
  unfold runOnce. apply triple_bind with (R := pending).
  { eapply triple_post; [apply triple_freeBytes|]. by intros o st (f&->&?). }
  intros f. apply triple_bind with (R := λ _ st,
    if decide (decide_action cfg f = actNone) then pending f st else guard_inv st).
  { destruct (decide_action cfg f) eqn:Hd; simpl.
    - by intros st Hp.
    - intros st Hp. by apply (pending_warn f).
    - eapply triple_post; [apply triple_updateEmergency|]. by intros []. }
  intros _. apply triple_bind with (R := pending); [|apply triple_updateEmergency].
  destruct (decide (decide_action cfg f = actNone)) as [Hd|Hd].
  - rewrite bool_decide_true by done. by intros st Hp.
  - rewrite bool_decide_false by done. apply triple_bind with (R := λ _, guard_inv).
    + eapply triple_post; [apply keeps_safeCleanup|]. by intros [].
    + intros _. eapply triple_post; [apply triple_freeBytes|]. by intros o st (g&->&?).
Qed.

(** [n] iterations of [Run]. *)
Fixpoint run_passes (n : nat) : G unit :=
  match n with
  | O => ret tt
  | S n' => run_iteration is_local_ip cfg;; run_passes n'
  end.

Lemma keeps_run_passes n : keeps en guard_inv (run_passes n).
Proof.
  induction n; simpl; [apply keeps_ret|]. apply keeps_bind; [|done]. unfold run_iteration.
  apply keeps_bind; [apply keeps_runOnce|intros]. guard_keeps.
Qed.
End hysteresis.

(** the guard refines the hysteresis automaton: after any number of passes the
    emergency flag is the fold of every free-space reading taken (set below the
    emergency floor, cleared at or above the warn floor, held in between), and every
    call made after a critical reading sees the flag already set. *)
Theorem emergency_flag_hysteresis is_local_ip cfg en n s0 :
  (∀ l s, emergency (interfere en l s) = emergency s) →
  let st := (run_passes is_local_ip cfg n en (mk_state s0 [])).2 in
  emergency (world st) = flag_after cfg (emergency s0) (log st) ∧ latched cfg (log st).
Proof.
  intros Hpriv st. apply (keeps_run_passes is_local_ip cfg en Hpriv (emergency s0) n). by split.
Qed.

(** A device whose successive readings are given, with one running app container,
    one container of the appliance stack and one dangling anonymous volume. *)
Definition ex_volume : string := "0123456789abcdef0123456789abcdef0123456789abcdef0123456789abcdef".

Definition ex_containers : list ContainerSummary :=
  [{| cs_ID := "app"; cs_Names := ["/prod_6_web"]; cs_ImageID := "sha256:1"; cs_State := "running"; cs_Labels := [] |};
   {| cs_ID := "caddy"; cs_Names := []; cs_ImageID := "sha256:2"; cs_State := "running";
      cs_Labels := [(composeProjectLabel, applianceComposeProject)] |}].

Definition count_readings (l : list (event GuardCall GuardState)) : nat := length (readings l).

Definition ex_answer (readings_at : nat → N) (T : Type) (c : GuardCall T)
    (l : list (event GuardCall GuardState)) : T :=
  match c with
  | Statfs => inl (readings_at (count_readings l), 1048576%N)
  | Now => 0%Z
  | RunRegistryGC => tt
  | PruneDanglingImages | PruneBuildCache | RemoveVolume _ | StopContainerByID _
  | RemoveImage _ | RunCommand _ _ | Truncate _ => inl tt
  | ListDanglingVolumes =>
      inl [{| vol_Name := ex_volume; vol_Labels := [] |};
           {| vol_Name := "data"; vol_Labels := [(composeProjectLabel, "web")] |};
           {| vol_Name := "old"; vol_Labels := [(composeProjectLabel, "gone")] |};
           {| vol_Name := "other"; vol_Labels := [(composeProjectLabel, "foreign")] |}]
  | ListContainers _ => inl ex_containers
  | ListImages => inl [{| img_ID := "sha256:3"; img_RepoTags := ["localhost:15001/apps/a:1"; "postgres:16"] |};
                       {| img_ID := "sha256:1"; img_RepoTags := ["localhost:15001/apps/b:1"] |}]
  | InstalledAppNames => inl ["Web"]
  | WantedAppImages => inl []
  | ReadDir _ => inl [{| de_name := "Gone"; de_is_dir := true |}]
  | LookPath _ => true
  | WalkDir _ => [{| we_path := "/var/lib/docker/containers/1/1-json.log"; we_err := false;
                     we_is_dir := false; we_size := Some (100 * mib)%Z |}]
  | OnRecover => tt
  end.

Definition ex_env (readings_at : nat → N) : env GuardCall GuardState :=
  {| answer := ex_answer readings_at; interfere := λ _ s, s |}.

Definition ex_config : GuardConfig := withDefaults
  {| DataRoot := ""; Interval := 0; EmergencyInterval := 0; WarnFreeBytes := 0;
     EmergencyFreeBytes := 0; LogMaxBytes := 0; AppsComposeDir := "/apps"; AppsBuildDir := "";
     AppImageRegistry := "localhost:15001/"; has_InstalledAppNames := true;
     has_WantedAppImages := true; has_OnRecover := true; has_docker := true |}.

Definition ex_state : GuardState := {| emergency := false; registryGC := true; lastRegistryGC := -1000000000000 |}.

(** 500 MiB, then 2 GiB after the cleanup (held), then 4 GiB (cleared). *)
Definition ex_readings (n : nat) : N :=
  match n with O => 500 | S O => 2048 | _ => 4096 end%N.

Lemma emergency_flag_hysteresis_witness :
  let run n := (run_passes (λ _, false) ex_config n (ex_env ex_readings) (mk_state ex_state [])).2 in
  emergency (world (run 1%nat)) = true ∧ emergency (world (run 2%nat)) = false
  ∧ latched ex_config (log (run 2%nat)).
Proof.
  intros run.
  pose proof (emergency_flag_hysteresis (λ _, false) ex_config (ex_env ex_readings) 1 ex_state
    (λ _ _, eq_refl)) as [H1 _].
  pose proof (emergency_flag_hysteresis (λ _, false) ex_config (ex_env ex_readings) 2 ex_state
    (λ _ _, eq_refl)) as [H2 Hl].
  split; [|split; [|exact Hl]].
  - refine (eq_trans H1 _). clear. vm_compute. reflexivity.
  - refine (eq_trans H2 _). clear. vm_compute. reflexivity.
Defined.

(** ** What the guard may delete or stop *)

Section safety.
Variable is_local_ip : string → bool.
Variable cfg : GuardConfig.

Implicit Types l : list (event GuardCall GuardState).

(** A removable volume: reported dangling, and either anonymous and unlabelled, or
    of a compose project that is not the appliance's, not installed and attributable
    to the agent by a directory of its own. *)
Definition volume_removable l (name : string) : Prop :=
  ∃ vs w v, Ev ListDanglingVolumes (inl vs) w ∈ l ∧ v ∈ vs ∧ vol_Name v = name ∧
  ((vol_Labels v = [] ∧ isAnonymousVolumeName name = true)
   ∨ ∃ project, map_get composeProjectLabel (vol_Labels v) = Some project
       ∧ project ≠ applianceComposeProject
       ∧ (∃ names w, Ev InstalledAppNames (inl names) w ∈ l ∧ project ∉ map normalizeProjectName names)
       ∧ ∃ root entries w e, root ∈ [AppsComposeDir cfg; AppsBuildDir cfg]
           ∧ Ev (ReadDir root) (inl entries) w ∈ l ∧ e ∈ entries
           ∧ de_is_dir e = true ∧ normalizeProjectName (de_name e) = project).

(** A stoppable container: listed as running and not of the appliance stack. *)
Definition container_stoppable l (id : string) : Prop :=
  ∃ cs w c, Ev (ListContainers false) (inl cs) w ∈ l ∧ c ∈ cs ∧ cs_ID c = id
    ∧ cs_State c = "running"
    ∧ map_get composeProjectLabel (cs_Labels c) ≠ Some applianceComposeProject.

(** A removable image tag: of a registry local to the device, not wanted by any
    known app, on an image no container references. *)
Definition image_removable l (tag : string) : Prop :=
  ∃ host wanted w1 cs w2 imgs w3 img,
    localRegistryHost is_local_ip (AppImageRegistry cfg) = Some host ∧ registryHostOf tag = host
    ∧ Ev WantedAppImages (inl wanted) w1 ∈ l ∧ map_get tag wanted ≠ Some true
    ∧ Ev (ListContainers true) (inl cs) w2 ∈ l ∧ Ev ListImages (inl imgs) w3 ∈ l
    ∧ img ∈ imgs ∧ tag ∈ img_RepoTags img ∧ img_ID img ∉ map cs_ImageID cs.

Definition justified l (e : event GuardCall GuardState) : Prop :=
  match e with
  | Ev c _ w =>
      match c with
      | RemoveVolume name => volume_removable l name
      | StopContainerByID id => container_stoppable l id ∧ emergency w = true
      | RemoveImage tag => image_removable l tag
      | _ => True
      end
  end.

Variable en : env GuardCall GuardState.
Hypothesis flag_private : ∀ l s, emergency (interfere en l s) = emergency s.

#[local] Set Default Proof Using "Type*".

Definition neutral {T} (c : GuardCall T) : bool :=
  match c with RemoveVolume _ | StopContainerByID _ | RemoveImage _ => false | _ => true end.

Lemma stable_flag b : stable en (λ st, emergency (world st) = b).
Proof. intros st e <-. simpl. apply flag_private. Qed.

Lemma neutral_justified {T} (c : GuardCall T) l r w : neutral c = true → justified l (Ev c r w).
Proof. by destruct c. Qed.

Lemma keeps_neutral {T} (c : GuardCall T) K :
  stable en K → neutral c = true → keeps en (known justified K) (call c).
Proof. intros HK Hc. apply keeps_known_call; [done|]. intros. by apply neutral_justified. Qed.

Lemma learn {T B} (c : GuardCall T) (f : T → G B) K :
  stable en K → neutral c = true →
  (∀ r, keeps en (known justified (λ st, K st ∧ seen c r st)) (f r)) →
  keeps en (known justified K) (bind (call c) f).
Proof. intros HK Hc Hf. apply keeps_learn; [done|by intros; apply neutral_justified|done]. Qed.

Ltac stability := repeat (apply stable_and || apply stable_seen || apply stable_flag || apply stable_pure).
Ltac quiet := repeat (keeps_step || (apply keeps_neutral; [by stability|reflexivity])).

Lemma keeps_stop_safe :
  keeps en (known justified (λ st, emergency (world st) = true)) (stopForeignContainers cfg).
Proof.
  unfold stopForeignContainers. destruct (negb _); [apply keeps_ret|].
  apply learn; [by stability|done|]. intros [cs|e]; [|apply keeps_ret].
  apply keeps_for_each_in. intros c Hc.
  destruct (String.eqb_spec (cs_State c) "running") as [Hrun|]; [|apply keeps_ret]. simpl.
  destruct (String.eqb_spec (default "" (map_get composeProjectLabel (cs_Labels c))) applianceComposeProject)
    as [|Hne]; [apply keeps_ret|].
  apply keeps_bind; [|intros; apply keeps_ret]. apply keeps_known_call; [by stability|].
  intros st r [Hflag [w Hin]]. split; [|done]. exists cs, w, c. split_and!; try done.
  intros Hl. apply Hne. by rewrite Hl.
Qed.

Lemma known_equiv {A} (K K' : state GuardCall GuardState → Prop) (m : G A) :
  keeps en (known justified K') m → (∀ st, K st → K' st) →
  triple en (known justified K) m (λ _, known justified (λ _, True)).
Proof.
  intros Hm HK. eapply triple_conseq; [exact Hm|intros st [? ?]; split; auto|by intros _ st [? _]].
Qed.

Lemma keeps_update_safe free : keeps en (known justified (λ _, True)) (updateEmergency cfg free).
Proof.
  unfold updateEmergency. destruct (decide_action cfg free); [|apply keeps_ret|].
  - unfold setEmergency. quiet. by apply keeps_modify.
  - apply triple_bind with (R := λ _, known justified (λ st, emergency (world st) = true)).
    + by intros st [Ha _].
    + intros _. eapply known_equiv; [apply keeps_stop_safe|done].
Qed.

(** A directory that attributes [project] to the agent was listed. *)
Definition attributed (project : string) (st : state GuardCall GuardState) : Prop :=
  ∃ root entries e, root ∈ [AppsComposeDir cfg; AppsBuildDir cfg]
    ∧ seen (ReadDir root) (inl entries) st ∧ e ∈ entries
    ∧ de_is_dir e = true ∧ normalizeProjectName (de_name e) = project.

Lemma hasAppDir_attributed project K :
  stable en K →
  triple en (known justified K) (hasAppDirForProject cfg project) (λ o,
    known justified (λ st, K st ∧ (o = Ok true → attributed project st))).
Proof.
  intros HK. unfold hasAppDirForProject.
  assert (∀ roots, (∀ r, r ∈ roots → r ∈ [AppsComposeDir cfg; AppsBuildDir cfg]) →
    triple en (known justified K) (hasAppDirIn roots project) (λ o,
      known justified (λ st, K st ∧ (o = Ok true → attributed project st)))) as Hmain; [|by apply Hmain].
  intros roots Hroots. induction roots as [|root roots IH]; simpl.
  { by intros st [? ?]. }
  assert (IH' := IH (λ r Hr, Hroots r (list_elem_of_further _ _ _ Hr))).
  destruct (String.eqb root ""); [exact IH'|].
  apply triple_bind with (R := λ r, known justified (λ st, K st ∧ seen (ReadDir root) r st)).
  { intros st [Ha Hk]. split; [by split|]. split; [by apply HK|]. eexists. by left. }
  intros [entries|e].
  - destruct (existsb _ entries) eqn:Hex.
    + intros st [Ha [Hk Hs]]. split; [done|]. split; [done|]. intros _.
      apply existsb_exists in Hex as (e&Hin&[Hd Hn]%andb_prop). apply String.eqb_eq in Hn.
      exists root, entries, e. split_and!; try done; [apply Hroots; left|by apply list_elem_of_In].
    + eapply triple_pre; [exact IH'|]. by intros st [? [? _]].
  - eapply triple_pre; [exact IH'|]. by intros st [? [? _]].
Qed.

Lemma keeps_prune_volume vs installed v K :
  stable en K → v ∈ vs →
  (∀ st, K st → seen ListDanglingVolumes (inl vs) st) →
  (∀ st names, K st → installed = Some names →
     ∃ raw, seen InstalledAppNames (inl raw) st ∧ names = map normalizeProjectName raw) →
  keeps en (known justified K) (prune_volume cfg installed v).
Proof.
  intros HK Hv Hvs Hinst. unfold prune_volume, removeVolume.
  destruct (map_get composeProjectLabel (vol_Labels v)) as [project|] eqn:Hlabel; simpl.
  - destruct (String.eqb_spec project "") as [->|Hne].
    { rewrite bool_decide_false by (intros Hnil; by rewrite Hnil in Hlabel). apply keeps_ret. }
    destruct (String.eqb_spec project applianceComposeProject) as [|Happ]; [apply keeps_ret|].
    destruct installed as [names|]; [|apply keeps_ret].
    case_bool_decide as Hin; [apply keeps_ret|].
    apply triple_bind with (R := λ has, known justified (λ st, K st ∧ (has = true → attributed project st))).
    { eapply triple_post; [by apply hasAppDir_attributed|]. intros [[]| | |] st [? [? ?]]; (split; [done|]); naive_solver. }
    intros []; [|by intros st [? [? _]]].
    intros st [Ha [Hk Hat]]. specialize (Hat eq_refl) as (root&entries&e&?&[w1 ?]&?&?&?).
    destruct (Hvs st Hk) as [w2 ?]. destruct (Hinst st names Hk eq_refl) as (raw&[w3 ?]&->).
    split; [|by apply HK]. split; [done|].
    exists vs, w2, v. split_and!; try done. right. exists project. split_and!; try done.
    + exists raw, w3. by split.
    + exists root, entries, w1, e. by split_and!.
  - unfold when. destruct (bool_decide _ && _) eqn:Hb; [|apply keeps_ret]. bool_to_prop.
    apply keeps_bind; [|intros; apply keeps_ret]. apply keeps_known_call; [done|].
    intros st r Hk. destruct (Hvs st Hk) as [w ?]. exists vs, w, v. split_and!; try done. by left.
Qed.

Lemma keeps_prune_safe : keeps en (known justified (λ _, True)) (pruneOrphanedVolumes cfg).
Proof.
  unfold pruneOrphanedVolumes. apply learn; [by stability|done|]. intros [[|v0 vs]|e];
    [apply keeps_ret| |apply keeps_ret].
  generalize (v0 :: vs). clear v0 vs. intros vs.
  set (facts := λ (installed : option (list string)) (st : state GuardCall GuardState),
    seen ListDanglingVolumes (inl vs) st ∧ ∀ names, installed = Some names →
      ∃ raw, seen InstalledAppNames (inl raw) st ∧ names = map normalizeProjectName raw).
  apply triple_bind with (R := λ installed, known justified (facts installed)).
  - unfold installedProjects. destruct (negb _).
    { intros st [? [_ ?]]. by split. }
    intros st [Ha [_ [w Hw]]]. unfold bind, call.
    destruct (answer en _ InstalledAppNames (log st)) as [raw|err] eqn:E; cbn;
      (split; [by split|]); (split; [exists w; by right|]); [|done].
    intros names [= <-]. exists raw. split; [|done]. eexists. by left.
  - intros installed. apply triple_post with (Q' := λ _, known justified (facts installed));
      [|by intros _ st [? [? _]]; repeat split].
    apply keeps_for_each_in. intros v Hv. apply keeps_prune_volume with vs; try done.
    + apply stable_and; [by stability|]. intros st e Hk names Hn.
      destruct (Hk names Hn) as (raw&[w ?]&->). exists raw. split; [exists w; by right|done].
    + by intros st [? _].
    + intros st names [_ ?]; auto.
Qed.

Lemma keeps_reclaim_safe :
  keeps en (known justified (λ _, True)) (reclaimSupersededAppImages is_local_ip cfg).
Proof.
  unfold reclaimSupersededAppImages.
  destruct (localRegistryHost _ _) as [host|] eqn:Hhost; [|apply keeps_ret].
  destruct (negb _); [apply keeps_ret|].
  apply learn; [by stability|done|]. intros [wanted|]; [|apply keeps_ret].
  apply learn; [by stability|done|]. intros [cs|]; [|apply keeps_ret].
  apply learn; [by stability|done|]. intros [imgs|]; [|apply keeps_ret].
  apply keeps_for_each_in. intros img Himg. unfold reclaim_image.
  case_bool_decide as Huse; [apply keeps_ret|].
  apply keeps_for_each_in. intros tag Htag.
  destruct (String.eqb_spec (registryHostOf tag) host) as [Hreg|]; [|apply keeps_ret].
  destruct (default false (map_get tag wanted)) eqn:Hw; [apply keeps_ret|]. simpl.
  apply keeps_bind; [|intros; apply keeps_ret]. apply keeps_known_call; [by stability|].
  intros st r [[[_ [w1 ?]] [w2 ?]] [w3 ?]].
  exists host, wanted, w1, cs, w2, imgs, w3, img. split_and!; try done.
  intros Hm. by rewrite Hm in Hw.
Qed.

Lemma keeps_runOnce_safe : keeps en (known justified (λ _, True)) (runOnce is_local_ip cfg).
Proof.
  unfold runOnce, freeBytes, safeCleanup, triggerRegistryGC, truncateOversizedLogs, truncate_log, run_command.
  repeat (keeps_step || (apply keeps_neutral; [by stability|reflexivity]) || apply keeps_update_safe
    || apply keeps_prune_safe || apply keeps_reclaim_safe); by apply keeps_modify.
Qed.

Lemma keeps_passes_safe n : keeps en (known justified (λ _, True)) (run_passes is_local_ip cfg n).
Proof.
  induction n; simpl; [apply keeps_ret|]. apply keeps_bind; [|done]. unfold run_iteration.
  apply keeps_bind; [apply keeps_runOnce_safe|intros; quiet].
Qed.
End safety.

(** C39: what the guard deletes and stops is justified by what it has seen: a volume
    only when Docker reported it dangling and it is anonymous or belongs to an
    uninstalled app of the agent's own; a container only while the emergency flag is
    set, and never one of the appliance stack; an image tag only when it is from a
    local registry, unwanted and unreferenced. *)
Theorem guard_actions_justified is_local_ip cfg en n s0 :
  (∀ l s, emergency (interfere en l s) = emergency s) →
  audited (justified is_local_ip cfg)
    (log (run_passes is_local_ip cfg n en (mk_state s0 [])).2).
Proof. intros Hpriv. by apply (keeps_passes_safe is_local_ip cfg en Hpriv n). Qed.

Definition removed_volumes (l : list (event GuardCall GuardState)) : list string :=
  omap (λ e, match e with Ev c _ _ => match c with RemoveVolume n => Some n | _ => None end end) l.
Definition stopped_containers (l : list (event GuardCall GuardState)) : list string :=
  omap (λ e, match e with Ev c _ _ => match c with StopContainerByID n => Some n | _ => None end end) l.

(** The concrete device: the anonymous volume and the leaked one go, the installed
    app's and the unattributable one stay; only the app container is stopped. *)
Lemma guard_actions_justified_witness :
  let l := log (run_passes (λ _, false) ex_config 1 (ex_env ex_readings) (mk_state ex_state [])).2 in
  audited (justified (λ _, false) ex_config) l
  ∧ removed_volumes l = ["old"; ex_volume] ∧ stopped_containers l = ["app"].
Proof.
  intros l. split; [|split].
  - apply (guard_actions_justified (λ _, false) ex_config (ex_env ex_readings) 1 ex_state). done.
  - vm_compute. reflexivity.
  - vm_compute. reflexivity.
Defined.
