(* ===== verification/Records.v ===== *)
(** * Functional updates of the records

    One setter per field the agent's code assigns. *)
From S2P Require Import Prelude GoValue Common.

Definition with_RequestedState (v : AppState) (p : TransitionPayload) : TransitionPayload :=
  {| tp_RequestedState := v; tp_CurrentState := tp_CurrentState p; tp_Stage := tp_Stage p;
     tp_RequestorAccountKey := tp_RequestorAccountKey p; tp_DeviceOwnerAccountKey :=
     tp_DeviceOwnerAccountKey p; tp_DeviceToAppKey := tp_DeviceToAppKey p; tp_AppKey :=
     tp_AppKey p; tp_InstanceKey := tp_InstanceKey p; tp_AppCredEpoch := tp_AppCredEpoch p;
     tp_AppName := tp_AppName p; tp_ImageName := tp_ImageName p; tp_RegistryImageName :=
     tp_RegistryImageName p; tp_ContainerName := tp_ContainerName p; tp_DockerCredentials :=
     tp_DockerCredentials p; tp_EnvironmentVariables := tp_EnvironmentVariables p;
     tp_EnvironmentTemplate := tp_EnvironmentTemplate p; tp_DockerCompose :=
     tp_DockerCompose p; tp_NewDockerCompose := tp_NewDockerCompose p; tp_Ports := tp_Ports
     p; tp_PublishContainerName := tp_PublishContainerName p; tp_RegisteryToken :=
     tp_RegisteryToken p; tp_NewestVersion := tp_NewestVersion p; tp_PresentVersion :=
     tp_PresentVersion p; tp_ReleaseKey := tp_ReleaseKey p; tp_NewReleaseKey :=
     tp_NewReleaseKey p; tp_Version := tp_Version p; tp_RequestUpdate := tp_RequestUpdate p;
     tp_Retrying := tp_Retrying p; tp_CancelTransition := tp_CancelTransition p |}.

Definition with_CurrentState (v : AppState) (p : TransitionPayload) : TransitionPayload :=
  {| tp_RequestedState := tp_RequestedState p; tp_CurrentState := v; tp_Stage := tp_Stage p;
     tp_RequestorAccountKey := tp_RequestorAccountKey p; tp_DeviceOwnerAccountKey :=
     tp_DeviceOwnerAccountKey p; tp_DeviceToAppKey := tp_DeviceToAppKey p; tp_AppKey :=
     tp_AppKey p; tp_InstanceKey := tp_InstanceKey p; tp_AppCredEpoch := tp_AppCredEpoch p;
     tp_AppName := tp_AppName p; tp_ImageName := tp_ImageName p; tp_RegistryImageName :=
     tp_RegistryImageName p; tp_ContainerName := tp_ContainerName p; tp_DockerCredentials :=
     tp_DockerCredentials p; tp_EnvironmentVariables := tp_EnvironmentVariables p;
     tp_EnvironmentTemplate := tp_EnvironmentTemplate p; tp_DockerCompose :=
     tp_DockerCompose p; tp_NewDockerCompose := tp_NewDockerCompose p; tp_Ports := tp_Ports
     p; tp_PublishContainerName := tp_PublishContainerName p; tp_RegisteryToken :=
     tp_RegisteryToken p; tp_NewestVersion := tp_NewestVersion p; tp_PresentVersion :=
     tp_PresentVersion p; tp_ReleaseKey := tp_ReleaseKey p; tp_NewReleaseKey :=
     tp_NewReleaseKey p; tp_Version := tp_Version p; tp_RequestUpdate := tp_RequestUpdate p;
     tp_Retrying := tp_Retrying p; tp_CancelTransition := tp_CancelTransition p |}.

Definition with_DeviceOwnerAccountKey (v : N) (p : TransitionPayload) : TransitionPayload :=
  {| tp_RequestedState := tp_RequestedState p; tp_CurrentState := tp_CurrentState p;
     tp_Stage := tp_Stage p; tp_RequestorAccountKey := tp_RequestorAccountKey p;
     tp_DeviceOwnerAccountKey := v; tp_DeviceToAppKey := tp_DeviceToAppKey p; tp_AppKey :=
     tp_AppKey p; tp_InstanceKey := tp_InstanceKey p; tp_AppCredEpoch := tp_AppCredEpoch p;
     tp_AppName := tp_AppName p; tp_ImageName := tp_ImageName p; tp_RegistryImageName :=
     tp_RegistryImageName p; tp_ContainerName := tp_ContainerName p; tp_DockerCredentials :=
     tp_DockerCredentials p; tp_EnvironmentVariables := tp_EnvironmentVariables p;
     tp_EnvironmentTemplate := tp_EnvironmentTemplate p; tp_DockerCompose :=
     tp_DockerCompose p; tp_NewDockerCompose := tp_NewDockerCompose p; tp_Ports := tp_Ports
     p; tp_PublishContainerName := tp_PublishContainerName p; tp_RegisteryToken :=
     tp_RegisteryToken p; tp_NewestVersion := tp_NewestVersion p; tp_PresentVersion :=
     tp_PresentVersion p; tp_ReleaseKey := tp_ReleaseKey p; tp_NewReleaseKey :=
     tp_NewReleaseKey p; tp_Version := tp_Version p; tp_RequestUpdate := tp_RequestUpdate p;
     tp_Retrying := tp_Retrying p; tp_CancelTransition := tp_CancelTransition p |}.

Definition with_AppCredEpoch (v : N) (p : TransitionPayload) : TransitionPayload :=
  {| tp_RequestedState := tp_RequestedState p; tp_CurrentState := tp_CurrentState p;
     tp_Stage := tp_Stage p; tp_RequestorAccountKey := tp_RequestorAccountKey p;
     tp_DeviceOwnerAccountKey := tp_DeviceOwnerAccountKey p; tp_DeviceToAppKey :=
     tp_DeviceToAppKey p; tp_AppKey := tp_AppKey p; tp_InstanceKey := tp_InstanceKey p;
     tp_AppCredEpoch := v; tp_AppName := tp_AppName p; tp_ImageName := tp_ImageName p;
     tp_RegistryImageName := tp_RegistryImageName p; tp_ContainerName := tp_ContainerName p;
     tp_DockerCredentials := tp_DockerCredentials p; tp_EnvironmentVariables :=
     tp_EnvironmentVariables p; tp_EnvironmentTemplate := tp_EnvironmentTemplate p;
     tp_DockerCompose := tp_DockerCompose p; tp_NewDockerCompose := tp_NewDockerCompose p;
     tp_Ports := tp_Ports p; tp_PublishContainerName := tp_PublishContainerName p;
     tp_RegisteryToken := tp_RegisteryToken p; tp_NewestVersion := tp_NewestVersion p;
     tp_PresentVersion := tp_PresentVersion p; tp_ReleaseKey := tp_ReleaseKey p;
     tp_NewReleaseKey := tp_NewReleaseKey p; tp_Version := tp_Version p; tp_RequestUpdate :=
     tp_RequestUpdate p; tp_Retrying := tp_Retrying p; tp_CancelTransition :=
     tp_CancelTransition p |}.

Definition with_DockerCredentials (v : option (list (string * DockerCredential))) (p : TransitionPayload) : TransitionPayload :=
  {| tp_RequestedState := tp_RequestedState p; tp_CurrentState := tp_CurrentState p;
     tp_Stage := tp_Stage p; tp_RequestorAccountKey := tp_RequestorAccountKey p;
     tp_DeviceOwnerAccountKey := tp_DeviceOwnerAccountKey p; tp_DeviceToAppKey :=
     tp_DeviceToAppKey p; tp_AppKey := tp_AppKey p; tp_InstanceKey := tp_InstanceKey p;
     tp_AppCredEpoch := tp_AppCredEpoch p; tp_AppName := tp_AppName p; tp_ImageName :=
     tp_ImageName p; tp_RegistryImageName := tp_RegistryImageName p; tp_ContainerName :=
     tp_ContainerName p; tp_DockerCredentials := v; tp_EnvironmentVariables :=
     tp_EnvironmentVariables p; tp_EnvironmentTemplate := tp_EnvironmentTemplate p;
     tp_DockerCompose := tp_DockerCompose p; tp_NewDockerCompose := tp_NewDockerCompose p;
     tp_Ports := tp_Ports p; tp_PublishContainerName := tp_PublishContainerName p;
     tp_RegisteryToken := tp_RegisteryToken p; tp_NewestVersion := tp_NewestVersion p;
     tp_PresentVersion := tp_PresentVersion p; tp_ReleaseKey := tp_ReleaseKey p;
     tp_NewReleaseKey := tp_NewReleaseKey p; tp_Version := tp_Version p; tp_RequestUpdate :=
     tp_RequestUpdate p; tp_Retrying := tp_Retrying p; tp_CancelTransition :=
     tp_CancelTransition p |}.

Definition with_EnvironmentVariables (v : option gomap) (p : TransitionPayload) : TransitionPayload :=
  {| tp_RequestedState := tp_RequestedState p; tp_CurrentState := tp_CurrentState p;
     tp_Stage := tp_Stage p; tp_RequestorAccountKey := tp_RequestorAccountKey p;
     tp_DeviceOwnerAccountKey := tp_DeviceOwnerAccountKey p; tp_DeviceToAppKey :=
     tp_DeviceToAppKey p; tp_AppKey := tp_AppKey p; tp_InstanceKey := tp_InstanceKey p;
     tp_AppCredEpoch := tp_AppCredEpoch p; tp_AppName := tp_AppName p; tp_ImageName :=
     tp_ImageName p; tp_RegistryImageName := tp_RegistryImageName p; tp_ContainerName :=
     tp_ContainerName p; tp_DockerCredentials := tp_DockerCredentials p;
     tp_EnvironmentVariables := v; tp_EnvironmentTemplate := tp_EnvironmentTemplate p;
     tp_DockerCompose := tp_DockerCompose p; tp_NewDockerCompose := tp_NewDockerCompose p;
     tp_Ports := tp_Ports p; tp_PublishContainerName := tp_PublishContainerName p;
     tp_RegisteryToken := tp_RegisteryToken p; tp_NewestVersion := tp_NewestVersion p;
     tp_PresentVersion := tp_PresentVersion p; tp_ReleaseKey := tp_ReleaseKey p;
     tp_NewReleaseKey := tp_NewReleaseKey p; tp_Version := tp_Version p; tp_RequestUpdate :=
     tp_RequestUpdate p; tp_Retrying := tp_Retrying p; tp_CancelTransition :=
     tp_CancelTransition p |}.

Definition with_EnvironmentTemplate (v : option gomap) (p : TransitionPayload) : TransitionPayload :=
  {| tp_RequestedState := tp_RequestedState p; tp_CurrentState := tp_CurrentState p;
     tp_Stage := tp_Stage p; tp_RequestorAccountKey := tp_RequestorAccountKey p;
     tp_DeviceOwnerAccountKey := tp_DeviceOwnerAccountKey p; tp_DeviceToAppKey :=
     tp_DeviceToAppKey p; tp_AppKey := tp_AppKey p; tp_InstanceKey := tp_InstanceKey p;
     tp_AppCredEpoch := tp_AppCredEpoch p; tp_AppName := tp_AppName p; tp_ImageName :=
     tp_ImageName p; tp_RegistryImageName := tp_RegistryImageName p; tp_ContainerName :=
     tp_ContainerName p; tp_DockerCredentials := tp_DockerCredentials p;
     tp_EnvironmentVariables := tp_EnvironmentVariables p; tp_EnvironmentTemplate := v;
     tp_DockerCompose := tp_DockerCompose p; tp_NewDockerCompose := tp_NewDockerCompose p;
     tp_Ports := tp_Ports p; tp_PublishContainerName := tp_PublishContainerName p;
     tp_RegisteryToken := tp_RegisteryToken p; tp_NewestVersion := tp_NewestVersion p;
     tp_PresentVersion := tp_PresentVersion p; tp_ReleaseKey := tp_ReleaseKey p;
     tp_NewReleaseKey := tp_NewReleaseKey p; tp_Version := tp_Version p; tp_RequestUpdate :=
     tp_RequestUpdate p; tp_Retrying := tp_Retrying p; tp_CancelTransition :=
     tp_CancelTransition p |}.

Definition with_DockerCompose (v : option gomap) (p : TransitionPayload) : TransitionPayload :=
  {| tp_RequestedState := tp_RequestedState p; tp_CurrentState := tp_CurrentState p;
     tp_Stage := tp_Stage p; tp_RequestorAccountKey := tp_RequestorAccountKey p;
     tp_DeviceOwnerAccountKey := tp_DeviceOwnerAccountKey p; tp_DeviceToAppKey :=
     tp_DeviceToAppKey p; tp_AppKey := tp_AppKey p; tp_InstanceKey := tp_InstanceKey p;
     tp_AppCredEpoch := tp_AppCredEpoch p; tp_AppName := tp_AppName p; tp_ImageName :=
     tp_ImageName p; tp_RegistryImageName := tp_RegistryImageName p; tp_ContainerName :=
     tp_ContainerName p; tp_DockerCredentials := tp_DockerCredentials p;
     tp_EnvironmentVariables := tp_EnvironmentVariables p; tp_EnvironmentTemplate :=
     tp_EnvironmentTemplate p; tp_DockerCompose := v; tp_NewDockerCompose :=
     tp_NewDockerCompose p; tp_Ports := tp_Ports p; tp_PublishContainerName :=
     tp_PublishContainerName p; tp_RegisteryToken := tp_RegisteryToken p; tp_NewestVersion
     := tp_NewestVersion p; tp_PresentVersion := tp_PresentVersion p; tp_ReleaseKey :=
     tp_ReleaseKey p; tp_NewReleaseKey := tp_NewReleaseKey p; tp_Version := tp_Version p;
     tp_RequestUpdate := tp_RequestUpdate p; tp_Retrying := tp_Retrying p;
     tp_CancelTransition := tp_CancelTransition p |}.

Definition with_NewDockerCompose (v : option gomap) (p : TransitionPayload) : TransitionPayload :=
  {| tp_RequestedState := tp_RequestedState p; tp_CurrentState := tp_CurrentState p;
     tp_Stage := tp_Stage p; tp_RequestorAccountKey := tp_RequestorAccountKey p;
     tp_DeviceOwnerAccountKey := tp_DeviceOwnerAccountKey p; tp_DeviceToAppKey :=
     tp_DeviceToAppKey p; tp_AppKey := tp_AppKey p; tp_InstanceKey := tp_InstanceKey p;
     tp_AppCredEpoch := tp_AppCredEpoch p; tp_AppName := tp_AppName p; tp_ImageName :=
     tp_ImageName p; tp_RegistryImageName := tp_RegistryImageName p; tp_ContainerName :=
     tp_ContainerName p; tp_DockerCredentials := tp_DockerCredentials p;
     tp_EnvironmentVariables := tp_EnvironmentVariables p; tp_EnvironmentTemplate :=
     tp_EnvironmentTemplate p; tp_DockerCompose := tp_DockerCompose p; tp_NewDockerCompose
     := v; tp_Ports := tp_Ports p; tp_PublishContainerName := tp_PublishContainerName p;
     tp_RegisteryToken := tp_RegisteryToken p; tp_NewestVersion := tp_NewestVersion p;
     tp_PresentVersion := tp_PresentVersion p; tp_ReleaseKey := tp_ReleaseKey p;
     tp_NewReleaseKey := tp_NewReleaseKey p; tp_Version := tp_Version p; tp_RequestUpdate :=
     tp_RequestUpdate p; tp_Retrying := tp_Retrying p; tp_CancelTransition :=
     tp_CancelTransition p |}.

Definition with_Ports (v : list goval) (p : TransitionPayload) : TransitionPayload :=
  {| tp_RequestedState := tp_RequestedState p; tp_CurrentState := tp_CurrentState p;
     tp_Stage := tp_Stage p; tp_RequestorAccountKey := tp_RequestorAccountKey p;
     tp_DeviceOwnerAccountKey := tp_DeviceOwnerAccountKey p; tp_DeviceToAppKey :=
     tp_DeviceToAppKey p; tp_AppKey := tp_AppKey p; tp_InstanceKey := tp_InstanceKey p;
     tp_AppCredEpoch := tp_AppCredEpoch p; tp_AppName := tp_AppName p; tp_ImageName :=
     tp_ImageName p; tp_RegistryImageName := tp_RegistryImageName p; tp_ContainerName :=
     tp_ContainerName p; tp_DockerCredentials := tp_DockerCredentials p;
     tp_EnvironmentVariables := tp_EnvironmentVariables p; tp_EnvironmentTemplate :=
     tp_EnvironmentTemplate p; tp_DockerCompose := tp_DockerCompose p; tp_NewDockerCompose
     := tp_NewDockerCompose p; tp_Ports := v; tp_PublishContainerName :=
     tp_PublishContainerName p; tp_RegisteryToken := tp_RegisteryToken p; tp_NewestVersion
     := tp_NewestVersion p; tp_PresentVersion := tp_PresentVersion p; tp_ReleaseKey :=
     tp_ReleaseKey p; tp_NewReleaseKey := tp_NewReleaseKey p; tp_Version := tp_Version p;
     tp_RequestUpdate := tp_RequestUpdate p; tp_Retrying := tp_Retrying p;
     tp_CancelTransition := tp_CancelTransition p |}.

Definition with_RegisteryToken (v : string) (p : TransitionPayload) : TransitionPayload :=
  {| tp_RequestedState := tp_RequestedState p; tp_CurrentState := tp_CurrentState p;
     tp_Stage := tp_Stage p; tp_RequestorAccountKey := tp_RequestorAccountKey p;
     tp_DeviceOwnerAccountKey := tp_DeviceOwnerAccountKey p; tp_DeviceToAppKey :=
     tp_DeviceToAppKey p; tp_AppKey := tp_AppKey p; tp_InstanceKey := tp_InstanceKey p;
     tp_AppCredEpoch := tp_AppCredEpoch p; tp_AppName := tp_AppName p; tp_ImageName :=
     tp_ImageName p; tp_RegistryImageName := tp_RegistryImageName p; tp_ContainerName :=
     tp_ContainerName p; tp_DockerCredentials := tp_DockerCredentials p;
     tp_EnvironmentVariables := tp_EnvironmentVariables p; tp_EnvironmentTemplate :=
     tp_EnvironmentTemplate p; tp_DockerCompose := tp_DockerCompose p; tp_NewDockerCompose
     := tp_NewDockerCompose p; tp_Ports := tp_Ports p; tp_PublishContainerName :=
     tp_PublishContainerName p; tp_RegisteryToken := v; tp_NewestVersion := tp_NewestVersion
     p; tp_PresentVersion := tp_PresentVersion p; tp_ReleaseKey := tp_ReleaseKey p;
     tp_NewReleaseKey := tp_NewReleaseKey p; tp_Version := tp_Version p; tp_RequestUpdate :=
     tp_RequestUpdate p; tp_Retrying := tp_Retrying p; tp_CancelTransition :=
     tp_CancelTransition p |}.

Definition with_NewestVersion (v : string) (p : TransitionPayload) : TransitionPayload :=
  {| tp_RequestedState := tp_RequestedState p; tp_CurrentState := tp_CurrentState p;
     tp_Stage := tp_Stage p; tp_RequestorAccountKey := tp_RequestorAccountKey p;
     tp_DeviceOwnerAccountKey := tp_DeviceOwnerAccountKey p; tp_DeviceToAppKey :=
     tp_DeviceToAppKey p; tp_AppKey := tp_AppKey p; tp_InstanceKey := tp_InstanceKey p;
     tp_AppCredEpoch := tp_AppCredEpoch p; tp_AppName := tp_AppName p; tp_ImageName :=
     tp_ImageName p; tp_RegistryImageName := tp_RegistryImageName p; tp_ContainerName :=
     tp_ContainerName p; tp_DockerCredentials := tp_DockerCredentials p;
     tp_EnvironmentVariables := tp_EnvironmentVariables p; tp_EnvironmentTemplate :=
     tp_EnvironmentTemplate p; tp_DockerCompose := tp_DockerCompose p; tp_NewDockerCompose
     := tp_NewDockerCompose p; tp_Ports := tp_Ports p; tp_PublishContainerName :=
     tp_PublishContainerName p; tp_RegisteryToken := tp_RegisteryToken p; tp_NewestVersion
     := v; tp_PresentVersion := tp_PresentVersion p; tp_ReleaseKey := tp_ReleaseKey p;
     tp_NewReleaseKey := tp_NewReleaseKey p; tp_Version := tp_Version p; tp_RequestUpdate :=
     tp_RequestUpdate p; tp_Retrying := tp_Retrying p; tp_CancelTransition :=
     tp_CancelTransition p |}.

Definition with_PresentVersion (v : string) (p : TransitionPayload) : TransitionPayload :=
  {| tp_RequestedState := tp_RequestedState p; tp_CurrentState := tp_CurrentState p;
     tp_Stage := tp_Stage p; tp_RequestorAccountKey := tp_RequestorAccountKey p;
     tp_DeviceOwnerAccountKey := tp_DeviceOwnerAccountKey p; tp_DeviceToAppKey :=
     tp_DeviceToAppKey p; tp_AppKey := tp_AppKey p; tp_InstanceKey := tp_InstanceKey p;
     tp_AppCredEpoch := tp_AppCredEpoch p; tp_AppName := tp_AppName p; tp_ImageName :=
     tp_ImageName p; tp_RegistryImageName := tp_RegistryImageName p; tp_ContainerName :=
     tp_ContainerName p; tp_DockerCredentials := tp_DockerCredentials p;
     tp_EnvironmentVariables := tp_EnvironmentVariables p; tp_EnvironmentTemplate :=
     tp_EnvironmentTemplate p; tp_DockerCompose := tp_DockerCompose p; tp_NewDockerCompose
     := tp_NewDockerCompose p; tp_Ports := tp_Ports p; tp_PublishContainerName :=
     tp_PublishContainerName p; tp_RegisteryToken := tp_RegisteryToken p; tp_NewestVersion
     := tp_NewestVersion p; tp_PresentVersion := v; tp_ReleaseKey := tp_ReleaseKey p;
     tp_NewReleaseKey := tp_NewReleaseKey p; tp_Version := tp_Version p; tp_RequestUpdate :=
     tp_RequestUpdate p; tp_Retrying := tp_Retrying p; tp_CancelTransition :=
     tp_CancelTransition p |}.

Definition with_ReleaseKey (v : N) (p : TransitionPayload) : TransitionPayload :=
  {| tp_RequestedState := tp_RequestedState p; tp_CurrentState := tp_CurrentState p;
     tp_Stage := tp_Stage p; tp_RequestorAccountKey := tp_RequestorAccountKey p;
     tp_DeviceOwnerAccountKey := tp_DeviceOwnerAccountKey p; tp_DeviceToAppKey :=
     tp_DeviceToAppKey p; tp_AppKey := tp_AppKey p; tp_InstanceKey := tp_InstanceKey p;
     tp_AppCredEpoch := tp_AppCredEpoch p; tp_AppName := tp_AppName p; tp_ImageName :=
     tp_ImageName p; tp_RegistryImageName := tp_RegistryImageName p; tp_ContainerName :=
     tp_ContainerName p; tp_DockerCredentials := tp_DockerCredentials p;
     tp_EnvironmentVariables := tp_EnvironmentVariables p; tp_EnvironmentTemplate :=
     tp_EnvironmentTemplate p; tp_DockerCompose := tp_DockerCompose p; tp_NewDockerCompose
     := tp_NewDockerCompose p; tp_Ports := tp_Ports p; tp_PublishContainerName :=
     tp_PublishContainerName p; tp_RegisteryToken := tp_RegisteryToken p; tp_NewestVersion
     := tp_NewestVersion p; tp_PresentVersion := tp_PresentVersion p; tp_ReleaseKey := v;
     tp_NewReleaseKey := tp_NewReleaseKey p; tp_Version := tp_Version p; tp_RequestUpdate :=
     tp_RequestUpdate p; tp_Retrying := tp_Retrying p; tp_CancelTransition :=
     tp_CancelTransition p |}.

Definition with_Version (v : string) (p : TransitionPayload) : TransitionPayload :=
  {| tp_RequestedState := tp_RequestedState p; tp_CurrentState := tp_CurrentState p;
     tp_Stage := tp_Stage p; tp_RequestorAccountKey := tp_RequestorAccountKey p;
     tp_DeviceOwnerAccountKey := tp_DeviceOwnerAccountKey p; tp_DeviceToAppKey :=
     tp_DeviceToAppKey p; tp_AppKey := tp_AppKey p; tp_InstanceKey := tp_InstanceKey p;
     tp_AppCredEpoch := tp_AppCredEpoch p; tp_AppName := tp_AppName p; tp_ImageName :=
     tp_ImageName p; tp_RegistryImageName := tp_RegistryImageName p; tp_ContainerName :=
     tp_ContainerName p; tp_DockerCredentials := tp_DockerCredentials p;
     tp_EnvironmentVariables := tp_EnvironmentVariables p; tp_EnvironmentTemplate :=
     tp_EnvironmentTemplate p; tp_DockerCompose := tp_DockerCompose p; tp_NewDockerCompose
     := tp_NewDockerCompose p; tp_Ports := tp_Ports p; tp_PublishContainerName :=
     tp_PublishContainerName p; tp_RegisteryToken := tp_RegisteryToken p; tp_NewestVersion
     := tp_NewestVersion p; tp_PresentVersion := tp_PresentVersion p; tp_ReleaseKey :=
     tp_ReleaseKey p; tp_NewReleaseKey := tp_NewReleaseKey p; tp_Version := v;
     tp_RequestUpdate := tp_RequestUpdate p; tp_Retrying := tp_Retrying p;
     tp_CancelTransition := tp_CancelTransition p |}.

Definition with_RequestUpdate (v : bool) (p : TransitionPayload) : TransitionPayload :=
  {| tp_RequestedState := tp_RequestedState p; tp_CurrentState := tp_CurrentState p;
     tp_Stage := tp_Stage p; tp_RequestorAccountKey := tp_RequestorAccountKey p;
     tp_DeviceOwnerAccountKey := tp_DeviceOwnerAccountKey p; tp_DeviceToAppKey :=
     tp_DeviceToAppKey p; tp_AppKey := tp_AppKey p; tp_InstanceKey := tp_InstanceKey p;
     tp_AppCredEpoch := tp_AppCredEpoch p; tp_AppName := tp_AppName p; tp_ImageName :=
     tp_ImageName p; tp_RegistryImageName := tp_RegistryImageName p; tp_ContainerName :=
     tp_ContainerName p; tp_DockerCredentials := tp_DockerCredentials p;
     tp_EnvironmentVariables := tp_EnvironmentVariables p; tp_EnvironmentTemplate :=
     tp_EnvironmentTemplate p; tp_DockerCompose := tp_DockerCompose p; tp_NewDockerCompose
     := tp_NewDockerCompose p; tp_Ports := tp_Ports p; tp_PublishContainerName :=
     tp_PublishContainerName p; tp_RegisteryToken := tp_RegisteryToken p; tp_NewestVersion
     := tp_NewestVersion p; tp_PresentVersion := tp_PresentVersion p; tp_ReleaseKey :=
     tp_ReleaseKey p; tp_NewReleaseKey := tp_NewReleaseKey p; tp_Version := tp_Version p;
     tp_RequestUpdate := v; tp_Retrying := tp_Retrying p; tp_CancelTransition :=
     tp_CancelTransition p |}.

Definition with_CancelTransition (v : bool) (p : TransitionPayload) : TransitionPayload :=
  {| tp_RequestedState := tp_RequestedState p; tp_CurrentState := tp_CurrentState p;
     tp_Stage := tp_Stage p; tp_RequestorAccountKey := tp_RequestorAccountKey p;
     tp_DeviceOwnerAccountKey := tp_DeviceOwnerAccountKey p; tp_DeviceToAppKey :=
     tp_DeviceToAppKey p; tp_AppKey := tp_AppKey p; tp_InstanceKey := tp_InstanceKey p;
     tp_AppCredEpoch := tp_AppCredEpoch p; tp_AppName := tp_AppName p; tp_ImageName :=
     tp_ImageName p; tp_RegistryImageName := tp_RegistryImageName p; tp_ContainerName :=
     tp_ContainerName p; tp_DockerCredentials := tp_DockerCredentials p;
     tp_EnvironmentVariables := tp_EnvironmentVariables p; tp_EnvironmentTemplate :=
     tp_EnvironmentTemplate p; tp_DockerCompose := tp_DockerCompose p; tp_NewDockerCompose
     := tp_NewDockerCompose p; tp_Ports := tp_Ports p; tp_PublishContainerName :=
     tp_PublishContainerName p; tp_RegisteryToken := tp_RegisteryToken p; tp_NewestVersion
     := tp_NewestVersion p; tp_PresentVersion := tp_PresentVersion p; tp_ReleaseKey :=
     tp_ReleaseKey p; tp_NewReleaseKey := tp_NewReleaseKey p; tp_Version := tp_Version p;
     tp_RequestUpdate := tp_RequestUpdate p; tp_Retrying := tp_Retrying p; tp_CancelTransition := v |}.

Definition with_Retrying (v : bool) (p : TransitionPayload) : TransitionPayload :=
  {| tp_RequestedState := tp_RequestedState p; tp_CurrentState := tp_CurrentState p;
     tp_Stage := tp_Stage p; tp_RequestorAccountKey := tp_RequestorAccountKey p;
     tp_DeviceOwnerAccountKey := tp_DeviceOwnerAccountKey p; tp_DeviceToAppKey :=
     tp_DeviceToAppKey p; tp_AppKey := tp_AppKey p; tp_InstanceKey := tp_InstanceKey p;
     tp_AppCredEpoch := tp_AppCredEpoch p; tp_AppName := tp_AppName p; tp_ImageName :=
     tp_ImageName p; tp_RegistryImageName := tp_RegistryImageName p; tp_ContainerName :=
     tp_ContainerName p; tp_DockerCredentials := tp_DockerCredentials p;
     tp_EnvironmentVariables := tp_EnvironmentVariables p; tp_EnvironmentTemplate :=
     tp_EnvironmentTemplate p; tp_DockerCompose := tp_DockerCompose p; tp_NewDockerCompose
     := tp_NewDockerCompose p; tp_Ports := tp_Ports p; tp_PublishContainerName :=
     tp_PublishContainerName p; tp_RegisteryToken := tp_RegisteryToken p; tp_NewestVersion
     := tp_NewestVersion p; tp_PresentVersion := tp_PresentVersion p; tp_ReleaseKey :=
     tp_ReleaseKey p; tp_NewReleaseKey := tp_NewReleaseKey p; tp_Version := tp_Version p;
     tp_RequestUpdate := tp_RequestUpdate p; tp_Retrying := v; tp_CancelTransition :=
     tp_CancelTransition p |}.

(** ** The in-memory app (common/types.go)

    [app_locked] is the weight held of [TransitionLock], [app_state_lock] whether
    some return path has left [StateLock] locked for good. *)

Record App := mk_App {
  app_AppKey : N;
  app_DeviceToAppKey : N;
  app_RequestorAccountKey : N;
  app_ReleaseKey : N;
  app_AppName : string;
  app_RequestedState : AppState;
  app_CurrentState : AppState;
  app_UpdateStatus : UpdateStatus;
  app_Stage : Stage;
  app_RequestUpdate : bool;
  app_ReleaseBuild : bool;
  app_Version : string;
  app_LastUpdated : string;
  app_locked : bool;
  app_state_lock : bool;
}.

Definition app_set_ReleaseKey (v : N) (a : App) : App :=
  {| app_AppKey := app_AppKey a; app_DeviceToAppKey := app_DeviceToAppKey a;
     app_RequestorAccountKey := app_RequestorAccountKey a; app_ReleaseKey := v; app_AppName
     := app_AppName a; app_RequestedState := app_RequestedState a; app_CurrentState :=
     app_CurrentState a; app_UpdateStatus := app_UpdateStatus a; app_Stage := app_Stage a;
     app_RequestUpdate := app_RequestUpdate a; app_ReleaseBuild := app_ReleaseBuild a;
     app_Version := app_Version a; app_LastUpdated := app_LastUpdated a; app_locked :=
     app_locked a; app_state_lock := app_state_lock a |}.

Definition app_set_RequestorAccountKey (v : N) (a : App) : App :=
  {| app_AppKey := app_AppKey a; app_DeviceToAppKey := app_DeviceToAppKey a;
     app_RequestorAccountKey := v; app_ReleaseKey := app_ReleaseKey a; app_AppName :=
     app_AppName a; app_RequestedState := app_RequestedState a; app_CurrentState :=
     app_CurrentState a; app_UpdateStatus := app_UpdateStatus a; app_Stage := app_Stage a;
     app_RequestUpdate := app_RequestUpdate a; app_ReleaseBuild := app_ReleaseBuild a;
     app_Version := app_Version a; app_LastUpdated := app_LastUpdated a; app_locked :=
     app_locked a; app_state_lock := app_state_lock a |}.

Definition app_set_RequestedState (v : AppState) (a : App) : App :=
  {| app_AppKey := app_AppKey a; app_DeviceToAppKey := app_DeviceToAppKey a;
     app_RequestorAccountKey := app_RequestorAccountKey a; app_ReleaseKey := app_ReleaseKey
     a; app_AppName := app_AppName a; app_RequestedState := v; app_CurrentState :=
     app_CurrentState a; app_UpdateStatus := app_UpdateStatus a; app_Stage := app_Stage a;
     app_RequestUpdate := app_RequestUpdate a; app_ReleaseBuild := app_ReleaseBuild a;
     app_Version := app_Version a; app_LastUpdated := app_LastUpdated a; app_locked :=
     app_locked a; app_state_lock := app_state_lock a |}.

Definition app_set_CurrentState (v : AppState) (a : App) : App :=
  {| app_AppKey := app_AppKey a; app_DeviceToAppKey := app_DeviceToAppKey a;
     app_RequestorAccountKey := app_RequestorAccountKey a; app_ReleaseKey := app_ReleaseKey
     a; app_AppName := app_AppName a; app_RequestedState := app_RequestedState a;
     app_CurrentState := v; app_UpdateStatus := app_UpdateStatus a; app_Stage := app_Stage
     a; app_RequestUpdate := app_RequestUpdate a; app_ReleaseBuild := app_ReleaseBuild a;
     app_Version := app_Version a; app_LastUpdated := app_LastUpdated a; app_locked :=
     app_locked a; app_state_lock := app_state_lock a |}.

Definition app_set_UpdateStatus (v : UpdateStatus) (a : App) : App :=
  {| app_AppKey := app_AppKey a; app_DeviceToAppKey := app_DeviceToAppKey a;
     app_RequestorAccountKey := app_RequestorAccountKey a; app_ReleaseKey := app_ReleaseKey
     a; app_AppName := app_AppName a; app_RequestedState := app_RequestedState a;
     app_CurrentState := app_CurrentState a; app_UpdateStatus := v; app_Stage := app_Stage
     a; app_RequestUpdate := app_RequestUpdate a; app_ReleaseBuild := app_ReleaseBuild a;
     app_Version := app_Version a; app_LastUpdated := app_LastUpdated a; app_locked :=
     app_locked a; app_state_lock := app_state_lock a |}.

Definition app_set_ReleaseBuild (v : bool) (a : App) : App :=
  {| app_AppKey := app_AppKey a; app_DeviceToAppKey := app_DeviceToAppKey a;
     app_RequestorAccountKey := app_RequestorAccountKey a; app_ReleaseKey := app_ReleaseKey
     a; app_AppName := app_AppName a; app_RequestedState := app_RequestedState a;
     app_CurrentState := app_CurrentState a; app_UpdateStatus := app_UpdateStatus a;
     app_Stage := app_Stage a; app_RequestUpdate := app_RequestUpdate a; app_ReleaseBuild :=
     v; app_Version := app_Version a; app_LastUpdated := app_LastUpdated a; app_locked :=
     app_locked a; app_state_lock := app_state_lock a |}.

Definition app_set_Version (v : string) (a : App) : App :=
  {| app_AppKey := app_AppKey a; app_DeviceToAppKey := app_DeviceToAppKey a;
     app_RequestorAccountKey := app_RequestorAccountKey a; app_ReleaseKey := app_ReleaseKey
     a; app_AppName := app_AppName a; app_RequestedState := app_RequestedState a;
     app_CurrentState := app_CurrentState a; app_UpdateStatus := app_UpdateStatus a;
     app_Stage := app_Stage a; app_RequestUpdate := app_RequestUpdate a; app_ReleaseBuild :=
     app_ReleaseBuild a; app_Version := v; app_LastUpdated := app_LastUpdated a; app_locked
     := app_locked a; app_state_lock := app_state_lock a |}.

Definition app_set_LastUpdated (v : string) (a : App) : App :=
  {| app_AppKey := app_AppKey a; app_DeviceToAppKey := app_DeviceToAppKey a;
     app_RequestorAccountKey := app_RequestorAccountKey a; app_ReleaseKey := app_ReleaseKey
     a; app_AppName := app_AppName a; app_RequestedState := app_RequestedState a;
     app_CurrentState := app_CurrentState a; app_UpdateStatus := app_UpdateStatus a;
     app_Stage := app_Stage a; app_RequestUpdate := app_RequestUpdate a; app_ReleaseBuild :=
     app_ReleaseBuild a; app_Version := app_Version a; app_LastUpdated := v; app_locked :=
     app_locked a; app_state_lock := app_state_lock a |}.

Definition app_set_locked (v : bool) (a : App) : App :=
  {| app_AppKey := app_AppKey a; app_DeviceToAppKey := app_DeviceToAppKey a;
     app_RequestorAccountKey := app_RequestorAccountKey a; app_ReleaseKey := app_ReleaseKey
     a; app_AppName := app_AppName a; app_RequestedState := app_RequestedState a;
     app_CurrentState := app_CurrentState a; app_UpdateStatus := app_UpdateStatus a;
     app_Stage := app_Stage a; app_RequestUpdate := app_RequestUpdate a; app_ReleaseBuild :=
     app_ReleaseBuild a; app_Version := app_Version a; app_LastUpdated := app_LastUpdated a;
     app_locked := v; app_state_lock := app_state_lock a |}.

Definition app_set_state_lock (v : bool) (a : App) : App :=
  {| app_AppKey := app_AppKey a; app_DeviceToAppKey := app_DeviceToAppKey a;
     app_RequestorAccountKey := app_RequestorAccountKey a; app_ReleaseKey := app_ReleaseKey
     a; app_AppName := app_AppName a; app_RequestedState := app_RequestedState a;
     app_CurrentState := app_CurrentState a; app_UpdateStatus := app_UpdateStatus a;
     app_Stage := app_Stage a; app_RequestUpdate := app_RequestUpdate a; app_ReleaseBuild :=
     app_ReleaseBuild a; app_Version := app_Version a; app_LastUpdated := app_LastUpdated a;
     app_locked := app_locked a; app_state_lock := v |}.
