(* ===== verification/World.v ===== *)
(** * The agent's state and its external calls

    The state shared by the app manager, the state machine and the observers: the
    app objects (by location, since they are shared pointers), the local database,
    the registered cancel functions, the host ports, the crash loops, the running
    observers, the disk-emergency flag and the per-device credential key.  Every call
    that leaves the agent core is a constructor of [AgentCall]. *)
From S2P Require Import Prelude Errdefs GoValue Common Records Effects HostPorts.
Open Scope go_scope.

(** ** Data exchanged with the outside *)

(** A row of [AppStates] and of [AppStateHistory]. *)
Record app_row := {
  ar_app_name : string;
  ar_app_key : N;
  ar_version : string;
  ar_release_key : N;
  ar_stage : Stage;
  ar_state : AppState;
  ar_timestamp : string;
}.

(** A row of [RequestedAppStates]; the JSON columns hold the decoded values, [None]
    for the text ["null"]. *)
Record requested_row := {
  rr_app_name : string;
  rr_app_key : N;
  rr_stage : Stage;
  rr_version : string;
  rr_present_version : string;
  rr_newest_version : string;
  rr_current_state : AppState;
  rr_requested_state : AppState;
  rr_requestor_account_key : N;
  rr_device_owner_account_key : N;
  rr_release_key : N;
  rr_new_release_key : N;
  rr_request_update : bool;
  rr_environment_variables : option gomap;
  rr_environment_template : option gomap;
  rr_ports : list goval;
  rr_docker_compose : option gomap;
  rr_new_docker_compose : option gomap;
}.

Record CrashLoop := { cl_Payload : TransitionPayload; cl_Retries : N }.

(** A container as the Docker list calls report it. *)
Record Cont := {
  ct_ID : string;
  ct_Names : list string;
  ct_Labels : list (string * string);
  ct_State : string;
  ct_ExitCode : Z;
  ct_NetworkMode : string;
}.

Record ContainerState := {
  st_Status : string;
  st_ExitCode : Z;
}.

Record Image := { im_ID : string; im_RepoTags : list string }.

Record ComposeListEntry := { cle_Name : string }.

Record TunnelConfig := {
  tc_Subdomain : string;
  tc_AppName : string;
  tc_Protocol : string;
  tc_LocalPort : N;
  tc_LocalIP : string;
  tc_RemotePort : N;
  tc_DeclaredPort : N;
  tc_Name : string;
}.

Record AuthConfig := { au_Username : string; au_Password : string }.

Record Mount := { mt_Source : string; mt_Target : string }.

Record ContainerConfig := {
  cc_Image : string;
  cc_Env : list string;
  cc_ExposedPorts : list string;
}.

(** Port bindings map a container port to the host port it is published on. *)
Record HostConfig := {
  hc_Mounts : list Mount;
  hc_NetworkMode : string;
  hc_PortBindings : list (string * string);
  hc_ExtraHosts : list string;
  hc_Runtime : string;
}.

Inductive file_content := FText (s : string) | FJson (v : goval).

(** What a [select] over the channels of [WaitForRunning] yields: the running
    signal, an error, or the [nil] of an error channel closed after success. *)
Inductive wait_answer := WaitRunning | WaitErr (e : error) | WaitErrClosed.

Inductive db_step := DbPrepare | DbQuery | DbScan | DbClose | DbExec | DbBegin | DbCommit.

Record actual_state := {
  as_app_key : N;
  as_stage : Stage;
  as_state : AppState;
  as_release_key : N;
  as_request_update : bool;
  as_release_build : bool;
  as_update_status : UpdateStatus;
}.

(** An observer: what its goroutine is given.  The context identifies it. *)
Record observer := {
  ob_compose : bool;
  ob_ctx : nat;
  ob_stage : Stage;
  ob_appKey : N;
  ob_appName : string;
}.

(** ** The external calls *)

Inductive AgentCall : Type → Type :=
  (* database driver: a step may fail; the rows themselves are in the state *)
  | Db (step : db_step) : AgentCall (unit + error)
  | Timestamp : AgentCall string
  (* messenger *)
  | SetActualAppOnDeviceState (payload : actual_state) : AgentCall (unit + error)
  | GetRegistryToken (callerID : N) : AgentCall (option (list goval) + error)
  | PublishTunnelState : AgentCall (unit + error)
  (* log manager *)
  | LogClearHistory (topic : string) : AgentCall (unit + error)
  | LogClearRemote (topic : string) : AgentCall (unit + error)
  | LogWrite (topic message : string) : AgentCall (unit + error)
  | LogStream (topic : string) : AgentCall (unit + error)
  | LogStreamChannel (topic : string) : AgentCall (unit + error)
  | LogStreamBlocking (topic : string) (type : LogType) : AgentCall (unit + error)
  (* containers *)
  | CtrGet (name : string) : AgentCall (Cont + error)
  | CtrList : AgentCall (list Cont + error)
  | CtrListProject (project : string) : AgentCall (list Cont + error)
  | CtrState (id : string) : AgentCall (ContainerState + error)
  | CtrRemove (id : string) : AgentCall (unit + error)
  | CtrStop (id : string) : AgentCall (unit + error)
  | CtrWaitNotRunning (id : string) : AgentCall (unit + error)
  | CtrWaitRemoved (id : string) : AgentCall (unit + error)
  | CtrCreate (name : string) (c : ContainerConfig) (h : HostConfig) : AgentCall (string + error)
  | CtrStart (id : string) : AgentCall (unit + error)
  | CtrWaitForRunning (id : string) : AgentCall wait_answer
  | CtrLogs (id : string) : AgentCall (unit + error)
  | CtrPortBindings (name : string) : AgentCall (list (string * N) + error)
  | CtrNetworkMode (name : string) : AgentCall (string + error)
  | CtrComposePublishedPorts (project : string) : AgentCall (list (string * N) + error)
  | RegistryLogins (credentials : list (string * DockerCredential)) : AgentCall (unit + error)
  | CancelStream (id : string) : AgentCall unit
  (* images *)
  | ImgGet (name tag : string) : AgentCall (unit + error)
  | ImgList (name : string) : AgentCall (list Image + error)
  | ImgRemove (name : string) : AgentCall (unit + error)
  | ImgRemoveByName (name tag : string) : AgentCall (unit + error)
  | ImgRemoveAllByName (name : string) : AgentCall (unit + error)
  | ImgPull (name : string) (auth : AuthConfig) (pullID : string) : AgentCall (unit + error)
  | ImgPush (name : string) (auth : AuthConfig) (pushID : string) : AgentCall (unit + error)
  | ImgTag (source target : string) : AgentCall (unit + error)
  | ImgBuild (tar tag dockerfile buildID : string) : AgentCall (unit + error)
  (* docker compose CLI: starting a command and waiting for it *)
  | ComposeUp (path : string) (no_build : bool) : AgentCall (unit + error)
  | ComposePull (ctx : nat) (path : string) (services : list string) : AgentCall (unit + error)
  | ComposePullIgnoreBuildable (path : string) : AgentCall (unit + error)
  | ComposeBuild (path : string) : AgentCall (unit + error)
  | ComposePush (path : string) : AgentCall (unit + error)
  | ComposeWait : AgentCall (unit + error)
  | ComposeStop (path : string) : AgentCall (unit + error)
  | ComposeRemove (path : string) : AgentCall (unit + error)
  | ComposeDown (path : string) : AgentCall (unit + error)
  | ComposeDownRemoveOrphans (ctx : nat) (path : string) : AgentCall (unit + error)
  | ComposeListImages (dc : gomap) : AgentCall (list string + error)
  | ComposeWaitForRunning (path : string) : AgentCall wait_answer
  | ComposeLogStream (path : string) : AgentCall (unit + error)
  | ComposeList : AgentCall (list ComposeListEntry + error)
  | ComposeRegisterBuildCancel (buildID : string) : AgentCall unit
  | ComposeUnregisterBuildCancel (buildID : string) : AgentCall unit
  | ComposeCancelBuild (buildID : string) : AgentCall unit
  (* files *)
  | FsMkdirAll (path : string) : AgentCall (unit + error)
  | FsExists (path : string) : AgentCall bool
  | FsNotMissing (path : string) : AgentCall bool
  | FsWriteFile (path : string) (contents : file_content) : AgentCall (unit + error)
  | FsRemove (path : string) : AgentCall (unit + error)
  | FsRemoveAll (path : string) : AgentCall (unit + error)
  | FsExtractTarGz (tar target : string) : AgentCall (unit + error)
  | FsReadInTgz (tar name : string) : AgentCall (unit + error)
  | CancelFileTransfer (name : string) : AgentCall unit
  (* host *)
  | ProbePorts : AgentCall (string → N → bool)
  | LanIP : AgentCall string
  | HasNvidiaGPU : AgentCall bool
  | Sleep (ns : Z) : AgentCall unit
  | Jitter : AgentCall Z
  (* tunnels, through the TunnelManager interface *)
  | TunnelCapable : AgentCall bool
  | TunnelGet (id : string) : AgentCall (option TunnelConfig)
  | TunnelAdd (c : TunnelConfig) : AgentCall (TunnelConfig + error)
  | TunnelRemove (c : TunnelConfig) : AgentCall (unit + error)
  | TunnelSaveRemotePorts (p : TransitionPayload) : AgentCall (unit + error)
  | TunnelStates : AgentCall (unit + error)
  (* goroutines started and not waited for *)
  | GoRequestAppState (p : TransitionPayload) : AgentCall unit
  | GoCrashLoopRetry (task : nat) : AgentCall unit
  | GoObserve (o : observer) : AgentCall unit
  | GoSpawner : AgentCall unit
  (* the session and the backend on a connection *)
  | RefreshDeviceMetadata : AgentCall (bool * option error)
  | SessionReconnect : AgentCall unit
  | CallAppCredKey : AgentCall (option (list goval) + error)
  | CallRequestedAppStates (deviceKey : N) : AgentCall (option (list goval) + error)
  | UpdateDeviceStatus (status : string) : AgentCall (unit + error)
  | RegisterEndpoints : AgentCall (unit + error)
  | ReregisterTerminals : AgentCall unit
  | AcquireFrpc : AgentCall (unit + error)
  | GoSuperviseTunnels : AgentCall unit
  | PublishMetadata : AgentCall (unit + error)
  | GoReviveLogs : AgentCall unit
  | AwaitRevivedLogs : AgentCall unit
  | AwaitDaemon : AgentCall unit.

Record World := mk_World {
  heap : gmap nat App;
  apps : list nat;
  AppStates : list app_row;
  RequestedAppStates : list requested_row;
  AppStateHistory : list app_row;
  composeTransitionCancels : gmap string nat;
  canceled : gset nat;
  next_id : nat;
  hostPorts : HostPortRegistry;
  crashLoops : list (nat * CrashLoop);
  activeObservers : gmap string nat;
  spawnerActive : bool;
  diskEmergency : bool;
  composeSupported : bool;
  appCredKey : string;
}.

Definition set_heap (v : gmap nat App) (w : World) : World :=
  {| heap := v; apps := apps w; AppStates := AppStates w; RequestedAppStates :=
     RequestedAppStates w; AppStateHistory := AppStateHistory w; composeTransitionCancels :=
     composeTransitionCancels w; canceled := canceled w; next_id := next_id w; hostPorts :=
     hostPorts w; crashLoops := crashLoops w; activeObservers := activeObservers w; spawnerActive := spawnerActive w;
     diskEmergency := diskEmergency w; composeSupported := composeSupported w; appCredKey :=
     appCredKey w |}.

Definition set_apps (v : list nat) (w : World) : World :=
  {| heap := heap w; apps := v; AppStates := AppStates w; RequestedAppStates :=
     RequestedAppStates w; AppStateHistory := AppStateHistory w; composeTransitionCancels :=
     composeTransitionCancels w; canceled := canceled w; next_id := next_id w; hostPorts :=
     hostPorts w; crashLoops := crashLoops w; activeObservers := activeObservers w; spawnerActive := spawnerActive w;
     diskEmergency := diskEmergency w; composeSupported := composeSupported w; appCredKey :=
     appCredKey w |}.

Definition set_AppStates (v : list app_row) (w : World) : World :=
  {| heap := heap w; apps := apps w; AppStates := v; RequestedAppStates :=
     RequestedAppStates w; AppStateHistory := AppStateHistory w; composeTransitionCancels :=
     composeTransitionCancels w; canceled := canceled w; next_id := next_id w; hostPorts :=
     hostPorts w; crashLoops := crashLoops w; activeObservers := activeObservers w; spawnerActive := spawnerActive w;
     diskEmergency := diskEmergency w; composeSupported := composeSupported w; appCredKey :=
     appCredKey w |}.

Definition set_RequestedAppStates (v : list requested_row) (w : World) : World :=
  {| heap := heap w; apps := apps w; AppStates := AppStates w; RequestedAppStates := v;
     AppStateHistory := AppStateHistory w; composeTransitionCancels :=
     composeTransitionCancels w; canceled := canceled w; next_id := next_id w; hostPorts :=
     hostPorts w; crashLoops := crashLoops w; activeObservers := activeObservers w; spawnerActive := spawnerActive w;
     diskEmergency := diskEmergency w; composeSupported := composeSupported w; appCredKey :=
     appCredKey w |}.

Definition set_AppStateHistory (v : list app_row) (w : World) : World :=
  {| heap := heap w; apps := apps w; AppStates := AppStates w; RequestedAppStates :=
     RequestedAppStates w; AppStateHistory := v; composeTransitionCancels :=
     composeTransitionCancels w; canceled := canceled w; next_id := next_id w; hostPorts :=
     hostPorts w; crashLoops := crashLoops w; activeObservers := activeObservers w; spawnerActive := spawnerActive w;
     diskEmergency := diskEmergency w; composeSupported := composeSupported w; appCredKey :=
     appCredKey w |}.

Definition set_composeTransitionCancels (v : gmap string nat) (w : World) : World :=
  {| heap := heap w; apps := apps w; AppStates := AppStates w; RequestedAppStates :=
     RequestedAppStates w; AppStateHistory := AppStateHistory w; composeTransitionCancels :=
     v; canceled := canceled w; next_id := next_id w; hostPorts := hostPorts w; crashLoops
     := crashLoops w; activeObservers := activeObservers w; spawnerActive := spawnerActive w; diskEmergency := diskEmergency
     w; composeSupported := composeSupported w; appCredKey := appCredKey w |}.

Definition set_canceled (v : gset nat) (w : World) : World :=
  {| heap := heap w; apps := apps w; AppStates := AppStates w; RequestedAppStates :=
     RequestedAppStates w; AppStateHistory := AppStateHistory w; composeTransitionCancels :=
     composeTransitionCancels w; canceled := v; next_id := next_id w; hostPorts := hostPorts
     w; crashLoops := crashLoops w; activeObservers := activeObservers w; spawnerActive := spawnerActive w; diskEmergency :=
     diskEmergency w; composeSupported := composeSupported w; appCredKey := appCredKey w |}.

Definition set_next_id (v : nat) (w : World) : World :=
  {| heap := heap w; apps := apps w; AppStates := AppStates w; RequestedAppStates :=
     RequestedAppStates w; AppStateHistory := AppStateHistory w; composeTransitionCancels :=
     composeTransitionCancels w; canceled := canceled w; next_id := v; hostPorts :=
     hostPorts w; crashLoops := crashLoops w; activeObservers := activeObservers w; spawnerActive := spawnerActive w;
     diskEmergency := diskEmergency w; composeSupported := composeSupported w; appCredKey :=
     appCredKey w |}.

Definition set_hostPorts (v : HostPortRegistry) (w : World) : World :=
  {| heap := heap w; apps := apps w; AppStates := AppStates w; RequestedAppStates :=
     RequestedAppStates w; AppStateHistory := AppStateHistory w; composeTransitionCancels :=
     composeTransitionCancels w; canceled := canceled w; next_id := next_id w; hostPorts :=
     v; crashLoops := crashLoops w; activeObservers := activeObservers w; spawnerActive := spawnerActive w; diskEmergency :=
     diskEmergency w; composeSupported := composeSupported w; appCredKey := appCredKey w |}.

Definition set_crashLoops (v : list (nat * CrashLoop)) (w : World) : World :=
  {| heap := heap w; apps := apps w; AppStates := AppStates w; RequestedAppStates :=
     RequestedAppStates w; AppStateHistory := AppStateHistory w; composeTransitionCancels :=
     composeTransitionCancels w; canceled := canceled w; next_id := next_id w; hostPorts :=
     hostPorts w; crashLoops := v; activeObservers := activeObservers w; spawnerActive := spawnerActive w; diskEmergency :=
     diskEmergency w; composeSupported := composeSupported w; appCredKey := appCredKey w |}.

Definition set_activeObservers (v : gmap string nat) (w : World) : World :=
  {| heap := heap w; apps := apps w; AppStates := AppStates w; RequestedAppStates :=
     RequestedAppStates w; AppStateHistory := AppStateHistory w; composeTransitionCancels :=
     composeTransitionCancels w; canceled := canceled w; next_id := next_id w; hostPorts :=
     hostPorts w; crashLoops := crashLoops w; activeObservers := v; spawnerActive := spawnerActive w; diskEmergency :=
     diskEmergency w; composeSupported := composeSupported w; appCredKey := appCredKey w |}.

Definition set_spawnerActive (v : bool) (w : World) : World :=
  {| heap := heap w; apps := apps w; AppStates := AppStates w; RequestedAppStates :=
     RequestedAppStates w; AppStateHistory := AppStateHistory w; composeTransitionCancels :=
     composeTransitionCancels w; canceled := canceled w; next_id := next_id w; hostPorts :=
     hostPorts w; crashLoops := crashLoops w; activeObservers := activeObservers w; spawnerActive := v;
     diskEmergency := diskEmergency w; composeSupported := composeSupported w; appCredKey := appCredKey w |}.

Definition set_diskEmergency (v : bool) (w : World) : World :=
  {| heap := heap w; apps := apps w; AppStates := AppStates w; RequestedAppStates :=
     RequestedAppStates w; AppStateHistory := AppStateHistory w; composeTransitionCancels :=
     composeTransitionCancels w; canceled := canceled w; next_id := next_id w; hostPorts :=
     hostPorts w; crashLoops := crashLoops w; activeObservers := activeObservers w; spawnerActive := spawnerActive w;
     diskEmergency := v; composeSupported := composeSupported w; appCredKey := appCredKey w |}.

Definition set_appCredKey (v : string) (w : World) : World :=
  {| heap := heap w; apps := apps w; AppStates := AppStates w; RequestedAppStates :=
     RequestedAppStates w; AppStateHistory := AppStateHistory w; composeTransitionCancels :=
     composeTransitionCancels w; canceled := canceled w; next_id := next_id w; hostPorts :=
     hostPorts w; crashLoops := crashLoops w; activeObservers := activeObservers w; spawnerActive := spawnerActive w;
     diskEmergency := diskEmergency w; composeSupported := composeSupported w; appCredKey :=
     v |}.

Abbreviation Agent := (M AgentCall World).
Abbreviation agent_env := (env AgentCall World).
Abbreviation agent_state := (state AgentCall World).

(** What the agent core takes from its host and from libraries: the configuration,
    the image architecture of the machine, [crypto/hmac] with base64, [net/url] and
    [net], and docker's [nat] package. *)
Class Host := {
  config : Config;
  imageArchName : string;
  buildArch : string;
  hmac_sha256_base64 : string → string → string;
  url_hostname : string → option string;
  url_port : string → string;
  url_with_host : string → string → string;
  ip_is_loopback : string → bool;
  os_is_exist : error → bool;
  nat_new_port : string → string → string + error;
  nat_port_int : string → N;
}.

(** ** Access to the apps *)

Abbreviation loc := nat (only parsing).

(** Dereferencing an app pointer; a dangling one would be a nil dereference. *)
Definition read_app (l : loc) : Agent App :=
  let! a := gets (λ w, heap w !! l) in
  match a with Some a => ret a | None => panic end.

Definition update_app (l : loc) (f : App → App) : Agent unit :=
  modify (λ w, set_heap (alter f l (heap w)) w).

(** [app.StateLock.Lock(); ...; app.StateLock.Unlock()] around a read or a write: a
    lock some path never released blocks for ever. *)
Definition with_state_lock {A} (l : loc) (f : App → A) : Agent A :=
  let! a := read_app l in
  if app_state_lock a then hang else ret (f a).

Definition update_locked (l : loc) (f : App → App) : Agent unit :=
  let! a := read_app l in
  if app_state_lock a then hang else update_app l f.

(** [SecureTransition]: [TryAcquire(1)], inverted. *)
Definition SecureTransition (l : loc) : Agent bool :=
  let! a := read_app l in
  if app_locked a then ret true
  else update_app l (app_set_locked true);; ret false.

(** [UnlockTransition]: releasing what is not held panics. *)
Definition UnlockTransition (l : loc) : Agent unit :=
  let! a := read_app l in
  if app_locked a then update_app l (app_set_locked false) else panic.

Definition IsCancelable (l : loc) : Agent bool :=
  with_state_lock l (λ a, IsCancelableState (app_CurrentState a)).

Definition alloc_app (a : App) : Agent loc :=
  let! l := gets next_id in
  modify (λ w, set_next_id (S l) (set_apps (apps w ++ [l])%list (set_heap (<[l := a]> (heap w)) w)));;
  ret l.

(** ** Host ports with the ports the system reports free at this moment *)

Definition with_ports {A} (f : (string → N → bool) → HostPortRegistry → A * HostPortRegistry) : Agent A :=
  let! probe := call ProbePorts in
  let! r := gets hostPorts in
  let '(a, r') := f probe r in
  modify (set_hostPorts r');; ret a.

Definition registry_exhausted : error :=
  Plain "no free host port available in 40000-49999".

Definition recover_or_reserve (key : hostPortKey) (preferred : N) : Agent N :=
  let! p := with_ports (λ probe r, RecoverOrReserve probe r key preferred) in
  match p with Some port => ret port | None => throw registry_exhausted end.

Definition reserve_declared (key : hostPortKey) : Agent bool :=
  let! r := gets hostPorts in
  let '(ok, r') := ReserveDeclared r key in
  modify (set_hostPorts r');; ret ok.

Definition reassign_fresh (key : hostPortKey) : Agent N :=
  let! p := with_ports (λ probe r, ReassignFresh probe r key) in
  match p with Some port => ret port | None => throw registry_exhausted end.

(** ** Cancelable contexts *)

Definition new_context : Agent nat :=
  let! c := gets next_id in
  modify (λ w, set_next_id (S c) w);; ret c.

Definition cancel_context (c : nat) : Agent unit :=
  modify (λ w, set_canceled ({[c]} ∪ canceled w) w).

Definition context_canceled (c : nat) : Agent bool :=
  gets (λ w, bool_decide (c ∈ canceled w)).

(** An error that is only logged. *)
Definition attempt {A} (c : AgentCall (A + error)) : Agent (A + error) := call c.
Definition best_effort (c : AgentCall (unit + error)) : Agent unit := call c;; ret tt.
