(* ===== verification/TunnelRules.v ===== *)
(** * Port rules and tunnel names (src/src/tunnel)

    The pure naming functions of frp.go and the JSON conversion of port rules of
    tunnel.go. *)
From S2P Require Import Prelude Errdefs GoValue Common.

Definition PROD_SERVER_ADDR : string := "app.ironflock.com".
Definition TEST_SERVER_ADDR : string := "app.ironflock.dev".

Definition CreateTunnelID (subdomain protocol : string) : string := subdomain +:+ "-" +:+ protocol.

Definition CreateSubdomain (protocol : string) (deviceKey : N) (appName : string) (localPort : N) : string :=
  let baseSubdomain := to_lower (itoa deviceKey +:+ "-" +:+ appName +:+ "-" +:+ itoa localPort) in
  if String.eqb protocol "https" then "secure-" +:+ baseSubdomain else baseSubdomain.

Definition blank_rule : PortForwardRule :=
  {| pr_Main := false; pr_RuleName := ""; pr_Active := false; pr_Public := false; pr_Port := 0;
     pr_Protocol := ""; pr_LocalIP := ""; pr_RemotePortEnvironment := ""; pr_RemotePort := 0;
     pr_HostPort := 0; pr_CloudRemotePort := 0 |}.

Definition with_rule_protocol (p : string) (r : PortForwardRule) : PortForwardRule :=
  {| pr_Main := pr_Main r; pr_RuleName := pr_RuleName r; pr_Active := pr_Active r;
     pr_Public := pr_Public r; pr_Port := pr_Port r; pr_Protocol := p; pr_LocalIP := pr_LocalIP r;
     pr_RemotePortEnvironment := pr_RemotePortEnvironment r; pr_RemotePort := pr_RemotePort r;
     pr_HostPort := pr_HostPort r; pr_CloudRemotePort := pr_CloudRemotePort r |}.

Definition with_rule_ports (remote host : N) (r : PortForwardRule) : PortForwardRule :=
  {| pr_Main := pr_Main r; pr_RuleName := pr_RuleName r; pr_Active := pr_Active r;
     pr_Public := pr_Public r; pr_Port := pr_Port r; pr_Protocol := pr_Protocol r;
     pr_LocalIP := pr_LocalIP r; pr_RemotePortEnvironment := pr_RemotePortEnvironment r;
     pr_RemotePort := remote; pr_HostPort := host; pr_CloudRemotePort := pr_CloudRemotePort r |}.

Definition exact_float : N := 9007199254740992.

Section json.
Context `{GoRuntime}.

(** The scalar decoders of [encoding/json]; [null] leaves the zero value. *)
Definition json_bool (v : goval) : option bool :=
  match v with VBool b => Some b | VNil => Some false | _ => None end.
Definition json_string (v : goval) : option string :=
  match v with VStr s => Some s | VNil => Some "" | _ => None end.

Definition uint_of_Z (z : Z) : option N :=
  if ((0 <=? z) && (z <? Z.of_N two64))%Z then Some (Z.to_N z) else None.

Definition json_uint (v : goval) : option N :=
  match v with
  | VNil => Some 0%N
  | VInt z => uint_of_Z z
  | VFloat n d =>
      let t := float_trunc n d in
      if negb (float_integral n d) then None
      else if (t <? Z.of_N exact_float)%Z then uint_of_Z t else json_big_uint t
  | _ => None
  end.

Definition field (name : string) (m : gomap) : goval := map_index name m.

(** [json.Marshal] then [json.Unmarshal] into a rule.  The backend and the agent
    spell the keys as the struct's tags do. *)
Definition decode_rule (m : gomap) : option PortForwardRule :=
  main ← json_bool (field "main" m);
  name ← json_string (field "name" m);
  active ← json_bool (field "active" m);
  public ← json_bool (field "public" m);
  port ← json_uint (field "port" m);
  protocol ← json_string (field "protocol" m);
  localIP ← json_string (field "local_ip" m);
  environment ← json_string (field "remote_port_environment" m);
  remotePort ← json_uint (field "remote_port" m);
  hostPort ← json_uint (field "host_port" m);
  cloudPort ← json_uint (field "cloud_remote_port" m);
  Some {| pr_Main := main; pr_RuleName := name; pr_Active := active; pr_Public := public;
          pr_Port := port; pr_Protocol := protocol; pr_LocalIP := localIP;
          pr_RemotePortEnvironment := environment; pr_RemotePort := remotePort;
          pr_HostPort := hostPort; pr_CloudRemotePort := cloudPort |}.

Definition decode_entry (portEntry : goval) : option PortForwardRule :=
  match portEntry with
  | VMap m => decode_rule m
  | VNil => Some blank_rule
  | _ => None
  end.

Definition json_error : error := Plain "json: cannot unmarshal".

Fixpoint InterfaceToPortForwardRule (dat : list goval) : list PortForwardRule + error :=
  match dat with
  | [] => inl []
  | portEntry :: dat' =>
      match decode_entry portEntry with
      | None => inr json_error
      | Some r =>
          let r := if String.eqb (pr_Protocol r) "" then with_rule_protocol "http" r else r in
          match InterfaceToPortForwardRule dat' with
          | inl rs => inl (r :: rs)
          | inr e => inr e
          end
      end
  end.

Definition float_of_uint (n : N) : goval :=
  VFloat (Z.of_N (if (n <? exact_float)%N then n else round_f64 n)) 1.

(** [omitempty] drops a zero port. *)
Definition omit_empty (name : string) (n : N) : gomap :=
  if (n =? 0)%N then [] else [(name, float_of_uint n)].

Definition encode_rule (r : PortForwardRule) : goval :=
  VMap ([("main", VBool (pr_Main r)); ("name", VStr (pr_RuleName r)); ("active", VBool (pr_Active r));
         ("public", VBool (pr_Public r)); ("port", float_of_uint (pr_Port r));
         ("protocol", VStr (pr_Protocol r)); ("local_ip", VStr (pr_LocalIP r));
         ("remote_port_environment", VStr (pr_RemotePortEnvironment r));
         ("remote_port", float_of_uint (pr_RemotePort r))]
        ++ omit_empty "host_port" (pr_HostPort r)
        ++ omit_empty "cloud_remote_port" (pr_CloudRemotePort r)).

Definition PortForwardRuleToInterface (portEntries : list PortForwardRule) : list goval :=
  map encode_rule portEntries.

(** ** Round trip *)

Definition rule_ports_small (r : PortForwardRule) : Prop :=
  (pr_Port r < exact_float ∧ pr_RemotePort r < exact_float
   ∧ pr_HostPort r < exact_float ∧ pr_CloudRemotePort r < exact_float)%N.

Lemma json_uint_float n : (n < exact_float)%N → json_uint (float_of_uint n) = Some n.
Proof.
  intros Hn. unfold float_of_uint. rewrite (proj2 (N.ltb_lt _ _) Hn). unfold json_uint, float_trunc, float_integral.
  rewrite Z.quot_1_r, Z.rem_1_r.
  change (negb (0 =? 0)%Z) with false. cbv iota.
  assert ((Z.of_N n <? Z.of_N exact_float)%Z = true) as -> by (apply Z.ltb_lt; lia).
  unfold uint_of_Z. assert (((0 <=? Z.of_N n) && (Z.of_N n <? Z.of_N two64))%Z = true) as ->.
  { apply andb_true_intro. split; [apply Z.leb_le; lia|apply Z.ltb_lt]. unfold exact_float, two64 in *. lia. }
  by rewrite N2Z.id.
Qed.

Lemma decode_encode_rule r : rule_ports_small r → decode_entry (encode_rule r) = Some r.
Proof.
  intros (Hp&Hr&Hh&Hc). unfold encode_rule, decode_entry, decode_rule, field, omit_empty.
  destruct (N.eqb_spec (pr_HostPort r) 0) as [Hh0|Hh0]; destruct (N.eqb_spec (pr_CloudRemotePort r) 0) as [Hc0|Hc0];
    unfold map_index; cbn -[float_of_uint json_uint]; rewrite !json_uint_float by done; simpl;
    destruct r; simpl in *; congruence.
Qed.

(** port rules survive the conversion to wire values and back, so a rule list the
    agent persists upstream is the one it reads on the next sync. *)
Theorem port_rules_roundtrip rules :
  Forall rule_ports_small rules → Forall (λ r, pr_Protocol r ≠ "") rules →
  InterfaceToPortForwardRule (PortForwardRuleToInterface rules) = inl rules.
Proof.
  intros Hs Hp. induction rules as [|r rules IH]; [done|].
  cbn [PortForwardRuleToInterface map InterfaceToPortForwardRule].
  inversion_clear Hs as [|? ? Hr Hs']. inversion_clear Hp as [|? ? Hpr Hp'].
  rewrite (decode_encode_rule r Hr).
  destruct (String.eqb_spec (pr_Protocol r) "") as [|_]; [done|].
  change (map encode_rule rules) with (PortForwardRuleToInterface rules). by rewrite IH.
Qed.
End json.

Definition ex_rule : PortForwardRule :=
  {| pr_Main := true; pr_RuleName := "web"; pr_Active := true; pr_Public := true; pr_Port := 8080;
     pr_Protocol := "http"; pr_LocalIP := ""; pr_RemotePortEnvironment := "WEB_PORT";
     pr_RemotePort := 20001; pr_HostPort := 40000; pr_CloudRemotePort := 0 |}.

Lemma port_rules_roundtrip_witness :
  @InterfaceToPortForwardRule amd64_runtime (@PortForwardRuleToInterface amd64_runtime [ex_rule])
  = inl [ex_rule].
Proof.
  apply (port_rules_roundtrip (H := amd64_runtime) [ex_rule]).
  - repeat constructor.
  - repeat constructor. discriminate.
Defined.

Lemma CreateSubdomain_lower protocol key name port :
  to_lower (CreateSubdomain protocol key name port) = CreateSubdomain protocol key name port.
Proof.
  unfold CreateSubdomain. generalize (itoa key +:+ "-" +:+ name +:+ "-" +:+ itoa port). intros t.
  destruct (String.eqb protocol "https"); [|apply to_lower_idem].
  by rewrite to_lower_app, to_lower_idem.
Qed.
