(* ===== verification/EnvVars.v ===== *)
(** * Environment of app containers

    The environment variables and mounts an app container receives
    (run_app.go, build_app.go, app_credential.go, host_access.go, env_files.go):
    defaults, per-app credential, payload variables minus the reserved names, port
    announcements, and the filter that keeps a compose dotenv file parseable. *)
From S2P Require Import Prelude Errdefs GoValue Common Records Effects HostPorts ComposePorts World TunnelRules.
Open Scope go_scope.

(** ** Names *)

Definition env_name (line : string) : string := (str_cut "=" line).1.1.

(** [reservedEnvNames]. *)
Definition reservedEnvNames : list string := ["APP_AUTH_ID"; "APP_AUTH_SECRET"].

Definition reserved (line : string) : bool := bool_decide (env_name line ∈ reservedEnvNames).

Definition maxEnvVarSize : nat := 20 * 1024.

Definition filterLargeEnvVars (envVars : list string) : list string :=
  List.filter (λ line, Nat.leb (String.length line) maxEnvVarSize) envVars.

(** *** Dotenv lines *)

Definition dotenv_bad_char (a : ascii) : bool :=
  Ascii.eqb a " " || Ascii.eqb a tab || Ascii.eqb a carriage_return || Ascii.eqb a newline
  || Ascii.eqb a "=".

Definition isValidDotEnvKey (key : string) : bool :=
  if String.eqb key "" || has_prefix "#" key then false
  else negb (contains_any dotenv_bad_char key).

(** [strings.TrimSpace] on ASCII white space. *)
Definition space_char (a : ascii) : bool :=
  let n := N_of_ascii a in ((n =? 32) || ((9 <=? n) && (n <=? 13)))%N.

Definition str_rev (s : string) : string :=
  String.string_of_list_ascii (rev (String.list_ascii_of_string s)).

Definition trim_space (s : string) : string :=
  str_rev (trim_left space_char (str_rev (trim_left space_char s))).

Definition dotenv_key (line : string) : string := trim_space (str_cut "=" line).1.1.

Definition valid_dotenv_line (line : string) : bool :=
  (str_cut "=" line).2 && isValidDotEnvKey (dotenv_key line).

Fixpoint filterValidDotEnvLines (envLines : list string) : list string * list string :=
  match envLines with
  | [] => ([], [])
  | line :: rest =>
      let '(valid, skipped) := filterValidDotEnvLines rest in
      if valid_dotenv_line line then (line :: valid, skipped)
      else (valid, (if String.eqb (dotenv_key line) "" then trim_space line else dotenv_key line) :: skipped)
  end.

(** *** Template defaults *)

(** The template lines whose name occurs in no environment line. *)
Definition missingDefaultEnvs (environmentVariables templateDefaults : list string) : list string :=
  List.filter (λ t, negb (existsb (str_contains (default "" (head (split_on "=" t)))) environmentVariables))
    templateDefaults.

Section env.
Context `{GoRuntime} `{Host}.

(** [None] is the panic of [EnvironmentVarsToStringArray] on a malformed entry. *)
Definition buildProdEnvironmentVariables (defaultEnvironmentVariables : list string)
    (payloadEnvironmentVariables : option gomap) : option (list string) :=
  payloadVars ← EnvironmentVarsToStringArray (default [] payloadEnvironmentVariables);
  Some (defaultEnvironmentVariables ++ List.filter (λ line, negb (reserved line)) payloadVars)%list.

(** ** The per-app credential *)

Definition appCredMessagePrefix : string := "ironflock/app-cred/v1".

Definition appCredentialAuthID (serialNumber : string) (appKey : N) (stage : Stage) (epoch : N) : string :=
  "app-" +:+ itoa appKey +:+ "-" +:+ to_lower (stage_string stage) +:+ "-e" +:+ itoa epoch
  +:+ "@" +:+ serialNumber.

Definition app_cred_message (serialNumber : string) (appKey : N) (stage : Stage) (epoch : N) : string :=
  appCredMessagePrefix +:+ "|" +:+ serialNumber +:+ "|" +:+ itoa appKey +:+ "|"
  +:+ to_upper (stage_string stage) +:+ "|" +:+ itoa epoch.

Definition appCredentialSecret (appCredKey serialNumber : string) (appKey : N) (stage : Stage)
    (epoch : N) : string :=
  hmac_sha256_base64 appCredKey (app_cred_message serialNumber appKey stage epoch).

Definition appCredential (appCredKey : string) (p : TransitionPayload) : string * string :=
  if String.eqb appCredKey "" || String.eqb (cfg_SerialNumber config) "" || (tp_AppKey p =? 0)%N
  then ("", "")
  else
    let epoch := if (tp_AppCredEpoch p =? 0)%N then 1%N else tp_AppCredEpoch p in
    let serial := cfg_SerialNumber config in
    (appCredentialAuthID serial (tp_AppKey p) (tp_Stage p) epoch,
     appCredentialSecret appCredKey serial (tp_AppKey p) (tp_Stage p) epoch).

(** ** Defaults *)

Definition hostGatewayEntry : string := "host.docker.internal:host-gateway".

Definition appEndpointURL (endpointURL : string) : string :=
  match url_hostname endpointURL with
  | None => endpointURL
  | Some host =>
      if String.eqb host "" then endpointURL
      else if negb (String.eqb host "localhost") && negb (ip_is_loopback host) then endpointURL
      else
        let port := url_port endpointURL in
        url_with_host endpointURL
          (if String.eqb port "" then "host.docker.internal" else "host.docker.internal:" +:+ port)
  end.

Definition tunnelDomainForApps : string :=
  if negb (String.eqb (cfg_ApplianceDomain config) "") then cfg_ApplianceDomain config
  else if String.eqb (cfg_Environment config) "test" then TEST_SERVER_ADDR
  else if String.eqb (cfg_Environment config) "local" then "localhost"
  else PROD_SERVER_ADDR.

Definition buildDefaultEnvironmentVariables (p : TransitionPayload) (environment : Stage) (a : App)
    (appCredKey lanIP : string) : list string :=
  let '(authID, secret) := appCredential appCredKey p in
  (["DEVICE_SERIAL_NUMBER=" +:+ cfg_SerialNumber config;
    "ENV=" +:+ stage_string environment;
    "DEVICE_KEY=" +:+ itoa (cfg_DeviceKey config);
    "SWARM_KEY=" +:+ itoa (cfg_SwarmKey config);
    "APP_KEY=" +:+ itoa (app_AppKey a);
    "APP_NAME=" +:+ app_AppName a;
    "DEVICE_NAME=" +:+ cfg_Name config;
    "DEVICE_ENDPOINT_URL=" +:+ appEndpointURL (cfg_DeviceEndpointURL config);
    "TUNNEL_DOMAIN=" +:+ tunnelDomainForApps]
   ++ (if negb (String.eqb authID "") && negb (String.eqb secret "")
       then ["APP_AUTH_ID=" +:+ authID; "APP_AUTH_SECRET=" +:+ secret] else [])
   ++ (if String.eqb lanIP "" then [] else ["DEVICE_LAN_IP=" +:+ lanIP])
   ++ (if (0 <? tp_InstanceKey p)%N then ["INSTANCE_KEY=" +:+ itoa (tp_InstanceKey p)] else [])
   ++ (if String.eqb (cfg_ReswarmBaseURL config) "" then []
       else ["RESWARM_URL=" +:+ cfg_ReswarmBaseURL config;
             "DEVICE_URL=" +:+ cfg_ReswarmBaseURL config +:+ "/" +:+ cfg_SwarmOwnerName config
               +:+ "/swarms/" +:+ cfg_SwarmName config +:+ "/settings/devices/" +:+ cfg_Name config]))%list.

Definition default_environment (p : TransitionPayload) (l : loc) : Agent (list string) :=
  let! a := read_app l in
  let! key := gets appCredKey in
  let! lanIP := call LanIP in
  ret (buildDefaultEnvironmentVariables p (app_Stage a) a key lanIP).

Definition of_option {A} (o : option A) : Agent A := match o with Some a => ret a | None => panic end.

(** ** Announced ports *)

Definition rule_env_names (r : PortForwardRule) : list string :=
  ("REMOTE_PORT_FOR_" +:+ itoa (pr_Port r))
  :: (if String.eqb (pr_RemotePortEnvironment r) "" then [] else [pr_RemotePortEnvironment r]).

Definition rule_tunnel_id (appName : string) (r : PortForwardRule) : string :=
  CreateTunnelID (CreateSubdomain (pr_Protocol r) (cfg_DeviceKey config) appName (pr_Port r)) (pr_Protocol r).

Definition rule_env_lines (r : PortForwardRule) (activeTunnel : option TunnelConfig) : list string :=
  flat_map (λ name,
    ((match activeTunnel with Some t => [name +:+ "=" +:+ itoa (tc_RemotePort t)] | None => [] end)
     ++ (if (0 <? pr_CloudRemotePort r)%N
         then [name +:+ "_CLOUD=" +:+ itoa (pr_CloudRemotePort r)] else []))%list)
    (rule_env_names r).

Fixpoint remotePortEnvVars (appName : string) (portRules : list PortForwardRule) : Agent (list string) :=
  match portRules with
  | [] => ret []
  | r :: rest =>
      let! t := call (TunnelGet (rule_tunnel_id appName r)) in
      let! envs := remotePortEnvVars appName rest in
      ret (rule_env_lines r t ++ envs)%list
  end.

(** [hostPortByDeclared] is a Go map: the first entry of a declared port stays. *)
Definition insert_absent (declared port : N) (m : list (N * N)) : list (N * N) :=
  if existsb (λ e, (e.1 =? declared)%N) m then m else (m ++ [(declared, port)])%list.

#[local] Instance by_first : RelDecision (λ x y : N * N, (x.1 ≤ y.1)%N).
Proof. intros x y. apply _. Defined.

Definition devicePortEnvLines (hostPortByDeclared : list (N * N)) : list string :=
  map (λ e, "DEVICE_PORT_FOR_" +:+ itoa e.1 +:+ "=" +:+ itoa e.2)
    (merge_sort (λ x y : N * N, (x.1 ≤ y.1)%N) hostPortByDeclared).

(** The bindings in the sorted order of their container ports. *)
Definition sorted_bindings (portBindings : list (string * string)) : list (string * string) :=
  map (λ k, (k, default "" (map_get k portBindings))) (sort_strings (map fst portBindings)).

Definition devicePortEnvsFromBindings (portBindings : list (string * string)) : list string :=
  devicePortEnvLines (foldl (λ m '(containerPort, hostPort),
    match parse_uint 64 hostPort with
    | Some p => if (p =? 0)%N then m else insert_absent (nat_port_int containerPort) p m
    | None => m
    end) [] (sorted_bindings portBindings)).

(** ** Compose service additions *)

Definition appEnvFilesHostDir (stage : Stage) (appName : string) : string :=
  cfg_AppsDirectory config +:+ "/" +:+ to_lower (stage_string stage) +:+ "/" +:+ to_lower appName +:+ "/env".

Definition mounts_env (volume : goval) : bool :=
  match volume with
  | VStr s => str_contains ":/data/env" s
  | VMap m => match as_str (map_index "target" m) with
              | Some target => has_prefix "/data/env" target
              | None => false
              end
  | _ => false
  end.

Definition addComposeEnvFilesMount (service : gomap) (hostEnvDir : string) : gomap :=
  let mountEntry := VStr (hostEnvDir +:+ ":/data/env:ro") in
  match map_index "volumes" service with
  | VNil => map_set "volumes" (VList [mountEntry]) service
  | VList volumes =>
      if existsb mounts_env volumes then service
      else map_set "volumes" (VList (volumes ++ [mountEntry])) service
  | _ => service
  end.

Definition gateway_host (v : goval) : bool :=
  match v with VStr s => has_prefix "host.docker.internal" s | _ => false end.

Definition addComposeExtraHost (service : gomap) : gomap :=
  match map_index "extra_hosts" service with
  | VNil => map_set "extra_hosts" (VList [VStr hostGatewayEntry]) service
  | VList hosts =>
      if existsb gateway_host hosts then service
      else map_set "extra_hosts" (VList (hosts ++ [VStr hostGatewayEntry])) service
  | VMap hosts =>
      match map_get "host.docker.internal" hosts with
      | Some _ => service
      | None => map_set "extra_hosts"
                  (VMap (map_set "host.docker.internal" (VStr "host-gateway") hosts)) service
      end
  | _ => service
  end.

(** ** Environment files *)

Definition env_file (envDir name : string) : string := envDir +:+ "/" +:+ name +:+ ".txt".

Definition writeEnvFile (envDir name : string) (port : N) : Agent unit :=
  best_effort (FsWriteFile (env_file envDir name) (FText (itoa port))).

Definition removeEnvFile (envDir name : string) : Agent unit :=
  best_effort (FsRemove (env_file envDir name)).

Definition writeSecretEnvFile (envDir name value : string) : Agent unit :=
  best_effort (FsWriteFile (env_file envDir name) (FText value)).

Definition refresh_rule_files (envDir : string) (r : PortForwardRule) : Agent unit :=
  for_each (rule_env_names r) (λ name,
    when (0 <? pr_RemotePort r)%N (writeEnvFile envDir name (pr_RemotePort r));;
    if (0 <? pr_CloudRemotePort r)%N
    then writeEnvFile envDir (name +:+ "_CLOUD") (pr_CloudRemotePort r)
    else removeEnvFile envDir (name +:+ "_CLOUD")).

Definition refreshRemotePortEnvFiles (stage : Stage) (appName : string)
    (rules : list PortForwardRule) : Agent unit :=
  let envDir := appEnvFilesHostDir stage appName in
  let relevant := existsb (λ r, (0 <? pr_RemotePort r)%N || (0 <? pr_CloudRemotePort r)%N) rules in
  let! go := (if relevant
    then let! r := call (FsMkdirAll envDir) in
         ret match r with inl _ => true | inr _ => false end
    else call (FsExists envDir)) in
  when go (for_each rules (refresh_rule_files envDir)).

Definition refreshAppCredentialEnvFiles (appCredKey : string) (p : TransitionPayload) : Agent unit :=
  let envDir := appEnvFilesHostDir (tp_Stage p) (tp_AppName p) in
  let '(authID, secret) := appCredential appCredKey p in
  if String.eqb authID "" || String.eqb secret "" then ret tt
  else
    let! r := call (FsMkdirAll envDir) in
    match r with
    | inr _ => ret tt
    | inl _ =>
        writeSecretEnvFile envDir "APP_AUTH_ID" authID;;
        writeSecretEnvFile envDir "APP_AUTH_SECRET" secret;;
        removeEnvFile envDir "DEVICE_SECRET"
    end.

Definition writeEnvironmentVariablesToFiles (appSpecificDirectory : string) (envVars : list string) : Agent unit :=
  let envDir := appSpecificDirectory +:+ "/env" in
  callE (FsMkdirAll envDir);;
  for_each envVars (λ envVar,
    match str_cut "=" envVar with
    | (varName, varValue, true) =>
        let! r := call (FsWriteFile (env_file envDir varName) (FText varValue)) in
        match r with
        | inl _ => ret tt
        | inr e => throw (Annotated ("failed to write env var " +:+ varName +:+ " to file") e)
        end
    | (_, _, false) => ret tt
    end);;
  best_effort (FsRemove (env_file envDir "DEVICE_SECRET")).
End env.
