(* ===== verification/Store.v ===== *)
(** * Local database and app store (src/src/persistence, src/src/store)

    Every statement of the database is one or more fallible driver steps followed by
    its effect on the tables; the app store keeps the app objects in memory in front
    of it. *)
From S2P Require Import Prelude Errdefs GoValue Common Records Effects HostPorts World.
Open Scope go_scope.

Section store.
Context `{Host}.

(** A driver step, with what a failing return path does first. *)
Definition db_or (step : db_step) (cleanup : Agent unit) : Agent unit :=
  let! r := call (Db step) in
  match r with
  | inl _ => ret tt
  | inr e => cleanup;; throw e
  end.

Definition db (step : db_step) : Agent unit := db_or step (ret tt).

(** ** Rows *)

Definition row_of_app (row_key : N) (row_stage : Stage) (r : app_row) : bool :=
  (ar_app_key r =? row_key)%N && bool_decide (ar_stage r = row_stage).

Definition requested_of_app (row_key : N) (row_stage : Stage) (r : requested_row) : bool :=
  (rr_app_key r =? row_key)%N && bool_decide (rr_stage r = row_stage).

(** The payload a requested-state row denotes. *)
Definition row_payload (r : requested_row) : TransitionPayload :=
  let p := BuildTransitionPayload imageArchName config (rr_app_key r) (rr_app_name r)
             (rr_requestor_account_key r) (rr_stage r) (rr_current_state r) (rr_requested_state r)
             (rr_release_key r) (rr_new_release_key r) in
  with_NewDockerCompose (rr_new_docker_compose r)
    (with_DockerCompose (rr_docker_compose r)
      (with_Ports (rr_ports r)
        (with_EnvironmentTemplate (rr_environment_template r)
          (with_EnvironmentVariables (rr_environment_variables r)
            (with_RequestUpdate (rr_request_update r)
              (with_PresentVersion (rr_present_version r)
                (with_NewestVersion (rr_newest_version r)
                  (with_Version (rr_version r)
                    (with_DeviceOwnerAccountKey (rr_device_owner_account_key r) p))))))))).

Definition stored_map (m : option gomap) : option gomap :=
  (λ m, map (λ kv, (kv.1, json_roundtrip kv.2)) m) <$> m.

(** The row a payload is written as. *)
Definition payload_row (p : TransitionPayload) : requested_row :=
  {| rr_app_name := tp_AppName p; rr_app_key := tp_AppKey p; rr_stage := tp_Stage p;
     rr_version := tp_Version p; rr_present_version := tp_PresentVersion p;
     rr_newest_version := tp_NewestVersion p; rr_current_state := tp_CurrentState p;
     rr_requested_state := tp_RequestedState p;
     rr_requestor_account_key := tp_RequestorAccountKey p;
     rr_device_owner_account_key := tp_DeviceOwnerAccountKey p;
     rr_release_key := tp_ReleaseKey p; rr_new_release_key := tp_NewReleaseKey p;
     rr_request_update := tp_RequestUpdate p;
     rr_environment_variables := stored_map (tp_EnvironmentVariables p);
     rr_environment_template := stored_map (tp_EnvironmentTemplate p);
     rr_ports := map json_roundtrip (tp_Ports p);
     rr_docker_compose := stored_map (tp_DockerCompose p);
     rr_new_docker_compose := stored_map (tp_NewDockerCompose p) |}.

(** [ON CONFLICT ... DO UPDATE SET]: every column but the key and [version]; the
    device owner only when the new one is known. *)
Definition merge_row (old new : requested_row) : requested_row :=
  {| rr_app_name := rr_app_name old; rr_app_key := rr_app_key old; rr_stage := rr_stage old;
     rr_version := rr_version old; rr_present_version := rr_present_version new;
     rr_newest_version := rr_newest_version new; rr_current_state := rr_current_state new;
     rr_requested_state := rr_requested_state new;
     rr_requestor_account_key := rr_requestor_account_key new;
     rr_device_owner_account_key :=
       if (0 <? rr_device_owner_account_key new)%N
       then rr_device_owner_account_key new else rr_device_owner_account_key old;
     rr_release_key := rr_release_key new; rr_new_release_key := rr_new_release_key new;
     rr_request_update := rr_request_update new;
     rr_environment_variables := rr_environment_variables new;
     rr_environment_template := rr_environment_template new;
     rr_ports := rr_ports new; rr_docker_compose := rr_docker_compose new;
     rr_new_docker_compose := rr_new_docker_compose new |}.

Definition same_key (r1 r2 : requested_row) : bool :=
  String.eqb (rr_app_name r1) (rr_app_name r2) && (rr_app_key r1 =? rr_app_key r2)%N
  && bool_decide (rr_stage r1 = rr_stage r2).

Definition upsert_row (new : requested_row) (rows : list requested_row) : list requested_row :=
  if existsb (same_key new) rows
  then map (λ old, if same_key new old then merge_row old new else old) rows
  else (rows ++ [new])%list.

(** ** Requested states *)

Definition no_requested_state (aKey : N) (aStage : Stage) : error :=
  Plain ("no requested state found for app_key: " +:+ itoa aKey +:+ " with stage: " +:+ stage_string aStage).

Definition GetRequestedState (aKey : N) (aStage : Stage) : Agent TransitionPayload :=
  db DbPrepare;;
  db DbQuery;;
  let! rows := gets RequestedAppStates in
  match List.find (requested_of_app aKey aStage) rows with
  | None => db DbClose;; throw (no_requested_state aKey aStage)
  | Some r => db DbScan;; db DbClose;; ret (row_payload r)
  end.

Definition GetRequestedStates : Agent (list TransitionPayload) :=
  db DbQuery;;
  let! rows := gets RequestedAppStates in
  for_each rows (λ _, db DbScan);;
  ret (map row_payload rows).

Definition UpsertRequestedStateChange (p : TransitionPayload) : Agent unit :=
  db DbPrepare;;
  db DbExec;;
  modify (λ w, set_RequestedAppStates (upsert_row (payload_row p) (RequestedAppStates w)) w).

(** One transaction: nothing is visible before the commit. *)
Definition BulkUpsertRequestedStateChanges (ps : list TransitionPayload) : Agent unit :=
  db DbBegin;;
  for_each ps (λ _, db DbPrepare;; db DbExec);;
  db DbCommit;;
  modify (λ w, set_RequestedAppStates
    (foldl (λ rows p, upsert_row (payload_row p) rows) (RequestedAppStates w) ps) w).

Definition DeleteRequestedState (aKey : N) (aStage : Stage) : Agent unit :=
  db DbPrepare;;
  db DbExec;;
  modify (λ w, set_RequestedAppStates
    (List.filter (λ r, negb (requested_of_app aKey aStage r)) (RequestedAppStates w)) w).

(** ** App states *)

Definition lock_state (l : loc) : Agent unit :=
  let! a := read_app l in
  if app_state_lock a then hang else update_app l (app_set_state_lock true).

Definition unlock_state (l : loc) : Agent unit :=
  let! a := read_app l in
  if app_state_lock a then update_app l (app_set_state_lock false) else panic.

Definition app_state_row (a : App) (state : AppState) (timestamp : string) : app_row :=
  {| ar_app_name := app_AppName a; ar_app_key := app_AppKey a; ar_version := app_Version a;
     ar_release_key := app_ReleaseKey a; ar_stage := app_Stage a; ar_state := state;
     ar_timestamp := timestamp |}.

(** [insertAppState]: takes the state lock itself. *)
Definition insertAppState (l : loc) : Agent string :=
  db DbPrepare;;
  let! timestamp := call Timestamp in
  let! a := with_state_lock l id in
  db DbExec;;
  modify (λ w, set_AppStates (AppStates w ++ [app_state_row a (app_CurrentState a) timestamp])%list w);;
  ret timestamp.

(** [UPDATE AppStates SET state, version, release_key WHERE app_key AND stage]. *)
Definition update_rows (a : App) (newState : AppState) (rows : list app_row) : list app_row :=
  map (λ r, if row_of_app (app_AppKey a) (app_Stage a) r
            then {| ar_app_name := ar_app_name r; ar_app_key := ar_app_key r;
                    ar_version := app_Version a; ar_release_key := app_ReleaseKey a;
                    ar_stage := ar_stage r; ar_state := newState; ar_timestamp := ar_timestamp r |}
            else r) rows.

(** The requested-state row follows the new state and the app's live target. *)
Definition follow_requested (a : App) (newState : AppState) (p : TransitionPayload) : TransitionPayload :=
  with_ReleaseKey (app_ReleaseKey a)
    (with_PresentVersion (app_Version a)
      (with_RequestedState (app_RequestedState a)
        (with_CurrentState newState p))).

(** [UpsertAppState] after its query has succeeded. *)
Definition write_app_state (l : loc) (newState : AppState) : Agent string :=
  let! a := read_app l in
  let! rows := gets AppStates in
  match List.find (row_of_app (app_AppKey a) (app_Stage a)) rows with
  | None =>
      db_or DbClose (unlock_state l);;
      unlock_state l;;
      insertAppState l
  | Some cur =>
      let! scanned := call (Db DbScan) in
      match scanned with
      | inr _ => unlock_state l;; db DbClose;; ret ""
      | inl _ =>
          if bool_decide (ar_state cur = newState) && String.eqb (ar_version cur) (app_Version a)
             && (ar_release_key cur =? app_ReleaseKey a)%N
          then db_or DbClose (unlock_state l);; unlock_state l;; ret ""
          else
            db_or DbClose (unlock_state l);;
            db_or DbPrepare (unlock_state l);;
            let! historyTimestamp := call Timestamp in
            db_or DbExec (unlock_state l);;
            modify (λ w, set_AppStateHistory
              (AppStateHistory w ++ [app_state_row a (ar_state cur) historyTimestamp])%list w);;
            db_or DbClose (unlock_state l);;
            db_or DbPrepare (unlock_state l);;
            db_or DbExec (unlock_state l);;
            modify (λ w, set_AppStates (update_rows a newState (AppStates w)) w);;
            db_or DbClose (unlock_state l);;
            let! requested := try_ (GetRequestedState (app_AppKey a) (app_Stage a)) in
            match requested with
            | inl p =>
                let! r := try_ (UpsertRequestedStateChange (follow_requested a newState p)) in
                match r with
                | inl _ => unlock_state l;; ret historyTimestamp
                | inr e => unlock_state l;; throw e
                end
            | inr _ => unlock_state l;; ret historyTimestamp
            end
      end
  end.

(** [UpsertAppState] holds the app's state lock; most failing paths release it, the
    one after a failing query does not, and a failing scan returns no error. *)
Definition UpsertAppState (l : loc) (newState : AppState) : Agent string :=
  lock_state l;;
  db_or DbPrepare (unlock_state l);;
  db DbQuery;;
  write_app_state l newState.

(** An app as it is read back from its row. *)
Definition app_of_row (r : app_row) : App :=
  {| app_AppKey := ar_app_key r; app_DeviceToAppKey := 0; app_RequestorAccountKey := 0;
     app_ReleaseKey := ar_release_key r; app_AppName := ar_app_name r;
     app_RequestedState := empty_state; app_CurrentState := ar_state r;
     app_UpdateStatus := NoUpdateStatus; app_Stage := ar_stage r; app_RequestUpdate := false;
     app_ReleaseBuild := false; app_Version := ar_version r; app_LastUpdated := ar_timestamp r;
     app_locked := false; app_state_lock := false |}.

Definition with_requested (p : TransitionPayload) (a : App) : App :=
  app_set_RequestedState (tp_RequestedState p) (app_set_RequestorAccountKey (tp_RequestorAccountKey p) a).

Definition GetAppState (aKey : N) (aStage : Stage) : Agent (option App) :=
  db DbPrepare;;
  db DbQuery;;
  let! rows := gets AppStates in
  match List.find (row_of_app aKey aStage) rows with
  | None => best_effort (Db DbClose);; ret None
  | Some r =>
      db_or DbScan (best_effort (Db DbClose));;
      db DbClose;;
      let! requested := try_ (GetRequestedState (ar_app_key r) (ar_stage r)) in
      match requested with
      | inl p => ret (Some (with_requested p (app_of_row r)))
      | inr _ => ret (Some (app_of_row r))
      end
  end.

Definition adopt_requested (requested : list TransitionPayload) (a : App) : App :=
  foldl (λ a p, if (app_AppKey a =? tp_AppKey p)%N && bool_decide (app_Stage a = tp_Stage p)
                then with_requested p a else a) a requested.

Definition GetAppStates : Agent (list App) :=
  db DbQuery;;
  let! rows := gets AppStates in
  for_each rows (λ _, db DbScan);;
  db DbClose;;
  let! requested := GetRequestedStates in
  ret (map (adopt_requested requested) (map app_of_row rows)).

Definition DeleteAppState (aKey : N) (aStage : Stage) : Agent unit :=
  db DbPrepare;;
  db DbExec;;
  modify (λ w, set_AppStates
    (List.filter (λ r, negb (row_of_app aKey aStage r)) (AppStates w)) w).

(** ** The app store *)

Fixpoint find_app (aKey : N) (aStage : Stage) (h : gmap nat App) (ls : list loc) : option loc :=
  match ls with
  | [] => None
  | l :: ls' =>
      match h !! l with
      | Some a => if (app_AppKey a =? aKey)%N && bool_decide (app_Stage a = aStage) then Some l
                  else find_app aKey aStage h ls'
      | None => find_app aKey aStage h ls'
      end
  end.

Definition GetApp (aKey : N) (aStage : Stage) : Agent (option loc) :=
  let! found := gets (λ w, find_app aKey aStage (heap w) (apps w)) in
  match found with
  | Some l => ret (Some l)
  | None =>
      let! a := GetAppState aKey aStage in
      match a with
      | None => ret None
      | Some a => let! l := alloc_app a in ret (Some l)
      end
  end.

Definition app_of_payload (p : TransitionPayload) : App :=
  {| app_AppKey := tp_AppKey p; app_DeviceToAppKey := tp_DeviceToAppKey p;
     app_RequestorAccountKey := tp_RequestorAccountKey p; app_ReleaseKey := tp_ReleaseKey p;
     app_AppName := tp_AppName p; app_RequestedState := tp_RequestedState p;
     app_CurrentState := if bool_decide (tp_CurrentState p = empty_state) then REMOVED
                         else tp_CurrentState p;
     app_UpdateStatus := NoUpdateStatus; app_Stage := tp_Stage p;
     app_RequestUpdate := tp_RequestUpdate p; app_ReleaseBuild := false;
     app_Version := tp_PresentVersion p; app_LastUpdated := "";
     app_locked := false; app_state_lock := false |}.

(** The app stays in memory even when its row cannot be written. *)
Definition AddApp (p : TransitionPayload) : Agent loc :=
  let! l := alloc_app (app_of_payload p) in
  let! st := with_state_lock l app_CurrentState in
  UpsertAppState l st;;
  ret l.

Definition UpdateLocalRequestedState (p : TransitionPayload) : Agent unit := UpsertRequestedStateChange p.

(** [LastUpdated] takes whatever timestamp came back, the empty one included. *)
Definition UpdateLocalAppState (l : loc) (stateToSet : AppState) : Agent unit :=
  let! r := try_ (UpsertAppState l stateToSet) in
  let timestamp := match r with inl t => t | inr _ => "" end in
  update_locked l (app_set_LastUpdated timestamp);;
  match r with inl _ => ret tt | inr e => throw e end.

Definition confirm_update (a : App) : App :=
  if bool_decide (app_UpdateStatus a = PENDING_REMOTE_CONFIRMATION)
  then app_set_UpdateStatus COMPLETED a else a.

Definition actual_of (a : App) (stateToSet : AppState) : actual_state :=
  {| as_app_key := app_AppKey a; as_stage := app_Stage a; as_state := stateToSet;
     as_release_key := app_ReleaseKey a; as_request_update := app_RequestUpdate a;
     as_release_build := app_ReleaseBuild a; as_update_status := app_UpdateStatus a |}.

Definition UpdateRemoteAppState (l : loc) (stateToSet : AppState) : Agent unit :=
  let! a := read_app l in
  callE (SetActualAppOnDeviceState (actual_of a stateToSet));;
  update_locked l confirm_update.

Definition GetRegistryToken (callerID : N) : Agent string :=
  let! args := callE (World.GetRegistryToken callerID) in
  match args with
  | None => ret ""
  | Some (VStr token :: _) => ret token
  | Some (_ :: _) => throw (Plain "invalid registry_token payload")
  | Some [] => panic
  end.

(** [strings.EqualFold] on ASCII text. *)
Definition equal_fold_name (s t : string) : bool := String.eqb (to_lower s) (to_lower t).

Definition GetAppByContainerName (containerName : string) : Agent (option loc) :=
  gets (λ w, List.find (λ l, match heap w !! l with
    | Some a => equal_fold_name (stage_string (app_Stage a) +:+ "_" +:+ itoa (app_AppKey a)
                  +:+ "_" +:+ app_AppName a) containerName
    | None => false end) (apps w)).
End store.
