(* ===== verification/Observer.v ===== *)
(** * State observer: notification and correction (src/src/apps/state_observer.go)

    [Notify] is how every state change is recorded in memory, in the database and at
    the backend; the correction pass derives the state of each app from what Docker
    reports. *)
From S2P Require Import Prelude Errdefs GoValue Common Records Effects HostPorts World Store.
Open Scope go_scope.

Section observer.
Context `{GoRuntime} `{Host}.

Definition wants_teardown (s : AppState) : bool :=
  bool_decide (s = REMOVED) || bool_decide (s = UNINSTALLED).

Definition NotifyLocal (l : loc) (achievedState : AppState) : Agent unit :=
  update_locked l (app_set_CurrentState achievedState);;
  let! a := read_app l in
  UpdateLocalAppState l achievedState;;
  if bool_decide (achievedState = REMOVED) then
    let! r := try_ (GetRequestedState (app_AppKey a) (app_Stage a)) in
    match r with
    | inr _ => ret tt
    | inl requested =>
        when (wants_teardown (tp_RequestedState requested))
          (ignore (DeleteAppState (app_AppKey a) (app_Stage a));;
           ignore (DeleteRequestedState (app_AppKey a) (app_Stage a)))
    end
  else ret tt.

Definition NotifyRemote (l : loc) (achievedState : AppState) : Agent unit :=
  UpdateRemoteAppState l achievedState.

Definition Notify (l : loc) (achievedState : AppState) : Agent unit :=
  NotifyLocal l achievedState;;
  NotifyRemote l achievedState.

(** ** What Docker shows of an app *)

Definition has_tag (imageName : string) (images : list Image) : bool :=
  existsb (λ i, existsb (λ tag, str_contains imageName tag) (im_RepoTags i)) images.

Fixpoint missing_services (images : list Image) (services : gomap) : list string + error :=
  match services with
  | [] => inl []
  | (serviceName, service) :: rest =>
      match as_map service with
      | None => inr (Plain "failed to infer service")
      | Some m =>
          match missing_services images rest with
          | inr e => inr e
          | inl names =>
              inl match map_index "image" m with
                  | VNil => names
                  | image => if has_tag (sprint image) images then names else serviceName :: names
                  end
          end
      end
  end.

Definition composeServicesWithMissingImages (dockerCompose : gomap) (images : list Image)
    : list string + error :=
  match compose_services dockerCompose with
  | None => inr (Plain "failed to infer services")
  | Some services =>
      match missing_services images services with
      | inl names => inl (sort_strings names)
      | inr e => inr e
      end
  end.

(** One app state for all the containers of a compose project. *)
Fixpoint aggregate_from (aggregated : AppState) (containers : list Cont) : AppState :=
  match containers with
  | [] => aggregated
  | c :: rest =>
      if String.eqb (ct_State c) "running" then RUNNING
      else aggregate_from
        (if String.eqb (ct_State c) "exited" && (0 <? ct_ExitCode c)%Z then FAILED else aggregated) rest
  end.

Definition aggregateContainerResults (containers : list Cont) : AppState :=
  aggregate_from PRESENT containers.

Definition listComposeProjectContainers (composeAppName : string) : Agent (list Cont) :=
  callE (CtrListProject (NormalizeComposeProjectName composeAppName)).

Definition compose_dir (appName : string) (stage : Stage) : string :=
  (if bool_decide (stage = DEV) then cfg_AppsBuildDir config else cfg_AppsComposeDir config)
  +:+ "/" +:+ appName.

Definition HasComposeDir (appName : string) (stage : Stage) : Agent bool :=
  call (FsExists (compose_dir appName stage)).

(** ** Correction *)

Definition corrected_with_container (current fromContainer : AppState) : AppState :=
  match current with
  | DOWNLOADING | TRANSFERING | BUILDING | PUBLISHING => REMOVED
  | UPDATING => PRESENT
  | _ => fromContainer
  end.

Definition corrected_without_container (current : AppState) (foundImage : bool) : AppState :=
  match current with
  | DOWNLOADING | TRANSFERING | PUBLISHING | BUILDING | UPDATING =>
      if foundImage then PRESENT else REMOVED
  | _ =>
      if foundImage then PRESENT
      else if bool_decide (current = UNINSTALLED) then UNINSTALLED else REMOVED
  end.

Definition corrected_compose_without_containers (current : AppState)
    (hasComposeDir foundAllImages : bool) : AppState :=
  if negb hasComposeDir then
    if bool_decide (current = UNINSTALLED) then UNINSTALLED else REMOVED
  else if foundAllImages then PRESENT else UNINSTALLED.

(** [if updateRemote { Notify } else if changed { NotifyLocal }]. *)
Definition settle (l : loc) (current corrected : AppState) (updateRemote : bool) : Agent unit :=
  if updateRemote then Notify l corrected
  else when (negb (bool_decide (current = corrected))) (NotifyLocal l corrected).

Definition notify_either (l : loc) (corrected : AppState) (updateRemote : bool) : Agent unit :=
  if updateRemote then Notify l corrected else NotifyLocal l corrected.

Definition CorrectComposeAppState (requestedState : TransitionPayload) (images : list Image)
    (composeListEntry : list ComposeListEntry) (updateRemote : bool) : Agent unit :=
  let composeName := BuildComposeContainerName (tp_Stage requestedState) (tp_AppKey requestedState)
                       (tp_AppName requestedState) in
  let! found := GetApp (tp_AppKey requestedState) (tp_Stage requestedState) in
  match found with
  | None => ret tt
  | Some l =>
      if negb (existsb (λ e, String.eqb (cle_Name e) composeName) composeListEntry) then
        let! current := with_state_lock l app_CurrentState in
        let! missing := lift (composeServicesWithMissingImages
                          (default [] (tp_DockerCompose requestedState)) images) in
        let! a := read_app l in
        let! hasComposeDir := HasComposeDir (app_AppName a) (app_Stage a) in
        settle l current
          (corrected_compose_without_containers current hasComposeDir
             (bool_decide (missing = []))) updateRemote
      else
        let! containers := listComposeProjectContainers composeName in
        let! current := with_state_lock l app_CurrentState in
        ignore (notify_either l
          (corrected_with_container current (aggregateContainerResults containers)) updateRemote)
  end.

(** The stage's registry image; the empty text for any other stage. *)
Definition stage_image (p : TransitionPayload) : string :=
  match tp_Stage p with
  | DEV => Dev (tp_RegistryImageName p)
  | PROD => Prod (tp_RegistryImageName p)
  | OtherStage _ => ""
  end.

Definition first_tag_contains (name : string) (images : list Image) : bool :=
  existsb (λ i, match im_RepoTags i with tag :: _ => str_contains name tag | [] => false end) images.

Definition CorrectAppState (rState : TransitionPayload) (allImages : list Image)
    (updateRemote : bool) : Agent bool :=
  let containerName := BuildContainerName (tp_Stage rState) (tp_AppKey rState) (tp_AppName rState) in
  let! found := GetApp (tp_AppKey rState) (tp_Stage rState) in
  match found with
  | None => ret false
  | Some l =>
      let! st := call (CtrState containerName) in
      match st with
      | inr e =>
          if negb (IsContainerNotFound e) then throw e
          else
            let! current := with_state_lock l app_CurrentState in
            ignore (settle l current
              (corrected_without_container current
                 (first_tag_contains (stage_image rState) allImages)) updateRemote);;
            ret true
      | inl container =>
          let! fromContainer := lift (ContainerStateToAppState (st_Status container) (st_ExitCode container)) in
          let! current := with_state_lock l app_CurrentState in
          ignore (notify_either l (corrected_with_container current fromContainer) updateRemote);;
          ret true
      end
  end.

(** The throttle between apps, skipped after the last one. *)
Definition throttle (updateRemote : bool) (rest : list TransitionPayload) : Agent unit :=
  when (updateRemote && negb (bool_decide (length rest = 0%nat))) (call (Sleep 100000000)).

Fixpoint correct_all (rStates : list TransitionPayload) (allImages : list Image)
    (entries : list ComposeListEntry) (updateRemote : bool) : Agent unit :=
  match rStates with
  | [] => ret tt
  | rState :: rest =>
      let! notified := (match tp_DockerCompose rState with
        | Some _ => CorrectComposeAppState rState allImages entries updateRemote;; ret true
        | None => CorrectAppState rState allImages updateRemote
        end) in
      when notified (throttle updateRemote rest);;
      correct_all rest allImages entries updateRemote
  end.

Definition compose_list : Agent (list ComposeListEntry) :=
  let! supported := gets composeSupported in
  if supported then callE ComposeList else ret [].

Definition CorrectAppStates (updateRemote : bool) : Agent unit :=
  let! rStates := GetRequestedStates in
  let! allImages := callE (ImgList "") in
  let! entries := compose_list in
  correct_all rStates allImages entries updateRemote.
End observer.
