(* ===== verification/Launch.v ===== *)
(** * Launching apps: host ports, compose files, image pulls, containers

    The steps the transitions share (hostports_resolve.go, build_app.go, pull_app.go
    and the launch half of run_app.go). *)
From S2P Require Import Prelude Errdefs GoValue Common Records Effects HostPorts ComposePorts World TunnelRules.
From S2P Require Import EnvVars Store Observer.
Open Scope go_scope.

Section launch.
Context `{GoRuntime} `{Host}.

(** [setState]: [StateObserver.Notify]. *)
Definition setState (l : loc) (state : AppState) : Agent unit := Notify l state.

Definition log_write (topic message : string) : Agent unit := callE (LogWrite topic message).

(** ** Host port resolution *)

Definition hostPortKeyForRule (stage : Stage) (appKey : N) (rule : PortForwardRule) : hostPortKey :=
  {| hk_Stage := stage; hk_AppKey := appKey; hk_Protocol := wireProtocol (pr_Protocol rule);
     hk_Port := pr_Port rule; hk_Service := "" |}.

Definition publishedComposeHostPorts (p : TransitionPayload) : Agent (list (string * N)) :=
  let! r := call (CtrComposePublishedPorts (BuildComposeContainerName (tp_Stage p) (tp_AppKey p) (tp_AppName p))) in
  ret match r with inl published => published | inr _ => [] end.

Definition bindingKey (port : N) (protocol : string) : string := itoa port +:+ "/" +:+ protocol.

Definition port_at (k : string) (m : list (string * N)) : N := default 0%N (map_get k m).

Definition findComposeRulePort (p : TransitionPayload) (rule : PortForwardRule) : Agent (string * N) :=
  match List.find (λ e, matchesRule e (pr_Port rule) (pr_Protocol rule))
          (parseComposePorts (default [] (tp_DockerCompose p))) with
  | None => ret ("", 0%N)
  | Some entry =>
      let! published := publishedComposeHostPorts p in
      ret (ce_Service entry,
           port_at (PublishedPortKey (ce_Service entry) (ce_ContainerPort entry) (ce_Protocol entry)) published)
  end.

Definition with_service_key (service : string) (k : hostPortKey) : hostPortKey :=
  if String.eqb service "" then k
  else {| hk_Stage := hk_Stage k; hk_AppKey := hk_AppKey k; hk_Protocol := hk_Protocol k;
          hk_Port := hk_Port k; hk_Service := service |}.

(** What recovery prefers for a rule: [inl port] settles on a port at once. *)
Definition preferred_tunnel_port (p : TransitionPayload) (rule : PortForwardRule) :
    Agent (N + (hostPortKey * N)) :=
  let key := hostPortKeyForRule (tp_Stage p) (tp_AppKey p) rule in
  match tp_DockerCompose p with
  | Some _ =>
      let! (service, published) := findComposeRulePort p rule in
      ret (inr (with_service_key service key,
                if (published =? 0)%N then pr_HostPort rule else published))
  | None =>
      let containerName := stage_container_name (tp_Stage p) p in
      let! r := call (CtrPortBindings containerName) in
      match r with
      | inr _ => ret (inr (key, pr_HostPort rule))
      | inl bindings =>
          let bound := port_at (bindingKey (pr_Port rule) (wireProtocol (pr_Protocol rule))) bindings in
          if negb (bound =? 0)%N then ret (inr (key, bound))
          else if bool_decide (length bindings = 0%nat) then
            let! mode := call (CtrNetworkMode containerName) in
            match mode with
            | inl "host" => ret (inl (pr_Port rule))
            | _ => ret (inr (key, pr_HostPort rule))
            end
          else ret (inr (key, pr_HostPort rule))
      end
  end.

Definition resolveTunnelHostPort (p : TransitionPayload) (rule : PortForwardRule) : Agent (option N) :=
  let! registered := gets (λ w, GetByPort (hostPorts w) (tp_Stage p) (tp_AppKey p)
                                  (wireProtocol (pr_Protocol rule)) (pr_Port rule)) in
  match registered with
  | Some hostPort => ret (Some hostPort)
  | None =>
      let! pref := preferred_tunnel_port p rule in
      match pref with
      | inl port => ret (Some port)
      | inr (key, preferred) =>
          if (preferred =? 0)%N then ret None
          else
            let! r := try_ (recover_or_reserve key preferred) in
            ret match r with inl hostPort => Some hostPort | inr _ => None end
      end
  end.

(** DEV apps get the port they wrote when it is free and nothing was published yet. *)
Definition reserve_launch (stage : Stage) (key : hostPortKey) (preferred : N) : Agent N :=
  let! declared := (if bool_decide (stage = DEV) && (preferred =? 0)%N
                    then reserve_declared key else ret false) in
  if declared then ret (hk_Port key) else recover_or_reserve key preferred.

Definition reserveLaunchHostPort (p : TransitionPayload) (rule : PortForwardRule)
    (liveBindings : list (string * N)) : Agent N :=
  let key := hostPortKeyForRule (tp_Stage p) (tp_AppKey p) rule in
  let live := port_at (bindingKey (pr_Port rule) (hk_Protocol key)) liveBindings in
  reserve_launch (tp_Stage p) key (if (live =? 0)%N then pr_HostPort rule else live).

Fixpoint bind_rules (p : TransitionPayload) (containerName : string) (liveBindings : list (string * N))
    (rules : list PortForwardRule) (exposed : list string) (bindings : list (string * string)) :
    Agent (list string * list (string * string)) :=
  match rules with
  | [] => ret (exposed, bindings)
  | rule :: rest =>
      let! hostPort := reserveLaunchHostPort p rule liveBindings in
      when (bool_decide (tp_Stage p = DEV) && negb (hostPort =? pr_Port rule)%N)
        (best_effort (LogWrite containerName
          ("Port " +:+ itoa (pr_Port rule) +:+ " is already in use by another app; port "
           +:+ itoa (pr_Port rule) +:+ " of " +:+ tp_AppName p +:+ " is reachable on host port "
           +:+ itoa hostPort +:+ " instead.")));;
      let! containerPort := lift (nat_new_port (wireProtocol (pr_Protocol rule)) (itoa (pr_Port rule))) in
      bind_rules p containerName liveBindings rest
        (if bool_decide (containerPort ∈ exposed) then exposed else exposed ++ [containerPort])%list
        (map_set containerPort (itoa hostPort) bindings)
  end.

Definition computePortBindings (p : TransitionPayload) (portRules : list PortForwardRule)
    (containerName : string) : Agent (list string * list (string * string)) :=
  match List.filter (λ rule, String.eqb (pr_LocalIP rule) "") portRules with
  | [] => ret ([], [])
  | publishableRules =>
      let! r := call (CtrPortBindings containerName) in
      let liveBindings := match r with inl b => b | inr _ => [] end in
      bind_rules p containerName liveBindings publishableRules [] []
  end.

(** ** Compose ports *)

Definition entry_leb (e1 e2 : composePortEntry) : bool :=
  if negb (DeclaredPort e1 =? DeclaredPort e2)%N then (DeclaredPort e1 <? DeclaredPort e2)%N
  else if negb (String.eqb (ce_Service e1) (ce_Service e2))
       then String.ltb (ce_Service e1) (ce_Service e2)
       else String.leb (ce_Protocol e1) (ce_Protocol e2).

Definition entry_le (e1 e2 : composePortEntry) : Prop := entry_leb e1 e2 = true.
#[local] Instance entry_le_dec : RelDecision entry_le.
Proof. intros e1 e2. unfold entry_le. apply _. Defined.

Definition compose_key (p : TransitionPayload) (entry : composePortEntry) : hostPortKey :=
  {| hk_Stage := tp_Stage p; hk_AppKey := tp_AppKey p; hk_Protocol := ce_Protocol entry;
     hk_Port := DeclaredPort entry; hk_Service := ce_Service entry |}.

Definition devicePortEnvsForCompose (r : HostPortRegistry) (p : TransitionPayload)
    (dockerCompose : gomap) : list string :=
  devicePortEnvLines (foldl (λ m entry,
    if negb (ce_Rewritable entry) then m
    else match Get r (compose_key p entry) with
         | Some hostPort => insert_absent (DeclaredPort entry) hostPort m
         | None => m
         end) [] (merge_sort entry_le (parseComposePorts dockerCompose))).

Definition rewrite_port (p : TransitionPayload) (published : list (string * N))
    (portRules : list PortForwardRule) (serviceName : string) (raw : goval) : Agent goval :=
  let entry := with_service serviceName (parseComposePortEntry raw) in
  if negb (ce_Rewritable entry) then ret raw
  else
    let matchingRule := List.find (λ rule, String.eqb (pr_LocalIP rule) ""
      && matchesRule entry (pr_Port rule) (pr_Protocol rule)) portRules in
    match (ce_HostPort entry =? 0)%N, matchingRule with
    | true, None => ret raw
    | _, _ =>
        let live := port_at (PublishedPortKey serviceName (ce_ContainerPort entry) (ce_Protocol entry)) published in
        let preferred := match matchingRule with
          | Some rule => if (live =? 0)%N then pr_HostPort rule else live
          | None => live
          end in
        let key := compose_key p entry in
        let! declared := (if bool_decide (tp_Stage p = DEV) && (preferred =? 0)%N
                          then reserve_declared key else ret false) in
        let! hostPort := (if declared then ret (hk_Port key)
          else
            let! hostPort := recover_or_reserve key preferred in
            when (bool_decide (tp_Stage p = DEV) && negb (hostPort =? DeclaredPort entry)%N)
              (best_effort (LogWrite (Dev (tp_ContainerName p))
                ("Port " +:+ itoa (DeclaredPort entry) +:+ " is already in use by another app; port "
                 +:+ itoa (ce_ContainerPort entry) +:+ " of service " +:+ serviceName
                 +:+ " is reachable on host port " +:+ itoa hostPort +:+ " instead.")));;
            ret hostPort) in
        ret (rewriteComposePortEntry entry "0.0.0.0" hostPort)
    end.

Fixpoint rewrite_services (p : TransitionPayload) (published : list (string * N))
    (portRules : list PortForwardRule) (services : gomap) : Agent gomap :=
  match services with
  | [] => ret []
  | (serviceName, serviceInterface) :: rest =>
      let! service := (match as_map serviceInterface with
        | None => ret serviceInterface
        | Some service =>
            match as_list (map_index "ports" service) with
            | None => ret serviceInterface
            | Some ports =>
                let! rewritten := map_m ports (rewrite_port p published portRules serviceName) in
                ret (VMap (map_set "ports" (VList rewritten) service))
            end
        end) in
      let! rest := rewrite_services p published portRules rest in
      ret ((serviceName, service) :: rest)
  end.

Definition rewriteComposeHostPorts (p : TransitionPayload) (dockerCompose : gomap) : Agent gomap :=
  let! published := publishedComposeHostPorts p in
  let! portRules := lift (InterfaceToPortForwardRule (tp_Ports p)) in
  match compose_services dockerCompose with
  | None => ret dockerCompose
  | Some services =>
      let! services := rewrite_services p published portRules services in
      ret (map_set "services" (VMap services) dockerCompose)
  end.

(** ** Bind conflicts *)

Definition isPortAllocationError (e : error) : bool :=
  str_contains "port is already allocated" (error_text e)
  || str_contains "address already in use" (error_text e).

(** Reassign one key when its port occurs in the message. *)
Definition reassign_key (message : string) (key : hostPortKey) : Agent bool :=
  let! assigned := gets (λ w, Get (hostPorts w) key) in
  match assigned with
  | None => ret false
  | Some hostPort =>
      if negb (str_contains (":" +:+ itoa hostPort) message) then ret false
      else
        let! r := try_ (reassign_fresh key) in
        ret match r with inl _ => true | inr _ => false end
  end.

Fixpoint reassign_keys (message : string) (keys : list hostPortKey) (reassigned : bool) : Agent bool :=
  match keys with
  | [] => ret reassigned
  | key :: rest =>
      let! r := reassign_key message key in
      reassign_keys message rest (reassigned || r)
  end.

Definition reassignComposePortsAfterBindConflict (p : TransitionPayload) (bindErr : error) : Agent bool :=
  match tp_DockerCompose p with
  | None => ret false
  | Some dc =>
      reassign_keys (error_text bindErr)
        (map (compose_key p) (List.filter ce_Rewritable (parseComposePorts dc))) false
  end.

Definition reassignPortsAfterBindConflict (p : TransitionPayload) (bindErr : error) : Agent bool :=
  match InterfaceToPortForwardRule (tp_Ports p) with
  | inr _ => ret false
  | inl portRules =>
      reassign_keys (error_text bindErr)
        (map (hostPortKeyForRule (tp_Stage p) (tp_AppKey p))
          (List.filter (λ rule, String.eqb (pr_LocalIP rule) "") portRules)) false
  end.

(** ** Compose files *)

Definition DockerFileName : string := "docker-compose.json".
Definition DotEnvFileName : string := ".env-compose".

Definition deepCopyCompose (dockerCompose : gomap) : gomap :=
  default [] (as_map (json_roundtrip (VMap dockerCompose))).

Definition template_defaults (p : TransitionPayload) : Agent (list string) :=
  of_option (EnvironmentTemplateToStringArray (default [] (tp_EnvironmentTemplate p))).

Definition generateDotEnvContents (p : TransitionPayload) (l : loc) (dockerCompose : gomap)
    : Agent (string * list string) :=
  let! systemDefaultVariables := default_environment p l in
  let! environmentVariables := of_option
    (buildProdEnvironmentVariables systemDefaultVariables (tp_EnvironmentVariables p)) in
  let! environmentTemplateDefaults := template_defaults p in
  let! envLines := (if bool_decide (tp_Stage p = DEV)
    then ret (systemDefaultVariables ++ environmentTemplateDefaults)%list
    else
      let missing := missingDefaultEnvs environmentVariables environmentTemplateDefaults in
      let! portRules := lift (InterfaceToPortForwardRule (tp_Ports p)) in
      let! a := read_app l in
      let! remotePortEnvs := remotePortEnvVars (app_AppName a) portRules in
      ret (environmentVariables ++ remotePortEnvs ++ missing)%list) in
  let! r := gets hostPorts in
  let '(validLines, skippedKeys) :=
    filterValidDotEnvLines (envLines ++ devicePortEnvsForCompose r p dockerCompose)%list in
  ret (join_with newline validLines, skippedKeys).

(** The additions every service gets; a service that is not a map is an error. *)
Fixpoint prepare_services (envFilesHostDir : string) (services : gomap) : gomap + error :=
  match services with
  | [] => inl []
  | (serviceName, serviceInterface) :: rest =>
      match as_map serviceInterface with
      | None => inr (Plain "failed to infer service")
      | Some service =>
          match prepare_services envFilesHostDir rest with
          | inr e => inr e
          | inl rest =>
              inl ((serviceName,
                VMap (addComposeEnvFilesMount
                  (addComposeExtraHost (map_set "env_file" (VStr DotEnvFileName) service))
                  envFilesHostDir)) :: rest)
          end
      end
  end.

Definition parent_dir (appName : string) (stage : Stage) : string :=
  cfg_AppsDirectory config +:+ "/" +:+ to_lower (stage_string stage) +:+ "/" +:+ to_lower appName.

Definition SetupComposeFiles (p : TransitionPayload) (l : loc) (updatingApp : bool) : Agent string :=
  let! a := read_app l in
  let targetDir := if bool_decide (tp_Stage p = PROD) then cfg_AppsComposeDir config
                   else cfg_AppsBuildDir config in
  let targetAppDir := targetDir +:+ "/" +:+ app_AppName a in
  let dockerComposeFilePath := targetAppDir +:+ "/" +:+ DockerFileName in
  let dotEnvFilePath := targetAppDir +:+ "/" +:+ DotEnvFileName in
  let! sourceCompose := of_option (match tp_NewDockerCompose p with
    | Some new => if updatingApp then Some new else tp_DockerCompose p
    | None => tp_DockerCompose p
    end) in
  let dockerCompose := map_set "name"
    (VStr (BuildComposeContainerName (tp_Stage p) (app_AppKey a) (app_AppName a)))
    (deepCopyCompose sourceCompose) in
  let! services := (match compose_services dockerCompose with
    | Some services => ret services
    | None => throw (Plain "failed to infer services")
    end) in
  let! services := lift (prepare_services (appEnvFilesHostDir (tp_Stage p) (app_AppName a)) services) in
  let! dockerCompose := rewriteComposeHostPorts p (map_set "services" (VMap services) dockerCompose) in
  let! exists_ := call (FsExists targetAppDir) in
  when (negb exists_) (callE (FsMkdirAll targetAppDir));;
  let! (dotEnvFileContents, skippedEnvKeys) := generateDotEnvContents p l sourceCompose in
  when (negb (bool_decide (skippedEnvKeys = [])))
    (best_effort (LogWrite (if bool_decide (tp_Stage p = PROD) then Prod (tp_ContainerName p)
                            else Dev (tp_ContainerName p))
      ("Warning: ignored environment variable(s) with invalid name(s): "
       +:+ join_with " " skippedEnvKeys)));;
  callE (FsWriteFile dotEnvFilePath (FText dotEnvFileContents));;
  let! r := try_ (writeEnvironmentVariablesToFiles (parent_dir (app_AppName a) (tp_Stage p))
                    (split_on newline dotEnvFileContents)) in
  match r with
  | inr e => throw (Annotated "failed to write environment variables to files" e)
  | inl _ =>
      callE (FsWriteFile dockerComposeFilePath (FJson (VMap dockerCompose)));;
      ret dockerComposeFilePath
  end.

(** ** Registry logins *)

(** The payload's credential map is shared: the agent's own registry is added to it
    for whoever reads the payload afterwards, unless there was no map at all. *)
Definition HandleRegistryLoginsWithDefault (p : TransitionPayload) : Agent TransitionPayload :=
  let credentials := map_set (cfg_DockerRegistryURL config)
    {| Username := tp_RegisteryToken p; Password := cfg_Secret config |}
    (default [] (tp_DockerCredentials p)) in
  callE (RegistryLogins credentials);;
  ret (match tp_DockerCredentials p with
       | Some _ => with_DockerCredentials (Some credentials) p
       | None => p
       end).

(** A failing login is written to the app's log before it is returned. *)
Definition logins_or_report (topic : string) (p : TransitionPayload) : Agent TransitionPayload :=
  let! r := try_ (HandleRegistryLoginsWithDefault p) in
  match r with
  | inl p' => ret p'
  | inr e => log_write topic (error_text e);; throw e
  end.

(** ** Cancelable compose transitions *)

Definition composeTransitionKey (stage : Stage) (appKey : N) : string :=
  stage_string stage +:+ "_" +:+ itoa appKey.

Definition registerComposeTransitionCancel (stage : Stage) (appKey : N) (ctx : nat) : Agent unit :=
  modify (λ w, set_composeTransitionCancels
    (<[composeTransitionKey stage appKey := ctx]> (composeTransitionCancels w)) w).

Definition clearComposeTransitionCancel (stage : Stage) (appKey : N) : Agent unit :=
  modify (λ w, set_composeTransitionCancels
    (delete (composeTransitionKey stage appKey) (composeTransitionCancels w)) w).

Definition cancelComposeTransition (stage : Stage) (appKey : N) : Agent bool :=
  let! ctx := gets (λ w, composeTransitionCancels w !! composeTransitionKey stage appKey) in
  match ctx with
  | Some c => cancel_context c;; ret true
  | None => ret false
  end.

(** The deferred cleanup of a cancelable transition. *)
Definition release_cancel (p : TransitionPayload) (ctx : nat) : Agent unit :=
  clearComposeTransitionCancel (tp_Stage p) (tp_AppKey p);;
  cancel_context ctx.

Definition composeTransitionErr (ctx : nat) (e : error) : Agent error :=
  let! c := context_canceled ctx in
  ret (if c then DockerStreamCanceled e else e).

(** [if err != nil { return composeTransitionErr(ctx, err) }]. *)
Definition cancelable (ctx : nat) (c : AgentCall (unit + error)) : Agent unit :=
  let! r := call c in
  match r with
  | inl _ => ret tt
  | inr e => let! e' := composeTransitionErr ctx e in throw e'
  end.

(** ** Pulls *)

Definition pullComposeImages (ctx : nat) (p : TransitionPayload) (dockerComposePath : string)
    (services : list string) : Agent unit :=
  cancelable ctx (ComposePull ctx dockerComposePath services);;
  cancelable ctx (LogStreamChannel (Prod (tp_ContainerName p)));;
  cancelable ctx ComposeWait.

Definition compose_not_supported : error :=
  DockerComposeNotSupported (Plain "docker compose is not supported").

Definition require_compose (topic : string) : Agent unit :=
  let! supported := gets composeSupported in
  if supported then ret tt
  else log_write topic "Docker Compose is not supported for this device";; throw compose_not_supported.

Definition teardownComposeProject (dockerComposePath : string) : Agent unit :=
  callE (ComposeStop dockerComposePath);;
  callE (ComposeRemove dockerComposePath).

Definition pullComposeApp (p : TransitionPayload) (l : loc) : Agent unit :=
  let topicForLogStream := Prod (tp_ContainerName p) in
  callE (LogClearHistory topicForLogStream);;
  let! ctx := new_context in
  registerComposeTransitionCancel (tp_Stage p) (tp_AppKey p) ctx;;
  finally
    (setState l DOWNLOADING;;
     let! dockerComposePath := SetupComposeFiles p l false in
     require_compose topicForLogStream;;
     teardownComposeProject dockerComposePath;;
     logins_or_report topicForLogStream p;;
     pullComposeImages ctx p dockerComposePath [];;
     log_write topicForLogStream "Compose Image Installed successfully";;
     setState l PRESENT)
    (release_cancel p ctx).

Definition auth_config (p : TransitionPayload) : AuthConfig :=
  {| au_Username := tp_RegisteryToken p; au_Password := cfg_Secret config |}.

(** A failing stream: a canceled one is announced, either is returned. *)
Definition stream_blocking (topic : string) (type : LogType) (canceledMessage : string) : Agent unit :=
  let! r := call (LogStreamBlocking topic type) in
  match r with
  | inl _ => ret tt
  | inr e =>
      when (IsDockerStreamCanceled e) (log_write topic canceledMessage);;
      throw e
  end.

Definition pull_or_report (topic image : string) (p : TransitionPayload) : Agent unit :=
  let! r := call (ImgPull image (auth_config p) (BuildDockerPullID (tp_AppKey p) (tp_AppName p))) in
  match r with
  | inl _ => ret tt
  | inr e =>
      best_effort (LogWrite topic ("Error occured while trying to pull the image: " +:+ error_text e));;
      throw e
  end.

Definition installed_message (p : TransitionPayload) : string :=
  "Succesfully installed the app: " +:+ tp_AppName p +:+ " (Version: " +:+ tp_NewestVersion p +:+ ")".

Definition pullApp (p : TransitionPayload) (l : loc) : Agent unit :=
  match tp_DockerCompose p with
  | Some _ => pullComposeApp p l
  | None =>
      if bool_decide (tp_Stage p = DEV) then throw (Plain "cannot pull dev apps")
      else
        let topic := Prod (tp_ContainerName p) in
        callE (LogClearRemote topic);;
        log_write topic ("Initialising download for the app: " +:+ tp_AppName p +:+ "...");;
        callE (LogClearHistory topic);;
        logins_or_report topic p;;
        pull_or_report topic (Prod (tp_RegistryImageName p) +:+ ":" +:+ tp_NewestVersion p) p;;
        setState l DOWNLOADING;;
        stream_blocking topic PULL "The app download was canceled";;
        log_write topic (installed_message p);;
        setState l PRESENT
  end.

(** ** Containers *)

Definition tolerate_exists (c : AgentCall (unit + error)) : Agent unit :=
  let! r := call c in
  match r with
  | inr e => if os_is_exist e then ret tt else throw e
  | inl _ => ret tt
  end.

Definition computeMounts (stage : Stage) (appName : string) : Agent (list Mount) :=
  let appSpecificDirectory := parent_dir appName stage in
  tolerate_exists (FsMkdirAll appSpecificDirectory);;
  let! w1 := (call (FsNotMissing "/sys/bus/w1/devices") : Agent bool) in
  let! cuda := (call (FsNotMissing "/usr/local/cuda") : Agent bool) in
  ret ([{| mt_Source := cfg_AppsSharedDir config; mt_Target := "/shared" |};
        {| mt_Source := appSpecificDirectory; mt_Target := "/data" |}]
       ++ (if w1 then [{| mt_Source := "/sys/bus/w1/devices"; mt_Target := "/sys/bus/w1/devices" |}] else [])
       ++ (if cuda then [{| mt_Source := "/usr/local/cuda"; mt_Target := "/usr/local/cuda" |}] else []))%list.

Definition write_env_files (dir : string) (envVars : list string) : Agent unit :=
  let! r := try_ (writeEnvironmentVariablesToFiles dir envVars) in
  match r with
  | inl _ => ret tt
  | inr e => throw (Annotated "failed to write environment variables to files" e)
  end.

Definition pull_if_missing (p : TransitionPayload) (l : loc) : Agent unit :=
  let! r := call (ImgGet (Prod (tp_RegistryImageName p)) (tp_PresentVersion p)) in
  match r with
  | inr e => when (IsImageNotFound e) (pullApp p l)
  | inl _ => ret tt
  end.

Definition computeContainerConfigs (p : TransitionPayload) (l : loc) : Agent (ContainerConfig * HostConfig) :=
  let! systemDefaultVariables := default_environment p l in
  let! environmentVariables := of_option
    (buildProdEnvironmentVariables systemDefaultVariables (tp_EnvironmentVariables p)) in
  let! environmentTemplateDefaults := template_defaults p in
  let! a := read_app l in
  let appSpecificDirectory := parent_dir (app_AppName a) (app_Stage a) in
  let! portRules := lift (InterfaceToPortForwardRule (tp_Ports p)) in
  let containerName := stage_container_name (app_Stage a) p in
  let! (exposedPorts, portBindings) := computePortBindings p portRules containerName in
  let devicePortEnvs := devicePortEnvsFromBindings portBindings in
  let! (image, env) := (if bool_decide (app_Stage a = DEV) then
      let allEnvVars := (systemDefaultVariables ++ environmentTemplateDefaults ++ devicePortEnvs)%list in
      write_env_files appSpecificDirectory allEnvVars;;
      ret (Dev (tp_RegistryImageName p), filterLargeEnvVars allEnvVars)
    else
      let fullImageNameWithTag := Prod (tp_RegistryImageName p) +:+ ":" +:+ app_Version a in
      pull_if_missing p l;;
      let missing := missingDefaultEnvs environmentVariables environmentTemplateDefaults in
      let! remotePortEnvs := remotePortEnvVars (app_AppName a) portRules in
      let allEnvVars := (environmentVariables ++ (remotePortEnvs ++ missing) ++ devicePortEnvs)%list in
      write_env_files appSpecificDirectory allEnvVars;;
      ret (fullImageNameWithTag, filterLargeEnvVars allEnvVars)) in
  let! mounts := computeMounts (app_Stage a) (app_AppName a) in
  let! nvidia := (call HasNvidiaGPU : Agent bool) in
  ret ({| cc_Image := image; cc_Env := env; cc_ExposedPorts := exposedPorts |},
       {| hc_Mounts := mounts; hc_NetworkMode := "bridge"; hc_PortBindings := portBindings;
          hc_ExtraHosts := [hostGatewayEntry]; hc_Runtime := if nvidia then "nvidia" else "" |}).

Definition normalizeNetworkMode (mode : string) : string :=
  if String.eqb mode "" || String.eqb mode "default" then "bridge" else mode.

Definition desired_bindings (portBindings : list (string * string)) : list (string * N) :=
  foldl (λ m kv, match parse_uint 64 kv.2 with Some p => map_set kv.1 p m | None => m end) [] portBindings.

Definition containerNetworkConfigOutdated (cont : Cont) (hConfig : HostConfig) (containerName : string)
    : Agent bool :=
  if negb (String.eqb (normalizeNetworkMode (ct_NetworkMode cont)) (normalizeNetworkMode (hc_NetworkMode hConfig)))
  then ret true
  else match hc_PortBindings hConfig with
  | [] => ret false
  | portBindings =>
      let! r := call (CtrPortBindings containerName) in
      match r with
      | inr _ => ret false
      | inl actual =>
          let desired := desired_bindings portBindings in
          ret (negb (Nat.eqb (length desired) (length actual))
               || existsb (λ kv, negb (port_at kv.1 actual =? kv.2)%N) desired)
      end
  end.

(** An error tolerated when the container is already gone. *)
Definition tolerate_not_found (c : AgentCall (unit + error)) : Agent unit :=
  let! r := call c in
  match r with
  | inr e => if IsContainerNotFound e then ret tt else throw e
  | inl _ => ret tt
  end.

Definition without_runtime (h : HostConfig) : HostConfig :=
  {| hc_Mounts := hc_Mounts h; hc_NetworkMode := hc_NetworkMode h; hc_PortBindings := hc_PortBindings h;
     hc_ExtraHosts := hc_ExtraHosts h; hc_Runtime := "" |}.

Definition create_fresh (p : TransitionPayload) (l : loc) (containerName : string)
    (cConfig : ContainerConfig) (hConfig : HostConfig) : Agent (string * HostConfig) :=
  let! r := call (CtrCreate containerName cConfig hConfig) in
  match r with
  | inl containerID => ret (containerID, hConfig)
  | inr e =>
      let! a := read_app l in
      when (IsImageNotFound e && bool_decide (app_Stage a = DEV))
        (best_effort (LogWrite containerName ("The image " +:+ Dev (tp_RegistryImageName p)
          +:+ " was not found on the device, try building the app again...")));;
      if str_contains "nvidia" (error_text e) then
        best_effort (CtrRemove "");;
        let hConfig := without_runtime hConfig in
        let! containerID := callE (CtrCreate containerName cConfig hConfig) in
        ret (containerID, hConfig)
      else throw e
  end.

(** The host configuration is passed by reference: the one in force afterwards is
    returned with the container's id. *)
Definition createContainer (p : TransitionPayload) (l : loc) (cConfig : ContainerConfig)
    (hConfig : HostConfig) : Agent (string * HostConfig) :=
  let! a := read_app l in
  let containerName := if bool_decide (app_Stage a = PROD) then Prod (tp_ContainerName p)
                       else Dev (tp_ContainerName p) in
  let! r := call (CtrGet containerName) in
  match r with
  | inl cont =>
      let! outdated := containerNetworkConfigOutdated cont hConfig containerName in
      if outdated then
        tolerate_not_found (CtrRemove (ct_ID cont));;
        tolerate_not_found (CtrWaitRemoved (ct_ID cont));;
        create_fresh p l containerName cConfig hConfig
      else ret (ct_ID cont, hConfig)
  | inr e =>
      if IsContainerNotFound e then create_fresh p l containerName cConfig hConfig else throw e
  end.

(** A start error that is neither about nvidia nor about a port is not returned. *)
Definition startContainerOnce (p : TransitionPayload) (l : loc) : Agent string :=
  let! (containerConfig, hostConfig) := computeContainerConfigs p l in
  let! (containerID, hostConfig) := createContainer p l containerConfig hostConfig in
  let! r := call (CtrStart containerID) in
  match r with
  | inl _ => ret containerID
  | inr e =>
      if str_contains "nvidia" (error_text e) then
        best_effort (CtrRemove containerID);;
        let! (containerID, _) := createContainer p l containerConfig hostConfig in
        callE (CtrStart containerID);;
        ret containerID
      else if isPortAllocationError e then throw e
      else ret containerID
  end.

Fixpoint start_attempts (attempts : nat) (p : TransitionPayload) (l : loc) (lastErr : error) : Agent string :=
  match attempts with
  | O => throw lastErr
  | S attempts' =>
      let! r := try_ (startContainerOnce p l) in
      match r with
      | inl containerID => ret containerID
      | inr e =>
          if negb (isPortAllocationError e) then throw e
          else
            let! reassigned := reassignPortsAfterBindConflict p e in
            if reassigned then start_attempts attempts' p l e else throw e
      end
  end.

Definition startContainer (p : TransitionPayload) (l : loc) : Agent string :=
  start_attempts 3 p l (Plain "").

(** ** Compose up *)

Definition composeUpAttempts : nat := 3.

(** What follows the loop: report the reason, clean up, return it. *)
Definition compose_up_failed (dockerComposePath logTopic : string) (lastErr : error) : Agent unit :=
  best_effort (LogWrite logTopic ("The app failed to start, reason: " +:+ error_text lastErr));;
  ignore (teardownComposeProject dockerComposePath);;
  throw lastErr.

Fixpoint compose_up_attempts (attempts : nat) (p : TransitionPayload) (l : loc)
    (dockerComposePath logTopic : string) (lastErr : error) : Agent unit :=
  match attempts with
  | O => compose_up_failed dockerComposePath logTopic lastErr
  | S attempts' =>
      callE (ComposeUp dockerComposePath (bool_decide (tp_Stage p = PROD)));;
      callE (LogStreamChannel logTopic);;
      let! r := call ComposeWait in
      match r with
      | inl _ => ret tt
      | inr e =>
          let! retry := (if isPortAllocationError e
                         then reassignComposePortsAfterBindConflict p e else ret false) in
          if retry then
            teardownComposeProject dockerComposePath;;
            SetupComposeFiles p l false;;
            compose_up_attempts attempts' p l dockerComposePath logTopic e
          else compose_up_failed dockerComposePath logTopic e
      end
  end.

Definition composeUp (p : TransitionPayload) (l : loc) (dockerComposePath logTopic : string) : Agent unit :=
  compose_up_attempts composeUpAttempts p l dockerComposePath logTopic (Plain "").
End launch.
