(* ===== verification/Transitions.v ===== *)
(** * Transitions

    One definition per transition of the state machine: run, stop, remove, uninstall,
    update, build, publish, cancel and recover (run_app.go, stop_app.go,
    remove_app.go, uninstall_app.go, update_app.go, build_app.go, publish_app.go,
    cancel_transitions.go, fail_present.go, fail_run.go and the small combinations). *)
From S2P Require Import Prelude Errdefs GoValue Common Records Effects HostPorts ComposePorts World TunnelRules.
From S2P Require Import EnvVars Store Observer Launch.
Open Scope go_scope.

Section transitions.
Context `{GoRuntime} `{Host}.

(** [PollContainerState] and the receive on its error channel: the first state it
    polls fits the channel nobody reads, a second one blocks the poller for ever. *)
Definition poll_error (e : error) : error :=
  if str_contains "no such container" (error_text e) then ContainerNotFound e else e.

Definition poll_until_error (id : string) : Agent error :=
  let! r := call (CtrState id) in
  match r with
  | inr e => ret (poll_error e)
  | inl _ =>
      let! r := call (CtrState id) in
      match r with
      | inr e => ret (poll_error e)
      | inl _ => hang
      end
  end.

(** The container is gone when polling it says so; any other error is returned. *)
Definition await_gone (id : string) : Agent unit :=
  let! e := poll_until_error id in
  if IsContainerNotFound e then ret tt else throw e.

Definition wrap {A} (msg : string) (m : Agent A) : Agent A :=
  let! r := try_ m in
  match r with inl a => ret a | inr e => throw (Annotated msg e) end.

(** ** Running *)

(** The [select] after [Container.WaitForRunning]: a closed error channel yields a nil
    error whose text is asked for. *)
Definition await_running (reasonTopic logsTopic containerID : string) : Agent unit :=
  let! w := call (CtrWaitForRunning containerID) in
  match w with
  | WaitRunning => ret tt
  | WaitErrClosed => panic
  | WaitErr e =>
      best_effort (LogWrite reasonTopic ("The app failed to start, reason: " +:+ error_text e));;
      callE (CtrLogs containerID);;
      best_effort (LogStreamBlocking logsTopic APP);;
      throw e
  end.

Definition await_compose_running (dockerComposePath logTopic : string) : Agent unit :=
  let! w := call (ComposeWaitForRunning dockerComposePath) in
  match w with
  | WaitRunning | WaitErrClosed => ret tt
  | WaitErr e =>
      teardownComposeProject dockerComposePath;;
      best_effort (LogWrite logTopic ("The app failed to start, reason: " +:+ error_text e));;
      throw e
  end.

Definition now_running (p : TransitionPayload) (version : string) : string :=
  "Now running app " +:+ tp_AppName p +:+ " (" +:+ version +:+ ")".

Definition stream_compose_logs (dockerComposePath topic : string) : Agent unit :=
  callE (ComposeLogStream dockerComposePath);;
  callE (LogStreamChannel topic).

Definition runDevComposeApp (p : TransitionPayload) (l : loc) : Agent unit :=
  let topic := Dev (tp_ContainerName p) in
  callE (LogClearHistory topic);;
  setState l STARTING;;
  let! dockerComposePath := SetupComposeFiles p l false in
  logins_or_report (Prod (tp_ContainerName p)) p;;
  teardownComposeProject dockerComposePath;;
  log_write topic ("Starting " +:+ tp_AppName p +:+ "...");;
  composeUp p l dockerComposePath topic;;
  await_compose_running dockerComposePath topic;;
  setState l RUNNING;;
  let! a := read_app l in
  log_write topic (now_running p (app_Version a));;
  stream_compose_logs dockerComposePath topic.

(** The services a fresh install still has to download; none when the check fails. *)
Definition missing_for_install (p : TransitionPayload) (freshInstall : bool) : Agent (list string) :=
  if negb freshInstall then ret []
  else
    let! r := call (ImgList "") in
    match r with
    | inr _ => ret []
    | inl images =>
        ret match composeServicesWithMissingImages (default [] (tp_DockerCompose p)) images with
            | inl missing => missing
            | inr _ => []
            end
    end.

Definition run_prod_compose (p : TransitionPayload) (l : loc) (missing : list string)
    (ctx : option nat) : Agent unit :=
  let topic := Prod (tp_ContainerName p) in
  setState l (match ctx with Some _ => DOWNLOADING | None => STARTING end);;
  let! dockerComposePath := SetupComposeFiles p l false in
  teardownComposeProject dockerComposePath;;
  match ctx with
  | None => ret tt
  | Some ctx =>
      log_write topic ("Downloading images for " +:+ tp_AppName p +:+ "...");;
      pullComposeImages ctx p dockerComposePath missing
  end;;
  log_write topic ("Starting " +:+ tp_AppName p +:+ "...");;
  match ctx with Some _ => setState l STARTING | None => ret tt end;;
  composeUp p l dockerComposePath topic;;
  await_compose_running dockerComposePath topic;;
  setState l RUNNING;;
  let! a := read_app l in
  log_write topic (now_running p (app_Version a));;
  stream_compose_logs dockerComposePath topic.

Definition runProdComposeApp (p : TransitionPayload) (l : loc) : Agent unit :=
  let topic := Prod (tp_ContainerName p) in
  callE (LogClearHistory topic);;
  require_compose topic;;
  logins_or_report topic p;;
  let! freshInstall := with_state_lock l (λ a,
    bool_decide (app_CurrentState a = UNINSTALLED) || bool_decide (app_CurrentState a = REMOVED)) in
  let! missing := missing_for_install p freshInstall in
  if bool_decide (missing = []) then run_prod_compose p l missing None
  else
    let! ctx := new_context in
    registerComposeTransitionCancel (tp_Stage p) (tp_AppKey p) ctx;;
    finally (run_prod_compose p l missing (Some ctx)) (release_cancel p ctx).

Definition runProdApp (p : TransitionPayload) (l : loc) : Agent unit :=
  match tp_DockerCompose p with
  | Some _ => runProdComposeApp p l
  | None =>
      let topic := Prod (tp_ContainerName p) in
      callE (LogClearHistory topic);;
      log_write topic ("Starting " +:+ tp_AppName p +:+ "...");;
      setState l STARTING;;
      let! containerID := startContainer p l in
      await_running (Dev (tp_ContainerName p)) topic containerID;;
      setState l RUNNING;;
      let! a := read_app l in
      log_write topic (now_running p (app_Version a));;
      callE (LogStream topic)
  end.

(** Remove the previous container, tolerating one that is gone or going. *)
Definition remove_old_container (containerName : string) : Agent unit :=
  let! r := call (CtrGet containerName) in
  match r with
  | inr e => if IsContainerNotFound e then ret tt else throw e
  | inl cont =>
      let! removed := call (CtrRemove (ct_ID cont)) in
      match removed with
      | inr e => if IsContainerRemovalAlreadyInProgress e || IsContainerNotFound e then ret tt else throw e
      | inl _ => ret tt
      end;;
      tolerate_not_found (CtrWaitRemoved (ct_ID cont))
  end.

Definition runDevApp (p : TransitionPayload) (l : loc) : Agent unit :=
  match tp_DockerCompose p with
  | Some _ => runDevComposeApp p l
  | None =>
      let topic := Dev (tp_ContainerName p) in
      remove_old_container topic;;
      callE (LogClearHistory topic);;
      log_write topic ("Starting " +:+ tp_AppName p +:+ "...");;
      setState l STARTING;;
      let! newContainerID := startContainer p l in
      await_running topic topic newContainerID;;
      setState l RUNNING;;
      log_write topic ("Now running app " +:+ tp_AppName p);;
      callE (LogStream topic)
  end.

Definition runApp (p : TransitionPayload) (l : loc) : Agent unit :=
  match tp_Stage p with
  | DEV => runDevApp p l
  | PROD => runProdApp p l
  | OtherStage _ => ret tt
  end.

Definition removedToRunning (p : TransitionPayload) (l : loc) : Agent unit := runApp p l.

(** ** Stopping *)

Definition stop_messages (p : TransitionPayload) : string * string :=
  ("Received stop signal for " +:+ tp_AppName p, "Successfully stopped " +:+ tp_AppName p).

Definition stop_compose (topic : string) (p : TransitionPayload) (l : loc) : Agent unit :=
  let! dockerComposePath := SetupComposeFiles p l false in
  log_write topic (stop_messages p).1;;
  setState l STOPPING;;
  teardownComposeProject dockerComposePath;;
  setState l PRESENT;;
  log_write topic (stop_messages p).2.

Definition stopDevComposeApp (p : TransitionPayload) (l : loc) : Agent unit :=
  stop_compose (Dev (tp_ContainerName p)) p l.
Definition stopProdComposeApp (p : TransitionPayload) (l : loc) : Agent unit :=
  stop_compose (Prod (tp_ContainerName p)) p l.

(** The container to stop; its id is empty when there is none. *)
Definition container_to_stop (containerName : string) : Agent string :=
  let! r := call (CtrGet containerName) in
  match r with
  | inl cont => ret (ct_ID cont)
  | inr e => if IsContainerNotFound e then ret ""
             else throw (Annotated "failed to getContainer during stopDevApp" e)
  end.

Definition stop_container (topic id : string) (caller : string) (p : TransitionPayload) (l : loc) : Agent unit :=
  wrap ("failed to stop container by ID during " +:+ caller) (callE (CtrStop id));;
  callE (CtrWaitNotRunning id);;
  callE (CtrRemove id);;
  await_gone id;;
  setState l PRESENT;;
  log_write topic (stop_messages p).2.

Definition stopProdApp (p : TransitionPayload) (l : loc) : Agent unit :=
  match tp_DockerCompose p with
  | Some _ => stopProdComposeApp p l
  | None =>
      let topic := Prod (tp_ContainerName p) in
      setState l STOPPING;;
      let! id := container_to_stop topic in
      log_write topic (stop_messages p).1;;
      setState l STOPPING;;
      stop_container topic id "stopProdApp" p l
  end.

Definition stopDevApp (p : TransitionPayload) (l : loc) : Agent unit :=
  match tp_DockerCompose p with
  | Some _ => stopDevComposeApp p l
  | None =>
      let topic := Dev (tp_ContainerName p) in
      let! id := container_to_stop topic in
      log_write topic (stop_messages p).1;;
      setState l STOPPING;;
      stop_container topic id "stopDevApp" p l
  end.

Definition stopApp (p : TransitionPayload) (l : loc) : Agent unit :=
  match tp_Stage p with
  | DEV => stopDevApp p l
  | PROD => stopProdApp p l
  | OtherStage _ => ret tt
  end.

(** ** Removing *)

Definition remove_message (p : TransitionPayload) : string :=
  "Starting removal process for " +:+ tp_AppName p +:+ "...".
Definition removed_message (p : TransitionPayload) : string :=
  "Successfully removed " +:+ tp_AppName p +:+ "!".

Definition begin_removal (topic : string) (p : TransitionPayload) (l : loc) : Agent unit :=
  callE (LogClearHistory topic);;
  log_write topic (remove_message p);;
  setState l DELETING.

Definition end_removal (topic : string) (p : TransitionPayload) (l : loc) : Agent unit :=
  setState l REMOVED;;
  log_write topic (removed_message p).

Definition removeComposeApp (p : TransitionPayload) (l : loc) : Agent unit :=
  let topic := if bool_decide (tp_Stage p = PROD) then Prod (tp_ContainerName p)
               else Dev (tp_ContainerName p) in
  begin_removal topic p l;;
  let! dockerComposePath := SetupComposeFiles p l false in
  let! supported := gets composeSupported in
  if negb supported then end_removal topic p l
  else
    callE (ComposeDown dockerComposePath);;
    callE (ComposeRemove dockerComposePath);;
    let! images := callE (ComposeListImages (default [] (tp_DockerCompose p))) in
    for_each images (λ imageName, callE (ImgRemove imageName));;
    end_removal topic p l.

Definition remove_container_and_images (topic image : string) (p : TransitionPayload) (l : loc) : Agent unit :=
  begin_removal topic p l;;
  let! r := call (CtrGet topic) in
  match r with
  | inr e => if IsContainerNotFound e then ret tt else throw e
  | inl cont =>
      tolerate_not_found (CtrRemove (ct_ID cont));;
      tolerate_not_found (CtrWaitRemoved (ct_ID cont))
  end;;
  callE (ImgRemoveAllByName image);;
  end_removal topic p l.

Definition removeDevApp (p : TransitionPayload) (l : loc) : Agent unit :=
  remove_container_and_images (Dev (tp_ContainerName p)) (Dev (tp_RegistryImageName p)) p l.
Definition removeProdApp (p : TransitionPayload) (l : loc) : Agent unit :=
  remove_container_and_images (Prod (tp_ContainerName p)) (Prod (tp_RegistryImageName p)) p l.

Definition removeApp (p : TransitionPayload) (l : loc) : Agent unit :=
  match tp_DockerCompose p with
  | Some _ => removeComposeApp p l
  | None =>
      let! a := read_app l in
      match app_Stage a with
      | PROD => removeProdApp p l
      | DEV => removeDevApp p l
      | OtherStage _ => ret tt
      end
  end.

Definition release_host_ports (p : TransitionPayload) : Agent unit :=
  modify (λ w, set_hostPorts (ReleaseApp (hostPorts w) (tp_Stage p) (tp_AppKey p)) w).

Definition build_archive (p : TransitionPayload) : string :=
  cfg_AppsBuildDir config +:+ "/" +:+ tp_AppName p +:+ "." +:+ cfg_CompressedBuildExtension config.

Definition compose_app_dir (p : TransitionPayload) : string :=
  (if bool_decide (tp_Stage p = DEV) then cfg_AppsBuildDir config else cfg_AppsComposeDir config)
  +:+ "/" +:+ tp_AppName p.

Definition uninstallApp (p : TransitionPayload) (l : loc) : Agent unit :=
  removeApp p l;;
  setState l UNINSTALLED;;
  release_host_ports p;;
  let! removed := call (FsRemoveAll (parent_dir (tp_AppName p) (tp_Stage p))) in
  match tp_DockerCompose p with
  | None =>
      if bool_decide (tp_Stage p = DEV) then callE (FsRemoveAll (build_archive p))
      else lift removed
  | Some _ =>
      let! exists_ := call (FsExists (compose_app_dir p)) in
      when exists_ (callE (FsRemoveAll (compose_app_dir p)));;
      lift removed
  end.

(** ** Building *)

Definition dockerfile_error (e : error) : string :=
  if IsDockerfileCannotBeEmpty e then "The Dockerfile cannot be empty, please fill out your Dockerfile"
  else if IsDockerfileIsMissing e
       then "Could not find a Dockerfile, please create a Dockerfile in the root of your project"
  else if IsDockerBuildFilesNotFound e then "Build files for app not found: " +:+ error_text e
  else error_text e.

Definition build_topic (p : TransitionPayload) (releaseBuild : bool) : string :=
  if releaseBuild then tp_PublishContainerName p else Dev (tp_ContainerName p).

Definition app_build_id (l : loc) : Agent string :=
  let! a := read_app l in ret (BuildDockerBuildID (app_AppKey a) (app_AppName a)).

Definition run_build (p : TransitionPayload) (topic dockerComposePath : string)
    (releaseBuild : bool) (l : loc) : Agent unit :=
  callE (ComposeBuild dockerComposePath);;
  callE (LogStreamChannel topic);;
  callE ComposeWait;;
  when (negb releaseBuild)
    (callE (ComposePullIgnoreBuildable dockerComposePath);;
     callE (LogStreamChannel topic);;
     callE ComposeWait);;
  log_write topic "Compose Image built successfully";;
  setState l BUILT.

Definition buildDevComposeApp (p : TransitionPayload) (l : loc) (releaseBuild : bool) : Agent unit :=
  callE (LogClearHistory (Dev (tp_ContainerName p)));;
  setState l REMOVED;;
  let! a := read_app l in
  let targetAppDir := cfg_AppsBuildDir config +:+ "/" +:+ app_AppName a in
  let! exists_ := call (FsExists targetAppDir) in
  when exists_ (callE (FsRemoveAll targetAppDir));;
  callE (FsExtractTarGz (build_archive p) targetAppDir);;
  update_app l (app_set_ReleaseBuild releaseBuild);;
  let topic := build_topic p releaseBuild in
  log_write topic "Starting image build...";;
  setState l BUILDING;;
  require_compose topic;;
  logins_or_report topic p;;
  let! dockerComposePath := SetupComposeFiles p l false in
  let! buildID := app_build_id l in
  call (ComposeRegisterBuildCancel buildID);;
  finally (run_build p topic dockerComposePath releaseBuild l)
    (call (ComposeUnregisterBuildCancel buildID)).

Definition build_image (p : TransitionPayload) (l : loc) (topic dockerFileName : string) : Agent unit :=
  let! buildID := app_build_id l in
  let! r := call (ImgBuild (build_archive p) (Dev (tp_RegistryImageName p)) dockerFileName buildID) in
  match r with
  | inl _ => ret tt
  | inr e => log_write topic (dockerfile_error e);; throw e
  end.

Definition buildDevApp (p : TransitionPayload) (l : loc) (releaseBuild : bool) : Agent unit :=
  match tp_DockerCompose p with
  | Some _ => buildDevComposeApp p l releaseBuild
  | None =>
      callE (LogClearHistory (Dev (tp_ContainerName p)));;
      setState l REMOVED;;
      let archSpecificDockerfile := "Dockerfile." +:+ buildArch in
      let! r := call (FsReadInTgz (build_archive p) archSpecificDockerfile) in
      let dockerFileName := match r with inl _ => archSpecificDockerfile | inr _ => "Dockerfile" end in
      update_app l (app_set_ReleaseBuild releaseBuild);;
      let topic := build_topic p releaseBuild in
      log_write topic "Starting image build...";;
      setState l BUILDING;;
      build_image p l topic dockerFileName;;
      stream_blocking topic BUILD "The build stream was canceled";;
      log_write topic "Image built successfully";;
      setState l BUILT
  end.

Definition buildApp (p : TransitionPayload) (l : loc) : Agent unit :=
  if negb (bool_decide (tp_Stage p = DEV)) then throw (Plain "can only build dev apps")
  else buildDevApp p l false.

Definition stopAndBuildApp (p : TransitionPayload) (l : loc) : Agent unit :=
  stopDevApp p l;;
  buildDevApp p l false.

(** ** Publishing *)

Definition registryHostOfImage (imageRef : string) : string :=
  let '(firstComponent, _, found) := str_cut "/" imageRef in
  if found && (contains_any (λ a, Ascii.eqb a "." || Ascii.eqb a ":") firstComponent
               || String.eqb firstComponent "localhost")
  then firstComponent else "docker.io".

Definition no_credential : DockerCredential := {| Username := ""; Password := "" |}.

Definition credentialForRegistryHost (credentials : list (string * DockerCredential)) (host : string) : AuthConfig :=
  let cred := match map_get host credentials with
    | Some c => c
    | None => default no_credential (map_get (host +:+ "/") credentials)
    end in
  {| au_Username := Username cred; au_Password := Password cred |}.

Definition pull_id (p : TransitionPayload) : string := BuildDockerPullID (tp_AppKey p) (tp_AppName p).
Definition push_id (p : TransitionPayload) : string := BuildDockerPushID (tp_AppKey p) (tp_AppName p).

Definition rehost_image (p : TransitionPayload) (serviceName sourceImage targetImage : string) : Agent unit :=
  log_write (tp_PublishContainerName p)
    ("Re-hosting image " +:+ sourceImage +:+ " of service " +:+ serviceName +:+ " as " +:+ targetImage +:+ "...");;
  callE (ImgPull sourceImage
    (credentialForRegistryHost (default [] (tp_DockerCredentials p)) (registryHostOfImage sourceImage)) (pull_id p));;
  callE (LogStreamBlocking (tp_PublishContainerName p) PULL);;
  callE (ImgTag sourceImage targetImage);;
  callE (ImgPush targetImage (auth_config p) (push_id p));;
  callE (LogStreamBlocking (tp_PublishContainerName p) PUSH).

Definition rehost_service (p : TransitionPayload) (service : string * goval) : Agent unit :=
  match as_map service.2 with
  | None => throw (Plain "failed to infer service")
  | Some m =>
      let sourceImage := default "" (as_str (map_index "x-source-image" m)) in
      let targetImage := default "" (as_str (map_index "image" m)) in
      if String.eqb sourceImage "" then ret tt
      else if String.eqb targetImage ""
           then throw (Plain ("service " +:+ service.1 +:+ " declares x-source-image but no image"))
      else rehost_image p service.1 sourceImage targetImage
  end.

Definition rehostSourceImages (p : TransitionPayload) : Agent unit :=
  match compose_services (default [] (tp_DockerCompose p)) with
  | None => throw (Plain "failed to infer services")
  | Some services => for_each services (rehost_service p)
  end.

Definition publishComposeApp (p : TransitionPayload) (l : loc) : Agent unit :=
  let topic := tp_PublishContainerName p in
  let! a := read_app l in
  log_write topic ("Initializing publish process for " +:+ app_AppName a +:+ "...");;
  buildDevApp p l true;;
  log_write topic "App build has finished, Starting to publish...";;
  setState l PUBLISHING;;
  let! dockerComposePath := SetupComposeFiles p l false in
  let! p := logins_or_report topic p in
  let! r := try_ (rehostSourceImages p) in
  match r with
  | inr e =>
      when (negb (IsDockerStreamCanceled e)) (log_write topic (error_text e));;
      throw e
  | inl _ =>
      callE (ComposePush dockerComposePath);;
      callE (LogStreamChannel topic);;
      callE ComposeWait;;
      setState l PUBLISHED;;
      callE (LogClearHistory topic)
  end.

Definition publishApp (p : TransitionPayload) (l : loc) : Agent unit :=
  match tp_DockerCompose p with
  | Some _ => publishComposeApp p l
  | None =>
      let topic := tp_PublishContainerName p in
      let! a := read_app l in
      log_write topic ("Initializing publish process for " +:+ app_AppName a +:+ "...");;
      buildDevApp p l true;;
      log_write topic "App build has finished, Starting to publish...";;
      let prodImage := Prod (tp_RegistryImageName p) +:+ ":" +:+ tp_Version p in
      callE (ImgTag (Dev (tp_RegistryImageName p)) prodImage);;
      setState l PUBLISHING;;
      logins_or_report topic p;;
      callE (ImgPush prodImage (auth_config p) (push_id p));;
      stream_blocking topic PUSH "The app release was canceled";;
      setState l PUBLISHED;;
      callE (LogClearHistory topic)
  end.

Definition removeAndPublishApp (p : TransitionPayload) (l : loc) : Agent unit :=
  if bool_decide (tp_Stage p = DEV) then removeDevApp p l;; publishApp p l else ret tt.

(** ** Updating *)

Definition installed_update (p : TransitionPayload) (a : App) : App :=
  app_set_UpdateStatus PENDING_REMOTE_CONFIRMATION
    (app_set_ReleaseKey (tp_NewReleaseKey p) (app_set_Version (tp_NewestVersion p) a)).

Definition persistPostUpdateRequestedState (p : TransitionPayload) (l : loc) : Agent unit :=
  let! a := read_app l in
  let p := with_Version (app_Version a) (with_PresentVersion (app_Version a)
             (with_NewestVersion (app_Version a) p)) in
  let! requested := with_state_lock l app_RequestedState in
  UpdateLocalRequestedState (with_RequestedState requested p).

(** The guards shared by the two update transitions. *)
Definition check_update (p : TransitionPayload) (l : loc) : Agent unit :=
  if bool_decide (tp_Stage p = DEV) then throw (Plain "cannot update dev app")
  else
    let! a := read_app l in
    if String.eqb (tp_NewestVersion p) (app_Version a)
    then throw (Plain "the app is already equal to the newest version")
    else ret tt.

Definition update_compose_steps (p : TransitionPayload) (l : loc) (ctx : nat) : Agent unit :=
  let topic := Prod (tp_ContainerName p) in
  let! dockerComposePath := SetupComposeFiles p l true in
  cancelable ctx (ComposeDownRemoveOrphans ctx dockerComposePath);;
  log_write topic ("Initialising download for the app: " +:+ tp_AppName p +:+ "...");;
  logins_or_report topic p;;
  callE (LogClearHistory topic);;
  cancelable ctx (ComposePull ctx dockerComposePath []);;
  cancelable ctx (LogStreamChannel topic);;
  cancelable ctx ComposeWait;;
  log_write topic (installed_message p);;
  update_locked l (installed_update p);;
  setState l PRESENT;;
  persistPostUpdateRequestedState (with_DockerCompose (tp_NewDockerCompose p) p) l.

Definition updateComposeApp (p : TransitionPayload) (l : loc) : Agent unit :=
  check_update p l;;
  setState l UPDATING;;
  require_compose (Prod (tp_ContainerName p));;
  let! ctx := new_context in
  registerComposeTransitionCancel (tp_Stage p) (tp_AppKey p) ctx;;
  finally (update_compose_steps p l ctx) (release_cancel p ctx).

Definition drop_container (containerName : string) : Agent unit :=
  let! r := call (CtrGet containerName) in
  match r with
  | inr _ => ret tt
  | inl cont => callE (CtrRemove (ct_ID cont));; await_gone (ct_ID cont)
  end.

Definition updateApp (p : TransitionPayload) (l : loc) : Agent unit :=
  match tp_DockerCompose p with
  | Some _ => updateComposeApp p l
  | None =>
      check_update p l;;
      setState l UPDATING;;
      let topic := Prod (tp_ContainerName p) in
      drop_container topic;;
      log_write topic ("Initialising download for the app: " +:+ tp_AppName p +:+ "...");;
      callE (LogClearHistory topic);;
      logins_or_report topic p;;
      pull_or_report topic (Prod (tp_RegistryImageName p) +:+ ":" +:+ tp_NewestVersion p) p;;
      stream_blocking topic PULL "The update was canceled";;
      log_write topic (installed_message p);;
      update_locked l (installed_update p);;
      setState l PRESENT;;
      best_effort (ImgRemoveByName (Prod (tp_RegistryImageName p)) (tp_PresentVersion p));;
      persistPostUpdateRequestedState p l
  end.

(** ** Canceling *)

Definition cancelBuild (p : TransitionPayload) (l : loc) : Agent unit :=
  if bool_decide (tp_Stage p = PROD) then throw (Plain "cannot build prod apps")
  else
    let! buildID := app_build_id l in
    match tp_DockerCompose p with
    | Some _ => call (ComposeCancelBuild buildID)
    | None => call (CancelStream buildID)
    end;;
    setState l REMOVED.

Definition cancelPull (p : TransitionPayload) (l : loc) : Agent unit :=
  if negb (bool_decide (tp_Stage p = PROD)) then throw (Plain "cannot pull dev apps")
  else match tp_DockerCompose p with
  | Some _ =>
      cancelComposeTransition (tp_Stage p) (tp_AppKey p);;
      if bool_decide (tp_RequestedState p = UNINSTALLED) then uninstallApp p l else removeApp p l
  | None =>
      call (CancelStream (pull_id p));;
      setState l REMOVED
  end.

Definition cancelPush (p : TransitionPayload) (l : loc) : Agent unit :=
  call (CancelStream (push_id p));;
  setState l REMOVED.

Definition cancelActiveUpdate (p : TransitionPayload) : Agent unit :=
  match tp_DockerCompose p with
  | Some _ => cancelComposeTransition (tp_Stage p) (tp_AppKey p);; ret tt
  | None => call (CancelStream (pull_id p))
  end.

Definition mark_canceled (l : loc) : Agent unit :=
  read_app l;; update_app l (app_set_UpdateStatus CANCELED).

Definition cancelUpdate (p : TransitionPayload) (l : loc) : Agent unit :=
  cancelActiveUpdate p;; mark_canceled l;; setState l PRESENT.

Definition cancelUpdateAndRemove (p : TransitionPayload) (l : loc) : Agent unit :=
  cancelActiveUpdate p;; mark_canceled l;; removeApp p l.

Definition cancelUpdateAndUninstall (p : TransitionPayload) (l : loc) : Agent unit :=
  cancelActiveUpdate p;; mark_canceled l;; uninstallApp p l.

Definition cancelTransfer (p : TransitionPayload) (l : loc) : Agent unit :=
  if negb (bool_decide (tp_Stage p = DEV)) then throw (Plain "file transfer is only for dev apps")
  else
    call (CancelFileTransfer (Dev (tp_ContainerName p)));;
    setState l REMOVED.

(** ** Recovering and combinations *)

Definition noActionTransitionFunc (p : TransitionPayload) (l : loc) : Agent unit := throw NoActionTransition.

Definition removedToPresent (p : TransitionPayload) (l : loc) : Agent unit :=
  if bool_decide (tp_Stage p = DEV) then noActionTransitionFunc p l else pullApp p l.

Definition recoverFailToPresentHandler (p : TransitionPayload) (l : loc) : Agent unit :=
  best_effort (CtrRemove (stage_container_name (tp_Stage p) p));;
  if bool_decide (tp_Stage p = DEV) then buildApp p l
  else
    let! images := callE (ImgList (stage_image p)) in
    match images with
    | [] => pullApp p l
    | _ => setState l PRESENT
    end.

Definition recoverFailToRunningHandler (p : TransitionPayload) (l : loc) : Agent unit :=
  match tp_DockerCompose p with
  | None => best_effort (CtrRemove (stage_container_name (tp_Stage p) p))
  | Some _ => ret tt
  end;;
  runApp p l.
End transitions.
