(* ===== verification/StateMachine.v ===== *)
(** * State machine (src/src/apps/state_machine.go)

    The transition table, the disk-emergency gate and the start of a transition. *)
From S2P Require Import Prelude Errdefs GoValue Common Records Effects HostPorts ComposePorts World TunnelRules.
From S2P Require Import EnvVars Store Observer Launch Transitions.
Open Scope go_scope.

(** The transition functions of the table, by name. *)
Inductive transition :=
  | t_removedToPresent | t_removedToRunning | t_buildApp | t_publishApp | t_uninstallApp
  | t_noAction | t_pullApp | t_runApp | t_cancelPush | t_cancelBuild | t_removeApp
  | t_recoverFailToPresent | t_recoverFailToRunning | t_cancelTransfer | t_stopApp
  | t_removeAndPublishApp | t_cancelPull | t_cancelUpdate | t_cancelUpdateAndRemove
  | t_cancelUpdateAndUninstall | t_updateApp.

#[export] Instance transition_eq_dec : EqDecision transition.
Proof. solve_decision. Defined.

Definition getTransitionFunc (prevState nextState : AppState) : option transition :=
  match prevState, nextState with
  | REMOVED, PRESENT => Some t_removedToPresent
  | REMOVED, RUNNING => Some t_removedToRunning
  | REMOVED, BUILT => Some t_buildApp
  | REMOVED, PUBLISHED => Some t_publishApp
  | REMOVED, UNINSTALLED => Some t_uninstallApp
  | REMOVED, REMOVED => Some t_noAction
  | UNINSTALLED, PRESENT => Some t_pullApp
  | UNINSTALLED, RUNNING => Some t_runApp
  | UNINSTALLED, BUILT => Some t_buildApp
  | UNINSTALLED, PUBLISHED => Some t_publishApp
  | UNINSTALLED, UNINSTALLED => Some t_noAction
  | PUBLISHING, REMOVED => Some t_cancelPush
  | BUILDING, REMOVED => Some t_cancelBuild
  | STOPPED, REMOVED => Some t_removeApp
  | STOPPED, UNINSTALLED => Some t_uninstallApp
  | STOPPED, RUNNING => Some t_runApp
  | STOPPED, BUILT => Some t_buildApp
  | STOPPED, PUBLISHED => Some t_publishApp
  | STOPPED, STOPPED => Some t_noAction
  | PRESENT, REMOVED => Some t_removeApp
  | PRESENT, UNINSTALLED => Some t_uninstallApp
  | PRESENT, RUNNING => Some t_runApp
  | PRESENT, BUILT => Some t_buildApp
  | PRESENT, PUBLISHED => Some t_publishApp
  | PRESENT, PRESENT => Some t_noAction
  | FAILED, REMOVED => Some t_removeApp
  | FAILED, UNINSTALLED => Some t_uninstallApp
  | FAILED, PRESENT => Some t_recoverFailToPresent
  | FAILED, RUNNING => Some t_recoverFailToRunning
  | FAILED, BUILT => Some t_buildApp
  | FAILED, PUBLISHED => Some t_publishApp
  | BUILT, REMOVED => Some t_removeApp
  | BUILT, UNINSTALLED => Some t_uninstallApp
  | BUILT, PRESENT => Some t_noAction
  | BUILT, RUNNING => Some t_runApp
  | BUILT, BUILT => Some t_buildApp
  | BUILT, PUBLISHED => Some t_publishApp
  | TRANSFERED, REMOVED => Some t_removeApp
  | TRANSFERED, UNINSTALLED => Some t_uninstallApp
  | TRANSFERED, PRESENT => Some t_pullApp
  | TRANSFERING, REMOVED => Some t_cancelTransfer
  | TRANSFERING, UNINSTALLED => Some t_cancelTransfer
  | TRANSFERING, PRESENT => Some t_cancelTransfer
  | PUBLISHED, REMOVED => Some t_removeApp
  | PUBLISHED, UNINSTALLED => Some t_uninstallApp
  | PUBLISHED, RUNNING => Some t_runApp
  | PUBLISHED, PRESENT => Some t_noAction
  | PUBLISHED, BUILT => Some t_buildApp
  | PUBLISHED, PUBLISHED => Some t_publishApp
  | RUNNING, RUNNING => Some t_noAction
  | RUNNING, PRESENT => Some t_stopApp
  | RUNNING, BUILT => Some t_stopApp
  | RUNNING, PUBLISHED => Some t_removeAndPublishApp
  | RUNNING, REMOVED => Some t_removeApp
  | RUNNING, UNINSTALLED => Some t_uninstallApp
  | DOWNLOADING, PRESENT => Some t_pullApp
  | DOWNLOADING, REMOVED => Some t_cancelPull
  | DOWNLOADING, UNINSTALLED => Some t_cancelPull
  | STARTING, PRESENT => Some t_stopApp
  | STARTING, REMOVED => Some t_removeApp
  | STARTING, UNINSTALLED => Some t_uninstallApp
  | STARTING, RUNNING => Some t_runApp
  | STOPPING, PRESENT => Some t_stopApp
  | STOPPING, REMOVED => Some t_removeApp
  | STOPPING, UNINSTALLED => Some t_uninstallApp
  | STOPPING, RUNNING => Some t_runApp
  | UPDATING, PRESENT => Some t_cancelUpdate
  | UPDATING, REMOVED => Some t_cancelUpdateAndRemove
  | UPDATING, UNINSTALLED => Some t_cancelUpdateAndUninstall
  | DELETING, REMOVED => Some t_removeApp
  | DELETING, UNINSTALLED => Some t_uninstallApp
  | _, _ => None
  end.

Section machine.
Context `{GoRuntime} `{Host}.

Definition run_transition (t : transition) : TransitionPayload → loc → Agent unit :=
  match t with
  | t_removedToPresent => removedToPresent
  | t_removedToRunning => removedToRunning
  | t_buildApp => buildApp
  | t_publishApp => publishApp
  | t_uninstallApp => uninstallApp
  | t_noAction => noActionTransitionFunc
  | t_pullApp => pullApp
  | t_runApp => runApp
  | t_cancelPush => cancelPush
  | t_cancelBuild => cancelBuild
  | t_removeApp => removeApp
  | t_recoverFailToPresent => recoverFailToPresentHandler
  | t_recoverFailToRunning => recoverFailToRunningHandler
  | t_cancelTransfer => cancelTransfer
  | t_stopApp => stopApp
  | t_removeAndPublishApp => removeAndPublishApp
  | t_cancelPull => cancelPull
  | t_cancelUpdate => cancelUpdate
  | t_cancelUpdateAndRemove => cancelUpdateAndRemove
  | t_cancelUpdateAndUninstall => cancelUpdateAndUninstall
  | t_updateApp => updateApp
  end.

(** [executeTransition] and the receive of its result: the goroutine that panics is
    recovered and never sends. *)
Definition executeTransition (t : transition) (p : TransitionPayload) (l : loc) : Agent (unit + error) :=
  await (try_ (run_transition t p l)).

(** The channel of a cancel is dropped by the caller: nobody waits for the goroutine. *)
Definition CancelTransition (l : loc) (p : TransitionPayload) : Agent unit :=
  let! curAppState := with_state_lock l app_CurrentState in
  match getTransitionFunc curAppState (tp_RequestedState p) with
  | None => ret tt
  | Some t => background (run_transition t p l)
  end.

Definition emergency_error (p : TransitionPayload) : error :=
  Plain ("disk emergency: device is critically low on storage; refusing to transition "
    +:+ tp_AppName p +:+ " (" +:+ stage_string (tp_Stage p) +:+ ") to "
    +:+ state_string (tp_RequestedState p)).

(** The update gate of [InitTransition]. *)
Definition update_requested (p : TransitionPayload) (a : App) : bool :=
  tp_RequestUpdate p && negb (String.eqb (tp_NewestVersion p) (app_Version a))
  && negb (bool_decide (tp_RequestedState p = UNINSTALLED)).

Definition select_transition (p : TransitionPayload) (a : App) (curAppState : AppState) : option transition :=
  if update_requested p a then Some t_updateApp
  else getTransitionFunc curAppState (tp_RequestedState p).

(** [None] is the nil channel of a missing transition; otherwise what the channel
    delivers once the transition is over. *)
Definition InitTransition (l : loc) (p : TransitionPayload) : Agent (option (unit + error)) :=
  let! emergency := gets diskEmergency in
  if emergency && IsDiskGrowingState (tp_RequestedState p) then ret (Some (inr (emergency_error p)))
  else
    let! curAppState := with_state_lock l app_CurrentState in
    let! a := read_app l in
    match select_transition p a curAppState with
    | None => ret None
    | Some t => let! r := executeTransition t p l in ret (Some r)
    end.

(** An empty key never replaces a working one. *)
Definition SetAppCredKey (key : string) : Agent unit :=
  if String.eqb key "" then ret tt else modify (set_appCredKey key).
End machine.
