(* ===== verification/AppManager.v ===== *)
(** * App manager (src/src/apps/app_manager.go, crashloop.go)

    Handling of requested states, port synchronisation, verification, crash loops and
    the reconciliation passes. *)
From S2P Require Import Prelude Errdefs GoValue Common Records Effects HostPorts ComposePorts World TunnelRules.
From S2P Require Import EnvVars Store Observer Launch Transitions StateMachine.
Open Scope go_scope.

Section manager.
Context `{GoRuntime} `{Host}.

(** ** Crash loops *)

Definition nanosecond_second : Z := 1000000000.
Definition one_hour : Z := 3600 * nanosecond_second.

(** Five seconds times the square of the attempts (clamped to 1-100), at most an hour. *)
Definition loop_base (retries : N) : Z :=
  let r := N.min 100 (if (retries =? 0)%N then 1 else retries) in
  Z.min one_hour (nanosecond_second * 5 * Z.of_N r * Z.of_N r).

(** The jitter factor is [0.8 + 0.4 * u / 2^53], [u] drawn by the generator; the
    rounding of the float product is not modelled. *)
Definition calculateLoopSleepTime (retries : N) (u : Z) : Z :=
  Z.quot (loop_base retries * (8 * 2 ^ 53 + 4 * u)) (10 * 2 ^ 53).

Definition task_of (stage : Stage) (appKey : N) (task : nat * CrashLoop) : bool :=
  bool_decide (tp_Stage (cl_Payload task.2) = stage) && (tp_AppKey (cl_Payload task.2) =? appKey)%N.

Definition find_task (stage : Stage) (appKey : N) : Agent (option (nat * CrashLoop)) :=
  gets (λ w, List.find (task_of stage appKey) (crashLoops w)).

Definition clearCrashLoop (appKey : N) (stage : Stage) : Agent unit :=
  let! found := find_task stage appKey in
  match found with
  | None => ret tt
  | Some (id, _) =>
      modify (λ w, set_crashLoops (List.filter (λ t, negb (Nat.eqb t.1 id)) (crashLoops w)) w)
  end.

Definition bump (id : nat) (task : nat * CrashLoop) : nat * CrashLoop :=
  if Nat.eqb task.1 id
  then (task.1, {| cl_Payload := cl_Payload task.2; cl_Retries := wrap64 (cl_Retries task.2 + 1) |})
  else task.

(** [retry]: counts the attempt and starts the goroutine that sleeps before it. *)
Definition retry (id : nat) (retries : N) : Agent N :=
  modify (λ w, set_crashLoops (map (bump id) (crashLoops w)) w);;
  call (GoCrashLoopRetry id);;
  ret (wrap64 (retries + 1)).

Definition incrementCrashLoop (p : TransitionPayload) : Agent (N * Z) :=
  let! existing := find_task (tp_Stage p) (tp_AppKey p) in
  let! retries := (match existing with
    | Some (id, task) => retry id (cl_Retries task)
    | None =>
        let! id := new_context in
        modify (λ w, set_crashLoops
          (crashLoops w ++ [(id, {| cl_Payload := with_Retrying true p; cl_Retries := 0 |})])%list w);;
        retry id 0
    end) in
  let! u := call Jitter in
  ret (retries, calculateLoopSleepTime retries u).

(** ** Tunnels *)

Definition UpdateTunnelState : Agent unit :=
  callE TunnelStates;;
  callE PublishTunnelState.

Definition tunnel_config (p : TransitionPayload) (rule : PortForwardRule) (localPort : N) : TunnelConfig :=
  {| tc_Subdomain := CreateSubdomain (pr_Protocol rule) (cfg_DeviceKey config) (tp_AppName p) (pr_Port rule);
     tc_AppName := tp_AppName p; tc_Protocol := pr_Protocol rule; tc_LocalPort := localPort;
     tc_LocalIP := pr_LocalIP rule; tc_RemotePort := pr_RemotePort rule;
     tc_DeclaredPort := 0; tc_Name := "" |}.

(** Ensure the tunnel of an active rule; the result is the live configuration's remote
    port, 0 when there is none. *)
Definition ensure_tunnel (p : TransitionPayload) (rule : PortForwardRule) (dialPort : N) : Agent N :=
  let! tnl := call (TunnelGet (rule_tunnel_id (tp_AppName p) rule)) in
  let add := (let! r := call (TunnelAdd (tunnel_config p rule dialPort)) in
              ret match r with inl added => tc_RemotePort added | inr _ => 0%N end) in
  match tnl with
  | Some t =>
      if (tc_LocalPort t =? dialPort)%N then ret (tc_RemotePort t)
      else best_effort (TunnelRemove t);; add
  | None => add
  end.

(** The rule as it is written back upstream. *)
Definition synced_rule (rule : PortForwardRule) (remote : N) (dialPort : option N) : PortForwardRule :=
  with_rule_ports
    (if negb (remote =? 0)%N then remote else pr_RemotePort rule)
    (match dialPort with
     | Some port => if String.eqb (pr_LocalIP rule) "" then port else pr_HostPort rule
     | None => pr_HostPort rule
     end) rule.

Definition sync_rule (p : TransitionPayload) (running tunnelsAvailable : bool) (rule : PortForwardRule)
    : Agent PortForwardRule :=
  let! dialPort := (if String.eqb (pr_LocalIP rule) "" then resolveTunnelHostPort p rule
                    else ret (Some (pr_Port rule))) in
  let! remote := (if pr_Active rule then
      match dialPort with
      | Some port => if tunnelsAvailable && running then ensure_tunnel p rule port else ret 0%N
      | None => ret 0%N
      end
    else
      when tunnelsAvailable (best_effort (TunnelRemove (tunnel_config p rule (pr_Port rule))));;
      ret 0%N) in
  ret (synced_rule rule remote dialPort).

Definition syncPortState (p : TransitionPayload) (l : loc) : Agent unit :=
  if bool_decide (tp_Stage p = DEV) then ret tt
  else
    let! tunnelsAvailable := (call TunnelCapable : Agent bool) in
    let! running := with_state_lock l (λ a,
      bool_decide (app_RequestedState a = RUNNING) || bool_decide (app_CurrentState a = RUNNING)) in
    let! portRules := lift (InterfaceToPortForwardRule (tp_Ports p)) in
    match portRules with
    | [] => ret tt
    | _ =>
        let! newPorts := map_m portRules (sync_rule p running tunnelsAvailable) in
        best_effort (TunnelSaveRemotePorts (with_Ports (PortForwardRuleToInterface newPorts) p));;
        refreshRemotePortEnvFiles (tp_Stage p) (tp_AppName p) newPorts;;
        when tunnelsAvailable (ignore UpdateTunnelState)
    end.

Definition refresh_credential (p : TransitionPayload) : Agent unit :=
  let! key := gets appCredKey in
  refreshAppCredentialEnvFiles key p.

(** ** Verification *)

(** A requested update whose version is not yet the present one. *)
Definition pending_update (p : TransitionPayload) : bool :=
  tp_RequestUpdate p && negb (String.eqb (tp_NewestVersion p) (tp_PresentVersion p))
  && negb (bool_decide (tp_RequestedState p = UNINSTALLED)).

Definition VerifyState (l : loc) : Agent unit :=
  let! a := read_app l in
  let! requested := GetRequestedState (app_AppKey a) (app_Stage a) in
  let! (curAppState, requestedState) := with_state_lock l (λ a, (app_CurrentState a, app_RequestedState a)) in
  if bool_decide (curAppState = FAILED) then ret tt
  else
    (if negb (bool_decide (curAppState = requestedState)) || pending_update requested
     then call (GoRequestAppState requested)
     else refresh_credential requested;; syncPortState requested l);;
    when (bool_decide (curAppState = BUILT) && bool_decide (requestedState = BUILT)) (Notify l PRESENT).

(** ** Requests *)

Definition missing_app (appKey : N) (stage : Stage) : error :=
  Plain ("app (" +:+ itoa appKey +:+ ", " +:+ stage_string stage +:+ ") does not exist in the local app store").

Definition adopt_payload (p : TransitionPayload) (a : App) : App :=
  let current := app_CurrentState a in
  let a := if (bool_decide (current = BUILT) || bool_decide (current = PUBLISHED)
               || (bool_decide (current = PRESENT) && bool_decide (app_RequestedState a = BUILT)))
              && negb (bool_decide (tp_CurrentState p = empty_state))
           then app_set_CurrentState (tp_CurrentState p) a else a in
  if String.eqb (tp_PresentVersion p) "" then a else app_set_Version (tp_PresentVersion p) a.

(** The row is written with the state the app had before the payload's was adopted. *)
Definition UpdateCurrentAppState (p : TransitionPayload) : Agent unit :=
  let! found := GetApp (tp_AppKey p) (tp_Stage p) in
  match found with
  | None => throw (missing_app (tp_AppKey p) (tp_Stage p))
  | Some l =>
      let! curAppState := with_state_lock l app_CurrentState in
      update_app l (adopt_payload p);;
      UpdateLocalAppState l curAppState
  end.

Definition CreateOrUpdateApp (p : TransitionPayload) : Agent unit :=
  let! found := GetApp (tp_AppKey p) (tp_Stage p) in
  let p := with_RequestedState (TransientToActualState (tp_RequestedState p)) p in
  let! l := (match found with Some l => ret l | None => AddApp p end) in
  let! skip := with_state_lock l (λ a,
    bool_decide (app_CurrentState a = BUILT) && negb (bool_decide (app_RequestedState a = BUILT))
    && negb (wants_teardown (tp_RequestedState p))) in
  if skip then ret tt
  else
    update_app l (app_set_RequestedState (tp_RequestedState p));;
    UpdateLocalRequestedState p.

(** A stop press cancels a running file transfer of the dev app. *)
Definition cancels_transfer (curAppState requestedAppState : AppState) (p : TransitionPayload) : bool :=
  (bool_decide (curAppState = UNINSTALLED) || bool_decide (curAppState = REMOVED)
   || bool_decide (curAppState = PRESENT) || bool_decide (curAppState = FAILED))
  && (bool_decide (requestedAppState = PRESENT) || bool_decide (requestedAppState = BUILT))
  && bool_decide (tp_Stage p = DEV).

(** The account whose registry permissions are used. *)
Definition token_account (p : TransitionPayload) : N :=
  if bool_decide (tp_Stage p = PROD) && negb (tp_DeviceOwnerAccountKey p =? 0)%N
  then tp_DeviceOwnerAccountKey p else tp_RequestorAccountKey p.

(** [err := m; if err != nil { app.UnlockTransition(); return err }]. *)
Definition or_unlock {A} (l : loc) (m : Agent A) : Agent A :=
  let! r := try_ m in
  match r with
  | inl a => ret a
  | inr e => UnlockTransition l;; throw e
  end.

(** What follows the end of a transition. *)
Definition transition_done (l : loc) (p : TransitionPayload) (r : unit + error) : Agent unit :=
  UnlockTransition l;;
  match r with
  | inr e =>
      if IsNoActionTransition e then
        let! a := read_app l in
        Notify l (app_CurrentState a);;
        ignore UpdateTunnelState
      else if IsDockerStreamCanceled e then
        VerifyState l;;
        ignore UpdateTunnelState
      else
        ignore (Notify l FAILED);;
        if bool_decide (tp_Stage p = PROD) then incrementCrashLoop p;; ret tt else ret tt
  | inl _ =>
      VerifyState l;;
      ignore UpdateTunnelState
  end.

Definition locked_request (l : loc) (p : TransitionPayload) : Agent unit :=
  or_unlock l (UpdateCurrentAppState p);;
  let! token := or_unlock l (Store.GetRegistryToken (token_account p)) in
  let p := with_RegisteryToken token p in
  let! r := InitTransition l p in
  match r with
  | None => UnlockTransition l
  | Some r => transition_done l p r
  end.

Definition RequestAppState (p : TransitionPayload) : Agent unit :=
  let! found := GetApp (tp_AppKey p) (tp_Stage p) in
  match found with
  | None => throw (missing_app (tp_AppKey p) (tp_Stage p))
  | Some l =>
      let! (curAppState, requestedAppState) :=
        with_state_lock l (λ a, (app_CurrentState a, app_RequestedState a)) in
      let! a := read_app l in
      when (negb (tp_Retrying p)) (clearCrashLoop (app_AppKey a) (app_Stage a));;
      when (cancels_transfer curAppState requestedAppState p)
        (call (CancelFileTransfer (Dev (tp_ContainerName p))));;
      if tp_CancelTransition p then CancelTransition l p
      else if bool_decide (curAppState = UPDATING) then
        match tp_RequestedState p with
        | PRESENT | REMOVED | UNINSTALLED => CancelTransition l p
        | _ => ret tt
        end
      else
        refresh_credential p;;
        syncPortState p l;;
        let! locked := SecureTransition l in
        if locked then ret tt else locked_request l p
  end.

(** The body of the goroutine [retry] starts, once it has slept. *)
Definition crash_loop_attempt (task : CrashLoop) : Agent unit :=
  let p := cl_Payload task in
  let! found := find_task (tp_Stage p) (tp_AppKey p) in
  match found with
  | None => ret tt
  | Some _ =>
      let! r := try_ (GetApp (tp_AppKey p) (tp_Stage p)) in
      match r with
      | inl (Some l) =>
          let! currentState := with_state_lock l app_CurrentState in
          if bool_decide (currentState = tp_RequestedState p)
          then clearCrashLoop (tp_AppKey p) (tp_Stage p)
          else ignore (RequestAppState p)
      | _ => ret tt
      end
  end.

Definition HandleTransferFailure (containerName : string) : Agent unit :=
  let! found := GetAppByContainerName containerName in
  match found with
  | None => ret tt
  | Some l =>
      let! currentState := with_state_lock l app_CurrentState in
      if bool_decide (currentState = TRANSFERING) then ignore (Notify l REMOVED) else ret tt
  end.

(** ** Reconciliation *)

Definition IsInvalidOfflineTransition (a : App) (p : TransitionPayload) : bool :=
  let notInstalled := bool_decide (app_CurrentState a = REMOVED) || bool_decide (app_CurrentState a = UNINSTALLED) in
  bool_decide (app_RequestedState a = BUILT)
  || (notInstalled && bool_decide (tp_Stage p = PROD) && negb (wants_teardown (tp_RequestedState p)))
  || bool_decide (tp_RequestedState p = PUBLISHED)
  || (bool_decide (tp_RequestedState p = PRESENT) && tp_RequestUpdate p).

Definition ensure_local (p : TransitionPayload) (l : loc) : Agent unit :=
  let! a := with_state_lock l id in
  when (negb (IsInvalidOfflineTransition a p) && negb (bool_decide (app_CurrentState a = tp_RequestedState p)))
    (call (GoRequestAppState p)).

Definition EnsureLocalRequestedStates : Agent unit :=
  let! rStates := GetRequestedStates in
  for_each rStates (λ p,
    let! found := GetApp (tp_AppKey p) (tp_Stage p) in
    match found with
    | None => ret tt
    | Some l => background (ensure_local p l);; call (Sleep 100000000)
    end).

Definition skips_reconnect (p : TransitionPayload) : bool :=
  bool_decide (tp_Stage p = DEV) || bool_decide (tp_RequestedState p = PUBLISHED)
  || bool_decide (tp_RequestedState p = BUILT).

Definition EnsureRemoteRequestedStates : Agent unit :=
  let! payloads := GetRequestedStates in
  for_each payloads (λ p, when (negb (skips_reconnect p)) (call (GoRequestAppState p))).

Definition UpdateLocalRequestedAppStatesWithRemote (newestPayloads : list TransitionPayload) : Agent unit :=
  for_each newestPayloads (λ p, when (bool_decide (tp_Stage p = PROD)) (CreateOrUpdateApp p)).

Definition composeProjectLabel : string := "com.docker.compose.project".

Definition expected_containers (known : list App) : list string :=
  map (λ a, BuildContainerName (app_Stage a) (app_AppKey a) (app_AppName a)) known.
Definition expected_projects (known : list App) : list string :=
  map (λ a, NormalizeComposeProjectName
              (BuildComposeContainerName (app_Stage a) (app_AppKey a) (app_AppName a))) known.

(** Whether one name of a container without a project label makes it an orphan. *)
Definition orphan_name (known : list App) (name : string) : bool :=
  let cleanName := trim_prefix "/" name in
  if str_contains "_compose-" cleanName then false
  else match ParseContainerName cleanName with
       | inr _ => false
       | inl _ => negb (bool_decide (cleanName ∈ expected_containers known))
       end.

Definition is_orphan (known : list App) (c : Cont) : bool :=
  let project := default "" (map_get composeProjectLabel (ct_Labels c)) in
  if String.eqb project "" then existsb (orphan_name known) (ct_Names c)
  else if bool_decide (NormalizeComposeProjectName project ∈ expected_projects known) then false
  else match ParseComposeContainerName project with inr _ => false | inl _ => true end.

Definition CleanupOrphanedContainers : Agent unit :=
  let! containers := callE CtrList in
  let! known := GetAppStates in
  for_each containers (λ c, when (is_orphan known c) (best_effort (CtrRemove (ct_ID c)))).

Definition drop_by_name (name : string) : Agent unit :=
  let! r := call (CtrGet name) in
  match r with
  | inl cont => best_effort (CtrRemove (ct_ID cont))
  | inr _ => ret tt
  end.

Definition drop_app (a : App) : Agent unit :=
  drop_by_name (BuildContainerName (app_Stage a) (app_AppKey a) (app_AppName a));;
  drop_by_name (BuildComposeContainerName (app_Stage a) (app_AppKey a) (app_AppName a));;
  when (bool_decide (app_Stage a = DEV))
    (best_effort (ImgRemoveAllByName (BuildImageName (app_Stage a) "amd64" (app_AppKey a) (app_AppName a))));;
  ignore (DeleteAppState (app_AppKey a) (app_Stage a));;
  ignore (DeleteRequestedState (app_AppKey a) (app_Stage a)).

Definition app_id (appKey : N) (stage : Stage) : string := itoa appKey +:+ "_" +:+ stage_string stage.

Definition CleanupOrphanedAppsFromDatabase (remotePayloads : list TransitionPayload) : Agent unit :=
  let expectedApps := map (λ p, app_id (tp_AppKey p) (tp_Stage p)) remotePayloads in
  let! localApps := GetAppStates in
  for_each localApps (λ a,
    when (negb (bool_decide (app_id (app_AppKey a) (app_Stage a) ∈ expectedApps))) (drop_app a)).
End manager.
