(* ===== verification/Steps.v ===== *)
(** * The atomic steps of the agent

    Every handler of the agent core is a sequence of atomic steps: an external call,
    an update of one app object, an update of the tables, of the host ports, of the
    cancel registry, and so on.  The relation [step] has one constructor per kind of
    step, restricted to the kinds an argument allows; [does L m] says that [m] only
    ever takes steps of the kinds in [L].  An invariant of a handler then follows from
    [does] and a case analysis over the steps. *)
From S2P Require Import Prelude Errdefs GoValue Common Records Effects HostPorts World Store.
Open Scope go_scope.

(** ** Kinds of steps *)

Inductive kind :=
  | KCall | KUp | KStart | KGrow | KPublish (s : AppState) | KRequest
  | KCurrent | KTarget | KLock | KStateLock | KApp | KAlloc
  | KRows | KRegister | KClear | KCancel | KNext | KPorts | KCrash | KObserve.

(** Calls that download, build or start something are told apart, as are the
    publication of a state and the start of another request. *)
Definition call_kind {T} (c : AgentCall T) : kind :=
  match c with
  | ComposeUp _ _ => KUp
  | CtrStart _ => KStart
  | ImgPull _ _ _ | ImgPush _ _ _ | ImgBuild _ _ _ _ | ComposePull _ _ _
  | ComposePullIgnoreBuildable _ | ComposeBuild _ | ComposePush _ | CtrCreate _ _ _ => KGrow
  | SetActualAppOnDeviceState a => KPublish (as_state a)
  | GoRequestAppState _ => KRequest
  | GoObserve _ => KObserve
  | _ => KCall
  end.

(** The housekeeping kinds, which almost every handler uses. *)
Definition quiet (k : kind) : bool :=
  match k with KCall | KStateLock | KApp | KAlloc | KRows | KNext | KPorts => true | _ => false end.
Definition growing (k : kind) : bool := match k with KUp | KStart | KGrow => true | _ => false end.
Definition cancelling (k : kind) : bool := match k with KRegister | KClear | KCancel => true | _ => false end.
Definition notifying (k : kind) : bool := match k with KCurrent | KPublish _ => true | _ => false end.

(** What an update of an app object may change, by kind. *)
Definition app_change (k : kind) (f : App → App) : Prop := ∀ a,
  app_AppKey (f a) = app_AppKey a ∧ app_Stage (f a) = app_Stage a ∧ app_AppName (f a) = app_AppName a
  ∧ (k = KCurrent ∨ app_CurrentState (f a) = app_CurrentState a)
  ∧ (k = KTarget ∨ app_RequestedState (f a) = app_RequestedState a)
  ∧ (k = KLock ∨ app_locked (f a) = app_locked a)
  ∧ (k = KStateLock ∨ app_state_lock (f a) = app_state_lock a).

Definition after_call {T} (en : agent_env) (c : AgentCall T) (st : agent_state) : agent_state :=
  let r := answer en T c (log st) in
  mk_state (interfere en (Ev c r (world st) :: log st) (world st)) (Ev c r (world st) :: log st).

Definition on_world (f : World → World) (st : agent_state) : agent_state :=
  mk_state (f (world st)) (log st).

Section steps.
Variable en : agent_env.
Variable L : kind → Prop.

Inductive step (st : agent_state) : agent_state → Prop :=
  | step_call {T} (c : AgentCall T) : L (call_kind c) → step st (after_call en c st)
  | step_app k f l : L k → app_change k f → step st (on_world (λ w, set_heap (alter f l (heap w)) w) st)
  | step_alloc a : L KAlloc → app_locked a = false → app_state_lock a = false →
      step st (on_world (λ w, set_next_id (S (next_id w))
        (set_apps (apps w ++ [next_id w])%list (set_heap (<[next_id w := a]> (heap w)) w))) st)
  | step_states rows : L KRows → step st (on_world (set_AppStates rows) st)
  | step_requested rows : L KRows → step st (on_world (set_RequestedAppStates rows) st)
  | step_history rows : L KRows → step st (on_world (set_AppStateHistory rows) st)
  | step_register key c : L KRegister →
      step st (on_world (λ w, set_composeTransitionCancels (<[key := c]> (composeTransitionCancels w)) w) st)
  | step_clear key : L KClear →
      step st (on_world (λ w, set_composeTransitionCancels (delete key (composeTransitionCancels w)) w) st)
  | step_cancel c : L KCancel → step st (on_world (λ w, set_canceled ({[c]} ∪ canceled w) w) st)
  | step_next : L KNext → step st (on_world (λ w, set_next_id (S (next_id w)) w) st)
  | step_ports r : L KPorts → registry_step (hostPorts (world st)) r → step st (on_world (set_hostPorts r) st)
  | step_crash tasks : L KCrash → step st (on_world (set_crashLoops tasks) st).

Definition reach (st0 st : agent_state) : Prop := rtc step st0 st.

Definition does {A} (m : Agent A) : Prop := ∀ st0, keeps en (reach st0) m.

Lemma does_reach {A} (m : Agent A) st : does m → reach st (m en st).2.
Proof. intros Hm. apply (Hm st st). apply rtc_refl. Qed.

(** Invariants by induction on the steps. *)
Lemma does_keeps {A} (m : Agent A) (I : agent_state → Prop) :
  does m → (∀ st st', step st st' → I st → I st') → keeps en I m.
Proof.
  intros Hm HI st Hst. pose proof (does_reach m st Hm) as Hr.
  revert Hst. induction Hr as [|st1 st2 st3 Hs _ IH]; [done|]. eauto.
Qed.

Lemma does_step f st0 : (∀ st, step st (on_world f st)) → keeps en (reach st0) (modify f).
Proof. intros Hs. apply keeps_modify. intros st Hst. eapply rtc_r; [exact Hst|apply Hs]. Qed.

Lemma does_call {T} (c : AgentCall T) st0 : L (call_kind c) → keeps en (reach st0) (call c).
Proof. intros Hc. intros st Hst. eapply rtc_r; [exact Hst|]. by apply (step_call st c). Qed.

Lemma does_read_app l st0 : keeps en (reach st0) (read_app l).
Proof. unfold read_app. keeps_auto. Qed.

Lemma does_update_app k f l st0 : L k → app_change k f → keeps en (reach st0) (update_app l f).
Proof. intros Hk Hf. apply does_step. intros st. by apply step_app with k. Qed.

Lemma does_update_locked k f l st0 : L k → app_change k f → keeps en (reach st0) (update_locked l f).
Proof.
  intros Hk Hf. unfold update_locked. apply keeps_bind; [apply does_read_app|].
  intros a. destruct (app_state_lock a); [apply keeps_hang|]. by apply does_update_app with k.
Qed.

Lemma does_with_state_lock {A} l (f : App → A) st0 : keeps en (reach st0) (with_state_lock l f).
Proof. unfold with_state_lock. apply keeps_bind; [apply does_read_app|]. intros a. keeps_auto. Qed.

Lemma does_alloc_app a st0 :
  L KAlloc → app_locked a = false → app_state_lock a = false → keeps en (reach st0) (alloc_app a).
Proof.
  intros HL H1 H2. unfold alloc_app. apply triple_bind with (R := λ n st, reach st0 st ∧ next_id (world st) = n).
  - intros st Hst. by split.
  - intros n. apply triple_bind with (R := λ _, reach st0).
    + intros st [Hst <-]. eapply rtc_r; [exact Hst|]. by apply (step_alloc st a).
    + intros _. apply keeps_ret.
Qed.

Lemma does_new_context st0 : L KNext → keeps en (reach st0) new_context.
Proof.
  intros HL. unfold new_context. apply triple_bind with (R := λ n st, reach st0 st ∧ next_id (world st) = n).
  - intros st Hst. by split.
  - intros n. apply triple_bind with (R := λ _, reach st0).
    + intros st [Hst <-]. eapply rtc_r; [exact Hst|]. by apply step_next.
    + intros _. apply keeps_ret.
Qed.
End steps.

Lemma step_mono en (L L' : kind → Prop) st st' : (∀ k, L k → L' k) → step en L st st' → step en L' st st'.
Proof. intros HL Hs. destruct Hs; econstructor; eauto. Qed.
