(* ===== verification/Frames.v ===== *)
(** * What each handler may touch

    One lemma per handler of the agent core saying which kinds of steps it takes; the
    hint database [frames] composes them. *)
From S2P Require Import Prelude Errdefs GoValue Common Records Effects HostPorts ComposePorts World Store.
From S2P Require Import Steps TunnelRules EnvVars Observer Launch Transitions StateMachine AppManager.
Open Scope go_scope.

Create HintDb frames discriminated.

(** [L k] from an assumption on a class of kinds. *)
Ltac allowed :=
  cbn [call_kind];
  first [ assumption
        | match goal with HL : ∀ k, _ = true → ?L k |- ?L _ => apply HL; reflexivity end
        | match goal with HL : ∀ s, ?L (KPublish s) |- ?L (KPublish _) => apply HL end
        | match goal with HL : ∀ k, ?L k |- ?L _ => apply HL end
        | match goal with HL : ∀ k, k ≠ _ → ?L k |- ?L _ => apply HL; discriminate end ].

Ltac change_ok := intros ?; repeat split; first [left; reflexivity | right; reflexivity | reflexivity].

Ltac frame_leaf :=
  lazymatch goal with
  | |- keeps _ _ (call _) => apply does_call; allowed
  | |- keeps _ _ (read_app _) => apply does_read_app
  | |- keeps _ _ (with_state_lock _ _) => apply does_with_state_lock
  | |- keeps _ _ new_context => apply does_new_context; allowed
  | |- keeps _ _ (bind _ _) => fail
  | |- keeps _ _ (match _ with _ => _ end) => fail
  | |- keeps _ _ (modify _) => apply does_step; intros ?; solve [econstructor; allowed]
  | |- keeps _ _ _ => solve [eauto 3 with frames]
  end.

Ltac frame := intros; repeat first [frame_leaf | keeps_step | progress cbv beta zeta].

Section quiet_steps.
Context `{GoRuntime} `{Host}.
Variable en : agent_env.
Variable L : kind → Prop.
Hypothesis LQ : ∀ k, quiet k = true → L k.

#[local] Set Default Proof Using "Type*".

Abbreviation F m := (∀ st0, keeps en (reach en L st0) m).

(** ** Persistence and store *)

Lemma does_best_effort c : L (call_kind c) → F (best_effort c).
Proof. intros Hc. unfold best_effort. frame. Qed.
#[local] Hint Extern 1 (keeps _ _ (best_effort _)) => apply does_best_effort; allowed : frames.

Lemma does_db_or s m : (∀ st0, keeps en (reach en L st0) m) → F (db_or s m).
Proof. intros Hm. unfold db_or. frame. Qed.

Lemma does_db s : F (db s).
Proof. unfold db. intros. apply does_db_or. frame. Qed.
#[local] Hint Resolve does_db : frames.

Lemma does_lock_state l : F (lock_state l).
Proof. unfold lock_state. frame. apply does_update_app with KStateLock; [allowed|change_ok]. Qed.
Lemma does_unlock_state l : F (unlock_state l).
Proof. unfold unlock_state. frame. apply does_update_app with KStateLock; [allowed|change_ok]. Qed.
#[local] Hint Resolve does_lock_state does_unlock_state : frames.
#[local] Hint Extern 1 (keeps _ _ (db_or _ _)) => apply does_db_or; intros : frames.

Lemma does_GetRequestedState k s : F (GetRequestedState k s).
Proof. unfold GetRequestedState. frame. Qed.
Lemma does_GetRequestedStates : F GetRequestedStates.
Proof. unfold GetRequestedStates. frame. Qed.
#[local] Hint Resolve does_GetRequestedState does_GetRequestedStates : frames.

Lemma does_UpsertRequestedStateChange p : F (UpsertRequestedStateChange p).
Proof. unfold UpsertRequestedStateChange. frame. Qed.
Lemma does_DeleteRequestedState k s : F (DeleteRequestedState k s).
Proof. unfold DeleteRequestedState. frame. Qed.
Lemma does_DeleteAppState k s : F (DeleteAppState k s).
Proof. unfold DeleteAppState. frame. Qed.
Lemma does_insertAppState l : F (insertAppState l).
Proof. unfold insertAppState. frame. Qed.
#[local] Hint Resolve does_UpsertRequestedStateChange does_DeleteRequestedState does_DeleteAppState
  does_insertAppState : frames.

Lemma does_UpsertAppState l s : F (UpsertAppState l s).
Proof. unfold UpsertAppState, write_app_state. frame. Qed.
#[local] Hint Resolve does_UpsertAppState : frames.

Ltac app_field k := first [apply does_update_locked with k | apply does_update_app with k]; [allowed|change_ok].

Lemma does_GetAppState k s : F (GetAppState k s).
Proof. unfold GetAppState. frame. Qed.
Lemma does_GetAppStates : F GetAppStates.
Proof. unfold GetAppStates. frame. Qed.
#[local] Hint Resolve does_GetAppState does_GetAppStates : frames.

Lemma locks_free_app_of_row r : app_locked (app_of_row r) = false ∧ app_state_lock (app_of_row r) = false.
Proof. done. Qed.

(** An app read back from its row comes with its locks free. *)
Lemma GetAppState_unlocked k s :
  ∀ P, triple en P (GetAppState k s)
    (on_ok (λ o _, match o with Some a => app_locked a = false ∧ app_state_lock a = false | None => True end)).
Proof.
  intros P st _. unfold GetAppState, on_ok.
  set (r := bind _ _ en st). destruct r as [[[a|]| | |] st'] eqn:E; try done. simpl. subst r.
  revert E. unfold bind, db, db_or, gets, call, best_effort, try_, ret, throw.
  repeat match goal with
  | |- context [match ?x with _ => _ end] => destruct x eqn:?; simplify_eq/=
  end; intros; simplify_eq/=; done.
Qed.

Lemma does_GetApp k s : F (GetApp k s).
Proof.
  unfold GetApp. intros st0. apply keeps_bind; [apply keeps_gets|]. intros [l|]; [frame|].
  apply triple_bind with (R := λ o st, reach en L st0 st ∧
    match o with Some a => app_locked a = false ∧ app_state_lock a = false | None => True end).
  - intros st Hst. pose proof (does_GetAppState k s st0 st Hst) as H1.
    pose proof (GetAppState_unlocked k s (λ _, True) st I) as H2.
    destruct (GetAppState k s en st) as [[[a|]| | |] st']; done.
  - intros [a|].
    + intros st [Hst [H1 H2]].
      assert (HF : F (let! l := alloc_app a in ret (Some l))).
      { intros. apply keeps_bind; [|intros; apply keeps_ret]. apply does_alloc_app; [allowed|done..]. }
      by apply HF.
    + by intros st [Hst _].
Qed.
#[local] Hint Resolve does_GetApp : frames.

Lemma does_AddApp p : F (AddApp p).
Proof. unfold AddApp. frame. apply does_alloc_app; [allowed|done..]. Qed.
Lemma does_UpdateLocalRequestedState p : F (UpdateLocalRequestedState p).
Proof. unfold UpdateLocalRequestedState. frame. Qed.
Lemma does_UpdateLocalAppState l s : F (UpdateLocalAppState l s).
Proof. unfold UpdateLocalAppState. frame; app_field KApp. Qed.
Lemma does_GetRegistryToken k : F (Store.GetRegistryToken k).
Proof. unfold Store.GetRegistryToken. frame. Qed.
Lemma does_GetAppByContainerName n : F (GetAppByContainerName n).
Proof. unfold GetAppByContainerName. frame. Qed.
#[local] Hint Resolve does_AddApp does_UpdateLocalRequestedState does_UpdateLocalAppState
  does_GetRegistryToken does_GetAppByContainerName : frames.

Lemma confirm_update_change : app_change KApp confirm_update.
Proof. intros a. unfold confirm_update. destruct (bool_decide _); simpl; tauto. Qed.

Lemma does_UpdateRemoteAppState l s : L (KPublish s) → F (UpdateRemoteAppState l s).
Proof.
  intros Hs. unfold UpdateRemoteAppState. frame.
  apply does_update_locked with KApp; [allowed|apply confirm_update_change].
Qed.

Lemma does_NotifyRemote l s : L (KPublish s) → F (NotifyRemote l s).
Proof. unfold NotifyRemote. by apply does_UpdateRemoteAppState. Qed.

Lemma does_NotifyLocal l s : L KCurrent → F (NotifyLocal l s).
Proof. intros Hc. unfold NotifyLocal. frame. app_field KCurrent. Qed.

Lemma does_Notify l s : L KCurrent → L (KPublish s) → F (Notify l s).
Proof. intros Hc Hs. unfold Notify. intros. apply keeps_bind; [by apply does_NotifyLocal|]. intros. by apply does_NotifyRemote. Qed.

Lemma does_setState l s : L KCurrent → L (KPublish s) → F (setState l s).
Proof. apply does_Notify. Qed.

(** ** Environment *)

Lemma does_of_option {A} (o : option A) : F (of_option o).
Proof. unfold of_option. frame. Qed.
#[local] Hint Resolve does_of_option : frames.
Lemma does_default_environment p l : F (default_environment p l).
Proof. unfold default_environment. frame. Qed.
Lemma does_remotePortEnvVars n rules : F (remotePortEnvVars n rules).
Proof. induction rules; simpl; frame; apply IHrules. Qed.
Lemma does_writeEnvFile d n p : F (writeEnvFile d n p).
Proof. unfold writeEnvFile. frame. Qed.
Lemma does_removeEnvFile d n : F (removeEnvFile d n).
Proof. unfold removeEnvFile. frame. Qed.
Lemma does_writeSecretEnvFile d n p : F (writeSecretEnvFile d n p).
Proof. unfold writeSecretEnvFile. frame. Qed.
#[local] Hint Resolve does_default_environment does_remotePortEnvVars does_writeEnvFile
  does_removeEnvFile does_writeSecretEnvFile : frames.
Lemma does_refresh_rule_files d r : F (refresh_rule_files d r).
Proof. unfold refresh_rule_files. frame. Qed.
#[local] Hint Resolve does_refresh_rule_files : frames.
Lemma does_refreshRemotePortEnvFiles s n rules : F (refreshRemotePortEnvFiles s n rules).
Proof. unfold refreshRemotePortEnvFiles. frame. Qed.
Lemma does_refreshAppCredentialEnvFiles k p : F (refreshAppCredentialEnvFiles k p).
Proof. unfold refreshAppCredentialEnvFiles. frame. Qed.
Lemma does_writeEnvironmentVariablesToFiles d vs : F (writeEnvironmentVariablesToFiles d vs).
Proof. unfold writeEnvironmentVariablesToFiles. frame. Qed.
#[local] Hint Resolve does_refreshRemotePortEnvFiles does_refreshAppCredentialEnvFiles
  does_writeEnvironmentVariablesToFiles : frames.

(** ** Host ports *)

Lemma does_with_ports {A} (f : (string → N → bool) → HostPortRegistry → A * HostPortRegistry) :
  (∀ probe r, registry_step r (f probe r).2) → F (with_ports f).
Proof.
  intros Hf st0. unfold with_ports. apply keeps_bind; [frame_leaf|intros probe].
  apply triple_bind with (R := λ r st, reach en L st0 st ∧ hostPorts (world st) = r).
  - intros st Hst. by split.
  - intros r. destruct (f probe r) as [a r'] eqn:E. apply triple_bind with (R := λ _, reach en L st0).
    + intros st [Hst <-]. eapply rtc_r; [exact Hst|]. apply (step_ports en L st r'); [allowed|].
      specialize (Hf probe (hostPorts (world st))). by rewrite E in Hf.
    + intros _. apply keeps_ret.
Qed.

Lemma does_recover_or_reserve key pref : F (recover_or_reserve key pref).
Proof. unfold recover_or_reserve. frame. apply does_with_ports. intros. apply step_recover. Qed.
Lemma does_reassign_fresh key : F (reassign_fresh key).
Proof. unfold reassign_fresh. frame. apply does_with_ports. intros. apply step_reassign. Qed.
Lemma does_reserve_declared key : F (reserve_declared key).
Proof.
  intros st0. unfold reserve_declared.
  apply triple_bind with (R := λ r st, reach en L st0 st ∧ hostPorts (world st) = r).
  - intros st Hst. by split.
  - intros r. destruct (ReserveDeclared r key) as [ok r'] eqn:E. apply triple_bind with (R := λ _, reach en L st0).
    + intros st [Hst <-]. eapply rtc_r; [exact Hst|]. apply (step_ports en L st r'); [allowed|].
      pose proof (step_declared (hostPorts (world st)) key) as Hf. by rewrite E in Hf.
    + intros _. apply keeps_ret.
Qed.
#[local] Hint Resolve does_recover_or_reserve does_reassign_fresh does_reserve_declared : frames.

(** ** Launching: what never downloads, starts or publishes *)

Lemma does_log_write t m : F (log_write t m).
Proof. unfold log_write. frame. Qed.
Lemma does_publishedComposeHostPorts p : F (publishedComposeHostPorts p).
Proof. unfold publishedComposeHostPorts. frame. Qed.
#[local] Hint Resolve does_log_write does_publishedComposeHostPorts : frames.
Lemma does_findComposeRulePort p r : F (findComposeRulePort p r).
Proof. unfold findComposeRulePort. frame. Qed.
#[local] Hint Resolve does_findComposeRulePort : frames.
Lemma does_preferred_tunnel_port p r : F (preferred_tunnel_port p r).
Proof. unfold preferred_tunnel_port. frame. Qed.
#[local] Hint Resolve does_preferred_tunnel_port : frames.
Lemma does_resolveTunnelHostPort p r : F (resolveTunnelHostPort p r).
Proof. unfold resolveTunnelHostPort. frame. Qed.
Lemma does_reserve_launch s k n : F (reserve_launch s k n).
Proof. unfold reserve_launch. frame. Qed.
#[local] Hint Resolve does_resolveTunnelHostPort does_reserve_launch : frames.
Lemma does_reserveLaunchHostPort p r b : F (reserveLaunchHostPort p r b).
Proof. unfold reserveLaunchHostPort. frame. Qed.
#[local] Hint Resolve does_reserveLaunchHostPort : frames.
Lemma does_bind_rules p n b rules e bs : F (bind_rules p n b rules e bs).
Proof. revert e bs. induction rules; intros; simpl; frame. Qed.
#[local] Hint Resolve does_bind_rules : frames.
Lemma does_computePortBindings p rules n : F (computePortBindings p rules n).
Proof. unfold computePortBindings. frame. Qed.
Lemma does_rewrite_port p pub rules n raw : F (rewrite_port p pub rules n raw).
Proof. unfold rewrite_port. frame. Qed.
#[local] Hint Resolve does_computePortBindings does_rewrite_port : frames.
Lemma does_rewrite_services p pub rules ss : F (rewrite_services p pub rules ss).
Proof. induction ss; intros; simpl; frame. Qed.
#[local] Hint Resolve does_rewrite_services : frames.
Lemma does_rewriteComposeHostPorts p dc : F (rewriteComposeHostPorts p dc).
Proof. unfold rewriteComposeHostPorts. frame. Qed.
Lemma does_reassign_key m k : F (reassign_key m k).
Proof. unfold reassign_key. frame. Qed.
#[local] Hint Resolve does_rewriteComposeHostPorts does_reassign_key : frames.
Lemma does_reassign_keys m ks b : F (reassign_keys m ks b).
Proof. revert b. induction ks; intros; simpl; frame. Qed.
#[local] Hint Resolve does_reassign_keys : frames.
Lemma does_reassignComposePorts p e : F (reassignComposePortsAfterBindConflict p e).
Proof. unfold reassignComposePortsAfterBindConflict. frame. Qed.
Lemma does_reassignPorts p e : F (reassignPortsAfterBindConflict p e).
Proof. unfold reassignPortsAfterBindConflict. frame. Qed.
Lemma does_template_defaults p : F (template_defaults p).
Proof. unfold template_defaults. frame. Qed.
#[local] Hint Resolve does_reassignComposePorts does_reassignPorts does_template_defaults : frames.
Lemma does_generateDotEnvContents p l dc : F (generateDotEnvContents p l dc).
Proof. unfold generateDotEnvContents. frame. Qed.
#[local] Hint Resolve does_generateDotEnvContents : frames.
Lemma does_SetupComposeFiles p l u : F (SetupComposeFiles p l u).
Proof. unfold SetupComposeFiles. frame. Qed.
Lemma does_HandleRegistryLogins p : F (HandleRegistryLoginsWithDefault p).
Proof. unfold HandleRegistryLoginsWithDefault. frame. Qed.
#[local] Hint Resolve does_SetupComposeFiles does_HandleRegistryLogins : frames.
Lemma does_logins_or_report t p : F (logins_or_report t p).
Proof. unfold logins_or_report. frame. Qed.
Lemma does_composeTransitionErr c e : F (composeTransitionErr c e).
Proof. unfold composeTransitionErr, context_canceled. frame. Qed.
#[local] Hint Resolve does_logins_or_report does_composeTransitionErr : frames.
Lemma does_cancelable ctx c : L (call_kind c) → F (cancelable ctx c).
Proof. intros Hc. unfold cancelable. frame. Qed.
#[local] Hint Extern 1 (keeps _ _ (cancelable _ _)) => apply does_cancelable; allowed : frames.
Lemma does_require_compose t : F (require_compose t).
Proof. unfold require_compose. frame. Qed.
Lemma does_teardownComposeProject d : F (teardownComposeProject d).
Proof. unfold teardownComposeProject. frame. Qed.
Lemma does_stream_blocking t ty m : F (stream_blocking t ty m).
Proof. unfold stream_blocking. frame. Qed.
Lemma does_tolerate_exists c : L (call_kind c) → F (tolerate_exists c).
Proof. intros. unfold tolerate_exists. frame. Qed.
Lemma does_tolerate_not_found c : L (call_kind c) → F (tolerate_not_found c).
Proof. intros. unfold tolerate_not_found. frame. Qed.
#[local] Hint Extern 1 (keeps _ _ (tolerate_exists _)) => apply does_tolerate_exists; allowed : frames.
#[local] Hint Extern 1 (keeps _ _ (tolerate_not_found _)) => apply does_tolerate_not_found; allowed : frames.
Lemma does_computeMounts s n : F (computeMounts s n).
Proof. unfold computeMounts. frame. Qed.
Lemma does_write_env_files d vs : F (write_env_files d vs).
Proof. unfold write_env_files. frame. Qed.
Lemma does_networkConfigOutdated c h n : F (containerNetworkConfigOutdated c h n).
Proof. unfold containerNetworkConfigOutdated. frame. Qed.
#[local] Hint Resolve does_require_compose does_teardownComposeProject does_stream_blocking does_computeMounts
  does_write_env_files does_networkConfigOutdated : frames.

Lemma does_compose_up_failed d t e : F (compose_up_failed d t e).
Proof. unfold compose_up_failed. frame. Qed.
#[local] Hint Resolve does_compose_up_failed : frames.

Lemma does_composeUp p l d t : L KUp → F (composeUp p l d t).
Proof.
  intros HU. unfold composeUp. generalize composeUpAttempts (Plain "").
  intros n. induction n; intros; simpl; frame.
Qed.

(** ** Waiting, stopping, stopping streams *)

Lemma does_poll_until_error id : F (poll_until_error id).
Proof. unfold poll_until_error. frame. Qed.
#[local] Hint Resolve does_poll_until_error : frames.
Lemma does_await_gone id : F (await_gone id).
Proof. unfold await_gone. frame. Qed.
Lemma does_wrap {A} msg (m : Agent A) : F m → F (wrap msg m).
Proof. intros Hm. unfold wrap. frame. Qed.
Lemma does_await_running t1 t2 id : F (await_running t1 t2 id).
Proof. unfold await_running. frame. Qed.
Lemma does_await_compose_running d t : F (await_compose_running d t).
Proof. unfold await_compose_running. frame. Qed.
Lemma does_stream_compose_logs d t : F (stream_compose_logs d t).
Proof. unfold stream_compose_logs. frame. Qed.
Lemma does_missing_for_install p b : F (missing_for_install p b).
Proof. unfold missing_for_install. frame. Qed.
Lemma does_remove_old_container n : F (remove_old_container n).
Proof. unfold remove_old_container. frame. Qed.
Lemma does_container_to_stop n : F (container_to_stop n).
Proof. unfold container_to_stop. frame. Qed.
Lemma does_app_build_id l : F (app_build_id l).
Proof. unfold app_build_id. frame. Qed.
Lemma does_drop_container n : F (drop_container n).
Proof. unfold drop_container. frame. apply does_await_gone. Qed.
Lemma does_release_host_ports p : F (release_host_ports p).
Proof.
  intros st0. unfold release_host_ports. apply keeps_modify. intros st Hst. eapply rtc_r; [exact Hst|].
  apply (step_ports en L st); [allowed|apply step_release].
Qed.
Lemma does_check_update p l : F (check_update p l).
Proof. unfold check_update. frame. Qed.
Lemma does_mark_canceled l : F (mark_canceled l).
Proof. unfold mark_canceled. frame. app_field KApp. Qed.
#[local] Hint Resolve does_await_gone does_await_running does_await_compose_running does_stream_compose_logs
  does_missing_for_install does_remove_old_container does_container_to_stop does_app_build_id
  does_drop_container does_release_host_ports does_check_update does_mark_canceled : frames.
Lemma does_persistPostUpdate p l : F (persistPostUpdateRequestedState p l).
Proof. unfold persistPostUpdateRequestedState. frame. Qed.

(** ** Ports and credentials of a request *)

Lemma does_UpdateTunnelState : F UpdateTunnelState.
Proof. unfold UpdateTunnelState. frame. Qed.
Lemma does_ensure_tunnel p r d : F (ensure_tunnel p r d).
Proof. unfold ensure_tunnel. frame. Qed.
#[local] Hint Resolve does_UpdateTunnelState does_ensure_tunnel : frames.
Lemma does_sync_rule p b1 b2 r : F (sync_rule p b1 b2 r).
Proof. unfold sync_rule. frame. Qed.
#[local] Hint Resolve does_sync_rule : frames.
Lemma does_syncPortState p l : F (syncPortState p l).
Proof. unfold syncPortState. frame. Qed.
Lemma does_refresh_credential p : F (refresh_credential p).
Proof. unfold refresh_credential. frame. Qed.
#[local] Hint Resolve does_syncPortState does_refresh_credential : frames.
End quiet_steps.

(** Outside the section the hints carry the assumption on the allowed kinds. *)
#[export] Hint Resolve does_db does_lock_state does_unlock_state does_GetRequestedState
  does_GetRequestedStates does_UpsertRequestedStateChange does_DeleteRequestedState
  does_DeleteAppState does_insertAppState does_UpsertAppState does_GetAppState does_GetAppStates
  does_GetApp does_AddApp does_UpdateLocalRequestedState does_UpdateLocalAppState
  does_GetRegistryToken does_GetAppByContainerName does_of_option does_default_environment
  does_remotePortEnvVars does_writeEnvFile does_removeEnvFile does_writeSecretEnvFile
  does_refresh_rule_files does_refreshRemotePortEnvFiles does_refreshAppCredentialEnvFiles
  does_writeEnvironmentVariablesToFiles does_recover_or_reserve does_reassign_fresh
  does_reserve_declared does_log_write does_publishedComposeHostPorts does_findComposeRulePort
  does_preferred_tunnel_port does_resolveTunnelHostPort does_reserve_launch
  does_reserveLaunchHostPort does_bind_rules does_computePortBindings does_rewrite_port
  does_rewrite_services does_rewriteComposeHostPorts does_reassign_key does_reassign_keys
  does_reassignComposePorts does_reassignPorts does_template_defaults
  does_generateDotEnvContents does_SetupComposeFiles does_HandleRegistryLogins
  does_logins_or_report does_composeTransitionErr does_require_compose
  does_teardownComposeProject does_stream_blocking does_computeMounts does_write_env_files
  does_networkConfigOutdated does_compose_up_failed does_poll_until_error does_await_gone
  does_await_running does_await_compose_running does_stream_compose_logs
  does_missing_for_install does_remove_old_container does_container_to_stop does_app_build_id
  does_drop_container does_release_host_ports does_check_update does_mark_canceled
  does_persistPostUpdate does_UpdateTunnelState does_ensure_tunnel does_sync_rule
  does_syncPortState does_refresh_credential : frames.
#[export] Hint Extern 1 (keeps _ _ (best_effort _)) => apply does_best_effort; allowed : frames.
#[export] Hint Extern 1 (keeps _ _ (UpdateRemoteAppState _ _)) => apply does_UpdateRemoteAppState; allowed : frames.
#[export] Hint Extern 1 (keeps _ _ (NotifyRemote _ _)) => apply does_NotifyRemote; allowed : frames.
#[export] Hint Extern 1 (keeps _ _ (NotifyLocal _ _)) => apply does_NotifyLocal; allowed : frames.
#[export] Hint Extern 1 (keeps _ _ (Notify _ _)) => apply does_Notify; allowed : frames.
#[export] Hint Extern 1 (keeps _ _ (setState _ _)) => apply does_setState; allowed : frames.
#[export] Hint Extern 1 (keeps _ _ (cancelable _ _)) => apply does_cancelable; allowed : frames.
#[export] Hint Extern 1 (keeps _ _ (tolerate_exists _)) => apply does_tolerate_exists; allowed : frames.
#[export] Hint Extern 1 (keeps _ _ (tolerate_not_found _)) => apply does_tolerate_not_found; allowed : frames.
#[export] Hint Extern 1 (keeps _ _ (composeUp _ _ _ _)) => apply does_composeUp; allowed : frames.
#[export] Hint Extern 1 (keeps _ _ (db_or _ _)) => apply does_db_or; [allowed|intros] : frames.
#[export] Hint Extern 1 (keeps _ _ (wrap _ _)) => apply does_wrap; [allowed|frame] : frames.

(** ** The cancel registry *)

Section cancel_steps.
Variable en : agent_env.
Variable L : kind → Prop.
Hypothesis LQ : ∀ k, quiet k = true → L k.
Hypothesis LC : ∀ k, cancelling k = true → L k.

#[local] Set Default Proof Using "Type*".

Abbreviation F m := (∀ st0, keeps en (reach en L st0) m).

Lemma does_register s k c : F (registerComposeTransitionCancel s k c).
Proof. intros st0. apply does_step. intros st. apply step_register. allowed. Qed.
Lemma does_clear s k : F (clearComposeTransitionCancel s k).
Proof. intros st0. apply does_step. intros st. apply step_clear. allowed. Qed.
Lemma does_cancel_context c : F (cancel_context c).
Proof. intros st0. apply does_step. intros st. apply step_cancel. allowed. Qed.
#[local] Hint Resolve does_register does_clear does_cancel_context : frames.
Lemma does_cancelComposeTransition s k : F (cancelComposeTransition s k).
Proof. unfold cancelComposeTransition. frame. Qed.
Lemma does_release_cancel p c : F (release_cancel p c).
Proof. unfold release_cancel. frame. Qed.
#[local] Hint Resolve does_cancelComposeTransition : frames.
Lemma does_cancelActiveUpdate p : F (cancelActiveUpdate p).
Proof. unfold cancelActiveUpdate. frame. Qed.
End cancel_steps.

#[export] Hint Resolve does_register does_clear does_cancel_context does_cancelComposeTransition
  does_release_cancel does_cancelActiveUpdate : frames.

(** ** Pulling images and creating containers *)

Definition pulling (k : kind) : bool :=
  quiet k || cancelling k || notifying k || match k with KGrow => true | _ => false end.

Section pull_steps.
Context `{GoRuntime} `{Host}.
Variable en : agent_env.
Variable L : kind → Prop.
Hypothesis LP : ∀ k, pulling k = true → L k.

#[local] Set Default Proof Using "Type*".

Lemma LQ_pulling : ∀ k, quiet k = true → L k.
Proof. intros k Hk. apply LP. unfold pulling. by rewrite Hk. Qed.
Lemma LC_pulling : ∀ k, cancelling k = true → L k.
Proof. intros k Hk. apply LP. unfold pulling. rewrite Hk. by destruct (quiet k). Qed.

Abbreviation F m := (∀ st0, keeps en (reach en L st0) m).

Ltac walk := let HQ := fresh in let HC := fresh in
  pose proof LQ_pulling as HQ; pose proof LC_pulling as HC; frame.

Lemma does_pullComposeImages c p d ss : F (pullComposeImages c p d ss).
Proof. unfold pullComposeImages. walk. Qed.
#[local] Hint Resolve does_pullComposeImages : frames.
Lemma does_pullComposeApp p l : F (pullComposeApp p l).
Proof. unfold pullComposeApp. walk. Qed.
Lemma does_pull_or_report t i p : F (pull_or_report t i p).
Proof. unfold pull_or_report. walk. Qed.
#[local] Hint Resolve does_pullComposeApp does_pull_or_report : frames.
Lemma does_pullApp p l : F (pullApp p l).
Proof. unfold pullApp. walk. Qed.
#[local] Hint Resolve does_pullApp : frames.
Lemma does_pull_if_missing p l : F (pull_if_missing p l).
Proof. unfold pull_if_missing. walk. Qed.
#[local] Hint Resolve does_pull_if_missing : frames.
Lemma does_computeContainerConfigs p l : F (computeContainerConfigs p l).
Proof. unfold computeContainerConfigs. walk. Qed.
Lemma does_create_fresh p l n c h : F (create_fresh p l n c h).
Proof. unfold create_fresh. walk. Qed.
#[local] Hint Resolve does_computeContainerConfigs does_create_fresh : frames.
Lemma does_createContainer p l c h : F (createContainer p l c h).
Proof. unfold createContainer. walk. Qed.
#[local] Hint Resolve does_createContainer : frames.
End pull_steps.

#[export] Hint Resolve does_pullComposeImages does_pullComposeApp does_pull_or_report does_pullApp
  does_pull_if_missing does_computeContainerConfigs does_create_fresh does_createContainer : frames.

(** Everything a transition does, short of the transition lock. *)
Definition transitional (k : kind) : bool := quiet k || growing k || cancelling k || notifying k.

Section transition_steps.
Context `{GoRuntime} `{Host}.
Variable en : agent_env.
Variable L : kind → Prop.
Hypothesis LT : ∀ k, transitional k = true → L k.

#[local] Set Default Proof Using "Type*".

Lemma LQ_transitional : ∀ k, quiet k = true → L k.
Proof. intros k Hk. apply LT. unfold transitional. by rewrite Hk. Qed.

Abbreviation F m := (∀ st0, keeps en (reach en L st0) m).

Lemma LC_transitional : ∀ k, cancelling k = true → L k.
Proof. intros k Hk. apply LT. unfold transitional. rewrite Hk. by destruct (quiet k), (growing k). Qed.

Lemma LP_transitional : ∀ k, pulling k = true → L k.
Proof. intros k Hk. apply LT. by destruct k. Qed.

Ltac walk := let HQ := fresh in let HC := fresh in let HP := fresh in
  pose proof LQ_transitional as HQ; pose proof LC_transitional as HC; pose proof LP_transitional as HP; frame.

Lemma does_startContainerOnce p l : F (startContainerOnce p l).
Proof. unfold startContainerOnce. walk. Qed.
#[local] Hint Resolve does_startContainerOnce : frames.
Lemma does_startContainer p l : F (startContainer p l).
Proof.
  unfold startContainer. generalize 3%nat (Plain ""). intros n. induction n; intros; simpl; walk.
Qed.
#[local] Hint Resolve does_startContainer : frames.

(** ** Transitions *)

Lemma does_runDevComposeApp p l : F (runDevComposeApp p l).
Proof. unfold runDevComposeApp. walk. Qed.
Lemma does_run_prod_compose p l m c : F (run_prod_compose p l m c).
Proof. unfold run_prod_compose. walk. Qed.
#[local] Hint Resolve does_run_prod_compose : frames.
Lemma does_runProdComposeApp p l : F (runProdComposeApp p l).
Proof. unfold runProdComposeApp. walk. Qed.
#[local] Hint Resolve does_runDevComposeApp does_runProdComposeApp : frames.
Lemma does_runProdApp p l : F (runProdApp p l).
Proof. unfold runProdApp. walk. Qed.
Lemma does_runDevApp p l : F (runDevApp p l).
Proof. unfold runDevApp. walk. Qed.
#[local] Hint Resolve does_runProdApp does_runDevApp : frames.
Lemma does_runApp p l : F (runApp p l).
Proof. unfold runApp. walk. Qed.
Lemma does_stop_compose t p l : F (stop_compose t p l).
Proof. unfold stop_compose. walk. Qed.
Lemma does_stop_container t i c p l : F (stop_container t i c p l).
Proof. unfold stop_container. walk. Qed.
#[local] Hint Resolve does_runApp does_stop_compose does_stop_container : frames.
Lemma does_stopDevApp p l : F (stopDevApp p l).
Proof. unfold stopDevApp, stopDevComposeApp. walk. Qed.
Lemma does_stopProdApp p l : F (stopProdApp p l).
Proof. unfold stopProdApp, stopProdComposeApp. walk. Qed.
#[local] Hint Resolve does_stopDevApp does_stopProdApp : frames.
Lemma does_stopApp p l : F (stopApp p l).
Proof. unfold stopApp. walk. Qed.
Lemma does_removeComposeApp p l : F (removeComposeApp p l).
Proof. unfold removeComposeApp, begin_removal, end_removal. walk. Qed.
Lemma does_remove_container t i p l : F (remove_container_and_images t i p l).
Proof. unfold remove_container_and_images, begin_removal, end_removal. walk. Qed.
#[local] Hint Resolve does_stopApp does_removeComposeApp does_remove_container : frames.
Lemma does_removeApp p l : F (removeApp p l).
Proof. unfold removeApp, removeDevApp, removeProdApp. walk. Qed.
#[local] Hint Resolve does_removeApp : frames.
Lemma does_uninstallApp p l : F (uninstallApp p l).
Proof. unfold uninstallApp. walk. Qed.
Lemma does_run_build p t d b l : F (run_build p t d b l).
Proof. unfold run_build. walk. Qed.
Lemma does_build_image p l t d : F (build_image p l t d).
Proof. unfold build_image. walk. Qed.
#[local] Hint Resolve does_uninstallApp does_run_build does_build_image : frames.
Lemma does_set_ReleaseBuild b l : F (update_app l (app_set_ReleaseBuild b)).
Proof. intros. apply does_update_app with KApp; [allowed|change_ok]. Qed.
#[local] Hint Resolve does_set_ReleaseBuild : frames.
Lemma does_buildDevApp p l b : F (buildDevApp p l b).
Proof. unfold buildDevApp, buildDevComposeApp. walk. Qed.
#[local] Hint Resolve does_buildDevApp : frames.
Lemma does_buildApp p l : F (buildApp p l).
Proof. unfold buildApp. walk. Qed.
Lemma does_rehost_service p s : F (rehost_service p s).
Proof. unfold rehost_service, rehost_image. walk. Qed.
#[local] Hint Resolve does_buildApp does_rehost_service : frames.
Lemma does_rehostSourceImages p : F (rehostSourceImages p).
Proof. unfold rehostSourceImages. walk. Qed.
#[local] Hint Resolve does_rehostSourceImages : frames.
Lemma does_publishApp p l : F (publishApp p l).
Proof. unfold publishApp, publishComposeApp. walk. Qed.
#[local] Hint Resolve does_publishApp : frames.
Lemma does_removeAndPublishApp p l : F (removeAndPublishApp p l).
Proof. unfold removeAndPublishApp, removeDevApp. walk. Qed.
Lemma does_installed_update p l : F (update_locked l (installed_update p)).
Proof. intros. apply does_update_locked with KApp; [allowed|change_ok]. Qed.
#[local] Hint Resolve does_removeAndPublishApp does_installed_update : frames.
Lemma does_updateApp p l : F (updateApp p l).
Proof. unfold updateApp, updateComposeApp, update_compose_steps. walk. Qed.
#[local] Hint Resolve does_updateApp : frames.

Lemma does_run_transition t p l : F (run_transition t p l).
Proof.
  destruct t; simpl; unfold removedToPresent, removedToRunning, noActionTransitionFunc, cancelPush,
    cancelBuild, recoverFailToPresentHandler, recoverFailToRunningHandler, cancelTransfer, cancelPull,
    cancelUpdate, cancelUpdateAndRemove, cancelUpdateAndUninstall; walk.
Qed.
#[local] Hint Resolve does_run_transition : frames.
Lemma does_executeTransition t p l : F (executeTransition t p l).
Proof. unfold executeTransition. walk. Qed.
Lemma does_CancelTransition l p : F (CancelTransition l p).
Proof. unfold CancelTransition. walk. Qed.
#[local] Hint Resolve does_executeTransition : frames.
Lemma does_InitTransition l p : F (InitTransition l p).
Proof. unfold InitTransition. walk. Qed.
End transition_steps.

#[export] Hint Resolve does_startContainerOnce does_startContainer does_runDevComposeApp
  does_run_prod_compose does_runProdComposeApp does_runProdApp does_runDevApp does_runApp
  does_stop_compose does_stop_container does_stopDevApp does_stopProdApp does_stopApp
  does_removeComposeApp does_remove_container does_removeApp does_uninstallApp does_run_build
  does_build_image does_set_ReleaseBuild does_buildDevApp does_buildApp does_rehost_service
  does_rehostSourceImages does_publishApp does_removeAndPublishApp does_installed_update
  does_updateApp does_run_transition does_executeTransition does_CancelTransition
  does_InitTransition : frames.

(** The manager's bookkeeping around a transition. *)
Definition bookkeeping (k : kind) : bool :=
  quiet k || notifying k || match k with KTarget | KCrash | KRequest => true | _ => false end.

Section manager_steps.
Context `{GoRuntime} `{Host}.
Variable en : agent_env.
Variable L : kind → Prop.
Hypothesis LB : ∀ k, bookkeeping k = true → L k.

#[local] Set Default Proof Using "Type*".

Lemma LQ_bookkeeping : ∀ k, quiet k = true → L k.
Proof. intros k Hk. apply LB. unfold bookkeeping. by rewrite Hk. Qed.

Abbreviation F m := (∀ st0, keeps en (reach en L st0) m).

Ltac walk := let HQ := fresh in pose proof LQ_bookkeeping as HQ; frame.

Lemma does_crash_update g : F (modify (λ w, set_crashLoops (g w) w)).
Proof. intros st0. apply does_step. intros st. apply (step_crash en L st (g (world st))). allowed. Qed.
#[local] Hint Resolve does_crash_update : frames.
Lemma does_find_task s k : F (find_task s k).
Proof. unfold find_task. walk. Qed.
#[local] Hint Resolve does_find_task : frames.
Lemma does_clearCrashLoop k s : F (clearCrashLoop k s).
Proof. unfold clearCrashLoop. walk. Qed.
Lemma does_retry id n : F (retry id n).
Proof. unfold retry. walk. Qed.
#[local] Hint Resolve does_clearCrashLoop does_retry : frames.
Lemma does_incrementCrashLoop p : F (incrementCrashLoop p).
Proof. unfold incrementCrashLoop. walk. Qed.
Lemma does_VerifyState l : F (VerifyState l).
Proof. unfold VerifyState. walk. Qed.
Lemma adopt_payload_change p : app_change KCurrent (adopt_payload p).
Proof.
  intros a. unfold adopt_payload. destruct (_ && _), (String.eqb _ _); simpl; tauto.
Qed.
Lemma does_UpdateCurrentAppState p : F (UpdateCurrentAppState p).
Proof.
  unfold UpdateCurrentAppState. walk.
  apply does_update_app with KCurrent; [allowed|apply adopt_payload_change].
Qed.
#[local] Hint Resolve does_incrementCrashLoop does_VerifyState does_UpdateCurrentAppState : frames.
Lemma does_CreateOrUpdateApp p : F (CreateOrUpdateApp p).
Proof.
  unfold CreateOrUpdateApp. walk; apply does_update_app with KTarget; [allowed|change_ok].
Qed.
Lemma does_HandleTransferFailure n : F (HandleTransferFailure n).
Proof. unfold HandleTransferFailure. walk. Qed.
End manager_steps.

#[export] Hint Resolve does_find_task does_clearCrashLoop does_retry does_incrementCrashLoop
  does_VerifyState does_UpdateCurrentAppState does_CreateOrUpdateApp does_HandleTransferFailure : frames.

(** ** Whole requests, the transition lock included: they start no observer *)

Section request_steps.
Context `{GoRuntime} `{Host}.
Variable en : agent_env.
Variable L : kind → Prop.
Hypothesis LA : ∀ k, k ≠ KObserve → L k.

#[local] Set Default Proof Using "Type*".

Abbreviation F m := (∀ st0, keeps en (reach en L st0) m).

Lemma does_set_lock b l : F (update_app l (app_set_locked b)).
Proof. intros. apply does_update_app with KLock; [allowed|]. intros a. simpl. tauto. Qed.
#[local] Hint Resolve does_set_lock : frames.

Ltac walk := let H1 := fresh in let H2 := fresh in let H3 := fresh in let H4 := fresh in
  assert (∀ k, quiet k = true → L k) as H1 by (intros [] ?; apply LA; done);
  assert (∀ k, transitional k = true → L k) as H2 by (intros [] ?; apply LA; done);
  assert (∀ k, bookkeeping k = true → L k) as H3 by (intros [] ?; apply LA; done);
  assert (∀ k, cancelling k = true → L k) as H4 by (intros [] ?; apply LA; done);
  frame.

Lemma does_SecureTransition l : F (SecureTransition l).
Proof. unfold SecureTransition. walk. Qed.
Lemma does_UnlockTransition l : F (UnlockTransition l).
Proof. unfold UnlockTransition. walk. Qed.
#[local] Hint Resolve does_SecureTransition does_UnlockTransition : frames.
Lemma does_locked_request l p : F (locked_request l p).
Proof. unfold locked_request, or_unlock, transition_done. walk. Qed.
#[local] Hint Resolve does_locked_request : frames.
Lemma does_RequestAppState p : F (RequestAppState p).
Proof. unfold RequestAppState. walk. Qed.
End request_steps.

#[export] Hint Resolve does_SecureTransition does_UnlockTransition does_RequestAppState : frames.
