(* ===== verification/Examples.v ===== *)
(** * A concrete device

    A host, one production app and an environment in which every call succeeds
    unless an override says otherwise; the concrete runs evaluate on it. *)
From S2P Require Import Prelude Errdefs GoValue Common Records Effects HostPorts World Store.
Open Scope go_scope.

#[export] Existing Instance amd64_runtime.

Definition ex_config : Config :=
  {| cfg_SerialNumber := "serial"; cfg_DeviceKey := 42; cfg_SwarmKey := 9; cfg_Name := "device";
     cfg_SwarmName := "swarm"; cfg_SwarmOwnerName := "owner"; cfg_Secret := "secret";
     cfg_DockerRegistryURL := "registry.example.com/"; cfg_DockerMainRepository := "apps/";
     cfg_DeviceEndpointURL := "wss://cbw.example.com"; cfg_ReswarmBaseURL := "https://example.com";
     cfg_ApplianceDomain := ""; cfg_Environment := "production"; cfg_AppsDirectory := "/opt/apps";
     cfg_AppsSharedDir := "/opt/shared"; cfg_AppsBuildDir := "/opt/build";
     cfg_AppsComposeDir := "/opt/compose"; cfg_AgentDir := "/opt/agent";
     cfg_CompressedBuildExtension := "tgz" |}.

#[export] Instance ex_host : Host :=
  {| config := ex_config; imageArchName := "amd64"; buildArch := "amd64";
     hmac_sha256_base64 := λ key msg, key +:+ msg; url_hostname := λ _, Some "cbw.example.com";
     url_port := λ _, ""; url_with_host := λ u _, u; ip_is_loopback := λ _, false;
     os_is_exist := λ _, false; nat_new_port := λ proto port, inl (port +:+ "/" +:+ proto);
     nat_port_int := λ _, 0%N |}.

(** The answer of every call when nothing goes wrong. *)
Definition calm {T} (c : AgentCall T) : T :=
  match c in AgentCall T return T with
  | Timestamp => "2024-01-01T00:00:00Z"
  | World.GetRegistryToken _ => inl (Some [VStr "token"])
  | CtrGet _ => inl {| ct_ID := "c1"; ct_Names := ["/prod_7_demo"]; ct_Labels := []; ct_State := "running";
                       ct_ExitCode := 0; ct_NetworkMode := "bridge" |}
  | CtrList | CtrListProject _ => inl []
  | CtrState _ => inr (ContainerNotFound (Plain "gone"))
  | CtrCreate _ _ _ => inl "c2"
  | CtrWaitForRunning _ | ComposeWaitForRunning _ => WaitRunning
  | CtrPortBindings _ | CtrComposePublishedPorts _ => inl []
  | CtrNetworkMode _ => inl "bridge"
  | CancelStream _ | ComposeRegisterBuildCancel _ | ComposeUnregisterBuildCancel _
  | ComposeCancelBuild _ | CancelFileTransfer _ | Sleep _ => tt
  | ImgList _ => inl []
  | ComposeListImages _ => inl []
  | ComposeList => inl []
  | FsExists _ | FsNotMissing _ => true
  | ProbePorts => λ _ _, true
  | LanIP => "192.168.1.7"
  | HasNvidiaGPU => false
  | Jitter => 0%Z
  | TunnelCapable => true
  | TunnelGet _ => None
  | TunnelAdd c => inl c
  | GoRequestAppState _ | GoCrashLoopRetry _ | GoObserve _ | GoSpawner | SessionReconnect | ReregisterTerminals
  | GoSuperviseTunnels | GoReviveLogs | AwaitRevivedLogs | AwaitDaemon => tt
  | RefreshDeviceMetadata => (false, None)
  | CallAppCredKey => inl (Some [VStr "cred"])
  | CallRequestedAppStates _ => inl (Some [VList []])
  | UpdateDeviceStatus _ | RegisterEndpoints | AcquireFrpc | PublishMetadata => inl tt
  | Db _ | SetActualAppOnDeviceState _ | PublishTunnelState | LogClearHistory _ | LogClearRemote _
  | LogWrite _ _ | LogStream _ | LogStreamChannel _ | LogStreamBlocking _ _ | CtrRemove _ | CtrStop _
  | CtrWaitNotRunning _ | CtrWaitRemoved _ | CtrStart _ | CtrLogs _ | RegistryLogins _ | ImgGet _ _
  | ImgRemove _ | ImgRemoveByName _ _ | ImgRemoveAllByName _ | ImgPull _ _ _ | ImgPush _ _ _
  | ImgTag _ _ | ImgBuild _ _ _ _ | ComposeUp _ _ | ComposePull _ _ _ | ComposePullIgnoreBuildable _
  | ComposeBuild _ | ComposePush _ | ComposeWait | ComposeStop _ | ComposeRemove _ | ComposeDown _
  | ComposeDownRemoveOrphans _ _ | ComposeLogStream _ | FsMkdirAll _ | FsWriteFile _ _ | FsRemove _
  | FsRemoveAll _ | FsExtractTarGz _ _ | FsReadInTgz _ _ | TunnelRemove _ | TunnelSaveRemotePorts _
  | TunnelStates => inl tt
  end.

Definition override : Type := ∀ T, AgentCall T → list (event AgentCall World) → option T.

Definition no_override : override := λ _ _ _, None.

Definition ex_env (ov : override) : agent_env :=
  {| answer := λ T c l, match ov T c l with Some r => r | None => calm c end;
     interfere := λ _ w, w |}.

Definition ex_app (current requested : AppState) : App :=
  {| app_AppKey := 7; app_DeviceToAppKey := 1; app_RequestorAccountKey := 3; app_ReleaseKey := 11;
     app_AppName := "demo"; app_RequestedState := requested; app_CurrentState := current;
     app_UpdateStatus := NoUpdateStatus; app_Stage := PROD; app_RequestUpdate := false;
     app_ReleaseBuild := false; app_Version := "1.0.0"; app_LastUpdated := "";
     app_locked := false; app_state_lock := false |}.

Definition ex_payload (current requested : AppState) : TransitionPayload :=
  with_PresentVersion "1.0.0" (with_NewestVersion "1.0.0"
    (BuildTransitionPayload imageArchName config 7 "demo" 3 PROD current requested 11 12)).

Definition ex_compose : gomap :=
  [("services", VMap [("web", VMap [("image", VStr "registry.example.com/apps/web:1")])])].

Definition ex_compose_payload (current requested : AppState) : TransitionPayload :=
  with_DockerCompose (Some ex_compose) (ex_payload current requested).

Definition ex_app_row (state : AppState) : app_row :=
  {| ar_app_name := "demo"; ar_app_key := 7; ar_version := "1.0.0"; ar_release_key := 11;
     ar_stage := PROD; ar_state := state; ar_timestamp := "2024-01-01T00:00:00Z" |}.

(** The device with that app at location 0. *)
Definition ex_world (current requested : AppState) : World :=
  {| heap := {[ 0%nat := ex_app current requested ]}; apps := [0%nat];
     AppStates := [ex_app_row current]; RequestedAppStates := [payload_row (ex_payload current requested)]; AppStateHistory := [];
     composeTransitionCancels := ∅; canceled := ∅; next_id := 1; hostPorts := NewHostPortRegistry;
     crashLoops := []; activeObservers := ∅; spawnerActive := false; diskEmergency := false; composeSupported := true;
     appCredKey := "key" |}.

Definition ex_state (w : World) : agent_state := mk_state w [].
