(* ===== verification/Locks.v ===== *)
(** * Locks

    The transition lock serialises the transitions of an app; the state lock guards
    its fields.  Theorems: a request leaves every transition lock as it found it on
    every path that returns, no handler but a request touches one, and
    [UpsertAppState] releases the state lock on every path but one. *)
From S2P Require Import Prelude Errdefs GoValue Common Records Effects HostPorts ComposePorts World Store.
From S2P Require Import Steps TunnelRules EnvVars Observer Launch Transitions StateMachine AppManager Frames Examples.
Open Scope go_scope.

(** The app at [l] holds its transition lock. *)
Definition held (w : World) (l : loc) : Prop := ∃ a, heap w !! l = Some a ∧ app_locked a = true.

(** Every app was allocated below the next location. *)
Definition heap_wf (w : World) : Prop := ∀ l a, heap w !! l = Some a → (l < next_id w)%nat.

Definition locks_are (R : loc → Prop) (st : agent_state) : Prop :=
  heap_wf (world st) ∧ ∀ l, held (world st) l ↔ R l.

(** What other goroutines do meanwhile leaves the transition locks alone. *)
Definition lock_private (en : agent_env) : Prop := ∀ lg w,
  heap_wf w → heap_wf (interfere en lg w) ∧ ∀ l, held (interfere en lg w) l ↔ held w l.

Definition lk (k : kind) : Prop := k ≠ KLock.

Lemma lk_bookkeeping k : bookkeeping k = true → lk k.
Proof. by destruct k. Qed.
Lemma lk_pulling k : pulling k = true → lk k.
Proof. by destruct k. Qed.
Lemma lk_cancelling k : cancelling k = true → lk k.
Proof. by destruct k. Qed.
Lemma lk_quiet k : quiet k = true → lk k.
Proof. by destruct k. Qed.
Lemma lk_transitional k : transitional k = true → lk k.
Proof. by destruct k. Qed.

(** [does] for the handlers that leave the transition locks alone. *)
Ltac lock_free :=
  let H1 := fresh in let H2 := fresh in let H3 := fresh in let H4 := fresh in let H5 := fresh in
  intros ?; pose proof lk_pulling as H5;
  pose proof lk_bookkeeping as H1; pose proof lk_quiet as H2; pose proof lk_transitional as H3;
  pose proof lk_cancelling as H4; frame.

Definition has_app (l : loc) (st : agent_state) : Prop := is_Some (heap (world st) !! l).

Section locks.
Context `{GoRuntime} `{Host}.
Variable en : agent_env.
Hypothesis Hpriv : lock_private en.

#[local] Set Default Proof Using "Type*".


Lemma heap_wf_alter w f l : heap_wf w → heap_wf (set_heap (alter f l (heap w)) w).
Proof.
  intros Hwf l' a. simpl. intros Hl. destruct (decide (l = l')) as [<-|Hne].
  - rewrite lookup_alter_eq in Hl. destruct (heap w !! l) eqn:E; simplify_eq/=. by eapply Hwf.
  - rewrite lookup_alter_ne in Hl by done. by eapply Hwf.
Qed.

Lemma held_alter w f l l' : (∀ a, app_locked (f a) = app_locked a) →
  held (set_heap (alter f l (heap w)) w) l' ↔ held w l'.
Proof.
  intros Hf. unfold held. simpl. destruct (decide (l = l')) as [<-|Hne].
  - rewrite lookup_alter_eq. destruct (heap w !! l) as [a|]; simpl; split.
    + intros (b&[= <-]&Hb). exists a. rewrite Hf in Hb. eauto.
    + intros (b&[= <-]&Hb). eexists. split; [done|]. by rewrite Hf.
    + by intros (b&?&_).
    + by intros (b&?&_).
  - by rewrite lookup_alter_ne by done.
Qed.

(** No step but [SecureTransition] and [UnlockTransition] changes a transition lock. *)
Lemma lock_step R st st' : step en lk st st' → locks_are R st → locks_are R st'.
Proof.
  intros Hs [Hwf HR]. destruct Hs; try (split; [exact Hwf|exact HR]).
  - destruct (Hpriv (Ev c (answer en T c (log st)) (world st) :: log st) (world st) Hwf) as [Hw Hh].
    split; [exact Hw|]. intros l. rewrite <- HR. apply Hh.
  - split; [by apply heap_wf_alter|]. intros l'. simpl. rewrite held_alter; [done|].
    intros a.
    match goal with Hc : app_change _ _ |- _ => destruct (Hc a) as (_&_&_&_&_&[->|Hk]&_) end; [done|exact Hk].
  - split; simpl.
    + intros l' a'. simpl. intros [[<- <-]|[Hne Hl]]%lookup_insert_Some; [lia|]. apply Hwf in Hl. lia.
    + intros l'. rewrite <- HR. unfold held. simpl. split.
      * intros (b&[[<- <-]|[Hne Hl]]%lookup_insert_Some&Hb); [congruence|]. eauto.
      * intros (b&Hl&Hb). exists b. split; [|done]. rewrite lookup_insert_ne; [done|].
        apply Hwf in Hl. lia.
  - split; [|exact HR]. intros l a Hl. apply Hwf in Hl. simpl. lia.
Qed.

Lemma keeps_locks {A} R (m : Agent A) : does en lk m → keeps en (locks_are R) m.
Proof. intros Hm. eapply does_keeps; [exact Hm|]. intros. by eapply lock_step. Qed.

Definition plus (R : loc → Prop) (l : loc) : loc → Prop := λ l', R l' ∨ l' = l.

(** What holds when a handler returns. *)
Definition returned {A} (I : agent_state → Prop) (o : outcome A) (st : agent_state) : Prop :=
  match o with Ok _ | Err _ => I st | _ => True end.

Lemma unlock_releases R l : ¬ R l →
  triple en (locks_are (plus R l)) (UnlockTransition l) (returned (locks_are R)).
Proof.
  intros Hl st [Hwf HR]. unfold UnlockTransition, read_app, bind, gets, ret, panic, update_app, modify.
  destruct (heap (world st) !! l) as [a|] eqn:E; [|done]. destruct (app_locked a) eqn:Ea; [|done].
  simpl. split; [by apply heap_wf_alter|]. intros l'. simpl. destruct (decide (l = l')) as [<-|Hne].
  - split; [|done]. intros (b&Hb&Hb'). simpl in Hb. rewrite lookup_alter_eq, E in Hb. by simplify_eq/=.
  - unfold held. simpl. rewrite lookup_alter_ne by done.
    change (held (world st) l' ↔ R l'). rewrite HR. unfold plus. split; [intros [?|?]; [done|congruence]|by left].
Qed.

Lemma secure_takes R l : triple en (locks_are R) (SecureTransition l)
  (λ o st, match o with
   | Ok true => R l ∧ locks_are R st
   | Ok false => ¬ R l ∧ locks_are (plus R l) st
   | Err _ => False | _ => True end).
Proof.
  intros st [Hwf HR]. unfold SecureTransition, read_app, bind, gets, ret, panic, update_app, modify.
  destruct (heap (world st) !! l) as [a|] eqn:E; [|done]. destruct (app_locked a) eqn:Ea; simpl.
  - split; [|done]. apply HR. by exists a.
  - assert (¬ R l) as Hl. { rewrite <- HR. intros (b&Hb&Hb'). congruence. }
    split; [done|]. split; [by apply heap_wf_alter|]. intros l'. unfold held, plus. simpl.
    destruct (decide (l = l')) as [<-|Hne].
    + rewrite lookup_alter_eq, E. simpl. split; [by right|]. intros _. eexists. done.
    + rewrite lookup_alter_ne by done. change (held (world st) l' ↔ R l' ∨ l' = l). rewrite HR. split; [by left|intros [?|?]; [done|congruence]].
Qed.

Lemma or_unlock_spec {A} R l (m : Agent A) : ¬ R l → does en lk m →
  triple en (locks_are (plus R l)) (or_unlock l m)
    (λ o st, match o with Ok _ => locks_are (plus R l) st | Err _ => locks_are R st | _ => True end).
Proof.
  intros Hl Hm st HI. pose proof (keeps_locks (plus R l) m Hm st HI) as Hk.
  unfold or_unlock, bind, try_. destruct (m en st) as [[a|e| |] st1]; simpl in *; [done| |done..].
  pose proof (unlock_releases R l Hl st1 Hk) as Hu.
  destruct (UnlockTransition l en st1) as [[[]|e'| |] st2]; simpl in *; done.
Qed.

Lemma triple_returned {A B} R P (m : Agent A) (f : A → Agent B) :
  triple en P m (returned (locks_are R)) → (∀ a, does en lk (f a)) →
  triple en P (bind m f) (returned (locks_are R)).
Proof.
  intros Hm Hf st HP. specialize (Hm st HP). unfold bind.
  destruct (m en st) as [[a|e| |] st1]; simpl in *; [|done..].
  pose proof (keeps_locks R (f a) (Hf a) st1 Hm) as Hk. by destruct (f a en st1) as [[]].
Qed.

Lemma transition_done_spec R l p r : ¬ R l →
  triple en (locks_are (plus R l)) (transition_done l p r) (returned (locks_are R)).
Proof.
  intros Hl. unfold transition_done. apply triple_returned; [by apply unlock_releases|].
  intros _. lock_free.
Qed.

Lemma triple_does {A} R (m : Agent A) : does en lk m →
  triple en (locks_are R) m (returned (locks_are R)).
Proof. intros Hm. eapply triple_post; [by apply keeps_locks|]. by intros []. Qed.

Lemma triple_then {A B} R (m : Agent A) (f : A → Agent B) :
  does en lk m → (∀ a, triple en (locks_are R) (f a) (returned (locks_are R))) →
  triple en (locks_are R) (bind m f) (returned (locks_are R)).
Proof.
  intros Hm Hf. eapply triple_bind with (R := λ _, locks_are R); [|exact Hf].
  eapply triple_post; [by apply keeps_locks|]. by intros [].
Qed.

(** The channel carries the transition's error: starting one has none of its own. *)
Lemma InitTransition_no_error l p : errorless en (InitTransition l p).
Proof. unfold InitTransition, with_state_lock, read_app, executeTransition. errorless. Qed.

Lemma locked_request_spec R l p : ¬ R l →
  triple en (locks_are (plus R l)) (locked_request l p) (returned (locks_are R)).
Proof.
  intros Hl. unfold locked_request. apply triple_bind with (R := λ _, locks_are (plus R l)).
  { eapply triple_post; [apply or_unlock_spec; [done|lock_free]|by intros []]. }
  intros _. apply triple_bind with (R := λ _, locks_are (plus R l)).
  { eapply triple_post; [apply or_unlock_spec; [done|lock_free]|by intros []]. }
  intros token. apply triple_bind with (R := λ _, locks_are (plus R l)).
  { assert (Hd : does en lk (InitTransition l (with_RegisteryToken token p))) by lock_free.
    intros st HI. pose proof (keeps_locks _ _ Hd st HI) as Hk.
    destruct (InitTransition _ _ en st) as [[a|e| |] st1] eqn:E; simpl in *; try done.
    by apply InitTransition_no_error in E. }
  intros [r|]; [by apply transition_done_spec|by apply unlock_releases].
Qed.

(** C1: however a request ends, as long as it returns, every app's transition lock is
    held exactly if it was held before: the lock a request takes is released on
    success, on every error, when there is no transition and after verification, and
    a lock another request holds is neither taken nor released. *)
Theorem RequestAppState_restores_locks p st :
  heap_wf (world st) →
  returned (λ st', ∀ l, held (world st') l ↔ held (world st) l)
    (RequestAppState p en st).1 (RequestAppState p en st).2.
Proof.
  intros Hwf. set (R := held (world st)).
  assert (triple en (locks_are R) (RequestAppState p) (returned (locks_are R))) as Ht.
  { unfold RequestAppState. apply triple_then; [lock_free|]. intros [l|]; [|apply triple_does; lock_free].
    apply triple_then; [lock_free|]. intros [cur requested].
    apply triple_then; [lock_free|]. intros a.
    apply triple_then; [lock_free|]. intros _. apply triple_then; [lock_free|]. intros _.
    destruct (tp_CancelTransition p); [apply triple_does; lock_free|].
    case_bool_decide; [apply triple_does; destruct (tp_RequestedState p); lock_free|].
    apply triple_then; [lock_free|]. intros _. apply triple_then; [lock_free|]. intros _.
    eapply triple_bind with (R := λ (b : bool) st, if b then R l ∧ locks_are R st
                                        else ¬ R l ∧ locks_are (plus R l) st).
    - eapply triple_post; [apply secure_takes|]. by intros [[]| | |].
    - intros []; [by intros st' [_ ?]|]. intros st' [Hl HI]. by apply locked_request_spec. }
  specialize (Ht st). destruct (RequestAppState p en st) as [[[]|e| |] st']; simpl in *; try done;
    by apply Ht.
Qed.
End locks.

(** ** The state lock *)

(** The state lock of the app at [l] is [b]. *)
Definition state_lock_is (l : loc) (b : bool) (st : agent_state) : Prop :=
  ∃ a, heap (world st) !! l = Some a ∧ app_state_lock a = b.

Definition state_lock_private (en : agent_env) (l : loc) : Prop := ∀ lg w b,
  (∃ a, heap w !! l = Some a ∧ app_state_lock a = b) →
  ∃ a, heap (interfere en lg w) !! l = Some a ∧ app_state_lock a = b.

(** The statement [UpsertAppState] starts with is prepared and its query fails. *)
Definition query_fails (en : agent_env) (l : loc) (st : agent_state) : Prop :=
  let locked := (lock_state l en st).2 in
  let prepared := after_call en (Db DbPrepare) locked in
  answer en _ (Db DbPrepare) (log locked) = inl tt ∧ ∃ e, answer en _ (Db DbQuery) (log prepared) = inr e.

Section state_lock.
Context `{GoRuntime} `{Host}.
Variable en : agent_env.
Variable l : loc.
Hypothesis Hpriv : state_lock_private en l.

#[local] Set Default Proof Using "Type*".

Abbreviation sl := (state_lock_is l).

Lemma keeps_sl_call {T} b (c : AgentCall T) : keeps en (sl b) (call c).
Proof. apply keeps_call. intros st r Hst. by apply Hpriv. Qed.

Lemma keeps_sl_tables b g : (∀ w, heap (g w) = heap w) → keeps en (sl b) (modify g).
Proof. intros Hg. apply keeps_modify. intros st (a&Ha&Hb). exists a. simpl. by rewrite Hg. Qed.

Ltac sl := unfold db, db_or, with_state_lock, read_app, best_effort; repeat first
  [keeps_step | apply keeps_sl_call | apply keeps_sl_tables; intros; reflexivity | progress cbv beta zeta].

Lemma set_lock_spec b b' :
  triple en (sl b) (update_app l (app_set_state_lock b')) (λ o st, o = Ok tt ∧ sl b' st).
Proof.
  intros st (a&Ha&Hb). simpl. split; [done|]. eexists. simpl. rewrite lookup_alter_eq, Ha. split; done.
Qed.

Lemma lock_spec : triple en (sl false) (lock_state l) (λ o st, o = Ok tt ∧ sl true st).
Proof.
  intros st (a&Ha&Hb). unfold lock_state, read_app, bind, gets. rewrite Ha. simpl. rewrite Hb.
  apply (set_lock_spec false true). by exists a.
Qed.

Lemma unlock_spec : triple en (sl true) (unlock_state l) (λ o st, o = Ok tt ∧ sl false st).
Proof.
  intros st (a&Ha&Hb). unfold unlock_state, read_app, bind, gets. rewrite Ha. simpl. rewrite Hb.
  apply (set_lock_spec true false). by exists a.
Qed.

(** Code that holds the lock while it goes on and has released it when it returns an error. *)
Definition holding {A} (m : Agent A) : Prop :=
  triple en (sl true) m (λ o st, match o with Ok _ => sl true st | Err _ => sl false st | _ => True end).
Definition releasing {A} (m : Agent A) : Prop :=
  triple en (sl true) m (returned (sl false)).

Lemma holding_then {A B} (m : Agent A) (f : A → Agent B) :
  holding m → (∀ a, releasing (f a)) → releasing (bind m f).
Proof. intros Hm Hf. eapply triple_bind with (R := λ _, sl true); [|exact Hf]. eapply triple_post; [exact Hm|]. by intros []. Qed.

Lemma keeps_then {A B} (m : Agent A) (f : A → Agent B) :
  keeps en (sl true) m → errorless en m → (∀ a, releasing (f a)) → releasing (bind m f).
Proof.
  intros Hm He Hf st Hst. specialize (Hm st Hst). specialize (He st). unfold bind.
  destruct (m en st) as [[a|e| |] s]; [by apply Hf|by destruct (He e s)|done..].
Qed.

Lemma holding_db_or s : holding (db_or s (unlock_state l)).
Proof.
  unfold db_or, holding. apply triple_call_then; [apply keeps_sl_call|].
  intros [[]|e]; [by intros st Hst|].
  apply triple_bind with (R := λ _, sl false); [|intros ?; by intros st Hst].
  eapply triple_post; [apply unlock_spec|]. by intros o st [-> Hst].
Qed.

Lemma releasing_unlock {A} (m : Agent A) : keeps en (sl false) m → releasing (unlock_state l;; m).
Proof.
  intros Hm. unfold releasing. apply triple_bind with (R := λ _, sl false).
  - eapply triple_post; [apply unlock_spec|]. by intros o st [-> Hst].
  - intros _. eapply triple_post; [exact Hm|]. by intros [].
Qed.

Lemma keeps_sl_GetRequestedState b k s : keeps en (sl b) (GetRequestedState k s).
Proof. unfold GetRequestedState. sl. Qed.
Lemma keeps_sl_Upsert b p : keeps en (sl b) (UpsertRequestedStateChange p).
Proof. unfold UpsertRequestedStateChange. sl. Qed.
Lemma keeps_sl_insertAppState b l' : keeps en (sl b) (insertAppState l').
Proof. unfold insertAppState. sl. Qed.

Ltac release :=
  repeat first
    [ apply releasing_unlock; solve [sl; apply keeps_sl_insertAppState]
    | apply holding_then; [apply holding_db_or|intros ?]
    | apply keeps_then; [solve [sl]|solve [errorless]|intros ?]
    | apply keeps_then;
        [apply keeps_try; first [apply keeps_sl_GetRequestedState|apply keeps_sl_Upsert]
        |apply errorless_try|intros ?]
    | match goal with |- releasing (match ?x with _ => _ end) => destruct x end ].

Lemma db_ok s m st : answer en _ (Db s) (log st) = inl tt →
  db_or s m en st = (Ok tt, after_call en (Db s) st).
Proof. intros Ha. unfold db_or, bind, call, after_call. by rewrite Ha. Qed.

Lemma db_err_unlocked s st e : sl true st → answer en _ (Db s) (log st) = inr e →
  ∃ st', db_or s (unlock_state l) en st = (Err e, st') ∧ sl false st'.
Proof.
  intros Hl Ha. unfold db_or. unfold bind at 1, call. rewrite Ha.
  pose proof (keeps_sl_call true (Db s) st Hl) as Hk. unfold call in Hk. simpl in Hk. rewrite Ha in Hk.
  destruct (unlock_spec _ Hk) as [Hok Hu]. destruct (unlock_state l en _) as [o st'] eqn:E. simpl in *.
  subst o. rewrite (bind_ok _ _ _ _ _ _ E). by exists st'.
Qed.

Lemma db_err s st e : answer en _ (Db s) (log st) = inr e →
  db s en st = (Err e, after_call en (Db s) st).
Proof. intros Ha. unfold db, db_or, bind, call, after_call. by rewrite Ha. Qed.

Lemma returned_mono {A} (I I' : agent_state → Prop) (o : outcome A) st :
  (∀ st, I st → I' st) → returned I o st → returned I' o st.
Proof. destruct o; simpl; auto. Qed.

Lemma releasing_write s : releasing (write_app_state l s).
Proof. unfold write_app_state, read_app. release. Qed.

(** [UpsertAppState] takes the app's state lock and, whichever of its driver steps
    fails, has released it when it returns, with one exception: when the query that
    looks up the current row fails the lock stays held, and every later access to the
    app's state blocks. *)
Theorem UpsertAppState_state_lock s st :
  state_lock_is l false st →
  returned (λ st', ∃ b, state_lock_is l b st' ∧ (b = true ↔ query_fails en l st))
    (UpsertAppState l s en st).1 (UpsertAppState l s en st).2.
Proof.
  intros Hst. destruct (lock_spec st Hst) as [Hok Hl]. unfold UpsertAppState, query_fails.
  destruct (lock_state l en st) as [o st1] eqn:E. simpl in *. subst o. rewrite (bind_ok _ _ _ _ _ _ E).
  destruct (answer en _ (Db DbPrepare) (log st1)) as [[]|e] eqn:Hp.
  - rewrite (bind_ok _ _ _ _ _ _ (db_ok DbPrepare _ st1 Hp)).
    pose proof (keeps_sl_call true (Db DbPrepare) st1 Hl : sl true (after_call en (Db DbPrepare) st1)) as Hl2.
    set (st2 := after_call en (Db DbPrepare) st1) in *.
    pose proof (keeps_sl_call true (Db DbQuery) st2 Hl2 : sl true (after_call en (Db DbQuery) st2)) as Hl3.
    destruct (answer en _ (Db DbQuery) (log st2)) as [[]|e] eqn:Hq.
    + rewrite (bind_ok _ _ _ _ _ _ (db_ok DbQuery (ret tt) st2 Hq : db DbQuery en st2 = _)).
      eapply returned_mono; [|by apply releasing_write].
      intros st' Hst'. exists false. split; [done|]. split; [done|]. intros (_&e&He).
      unfold st2, after_call in Hq. simpl in Hq. rewrite Hp in Hq. congruence.
    + rewrite (bind_err _ _ _ _ _ _ (db_err DbQuery st2 e Hq)). simpl. exists true.
      unfold st2, after_call in *. simpl in *. rewrite Hp in *.
      split; [exact Hl3|]. split; [|done]. intros _. split; [done|by exists e].
  - destruct (db_err_unlocked DbPrepare st1 e Hl Hp) as (st'&Hr&Hst'). rewrite (bind_err _ _ _ _ _ _ Hr).
    exists false. split; [done|]. split; [done|]. by intros [? _].
Qed.
End state_lock.

(** ** Witnesses *)

Definition ex_request : agent_state * TransitionPayload :=
  (ex_state (ex_world PRESENT RUNNING), ex_payload PRESENT RUNNING).

Lemma ex_private ov : lock_private (ex_env ov).
Proof. by intros lg w Hwf. Qed.

Lemma ex_world_wf cur req : heap_wf (ex_world cur req).
Proof. intros l a. simpl. intros [<- _]%lookup_singleton_Some. lia. Qed.

(** A device on which the run of a stopped app succeeds: its lock is free before and after. *)
Lemma RequestAppState_restores_locks_witness :
  (RequestAppState ex_request.2 (ex_env no_override) ex_request.1).1 = Ok tt
  ∧ ¬ held (world (RequestAppState ex_request.2 (ex_env no_override) ex_request.1).2) 0.
Proof.
  assert ((RequestAppState ex_request.2 (ex_env no_override) ex_request.1).1 = Ok tt) as E
    by (vm_compute; reflexivity).
  split; [exact E|].
  pose proof (RequestAppState_restores_locks (ex_env no_override) (ex_private _) ex_request.2
    ex_request.1 (ex_world_wf PRESENT RUNNING)) as Hl.
  rewrite E in Hl. simpl in Hl. rewrite (Hl 0%nat). intros (a&Ha&Hb).
  change (ex_world PRESENT RUNNING).(heap) with ({[ 0%nat := ex_app PRESENT RUNNING ]} : gmap nat App) in Ha.
  rewrite lookup_singleton_eq in Ha. injection Ha as <-. discriminate Hb.
Defined.

(** The query fails. *)
Definition failing_query : override := λ T c l,
  match c in AgentCall T return option T with
  | Db DbQuery => Some (inr (Plain "database is locked"))
  | _ => None
  end.

Lemma UpsertAppState_state_lock_witness :
  (UpsertAppState 0 RUNNING (ex_env failing_query) ex_request.1).1 = Err (Plain "database is locked")
  ∧ state_lock_is 0 true (UpsertAppState 0 RUNNING (ex_env failing_query) ex_request.1).2.
Proof.
  assert ((UpsertAppState 0 RUNNING (ex_env failing_query) ex_request.1).1 = Err (Plain "database is locked"))
    as E by (vm_compute; reflexivity).
  split; [exact E|].
  assert (state_lock_is 0 false ex_request.1) as H0 by (eexists; split; vm_compute; reflexivity).
  pose proof (UpsertAppState_state_lock (ex_env failing_query) 0 (λ _ _ _ Hp, Hp) RUNNING ex_request.1 H0) as Hl.
  rewrite E in Hl. destruct Hl as (b&Hb&Hq).
  assert (b = true) as -> by (apply Hq; split; [vm_compute; reflexivity|eexists; vm_compute; reflexivity]).
  exact Hb.
Defined.
