(* ===== verification/Outcomes.v ===== *)
(** * Where the transitions end

    Every transition that returns without an error leaves its app in the state the
    transition is for; the transition table only offers transitions that end in the
    requested state, with the exceptions listed here. *)
From S2P Require Import Prelude Errdefs GoValue Common Records Effects HostPorts ComposePorts World Store.
From S2P Require Import Steps TunnelRules EnvVars Observer Launch Transitions StateMachine AppManager Frames Examples.
From S2P Require Import Locks.
Open Scope go_scope.

(** The state a successful transition leaves the app in; [None] for one that has no
    successful end or does nothing. *)
Definition target (t : transition) (p : TransitionPayload) : option AppState :=
  let dev := bool_decide (tp_Stage p = DEV) in
  let compose := bool_decide (is_Some (tp_DockerCompose p)) in
  match t with
  | t_removedToPresent => if dev then None else Some PRESENT
  | t_pullApp | t_stopApp | t_cancelUpdate | t_updateApp => Some PRESENT
  | t_removedToRunning | t_runApp | t_recoverFailToRunning => Some RUNNING
  | t_buildApp => Some BUILT
  | t_publishApp => Some PUBLISHED
  | t_removeAndPublishApp => if dev then Some PUBLISHED else None
  | t_uninstallApp | t_cancelUpdateAndUninstall => Some UNINSTALLED
  | t_noAction => None
  | t_cancelPush | t_cancelBuild | t_removeApp | t_cancelTransfer | t_cancelUpdateAndRemove => Some REMOVED
  | t_cancelPull =>
      Some (if compose && bool_decide (tp_RequestedState p = UNINSTALLED) then UNINSTALLED else REMOVED)
  | t_recoverFailToPresent => Some (if dev then BUILT else PRESENT)
  end.

(** The two stages an app can be deployed in. *)
Definition deployable (s : Stage) : Prop := s = DEV ∨ s = PROD.

(** Where a successful request ends, by the state it started from: the requested state,
    but for these pairs. *)
Definition outcome_state (prev : AppState) (p : TransitionPayload) : option AppState :=
  let dev := bool_decide (tp_Stage p = DEV) in
  let compose := bool_decide (is_Some (tp_DockerCompose p)) in
  match prev, tp_RequestedState p with
  | RUNNING, BUILT => Some PRESENT
  | RUNNING, PUBLISHED => if dev then Some PUBLISHED else None
  | REMOVED, PRESENT => if dev then None else Some PRESENT
  | FAILED, PRESENT => Some (if dev then BUILT else PRESENT)
  | TRANSFERING, (PRESENT | UNINSTALLED) => Some REMOVED
  | DOWNLOADING, UNINSTALLED => Some (if compose then UNINSTALLED else REMOVED)
  | _, next => Some next
  end.

Lemma table_target prev p t : getTransitionFunc prev (tp_RequestedState p) = Some t →
  t = t_noAction ∨ target t p = outcome_state prev p.
Proof.
  unfold target, outcome_state. intros Ht. destruct (tp_RequestedState p), prev; simplify_eq/=; auto.
  all: right; by repeat case_bool_decide.
Qed.

Section outcomes.
Context `{GoRuntime} `{Host}.
Variable en : agent_env.
Variable l : loc.
Variable sg : Stage.

(** The app at [l] of stage [sg], in the states [P]. *)
Definition app_in (P : AppState → Prop) (st : agent_state) : Prop :=
  heap_wf (world st) ∧ ∃ a, heap (world st) !! l = Some a ∧ app_Stage a = sg ∧ P (app_CurrentState a).

Definition somewhere : agent_state → Prop := app_in (λ _, True).
Definition settled (s : AppState) : agent_state → Prop := app_in (λ s', s' = s).

(** Nobody else moves this app while one of its transitions runs. *)
Definition app_private : Prop := ∀ lg w a, heap_wf w → heap w !! l = Some a →
  heap_wf (interfere en lg w) ∧ ∃ a', heap (interfere en lg w) !! l = Some a'
    ∧ app_Stage a' = app_Stage a ∧ app_CurrentState a' = app_CurrentState a.

Hypothesis Hpriv : app_private.

#[local] Set Default Proof Using "Type*".

Definition any (k : kind) : Prop := True.
Definition still (k : kind) : Prop := k ≠ KCurrent.

Lemma app_in_step (L : kind → Prop) P st st' :
  (L KCurrent → ∀ s s', P s → P s') → step en L st st' → app_in P st → app_in P st'.
Proof.
  intros HL Hs [Hwf (a&Ha&Hsg&HP)]. destruct Hs; try (split; [exact Hwf|by exists a]).
  - destruct (Hpriv (Ev c (answer en T c (log st)) (world st) :: log st) (world st) a Hwf Ha)
      as [Hw (a'&Ha'&Hst&Hcur)].
    split; [exact Hw|]. exists a'. split; [exact Ha'|]. rewrite Hst, Hcur. done.
  - split; [by apply heap_wf_alter|]. unfold on_world. simpl. destruct (decide (l = l0)) as [<-|Hne].
    + rewrite lookup_alter_eq, Ha. eexists. split; [done|].
      match goal with Hc : app_change _ _ |- _ => destruct (Hc a) as (_&Hs&_&Hk&_) end.
      rewrite Hs. split; [done|]. destruct Hk as [->|Hk]; [by eapply HL|by rewrite Hk].
    + rewrite lookup_alter_ne by done. by exists a.
  - split; simpl.
    + intros l' a'. simpl. intros [[<- <-]|[Hne Hl]]%lookup_insert_Some; [lia|]. apply Hwf in Hl. lia.
    + exists a. split; [|done]. rewrite lookup_insert_ne; [done|]. apply Hwf in Ha. lia.
  - split; [|by exists a]. intros l' a' Hl. apply Hwf in Hl. simpl. lia.
Qed.

Lemma keeps_somewhere {A} (m : Agent A) : does en any m → keeps en somewhere m.
Proof. intros Hm. eapply does_keeps; [exact Hm|]. intros. by eapply app_in_step. Qed.

Lemma keeps_settled {A} s (m : Agent A) : does en still m → keeps en (settled s) m.
Proof.
  intros Hm. eapply does_keeps; [exact Hm|]. intros st st'. apply app_in_step. by intros Hc.
Qed.

(** ** Ending in a state *)

Definition ends_in {A} (s : AppState) (m : Agent A) : Prop :=
  triple en somewhere m (on_ok (λ _, settled s)).

Lemma ends_throw {A} s e : ends_in s (@throw _ _ A e).
Proof. by intros st. Qed.

Lemma ends_before {A B} s (m : Agent A) (f : A → Agent B) :
  does en any m → (∀ a, ends_in s (f a)) → ends_in s (bind m f).
Proof.
  intros Hm Hf. eapply triple_bind with (R := λ _, somewhere); [|exact Hf].
  eapply triple_post; [by apply keeps_somewhere|]. by intros [].
Qed.

Lemma ends_then {A B} s (m : Agent A) (f : A → Agent B) :
  ends_in s m → (∀ a, does en still (f a)) → ends_in s (bind m f).
Proof.
  intros Hm Hf. eapply triple_bind with (R := λ _, settled s).
  - eapply triple_post; [exact Hm|]. by intros [].
  - intros a. eapply triple_post; [by apply keeps_settled|]. by intros [].
Qed.

Lemma ends_finally {A} s (m : Agent A) f : ends_in s m → does en still f → ends_in s (finally m f).
Proof.
  intros Hm Hf st Hst. specialize (Hm st Hst). unfold finally.
  destruct (m en st) as [[a|e| |] st1]; simpl in *; try by destruct (f en st1) as [[]].
  pose proof (keeps_settled s f Hf st1 Hm) as Hk. by destruct (f en st1) as [[]].
Qed.

Ltac grants := repeat match goal with
  | |- _ => progress match goal with
    | |- does _ any _ =>
        assert (∀ k, quiet k = true → any k) by done; assert (∀ k, transitional k = true → any k) by done;
        assert (∀ k, pulling k = true → any k) by done;
        assert (∀ k, cancelling k = true → any k) by done; assert (∀ k, any k) by done; intros ?
    | |- does _ still _ =>
        assert (∀ k, quiet k = true → still k) by (by intros []);
        assert (∀ k, cancelling k = true → still k) by (by intros []);
        assert (∀ k, growing k = true → still k) by (by intros []);
        assert (∀ s, still (KPublish s)) by done; intros ?
    end end.

(** A handler that may do anything / that leaves the app's state alone. *)
Ltac acts := solve [grants; frame].

Lemma ends_setState s : ends_in s (setState l s).
Proof.
  unfold setState, Notify, NotifyLocal. do 2 (apply ends_then; [|intros; acts]).
  intros st [Hwf (a&Ha&Hsg&_)]. unfold update_locked, read_app, bind, gets, ret, update_app, modify. rewrite Ha. simpl.
  destruct (app_state_lock a); [done|]. simpl. split; [by apply heap_wf_alter|]. simpl.
  rewrite lookup_alter_eq, Ha. by eexists.
Qed.

(** Walk to the last statement that sets the state. *)
Ltac ends :=
  lazymatch goal with
  | |- ends_in _ (setState _ _) => apply ends_setState
  | |- ends_in _ (throw _) => apply ends_throw
  | |- ends_in _ (bind _ _) =>
      first [ apply ends_then; [solve [ends]|intros ?; acts]
            | apply ends_before; [acts|intros ?; ends] ]
  | |- ends_in _ (finally _ _) => apply ends_finally; [ends|acts]
  | |- ends_in _ (match ?x with _ => _ end) => destruct x; ends
  | |- ends_in _ (let _ := _ in _) => cbv zeta; ends
  | |- _ => solve [eauto with frames]
  end.

Lemma ends_pullComposeApp p : ends_in PRESENT (pullComposeApp p l).
Proof. unfold pullComposeApp. ends. Qed.
#[local] Hint Resolve ends_pullComposeApp : frames.
Lemma ends_pullApp p : ends_in PRESENT (pullApp p l).
Proof. unfold pullApp. ends. Qed.
#[local] Hint Resolve ends_pullApp : frames.

Lemma ends_runDevComposeApp p : ends_in RUNNING (runDevComposeApp p l).
Proof. unfold runDevComposeApp. ends. Qed.
Lemma ends_run_prod_compose p m c : ends_in RUNNING (run_prod_compose p l m c).
Proof. unfold run_prod_compose. ends. Qed.
#[local] Hint Resolve ends_run_prod_compose : frames.
Lemma ends_runProdComposeApp p : ends_in RUNNING (runProdComposeApp p l).
Proof. unfold runProdComposeApp. ends. Qed.
#[local] Hint Resolve ends_runDevComposeApp ends_runProdComposeApp : frames.
Lemma ends_runProdApp p : ends_in RUNNING (runProdApp p l).
Proof. unfold runProdApp. ends. Qed.
Lemma ends_runDevApp p : ends_in RUNNING (runDevApp p l).
Proof. unfold runDevApp. ends. Qed.
#[local] Hint Resolve ends_runProdApp ends_runDevApp : frames.
Lemma ends_runApp p : deployable (tp_Stage p) → ends_in RUNNING (runApp p l).
Proof. unfold runApp, deployable. intros [->| ->]; cbv iota; ends. Qed.

Lemma ends_stop_compose t p : ends_in PRESENT (stop_compose t p l).
Proof. unfold stop_compose. ends. Qed.
Lemma ends_stop_container t i c p : ends_in PRESENT (stop_container t i c p l).
Proof. unfold stop_container. ends. Qed.
#[local] Hint Resolve ends_stop_compose ends_stop_container : frames.
Lemma ends_stopApp p : deployable (tp_Stage p) → ends_in PRESENT (stopApp p l).
Proof.
  unfold stopApp, deployable, stopDevApp, stopProdApp, stopDevComposeApp, stopProdComposeApp.
  intros [->| ->]; cbv iota; ends.
Qed.

Lemma ends_removeComposeApp p : ends_in REMOVED (removeComposeApp p l).
Proof. unfold removeComposeApp, begin_removal, end_removal. ends. Qed.
Lemma ends_remove_container t i p : ends_in REMOVED (remove_container_and_images t i p l).
Proof. unfold remove_container_and_images, begin_removal, end_removal. ends. Qed.
#[local] Hint Resolve ends_removeComposeApp ends_remove_container : frames.

(** The stage of the app itself selects the removal. *)
Lemma ends_on_app {A} s (f : App → Agent A) :
  (∀ a, app_Stage a = sg → ends_in s (f a)) → ends_in s (let! a := read_app l in f a).
Proof.
  intros Hf st [Hwf (a&Ha&Hsg&HP)]. unfold read_app, bind, gets, ret. rewrite Ha.
  apply (Hf a Hsg st). split; [done|]. by exists a.
Qed.

Lemma ends_removeApp p : deployable sg → ends_in REMOVED (removeApp p l).
Proof.
  intros Hd. unfold removeApp, removeDevApp, removeProdApp. destruct (tp_DockerCompose p); [ends|].
  apply ends_on_app. intros a Ha. rewrite Ha. destruct Hd as [->| ->]; cbv iota; ends.
Qed.
#[local] Hint Resolve ends_runApp ends_stopApp ends_removeApp : frames.

Lemma ends_uninstallApp p : deployable sg → ends_in UNINSTALLED (uninstallApp p l).
Proof. intros Hd. unfold uninstallApp. ends. Qed.
#[local] Hint Resolve ends_uninstallApp : frames.

Lemma ends_run_build p t d b : ends_in BUILT (run_build p t d b l).
Proof. unfold run_build. ends. Qed.
#[local] Hint Resolve ends_run_build : frames.
Lemma ends_buildDevApp p b : ends_in BUILT (buildDevApp p l b).
Proof. unfold buildDevApp, buildDevComposeApp. ends. Qed.
#[local] Hint Resolve ends_buildDevApp : frames.
Lemma ends_buildApp p : ends_in BUILT (buildApp p l).
Proof. unfold buildApp. ends. Qed.
Lemma ends_publishApp p : ends_in PUBLISHED (publishApp p l).
Proof. unfold publishApp, publishComposeApp. ends. Qed.
#[local] Hint Resolve ends_buildApp ends_publishApp : frames.
Lemma ends_updateApp p : ends_in PRESENT (updateApp p l).
Proof. unfold updateApp, updateComposeApp, update_compose_steps. ends. Qed.
#[local] Hint Resolve ends_updateApp : frames.

Lemma ends_cancelPull p : deployable sg →
  ends_in (if bool_decide (is_Some (tp_DockerCompose p)) && bool_decide (tp_RequestedState p = UNINSTALLED)
           then UNINSTALLED else REMOVED) (cancelPull p l).
Proof.
  intros Hd. unfold cancelPull. destruct (negb _); [ends|]. destruct (tp_DockerCompose p) as [dc|].
  - rewrite (bool_decide_true (is_Some (Some dc))) by done. simpl. case_bool_decide; ends.
  - rewrite bool_decide_false by by intros []. simpl. ends.
Qed.
#[local] Hint Resolve ends_cancelPull : frames.

Lemma ends_run_transition t p s : target t p = Some s → tp_Stage p = sg → deployable sg →
  ends_in s (run_transition t p l).
Proof.
  intros Ht Hsg Hd. assert (deployable (tp_Stage p)) as Hp by by rewrite Hsg.
  destruct (decide (t = t_cancelPull)) as [->|Hne].
  { simpl in Ht. injection Ht as <-. by apply ends_cancelPull. }
  destruct t; simpl in *; simplify_eq; unfold removedToPresent, removedToRunning, cancelPush, cancelBuild,
    recoverFailToPresentHandler, recoverFailToRunningHandler, cancelTransfer, cancelUpdate,
    cancelUpdateAndRemove, cancelUpdateAndUninstall, removeAndPublishApp, bool_decide in *;
    try (case_match; simplify_eq); solve [ends].
Qed.

(** C3: a transition started for a request and finished without an error leaves the app
    in the requested state, or in the state [outcome_state] lists for the pairs where
    the table detours (a build requested of a running app stops it first, ...); an
    update ends installed (PRESENT). *)
Theorem InitTransition_reaches_request p st st' a s :
  tp_Stage p = sg → deployable sg → heap_wf (world st) →
  heap (world st) !! l = Some a → app_Stage a = sg →
  InitTransition l p en st = (Ok (Some (inl tt)), st') →
  (if update_requested p a then Some PRESENT else outcome_state (app_CurrentState a) p) = Some s →
  ∃ a', heap (world st') !! l = Some a' ∧ app_CurrentState a' = s.
Proof.
  intros Hsg Hd Hwf Ha Hast Hrun Hs. assert (somewhere st) as Hst by (split; [done|by exists a]).
  revert Hrun. unfold InitTransition. unfold bind at 1, gets at 1. cbv iota beta.
  destruct (diskEmergency (world st) && _); [by intros [=]|].
  unfold with_state_lock, read_app, bind, gets, ret. rewrite Ha. simpl.
  destruct (app_state_lock a); [done|]. rewrite Ha.
  destruct (select_transition p a (app_CurrentState a)) as [t|] eqn:Hsel; [|done].
  unfold executeTransition, await, try_.
  assert (t = t_noAction ∨ target t p = Some s) as [->|Ht].
  { unfold select_transition in Hsel. destruct (update_requested p a); [by simplify_eq/=; right|].
    apply table_target in Hsel as [->|Ht]; [by left|right]. by rewrite Ht. }
  - simpl. by intros [=].
  - pose proof (ends_run_transition t p s Ht Hsg Hd st Hst) as He.
    destruct (run_transition t p l en st) as [[[]|e| |] st1]; intros; simplify_eq/=.
    destruct He as [_ (a'&Ha'&_&<-)]. by exists a'.
Qed.
End outcomes.

Lemma ex_app_private ov l : app_private (ex_env ov) l.
Proof. intros lg w a Hwf Ha. split; [exact Hwf|]. by exists a. Qed.

(** Starting the stopped app of the example device leaves it running. *)
Lemma InitTransition_reaches_request_witness :
  let r := InitTransition 0 ex_request.2 (ex_env no_override) ex_request.1 in
  r.1 = Ok (Some (inl tt)) ∧ ∃ a, heap (world r.2) !! 0%nat = Some a ∧ app_CurrentState a = RUNNING.
Proof.
  simpl. assert ((InitTransition 0 ex_request.2 (ex_env no_override) ex_request.1).1 = Ok (Some (inl tt))) as E
    by (vm_compute; reflexivity).
  split; [exact E|].
  apply (InitTransition_reaches_request (ex_env no_override) 0 PROD (ex_app_private _ _) ex_request.2
    ex_request.1 _ (ex_app PRESENT RUNNING) RUNNING).
  - reflexivity.
  - by right.
  - apply ex_world_wf.
  - apply lookup_singleton_eq.
  - reflexivity.
  - rewrite <- E. apply surjective_pairing.
  - vm_compute. reflexivity.
Defined.
