(* ===== verification/Emergency.v ===== *)
(** * The disk emergency

    While the disk guard reports an emergency no request for a state that takes disk
    space downloads, builds or starts anything. *)
From S2P Require Import Prelude Errdefs GoValue Common Records Effects HostPorts ComposePorts World Store.
From S2P Require Import Steps TunnelRules EnvVars Observer Launch Transitions StateMachine AppManager Frames Examples.
Open Scope go_scope.

(** The event of a call that downloads, builds or starts something. *)
Definition growing_event (e : event AgentCall World) : bool :=
  match e with Ev c _ _ => growing (call_kind c) end.

Section emergency.
Context `{GoRuntime} `{Host}.
Variable en : agent_env.

(** The emergency lasts while the request is handled. *)
Hypothesis lasts : ∀ lg w, diskEmergency w = true → diskEmergency (interfere en lg w) = true.

#[local] Set Default Proof Using "Type*".

Variable st0 : agent_state.

Definition no_growth (st : agent_state) : Prop :=
  diskEmergency (world st) = true
  ∧ ∃ new, log st = (new ++ log st0)%list ∧ Forall (λ e, growing_event e = false) new.

Definition ng (k : kind) : Prop := growing k = false.

Lemma no_growth_step st st' : step en ng st st' → no_growth st → no_growth st'.
Proof.
  intros Hs [He (new&Hlog&Hnew)]. destruct Hs; try (split; [exact He|by exists new]).
  split; [by apply lasts|]. exists (Ev c (answer en T c (log st)) (world st) :: new).
  split; [simpl; by f_equal|by constructor].
Qed.

Lemma keeps_no_growth {A} (m : Agent A) : does en ng m → keeps en no_growth m.
Proof. intros Hm. eapply does_keeps; [exact Hm|]. intros. by eapply no_growth_step. Qed.

Ltac harmless :=
  assert (∀ k, quiet k = true → ng k) by (by intros []);
  assert (∀ k, cancelling k = true → ng k) by (by intros []);
  assert (∀ k, bookkeeping k = true → ng k) by (by intros []);
  assert (∀ s, ng (KPublish s)) by done; assert (ng KCurrent) by done; assert (ng KLock) by done.

Ltac tame := apply keeps_no_growth; intros ?; harmless; frame.

Lemma keeps_set_lock b l : ∀ st1, keeps en (reach en ng st1) (update_app l (app_set_locked b)).
Proof. intros st1. apply does_update_app with KLock; [done|]. intros a. simpl. tauto. Qed.

Lemma keeps_unlock l : keeps en no_growth (UnlockTransition l).
Proof. unfold UnlockTransition. tame. apply keeps_set_lock. Qed.

Lemma keeps_secure l : keeps en no_growth (SecureTransition l).
Proof. unfold SecureTransition. tame. apply keeps_set_lock. Qed.

Lemma keeps_or_unlock {A} l (m : Agent A) : keeps en no_growth m → keeps en no_growth (or_unlock l m).
Proof.
  intros Hm. unfold or_unlock. apply keeps_bind; [by apply keeps_try|]. intros [a|e]; [apply keeps_ret|].
  apply keeps_bind; [apply keeps_unlock|]. intros _. apply keeps_throw.
Qed.

Lemma keeps_transition_done l p r : keeps en no_growth (transition_done l p r).
Proof. unfold transition_done. apply keeps_bind; [apply keeps_unlock|]. intros _. tame. Qed.

(** The gate: nothing is started, the error is the answer. *)
Lemma gate_closed l p st :
  diskEmergency (world st) = true → IsDiskGrowingState (tp_RequestedState p) = true →
  InitTransition l p en st = (Ok (Some (inr (emergency_error p))), st).
Proof. intros He Hg. unfold InitTransition, bind, gets, ret. by rewrite He, Hg. Qed.

Lemma keeps_locked_request l p : IsDiskGrowingState (tp_RequestedState p) = true →
  keeps en no_growth (locked_request l p).
Proof.
  intros Hg. unfold locked_request.
  apply keeps_bind; [apply keeps_or_unlock; tame|intros _].
  apply keeps_bind; [apply keeps_or_unlock; tame|intros token].
  apply keeps_bind.
  - intros st Hst. rewrite gate_closed; [exact Hst|apply Hst|exact Hg].
  - intros [r|]; [apply keeps_transition_done|apply keeps_unlock].
Qed.

(** A stop pressed during an update cancels it and needs no space. *)
Lemma keeps_cancel l p a st :
  IsDiskGrowingState (tp_RequestedState p) = true →
  heap (world st) !! l = Some a → app_CurrentState a = UPDATING →
  no_growth st → no_growth (CancelTransition l p en st).2.
Proof.
  intros Hg Ha Hcur Hst. unfold CancelTransition, with_state_lock, read_app, bind, gets, ret.
  rewrite Ha. simpl. destruct (app_state_lock a); [done|]. simpl. rewrite Hcur.
  assert (keeps en no_growth (cancelUpdate p l)) as Hc by (unfold cancelUpdate; tame).
  unfold background. specialize (Hc st Hst).
  destruct (tp_RequestedState p); simpl in *; try done; by destruct (cancelUpdate p l en st).
Qed.

Definition seen_in (l : loc) (cur : AppState) (st : agent_state) : Prop :=
  no_growth st ∧ ∃ a, heap (world st) !! l = Some a ∧ app_CurrentState a = cur.

Lemma keeps_seen_clear l cur k s : keeps en (seen_in l cur) (clearCrashLoop k s).
Proof.
  unfold clearCrashLoop, find_task. keeps_auto. apply keeps_modify.
  intros st [[He (new&Hlog&Hnew)] Ha]. split; [|exact Ha]. split; [exact He|by exists new].
Qed.

Lemma keeps_request p : IsDiskGrowingState (tp_RequestedState p) = true →
  tp_CancelTransition p = false → keeps en no_growth (RequestAppState p).
Proof.
  intros Hg Hc. unfold RequestAppState. apply keeps_bind; [tame|]. intros [l|]; [|apply keeps_throw].
  apply triple_bind with (R := λ r, seen_in l r.1).
  { intros st Hst. unfold with_state_lock, read_app, bind, gets, ret.
    destruct (heap (world st) !! l) as [a|] eqn:Ha; [|exact Hst]. simpl.
    destruct (app_state_lock a); [exact Hst|]. split; [exact Hst|]. by exists a. }
  intros [cur requested]. simpl. apply triple_bind with (R := λ _, seen_in l cur).
  { intros st [Hst (a&Ha&Hcur)]. unfold read_app, bind, gets, ret. rewrite Ha. split; [exact Hst|]. by exists a. }
  intros a. rewrite Hc. apply triple_bind with (R := λ _, seen_in l cur).
  { apply triple_post with (λ _, seen_in l cur); [|intros [] st Hs; try exact Hs; apply Hs].
    apply keeps_when, keeps_seen_clear. }
  intros _. destruct (decide (cur = UPDATING)) as [->|Hne].
  - replace (cancels_transfer UPDATING requested p) with false by done.
    rewrite (bool_decide_true (UPDATING = UPDATING)) by done.
    intros st [Hst (b&Hb&Hcur)]. unfold when, bind, ret.
    pose proof (keeps_cancel l p b st Hg Hb Hcur Hst) as Hk.
    by destruct (tp_RequestedState p).
  - rewrite (bool_decide_false (cur = UPDATING)) by done.
    apply triple_pre with no_growth; [|by intros st [? _]].
    apply keeps_bind; [tame|intros _]. apply keeps_bind; [tame|intros _].
    apply keeps_bind; [tame|intros _]. apply keeps_bind; [apply keeps_secure|].
    intros []; [apply keeps_ret|by apply keeps_locked_request].
Qed.
End emergency.

(** C5: while the device is in a disk emergency, handling a request for a state that
    grows the disk and that is not marked as a cancellation performs no image pull, push or
    build, creates and starts no container and brings up no compose project, whatever else
    happens and however the handling ends.  A request that is marked so takes the path of
    [CancelTransition], which has no gate: see [cancel_bypasses_emergency]. *)
Theorem emergency_blocks_growth `{GoRuntime} `{Host} en p st :
  (∀ lg w, diskEmergency w = true → diskEmergency (interfere en lg w) = true) →
  diskEmergency (world st) = true → IsDiskGrowingState (tp_RequestedState p) = true →
  tp_CancelTransition p = false →
  ∃ new, log (RequestAppState p en st).2 = (new ++ log st)%list
    ∧ Forall (λ e, growing_event e = false) new.
Proof.
  intros Hlast He Hg Hc. destruct (keeps_request en Hlast st p Hg Hc st) as [_ Hnew]; [|exact Hnew].
  split; [done|]. by exists [].
Qed.

Definition ex_emergency : agent_state := ex_state (set_diskEmergency true (ex_world PRESENT RUNNING)).

(** In an emergency the run of the example app is refused and the app fails. *)
Lemma emergency_blocks_growth_witness :
  let r := RequestAppState (ex_payload PRESENT RUNNING) (ex_env no_override) ex_emergency in
  r.1 = Ok tt ∧ (app_CurrentState <$> heap (world r.2) !! 0%nat) = Some FAILED
  ∧ ∃ new, log r.2 = (new ++ [])%list ∧ Forall (λ e, growing_event e = false) new.
Proof.
  split; [vm_compute; reflexivity|]. split; [vm_compute; reflexivity|].
  apply (emergency_blocks_growth (ex_env no_override) (ex_payload PRESENT RUNNING) ex_emergency);
    [by intros|reflexivity..].
Defined.

(** The same request, marked as a cancellation, runs the app: a cancellation is any transition of
    the table, and only [InitTransition] asks for the emergency. *)
Example cancel_bypasses_emergency :
  let r := RequestAppState (with_CancelTransition true (ex_payload PRESENT RUNNING)) (ex_env no_override) ex_emergency in
  r.1 = Ok tt ∧ (app_CurrentState <$> heap (world r.2) !! 0%nat) = Some RUNNING
  ∧ existsb growing_event (log r.2) = true.
Proof. split_and!; vm_compute; reflexivity. Qed.
