(* ===== verification/Cancels.v ===== *)
(** * Cancelable compose transitions

    A compose pull or update runs a CLI process that a cancel request stops through a
    registered context.  When is the context registered, and when is it gone? *)
From S2P Require Import Prelude Errdefs GoValue Common Records Effects HostPorts ComposePorts World Store.
From S2P Require Import Steps TunnelRules EnvVars Observer Launch Transitions StateMachine AppManager Frames Examples.
Open Scope go_scope.

(** The events that publish state [s]. *)
Definition publishes (s : AppState) (e : event AgentCall World) : Prop :=
  match e with Ev c _ _ => call_kind c = KPublish s end.

Definition world_at (e : event AgentCall World) : World := match e with Ev _ _ w => w end.

Definition registered (key : string) (w : World) : Prop := is_Some (composeTransitionCancels w !! key).

Definition since (st0 : agent_state) (φ : event AgentCall World → Prop) (st : agent_state) : Prop :=
  ∃ new, log st = (new ++ log st0)%list ∧ Forall φ new.

Section cancels.
Context `{GoRuntime} `{Host}.
Variable en : agent_env.
Variable p : TransitionPayload.
Variable l : loc.

Abbreviation key := (composeTransitionKey (tp_Stage p) (tp_AppKey p)).

(** Other goroutines leave this app's registration alone. *)
Definition registration_private : Prop := ∀ lg w,
  composeTransitionCancels (interfere en lg w) !! key = composeTransitionCancels w !! key.
Hypothesis Hpriv : registration_private.

#[local] Set Default Proof Using "Type*".

(** Every publication of [s] so far was made with the key registered ([b = true]) or
    unregistered ([b = false]). *)
Definition with_key (b : bool) (w : World) : Prop :=
  if b then registered key w else ¬ registered key w.

Variable st0 : agent_state.
Variable s : AppState.
Variable b : bool.

Definition kept : agent_state → Prop := since st0 (λ e, publishes s e → with_key b (world_at e)).
Definition kept_with (b' : bool) (st : agent_state) : Prop := kept st ∧ with_key b' (world st).

(** The kinds that publish anything but [s]; those that do not change the registry. *)
Definition silent (k : kind) : Prop := k ≠ KPublish s.
Definition stays (k : kind) : Prop := k ≠ KRegister ∧ k ≠ KClear.

Lemma kept_call {T} (c : AgentCall T) st :
  (call_kind c = KPublish s → with_key b (world st)) → kept st → kept (after_call en c st).
Proof.
  intros Hc (new&Hlog&Hnew). exists (Ev c (answer en T c (log st)) (world st) :: new).
  split; [simpl; by f_equal|]. by constructor.
Qed.

Lemma with_key_interfere b' lg w : with_key b' w → with_key b' (interfere en lg w).
Proof. unfold with_key, registered. by rewrite Hpriv. Qed.

Lemma keeps_silent {A} (m : Agent A) : does en silent m → keeps en kept m.
Proof.
  intros Hm. eapply does_keeps; [exact Hm|]. intros st st' Hs Hk.
  destruct Hs; try exact Hk. by apply kept_call.
Qed.

(** While the registry stays as it is, [s] may be published if it is as required. *)
Lemma keeps_with {A} b' (m : Agent A) :
  does en (λ k, stays k ∧ (b' = b ∨ silent k)) m → keeps en (kept_with b') m.
Proof.
  intros Hm. eapply does_keeps; [exact Hm|]. intros st st' Hs [Hk Hb].
  destruct Hs; try match goal with Hl : stays _ ∧ _ |- _ => destruct Hl as [[Hl1 Hl2] Hl3] end;
    try done.
  split; [|by apply with_key_interfere].
  apply kept_call; [|exact Hk]. destruct Hl3 as [<-|Hl3]; done.
Qed.

Lemma register_sets ctx : triple en kept (registerComposeTransitionCancel (tp_Stage p) (tp_AppKey p) ctx)
  (λ _, kept_with true).
Proof.
  intros st Hk. split; [exact Hk|]. unfold with_key, registered. simpl. rewrite lookup_insert_eq. by eexists.
Qed.

Lemma release_clears ctx : triple en kept (release_cancel p ctx) (λ o st, o = Ok tt ∧ kept_with false st).
Proof.
  intros st Hk. unfold release_cancel, clearComposeTransitionCancel, cancel_context, bind, modify. simpl.
  split; [done|]. split; [exact Hk|]. unfold with_key, registered. simpl. rewrite lookup_delete_eq.
  by intros [].
Qed.
End cancels.

Section downloads.
Context `{GoRuntime} `{Host}.
Variable en : agent_env.
Variable p : TransitionPayload.
Variable l : loc.
Hypothesis Hpriv : registration_private en p.
Variable st0 : agent_state.

#[local] Set Default Proof Using "Type*".

Abbreviation kept_dl := (kept p st0 DOWNLOADING true).
Abbreviation kept_dl_with := (kept_with p st0 DOWNLOADING true).
Abbreviation quietly := (silent DOWNLOADING).

Definition steady (k : kind) : Prop := stays k ∧ (true = true ∨ silent DOWNLOADING k).

Ltac silently :=
  assert (∀ k, quiet k = true → quietly k) by (by intros []);
  assert (∀ k, growing k = true → quietly k) by (by intros []);
  assert (∀ k, cancelling k = true → quietly k) by (by intros []);
  assert (quietly KCurrent) by done; assert (quietly (KPublish STARTING)) by done;
  assert (quietly (KPublish RUNNING)) by done; assert (quietly (KPublish PRESENT)) by done;
  intros ?; frame.

Lemma steady_intro k : k ≠ KRegister → k ≠ KClear → steady k.
Proof. split; [done|by left]. Qed.

Ltac steadily :=
  assert (∀ k, quiet k = true → steady k) by (intros k Hk; apply steady_intro; intros ->; discriminate Hk);
  assert (∀ k, growing k = true → steady k) by (intros k Hk; apply steady_intro; intros ->; discriminate Hk);
  assert (steady KCurrent) by (by apply steady_intro);
  assert (∀ s, steady (KPublish s)) by (intros s; by apply steady_intro); intros ?; frame.

(** A cancelable body between registration and release. *)
Lemma kept_cancelable (body : nat → Agent unit) :
  (∀ ctx, does en steady (body ctx)) →
  keeps en kept_dl
    (let! ctx := new_context in
     registerComposeTransitionCancel (tp_Stage p) (tp_AppKey p) ctx;;
     finally (body ctx) (release_cancel p ctx)).
Proof.
  intros Hbody. apply keeps_bind; [eapply (keeps_silent en p Hpriv st0); silently|intros ctx].
  apply triple_bind with (R := λ _, kept_dl_with true).
  - eapply triple_post; [by apply (register_sets en p Hpriv)|]. intros [] st Hst; try exact Hst; apply Hst.
  - intros _. apply triple_finally with (R := λ _, kept_dl_with true).
    + eapply triple_post; [apply (keeps_with en p Hpriv st0 DOWNLOADING true true), Hbody|].
      intros [] st Hst; try exact Hst; apply Hst.
    + intros o. apply triple_pre with kept_dl; [|by intros st [? _]].
      eapply triple_post; [by apply (release_clears en p Hpriv)|]. intros o' st [-> [Hst _]]. exact Hst.
Qed.

Lemma kept_pull : keeps en kept_dl (pullComposeApp p l).
Proof.
  unfold pullComposeApp. apply keeps_bind; [eapply (keeps_silent en p Hpriv st0); silently|intros _].
  apply (kept_cancelable (λ ctx, _)). intros ctx. unfold pullComposeImages. steadily.
Qed.

Lemma kept_run : keeps en kept_dl (runProdComposeApp p l).
Proof.
  unfold runProdComposeApp.
  do 5 (apply keeps_bind; [eapply (keeps_silent en p Hpriv st0); silently|intros ?]).
  destruct (bool_decide _).
  - eapply (keeps_silent en p Hpriv st0). unfold run_prod_compose. cbv iota. silently.
  - apply (kept_cancelable (λ ctx, _)). intros ctx. unfold run_prod_compose, pullComposeImages. steadily.
Qed.
End downloads.

(** *** Updates and the end of a cancelable transition *)

Section updates.
Context `{GoRuntime} `{Host}.
Variable en : agent_env.
Variable p : TransitionPayload.
Variable l : loc.
Hypothesis Hpriv : registration_private en p.
Variable st0 : agent_state.

#[local] Set Default Proof Using "Type*".

Abbreviation free := (λ st : agent_state, with_key p false (world st)).
Abbreviation kept_up := (kept p st0 UPDATING false).
Abbreviation kept_up_with := (kept_with p st0 UPDATING false).

Definition unregistering (k : kind) : Prop := stays k ∧ (false = false ∨ silent UPDATING k).

Lemma unregistering_intro k : k ≠ KRegister → k ≠ KClear → unregistering k.
Proof. split; [done|by left]. Qed.

Ltac plainly :=
  assert (∀ k, quiet k = true → unregistering k) by (intros k Hk; apply unregistering_intro; intros ->; discriminate Hk);
  assert (unregistering KCurrent) by (by apply unregistering_intro);
  assert (∀ s, unregistering (KPublish s)) by (intros s; by apply unregistering_intro); intros ?; frame.

Lemma kept_free {A} (m : Agent A) : does en unregistering m → keeps en (kept_up_with false) m.
Proof. apply (keeps_with en p Hpriv st0 UPDATING false false). Qed.

Lemma does_update_compose_steps ctx : does en (silent UPDATING) (update_compose_steps p l ctx).
Proof.
  unfold update_compose_steps.
  assert (∀ k, quiet k = true → silent UPDATING k) by (by intros []).
  assert (∀ k, growing k = true → silent UPDATING k) by (by intros []).
  assert (silent UPDATING KCurrent) by done. assert (silent UPDATING (KPublish PRESENT)) by done.
  intros ?. frame. apply does_update_locked with KApp; [allowed|change_ok].
Qed.

Lemma kept_update : triple en (kept_up_with false) (updateComposeApp p l) (λ _, kept_up).
Proof.
  unfold updateComposeApp.
  do 3 (eapply triple_bind with (R := λ _, kept_up_with false);
    [eapply triple_post; [apply kept_free; plainly|intros [] st Hst; try exact Hst; apply Hst]|intros ?]).
  eapply triple_bind with (R := λ _, kept_up_with false);
    [eapply triple_post; [apply kept_free; plainly|intros [] st Hst; try exact Hst; apply Hst]|intros ctx].
  apply triple_pre with kept_up; [|by intros st [? _]].
  change (keeps en kept_up (registerComposeTransitionCancel (tp_Stage p) (tp_AppKey p) ctx;;
    finally (update_compose_steps p l ctx) (release_cancel p ctx))).
  assert (∀ k, quiet k = true → silent UPDATING k) by (by intros []).
  assert (∀ k, cancelling k = true → silent UPDATING k) by (by intros []).
  apply keeps_bind; [|intros _; apply keeps_finally]; eapply (keeps_silent en p Hpriv st0).
  - intros ?. frame.
  - apply does_update_compose_steps.
  - intros ?. frame.
Qed.

(** Whatever the body does, the deferred release has the last word. *)
Definition freed {A} (o : outcome A) (st : agent_state) : Prop := o = Hang ∨ with_key p false (world st).

Lemma freed_cancelable {A} (body : nat → Agent A) :
  triple en free
    (let! ctx := new_context in
     registerComposeTransitionCancel (tp_Stage p) (tp_AppKey p) ctx;;
     finally (body ctx) (release_cancel p ctx)) freed.
Proof.
  intros st _.
  rewrite (bind_ok en st (on_world (λ w, set_next_id (S (next_id w)) w) st) new_context _ (next_id (world st)))
    by reflexivity.
  set (ctx := next_id (world st)). set (st1 := on_world _ st).
  rewrite (bind_ok en st1 (registerComposeTransitionCancel (tp_Stage p) (tp_AppKey p) ctx en st1).2
    (registerComposeTransitionCancel (tp_Stage p) (tp_AppKey p) ctx) _ tt) by reflexivity.
  set (st2 := (registerComposeTransitionCancel _ _ _ en st1).2). unfold finally.
  destruct (body ctx en st2) as [[a|e| |] st3]; [..|by left]; right; unfold with_key, registered; simpl;
    rewrite lookup_delete_eq; by intros [].
Qed.

Lemma keeps_free {A} (m : Agent A) : does en stays m → keeps en free m.
Proof.
  intros Hm. eapply does_keeps; [exact Hm|]. intros st st' Hs Hst.
  destruct Hs; try exact Hst; try (match goal with Hl : stays _ |- _ => by destruct Hl end).
  by apply with_key_interfere.
Qed.

Lemma freed_then {A B} (m : Agent A) (f : A → Agent B) :
  does en stays m → (∀ a, triple en free (f a) freed) → triple en free (bind m f) freed.
Proof.
  intros Hm Hf. eapply triple_bind with (R := λ _, free); [|exact Hf].
  eapply triple_post; [by apply keeps_free|]. intros [] st Hst; try exact Hst; by right.
Qed.

Lemma freed_does {A} (m : Agent A) : does en stays m → triple en free m freed.
Proof. intros Hm. eapply triple_post; [by apply keeps_free|]. intros o st Hst. by right. Qed.

Ltac staying :=
  assert (∀ k, quiet k = true → stays k) by (by intros k Hk; split; intros ->);
  assert (∀ k, growing k = true → stays k) by (by intros k Hk; split; intros ->);
  assert (stays KCurrent) by done; assert (∀ s, stays (KPublish s)) by done; intros ?; frame.

Lemma freed_pull : triple en free (pullComposeApp p l) freed.
Proof.
  unfold pullComposeApp. apply freed_then; [staying|intros _]. apply (freed_cancelable (λ ctx, _)).
Qed.

Lemma freed_update : triple en free (updateComposeApp p l) freed.
Proof.
  unfold updateComposeApp. do 3 (apply freed_then; [staying|intros ?]). apply (freed_cancelable (λ ctx, _)).
Qed.

Lemma freed_run : triple en free (runProdComposeApp p l) freed.
Proof.
  unfold runProdComposeApp. do 5 (apply freed_then; [staying|intros ?]). destruct (bool_decide _).
  - apply freed_does. unfold run_prod_compose. cbv iota. staying.
  - apply (freed_cancelable (λ ctx, _)).
Qed.
End updates.

(** ** Properties *)

(** a cancelable compose pull (of an install or of a first run) publishes DOWNLOADING
    only while its cancel context is registered, so a cancel pressed on a visible
    download always reaches it. *)
Theorem download_published_cancelable `{GoRuntime} `{Host} en p l st m :
  registration_private en p → m = pullComposeApp p l ∨ m = runProdComposeApp p l →
  since st (λ e, publishes DOWNLOADING e →
    registered (composeTransitionKey (tp_Stage p) (tp_AppKey p)) (world_at e)) (m en st).2.
Proof.
  intros Hpriv Hm.
  assert (kept p st DOWNLOADING true (m en st).2) as Hk; [|exact Hk].
  destruct Hm as [->| ->]; [apply kept_pull|apply kept_run]; try done; by exists [].
Qed.

(** an update of a compose app publishes UPDATING before it registers its cancel
    context: at every moment UPDATING is published the registry has no context for the
    app, and a cancel that arrives then cancels nothing. *)
Theorem update_published_before_cancelable `{GoRuntime} `{Host} en p l st :
  registration_private en p →
  ¬ registered (composeTransitionKey (tp_Stage p) (tp_AppKey p)) (world st) →
  since st (λ e, publishes UPDATING e →
      ¬ registered (composeTransitionKey (tp_Stage p) (tp_AppKey p)) (world_at e))
    (updateComposeApp p l en st).2
  ∧ ∀ e, publishes UPDATING e →
      ¬ registered (composeTransitionKey (tp_Stage p) (tp_AppKey p)) (world_at e) →
      cancelComposeTransition (tp_Stage p) (tp_AppKey p) en (mk_state (world_at e) []) =
        (Ok false, mk_state (world_at e) []).
Proof.
  intros Hpriv Hfree. split.
  - assert (kept p st UPDATING false (updateComposeApp p l en st).2) as Hk; [|exact Hk].
    pose proof (kept_update en p l Hpriv st st) as Hk. apply Hk. split; [by exists []|done].
  - intros e _ He. apply eq_None_not_Some in He. unfold cancelComposeTransition.
    rewrite (bind_ok _ _ (mk_state (world_at e) []) (gets _) _ None); [reflexivity|].
    unfold gets. simpl. by rewrite He.
Qed.

(** however a cancelable compose transition ends (success, error or panic), its
    cancel context is no longer registered afterwards: a later cancel can only reach a
    transition that is running. *)
Theorem cancel_registration_released `{GoRuntime} `{Host} en p l st m :
  registration_private en p →
  ¬ registered (composeTransitionKey (tp_Stage p) (tp_AppKey p)) (world st) →
  m = pullComposeApp p l ∨ m = runProdComposeApp p l ∨ m = updateComposeApp p l →
  (m en st).1 ≠ Hang →
  ¬ registered (composeTransitionKey (tp_Stage p) (tp_AppKey p)) (world (m en st).2).
Proof.
  intros Hpriv Hfree Hm Hh.
  assert (freed p (m en st).1 (m en st).2) as [?|Hk]; [|done|exact Hk].
  destruct Hm as [->|[->| ->]]; [apply freed_pull|apply freed_run|apply freed_update]; done.
Qed.

(** ** Witnesses *)

Definition is_publication (s : AppState) (e : event AgentCall World) : bool :=
  match e with Ev c _ _ => match call_kind c with KPublish s' => bool_decide (s' = s) | _ => false end end.

Definition ex_install : TransitionPayload := ex_compose_payload REMOVED PRESENT.
Definition ex_upgrade : TransitionPayload := with_NewestVersion "1.1.0" (ex_compose_payload PRESENT RUNNING).

Definition ex_pull : Agent unit := pullComposeApp ex_install 0.
Definition ex_update : Agent unit := updateComposeApp ex_upgrade 0.

Definition ex_removed : agent_state := ex_state (ex_world REMOVED PRESENT).

Lemma ex_registration_private ov p : registration_private (ex_env ov) p.
Proof. intros lg w. reflexivity. Qed.

Lemma ex_unregistered key : ¬ registered key (world ex_removed).
Proof. intros [c Hc]. change ((∅ : gmap string nat) !! key = Some c) in Hc. by rewrite lookup_empty in Hc. Qed.

Lemma download_published_cancelable_witness :
  (ex_pull (ex_env no_override) ex_removed).1 = Ok tt
  ∧ existsb (is_publication DOWNLOADING) (log (ex_pull (ex_env no_override) ex_removed).2) = true
  ∧ since ex_removed (λ e, publishes DOWNLOADING e → registered (composeTransitionKey (tp_Stage ex_install) (tp_AppKey ex_install)) (world_at e))
      (ex_pull (ex_env no_override) ex_removed).2.
Proof.
  split; [vm_compute; reflexivity|]. split; [vm_compute; reflexivity|].
  pose proof (download_published_cancelable (ex_env no_override) ex_install 0 ex_removed ex_pull
    (ex_registration_private _ _) (or_introl eq_refl)) as Hs.
  exact Hs.
Defined.

Lemma update_published_before_cancelable_witness :
  (ex_update (ex_env no_override) ex_removed).1 = Ok tt
  ∧ existsb (is_publication UPDATING) (log (ex_update (ex_env no_override) ex_removed).2) = true
  ∧ since ex_removed (λ e, publishes UPDATING e → ¬ 
      registered (composeTransitionKey (tp_Stage ex_upgrade) (tp_AppKey ex_upgrade)) (world_at e))
      (ex_update (ex_env no_override) ex_removed).2.
Proof.
  split; [vm_compute; reflexivity|]. split; [vm_compute; reflexivity|].
  pose proof (update_published_before_cancelable (ex_env no_override) ex_upgrade 0 ex_removed
    (ex_registration_private _ _) (ex_unregistered _)) as [Hs _].
  exact Hs.
Defined.

(** The pull fails half way: the registration is gone all the same. *)
Definition failing_pull : override := λ T c l,
  match c in AgentCall T return option T with
  | ComposeWait => Some (inr (Plain "exit status 1"))
  | _ => None
  end.

Lemma cancel_registration_released_witness :
  (ex_pull (ex_env failing_pull) ex_removed).1 = Err (Plain "exit status 1")
  ∧ ¬ registered (composeTransitionKey (tp_Stage ex_install) (tp_AppKey ex_install)) (world (ex_pull (ex_env failing_pull) ex_removed).2).
Proof.
  assert ((ex_pull (ex_env failing_pull) ex_removed).1 = Err (Plain "exit status 1")) as E
    by (vm_compute; reflexivity).
  split; [exact E|].
  assert ((ex_pull (ex_env failing_pull) ex_removed).1 ≠ Hang) as Hh by (rewrite E; discriminate).
  pose proof (cancel_registration_released (ex_env failing_pull) ex_install 0 ex_removed ex_pull
    (ex_registration_private _ _) (ex_unregistered _) (or_introl eq_refl) Hh) as Hs.
  exact Hs.
Defined.
