(* ===== verification/EnvSpec.v ===== *)
(** * Properties of the app environment

    Reserved names, dotenv files, compose service additions. *)
From S2P Require Import Prelude Errdefs GoValue Common Records Effects HostPorts ComposePorts World Store.
From S2P Require Import TunnelRules EnvVars Observer Launch Examples.
Open Scope go_scope.

(** ** Reserved names *)

(** The line docker uses for a name: the last one. *)
Definition docker_line (name : string) (env : list string) : option string :=
  last (List.filter (λ line, String.eqb (env_name line) name) env).

Lemma filter_none {A} (f : A → bool) l : Forall (λ x, f x = false) l → List.filter f l = [].
Proof. induction 1 as [|x l Hx _ IH]; [done|]. simpl. by rewrite Hx. Qed.

Lemma Forall_filter {A} (f : A → bool) l : Forall (λ x, f x = true) (List.filter f l).
Proof. induction l as [|x l IH]; simpl; [constructor|]. destruct (f x) eqn:E; [by constructor|done]. Qed.

(** an app's own environment variables cannot replace the credential the agent
    gives it: whatever the payload holds, for a reserved name the container sees the
    line it would see without the payload's variables. *)
Theorem payload_cannot_override_credentials `{GoRuntime} defaults payload env name :
  buildProdEnvironmentVariables defaults payload = Some env → name ∈ reservedEnvNames →
  docker_line name env = docker_line name defaults.
Proof.
  unfold buildProdEnvironmentVariables. intros Henv Hname.
  destruct (EnvironmentVarsToStringArray _) as [vars|]; simplify_eq/=.
  unfold docker_line. rewrite List.filter_app.
  rewrite (filter_none _ (List.filter (λ line, negb (reserved line)) vars)); [by rewrite app_nil_r|].
  eapply Forall_impl; [apply Forall_filter|]. simpl. intros line Hline.
  destruct (String.eqb_spec (env_name line) name) as [<-|]; [|done].
  unfold reserved in Hline. by rewrite bool_decide_true in Hline.
Qed.

Definition ex_hostile : option gomap :=
  Some [("APP_AUTH_ID", VMap [("value", VStr "app-9-prod-e1@other")]);
        ("MODE", VMap [("value", VStr "fast")])].

Lemma payload_cannot_override_credentials_witness :
  buildProdEnvironmentVariables ["APP_AUTH_ID=app-7-prod-e1@serial"] ex_hostile
    = Some ["APP_AUTH_ID=app-7-prod-e1@serial"; "MODE=fast"]
  ∧ docker_line "APP_AUTH_ID" ["APP_AUTH_ID=app-7-prod-e1@serial"; "MODE=fast"]
    = docker_line "APP_AUTH_ID" ["APP_AUTH_ID=app-7-prod-e1@serial"].
Proof.
  split; [reflexivity|].
  apply (payload_cannot_override_credentials _ ex_hostile); [reflexivity|]. by left.
Defined.

(** the defaults of an app's environment template are not filtered: the environment
    of a DEV compose app with a template default named APP_AUTH_ID ends with that
    default, which replaces the credential. *)
Theorem dev_template_overrides_credential :
  let p := with_EnvironmentTemplate
    (Some [("APP_AUTH_ID", VMap [("defaultValue", VStr "app-9-prod-e1@other")])])
    (BuildTransitionPayload imageArchName config 7 "demo" 3 DEV PRESENT RUNNING 11 12) in
  match (generateDotEnvContents p 0 ex_compose (ex_env no_override) (ex_state (ex_world PRESENT RUNNING))).1 with
  | Ok (contents, _) =>
      "APP_AUTH_ID=app-7-dev-e1@serial" ∈ split_on newline contents
      ∧ docker_line "APP_AUTH_ID" (split_on newline contents) = Some "APP_AUTH_ID=app-9-prod-e1@other"
  | _ => False
  end.
Proof.
  intros p. destruct (generateDotEnvContents p 0 ex_compose (ex_env no_override) (ex_state (ex_world PRESENT RUNNING))).1
    as [[contents skipped]| | |] eqn:E; vm_compute in E; try discriminate E.
  injection E as <- <-. split; [|vm_compute; reflexivity]. apply (bool_decide_unpack _). vm_compute. exact I.
Qed.

(** ** Dotenv files *)

Lemma filterValidDotEnvLines_filter lines :
  (filterValidDotEnvLines lines).1 = List.filter valid_dotenv_line lines
  ∧ length (filterValidDotEnvLines lines).1 + length (filterValidDotEnvLines lines).2 = length lines.
Proof.
  induction lines as [|line lines [IH1 IH2]]; simpl; [done|].
  destruct (filterValidDotEnvLines lines) as [valid skipped]. destruct (valid_dotenv_line line); simpl in *;
    (split; [congruence|lia]).
Qed.

Lemma Forall_filter_incl {A} (P : A → Prop) f l : Forall P l → Forall P (List.filter f l).
Proof. induction 1 as [|x l Hx _ IH]; simpl; [constructor|]. destruct (f x); [by constructor|done]. Qed.

(** the dotenv file of a compose app reads back line by line: of newline-free lines,
    exactly those with a valid name are kept, in order, each on a line of its own; the
    others are all reported. *)
Theorem dotenv_file_roundtrip lines valid skipped :
  filterValidDotEnvLines lines = (valid, skipped) →
  Forall (λ line, lacks newline line = true) lines → valid ≠ [] →
  split_on newline (join_with newline valid) = valid
  ∧ valid = List.filter valid_dotenv_line lines
  ∧ length valid + length skipped = length lines.
Proof.
  intros Hf Hlines Hne. destruct (filterValidDotEnvLines_filter lines) as [H1 H2].
  rewrite Hf in H1, H2. simpl in *. split; [|done].
  apply split_join; [done|]. rewrite H1. by apply Forall_filter_incl.
Qed.

Definition ex_lines : list string := ["MODE=fast"; "BAD NAME=1"; "=x"; "URL=a=b"].

Lemma dotenv_file_roundtrip_witness :
  split_on newline (join_with newline ["MODE=fast"; "URL=a=b"]) = ["MODE=fast"; "URL=a=b"]
  ∧ ["MODE=fast"; "URL=a=b"] = List.filter valid_dotenv_line ex_lines ∧ 2 + 2 = length ex_lines.
Proof.
  apply (dotenv_file_roundtrip ex_lines ["MODE=fast"; "URL=a=b"] ["BAD NAME"; "=x"]).
  - vm_compute. reflexivity.
  - repeat constructor.
  - discriminate.
Defined.

(** A name that ends in a newline passes the filter, which judges the trimmed name, and
    breaks the file: its value lands on a line without a name. *)
Theorem padded_name_breaks_dotenv :
  let line := "MODE" +:+ String newline "=fast" in
  filterValidDotEnvLines [line] = ([line], [])
  ∧ split_on newline (join_with newline [line]) = ["MODE"; "=fast"].
Proof. split; vm_compute; reflexivity. Qed.

(** ** What every compose service gets *)

Lemma map_set_same {A} k (v : A) m : map_get k m = Some v → map_set k v m = m.
Proof.
  induction m as [|[k1 v1] m IH]; simpl; [done|]. destruct (String.eqb_spec k k1) as [->|].
  - by intros [= ->].
  - intros Hm. by rewrite IH.
Qed.

Lemma map_index_set k k' v m :
  map_index k (map_set k' v m) = if String.eqb k k' then v else map_index k m.
Proof. unfold map_index. rewrite map_get_set. by destruct (String.eqb k k'). Qed.

Lemma str_contains_app s sub t : str_contains sub (s +:+ (sub +:+ t)) = true.
Proof.
  induction s as [|a s IH].
  - change (str_contains sub (sub +:+ t) = true). pose proof (has_prefix_app sub t) as Hp.
    destruct (sub +:+ t); cbn [str_contains]; by rewrite Hp.
  - simpl. by rewrite IH, orb_true_r.
Qed.

(** The service already lets its containers reach the host / read their env files. *)
Definition reaches_host (service : gomap) : Prop := addComposeExtraHost service = service.
Definition mounts_files (dir : string) (service : gomap) : Prop :=
  addComposeEnvFilesMount service dir = service.

Lemma addComposeExtraHost_idem service : reaches_host (addComposeExtraHost service).
Proof.
  unfold reaches_host, addComposeExtraHost at 2 3.
  destruct (map_index "extra_hosts" service) as [| | | | |hosts|hosts] eqn:E;
    try (unfold addComposeExtraHost; by rewrite E).
  - unfold addComposeExtraHost. rewrite map_index_set. done.
  - destruct (existsb gateway_host hosts) eqn:Eg; unfold addComposeExtraHost; [by rewrite E, Eg|].
    rewrite map_index_set. simpl. by rewrite existsb_app, orb_true_r.
  - destruct (map_get "host.docker.internal" hosts) eqn:Eg; unfold addComposeExtraHost; [by rewrite E, Eg|].
    rewrite map_index_set. simpl. by rewrite map_get_set.
Qed.

Lemma mounts_env_entry dir : mounts_env (VStr (dir +:+ ":/data/env:ro")) = true.
Proof. exact (str_contains_app dir ":/data/env" ":ro"). Qed.

Lemma addComposeEnvFilesMount_idem dir service : mounts_files dir (addComposeEnvFilesMount service dir).
Proof.
  unfold mounts_files, addComposeEnvFilesMount at 2 3.
  destruct (map_index "volumes" service) as [| | | | |volumes|] eqn:E;
    try (unfold addComposeEnvFilesMount; by rewrite E).
  - unfold addComposeEnvFilesMount. rewrite map_index_set, String.eqb_refl. cbn [existsb].
    by rewrite mounts_env_entry.
  - destruct (existsb mounts_env volumes) eqn:Ev; unfold addComposeEnvFilesMount; [by rewrite E, Ev|].
    rewrite map_index_set, String.eqb_refl, existsb_app. cbn [existsb].
    by rewrite mounts_env_entry, orb_true_r.
Qed.

(** An addition depends on its own key only. *)
Lemma reaches_host_iff s : reaches_host s ↔
  match map_index "extra_hosts" s with
  | VNil => False
  | VList hosts => existsb gateway_host hosts = true
  | VMap hosts => is_Some (map_get "host.docker.internal" hosts)
  | _ => True
  end.
Proof.
  unfold reaches_host, addComposeExtraHost.
  destruct (map_index "extra_hosts" s) as [| | | | |hosts|hosts] eqn:E; try done.
  - split; [|done]. intros Hs. rewrite <- Hs, map_index_set in E. done.
  - destruct (existsb gateway_host hosts) eqn:Eg; [done|]. split; [|done]. intros Hs.
    rewrite <- Hs, map_index_set in E. injection E as E. rewrite <- E, existsb_app in Eg. 
    simpl in Eg. by rewrite orb_true_r in Eg.
  - destruct (map_get "host.docker.internal" hosts) eqn:Eg; [by split; [eauto|]|]. split; [|by intros []].
    intros Hs. rewrite <- Hs, map_index_set in E. injection E as E. rewrite <- E, map_get_set in Eg. done.
Qed.

Lemma map_get_extra k s : k ≠ "extra_hosts" → map_get k (addComposeExtraHost s) = map_get k s.
Proof.
  intros Hk. unfold addComposeExtraHost.
  destruct (map_index "extra_hosts" s); try done; try (case_match; try done);
    rewrite map_get_set; by destruct (String.eqb_spec k "extra_hosts").
Qed.

Lemma map_get_mount k dir s : k ≠ "volumes" → map_get k (addComposeEnvFilesMount s dir) = map_get k s.
Proof.
  intros Hk. unfold addComposeEnvFilesMount.
  destruct (map_index "volumes" s); try done; try (case_match; try done);
    rewrite map_get_set; by destruct (String.eqb_spec k "volumes").
Qed.

(** The service as [SetupComposeFiles] prepares it. *)
Definition prepared (dir : string) (service : gomap) : gomap :=
  addComposeEnvFilesMount (addComposeExtraHost (map_set "env_file" (VStr DotEnvFileName) service)) dir.

Lemma prepared_idem dir service : prepared dir (prepared dir service) = prepared dir service.
Proof.
  unfold prepared. set (s := map_set "env_file" _ service).
  set (s1 := addComposeEnvFilesMount (addComposeExtraHost s) dir).
  rewrite (map_set_same "env_file" _ s1).
  - assert (reaches_host s1) as ->; [|apply addComposeEnvFilesMount_idem].
    apply reaches_host_iff. pose proof (addComposeExtraHost_idem s) as Hr. apply reaches_host_iff in Hr.
    replace (map_index "extra_hosts" s1) with (map_index "extra_hosts" (addComposeExtraHost s)); [exact Hr|].
    unfold map_index, s1. by rewrite map_get_mount.
  - unfold s1. rewrite map_get_mount, map_get_extra by done. unfold s. by rewrite map_get_set.
Qed.

(** preparing the services of a compose file (dotenv file, host gateway, mount of
    the environment files) is idempotent: a definition that already went through it is
    left as it is, so nothing accumulates over restarts, and every service ends up
    reaching the host and reading its environment files. *)
Theorem prepare_services_idempotent dir services services' :
  prepare_services dir services = inl services' →
  prepare_services dir services' = inl services'
  ∧ Forall (λ s, ∃ m, s.2 = VMap m ∧ reaches_host m ∧ mounts_files dir m
      ∧ map_get "env_file" m = Some (VStr DotEnvFileName)) services'.
Proof.
  revert services'. induction services as [|[name service] services IH]; intros services' Hp; simpl in Hp.
  { injection Hp as <-. by split; [|constructor]. }
  destruct (as_map service) as [m|]; [|done].
  destruct (prepare_services dir services) as [rest|]; [|done].
  destruct (IH rest eq_refl) as [IH1 IH2]. injection Hp as <-.
  change (addComposeEnvFilesMount _ dir) with (prepared dir m). split.
  - simpl. rewrite IH1. change (addComposeEnvFilesMount _ dir) with (prepared dir (prepared dir m)).
    by rewrite prepared_idem.
  - constructor; [|exact IH2]. exists (prepared dir m). split; [done|].
    unfold prepared. set (s := map_set "env_file" _ m). split_and!.
    + apply reaches_host_iff. pose proof (addComposeExtraHost_idem s) as Hr. apply reaches_host_iff in Hr.
      unfold map_index in *. by rewrite map_get_mount.
    + apply addComposeEnvFilesMount_idem.
    + rewrite map_get_mount, map_get_extra by done. unfold s. by rewrite map_get_set.
Qed.

Definition ex_prepared : gomap :=
  [("web", VMap [("image", VStr "web:1"); ("env_file", VStr ".env-compose");
     ("extra_hosts", VList [VStr "host.docker.internal:host-gateway"]);
     ("volumes", VList [VStr "/opt/apps/prod/demo/env:/data/env:ro"])])].

Lemma prepare_services_idempotent_witness :
  prepare_services "/opt/apps/prod/demo/env" [("web", VMap [("image", VStr "web:1")])] = inl ex_prepared
  ∧ prepare_services "/opt/apps/prod/demo/env" ex_prepared = inl ex_prepared.
Proof.
  split; [reflexivity|].
  apply (prepare_services_idempotent "/opt/apps/prod/demo/env" [("web", VMap [("image", VStr "web:1")])]).
  reflexivity.
Defined.
