(* ===== verification/StoreSpec.v ===== *)
(** * Properties of the local database and the app store *)
From S2P Require Import Prelude Errdefs GoValue Common Records Effects HostPorts World Store Steps.
From S2P Require Import Examples.
Open Scope go_scope.

(** Other goroutines leave the requested states alone meanwhile. *)
Definition requested_private (en : agent_env) : Prop := ∀ lg w,
  RequestedAppStates (interfere en lg w) = RequestedAppStates w.

(** The rows of an app all carry its name: it has not been renamed. *)
Definition not_renamed (p : TransitionPayload) (rows : list requested_row) : Prop :=
  Forall (λ r, requested_of_app (tp_AppKey p) (tp_Stage p) r = true → rr_app_name r = tp_AppName p) rows.

Definition current_row (p : TransitionPayload) (rows : list requested_row) : option requested_row :=
  List.find (requested_of_app (tp_AppKey p) (tp_Stage p)) rows.

Section store.
Context `{Host}.

Lemma same_key_requested p r :
  (requested_of_app (tp_AppKey p) (tp_Stage p) r = true → rr_app_name r = tp_AppName p) →
  same_key (payload_row p) r = requested_of_app (tp_AppKey p) (tp_Stage p) r.
Proof.
  intros Hn. unfold same_key, requested_of_app in *. simpl.
  destruct (rr_app_key r =? tp_AppKey p)%N eqn:Ek.
  - rewrite N.eqb_sym, Ek. destruct (bool_decide (rr_stage r = tp_Stage p)) eqn:Es; simpl in *.
    + rewrite Hn by done. rewrite String.eqb_refl. simpl. apply bool_decide_eq_true in Es.
      by rewrite bool_decide_true.
    + apply bool_decide_eq_false in Es. rewrite bool_decide_false by done. by rewrite andb_false_r.
  - rewrite N.eqb_sym, Ek. by rewrite andb_false_r.
Qed.

(** The row an upsert leaves for the app. *)
Definition upserted (p : TransitionPayload) (old : option requested_row) : requested_row :=
  match old with Some r => merge_row r (payload_row p) | None => payload_row p end.

Lemma find_map_merge p rows : not_renamed p rows →
  List.find (requested_of_app (tp_AppKey p) (tp_Stage p))
    (map (λ old, if same_key (payload_row p) old then merge_row old (payload_row p) else old) rows)
  = (λ r, merge_row r (payload_row p)) <$> current_row p rows.
Proof.
  unfold current_row. induction 1 as [|r rows Hr _ IH]; simpl; [done|]. rewrite same_key_requested by done.
  destruct (requested_of_app _ _ r) eqn:E; simpl.
  - unfold requested_of_app in *. simpl. by rewrite E.
  - by rewrite E.
Qed.

Lemma find_upsert p rows : not_renamed p rows →
  current_row p (upsert_row (payload_row p) rows) = Some (upserted p (current_row p rows)).
Proof.
  intros Hn. unfold upsert_row.
  assert (existsb (same_key (payload_row p)) rows = bool_decide (is_Some (current_row p rows))) as ->.
  { unfold current_row. induction Hn as [|r rows Hr _ IH]; simpl; [done|]. rewrite same_key_requested by done.
    destruct (requested_of_app _ _ r); simpl; [done|exact IH]. }
  case_bool_decide as Hs.
  - unfold current_row at 1. rewrite find_map_merge by done. by destruct Hs as [r ->].
  - apply eq_None_not_Some in Hs. rewrite Hs. revert Hs. unfold current_row.
    clear Hn. induction rows as [|r rows IH]; simpl.
    + unfold requested_of_app. simpl. by rewrite N.eqb_refl, bool_decide_true.
    + destruct (requested_of_app _ _ r); [done|]. exact IH.
Qed.

Variable en : agent_env.
Hypothesis Hpriv : requested_private en.

#[local] Set Default Proof Using "Type*".

Definition rows_are (rows : list requested_row) (st : agent_state) : Prop :=
  RequestedAppStates (world st) = rows.

Lemma rows_call {T} (c : AgentCall T) rows : keeps en (rows_are rows) (call c).
Proof. apply keeps_call. intros st r Hst. unfold rows_are in *. simpl. by rewrite Hpriv. Qed.

Lemma rows_db s rows : keeps en (rows_are rows) (db s).
Proof. unfold db, db_or. keeps_auto. apply rows_call. Qed.

Lemma upsert_rows p rows : triple en (rows_are rows) (UpsertRequestedStateChange p)
  (on_ok (λ _, rows_are (upsert_row (payload_row p) rows))).
Proof.
  unfold UpsertRequestedStateChange.
  do 2 (apply triple_bind with (R := λ _, rows_are rows);
    [eapply triple_post; [apply rows_db|by intros []]|intros ?]).
  intros st Hst. unfold rows_are in *. simpl. by rewrite Hst.
Qed.

Lemma get_row k s rows : triple en (rows_are rows) (GetRequestedState k s)
  (on_ok (λ q _, ∃ r, List.find (requested_of_app k s) rows = Some r ∧ q = row_payload r)).
Proof.
  unfold GetRequestedState.
  do 2 (apply triple_bind with (R := λ _, rows_are rows);
    [eapply triple_post; [apply rows_db|by intros []]|intros ?]).
  apply triple_gets_then. intros rows'. apply triple_pre with (λ _, rows' = rows);
    [|intros st [Hst Hr]; unfold rows_are in Hst; congruence].
  destruct (List.find _ rows') as [r|] eqn:E.
  - do 2 (apply triple_bind with (R := λ _ _, rows' = rows);
      [intros st Hst; by destruct (db _ en st) as [[]]|intros ?]).
    intros st <-. simpl. eauto.
  - intros st _. unfold bind. destruct (db DbClose en st) as [[]]; done.
Qed.
End store.

(** What a payload looks like once it has been written and read back: [old] is the
    row the app had before. *)
Definition restored `{Host} (p : TransitionPayload) (old : option requested_row) (q : TransitionPayload) : Prop :=
  (tp_AppKey q, tp_Stage q, tp_AppName q) = (tp_AppKey p, tp_Stage p, tp_AppName p)
  ∧ (tp_RequestedState q, tp_CurrentState q) = (tp_RequestedState p, tp_CurrentState p)
  ∧ (tp_PresentVersion q, tp_NewestVersion q) = (tp_PresentVersion p, tp_NewestVersion p)
  ∧ (tp_ReleaseKey q, tp_NewReleaseKey q, tp_RequestUpdate q)
    = (tp_ReleaseKey p, tp_NewReleaseKey p, tp_RequestUpdate p)
  ∧ tp_RequestorAccountKey q = tp_RequestorAccountKey p
  ∧ tp_DeviceOwnerAccountKey q =
      (if (0 <? tp_DeviceOwnerAccountKey p)%N then tp_DeviceOwnerAccountKey p
       else default 0%N (rr_device_owner_account_key <$> old))
  ∧ tp_Version q = default (tp_Version p) (rr_version <$> old)
  ∧ tp_EnvironmentVariables q = stored_map (tp_EnvironmentVariables p)
  ∧ tp_EnvironmentTemplate q = stored_map (tp_EnvironmentTemplate p)
  ∧ tp_Ports q = map json_roundtrip (tp_Ports p)
  ∧ tp_DockerCompose q = stored_map (tp_DockerCompose p)
  ∧ tp_NewDockerCompose q = stored_map (tp_NewDockerCompose p)
  ∧ (tp_AppCredEpoch q, tp_InstanceKey q, tp_DeviceToAppKey q) = (0, 0, 0)%N
  ∧ (tp_DockerCredentials q, tp_RegisteryToken q) = (None, "")
  ∧ (tp_Retrying q, tp_CancelTransition q) = (false, false).

Lemma upserted_restored `{Host} p old : not_renamed p (from_option (λ r, [r]) [] old) →
  (∀ r, old = Some r → requested_of_app (tp_AppKey p) (tp_Stage p) r = true) →
  restored p old (row_payload (upserted p old)).
Proof.
  intros Hn Hk. destruct old as [r|].
  - specialize (Hk r eq_refl). apply Forall_cons in Hn as [Hn _]. specialize (Hn Hk).
    unfold requested_of_app in Hk. apply andb_true_iff in Hk as [Hkey%N.eqb_eq Hst%bool_decide_eq_true].
    unfold restored. cbn. rewrite Hkey, Hst, Hn. split_and!; try done.
  - unfold restored. cbn. split_and!; try done.
    destruct (N.ltb_spec 0 (tp_DeviceOwnerAccountKey p)) as [|Hle]; [done|lia].
Qed.

(** a requested state that was written and read back is the payload that was
    written, with its JSON columns decoded, except for what the table does not carry: an
    existing row keeps its version and, when the payload has no device owner, its device
    owner; the credential epoch, the instance key, the registry credentials and the
    flags of a single request are reset. *)
Theorem requested_state_roundtrip `{Host} en p st st1 st2 q :
  requested_private en → not_renamed p (RequestedAppStates (world st)) →
  UpsertRequestedStateChange p en st = (Ok tt, st1) →
  GetRequestedState (tp_AppKey p) (tp_Stage p) en st1 = (Ok q, st2) →
  restored p (current_row p (RequestedAppStates (world st))) q.
Proof.
  intros Hpriv Hn Hup Hget. set (rows := RequestedAppStates (world st)) in *.
  pose proof (upsert_rows en Hpriv p rows st eq_refl) as H1. rewrite Hup in H1. simpl in H1.
  pose proof (get_row en Hpriv (tp_AppKey p) (tp_Stage p) _ st1 H1) as H2. rewrite Hget in H2.
  destruct H2 as (r&Hr&->). pose proof (find_upsert p rows Hn) as Hf. unfold current_row at 1 in Hf.
  rewrite Hr in Hf. injection Hf as ->.
  apply upserted_restored.
  - unfold current_row. destruct (List.find _ rows) as [r'|] eqn:E; simpl; [|constructor].
    apply List.find_some in E as [Hin _]. constructor; [|constructor].
    unfold not_renamed in Hn. rewrite List.Forall_forall in Hn. by apply Hn.
  - intros r' Hr'. by apply List.find_some in Hr' as [_ ?].
Qed.

Definition ex_epoch_payload : TransitionPayload :=
  with_NewestVersion "1.1.0" (with_Version "1.1.0" (ex_payload PRESENT RUNNING)).

Definition ex_st : agent_state := ex_state (ex_world PRESENT RUNNING).

Lemma requested_state_roundtrip_witness :
  ∃ st1 st2 q,
    UpsertRequestedStateChange ex_epoch_payload (ex_env no_override) ex_st = (Ok tt, st1)
    ∧ GetRequestedState 7 PROD (ex_env no_override) st1 = (Ok q, st2)
    ∧ restored ex_epoch_payload (current_row ex_epoch_payload (RequestedAppStates (world ex_st))) q
    ∧ tp_Version q = "".
Proof.
  do 3 eexists. split; [vm_compute; reflexivity|]. split; [vm_compute; reflexivity|]. split.
  - eapply (requested_state_roundtrip (ex_env no_override) ex_epoch_payload ex_st).
    + by intros lg w.
    + constructor; [|constructor]. by intros _.
    + vm_compute. reflexivity.
    + vm_compute. reflexivity.
  - reflexivity.
Defined.
