(* ===== verification/Counting.v ===== *)
(** * Counting calls

    How many calls of one kind a handler makes, from the kinds of steps it takes. *)
From S2P Require Import Prelude Errdefs GoValue Common Records Effects HostPorts ComposePorts World Store.
From S2P Require Import Steps TunnelRules EnvVars Observer Launch Transitions StateMachine AppManager Frames.
Open Scope go_scope.

(** How often a log shows a call of kind [k]. *)
Definition is_kind (k : kind) (e : event AgentCall World) : bool :=
  match e with Ev c _ _ =>
    match k, call_kind c with KUp, KUp | KStart, KStart | KRequest, KRequest => true | _, _ => false end end.

Definition count (k : kind) (lg : list (event AgentCall World)) : nat := length (List.filter (is_kind k) lg).

Section counting.
Context `{GoRuntime} `{Host}.
Variable en : agent_env.

#[local] Set Default Proof Using "Type*".

(** Every kind but one. *)
Definition without (k k' : kind) : Prop := k' ≠ k.

Definition at_most (k : kind) (n : nat) (st : agent_state) : Prop := (count k (log st) ≤ n)%nat.

Lemma count_call k {T} (c : AgentCall T) st :
  count k (log (after_call en c st)) =
    ((if is_kind k (Ev c (answer en T c (log st)) (world st)) then 1 else 0) + count k (log st))%nat.
Proof. unfold count, after_call. cbn [log List.filter]. by destruct (is_kind k _). Qed.

Lemma at_most_call k n {T} (c : AgentCall T) st : at_most k n st → at_most k (S n) (after_call en c st).
Proof. unfold at_most. rewrite count_call. destruct (is_kind _ _); lia. Qed.

Lemma at_most_other k n {T} (c : AgentCall T) st :
  call_kind c ≠ k → at_most k n st → at_most k n (after_call en c st).
Proof.
  unfold at_most. rewrite count_call. intros Hk. cbn [is_kind].
  replace (match k, call_kind c with KUp, KUp | KStart, KStart | KRequest, KRequest => true | _, _ => false end) with false; [done|].
  destruct k, (call_kind c); done.
Qed.

Lemma keeps_at_most {A} k n (m : Agent A) : does en (without k) m → keeps en (at_most k n) m.
Proof.
  intros Hm. eapply does_keeps; [exact Hm|]. intros st st' Hs Hst.
  destruct Hs; try exact Hst. by apply at_most_other.
Qed.

(** Code without calls of kind [k], before a bounded continuation. *)
Lemma at_most_then {A B} k n n' (m : Agent A) (f : A → Agent B) :
  does en (without k) m → (n ≤ n')%nat →
  (∀ a, triple en (at_most k n) (f a) (λ _, at_most k n')) →
  triple en (at_most k n) (bind m f) (λ _, at_most k n').
Proof.
  intros Hm Hn Hf. apply triple_bind with (R := λ _, at_most k n); [|exact Hf].
  eapply triple_post; [by apply keeps_at_most|]. unfold at_most. intros [] st Hst; simpl in *; lia.
Qed.

Lemma at_most_once {T B} k n n' (c : AgentCall T) (f : T → Agent B) :
  (∀ a, triple en (at_most k (S n)) (f a) (λ _, at_most k n')) →
  triple en (at_most k n) (bind (call c) f) (λ _, at_most k n').
Proof. intros Hf st Hst. unfold bind, call. apply Hf. by apply at_most_call. Qed.

Lemma at_most_end {A} k n n' (m : Agent A) : (n ≤ n')%nat → does en (without k) m →
  triple en (at_most k n) m (λ _, at_most k n').
Proof.
  intros Hn Hm. eapply triple_post; [by apply keeps_at_most|]. unfold at_most. intros o st Hst. lia.
Qed.

Lemma quiet_without k : growing k = true → ∀ k', quiet k' = true → without k k'.
Proof. intros Hk k' Hk' ->. by destruct k. Qed.
Lemma pulling_without k : k = KUp ∨ k = KStart → ∀ k', pulling k' = true → without k k'.
Proof. by intros [->| ->] [] ?. Qed.

Lemma bookkeeping_without k : k = KUp ∨ k = KStart → ∀ k', bookkeeping k' = true → without k k'.
Proof. by intros [->| ->] [] ?. Qed.

(** *** Exact counts *)

Definition exactly (k : kind) (n : nat) (st : agent_state) : Prop := count k (log st) = n.

Lemma keeps_exactly {A} k n (m : Agent A) : does en (without k) m → keeps en (exactly k n) m.
Proof.
  intros Hm. eapply does_keeps; [exact Hm|]. intros st st' Hs Hst. destruct Hs; try exact Hst.
  assert (at_most k n (after_call en c st)) as Hle.
  { apply at_most_other; [assumption|]. unfold at_most, exactly in *. lia. }
  unfold exactly, at_most in *. rewrite count_call in *. destruct (is_kind k _); lia.
Qed.
End counting.

Ltac others := intros ?; pose proof (quiet_without KUp eq_refl); pose proof (quiet_without KStart eq_refl);
  pose proof (pulling_without KUp (or_introl eq_refl)); pose proof (pulling_without KStart (or_intror eq_refl));
  frame.
