(* ===== verification/LaunchSpec.v ===== *)
(** * Properties of the launch of containers and compose projects

    The retry loops are bounded and report how they ended; host ports stay exclusive
    whatever the agent does. *)
From S2P Require Import Prelude Errdefs GoValue Common Records Effects HostPorts ComposePorts World Store.
From S2P Require Import Steps TunnelRules EnvVars Observer Launch Transitions StateMachine AppManager Frames Counting.
From S2P Require Import Examples Locks.
Open Scope go_scope.

Section launch.
Context `{GoRuntime} `{Host}.
Variable en : agent_env.

#[local] Set Default Proof Using "Type*".

(** ** docker compose up *)

Lemma up_attempts_bound attempts p l d t e n :
  triple en (at_most KUp n) (compose_up_attempts attempts p l d t e) (λ _, at_most KUp (n + attempts)).
Proof.
  revert e n. induction attempts as [|attempts IH]; intros e n; simpl.
  { apply at_most_end; [lia|]. others. }
  unfold callE. eapply triple_bind with (R := λ _, at_most KUp (S n)).
  { apply triple_bind with (R := λ _, at_most KUp (S n)).
    - intros st Hst. by apply at_most_call.
    - intros [u|e'] st Hst; simpl; [exact Hst|]. unfold at_most in *. lia. }
  intros _. apply at_most_then; [others|lia|intros _].
  apply at_most_then; [others|lia|]. intros [[]|e']; [apply at_most_end; [lia|others]|].
  apply at_most_then; [others|lia|]. intros []; [|apply at_most_end; [lia|others]].
  apply at_most_then; [others|lia|intros _]. apply at_most_then; [others|lia|intros _].
  eapply triple_post; [apply IH|]. unfold at_most. intros o st Hst. lia.
Qed.

(** The newest event: [docker compose up] ended without an error. *)
Definition up_succeeded (st : agent_state) : Prop := ∃ w lg, log st = Ev ComposeWait (inl tt) w :: lg.

Lemma compose_up_failed_fails P d t e Q : triple en P (compose_up_failed d t e) (on_ok Q).
Proof. unfold compose_up_failed. do 2 (apply on_ok_then; intros _). by intros st. Qed.

Lemma up_attempts_ok attempts p l d t e P :
  triple en P (compose_up_attempts attempts p l d t e) (on_ok (λ _, up_succeeded)).
Proof.
  revert e P. induction attempts as [|attempts IH]; intros e P; simpl; [apply compose_up_failed_fails|].
  do 2 (apply on_ok_then; intros _).
  apply triple_bind with (R := λ r st, match r with inl _ => up_succeeded st | inr _ => True end).
  { intros st _. simpl. destruct (answer en _ ComposeWait (log st)) as [[]|] eqn:E; [|done].
    unfold up_succeeded. simpl. eauto. }
  intros [[]|e']; [by intros st Hst|]. apply on_ok_then. intros []; [|apply compose_up_failed_fails].
  do 2 (apply on_ok_then; intros _). apply IH.
Qed.

(** ** Starting a container *)

Lemma start_once_bound p l n :
  triple en (at_most KStart n) (startContainerOnce p l) (λ _, at_most KStart (n + 2)).
Proof.
  unfold startContainerOnce.
  apply at_most_then; [others|lia|intros [c h]]. apply at_most_then; [others|lia|intros [id h']].
  apply at_most_once. intros [[]|e]; [apply at_most_end; [lia|others]|].
  destruct (str_contains _ _).
  - apply at_most_then; [others|lia|intros _]. apply at_most_then; [others|lia|intros [id' _]].
    eapply triple_bind with (R := λ _, at_most KStart (n + 2)); [|intros _ st Hst; exact Hst].
    eapply triple_post with (λ _, at_most KStart (n + 2)); [|by intros []].
    apply at_most_once. intros [u|e'] st Hst; unfold at_most in *; simpl; lia.
  - destruct (isPortAllocationError e); apply at_most_end; [lia|others|lia|others].
Qed.

Lemma start_attempts_bound attempts p l e n :
  triple en (at_most KStart n) (start_attempts attempts p l e) (λ _, at_most KStart (n + 2 * attempts)).
Proof.
  revert e n. induction attempts as [|attempts IH]; intros e n; cbn [start_attempts].
  { apply at_most_end; [lia|others]. }
  apply triple_bind with (R := λ _, at_most KStart (n + 2)).
  { apply triple_try. eapply triple_post; [apply start_once_bound|].
    unfold at_most. intros [] st Hst; simpl in *; lia. }
  intros [id|e']; [apply at_most_end; [lia|others]|].
  destruct (negb _); [apply at_most_end; [lia|others]|].
  apply at_most_then; [others|lia|]. intros []; [|apply at_most_end; [lia|others]].
  eapply triple_post; [apply IH|]. unfold at_most. intros o st Hst. lia.
Qed.
End launch.

(** bringing up a compose project runs [docker compose up] at most three times,
    whatever it answers and whatever fails in between, and reports success only when the
    last thing it saw was one of them finishing without an error. *)
Theorem composeUp_bounded `{GoRuntime} `{Host} en p l d t st :
  let r := composeUp p l d t en st in
  (count KUp (log r.2) ≤ count KUp (log st) + 3)%nat
  ∧ (r.1 = Ok tt → up_succeeded r.2).
Proof.
  simpl. unfold composeUp. split.
  - pose proof (up_attempts_bound en composeUpAttempts p l d t (Plain "") (count KUp (log st)) st (le_n _)) as Hb.
    exact Hb.
  - intros Hok. pose proof (up_attempts_ok en composeUpAttempts p l d t (Plain "") (λ _, True) st I) as Ht.
    by rewrite Hok in Ht.
Qed.

(** starting a container tries at most three times, each with at most one retry
    without the GPU runtime: the daemon is asked to start at most six containers. *)
Theorem startContainer_bounded `{GoRuntime} `{Host} en p l st :
  (count KStart (log (startContainer p l en st).2) ≤ count KStart (log st) + 6)%nat.
Proof.
  pose proof (start_attempts_bound en 3 p l (Plain "") (count KStart (log st)) st (le_n _)) as Hb. exact Hb.
Qed.

(** ** Host ports *)

(** What other goroutines do to the host ports is done through the registry. *)
Definition ports_through_registry (en : agent_env) : Prop := ∀ lg w,
  rtc registry_step (hostPorts w) (hostPorts (interfere en lg w)).

Lemma registry_only `{GoRuntime} `{Host} {A} en L (m : Agent A) st :
  ports_through_registry en → does en L m →
  rtc registry_step (hostPorts (world st)) (hostPorts (world (m en st).2)).
Proof.
  intros Hen Hm.
  apply (does_keeps en L m (λ st', rtc registry_step (hostPorts (world st)) (hostPorts (world st'))) Hm);
    [|apply rtc_refl].
  intros st1 st2 Hs Hr. etrans; [exact Hr|]. destruct Hs; try apply rtc_refl; [apply Hen|].
  by apply rtc_once.
Qed.

(** C34: whatever a request makes the agent do (synchronising ports, launching containers
    and compose projects, reassigning after bind conflicts, uninstalling), host ports
    stay exclusive: from a registry in order, no host port is ever assigned to two app
    ports, and every assigned port is marked in use. *)
Theorem request_keeps_ports_exclusive `{GoRuntime} `{Host} en p st k1 k2 port :
  ports_through_registry en → reachable (hostPorts (world st)) →
  assigned (hostPorts (world (RequestAppState p en st).2)) !! k1 = Some port →
  assigned (hostPorts (world (RequestAppState p en st).2)) !! k2 = Some port →
  k1 = k2 ∧ port ∈ inUse (hostPorts (world (RequestAppState p en st).2)).
Proof.
  intros Hen Hst H1 H2.
  pose proof (registry_only en (λ _, True) (RequestAppState p) st Hen (does_RequestAppState en _ (λ _ _, I) p)) as Hr.
  assert (reachable (hostPorts (world (RequestAppState p en st).2))) as Hreach by (unfold reachable; by etrans).
  apply reachable_wf in Hreach as [Huse Hinj]. split; [by eapply Hinj|by eapply Huse].
Qed.

(** A run that publishes a web port: two ports of the app get different host ports. *)
Definition ex_ports : list goval :=
  [VMap [("port", VInt 80); ("protocol", VStr "http"); ("active", VBool true)];
   VMap [("port", VInt 443); ("protocol", VStr "tcp"); ("active", VBool true)]].

Definition ex_port_payload : TransitionPayload := with_Ports ex_ports (ex_payload PRESENT RUNNING).

Definition ex_port_key (port : N) : hostPortKey :=
  {| hk_Stage := PROD; hk_AppKey := 7; hk_Protocol := "tcp"; hk_Port := port; hk_Service := "" |}.

Definition ex_port_run : outcome unit * agent_state :=
  RequestAppState ex_port_payload (ex_env no_override) (ex_state (ex_world PRESENT RUNNING)).

Lemma request_keeps_ports_exclusive_witness :
  ex_port_run.1 = Ok tt
  ∧ assigned (hostPorts (world ex_port_run.2)) !! ex_port_key 80 = Some 40000%N
  ∧ assigned (hostPorts (world ex_port_run.2)) !! ex_port_key 443 = Some 40001%N
  ∧ 40001%N ∈ inUse (hostPorts (world ex_port_run.2)).
Proof.
  assert (assigned (hostPorts (world ex_port_run.2)) !! ex_port_key 443 = Some 40001%N) as E
    by (vm_compute; reflexivity).
  split; [vm_compute; reflexivity|]. split; [vm_compute; reflexivity|]. split; [exact E|].
  pose proof (request_keeps_ports_exclusive (ex_env no_override) ex_port_payload
    (ex_state (ex_world PRESENT RUNNING)) (ex_port_key 443) (ex_port_key 443) 40001
    (λ _ _, rtc_refl _ _) (rtc_refl _ _) E E) as [_ Hin].
  exact Hin.
Defined.
