(* ===== verification/ManagerSpec.v ===== *)
(** * Properties of the app manager

    Crash-loop backoff, verification, the fate of failed and of successful requests,
    and the cleanup of orphaned containers. *)
From S2P Require Import Prelude Errdefs GoValue Common Records Effects HostPorts ComposePorts World Store.
From S2P Require Import Steps TunnelRules EnvVars Observer Launch Transitions StateMachine AppManager Frames Counting.
From S2P Require Import Examples Locks StoreSpec.
Open Scope go_scope.

(** ** Crash-loop backoff *)

Lemma loop_base_bounds retries : (5 * nanosecond_second ≤ loop_base retries ≤ one_hour)%Z.
Proof.
  unfold loop_base, one_hour, nanosecond_second. set (r := N.min 100 _).
  assert (1 ≤ r)%N as Hr by (unfold r; destruct (N.eqb_spec retries 0); lia).
  split; [|lia]. apply Z.min_glb; [lia|]. nia.
Qed.

(** The jitter moves a duration by at most a fifth (and the truncation). *)
Lemma jitter_bounds b u : (0 ≤ u < 2 ^ 53)%Z → (0 ≤ b)%Z →
  (4 * b < 5 * Z.quot (b * (8 * 2 ^ 53 + 4 * u)) (10 * 2 ^ 53) + 5)%Z
  ∧ (5 * Z.quot (b * (8 * 2 ^ 53 + 4 * u)) (10 * 2 ^ 53) ≤ 6 * b)%Z.
Proof.
  generalize (eq_refl : (2 ^ 53 = 2 ^ 53)%Z). generalize (2 ^ 53)%Z at 2 3 4 5 6 7 as K.
  intros K HK Hu Hb. assert (0 < K)%Z as HK0 by lia. clear HK.
  rewrite Z.quot_div_nonneg by nia. set (n := (b * (8 * K + 4 * u))%Z).
  pose proof (Z.mul_div_le n (10 * K) ltac:(lia)). pose proof (Z.mul_succ_div_gt n (10 * K) ltac:(lia)).
  set (q := Z.div n (10 * K)) in *. assert (8 * b * K ≤ n ≤ 12 * b * K)%Z by (unfold n; nia).
  split; [apply Z.nle_gt|apply Z.le_ngt]; intros Hlt; nia.
Qed.

(** the pause before a restart is 5 s times the square of the attempts, at most an
    hour, give or take a fifth; it never decreases with the attempts before the jitter;
    and the product it is computed from fits a 64-bit duration for every counter
    value, thanks to the clamp at 100. *)
Theorem crash_loop_backoff retries u :
  (0 ≤ u < 2 ^ 53)%Z →
  (4 * loop_base retries < 5 * calculateLoopSleepTime retries u + 5)%Z
  ∧ (5 * calculateLoopSleepTime retries u ≤ 6 * loop_base retries)%Z
  ∧ (4 * nanosecond_second ≤ calculateLoopSleepTime retries u ≤ 72 * 60 * nanosecond_second)%Z
  ∧ (∀ more, (retries ≤ more)%N → loop_base retries ≤ loop_base more)%Z
  ∧ (nanosecond_second * 5 * 100 * 100 < 2 ^ 63)%Z
  ∧ ((0 < retries ≤ 26)%N → loop_base retries = 5 * nanosecond_second * (Z.of_N retries * Z.of_N retries))%Z.
Proof.
  intros Hu. pose proof (loop_base_bounds retries) as Hb. unfold one_hour, nanosecond_second in *.
  pose proof (jitter_bounds (loop_base retries) u Hu ltac:(lia)) as [Hl Hh].
  fold (calculateLoopSleepTime retries u) in Hl, Hh. split_and!; try lia.
  - intros more Hm. unfold loop_base, nanosecond_second.
    destruct (N.eqb_spec retries 0), (N.eqb_spec more 0); nia.
  - intros Hr. unfold loop_base, one_hour, nanosecond_second. destruct (N.eqb_spec retries 0); [lia|].
    rewrite N.min_r by lia. nia.
Qed.

Lemma crash_loop_backoff_witness :
  (0 ≤ 2 ^ 52 < 2 ^ 53)%Z ∧ calculateLoopSleepTime 3 (2 ^ 52) = 45000000000%Z
  ∧ (4 * nanosecond_second ≤ calculateLoopSleepTime 3 (2 ^ 52) ≤ 72 * 60 * nanosecond_second)%Z.
Proof.
  split; [lia|]. split; [vm_compute; reflexivity|]. apply (crash_loop_backoff 3 (2 ^ 52)). lia.
Defined.

(** ** Verification *)

Lemma read_app_ok en l st a : heap (world st) !! l = Some a → read_app l en st = (Ok a, st).
Proof. intros Ha. unfold read_app, bind, gets, ret. by rewrite Ha. Qed.

Lemma with_state_lock_ok {A} en l (f : App → A) st a :
  heap (world st) !! l = Some a → app_state_lock a = false → with_state_lock l f en st = (Ok (f a), st).
Proof.
  intros Ha Hs. unfold with_state_lock. rewrite (bind_ok _ _ _ _ _ _ (read_app_ok en l st a Ha)).
  by rewrite Hs.
Qed.

(** Whether a verified app needs another request. *)
Definition needs_request (a : App) (q : TransitionPayload) : bool :=
  negb (bool_decide (app_CurrentState a = FAILED))
  && (negb (bool_decide (app_CurrentState a = app_RequestedState a)) || pending_update q).

Lemma requestless `{GoRuntime} `{Host} {A} en n (m : Agent A) :
  does en (without KRequest) m → ∀ st, count KRequest (log st) = n → count KRequest (log (m en st).2) = n.
Proof. intros Hm st Hst. by apply (keeps_exactly en KRequest n m Hm). Qed.

(** after a transition the app is verified: it is requested again, once and with the
    payload of the database, exactly if it has not failed and either it is not in its
    requested state or its update is still pending; an app that is where it should be
    starts nothing, so the requests of an app that converges come to an end. *)
Theorem VerifyState_requests `{GoRuntime} `{Host} en l st a q st1 b :
  heap (world st) !! l = Some a →
  GetRequestedState (app_AppKey a) (app_Stage a) en st = (Ok q, st1) →
  heap (world st1) !! l = Some b → app_state_lock b = false →
  count KRequest (log (VerifyState l en st).2)
  = (count KRequest (log st1) + if needs_request b q then 1 else 0)%nat.
Proof.
  intros Ha Hq Hb Hlock. unfold VerifyState.
  rewrite (bind_ok _ _ _ _ _ _ (read_app_ok en l st a Ha)), (bind_ok _ _ _ _ _ _ Hq).
  rewrite (bind_ok _ _ _ _ _ _ (with_state_lock_ok en l _ st1 b Hb Hlock)).
  unfold needs_request. destruct (bool_decide (app_CurrentState b = FAILED)); simpl; [lia|].
  assert (∀ k, quiet k = true → without KRequest k) as HQ by (by intros []).
  assert (without KRequest KCurrent) as HC by done.
  assert (∀ s, without KRequest (KPublish s)) as HP by done.
  assert (∀ n m st', does en (without KRequest) m → count KRequest (log st') = n →
    count KRequest (log ((m : Agent unit) en st').2) = n) as Hrest by (intros; by apply requestless).
  destruct (negb _ || pending_update q).
  - rewrite (bind_ok en st1 (after_call en (GoRequestAppState q) st1) _ _ tt).
    + apply Hrest; [intros ?; frame|]. rewrite count_call. simpl. lia.
    + unfold call, after_call. by destruct (answer en _ (GoRequestAppState q) (log st1)).
  - rewrite Nat.add_0_r. apply Hrest; [intros ?; frame|done].
Qed.

Definition ex_query (s : AppState) : outcome TransitionPayload * agent_state :=
  GetRequestedState 7 PROD (ex_env no_override) (ex_state (ex_world s RUNNING)).
Definition ex_queried (s : AppState) : TransitionPayload :=
  match (ex_query s).1 with Ok q => q | _ => ex_payload s RUNNING end.

Lemma ex_query_ok s : s = RUNNING ∨ s = PRESENT →
  ex_query s = (Ok (ex_queried s), (ex_query s).2)
  ∧ heap (world (ex_query s).2) !! 0%nat = Some (ex_app s RUNNING)
  ∧ count KRequest (log (ex_query s).2) = 0%nat
  ∧ needs_request (ex_app s RUNNING) (ex_queried s) = bool_decide (s = PRESENT).
Proof. intros [->| ->]; vm_compute; auto. Qed.

(** A running app needs nothing more; one that was left stopped is requested again. *)
Lemma VerifyState_requests_witness :
  count KRequest (log (VerifyState 0 (ex_env no_override) (ex_state (ex_world PRESENT RUNNING))).2) = 1%nat.
Proof.
  pose (s := PRESENT). assert (s = RUNNING ∨ s = PRESENT) as Hs by (by right).
  destruct (ex_query_ok s Hs) as (Hq & Hh & Hc & Hn).
  pose proof (VerifyState_requests (ex_env no_override) 0 (ex_state (ex_world s RUNNING))
    (ex_app s RUNNING) (ex_queried s) (ex_query s).2 (ex_app s RUNNING) eq_refl Hq Hh eq_refl) as Hv.
  rewrite Hc, Hn in Hv. exact Hv.
Defined.
