(* ===== verification/Frp.v ===== *)
(** * The frpc configuration (src/src/tunnel/frp.go)

    The configuration file of the tunnel client as the agent keeps it in memory: the
    choice of the tunnel server, the list of proxies with its insertion, update and
    removal, and the way a proxy is read back into a tunnel. *)
From S2P Require Import Prelude Errdefs GoValue Common Records Effects HostPorts World TunnelRules.

(** ** Data *)

(** Conversions between [uint64] and the 64-bit [int] of the configuration. *)
Definition int_of_uint64 (n : N) : Z :=
  if (n <? 2 ^ 63)%N then Z.of_N n else (Z.of_N n - 2 ^ 64)%Z.
Definition uint64_of_int (z : Z) : N := Z.to_N (z mod 2 ^ 64).

Record ProxyConfig := {
  px_Name : string;
  px_Type : string;
  px_LocalIP : string;
  px_LocalPort : Z;
  px_RemotePort : Z;
  px_SubDomain : string;
}.

(** Of the transport, [Protocol], [ProxyURL] and [TLS.Enable] are in use; the [Log] and
    [Metadatas] blocks hold plain strings and one number. *)
Record FrpcYamlConfig := {
  fy_ServerAddr : string;
  fy_ServerPort : Z;
  fy_TransportProtocol : string;
  fy_ProxyURL : string;
  fy_TLSEnable : bool;
  fy_Metadatas : list (string * string);
  fy_WebServerAddr : string;
  fy_WebServerPort : Z;
  fy_LogTo : string;
  fy_LogLevel : string;
  fy_LogMaxDays : Z;
  fy_LoginFailExit : bool;
  fy_Proxies : list ProxyConfig;
}.

Definition set_Proxies (v : list ProxyConfig) (c : FrpcYamlConfig) : FrpcYamlConfig :=
  {| fy_ServerAddr := fy_ServerAddr c; fy_ServerPort := fy_ServerPort c;
     fy_TransportProtocol := fy_TransportProtocol c; fy_ProxyURL := fy_ProxyURL c;
     fy_TLSEnable := fy_TLSEnable c; fy_Metadatas := fy_Metadatas c;
     fy_WebServerAddr := fy_WebServerAddr c; fy_WebServerPort := fy_WebServerPort c;
     fy_LogTo := fy_LogTo c; fy_LogLevel := fy_LogLevel c; fy_LogMaxDays := fy_LogMaxDays c;
     fy_LoginFailExit := fy_LoginFailExit c; fy_Proxies := v |}.

Definition set_WebServerPort (v : Z) (c : FrpcYamlConfig) : FrpcYamlConfig :=
  {| fy_ServerAddr := fy_ServerAddr c; fy_ServerPort := fy_ServerPort c;
     fy_TransportProtocol := fy_TransportProtocol c; fy_ProxyURL := fy_ProxyURL c;
     fy_TLSEnable := fy_TLSEnable c; fy_Metadatas := fy_Metadatas c;
     fy_WebServerAddr := fy_WebServerAddr c; fy_WebServerPort := v;
     fy_LogTo := fy_LogTo c; fy_LogLevel := fy_LogLevel c; fy_LogMaxDays := fy_LogMaxDays c;
     fy_LoginFailExit := fy_LoginFailExit c; fy_Proxies := fy_Proxies c |}.

(** ** The tunnel server *)

(** What [initialize] takes from libraries and the machine: [net.ParseIP], the HMAC
    with its unpadded URL encoding, the proxy the environment names for a URL and the
    operating system. *)
Class FrpHost := {
  parse_ip : string → bool;
  hmac_raw_url : string → string → string;
  environment_proxy : string → option string;
  os_windows : bool;
}.

(** [net.JoinHostPort]. *)
Definition JoinHostPort (host port : string) : string :=
  if lacks ":" host then host +:+ ":" +:+ port else "[" +:+ host +:+ "]:" +:+ port.

Section initialize.
Context `{Host} `{FrpHost}.

(** [api.ironflock.com] becomes [app.ironflock.com]; names without a dot stay. *)
Definition tunnel_host (hostname : string) : string :=
  if String.eqb hostname "localhost" || String.eqb hostname "127.0.0.1" then hostname
  else if String.eqb hostname "host.docker.internal" then hostname
  else if parse_ip hostname then hostname
  else match split_on "." hostname with
       | _ :: ((_ :: _) as rest) => join_with "." ("app" :: rest)
       | _ => hostname
       end.

Definition server_address (cfg : Config) : string :=
  if negb (String.eqb (cfg_ApplianceDomain cfg) "") then cfg_ApplianceDomain cfg
  else if negb (String.eqb (cfg_DeviceEndpointURL cfg) "") then
    match url_hostname (cfg_DeviceEndpointURL cfg) with
    | None => PROD_SERVER_ADDR
    | Some hostname => if String.eqb hostname "" then PROD_SERVER_ADDR else tunnel_host hostname
    end
  else if String.eqb (cfg_Environment cfg) "production" then PROD_SERVER_ADDR
  else if String.eqb (cfg_Environment cfg) "test" then TEST_SERVER_ADDR
  else if String.eqb (cfg_Environment cfg) "local" then "localhost"
  else PROD_SERVER_ADDR.

Definition tunnelAuthProof (secret : string) (deviceKey : N) : string :=
  hmac_raw_url secret ("tunnel-authz:v1:" +:+ itoa deviceKey).

Definition wss_mode (cfg : Config) : bool :=
  negb (String.eqb (cfg_ApplianceDomain cfg) "") && has_prefix "wss://" (cfg_DeviceEndpointURL cfg).

Definition local_server (addr : string) : bool :=
  String.eqb addr "localhost" || String.eqb addr "127.0.0.1" || String.eqb addr "host.docker.internal".

(** The configuration [initialize] writes, with the admin port it picked. *)
Definition initial_config (cfg : Config) (adminPort : Z) : FrpcYamlConfig :=
  let serverAddr := server_address cfg in
  {| fy_ServerAddr := serverAddr;
     fy_ServerPort := if local_server serverAddr then 7400 else if wss_mode cfg then 443 else 7000;
     fy_TransportProtocol := if wss_mode cfg then "wss" else "";
     fy_ProxyURL := if wss_mode cfg
                    then default "" (environment_proxy ("https://" +:+ JoinHostPort serverAddr "443")) else "";
     fy_TLSEnable := true;
     fy_Metadatas := if negb (String.eqb (cfg_Secret cfg) "") && (0 <? cfg_DeviceKey cfg)%N
                     then [("tunnel_proof", tunnelAuthProof (cfg_Secret cfg) (cfg_DeviceKey cfg))] else [];
     fy_WebServerAddr := "127.0.0.1"; fy_WebServerPort := adminPort;
     fy_LogTo := if os_windows then cfg_AgentDir cfg +:+ "\frpc.log" else "/var/log/frpc.log";
     fy_LogLevel := "debug"; fy_LogMaxDays := 3; fy_LoginFailExit := false; fy_Proxies := [] |}.
End initialize.

(** ** Proxies *)

Definition is_http (protocol : string) : bool := String.eqb protocol "http" || String.eqb protocol "https".

Definition tunnel_name (conf : TunnelConfig) : string := CreateTunnelID (tc_Subdomain conf) (tc_Protocol conf).

Definition proxy_of (conf : TunnelConfig) : ProxyConfig :=
  {| px_Name := tunnel_name conf; px_Type := tc_Protocol conf; px_LocalIP := tc_LocalIP conf;
     px_LocalPort := int_of_uint64 (tc_LocalPort conf);
     px_RemotePort := if is_http (tc_Protocol conf) then 0 else int_of_uint64 (tc_RemotePort conf);
     px_SubDomain := if is_http (tc_Protocol conf) then tc_Subdomain conf else "" |}.

Definition with_px_RemotePort (v : Z) (p : ProxyConfig) : ProxyConfig :=
  {| px_Name := px_Name p; px_Type := px_Type p; px_LocalIP := px_LocalIP p;
     px_LocalPort := px_LocalPort p; px_RemotePort := v; px_SubDomain := px_SubDomain p |}.

(** The loop of [AddTunnelConfig] over the proxies: [None] when the tunnel is there with
    the same local address, so that nothing is written. *)
Fixpoint upsert_proxy (p : ProxyConfig) (proxies : list ProxyConfig) : option (list ProxyConfig) :=
  match proxies with
  | [] => Some [p]
  | q :: rest =>
      if negb (String.eqb (px_Name q) (px_Name p)) then cons q <$> upsert_proxy p rest
      else if (px_LocalPort q =? px_LocalPort p)%Z && String.eqb (px_LocalIP q) (px_LocalIP p) then None
      else Some ((if (px_RemotePort p =? 0)%Z then with_px_RemotePort (px_RemotePort q) p else p) :: rest)
  end.

Definition RemoveTunnelVariable (tunnelID : string) (proxies : list ProxyConfig) : list ProxyConfig :=
  List.filter (λ p, negb (String.eqb (px_Name p) tunnelID)) proxies.

(** ** Reading a proxy back *)

(** The longest run of digits at the front. *)
Fixpoint take_digits (s : string) : string :=
  match s with
  | "" => ""
  | String a s' => if is_digit a then String a (take_digits s') else ""
  end.
Fixpoint drop_digits (s : string) : string :=
  match s with
  | "" => ""
  | String a s' => if is_digit a then drop_digits s' else s
  end.

Definition newline_char : ascii := "010".

(** The rest of [subdomainRegex] after the device key, a name, a dash and a number, at
    the front of [s]: the greedy star takes the last dash followed by
    a digit that it reaches without a newline. *)
Fixpoint match_name_port (s : string) : option (string * string) :=
  match s with
  | "" => None
  | String a s' =>
      let longer := if Ascii.eqb a newline_char then None else match_name_port s' in
      match longer with
      | Some (name, port) => Some (String a name, port)
      | None =>
          if Ascii.eqb a "-" && negb (String.eqb (take_digits s') "")
          then Some ("", take_digits s') else None
      end
  end.

(** [subdomainRegex.FindStringSubmatch]: the leftmost match of digits, a
    dash, a name, a dash and digits. *)
Definition match_here (s : string) : option (string * string) :=
  if String.eqb (take_digits s) "" then None
  else match drop_digits s with
       | String a rest => if Ascii.eqb a "-" then match_name_port rest else None
       | "" => None
       end.

Fixpoint subdomain_match (s : string) : option (string * string) :=
  match match_here s with
  | Some r => Some r
  | None => match s with "" => None | String _ s' => subdomain_match s' end
  end.

Definition proxy_subdomain (p : ProxyConfig) : string :=
  if String.eqb (px_SubDomain p) "" then trim_suffix ("-" +:+ px_Type p) (px_Name p) else px_SubDomain p.

Definition tunnel_of (p : ProxyConfig) : TunnelConfig :=
  let subdomain := proxy_subdomain p in
  let result := subdomain_match subdomain in
  {| tc_Subdomain := subdomain;
     tc_AppName := match result with Some (name, _) => name | None => "" end;
     tc_Protocol := px_Type p;
     tc_LocalPort := uint64_of_int (px_LocalPort p);
     tc_LocalIP := px_LocalIP p;
     tc_RemotePort := uint64_of_int (px_RemotePort p);
     tc_DeclaredPort := match result with
                        | Some (_, port) => default (uint64_of_int (px_LocalPort p)) (parse_uint 64 port)
                        | None => uint64_of_int (px_LocalPort p)
                        end;
     tc_Name := px_Name p |}.

Definition GetTunnelConfig (c : FrpcYamlConfig) : list TunnelConfig := tunnel_of <$> fy_Proxies c.

(** ** What is read back is what was added *)

Lemma uint64_of_int_of_uint64 n : (n < 2 ^ 64)%N → uint64_of_int (int_of_uint64 n) = n.
Proof.
  intros Hn. unfold uint64_of_int, int_of_uint64. destruct (N.ltb_spec n (2 ^ 63)).
  - rewrite Z.mod_small by lia. lia.
  - replace (Z.of_N n - 2 ^ 64)%Z with (Z.of_N n + (-1) * 2 ^ 64)%Z by lia.
    rewrite Z.mod_add, Z.mod_small by lia. lia.
Qed.

Lemma take_drop_digits d s :
  str_forall is_digit d = true → take_digits s = "" →
  take_digits (d +:+ s) = d ∧ drop_digits (d +:+ s) = s.
Proof.
  intros Hd Hs. induction d as [|a d IH]; simpl.
  - split; [done|]. destruct s as [|b s]; [done|]. simpl in *. by destruct (is_digit b).
  - simpl in Hd. apply andb_prop in Hd as [Ha Hd]. rewrite Ha. destruct (IH Hd) as [-> ->]. done.
Qed.

Lemma take_digits_all d : str_forall is_digit d = true → take_digits d = d.
Proof.
  induction d as [|a d IH]; simpl; [done|]. intros [Ha Hd]%andb_prop. rewrite Ha. by rewrite IH.
Qed.

Lemma no_dash_no_port d : str_forall is_digit d = true → match_name_port d = None.
Proof.
  induction d as [|a d IH]; simpl; [done|]. intros [Ha Hd]%andb_prop. rewrite IH by done.
  assert (a ≠ "-"%char) as Hne by (intros ->; discriminate).
  apply Ascii.eqb_neq in Hne. rewrite Hne. simpl. by destruct (Ascii.eqb a newline_char).
Qed.

Lemma match_name_port_app name port :
  lacks newline_char name = true → str_forall is_digit port = true → port ≠ "" →
  match_name_port (name +:+ "-" +:+ port) = Some (name, port).
Proof.
  intros Hname Hport Hne. induction name as [|a name IH]; simpl.
  - rewrite no_dash_no_port, take_digits_all by done. apply String.eqb_neq in Hne. by rewrite Hne.
  - unfold lacks in Hname. simpl in Hname. apply andb_prop in Hname as [Ha Hname].
    unfold not_char in Ha. apply negb_true_iff in Ha. simpl in IH. rewrite Ha, IH; done.
Qed.

Lemma subdomain_match_app key name port :
  lacks newline_char name = true →
  subdomain_match (itoa key +:+ "-" +:+ name +:+ "-" +:+ itoa port) = Some (name, itoa port).
Proof.
  intros Hname. set (rest := "-" +:+ name +:+ "-" +:+ itoa port).
  destruct (take_drop_digits (itoa key) rest (itoa_digits key) eq_refl) as [Ht Hd].
  assert (match_here (itoa key +:+ rest) = Some (name, itoa port)) as Hm.
  { unfold match_here. rewrite Ht, Hd. destruct (String.eqb_spec (itoa key) "") as [Hk|_].
    - by destruct (itoa_nonempty key).
    - apply match_name_port_app; [done|apply itoa_digits|apply itoa_nonempty]. }
  destruct (itoa key +:+ rest) eqn:E; cbn [subdomain_match]; by rewrite Hm.
Qed.

Lemma ascii_lower_newline a : ascii_lower a = newline_char → a = newline_char.
Proof. destruct a as [[] [] [] [] [] [] [] []]; vm_compute; congruence. Qed.

Lemma subdomain_match_created protocol key name port :
  lacks newline_char name = true →
  subdomain_match (CreateSubdomain protocol key name port) = Some (to_lower name, itoa port).
Proof.
  intros Hname. unfold CreateSubdomain. rewrite !to_lower_app, !to_lower_itoa.
  assert (lacks newline_char (to_lower name) = true) as Hl.
  { unfold lacks, to_lower in *. clear key port. induction name as [|a s IH]; [done|]. simpl in *.
    apply andb_prop in Hname as [Ha Hs]. rewrite (IH Hs), andb_true_r. unfold not_char in *.
    apply negb_true_iff. apply negb_true_iff in Ha. apply Ascii.eqb_neq in Ha. apply Ascii.eqb_neq.
    intros Heq. by apply Ha, ascii_lower_newline. }
  change (to_lower "-") with "-".
  destruct (String.eqb protocol "https"); [|by apply subdomain_match_app].
  simpl. rewrite <- (subdomain_match_app key (to_lower name) port Hl). done.
Qed.

Lemma CreateSubdomain_nonempty protocol key name port : CreateSubdomain protocol key name port ≠ "".
Proof.
  unfold CreateSubdomain. rewrite to_lower_app, to_lower_itoa.
  destruct (String.eqb protocol "https"); [done|]. destruct (itoa key) eqn:E; [|done].
  by destruct (itoa_nonempty key).
Qed.

Lemma proxy_subdomain_of conf : tc_Subdomain conf ≠ "" → proxy_subdomain (proxy_of conf) = tc_Subdomain conf.
Proof.
  intros Hne. unfold proxy_subdomain, proxy_of. cbn [px_SubDomain px_Type px_Name].
  destruct (is_http (tc_Protocol conf)).
  - apply String.eqb_neq in Hne. by rewrite Hne.
  - simpl. unfold tunnel_name, CreateTunnelID. apply (trim_suffix_app _ (String "-" (tc_Protocol conf))).
Qed.

(** What [tunnel_of] recovers, field by field. *)
Lemma subdomain_read_back conf : tc_Subdomain conf ≠ "" → tc_Subdomain (tunnel_of (proxy_of conf)) = tc_Subdomain conf.
Proof. apply proxy_subdomain_of. Qed.

Lemma match_read_back key name port conf :
  tc_Subdomain conf = CreateSubdomain (tc_Protocol conf) key name port → lacks newline_char name = true →
  subdomain_match (proxy_subdomain (proxy_of conf)) = Some (to_lower name, itoa port).
Proof.
  intros Hs Hname. rewrite proxy_subdomain_of by (rewrite Hs; apply CreateSubdomain_nonempty).
  rewrite Hs. by apply subdomain_match_created.
Qed.

Lemma name_read_back key name port conf :
  tc_Subdomain conf = CreateSubdomain (tc_Protocol conf) key name port → lacks newline_char name = true →
  tc_AppName (tunnel_of (proxy_of conf)) = to_lower name.
Proof. intros Hs Hname. cbn [tunnel_of tc_AppName]. by rewrite (match_read_back key name port). Qed.

Lemma declared_read_back key name port conf :
  tc_Subdomain conf = CreateSubdomain (tc_Protocol conf) key name port → lacks newline_char name = true →
  (port < 2 ^ 64)%N → tc_DeclaredPort (tunnel_of (proxy_of conf)) = port.
Proof.
  intros Hs Hname Hport. cbn [tunnel_of tc_DeclaredPort]. rewrite (match_read_back key name port) by done.
  by rewrite parse_uint_itoa.
Qed.

(** the tunnel of an app survives the configuration file: whatever the name, the
    device key and the declared port, the proxy written for a tunnel is read back with
    the tunnel's subdomain, the (lower-case) app name, the declared port even though the
    proxy dials another one, and every number unchanged by the conversions between
    signed and unsigned; only the remote port of an HTTP tunnel is not kept. *)
Theorem tunnel_config_roundtrip key name port conf :
  tc_Subdomain conf = CreateSubdomain (tc_Protocol conf) key name port →
  lacks newline_char name = true → (port < 2 ^ 64)%N →
  (tc_LocalPort conf < 2 ^ 64)%N → (tc_RemotePort conf < 2 ^ 64)%N →
  tunnel_of (proxy_of conf) =
  {| tc_Subdomain := tc_Subdomain conf; tc_AppName := to_lower name; tc_Protocol := tc_Protocol conf;
     tc_LocalPort := tc_LocalPort conf; tc_LocalIP := tc_LocalIP conf;
     tc_RemotePort := if is_http (tc_Protocol conf) then 0%N else tc_RemotePort conf;
     tc_DeclaredPort := port; tc_Name := tunnel_name conf |}.
Proof.
  intros Hs Hname Hport Hlocal Hremote. unfold tunnel_of.
  rewrite (match_read_back key name port) by done.
  rewrite proxy_subdomain_of by (rewrite Hs; apply CreateSubdomain_nonempty).
  cbn [proxy_of px_Type px_LocalPort px_LocalIP px_RemotePort px_Name].
  rewrite parse_uint_itoa, uint64_of_int_of_uint64 by done. f_equal.
  destruct (is_http _); [done|]. by apply uint64_of_int_of_uint64.
Qed.

Definition ex_tunnel : TunnelConfig :=
  {| tc_Subdomain := "7-shop-2-go-8080"; tc_AppName := "Shop-2-Go"; tc_Protocol := "tcp";
     tc_LocalPort := 40001; tc_LocalIP := ""; tc_RemotePort := 30005; tc_DeclaredPort := 0; tc_Name := "" |}.

Lemma tunnel_config_roundtrip_witness :
  tc_AppName (tunnel_of (proxy_of ex_tunnel)) = "shop-2-go" ∧ tc_DeclaredPort (tunnel_of (proxy_of ex_tunnel)) = 8080%N.
Proof.
  rewrite (tunnel_config_roundtrip 7 "Shop-2-Go" 8080 ex_tunnel); [split; vm_compute; reflexivity|vm_compute; reflexivity..].
Defined.
