(* ===== verification/Tunnels.v ===== *)
(** * The tunnel manager (src/src/tunnel/tunnel.go)

    The manager of the tunnel client [frpc]: its capability and login state, the spawning
    and supervision of the client, the reading of the client's output, the tunnels that
    are active, and the state reported for them.  [startMu] serialises the starts and
    stops of the client, so each of them is one sequence here; [tunnelsLock],
    [loginMutex] and [capabilityMu] are held for single reads and writes only. *)
From S2P Require Import Prelude Errdefs GoValue Common Records Effects HostPorts World TunnelRules Frp.
Open Scope go_scope.

(** ** Data *)

Inductive TunnelCapability :=
  | CapabilityUnknown | CapabilityStarting | CapabilityAvailable | CapabilityUnavailable.

#[export] Instance capability_eq_dec : EqDecision TunnelCapability.
Proof. solve_decision. Defined.

Definition capability_string (c : TunnelCapability) : string :=
  match c with
  | CapabilityStarting => "starting"
  | CapabilityAvailable => "available"
  | CapabilityUnavailable => "unavailable"
  | CapabilityUnknown => "unknown"
  end.

Record Tunnel := { tn_Error : string; tn_Config : TunnelConfig }.

Record TunnelStatus := {
  ts_Name : string;
  ts_Status : string;
  ts_LocalAddr : string;
  ts_Plugin : string;
  ts_RemoteAddr : string;
  ts_RemotePort : N;
  ts_Error : string;
  ts_Protocol : string;
}.

(** What frpc's admin interface reports. *)
Record FrpStatus := {
  fs_Name : string;
  fs_Type : string;
  fs_Status : string;
  fs_Err : string;
  fs_LocalAddr : string;
  fs_Plugin : string;
  fs_RemoteAddr : string;
}.

Record TunnelState := {
  tst_Status : TunnelStatus;
  tst_AppName : string;
  tst_Port : N;
  tst_Active : bool;
  tst_Error : bool;
  tst_ErrorMessage : string;
  tst_URL : string;
}.

Inductive binary_stat := BinaryPresent | BinaryMissing | BinaryUnreadable (e : error).
Inductive ack_answer := AckOk | AckFailed (e : error) | AckDeadline.

(** The admin interface's answer; the map of the decoded body is listed in the order the
    agent ranges over it. *)
Inductive admin_answer :=
  | AdminRequestFailed (e : error)
  | AdminUnreachable (e : error)
  | AdminStatusCode (code : N)
  | AdminBadBody (e : error)
  | AdminStatuses (m : list (string * list FrpStatus)).

Inductive TunnelCall : Type → Type :=
  | WriteConfig (c : FrpcYamlConfig) : TunnelCall (unit + error)
  | ListenLoopback (port : Z) : TunnelCall bool
  | RandomFreePort : TunnelCall (Z + error)
  | DialFrps (addr : string) : TunnelCall (unit + error)
  | StatBinary : TunnelCall binary_stat
  | ReacquireFrpc : TunnelCall (unit + error)
  | OpenStdout : TunnelCall (unit + error)
  | StartProcess : TunnelCall (unit + error)
  | KillProcess (client : nat) : TunnelCall unit
  | AwaitReaped (client : nat) : TunnelCall unit
  | AwaitAck (deadline : Z) : TunnelCall ack_answer
  | SendAck (result : option error) : TunnelCall unit
  | AwaitLogin : TunnelCall unit
  | FrpcReload : TunnelCall (unit + string * error)
  | AdminStatus (port : Z) : TunnelCall admin_answer
  | ExposePort (port : N) (protocol : string) : TunnelCall (list goval + error)
  | SetRemotePorts (p : TransitionPayload) : TunnelCall (unit + error)
  | PublishStates (states : list TunnelState) : TunnelCall (unit + error)
  | SleepFor (ns : Z) : TunnelCall unit
  (* goroutines started and not waited for *)
  | GoPublish : TunnelCall unit
  | GoPublishAfterLogin : TunnelCall unit
  | GoSupervise : TunnelCall unit
  | GoScanner (client : nat) : TunnelCall unit
  | GoMonitors : TunnelCall unit.

(** The manager's state: the configuration, the active tunnels, the client process and
    whether it runs, the login flag with the unread login signals, the capability, and
    the flags of the single-flight parts.  Clients are numbered as they are spawned. *)
Record FrpTunnelManager := mk_FrpTunnelManager {
  ftm_yaml : FrpcYamlConfig;
  ftm_active : gmap string Tunnel;
  ftm_client : option nat;
  ftm_spawned : nat;
  ftm_alive : bool;
  ftm_isLoggedIn : bool;
  ftm_loginTokens : nat;
  ftm_capability : TunnelCapability;
  ftm_lastErr : string;
  ftm_supervising : bool;
  ftm_monitoring : bool;
  ftm_can_reacquire : bool;
  ftm_loginDeadline : Z;
}.

Definition put_yaml (v : FrpcYamlConfig) (m : FrpTunnelManager) : FrpTunnelManager :=
  {| ftm_yaml := v; ftm_active := ftm_active m; ftm_client := ftm_client m; ftm_spawned :=
     ftm_spawned m; ftm_alive := ftm_alive m; ftm_isLoggedIn := ftm_isLoggedIn m;
     ftm_loginTokens := ftm_loginTokens m; ftm_capability := ftm_capability m; ftm_lastErr
     := ftm_lastErr m; ftm_supervising := ftm_supervising m; ftm_monitoring :=
     ftm_monitoring m; ftm_can_reacquire := ftm_can_reacquire m; ftm_loginDeadline :=
     ftm_loginDeadline m |}.

Definition put_active (v : gmap string Tunnel) (m : FrpTunnelManager) : FrpTunnelManager :=
  {| ftm_yaml := ftm_yaml m; ftm_active := v; ftm_client := ftm_client m; ftm_spawned :=
     ftm_spawned m; ftm_alive := ftm_alive m; ftm_isLoggedIn := ftm_isLoggedIn m;
     ftm_loginTokens := ftm_loginTokens m; ftm_capability := ftm_capability m; ftm_lastErr
     := ftm_lastErr m; ftm_supervising := ftm_supervising m; ftm_monitoring :=
     ftm_monitoring m; ftm_can_reacquire := ftm_can_reacquire m; ftm_loginDeadline :=
     ftm_loginDeadline m |}.

Definition put_client (v : option nat) (m : FrpTunnelManager) : FrpTunnelManager :=
  {| ftm_yaml := ftm_yaml m; ftm_active := ftm_active m; ftm_client := v; ftm_spawned :=
     ftm_spawned m; ftm_alive := ftm_alive m; ftm_isLoggedIn := ftm_isLoggedIn m;
     ftm_loginTokens := ftm_loginTokens m; ftm_capability := ftm_capability m; ftm_lastErr
     := ftm_lastErr m; ftm_supervising := ftm_supervising m; ftm_monitoring :=
     ftm_monitoring m; ftm_can_reacquire := ftm_can_reacquire m; ftm_loginDeadline :=
     ftm_loginDeadline m |}.

Definition put_spawned (v : nat) (m : FrpTunnelManager) : FrpTunnelManager :=
  {| ftm_yaml := ftm_yaml m; ftm_active := ftm_active m; ftm_client := ftm_client m;
     ftm_spawned := v; ftm_alive := ftm_alive m; ftm_isLoggedIn := ftm_isLoggedIn m;
     ftm_loginTokens := ftm_loginTokens m; ftm_capability := ftm_capability m; ftm_lastErr
     := ftm_lastErr m; ftm_supervising := ftm_supervising m; ftm_monitoring :=
     ftm_monitoring m; ftm_can_reacquire := ftm_can_reacquire m; ftm_loginDeadline :=
     ftm_loginDeadline m |}.

Definition put_alive (v : bool) (m : FrpTunnelManager) : FrpTunnelManager :=
  {| ftm_yaml := ftm_yaml m; ftm_active := ftm_active m; ftm_client := ftm_client m;
     ftm_spawned := ftm_spawned m; ftm_alive := v; ftm_isLoggedIn := ftm_isLoggedIn m;
     ftm_loginTokens := ftm_loginTokens m; ftm_capability := ftm_capability m; ftm_lastErr
     := ftm_lastErr m; ftm_supervising := ftm_supervising m; ftm_monitoring :=
     ftm_monitoring m; ftm_can_reacquire := ftm_can_reacquire m; ftm_loginDeadline :=
     ftm_loginDeadline m |}.

Definition put_isLoggedIn (v : bool) (m : FrpTunnelManager) : FrpTunnelManager :=
  {| ftm_yaml := ftm_yaml m; ftm_active := ftm_active m; ftm_client := ftm_client m;
     ftm_spawned := ftm_spawned m; ftm_alive := ftm_alive m; ftm_isLoggedIn := v;
     ftm_loginTokens := ftm_loginTokens m; ftm_capability := ftm_capability m; ftm_lastErr
     := ftm_lastErr m; ftm_supervising := ftm_supervising m; ftm_monitoring :=
     ftm_monitoring m; ftm_can_reacquire := ftm_can_reacquire m; ftm_loginDeadline :=
     ftm_loginDeadline m |}.

Definition put_loginTokens (v : nat) (m : FrpTunnelManager) : FrpTunnelManager :=
  {| ftm_yaml := ftm_yaml m; ftm_active := ftm_active m; ftm_client := ftm_client m;
     ftm_spawned := ftm_spawned m; ftm_alive := ftm_alive m; ftm_isLoggedIn :=
     ftm_isLoggedIn m; ftm_loginTokens := v; ftm_capability := ftm_capability m; ftm_lastErr
     := ftm_lastErr m; ftm_supervising := ftm_supervising m; ftm_monitoring :=
     ftm_monitoring m; ftm_can_reacquire := ftm_can_reacquire m; ftm_loginDeadline :=
     ftm_loginDeadline m |}.

Definition put_capability (v : TunnelCapability) (m : FrpTunnelManager) : FrpTunnelManager :=
  {| ftm_yaml := ftm_yaml m; ftm_active := ftm_active m; ftm_client := ftm_client m;
     ftm_spawned := ftm_spawned m; ftm_alive := ftm_alive m; ftm_isLoggedIn :=
     ftm_isLoggedIn m; ftm_loginTokens := ftm_loginTokens m; ftm_capability := v;
     ftm_lastErr := ftm_lastErr m; ftm_supervising := ftm_supervising m; ftm_monitoring :=
     ftm_monitoring m; ftm_can_reacquire := ftm_can_reacquire m; ftm_loginDeadline :=
     ftm_loginDeadline m |}.

Definition put_lastErr (v : string) (m : FrpTunnelManager) : FrpTunnelManager :=
  {| ftm_yaml := ftm_yaml m; ftm_active := ftm_active m; ftm_client := ftm_client m;
     ftm_spawned := ftm_spawned m; ftm_alive := ftm_alive m; ftm_isLoggedIn :=
     ftm_isLoggedIn m; ftm_loginTokens := ftm_loginTokens m; ftm_capability :=
     ftm_capability m; ftm_lastErr := v; ftm_supervising := ftm_supervising m;
     ftm_monitoring := ftm_monitoring m; ftm_can_reacquire := ftm_can_reacquire m;
     ftm_loginDeadline := ftm_loginDeadline m |}.

Definition put_supervising (v : bool) (m : FrpTunnelManager) : FrpTunnelManager :=
  {| ftm_yaml := ftm_yaml m; ftm_active := ftm_active m; ftm_client := ftm_client m;
     ftm_spawned := ftm_spawned m; ftm_alive := ftm_alive m; ftm_isLoggedIn :=
     ftm_isLoggedIn m; ftm_loginTokens := ftm_loginTokens m; ftm_capability :=
     ftm_capability m; ftm_lastErr := ftm_lastErr m; ftm_supervising := v; ftm_monitoring :=
     ftm_monitoring m; ftm_can_reacquire := ftm_can_reacquire m; ftm_loginDeadline :=
     ftm_loginDeadline m |}.

Definition put_monitoring (v : bool) (m : FrpTunnelManager) : FrpTunnelManager :=
  {| ftm_yaml := ftm_yaml m; ftm_active := ftm_active m; ftm_client := ftm_client m;
     ftm_spawned := ftm_spawned m; ftm_alive := ftm_alive m; ftm_isLoggedIn :=
     ftm_isLoggedIn m; ftm_loginTokens := ftm_loginTokens m; ftm_capability :=
     ftm_capability m; ftm_lastErr := ftm_lastErr m; ftm_supervising := ftm_supervising m;
     ftm_monitoring := v; ftm_can_reacquire := ftm_can_reacquire m; ftm_loginDeadline :=
     ftm_loginDeadline m |}.

Abbreviation Tun := (M TunnelCall FrpTunnelManager).
Abbreviation tunnel_env := (env TunnelCall FrpTunnelManager).
Abbreviation tunnel_state := (state TunnelCall FrpTunnelManager).

Definition second : Z := 1000000000.
Definition defaultLoginDeadline : Z := 30 * second.

(** ** Configuration *)

(** [SaveConfig]: a failed write is only logged. *)
Definition SaveConfig : Tun unit :=
  let! c := gets ftm_yaml in
  ignore (callE (WriteConfig c)).

Definition set_proxies (proxies : list ProxyConfig) : Tun unit :=
  modify (λ m, put_yaml (set_Proxies proxies (ftm_yaml m)) m).

Definition AddTunnelConfig (conf : TunnelConfig) : Tun unit :=
  let! c := gets ftm_yaml in
  match upsert_proxy (proxy_of conf) (fy_Proxies c) with
  | None => ret tt
  | Some proxies => set_proxies proxies;; SaveConfig
  end.

Definition RemoveTunnelConfig (conf : TunnelConfig) : Tun unit :=
  let! c := gets ftm_yaml in
  set_proxies (RemoveTunnelVariable (tunnel_name conf) (fy_Proxies c));;
  SaveConfig.

Definition adminPortScanStart : Z := 7411.

(** [GetFreePortFromStart]: the ports from [port] on, [n] of them up to 65535. *)
Fixpoint free_port_from (n : nat) (port : Z) : Tun (option Z) :=
  match n with
  | O => ret None
  | S n' =>
      let! free := call (ListenLoopback port) in
      if (free : bool) then ret (Some port) else free_port_from n' (port + 1)
  end.

Definition pickAdminPort : Tun Z :=
  let! scanned := free_port_from (Z.to_nat (65536 - adminPortScanStart)) adminPortScanStart in
  match scanned with
  | Some port => ret port
  | None =>
      let! r := call RandomFreePort in
      ret match r with inl port => port | inr _ => adminPortScanStart end
  end.

Definition SetAdminPort : Tun unit :=
  let! port := pickAdminPort in
  modify (λ m, put_yaml (set_WebServerPort port (ftm_yaml m)) m);;
  SaveConfig.

(** ** Capability *)

Definition setCapability (c : TunnelCapability) (err : option error) : Tun unit :=
  let! prev := gets ftm_capability in
  modify (λ m, put_lastErr
    (match err with
     | Some e => error_text e
     | None => if bool_decide (c = CapabilityAvailable) then "" else ftm_lastErr m
     end) (put_capability c m));;
  when (negb (bool_decide (prev = c))
        && (bool_decide (c = CapabilityAvailable) || bool_decide (c = CapabilityUnavailable)))
       (call GoPublish).

Definition TunnelCapable (m : FrpTunnelManager) : bool :=
  negb (bool_decide (ftm_capability m = CapabilityUnavailable)).

Definition MarkUnavailable (reason : string) : Tun unit :=
  setCapability CapabilityUnavailable (Some (Plain reason)).

Definition signed_itoa (z : Z) : string :=
  if (z <? 0)%Z then "-" +:+ itoa (Z.to_N (- z)) else itoa (Z.to_N z).

Definition frpsReachable : Tun unit :=
  let! c := gets ftm_yaml in
  callE (DialFrps (JoinHostPort (fy_ServerAddr c) (signed_itoa (fy_ServerPort c)))).

Definition probeCapability : Tun unit :=
  let! alive := gets ftm_alive in
  if alive then
    let! r := try_ frpsReachable in
    match r with
    | inr e => setCapability CapabilityUnavailable (Some (Annotated "frps unreachable" e))
    | inl _ => setCapability CapabilityAvailable None
    end
  else ret tt.

(** ** The client process *)

Definition frpc_missing : error := Plain "frpc binary missing and no re-acquire available".

Definition ensureFrpcBinary : Tun unit :=
  let! st := call StatBinary in
  match st with
  | BinaryPresent => ret tt
  | BinaryUnreadable e => throw e
  | BinaryMissing =>
      let! can := gets ftm_can_reacquire in
      if can then
        let! r := call ReacquireFrpc in
        match r with
        | inl _ => ret tt
        | inr e => throw (Annotated "frpc binary missing and re-acquire failed" e)
        end
      else throw frpc_missing
  end.

Definition stopClientLocked : Tun unit :=
  let! client := gets ftm_client in
  match client with
  | None => ret tt
  | Some p => call (KillProcess p);; call (AwaitReaped p);; modify (put_client None)
  end.

Definition unavailable {A} (e : error) : Tun A :=
  setCapability CapabilityUnavailable (Some e);; throw e.

(** An error that ends the start and makes the device unavailable. *)
Definition or_unavailable {A} (m : Tun A) : Tun A :=
  let! r := try_ m in
  match r with inl a => ret a | inr e => unavailable e end.

Definition login_deadline (m : FrpTunnelManager) : Z :=
  if (ftm_loginDeadline m <=? 0)%Z then defaultLoginDeadline else ftm_loginDeadline m.

Definition await_startup : Tun unit :=
  let! deadline := gets login_deadline in
  let! r := call (AwaitAck deadline) in
  match r with
  | AckFailed e => unavailable e
  | AckOk => setCapability CapabilityAvailable None
  | AckDeadline => probeCapability
  end.

Definition spawn : Tun unit :=
  or_unavailable (callE OpenStdout);;
  or_unavailable (callE StartProcess);;
  let! p := gets ftm_spawned in
  modify (λ m, put_spawned (S p) (put_client (Some p) (put_alive true m)));;
  let! monitoring := gets ftm_monitoring in
  when (negb monitoring) (modify (put_monitoring true);; call GoMonitors);;
  call (GoScanner p).

Definition Start : Tun unit :=
  stopClientLocked;;
  modify (λ m, put_loginTokens 0 (put_isLoggedIn false m));;
  or_unavailable ensureFrpcBinary;;
  setCapability CapabilityStarting None;;
  spawn;;
  await_startup.

Definition Stop : Tun unit := stopClientLocked.

Definition start_exhausted : error := Plain "tunnel client failed to start after repeated attempts".

(** The loop of [SuperviseStart], with the attempts left. *)
Fixpoint supervise (attempts : nat) (backoff : Z) : Tun unit :=
  match attempts with
  | O => setCapability CapabilityUnavailable (Some start_exhausted)
  | S left_ =>
      let! r := try_ Start in
      match r with
      | inl _ => ret tt
      | inr _ =>
          when (0 <? left_)%nat (SetAdminPort;; call (SleepFor backoff));;
          supervise left_ (if (backoff <? 32 * second)%Z then backoff * 2 else backoff)
      end
  end.

Definition maxAttempts : nat := 6.

Definition SuperviseStart : Tun unit :=
  let! supervising := gets ftm_supervising in
  if supervising then ret tt
  else
    modify (put_supervising true);;
    finally (supervise maxAttempts (2 * second)) (modify (put_supervising false)).

(** *** The client's output *)

Fixpoint until_bracket (s : string) : option string :=
  match s with
  | "" => None
  | String a s' => if Ascii.eqb a "]" then Some "" else String a <$> until_bracket s'
  end.

Definition names_tunnel (id : string) : bool :=
  existsb (λ protocol, has_suffix ("-" +:+ protocol) id
                       && (S (String.length protocol) <? String.length id)%nat)
          ["http"; "https"; "tcp"; "udp"].

(** [tunnelIdRegexp]: the leftmost bracketed name that ends in a protocol. *)
Fixpoint tunnel_id_in (s : string) : option string :=
  match s with
  | "" => None
  | String a s' =>
      match (if Ascii.eqb a "[" then until_bracket s' else None) with
      | Some id => if names_tunnel id then Some id else tunnel_id_in s'
      | None => tunnel_id_in s'
      end
  end.

(** [errMessageRegexp]: what follows the first ["error: "]; a line has no newline. *)
Fixpoint error_in (s : string) : option string :=
  if has_prefix "error: " s then Some (trim_prefix "error: " s)
  else match s with "" => None | String _ s' => error_in s' end.

Definition record_error (line : string) : Tun unit :=
  match tunnel_id_in line, error_in line with
  | Some id, Some message =>
      modify (λ m, put_active (alter (λ t, {| tn_Error := message; tn_Config := tn_Config t |}) id (ftm_active m)) m)
  | _, _ => ret tt
  end.

(** One line of the client's output; the result says whether to go on reading. The
    channel that [start proxy] updates are offered to has no reader. *)
Definition scan_line (line : string) : Tun bool :=
  when (str_contains "login to server success" line)
    (modify (λ m, put_loginTokens (Nat.min 10 (S (ftm_loginTokens m))) (put_isLoggedIn true m));;
     setCapability CapabilityAvailable None;;
     call (SendAck None));;
  if str_contains "[E]" line then record_error line;; ret true
  else if str_contains "run admin server error" line then
    SetAdminPort;;
    call (SendAck (Some (Plain "frpc failed to start its admin server")));;
    ret false
  else
    when (str_contains "start proxy success" line || str_contains "proxy removed" line)
         (call GoPublishAfterLogin);;
    ret true.

(** The deferred part: a client that ended before its login fails the start. *)
Definition scan_end : Tun unit :=
  call (SendAck (Some (Plain "frpc exited before logging in to the server")));;
  modify (put_alive false).

(** ** Reported states *)

(** The port of ["host:port"], by splitting at colons; [None] fails the whole status. *)
Definition remote_port_of (addr : string) : option N :=
  if String.eqb addr "" then Some 0%N
  else match split_on ":" addr with
       | _ :: port :: _ => uint64_of_int <$> parse_int64 port
       | _ => Some 0%N
       end.

Definition status_of (s : FrpStatus) : option TunnelStatus :=
  port ← remote_port_of (fs_RemoteAddr s);
  Some {| ts_Name := fs_Name s; ts_Status := fs_Status s; ts_LocalAddr := fs_LocalAddr s;
          ts_Plugin := fs_Plugin s; ts_RemoteAddr := fs_RemoteAddr s; ts_RemotePort := port;
          ts_Error := fs_Err s; ts_Protocol := fs_Type s |}.

Definition statuses_of (m : list (string * list FrpStatus)) : option (list TunnelStatus) :=
  mapM status_of (m.*2 ≫= id).

Definition bad_remote_addr : error := Plain "strconv.ParseInt: parsing remote port: invalid syntax".

(** [parseProxyStatus], after the decoding of the text. *)
Definition parseProxyStatus (m : list (string * list FrpStatus)) : list TunnelStatus + error :=
  match statuses_of m with Some l => inl l | None => inr bad_remote_addr end.

Definition AllStatus : Tun (list TunnelStatus) :=
  let! capability := gets ftm_capability in
  if negb (bool_decide (capability = CapabilityAvailable)) then ret []
  else
    let! c := gets ftm_yaml in
    let! r := call (AdminStatus (fy_WebServerPort c)) in
    match r with
    | AdminRequestFailed e => throw e
    | AdminUnreachable e =>
        when (str_contains "connection refused" (error_text e)) (call GoSupervise);; ret []
    | AdminStatusCode code => throw (Plain ("API returned status code: " +:+ itoa code))
    | AdminBadBody e => throw e
    | AdminStatuses m => lift (parseProxyStatus m)
    end.

Definition ErrNotFound : error := Plain "not found".

Definition Status (tunnelID : string) : Tun TunnelStatus :=
  let! statuses := AllStatus in
  match List.find (λ s, String.eqb (ts_Name s) tunnelID) statuses with
  | Some s => ret s
  | None => throw ErrNotFound
  end.

Definition buildURL (base protocol subdomain : string) (remotePort : N) : string :=
  if negb (remotePort =? 0)%N && negb (is_http protocol)
  then protocol +:+ "://" +:+ subdomain +:+ "." +:+ base +:+ ":" +:+ itoa remotePort
  else (if String.eqb protocol "http" then "https" else protocol) +:+ "://" +:+ subdomain +:+ "." +:+ base.

Definition config_id (c : TunnelConfig) : string :=
  if String.eqb (tc_Name c) "" then tunnel_name c else tc_Name c.

Definition tunnel_state_of (base : string) (c : TunnelConfig) (s : TunnelStatus) : TunnelState :=
  {| tst_Status := s; tst_AppName := tc_AppName c; tst_Port := tc_DeclaredPort c;
     tst_Active := String.eqb (ts_Status s) "running"; tst_Error := negb (String.eqb (ts_Error s) "");
     tst_ErrorMessage := ts_Error s; tst_URL := buildURL base (tc_Protocol c) (tc_Subdomain c) (ts_RemotePort s) |}.

(** Every configured tunnel with every status of its name. *)
Definition states_of (base : string) (configs : list TunnelConfig) (statuses : list TunnelStatus) : list TunnelState :=
  configs ≫= λ c, tunnel_state_of base c <$> List.filter (λ s, String.eqb (config_id c) (ts_Name s)) statuses.

(** [BaseTunnelURL] is the server address the configuration was initialised with. *)
Definition GetState : Tun (list TunnelState) :=
  let! c := gets ftm_yaml in
  let! statuses := AllStatus in
  ret (states_of (fy_ServerAddr c) (GetTunnelConfig c) statuses).

Definition GetStateById (tunnelID : string) : Tun TunnelState :=
  let! states := GetState in
  match List.find (λ s, String.eqb (ts_Name (tst_Status s)) tunnelID) states with
  | Some s => ret s
  | None => throw ErrNotFound
  end.

Definition PublishTunnelState : Tun unit :=
  let! states := GetState in
  callE (PublishStates states).

Definition waitForLogin : Tun unit :=
  let! logged := gets ftm_isLoggedIn in
  if logged then ret tt
  else
    let! tokens := gets ftm_loginTokens in
    match tokens with
    | S n => modify (put_loginTokens n)
    | O => call AwaitLogin
    end.

Definition publish_after_login : Tun unit :=
  waitForLogin;; ignore PublishTunnelState.

Definition show_bool (b : bool) : string := if b then "true" else "false".

Definition state_line (s : TunnelState) : string :=
  join_with "|" [ts_Name (tst_Status s); ts_Status (tst_Status s); itoa (ts_RemotePort (tst_Status s));
                 show_bool (tst_Active s); show_bool (tst_Error s); tst_ErrorMessage s; tst_URL s].

Definition tunnelStateFingerprint (states : list TunnelState) : string :=
  join_with ";" (sort_strings (state_line <$> states)).

(** One tick of [monitorTunnelState]: the fingerprint to compare with at the next. *)
Definition monitor_tick (lastFingerprint : string) : Tun string :=
  let! r := try_ GetState in
  match r with
  | inr _ => ret lastFingerprint
  | inl states =>
      let fingerprint := tunnelStateFingerprint states in
      if String.eqb fingerprint lastFingerprint then ret lastFingerprint
      else
        let! published := try_ PublishTunnelState in
        ret match published with inl _ => fingerprint | inr _ => "" end
  end.

(** ** Tunnels *)

Definition Get (tunnelID : string) : Tun (option Tunnel) := gets (λ m, ftm_active m !! tunnelID).

Definition expose_result (arguments : list goval) : N + error :=
  match arguments with
  | [] => inr (Plain "arguments is empty")
  | VMap payload :: _ =>
      match map_index "remote_port" payload with
      | VInt z => if ((0 <=? z) && (z <? Z.of_N two64))%Z then inl (Z.to_N z) else inr (Plain "failed to parse port")
      | _ => inr (Plain "failed to parse port")
      end
  | _ => inr (Plain "failed to parse payload")
  end.

Definition reserveRemotePort (port : N) (protocol : string) : Tun N :=
  let! r := call (ExposePort port protocol) in
  match r with
  | inr e => if str_contains "Duplicate value" (error_text e) then ret port else throw e
  | inl arguments => lift (expose_result arguments)
  end.

Definition Reload : Tun unit :=
  let! r := call FrpcReload in
  match r with
  | inl _ => ret tt
  | inr (output, e) =>
      when (str_contains "connect: connection refused" output || str_contains "api status code" output)
           (call GoSupervise);;
      throw e
  end.

Definition with_RemotePort (v : N) (c : TunnelConfig) : TunnelConfig :=
  {| tc_Subdomain := tc_Subdomain c; tc_AppName := tc_AppName c; tc_Protocol := tc_Protocol c;
     tc_LocalPort := tc_LocalPort c; tc_LocalIP := tc_LocalIP c; tc_RemotePort := v;
     tc_DeclaredPort := tc_DeclaredPort c; tc_Name := tc_Name c |}.

Definition tunnel_exists : error := Plain "tunnel already exists".

Definition AddTunnel (config : TunnelConfig) : Tun TunnelConfig :=
  let! config := (if is_http (tc_Protocol config) then ret config
                  else let! remotePort := reserveRemotePort (tc_RemotePort config) (tc_Protocol config) in
                       ret (with_RemotePort remotePort config)) in
  AddTunnelConfig config;;
  let! reloaded := try_ Reload in
  match reloaded with
  | inr e => RemoveTunnelConfig config;; throw e
  | inl _ =>
      let! existing := Get (tunnel_name config) in
      match existing with
      | None =>
          modify (λ m, put_active (<[tunnel_name config := {| tn_Error := ""; tn_Config := config |}]> (ftm_active m)) m);;
          ret config
      | Some _ => throw tunnel_exists
      end
  end.

Definition RemoveTunnel (conf : TunnelConfig) : Tun unit :=
  modify (λ m, put_active (delete (tunnel_name conf) (ftm_active m)) m);;
  RemoveTunnelConfig conf;;
  Reload.

Definition SaveRemotePorts (p : TransitionPayload) : Tun unit := callE (SetRemotePorts p).

(** [Reset]: the configuration is rebuilt without proxies; the active tunnels stay. *)
Definition Reset `{Host} `{FrpHost} : Tun unit :=
  let! port := pickAdminPort in
  modify (put_yaml (initial_config World.config port));;
  SaveConfig;;
  Reload.

(** [NewFrpTunnelManager]. *)
Definition new_manager `{Host} `{FrpHost} (adminPort : Z) (reacquire : bool) : FrpTunnelManager :=
  {| ftm_yaml := initial_config World.config adminPort; ftm_active := ∅; ftm_client := None; ftm_spawned := 0;
     ftm_alive := false; ftm_isLoggedIn := false; ftm_loginTokens := 0;
     ftm_capability := CapabilityUnknown; ftm_lastErr := ""; ftm_supervising := false;
     ftm_monitoring := false; ftm_can_reacquire := reacquire; ftm_loginDeadline := defaultLoginDeadline |}.
