(* ===== verification/TunnelSpec.v ===== *)
(** * Properties of the tunnel manager

    The configuration file and the active tunnels stay in step, additions and removals
    implement a map of tunnels, supervision ends, and the reported states are those of
    the configured tunnels. *)
From S2P Require Import Prelude Errdefs GoValue Common Records Effects HostPorts World TunnelRules Frp.
From S2P Require Import Tunnels.
Open Scope go_scope.

(** ** What the file and the manager say about tunnels *)

Definition proxies (m : FrpTunnelManager) : list ProxyConfig := fy_Proxies (ftm_yaml m).
Definition tunnels (m : FrpTunnelManager) : gmap string TunnelConfig := tn_Config <$> ftm_active m.
Definition tunnel_view (m : FrpTunnelManager) : list ProxyConfig * gmap string TunnelConfig :=
  (proxies m, tunnels m).

(** Other goroutines add and remove no tunnels while one operation runs. *)
Definition tunnels_private (en : tunnel_env) : Prop :=
  ∀ lg m, tunnel_view (interfere en lg m) = tunnel_view m.

(** The file holds exactly the proxies of the active tunnels, under distinct names. *)
Definition in_step (v : list ProxyConfig * gmap string TunnelConfig) : Prop :=
  NoDup (px_Name <$> v.1)
  ∧ (∀ id c, v.2 !! id = Some c → tunnel_name c = id ∧ proxy_of c ∈ v.1)
  ∧ (∀ p, p ∈ v.1 → is_Some (v.2 !! px_Name p)).

Definition in_sync (st : tunnel_state) : Prop := in_step (tunnel_view (world st)).

Lemma RemoveTunnelVariable_elem id p l : p ∈ RemoveTunnelVariable id l ↔ p ∈ l ∧ px_Name p ≠ id.
Proof.
  unfold RemoveTunnelVariable. rewrite !list_elem_of_In, filter_In.
  split; intros [? Hp]; (split; [done|]); [apply negb_true_iff in Hp|apply negb_true_iff];
    by apply String.eqb_neq.
Qed.

Lemma RemoveTunnelVariable_names id l : NoDup (px_Name <$> l) → NoDup (px_Name <$> RemoveTunnelVariable id l).
Proof.
  induction l as [|p l IH]; simpl; [done|]. intros [Hp Hl]%NoDup_cons.
  destruct (String.eqb (px_Name p) id); simpl; [by apply IH|].
  apply NoDup_cons. split; [|by apply IH]. intros Hin. apply Hp.
  apply list_elem_of_fmap in Hin as (q & Hq & [Hin _]%RemoveTunnelVariable_elem).
  apply list_elem_of_fmap. eauto.
Qed.

Lemma RemoveTunnelVariable_absent id l : id ∉ px_Name <$> l → RemoveTunnelVariable id l = l.
Proof.
  induction l as [|p l IH]; simpl; [done|]. intros [Hp Hl]%not_elem_of_cons.
  destruct (String.eqb_spec (px_Name p) id); [congruence|]. simpl. by rewrite IH.
Qed.

Lemma upsert_absent p l : px_Name p ∉ px_Name <$> l → upsert_proxy p l = Some (l ++ [p])%list.
Proof.
  induction l as [|q l IH]; simpl; [done|]. intros [Hq Hl]%not_elem_of_cons.
  destruct (String.eqb_spec (px_Name q) (px_Name p)); [congruence|]. simpl. by rewrite IH.
Qed.

(** Updating keeps every name, new or old. *)
Lemma upsert_names p l l' : upsert_proxy p l = Some l' →
  ∀ id, id ∈ px_Name <$> l' ↔ id ∈ px_Name <$> l ∨ id = px_Name p.
Proof.
  revert l'. induction l as [|q l IH]; intros l'; simpl.
  - intros [= <-] id. simpl. rewrite list_elem_of_singleton. set_solver.
  - destruct (String.eqb_spec (px_Name q) (px_Name p)) as [He|]; simpl.
    + destruct (_ && _); [done|]. intros [= <-] id. simpl. rewrite !elem_of_cons.
      replace (px_Name (if (px_RemotePort p =? 0)%Z then with_px_RemotePort (px_RemotePort q) p else p))
        with (px_Name p) by (by destruct (_ =? _)%Z).
      rewrite He. tauto.
    + destruct (upsert_proxy p l) as [l0|]; [|done]. intros [= <-] id. simpl.
      rewrite !elem_of_cons, (IH l0 eq_refl). tauto.
Qed.

Lemma in_step_add v c : in_step v → v.2 !! tunnel_name c = None →
  in_step ((v.1 ++ [proxy_of c])%list, <[tunnel_name c := c]> v.2).
Proof.
  intros (Hnd & Hact & Hpx) Hnone. split_and!; simpl.
  - rewrite fmap_app. apply NoDup_app. split_and!; [done| |apply NoDup_singleton].
    intros id (p & Hn & Hp)%list_elem_of_fmap Hid. apply list_elem_of_singleton in Hid as ->.
    destruct (Hpx p Hp) as [c' Hc']. simpl in Hn. rewrite <- Hn, Hnone in Hc'. done.
  - intros id c' [[<- <-]|[Hne Hc']]%lookup_insert_Some; [split; [done|set_solver]|].
    destruct (Hact _ _ Hc') as [<- Hin]. split; [done|set_solver].
  - intros p [Hp| ->%list_elem_of_singleton]%elem_of_app.
    + destruct (decide (px_Name p = tunnel_name c)) as [->|Hne]; [by rewrite lookup_insert_eq|].
      rewrite lookup_insert_ne by done. by apply Hpx.
    + simpl. by rewrite lookup_insert_eq.
Qed.

Lemma in_step_remove v c : in_step v →
  in_step (RemoveTunnelVariable (tunnel_name c) v.1, delete (tunnel_name c) v.2).
Proof.
  intros (Hnd & Hact & Hpx). split_and!; simpl.
  - by apply RemoveTunnelVariable_names.
  - intros id c' [Hne Hc']%lookup_delete_Some. destruct (Hact _ _ Hc') as [<- Hin].
    split; [done|]. apply RemoveTunnelVariable_elem. by split.
  - intros p [Hp Hne]%RemoveTunnelVariable_elem. rewrite lookup_delete_ne by done. by apply Hpx.
Qed.

(** ** Operations that leave the tunnels alone *)

Create HintDb tunnels discriminated.

Section view.
Context `{Host} `{FrpHost}.
Variable en : tunnel_env.
Hypothesis Hpriv : tunnels_private en.
Variable v : list ProxyConfig * gmap string TunnelConfig.

#[local] Set Default Proof Using "Type*".

Definition still (st : tunnel_state) : Prop := tunnel_view (world st) = v.

Lemma still_call {T} (c : TunnelCall T) : keeps en still (call c).
Proof. apply keeps_call. intros st r Hst. unfold still. simpl. by rewrite Hpriv. Qed.

Lemma still_modify f : (∀ m, tunnel_view (f m) = tunnel_view m) → keeps en still (modify f).
Proof. intros Hf. apply keeps_modify. intros st Hst. unfold still. simpl. by rewrite Hf. Qed.

#[local] Ltac calm :=
  repeat first
    [ progress intros | apply keeps_ret | apply keeps_throw | apply keeps_lift | apply keeps_gets
    | apply still_call | apply still_modify; done | solve [auto with tunnels nocore]
    | apply keeps_callE | apply keeps_bind | apply keeps_try | apply keeps_ignore | apply keeps_when
    | apply keeps_finally | split_match ].

Lemma still_SaveConfig : keeps en still SaveConfig.
Proof. unfold SaveConfig. calm. Qed.
#[local] Hint Resolve still_SaveConfig : tunnels.

Lemma still_free_port n port : keeps en still (free_port_from n port).
Proof. revert port. induction n; intros; simpl; calm. Qed.
#[local] Hint Resolve still_free_port : tunnels.

Lemma still_SetAdminPort : keeps en still SetAdminPort.
Proof. unfold SetAdminPort, pickAdminPort. calm. Qed.
#[local] Hint Resolve still_SetAdminPort : tunnels.

Lemma still_setCapability c e : keeps en still (setCapability c e).
Proof. unfold setCapability. calm. Qed.
#[local] Hint Resolve still_setCapability : tunnels.

Lemma still_probe : keeps en still probeCapability.
Proof. unfold probeCapability, frpsReachable. calm. Qed.
#[local] Hint Resolve still_probe : tunnels.

Lemma still_unavailable {A} e : keeps en still (@unavailable A e).
Proof. unfold unavailable. calm. Qed.
#[local] Hint Resolve still_unavailable : tunnels.

Lemma still_or_unavailable {A} (m : Tun A) : keeps en still m → keeps en still (or_unavailable m).
Proof. intros Hm. unfold or_unavailable. apply keeps_bind; [by apply keeps_try|]. calm. Qed.

Lemma still_Start : keeps en still Start.
Proof.
  unfold Start, stopClientLocked, spawn, await_startup, ensureFrpcBinary.
  repeat first [apply keeps_bind; [|intros] | apply still_or_unavailable | progress calm].
Qed.
#[local] Hint Resolve still_Start : tunnels.

Lemma still_SuperviseStart : keeps en still SuperviseStart.
Proof.
  unfold SuperviseStart. assert (∀ n b, keeps en still (supervise n b)) as Hs; [|calm; apply Hs].
  intros n. induction n; intros; simpl; calm; apply IHn.
Qed.

Lemma still_scan_line line : keeps en still (scan_line line).
Proof.
  unfold scan_line, record_error. calm.
  apply still_modify. intros m. unfold tunnel_view, tunnels. simpl. f_equal.
  apply map_eq. intros id. rewrite !lookup_fmap. destruct (decide (id = s)) as [->|].
  - rewrite lookup_alter_eq. by destruct (ftm_active m !! s).
  - by rewrite lookup_alter_ne.
Qed.

Lemma still_scan_end : keeps en still scan_end.
Proof. unfold scan_end. calm. Qed.

Lemma still_AllStatus : keeps en still AllStatus.
Proof. unfold AllStatus. calm. Qed.
#[local] Hint Resolve still_AllStatus : tunnels.

Lemma still_GetState : keeps en still GetState.
Proof. unfold GetState. calm. Qed.
#[local] Hint Resolve still_GetState : tunnels.

Lemma still_monitor_tick last_ : keeps en still (monitor_tick last_).
Proof. unfold monitor_tick, PublishTunnelState. calm. Qed.

Lemma still_publish_after_login : keeps en still publish_after_login.
Proof. unfold publish_after_login, waitForLogin, PublishTunnelState. calm. Qed.

Lemma still_Reload : keeps en still Reload.
Proof. unfold Reload. calm. Qed.

Lemma still_reserve port protocol : keeps en still (reserveRemotePort port protocol).
Proof. unfold reserveRemotePort. calm. Qed.
End view.

(** ** Additions and removals *)

Lemma returns_free_port en n port : returns en (free_port_from n port).
Proof. revert port. induction n; intros; simpl; returning. Qed.
Lemma returns_SetAdminPort en : returns en SetAdminPort.
Proof. unfold SetAdminPort, pickAdminPort, SaveConfig. returning. apply returns_free_port. Qed.
Lemma returns_setCapability en c e : returns en (setCapability c e).
Proof. unfold setCapability. returning. Qed.
#[export] Hint Resolve returns_SetAdminPort returns_setCapability : returning.
Lemma returns_probe en : returns en probeCapability.
Proof. unfold probeCapability, frpsReachable. returning. Qed.
#[export] Hint Resolve returns_probe : returning.
Lemma returns_Start en : returns en Start.
Proof.
  unfold Start, stopClientLocked, ensureFrpcBinary, spawn, await_startup, or_unavailable, unavailable.
  returning.
Qed.
#[export] Hint Resolve returns_Start : returning.
Lemma returns_supervise en n b : returns en (supervise n b).
Proof. revert b. induction n; intros; simpl; returning. Qed.
#[export] Hint Resolve returns_supervise : returning.
Lemma returns_AddTunnel en conf : returns en (AddTunnel conf).
Proof.
  unfold AddTunnel, reserveRemotePort, AddTunnelConfig, RemoveTunnelConfig, set_proxies, SaveConfig, Reload, Get.
  returning.
Qed.
Lemma returns_RemoveTunnel en conf : returns en (RemoveTunnel conf).
Proof. unfold RemoveTunnel, RemoveTunnelConfig, set_proxies, SaveConfig, Reload. returning. Qed.

Section tunnels.
Context `{Host} `{FrpHost}.
Variable en : tunnel_env.
Hypothesis Hpriv : tunnels_private en.

#[local] Set Default Proof Using "Type*".

Abbreviation view := (list ProxyConfig * gmap string TunnelConfig)%type.

(** Replacing the proxies of the file and writing it, before the rest of a handler. *)
Lemma SaveConfig_ok st : (SaveConfig en st).1 = Ok tt.
Proof.
  unfold SaveConfig, ignore, try_, callE, bind, gets, call, lift, ret, throw. simpl.
  by destruct (answer en _ _ _).
Qed.

Lemma still_saved (v : view) l {A} (m : Tun A) Q :
  triple en (still (l, v.2)) m Q → triple en (still v) (bind (bind (set_proxies l) (λ _, SaveConfig)) (λ _, m)) Q.
Proof.
  intros Hm. apply triple_bind with (R := λ _, still (l, v.2)); [|by intros _].
  apply triple_bind with (R := λ _, still (l, v.2)).
  - intros st Hst. unfold still, tunnel_view, proxies, tunnels in *. simpl. by rewrite <- Hst.
  - intros _ st Hst. pose proof (SaveConfig_ok st) as Ho. pose proof (still_SaveConfig en Hpriv _ st Hst) as Hs.
    rewrite Ho. exact Hs.
Qed.

Lemma AddTunnelConfig_fresh (v : view) conf {A} (m : Tun A) Q :
  px_Name (proxy_of conf) ∉ px_Name <$> v.1 →
  triple en (still ((v.1 ++ [proxy_of conf])%list, v.2)) m Q →
  triple en (still v) (AddTunnelConfig conf;; m)%go Q.
Proof.
  intros Hn Hm st Hst.
  assert (fy_Proxies (ftm_yaml (world st)) = v.1) as Hp by (by rewrite <- Hst).
  assert ((AddTunnelConfig conf;; m)%go en st
    = bind (bind (set_proxies (v.1 ++ [proxy_of conf])) (λ _, SaveConfig)) (λ _, m) en st) as ->.
  { unfold AddTunnelConfig, bind, gets. cbn [world log]. by rewrite Hp, upsert_absent. }
  by apply (still_saved v _ m Q Hm).
Qed.

Lemma RemoveTunnelConfig_spec (v : view) conf {A} (m : Tun A) Q :
  triple en (still (RemoveTunnelVariable (tunnel_name conf) v.1, v.2)) m Q →
  triple en (still v) (RemoveTunnelConfig conf;; m)%go Q.
Proof.
  intros Hm st Hst.
  assert (fy_Proxies (ftm_yaml (world st)) = v.1) as Hp by (by rewrite <- Hst).
  assert ((RemoveTunnelConfig conf;; m)%go en st
    = bind (bind (set_proxies (RemoveTunnelVariable (tunnel_name conf) v.1)) (λ _, SaveConfig)) (λ _, m) en st) as ->.
  { unfold RemoveTunnelConfig, bind, gets. cbn [world log]. by rewrite Hp. }
  by apply (still_saved v _ m Q Hm).
Qed.

(** What an addition of a tunnel that is not there may do. *)
Definition added (v : view) (conf : TunnelConfig) (o : outcome TunnelConfig) (st : tunnel_state) : Prop :=
  match o with
  | Ok c => (c = conf ∨ ∃ port, c = with_RemotePort port conf ∧ is_http (tc_Protocol conf) = false)
            ∧ still ((v.1 ++ [proxy_of c])%list, <[tunnel_name conf := c]> v.2) st
  | Err _ => still v st
  | _ => True
  end.

Lemma add_body (v : view) conf c :
  tunnel_name c = tunnel_name conf → tunnel_name conf ∉ px_Name <$> v.1 → v.2 !! tunnel_name conf = None →
  (c = conf ∨ ∃ port, c = with_RemotePort port conf ∧ is_http (tc_Protocol conf) = false) →
  triple en (still v) (AddTunnelConfig c;;
    let! reloaded := try_ Reload in
    match reloaded with
    | inr e => RemoveTunnelConfig c;; throw e
    | inl _ =>
        let! existing := Get (tunnel_name c) in
        match existing with
        | None =>
            modify (λ m, put_active (<[tunnel_name c := {| tn_Error := ""; tn_Config := c |}]> (ftm_active m)) m);;
            ret c
        | Some _ => throw tunnel_exists
        end
    end)%go (added v conf).
Proof.
  intros Hname Hfresh Hnone Hc. apply AddTunnelConfig_fresh; [cbn [proxy_of px_Name]; by rewrite Hname|].
  set (v' := ((v.1 ++ [proxy_of c])%list, v.2)).
  apply triple_bind with (R := λ _, still v').
  - intros st Hst. pose proof (keeps_try _ _ _ (still_Reload en Hpriv v') st Hst) as Hk.
    pose proof (errorless_try en Reload st) as He.
    destruct (try_ Reload en st) as [[r|e| |] st']; simpl in *; [done|by destruct (He e st')|done..].
  - intros [_|e].
    + intros st Hst. rewrite Hname.
      assert (ftm_active (world st) !! tunnel_name conf = None) as Hnone'.
      { pose proof (f_equal snd Hst) as Ht. simpl in Ht. unfold tunnels in Ht.
        rewrite <- Ht, lookup_fmap in Hnone. by destruct (ftm_active _ !! _). }
      unfold bind at 1 3, Get, gets. cbn [world log]. rewrite Hnone'.
      unfold still, tunnel_view, proxies, tunnels in Hst. subst v'. injection Hst as Hst1 Hst2.
      split; [done|]. unfold still, tunnel_view, proxies, tunnels. cbn [snd bind modify ret world put_active ftm_yaml ftm_active].
      by rewrite fmap_insert, Hst1, Hst2.
    + apply RemoveTunnelConfig_spec. subst v'. cbn [fst snd].
      replace (RemoveTunnelVariable _ _) with v.1; [by intros st Hst; unfold still in *; destruct v|].
      unfold RemoveTunnelVariable. rewrite List.filter_app.
      fold (RemoveTunnelVariable (tunnel_name c) v.1). rewrite RemoveTunnelVariable_absent by (by rewrite Hname).
      simpl. by rewrite String.eqb_refl, app_nil_r.
Qed.
Lemma add_spec (v : view) conf :
  in_step v → v.2 !! tunnel_name conf = None → triple en (still v) (AddTunnel conf) (added v conf).
Proof.
  intros Hv Hnone. assert (tunnel_name conf ∉ px_Name <$> v.1) as Hfresh.
  { intros (p & Hn & Hp)%list_elem_of_fmap. destruct Hv as (_ & _ & Hpx).
    destruct (Hpx p Hp) as [c Hc]. by rewrite <- Hn, Hnone in Hc. }
  unfold AddTunnel. destruct (is_http (tc_Protocol conf)) eqn:Hhttp.
  { apply (add_body v conf conf); auto. }
  apply triple_bind with (R := λ c st, still v st ∧ ∃ port, c = with_RemotePort port conf).
  - intros st Hst. pose proof (still_reserve en Hpriv v (tc_RemotePort conf) (tc_Protocol conf) st Hst) as Hr.
    unfold bind. destruct (reserveRemotePort _ _ en st) as [[port|e| |] st']; simpl in *; eauto.
  - intros c st [Hst [port ->]]. apply (add_body v conf (with_RemotePort port conf)); auto.
    right. eauto.
Qed.

Lemma remove_spec (v : view) conf :
  triple en (still v) (RemoveTunnel conf)
    (λ _, still (RemoveTunnelVariable (tunnel_name conf) v.1, delete (tunnel_name conf) v.2)).
Proof.
  unfold RemoveTunnel. apply triple_bind with (R := λ _, still (v.1, delete (tunnel_name conf) v.2)).
  - intros st Hst. unfold still, tunnel_view, proxies, tunnels in *. simpl.
    rewrite fmap_delete, <- Hst. done.
  - intros _. apply (RemoveTunnelConfig_spec (v.1, delete (tunnel_name conf) v.2)).
    apply (still_Reload en Hpriv).
Qed.

(** ** Every use of the manager *)

(** What the agent does with the manager: bring a tunnel up on a port (as
    [syncPortState] does), take one down, read the client's output, supervise and probe
    the client, watch the states. *)
Inductive tunnel_op :=
  | OpEnsure (conf : TunnelConfig)
  | OpRemove (conf : TunnelConfig)
  | OpLine (line : string)
  | OpScanEnd
  | OpSupervise
  | OpProbe
  | OpTick (fingerprint : string).

Definition ensure (conf : TunnelConfig) : Tun unit :=
  let! tnl := Get (tunnel_name conf) in
  match tnl with
  | Some t =>
      if (tc_LocalPort (tn_Config t) =? tc_LocalPort conf)%N then ret tt
      else ignore (RemoveTunnel (tn_Config t));; ignore (AddTunnel conf)
  | None => ignore (AddTunnel conf)
  end.

Definition run_op (op : tunnel_op) : Tun unit :=
  match op with
  | OpEnsure conf => ensure conf
  | OpRemove conf => ignore (RemoveTunnel conf)
  | OpLine line => ignore (scan_line line)
  | OpScanEnd => scan_end
  | OpSupervise => SuperviseStart
  | OpProbe => probeCapability
  | OpTick fingerprint => ignore (monitor_tick fingerprint)
  end.

(** The abstract manager: a map of tunnels, in which bringing a tunnel up may fail but
    never changes another tunnel, and never keeps one that dials another port. *)
Inductive spec_op (M : gmap string TunnelConfig) : tunnel_op → gmap string TunnelConfig → Prop :=
  | spec_kept conf c :
      M !! tunnel_name conf = Some c → tc_LocalPort c = tc_LocalPort conf → spec_op M (OpEnsure conf) M
  | spec_up conf c :
      (∀ c', M !! tunnel_name conf = Some c' → tc_LocalPort c' ≠ tc_LocalPort conf) →
      (c = conf ∨ ∃ port, c = with_RemotePort port conf ∧ is_http (tc_Protocol conf) = false) →
      spec_op M (OpEnsure conf) (<[tunnel_name conf := c]> M)
  | spec_failed conf :
      (∀ c', M !! tunnel_name conf = Some c' → tc_LocalPort c' ≠ tc_LocalPort conf) →
      spec_op M (OpEnsure conf) (delete (tunnel_name conf) M)
  | spec_removed conf : spec_op M (OpRemove conf) (delete (tunnel_name conf) M)
  | spec_other op : (∀ c, op ≠ OpEnsure c) → (∀ c, op ≠ OpRemove c) → spec_op M op M.

(** What one operation does to the file and the active tunnels. *)
Definition refined (v : view) (op : tunnel_op) (st : tunnel_state) : Prop :=
  ∃ v', still v' st ∧ in_step v' ∧ spec_op v.2 op v'.2.

Lemma refined_same v op st : in_step v → still v st → spec_op v.2 op v.2 → refined v op st.
Proof. intros ???. by exists v. Qed.

(** A successful or failed addition, seen from an earlier view of the same map. *)
Lemma add_refined (v0 v : view) conf :
  in_step v → v.2 = delete (tunnel_name conf) v0.2 →
  (∀ c', v0.2 !! tunnel_name conf = Some c' → tc_LocalPort c' ≠ tc_LocalPort conf) →
  triple en (still v) (ignore (AddTunnel conf)) (λ _, refined v0 (OpEnsure conf)).
Proof.
  intros Hv Hv2 Hport st Hst.
  assert (v.2 !! tunnel_name conf = None) as Hnone by (rewrite Hv2; apply lookup_delete_eq).
  pose proof (add_spec v conf Hv Hnone st Hst) as Ha. pose proof (returns_AddTunnel en conf st) as Hr.
  unfold ignore, bind, try_. destruct (AddTunnel conf en st) as [[c|e| |] st']; simpl in *; [..|done|done].
  - destruct Ha as [Hc Hst']. eexists. split; [exact Hst'|]. simpl. split.
    + assert (tunnel_name c = tunnel_name conf) as Hn by (by destruct Hc as [->|[? [-> _]]]).
      rewrite <- Hn. apply (in_step_add v c Hv). by rewrite Hn.
    + rewrite Hv2, insert_delete_eq. by apply spec_up.
  - exists v. split_and!; [done..|]. rewrite Hv2. by apply spec_failed.
Qed.
(** What an invariant of the view says once a handler has returned. *)
Lemma still_refined (v : view) op {A} (m : Tun A) :
  in_step v → spec_op v.2 op v.2 → keeps en (still v) m → triple en (still v) m (λ _, refined v op).
Proof. intros Hv Hop Hm st Hst. apply refined_same; [done| |done]. exact (Hm st Hst). Qed.

Lemma triple_ignore {A} (m : Tun A) P R :
  returns en m → triple en P m (λ _, R) → triple en P (ignore m) (λ o st, o = Ok tt ∧ R st).
Proof.
  intros Hr Hm st HP. specialize (Hr st). specialize (Hm st HP). unfold ignore, bind, try_.
  by destruct (m en st) as [[a|e| |] st'].
Qed.

Lemma op_refined (v : view) op : in_step v → triple en (still v) (run_op op) (λ _, refined v op).
Proof.
  intros Hv. destruct op as [conf|conf|line| | | |fp]; simpl.
  - intros st Hst. unfold ensure, Get. unfold bind at 1 2, gets.
    assert (v.2 !! tunnel_name conf = tn_Config <$> (ftm_active (world st) !! tunnel_name conf)) as Hlook.
    { rewrite <- Hst. simpl. unfold tunnels. by rewrite lookup_fmap. }
    destruct (ftm_active (world st) !! tunnel_name conf) as [t|]; simpl in Hlook.
    + destruct (N.eqb_spec (tc_LocalPort (tn_Config t)) (tc_LocalPort conf)) as [He|Hne].
      { apply refined_same; [done..|]. by eapply spec_kept. }
      pose proof (proj1 (proj1 (proj2 Hv) _ _ Hlook)) as Hn.
      assert (∀ c', v.2 !! tunnel_name conf = Some c' → tc_LocalPort c' ≠ tc_LocalPort conf) as Hport
        by (intros c' Hc'; rewrite Hlook in Hc'; by injection Hc' as <-).
      set (v' := (RemoveTunnelVariable (tunnel_name conf) v.1, delete (tunnel_name conf) v.2)).
      assert (in_step v') as Hv' by (by apply in_step_remove).
      assert (triple en (still v) (ignore (RemoveTunnel (tn_Config t));; ignore (AddTunnel conf))%go
        (λ _, refined v (OpEnsure conf))) as Ht; [|by apply Ht].
      apply triple_bind with (R := λ _, still v').
      * eapply triple_post; [apply triple_ignore; [apply returns_RemoveTunnel|apply remove_spec]|].
        rewrite Hn. by intros o st' [-> Hst'].
      * intros _. by apply add_refined.
    + apply (add_refined v v conf Hv); [|intros c'; by rewrite Hlook|done].
      by rewrite delete_id.
  - intros st Hst. pose proof (remove_spec v conf st Hst) as Hrem.
    unfold ignore, bind, try_. destruct (RemoveTunnel conf en st) as [[c|e| |] st']; simpl in *;
      (eexists; split; [exact Hrem|]; split; [by apply in_step_remove|apply spec_removed]).
  - apply still_refined; [done|by apply spec_other|]. apply keeps_ignore. by apply still_scan_line.
  - apply still_refined; [done|by apply spec_other|]. by apply still_scan_end.
  - apply still_refined; [done|by apply spec_other|]. by apply still_SuperviseStart.
  - apply still_refined; [done|by apply spec_other|]. by apply still_probe.
  - apply still_refined; [done|by apply spec_other|]. apply keeps_ignore. by apply still_monitor_tick.
Qed.

Lemma returns_run_op op : returns en (run_op op).
Proof.
  pose proof (returns_AddTunnel en) as Ha. pose proof (returns_RemoveTunnel en) as Hr.
  destruct op; simpl; unfold ensure, SuperviseStart, scan_line, record_error, scan_end, monitor_tick,
    PublishTunnelState, GetState, AllStatus, Get; returning.
Qed.

Lemma errorless_setCapability c e : errorless en (setCapability c e).
Proof using. unfold setCapability, when. errorless. Qed.

Lemma errorless_supervised n b f : errorless en (finally (supervise n b) (modify f)).
Proof using.
  assert (∀ b, errorless en (supervise n b)) as Hs.
  { induction n as [|n IH]; intros b0; simpl; [apply errorless_setCapability|].
    errorless. 2: { apply IH. } unfold when, SetAdminPort, pickAdminPort, SaveConfig, ignore.
    assert (∀ k p, errorless en (free_port_from k p)) as Hf.
    { intros k. induction k; intros; simpl; errorless. apply IHk. }
    errorless. apply Hf. }
  intros st e st'. specialize (Hs b st). unfold finally, modify.
  destruct (supervise n b en st) as [[a|e0| |] s]; congruence.
Qed.

(** None of the uses has an error to report. *)
Lemma run_op_ok op st e : (run_op op en st).1 ≠ Err e.
Proof.
  assert (errorless en (run_op op)) as He.
  { destruct op; simpl; unfold ensure, ignore, scan_end, SuperviseStart, probeCapability, Get.
    all: errorless; auto using errorless_setCapability, errorless_supervised. }
  intros Heq. specialize (He st e (run_op op en st).2). apply He. rewrite <- Heq. by destruct (run_op op en st).
Qed.

Inductive spec_run (M : gmap string TunnelConfig) : list tunnel_op → gmap string TunnelConfig → Prop :=
  | spec_done : spec_run M [] M
  | spec_more op ops M1 M2 : spec_op M op M1 → spec_run M1 ops M2 → spec_run M (op :: ops) M2.

(** C2: the tunnel manager implements a map of tunnels: whatever the daemon, the backend
    and the client answer, any sequence of uses (bringing tunnels up and down, client
    output, supervision, probes, monitoring) ends, and step by step changes the active
    tunnels only as the abstract map does; and the configuration file holds exactly the
    proxies of the active tunnels, under distinct names. *)
Theorem manager_refines_tunnel_map ops st :
  in_sync st →
  let st' := (for_each ops run_op en st).2 in
  (for_each ops run_op en st).1 = Ok tt ∧ in_sync st' ∧ spec_run (tunnels (world st)) ops (tunnels (world st')).
Proof.
  revert st. induction ops as [|op ops IH]; intros st Hst; simpl.
  - split_and!; [done..|apply spec_done].
  - pose proof (op_refined (tunnel_view (world st)) op Hst st eq_refl) as (v' & Hst1 & Hv' & Hop).
    pose proof (returns_run_op op st) as Hr. pose proof (run_op_ok op st) as Ho.
    unfold bind. destruct (run_op op en st) as [[[]|e| |] st1]; simpl in *; [|by destruct (Ho e)|done..].
    assert (in_sync st1) as Hs1 by (unfold in_sync; by rewrite Hst1).
    destruct (IH st1 Hs1) as (Hok & Hs2 & Hrun). split_and!; [done..|].
    eapply spec_more; [|exact Hrun]. assert (tunnels (world st1) = v'.2) as -> by (by rewrite <- Hst1). done.
Qed.
End tunnels.

(** ** Examples *)

Definition ex_frpc : FrpcYamlConfig :=
  {| fy_ServerAddr := "app.example.com"; fy_ServerPort := 7000; fy_TransportProtocol := ""; fy_ProxyURL := "";
     fy_TLSEnable := true; fy_Metadatas := []; fy_WebServerAddr := "127.0.0.1"; fy_WebServerPort := 7411;
     fy_LogTo := "/var/log/frpc.log"; fy_LogLevel := "debug"; fy_LogMaxDays := 3; fy_LoginFailExit := false;
     fy_Proxies := [] |}.

Definition ex_manager : FrpTunnelManager :=
  {| ftm_yaml := ex_frpc; ftm_active := ∅; ftm_client := None; ftm_spawned := 0; ftm_alive := false;
     ftm_isLoggedIn := false; ftm_loginTokens := 0; ftm_capability := CapabilityUnknown; ftm_lastErr := "";
     ftm_supervising := false; ftm_monitoring := false; ftm_can_reacquire := false;
     ftm_loginDeadline := defaultLoginDeadline |}.

(** Answers of a device on which everything works. *)
Definition calm_tunnel {T} (c : TunnelCall T) : T :=
  match c with
  | WriteConfig _ | DialFrps _ | ReacquireFrpc | OpenStdout | StartProcess | FrpcReload | SetRemotePorts _
  | PublishStates _ => inl tt
  | ListenLoopback _ => true
  | RandomFreePort => inl 50000%Z
  | StatBinary => BinaryPresent
  | KillProcess _ | AwaitReaped _ | SendAck _ | AwaitLogin | SleepFor _ | GoPublish | GoPublishAfterLogin
  | GoSupervise | GoScanner _ | GoMonitors => tt
  | AwaitAck _ => AckDeadline
  | AdminStatus _ => AdminStatuses []
  | ExposePort port _ => inl [VMap [("remote_port", VInt 30005)]]
  end.

Definition tunnel_answers : Type := ∀ T, TunnelCall T → list (event TunnelCall FrpTunnelManager) → option T.

Definition ex_tunnel_env (ov : tunnel_answers) : tunnel_env :=
  {| answer := λ T c l, match ov T c l with Some r => r | None => calm_tunnel c end;
     interfere := λ _ m, m |}.

Lemma ex_tunnels_private ov : tunnels_private (ex_tunnel_env ov).
Proof. done. Qed.

Definition no_answers : tunnel_answers := λ _ _ _, None.

Definition ex_ops : list tunnel_op :=
  [OpSupervise; OpEnsure ex_tunnel; OpLine "[7-shop-2-go-8080-tcp] start proxy success"; OpEnsure ex_tunnel].

Lemma ex_in_sync : in_sync (mk_state ex_manager []).
Proof.
  split_and!; [apply NoDup_nil_2| |].
  - intros id c Hc. vm_compute in Hc. discriminate.
  - intros p Hp. by apply not_elem_of_nil in Hp.
Qed.

(** A tunnel brought up twice is one proxy, with the port the backend reserved. *)
Lemma manager_refines_tunnel_map_witness :
  in_sync (mk_state ex_manager []) ∧
  in_sync (for_each ex_ops run_op (ex_tunnel_env no_answers) (mk_state ex_manager [])).2 ∧
  px_RemotePort <$> proxies (world (for_each ex_ops run_op (ex_tunnel_env no_answers) (mk_state ex_manager [])).2)
  = [30005%Z].
Proof.
  pose proof (manager_refines_tunnel_map (ex_tunnel_env no_answers) (ex_tunnels_private _) ex_ops
    (mk_state ex_manager []) ex_in_sync) as Hrun.
  split; [exact ex_in_sync|]. split; [exact (proj1 (proj2 Hrun))|vm_compute; reflexivity].
Defined.
