(* ===== verification/TunnelReports.v ===== *)
(** * What the tunnel manager reports

    The states reported for the configured tunnels, the fingerprint by which a change is
    noticed, and two ways in which the manager loses track. *)
From S2P Require Import Prelude Errdefs GoValue Common Records Effects HostPorts World TunnelRules Frp.
From S2P Require Import Tunnels TunnelSpec.
Open Scope go_scope.

(** ** Reported states *)

Lemma config_id_tunnel_of p : px_Name p ≠ "" → config_id (tunnel_of p) = px_Name p.
Proof. intros Hne. unfold config_id. cbn [tunnel_of tc_Name]. apply String.eqb_neq in Hne. by rewrite Hne. Qed.

Lemma tunnel_name_nonempty conf : tunnel_name conf ≠ "".
Proof. unfold tunnel_name, CreateTunnelID. by destruct (tc_Subdomain conf). Qed.

Lemma elem_of_states base configs statuses t :
  t ∈ states_of base configs statuses ↔
  ∃ c s, c ∈ configs ∧ s ∈ statuses ∧ config_id c = ts_Name s ∧ t = tunnel_state_of base c s.
Proof.
  unfold states_of. rewrite list_elem_of_bind. split.
  - intros (c & (s & -> & Hs)%list_elem_of_fmap & Hc). apply list_elem_of_In, filter_In in Hs as [Hs He].
    exists c, s. split_and!; [done|by apply list_elem_of_In|by apply String.eqb_eq|done].
  - intros (c & s & Hc & Hs & He & ->). exists c. split; [|done]. apply list_elem_of_fmap. exists s.
    split; [done|]. apply list_elem_of_In, filter_In. split; [by apply list_elem_of_In|by apply String.eqb_eq].
Qed.

(** The address a tunnel is reached at. *)
Definition public_url (base : string) (conf : TunnelConfig) (remotePort : N) : string :=
  if is_http (tc_Protocol conf) then "https://" +:+ tc_Subdomain conf +:+ "." +:+ base
  else if (remotePort =? 0)%N then tc_Protocol conf +:+ "://" +:+ tc_Subdomain conf +:+ "." +:+ base
  else tc_Protocol conf +:+ "://" +:+ tc_Subdomain conf +:+ "." +:+ base +:+ ":" +:+ itoa remotePort.

Lemma buildURL_public base conf port : buildURL base (tc_Protocol conf) (tc_Subdomain conf) port = public_url base conf port.
Proof.
  unfold buildURL, public_url, is_http. destruct (String.eqb_spec (tc_Protocol conf) "http") as [->|]; simpl.
  - by rewrite andb_false_r.
  - destruct (String.eqb_spec (tc_Protocol conf) "https") as [->|]; simpl; [by rewrite andb_false_r|].
    rewrite andb_true_r. by destruct (N.eqb_spec port 0).
Qed.

(** what is reported upstream: the configured tunnels that the client reports a status
    for, and only those, each with the app's declared port (not the port the client
    dials), the app's name, the client's error and the public address of its protocol. *)
Theorem reported_states_are_configured base key declared confs statuses t :
  (∀ conf, conf ∈ confs →
     tc_Subdomain conf = CreateSubdomain (tc_Protocol conf) key (tc_AppName conf) (declared conf)
     ∧ lacks newline_char (tc_AppName conf) = true ∧ (declared conf < 2 ^ 64)%N) →
  t ∈ states_of base (tunnel_of <$> (proxy_of <$> confs)) statuses ↔
  ∃ conf s, conf ∈ confs ∧ s ∈ statuses ∧ ts_Name s = tunnel_name conf ∧
    t = {| tst_Status := s; tst_AppName := to_lower (tc_AppName conf); tst_Port := declared conf;
           tst_Active := String.eqb (ts_Status s) "running"; tst_Error := negb (String.eqb (ts_Error s) "");
           tst_ErrorMessage := ts_Error s; tst_URL := public_url base conf (ts_RemotePort s) |}.
Proof.
  intros Hconfs.
  assert (∀ conf s, conf ∈ confs → tunnel_state_of base (tunnel_of (proxy_of conf)) s =
    {| tst_Status := s; tst_AppName := to_lower (tc_AppName conf); tst_Port := declared conf;
       tst_Active := String.eqb (ts_Status s) "running"; tst_Error := negb (String.eqb (ts_Error s) "");
       tst_ErrorMessage := ts_Error s; tst_URL := public_url base conf (ts_RemotePort s) |}) as Hstate.
  { intros conf s Hc. destruct (Hconfs conf Hc) as (Hs & Hl & Hb). unfold tunnel_state_of.
    rewrite subdomain_read_back by (rewrite Hs; apply CreateSubdomain_nonempty).
    rewrite (declared_read_back key (tc_AppName conf) (declared conf)) by done.
    rewrite (name_read_back key (tc_AppName conf) (declared conf)) by done.
    cbn [tunnel_of proxy_of tc_Protocol px_Type]. by rewrite buildURL_public. }
  rewrite elem_of_states. split.
  - intros (c & s & (p & -> & (conf & -> & Hc)%list_elem_of_fmap)%list_elem_of_fmap & Hs & He & ->).
    exists conf, s. split_and!; [done..| |by apply Hstate].
    by rewrite <- He, config_id_tunnel_of by apply tunnel_name_nonempty.
  - intros (conf & s & Hc & Hs & He & ->). exists (tunnel_of (proxy_of conf)), s.
    split_and!; [by do 2 apply list_elem_of_fmap_2|done| |by rewrite Hstate].
    by rewrite config_id_tunnel_of by apply tunnel_name_nonempty.
Qed.

Definition ex_status : TunnelStatus :=
  {| ts_Name := "7-shop-2-go-8080-tcp"; ts_Status := "running"; ts_LocalAddr := "127.0.0.1:40001"; ts_Plugin := "";
     ts_RemoteAddr := "app.example.com:30005"; ts_RemotePort := 30005; ts_Error := ""; ts_Protocol := "tcp" |}.

Lemma reported_states_are_configured_witness :
  ∃ t, t ∈ states_of "app.example.com" (tunnel_of <$> (proxy_of <$> [ex_tunnel])) [ex_status]
       ∧ tst_Port t = 8080%N ∧ tst_URL t = "tcp://7-shop-2-go-8080.app.example.com:30005".
Proof.
  eexists. split.
  - apply (reported_states_are_configured "app.example.com" 7 (λ _, 8080%N) [ex_tunnel]).
    + intros conf ->%list_elem_of_singleton. split_and!; vm_compute; reflexivity.
    + exists ex_tunnel, ex_status. split_and!; [by left|by left|vm_compute; reflexivity|reflexivity].
  - split; vm_compute; reflexivity.
Defined.

(** ** Noticing changes *)

(** the fingerprint compared by the monitor does not depend on the order in which the
    configuration file or the client list the tunnels. *)
Theorem fingerprint_order states states' :
  states ≡ₚ states' → tunnelStateFingerprint states = tunnelStateFingerprint states'.
Proof.
  intros Hp. unfold tunnelStateFingerprint. f_equal. apply sort_strings_proper. by apply fmap_Permutation.
Qed.

Definition ex_state_of (port : N) : TunnelState :=
  tunnel_state_of "app.example.com" (with_RemotePort port ex_tunnel) ex_status.

Lemma fingerprint_order_witness :
  tunnelStateFingerprint [ex_state_of 1; ex_state_of 2] = tunnelStateFingerprint [ex_state_of 2; ex_state_of 1].
Proof. apply fingerprint_order, perm_swap. Defined.

Definition publishes_states (e : event TunnelCall FrpTunnelManager) : bool :=
  match e with Ev (PublishStates _) _ _ => true | _ => false end.

(** the monitor's retry of a failed publication misses one change: when the last tunnel
    has gone and telling the cloud fails, the remembered fingerprint becomes the empty
    text, which is also the fingerprint of no tunnels, so the next tick finds nothing
    new and the cloud is not told. *)
Theorem lost_last_removal en last_ st st1 st2 st3 e :
  last_ ≠ "" → GetState en st = (Ok [], st1) → PublishTunnelState en st1 = (Err e, st2) →
  GetState en st2 = (Ok [], st3) →
  monitor_tick last_ en st = (Ok "", st2) ∧ monitor_tick "" en st2 = (Ok "", st3).
Proof.
  intros Hl H1 H2 H3. apply String.eqb_neq in Hl. rewrite String.eqb_sym in Hl.
  assert (tunnelStateFingerprint [] = "") as Hf by (vm_compute; reflexivity).
  split; unfold monitor_tick.
  - rewrite (bind_ok en st st1 _ _ (inl [])) by (unfold try_; by rewrite H1). rewrite Hf, Hl.
    rewrite (bind_ok en st1 st2 _ _ (inr e)) by (unfold try_; by rewrite H2). done.
  - rewrite (bind_ok en st2 st3 _ _ (inl [])) by (unfold try_; by rewrite H3). rewrite Hf. done.
Qed.

Definition ex_unpublished : tunnel_answers := λ T c l,
  match c in TunnelCall T return option T with PublishStates _ => Some (inr (Plain "session closed")) | _ => None end.

Lemma lost_last_removal_witness :
  monitor_tick "7-demo-80-http|running" (ex_tunnel_env ex_unpublished) (mk_state ex_manager [])
  = (Ok "", (PublishTunnelState (ex_tunnel_env ex_unpublished) (mk_state ex_manager [])).2).
Proof.
  eapply (lost_last_removal (ex_tunnel_env ex_unpublished) _ (mk_state ex_manager []));
    [discriminate|vm_compute; reflexivity|vm_compute; reflexivity|vm_compute; reflexivity].
Defined.

(** ** A failed addition of a tunnel that is there *)

Section duplicate.
Variable en : tunnel_env.
Hypothesis Hpriv : tunnels_private en.

#[local] Set Default Proof Using "Type*".

(** The client does not answer a reload. *)
Definition reload_fails : Prop := ∀ lg, ∃ output e, answer en _ FrpcReload lg = inr (output, e).

Lemma Reload_err (Hdown : reload_fails) st : ∃ e, (Reload en st).1 = Err e.
Proof.
  unfold Reload, bind, call. destruct (Hdown (Effects.log st)) as (output & e & ->). exists e.
  unfold when. simpl. by destruct (str_contains _ output || _).
Qed.

Lemma still_AddTunnelConfig v conf st :
  still v st → ∃ l, still (l, v.2) (AddTunnelConfig conf en st).2 ∧ (AddTunnelConfig conf en st).1 = Ok tt.
Proof.
  intros Hst. unfold AddTunnelConfig. unfold bind at 1 3, gets. cbn [world Effects.log].
  destruct (upsert_proxy _ _) as [l|].
  - exists l. pose proof (still_saved en Hpriv v l (ret tt) (λ o st', o = Ok tt ∧ still (l, v.2) st')
      ltac:(by intros ? ?) st Hst) as Hs.
    unfold bind at 1 in Hs. unfold bind at 2 in Hs.
    destruct (bind (set_proxies l) (λ _, SaveConfig) en st) as [[[]|e| |] st'] eqn:E; simpl in *; tauto || (by destruct Hs).
  - exists v.1. split; [by destruct v|done].
Qed.

(** [AddTunnel] is only safe for a tunnel that is not there: when it is, and the client
    does not answer the reload, the rollback deletes the proxy of the live tunnel, which
    stays listed as active, so bringing it up again on its port does nothing: two
    concurrent port synchronisations of an app can lose its tunnel until it is removed. *)
Theorem failed_duplicate_add conf c st :
  is_http (tc_Protocol conf) = true → reload_fails → in_sync st →
  tunnels (world st) !! tunnel_name conf = Some c →
  let st' := (AddTunnel conf en st).2 in
  (∃ e, (AddTunnel conf en st).1 = Err e)
  ∧ tunnels (world st') !! tunnel_name conf = Some c
  ∧ tunnel_name conf ∉ px_Name <$> proxies (world st')
  ∧ (tc_LocalPort c = tc_LocalPort conf → ensure conf en st' = (Ok tt, st')).
Proof.
  intros Hhttp Hdown Hsync Hc. set (v := tunnel_view (world st)).
  assert (∃ e st', AddTunnel conf en st = (Err e, st')
    ∧ ∃ l, still (RemoveTunnelVariable (tunnel_name conf) l, v.2) st') as (e & st' & Hrun & l & Hst').
  { destruct (still_AddTunnelConfig v conf st eq_refl) as (l & Hl & Hok).
    destruct (AddTunnelConfig conf en st) as [o st1] eqn:E. simpl in *. subst o.
    pose proof (still_Reload en Hpriv _ st1 Hl) as Hrel. destruct (Reload_err Hdown st1) as [e He].
    destruct (Reload en st1) as [o st2] eqn:E2. simpl in *. subst o.
    pose proof (RemoveTunnelConfig_spec en Hpriv (l, v.2) conf (throw e : Tun TunnelConfig)
      (λ o st3, o = Err e ∧ still (RemoveTunnelVariable (tunnel_name conf) l, v.2) st3)
      ltac:(by intros ? ?) st2 Hrel) as [Ho Hs].
    exists e, ((RemoveTunnelConfig conf;; (throw e : Tun TunnelConfig))%go en st2).2. split; [|by exists l].
    unfold AddTunnel. rewrite Hhttp. rewrite (bind_ok en st st _ _ conf eq_refl).
    rewrite (bind_ok en st st1 _ _ tt E). rewrite (bind_ok en st1 st2 _ _ (inr e)) by (unfold try_; by rewrite E2).
    rewrite <- Ho. apply surjective_pairing. }
  cbv zeta. rewrite Hrun. cbn [fst snd].
  assert (tunnels (world st') = tunnels (world st)) as Ht by exact (f_equal snd Hst').
  assert (proxies (world st') = RemoveTunnelVariable (tunnel_name conf) l) as Hp by exact (f_equal fst Hst').
  rewrite Ht, Hp. split_and!; [by exists e|done| |].
  - intros (p & Hn & [_ Hne]%RemoveTunnelVariable_elem)%list_elem_of_fmap. congruence.
  - intros Hport. unfold ensure, Get, gets. unfold bind at 1.
    assert (tn_Config <$> (ftm_active (world st') !! tunnel_name conf) = Some c) as Hact.
    { rewrite <- Hc, <- Ht. unfold tunnels. by rewrite lookup_fmap. }
    destruct (ftm_active (world st') !! tunnel_name conf) as [t|]; [|done]. injection Hact as ->.
    by rewrite Hport, N.eqb_refl.
Qed.
End duplicate.

Definition client_down : tunnel_answers := λ T c l,
  match c in TunnelCall T return option T with
  | FrpcReload => Some (inr ("connect: connection refused", Plain "exit status 1"))
  | _ => None
  end.

Definition ex_page : TunnelConfig :=
  {| tc_Subdomain := "secure-7-shop-80"; tc_AppName := "shop"; tc_Protocol := "https"; tc_LocalPort := 40002;
     tc_LocalIP := ""; tc_RemotePort := 0; tc_DeclaredPort := 0; tc_Name := "" |}.

Definition ex_up : tunnel_state := mk_state (world (ensure ex_page (ex_tunnel_env no_answers) (mk_state ex_manager [])).2) [].

Lemma failed_duplicate_add_witness :
  in_sync ex_up ∧ "secure-7-shop-80-https" ∉ px_Name <$> proxies (world (AddTunnel ex_page (ex_tunnel_env client_down) ex_up).2).
Proof.
  assert (in_sync ex_up) as Hsync.
  { pose proof (manager_refines_tunnel_map (ex_tunnel_env no_answers) (ex_tunnels_private _) [OpEnsure ex_page]
      (mk_state ex_manager []) ex_in_sync) as Hrun. exact (proj1 (proj2 Hrun)). }
  split; [exact Hsync|].
  apply (failed_duplicate_add (ex_tunnel_env client_down) (ex_tunnels_private _) ex_page ex_page ex_up);
    [reflexivity|intros lg; do 2 eexists; reflexivity|exact Hsync|vm_compute; reflexivity].
Defined.
