(* ===== verification/Supervision.v ===== *)
(** * Supervision of the tunnel client

    The supervisor spawns the client a bounded number of times, waits a bounded time in
    between, is the only one of its kind, and leaves the device with a definite verdict. *)
From S2P Require Import Prelude Errdefs GoValue Common Records Effects HostPorts World TunnelRules Frp.
From S2P Require Import Tunnels TunnelSpec.
Open Scope go_scope.

(** ** Spawns and pauses of a run *)

Definition spawns (e : event TunnelCall FrpTunnelManager) : nat :=
  match e with Ev StartProcess _ _ => 1 | _ => 0 end.
Definition pause (e : event TunnelCall FrpTunnelManager) : Z :=
  match e with Ev (SleepFor ns) _ _ => ns | _ => 0 end.

Fixpoint total_spawns (lg : list (event TunnelCall FrpTunnelManager)) : nat :=
  match lg with [] => 0 | e :: lg' => spawns e + total_spawns lg' end.
Fixpoint total_pause (lg : list (event TunnelCall FrpTunnelManager)) : Z :=
  match lg with [] => 0 | e :: lg' => pause e + total_pause lg' end%Z.

Section supervision.
Variable en : tunnel_env.

(** At most [k] spawns and [t] nanoseconds of pauses after [st0]. *)
Definition within (st0 : tunnel_state) (k : nat) (t : Z) (st : tunnel_state) : Prop :=
  (total_spawns (Effects.log st) ≤ total_spawns (Effects.log st0) + k)%nat
  ∧ (total_pause (Effects.log st) ≤ total_pause (Effects.log st0) + t)%Z.

Lemma within_call {T} (c : TunnelCall T) st0 k t :
  (∀ r w, spawns (Ev c r w) = 0%nat ∧ pause (Ev c r w) = 0%Z) → keeps en (within st0 k t) (call c).
Proof.
  intros Hc. apply keeps_call. intros st r [H1 H2]. unfold within. cbn [Effects.log total_spawns total_pause].
  destruct (Hc r (world st)) as [-> ->]. split; [exact H1|lia].
Qed.

Lemma within_modify f st0 k t : keeps en (within st0 k t) (modify f).
Proof. by apply keeps_modify. Qed.

#[local] Ltac calm :=
  repeat first
    [ progress intros | apply keeps_ret | apply keeps_throw | apply keeps_lift | apply keeps_gets
    | apply within_modify | apply within_call; by intros [] | apply within_call; done
    | solve [auto with supervision nocore]
    | apply keeps_callE | apply keeps_bind | apply keeps_try | apply keeps_ignore | apply keeps_when
    | apply keeps_finally | split_match ].

Create HintDb supervision discriminated.

Lemma within_free_port st0 k t n port : keeps en (within st0 k t) (free_port_from n port).
Proof. revert port. induction n; intros; simpl; calm. Qed.
#[local] Hint Resolve within_free_port : supervision.

Lemma within_setCapability st0 k t c e : keeps en (within st0 k t) (setCapability c e).
Proof. unfold setCapability. calm. Qed.
#[local] Hint Resolve within_setCapability : supervision.

Lemma within_SetAdminPort st0 k t : keeps en (within st0 k t) SetAdminPort.
Proof. unfold SetAdminPort, pickAdminPort, SaveConfig. calm. Qed.

Lemma within_or_unavailable {A} st0 k t (m : Tun A) :
  keeps en (within st0 k t) m → keeps en (within st0 k t) (or_unavailable m).
Proof. intros Hm. unfold or_unavailable, unavailable. apply keeps_bind; [by apply keeps_try|]. calm. Qed.

Lemma within_await st0 k t : keeps en (within st0 k t) await_startup.
Proof. unfold await_startup, probeCapability, frpsReachable, unavailable. calm. Qed.

Lemma within_mono st0 k k' t t' st : within st0 k t st → (k ≤ k')%nat → (t ≤ t')%Z → within st0 k' t' st.
Proof. intros [H1 H2] Hk Ht. split; lia. Qed.

(** A start spawns at most one client. *)
Lemma within_spawn st0 k t : triple en (within st0 k t) spawn (λ _, within st0 (S k) t).
Proof.
  assert (∀ {A} (m : Tun A), keeps en (within st0 k t) m → triple en (within st0 k t) m (λ _, within st0 (S k) t)) as Hweak.
  { intros A m Hm. eapply triple_post; [exact Hm|]. intros o st Hst. eapply within_mono; [exact Hst|lia..]. }
  unfold spawn. apply triple_bind with (R := λ _, within st0 k t).
  { eapply triple_post; [apply within_or_unavailable; calm|]. intros [] st Hst; [done|eapply within_mono; [exact Hst|lia..]..]. }
  intros _. apply triple_bind with (R := λ _, within st0 (S k) t).
  - unfold or_unavailable. apply triple_bind with (R := λ _, within st0 (S k) t).
    + apply triple_try. unfold callE. apply triple_bind with (R := λ _, within st0 (S k) t).
      * intros st [H1 H2]. unfold within. cbn [seq_post call fst snd Effects.log total_spawns total_pause spawns pause]. split; lia.
      * intros [|]; intros st Hst; exact Hst.
    + unfold unavailable. intros [|e]; [by intros st Hst|].
      apply triple_bind with (R := λ _, within st0 (S k) t); [|by intros _ st Hst].
      eapply triple_post; [apply within_setCapability|]. by intros [].
  - intros _. apply (keeps_bind en (within st0 (S k) t)); [apply keeps_gets|calm].
Qed.

Lemma within_Start st0 k t : triple en (within st0 k t) Start (λ _, within st0 (S k) t).
Proof.
  assert (∀ {A B} (m : Tun A) (f : A → Tun B),
    keeps en (within st0 k t) m → (∀ a, triple en (within st0 k t) (f a) (λ _, within st0 (S k) t)) →
    triple en (within st0 k t) (bind m f) (λ _, within st0 (S k) t)) as Hthen.
  { intros A B m f Hm Hf. apply triple_bind with (R := λ _, within st0 k t); [|exact Hf].
    eapply triple_post; [exact Hm|]. intros [] st Hst; [done|eapply within_mono; [exact Hst|lia..]..]. }
  unfold Start. apply Hthen; [unfold stopClientLocked; calm|intros _]. apply Hthen; [calm|intros _].
  apply Hthen; [apply within_or_unavailable; unfold ensureFrpcBinary; calm|intros _].
  apply Hthen; [calm|intros _]. apply triple_bind with (R := λ _, within st0 (S k) t).
  - eapply triple_post; [apply within_spawn|]. by intros [].
  - intros _. apply within_await.
Qed.

(** The pauses before the attempts that are left. *)
Fixpoint pauses (attempts : nat) (backoff : Z) : Z :=
  match attempts with
  | O => 0
  | S left_ => (if (0 <? left_)%nat then backoff else 0)
               + pauses left_ (if (backoff <? 32 * second)%Z then backoff * 2 else backoff)
  end%Z.

Lemma pauses_nonneg n b : (0 ≤ b)%Z → (0 ≤ pauses n b)%Z.
Proof.
  revert b. induction n as [|n IH]; intros b Hb; [done|].
  assert (0 ≤ if (b <? 32 * second)%Z then b * 2 else b)%Z as Hb' by (destruct (_ <? _)%Z; lia).
  specialize (IH _ Hb'). cbn [pauses]. destruct (0 <? n)%nat; lia.
Qed.

Lemma within_supervise st0 n b k t : (0 ≤ b)%Z →
  triple en (within st0 k t) (supervise n b) (λ _, within st0 (k + n) (t + pauses n b)).
Proof.
  revert b k t. induction n as [|n IH]; intros b k t Hb.
  - simpl. eapply triple_post; [apply within_setCapability|]. intros o st Hst. eapply within_mono; [exact Hst|lia..].
  - pose proof (pauses_nonneg (S n) b Hb) as Hp.
    assert (0 ≤ if (b <? 32 * second)%Z then b * 2 else b)%Z as Hb' by (destruct (_ <? _)%Z; lia).
    cbn [supervise]. apply triple_bind with (R := λ _, within st0 (S k) t).
    { apply triple_try. eapply triple_post; [apply within_Start|].
      intros [] st Hst; try exact Hst; change (within st0 (k + S n) (t + pauses (S n) b) st);
        (eapply within_mono; [exact Hst|lia..]). }
    intros [_|_].
    { intros st Hst. change (within st0 (k + S n) (t + pauses (S n) b) st). eapply within_mono; [exact Hst|lia..]. }
    set (w := if (0 <? n)%nat then b else 0%Z). assert (0 ≤ w)%Z as Hw by (unfold w; destruct (_ <? _)%nat; lia).
    apply triple_bind with (R := λ _, within st0 (S k) (t + w)).
    + unfold w. destruct (0 <? n)%nat; cbn [when].
      * apply triple_bind with (R := λ _, within st0 (S k) t).
        { eapply triple_post; [apply within_SetAdminPort|]. intros [] st Hst; [done|..];
            (change (within st0 (k + S n) (t + pauses (S n) b) st); eapply within_mono; [exact Hst|lia..]). }
        intros _ st [H1 H2]. unfold within. cbn [seq_post call fst snd Effects.log total_spawns total_pause spawns pause]. split; lia.
      * intros st Hst. eapply within_mono; [exact Hst|lia..].
    + intros _. eapply triple_post; [by apply IH|]. intros o st Hst. fold w.
      eapply within_mono; [exact Hst|lia|]. cbn [pauses]. fold w. lia.
Qed.

Definition running_flag (b : bool) (st : tunnel_state) : Prop := ftm_supervising (world st) = b.

(** C22: supervision ends: the client is spawned at most six times, with at most 62 seconds of
    pauses in between, whatever the machine, the client and the server do; while one
    supervisor runs a second one returns at once without touching anything. *)
Theorem SuperviseStart_bounded st :
  (SuperviseStart en st).1 = Ok tt
  ∧ within st 6 (62 * second) (SuperviseStart en st).2
  ∧ (ftm_supervising (world st) = true → SuperviseStart en st = (Ok tt, st)).
Proof.
  unfold SuperviseStart. split_and!.
  - pose proof (errorless_supervised en maxAttempts (2 * second) (put_supervising false)) as He.
    pose proof (returns_supervise en maxAttempts (2 * second)) as Hr.
    unfold bind at 1, gets. destruct (ftm_supervising (world st)); [done|].
    unfold bind, modify at 1. cbn [world Effects.log].
    set (st1 := mk_state _ _). specialize (Hr st1). specialize (He st1). unfold finally, modify in *.
    destruct (supervise _ _ en st1) as [[[]|e| |] st2]; simpl in *; [done|by destruct (He e _ eq_refl)|done..].
  - unfold bind at 1, gets. destruct (ftm_supervising (world st)).
    { split; cbn [fst snd ret]; unfold second; lia. }
    assert (triple en (within st 0 0) (modify (put_supervising true);;
      finally (supervise maxAttempts (2 * second)) (modify (put_supervising false)))%go
      (λ _, within st 6 (62 * second))) as Ht.
    { apply triple_bind with (R := λ _, within st 0 0); [by intros st' Hst'|intros _].
      apply triple_finally with (R := λ _, within st 6 (62 * second)).
      - eapply triple_post; [apply (within_supervise st maxAttempts (2 * second) 0 0); unfold second; lia|].
        intros o st' Hst'. assert (within st 6 (62 * second) st') as Hw by exact Hst'. by destruct o.
      - intros o st' Hst'. simpl. by destruct o. }
    apply Ht. split; lia.
  - intros Hs. unfold bind at 1, gets. by rewrite Hs.
Qed.
End supervision.

(** A client that cannot be spawned: all six attempts are made. *)
Definition no_client : tunnel_answers := λ T c l,
  match c in TunnelCall T return option T with StartProcess => Some (inr (Plain "permission denied")) | _ => None end.

Example supervision_exhausted :
  let st := (SuperviseStart (ex_tunnel_env no_client) (mk_state ex_manager [])).2 in
  total_spawns (Effects.log st) = 6%nat ∧ total_pause (Effects.log st) = (62 * second)%Z
  ∧ ftm_capability (world st) = CapabilityUnavailable.
Proof. split_and!; vm_compute; reflexivity. Qed.
