(* ===== verification/LogText.v ===== *)
(** * Log lines: batching, bounded histories and windows (src/src/logging)

    The parts of applog.go, query.go and agentlog.go that work on lines alone: the
    batcher between a log stream and the connection, the bounded history of an app, the
    selection of a window of lines, and the reading of the agent's own log files. *)
From S2P Require Import Prelude Errdefs GoValue Common.

Definition len (s : string) : Z := Z.of_nat (String.length s).
Definition newline : ascii := "010".

(** ** Keeping the newest lines *)

(** [if len(l) == limit { l = l[1:] }; l = append(l, x)]. *)
Definition push {A} (limit : nat) (l : list A) (x : A) : list A :=
  ((if (length l =? limit)%nat then tail l else l) ++ [x])%list.

(** ** Lines of an output ([bufio.Scanner] with its default split)

    Lines end at a line feed, lose one carriage return before it, and the last one needs no
    end; a line of [limit] bytes or more stops the scanner. *)

Fixpoint drop_cr (s : string) : string :=
  match s with
  | EmptyString => EmptyString
  | String a EmptyString => if Ascii.eqb a "013" then EmptyString else s
  | String a s' => String a (drop_cr s')
  end.

Fixpoint scan_pieces (limit : Z) (ws : list string) : list string * bool :=
  match ws with
  | [] => ([], false)
  | [w] => if String.eqb w "" then ([], false) else if (limit <=? len w)%Z then ([], true) else ([drop_cr w], false)
  | w :: ws =>
      if (limit <=? len w)%Z then ([], true)
      else let '(lines, stopped) := scan_pieces limit ws in (drop_cr w :: lines, stopped)
  end.

(** The lines and whether the scanner gave up before the end. *)
Definition bufio_lines (limit : Z) (s : string) : list string * bool := scan_pieces limit (split_on newline s).

(** ** The batcher *)

Definition maxFlushBytes : Z := 256 * 1024.
Definition maxBufferBytes : Z := 1024 * 1024.

Record logBatcher := { lb_lines : list string; lb_bytes : Z; lb_dropped : Z }.

Definition newLogBatcher : logBatcher := {| lb_lines := []; lb_bytes := 0; lb_dropped := 0 |}.

Definition batch_add (line : string) (b : logBatcher) : logBatcher :=
  if (maxBufferBytes <? lb_bytes b + len line + 1)%Z
  then {| lb_lines := lb_lines b; lb_bytes := lb_bytes b; lb_dropped := lb_dropped b + 1 |}
  else {| lb_lines := (lb_lines b ++ [line])%list; lb_bytes := lb_bytes b + len line + 1; lb_dropped := lb_dropped b |}.

(** [if sb.Len() > 0 { sb.WriteByte('\n') }; sb.WriteString(line)]. *)
Definition write_line (sb line : string) : string :=
  if String.eqb sb "" then line else sb +:+ String newline line.

(** The loop of [flush]: the text so far, the bytes used, and the lines that did not fit. *)
Fixpoint flush_lines (sb : string) (used : Z) (lines : list string) : string * Z :=
  match lines with
  | [] => (sb, 0%Z)
  | line :: rest =>
      if (maxFlushBytes <? used + len line + 1)%Z then (sb, Z.of_nat (length lines))
      else flush_lines (write_line sb line) (used + len line + 1) rest
  end.

Definition dropped_marker (n : Z) : string :=
  "… " +:+ itoa (Z.to_N n) +:+ " log line(s) dropped (rate limit)".

(** The text to publish, if any, and the emptied batcher. *)
Definition flush (b : logBatcher) : option string * logBatcher :=
  match lb_lines b with
  | [] => if (lb_dropped b =? 0)%Z then (None, b)
          else (Some (dropped_marker (lb_dropped b)), newLogBatcher)
  | lines =>
      let '(sb, cut) := flush_lines "" 0 lines in
      let dropped := (lb_dropped b + cut)%Z in
      let text := if (0 <? dropped)%Z then write_line sb (dropped_marker dropped) else sb in
      (if String.eqb text "" then None else Some text, newLogBatcher)
  end.

(** The goroutine that flushes: it publishes when the ticker fires, and once more when [close]
    has closed its channel, which [close] then waits for. *)
Inductive batcher_event := LineAdded (line : string) | TickerFires | StopClosed.
Record batcher_run := { rn_batcher : logBatcher; rn_published : list string; rn_running : bool }.

Definition batcher_flush (running : bool) (r : batcher_run) : batcher_run :=
  let '(text, b) := flush (rn_batcher r) in
  {| rn_batcher := b; rn_published := (rn_published r ++ match text with Some t => [t] | None => [] end)%list; rn_running := running |}.

Definition run_step (r : batcher_run) (e : batcher_event) : batcher_run :=
  match e with
  | LineAdded line => {| rn_batcher := batch_add line (rn_batcher r); rn_published := rn_published r; rn_running := rn_running r |}
  | TickerFires => if rn_running r then batcher_flush true r else r
  | StopClosed => if rn_running r then batcher_flush false r else r
  end.
Definition run_start : batcher_run := {| rn_batcher := newLogBatcher; rn_published := []; rn_running := true |}.

(** ** The history of an app *)

Inductive EntryType := CONTAINER | AGENT.

#[export] Instance entry_type_eq_dec : EqDecision EntryType.
Proof. solve_decision. Defined.

Record LogEntry := { le_entry : string; le_logType : EntryType }.

Definition historyStorageLimit : nat := 100.

(** A line read from a stream, and a line the agent writes. *)
Definition stream_entry (history : list LogEntry) (chunk : string) : list LogEntry :=
  push historyStorageLimit history {| le_entry := chunk; le_logType := CONTAINER |}.
Definition agent_entry (history : list LogEntry) (text : string) : list LogEntry :=
  (history ++ [{| le_entry := text; le_logType := AGENT |}])%list.

Definition logEntriesToString (l : list LogEntry) : list string := le_entry <$> l.

Definition containsOnlyAgentLogs (l : list LogEntry) : bool :=
  forallb (λ e, negb (bool_decide (le_logType e = CONTAINER))) l.

(** ** Windows *)

Definition MaxQueryLines : N := 5000.
Definition MaxQueryBytes : Z := 4 * 2 ^ 20.
Definition DefaultQueryLines : N := 200.

Definition total_bytes (lines : list string) : Z := foldr (λ line n, len line + 1 + n)%Z 0%Z lines.

Fixpoint trim_front (lines : list string) (total limit : Z) : list string :=
  match lines with
  | [] => []
  | line :: rest => if (limit <? total)%Z then trim_front rest (total - (len line + 1)) limit else lines
  end.

Definition trimToBytes (lines : list string) (limit : Z) : list string * bool :=
  let total := total_bytes lines in
  if (total <=? limit)%Z then (lines, false) else (trim_front lines total limit, true).

(** [tail] and the lines to read, in [uint64] arithmetic. *)
Definition query_tail (tail : N) : N :=
  N.min MaxQueryLines (if (tail =? 0)%N then DefaultQueryLines else tail).
Definition query_fetch (tail offset : N) : N := N.min MaxQueryLines (wrap64 (query_tail tail + offset)).

(** The lines of the answer from the lines that were read, and whether some were cut. *)
Definition select_window (tail offset : N) (lines : list string) : list string * bool :=
  let n := N.of_nat (length lines) in
  let lines := if (0 <? offset)%N
               then (if (n <=? offset)%N then [] else firstn (N.to_nat (n - offset)) lines) else lines in
  let n := N.of_nat (length lines) in
  let '(lines, cut) := if (query_tail tail <? n)%N then (skipn (N.to_nat (n - query_tail tail)) lines, true)
                       else (lines, false) in
  let '(lines, trimmed) := trimToBytes lines MaxQueryBytes in
  (lines, cut || trimmed).

(** Docker's multiplexing header: a stream number up to 2, three zero bytes, four of size. *)
Definition stripStreamHeader (line : string) : string :=
  match line with
  | String a (String b (String c (String d (String _ (String _ (String _ (String _ rest))))))) =>
      if (N_of_ascii a <=? 2)%N && (N_of_ascii b =? 0)%N && (N_of_ascii c =? 0)%N && (N_of_ascii d =? 0)%N
      then rest else line
  | _ => line
  end.

(** ** A query of the logs of an app *)

Record LogQueryRequest := {
  lq_ContainerName : string; lq_Tail : N; lq_Offset : N;
  lq_Since : option Z; lq_Until : option Z; lq_NoTimestamps : bool;
}.
Record LogQueryResult := {
  lr_Lines : list string; lr_Source : string; lr_Truncated : bool; lr_OldestAvailable : option Z;
}.

(** What is asked of docker or compose. *)
Record LogQuery := { cq_Tail : N; cq_Since : string; cq_Until : string; cq_Timestamps : bool }.

Definition maxLogLineBytes : Z := 1024 * 1024.

(** A read that ends early keeps the lines it has. *)
Definition scanLines (text : string) : list string := map stripStreamHeader (bufio_lines maxLogLineBytes text).1.

(** ** The agent's own log *)

(** A time is [None] for Go's zero time. *)
Record agentLogLine := { al_Level : string; al_Time : string; al_Message : string; al_Error : string }.

(** [time.Parse] and the formatting of a time, [encoding/json] on a line, and the white
    space of [strings.TrimSpace]. *)
Class LogRuntime := {
  parse_rfc3339 : string → option Z;
  format_rfc3339 : Z → string;
  parse_rfc3339nano : string → option Z;
  json_log_line : string → option agentLogLine;
  json_error_field : string → string;
}.

Section queries.
Context `{LogRuntime}.

Definition formatBound (bound : option Z) : string := match bound with None => "" | Some t => format_rfc3339 t end.

Definition window_query (r : LogQueryRequest) : LogQuery :=
  {| cq_Tail := query_fetch (lq_Tail r) (lq_Offset r); cq_Since := formatBound (lq_Since r); cq_Until := formatBound (lq_Until r);
     cq_Timestamps := negb (lq_NoTimestamps r) |}.

Definition parseLeadingTimestamp (line : string) : option Z :=
  match str_cut " " (stripStreamHeader line) with (field, _, true) => parse_rfc3339nano field | _ => None end.

(** The time of the first line that is still there. *)
Definition first_stamp (text : string) : option Z :=
  match (bufio_lines maxLogLineBytes text).1 with [] => None | line :: _ => parseLeadingTimestamp line end.
End queries.

Definition is_space (a : ascii) : bool :=
  let n := N_of_ascii a in (((9 <=? n) && (n <=? 13)) || (n =? 32))%N.
Definition blank (s : string) : bool := str_forall is_space s.

Definition str_rev (s : string) : string := String.string_of_list_ascii (rev (String.list_ascii_of_string s)).
Definition trim_space (s : string) : string := str_rev (trim_left is_space (str_rev (trim_left is_space s))).

Definition defaultLevelRank : N := 2.
Definition levelRank (level : string) : N :=
  if String.eqb level "trace" then 0 else if String.eqb level "debug" then 1
  else if String.eqb level "info" then 2 else if String.eqb level "warn" then 3
  else if String.eqb level "error" then 4 else if String.eqb level "fatal" then 5
  else if String.eqb level "panic" then 6 else defaultLevelRank.

Definition DefaultAgentLogLines : N := 300.
Definition MaxAgentLogLines : N := 5000.

Record AgentLogQuery := { aq_Tail : N; aq_Since : option Z; aq_Until : option Z; aq_MinLevel : string }.

Section agent_log.
Context `{LogRuntime}.

(** The rendered line, its time, its rank, and whether it was a record. *)
Definition renderAgentLogLine (raw : string) : string * option Z * N * bool :=
  match json_log_line raw with
  | None => (raw, None, defaultLevelRank, false)
  | Some entry =>
      if String.eqb (al_Time entry) "" && String.eqb (al_Level entry) "" && String.eqb (al_Message entry) ""
      then (raw, None, defaultLevelRank, false)
      else
        let stamp := parse_rfc3339 (al_Time entry) in
        let level := to_lower (al_Level entry) in
        let text := match stamp with Some t => format_rfc3339 t +:+ " " | None => "" end
                    +:+ (if String.eqb level "" then "" else to_upper level +:+ " ")
                    +:+ al_Message entry
                    +:+ (if String.eqb (al_Error entry) "" then "" else ": " +:+ al_Error entry) in
        (text, stamp, levelRank level, true)
  end.

(** The loop's variables. *)
Record scan_state := {
  sc_kept : list string;
  sc_truncated : bool;
  sc_oldest : option Z;
  sc_lastStamp : option Z;
  sc_lastRank : N;
}.

Definition before (stamp bound : option Z) : bool :=
  match stamp, bound with Some t, Some b => (t <? b)%Z | _, _ => false end.

Definition scan_agent_line (q : AgentLogQuery) (tail : N) (s : scan_state) (raw : string) : scan_state :=
  if blank raw then s
  else
    let '(rendered, stamp, rank, parsed) := renderAgentLogLine raw in
    let '(stamp, rank) := if parsed then (stamp, rank) else (sc_lastStamp s, sc_lastRank s) in
    let s := {| sc_kept := sc_kept s; sc_truncated := sc_truncated s;
                sc_oldest := match sc_oldest s with Some t => Some t | None => stamp end;
                sc_lastStamp := stamp; sc_lastRank := rank |} in
    if (rank <? levelRank (to_lower (trim_space (aq_MinLevel q))))%N
       || before stamp (aq_Since q) || before (aq_Until q) stamp then s
    else {| sc_kept := push (N.to_nat tail) (sc_kept s) rendered;
            sc_truncated := sc_truncated s || (length (sc_kept s) =? N.to_nat tail)%nat;
            sc_oldest := sc_oldest s; sc_lastStamp := sc_lastStamp s; sc_lastRank := sc_lastRank s |}.

Definition scan_start : scan_state :=
  {| sc_kept := []; sc_truncated := false; sc_oldest := None; sc_lastStamp := None; sc_lastRank := defaultLevelRank |}.

Definition agent_tail (q : AgentLogQuery) : N :=
  N.min MaxAgentLogLines (if (aq_Tail q =? 0)%N then DefaultAgentLogLines else aq_Tail q).

Record AgentLogResult := {
  ar_Lines : list string; ar_Truncated : bool; ar_OldestAvailable : option Z; ar_FilesScanned : nat
}.

(** [QueryAgentLog] on the files, oldest first; [None] is a file that cannot be opened. *)
Definition QueryAgentLog (q : AgentLogQuery) (files : list (option (list string))) : AgentLogResult :=
  let opened := omap id files in
  let s := foldl (scan_agent_line q (agent_tail q)) scan_start (concat opened) in
  let '(lines, trimmed) := trimToBytes (sc_kept s) MaxQueryBytes in
  {| ar_Lines := lines; ar_Truncated := sc_truncated s || trimmed;
     ar_OldestAvailable := sc_oldest s; ar_FilesScanned := length opened |}.
End agent_log.
