(* ===== verification/LogSpec.v ===== *)
(** * Properties of log lines

    What is kept of a stream, what the batcher publishes and accounts for, and which
    lines a windowed query answers with. *)
From S2P Require Import Prelude Errdefs GoValue Common LogText.

(** ** The newest [n] *)

Definition lastn {A} (n : nat) (l : list A) : list A := skipn (length l - n) l.

Lemma length_lastn {A} n (l : list A) : length (lastn n l) = Nat.min n (length l).
Proof. unfold lastn. rewrite length_skipn. lia. Qed.

Lemma lastn_short {A} n (l : list A) : (length l ≤ n)%nat → lastn n l = l.
Proof. intros Hl. unfold lastn. by replace (length l - n)%nat with 0%nat by lia. Qed.

Lemma tail_skipn {A} n (l : list A) : tail (skipn n l) = skipn (S n) l.
Proof. revert l. induction n as [|n IH]; intros [|x l]; try done. simpl. apply IH. Qed.

Lemma push_lastn {A} n (l : list A) x : (0 < n)%nat → push n (lastn n l) x = lastn n (l ++ [x]).
Proof.
  intros Hn. unfold push. rewrite length_lastn. unfold lastn. rewrite length_app. simpl.
  destruct (Nat.eqb_spec (Nat.min n (length l)) n) as [He|Hne].
  - rewrite tail_skipn, skipn_app. replace (length l + 1 - n)%nat with (S (length l - n))%nat by lia.
    f_equal. replace (S (length l - n) - length l)%nat with 0%nat by lia. done.
  - replace (length l - n)%nat with 0%nat by lia. by replace (length l + 1 - n)%nat with 0%nat by lia.
Qed.

Lemma foldl_push {A} n (l xs : list A) : (0 < n)%nat → foldl (push n) (lastn n l) xs = lastn n (l ++ xs).
Proof.
  intros Hn. revert l. induction xs as [|x xs IH]; intros l; simpl; [by rewrite app_nil_r|].
  rewrite push_lastn by done. rewrite IH. by rewrite <- app_assoc.
Qed.

Lemma push_overfull {A} n (l : list A) x : (n < length l)%nat → push n l x = (l ++ [x])%list.
Proof. intros Hl. unfold push. by rewrite (proj2 (Nat.eqb_neq _ _)) by lia. Qed.

(** ** The history of an app *)

Definition from_container (chunk : string) : LogEntry := {| le_entry := chunk; le_logType := CONTAINER |}.

Lemma foldl_stream h chunks : foldl stream_entry h chunks = foldl (push historyStorageLimit) h (from_container <$> chunks).
Proof. revert h. induction chunks as [|c chunks IH]; intros h; simpl; [done|]. by rewrite IH. Qed.

(** the history of a stream is its newest hundred lines, in order, whatever its length. *)
Theorem history_keeps_newest chunks :
  foldl stream_entry [] chunks = lastn historyStorageLimit (from_container <$> chunks).
Proof.
  rewrite foldl_stream. rewrite <- (lastn_short historyStorageLimit []) at 1 by (unfold historyStorageLimit; simpl; lia).
  rewrite foldl_push by (unfold historyStorageLimit; lia). done.
Qed.

(** the limit is only applied when the history is exactly full, and a line the agent
    writes is appended without it: one such line in a full history switches the limit
    off, and every further line of the stream is kept, without bound. *)
Theorem agent_line_unbounds_history history text chunks :
  length history = historyStorageLimit →
  foldl stream_entry (agent_entry history text) chunks
  = (agent_entry history text ++ (from_container <$> chunks))%list
  ∧ length (foldl stream_entry (agent_entry history text) chunks) = (101 + length chunks)%nat.
Proof.
  intros Hl. assert (historyStorageLimit < length (agent_entry history text))%nat as Ho
    by (unfold agent_entry; rewrite length_app; simpl; lia).
  assert (foldl stream_entry (agent_entry history text) chunks
    = (agent_entry history text ++ (from_container <$> chunks))%list) as Hf.
  { rewrite foldl_stream. revert Ho. generalize (agent_entry history text) as h.
    induction chunks as [|c chunks IH]; intros h Ho; simpl; [by rewrite app_nil_r|].
    rewrite push_overfull by done. rewrite IH by (rewrite length_app; simpl; lia). by rewrite <- app_assoc. }
  split; [exact Hf|]. rewrite Hf, length_app, length_fmap. unfold agent_entry. rewrite length_app, Hl. done.
Qed.

Definition ex_history : list LogEntry := from_container <$> replicate 100 "line".

Lemma agent_line_unbounds_history_witness :
  length ex_history = historyStorageLimit
  ∧ length (foldl stream_entry (agent_entry ex_history "App is starting") ["a"; "b"; "c"]) = 104%nat.
Proof.
  assert (length ex_history = historyStorageLimit) as Hl by (vm_compute; reflexivity).
  split; [exact Hl|]. rewrite (proj2 (agent_line_unbounds_history ex_history "App is starting" ["a"; "b"; "c"] Hl)). done.
Defined.

(** ** The batcher *)

(** How many of the lines fit into one message. *)
Fixpoint fitting (used : Z) (lines : list string) : nat :=
  match lines with
  | [] => 0
  | line :: rest => if (maxFlushBytes <? used + len line + 1)%Z then 0 else S (fitting (used + len line + 1) rest)
  end.

(** The text of a list of lines: the empty lines at its front leave no trace. *)
Fixpoint no_leading_empty (lines : list string) : list string :=
  match lines with
  | "" :: rest => no_leading_empty rest
  | _ => lines
  end.

Lemma flush_lines_cut sb used lines : (flush_lines sb used lines).2 = Z.of_nat (length lines - fitting used lines).
Proof.
  revert sb used. induction lines as [|line rest IH]; intros sb used; simpl; [done|].
  destruct (maxFlushBytes <? _)%Z; simpl; [lia|]. by rewrite IH.
Qed.

Definition write_lines (sb : string) (lines : list string) : string := foldl write_line sb lines.

Lemma flush_lines_text sb used lines :
  (flush_lines sb used lines).1 = write_lines sb (firstn (fitting used lines) lines).
Proof.
  revert sb used. induction lines as [|line rest IH]; intros sb used; simpl; [done|].
  destruct (maxFlushBytes <? _)%Z; simpl; [done|]. by rewrite IH.
Qed.

Lemma write_lines_nonempty sb lines : sb ≠ "" → write_lines sb lines = join_with newline (sb :: lines).
Proof.
  revert sb. induction lines as [|line rest IH]; intros sb Hsb; [done|].
  simpl. unfold write_line. apply String.eqb_neq in Hsb as Hb. rewrite Hb.
  rewrite IH by (by destruct sb). destruct rest as [|line' rest]; [done|].
  cbn [join_with]. by rewrite str_app_assoc.
Qed.

Lemma write_lines_empty lines : write_lines "" lines = join_with newline (no_leading_empty lines).
Proof.
  induction lines as [|line rest IH]; [done|]. simpl. destruct line as [|a line]; [exact IH|].
  unfold write_line. simpl. by rewrite write_lines_nonempty.
Qed.

(** What a flush publishes: the lines of one message and the number it reports lost. *)
Definition sent (b : logBatcher) : list string := firstn (fitting 0 (lb_lines b)) (lb_lines b).
Definition reported (b : logBatcher) : Z := lb_dropped b + Z.of_nat (length (lb_lines b) - length (sent b)).

Lemma fitting_le used lines : (fitting used lines ≤ length lines)%nat.
Proof. revert used. induction lines as [|l r IH]; intros used; simpl; [done|]. destruct (_ <? _)%Z; [lia|]. specialize (IH (used + len l + 1)%Z). lia. Qed.

Lemma length_sent b : length (sent b) = fitting 0 (lb_lines b).
Proof. unfold sent. rewrite length_firstn. pose proof (fitting_le 0 (lb_lines b)). lia. Qed.

Lemma no_leading_empty_snoc lines x : x ≠ "" → no_leading_empty (lines ++ [x]) = (no_leading_empty lines ++ [x])%list.
Proof.
  intros Hx. induction lines as [|l r IH]; simpl; [by destruct x|]. destruct l; [exact IH|done].
Qed.

Lemma dropped_marker_nonempty n : dropped_marker n ≠ "".
Proof. done. Qed.

Lemma flush_spec b :
  let markers := if (0 <? reported b)%Z then [dropped_marker (reported b)] else [] in
  let text := join_with newline (no_leading_empty (sent b ++ markers)) in
  (0 ≤ lb_dropped b)%Z →
  flush b = (if String.eqb text "" then None else Some text,
             if (length (lb_lines b) =? 0)%nat && (lb_dropped b =? 0)%Z then b else newLogBatcher).
Proof.
  intros markers text Hd. unfold flush. subst markers text.
  destruct (lb_lines b) as [|line rest] eqn:E.
  - unfold sent, reported, sent. rewrite E. simpl. rewrite Z.add_0_r.
    destruct (Z.eqb_spec (lb_dropped b) 0) as [->|]; simpl; [done|].
    rewrite (proj2 (Z.ltb_lt _ _)) by lia. done.
  - pose proof (flush_lines_cut "" 0 (line :: rest)) as Hc. pose proof (flush_lines_text "" 0 (line :: rest)) as Ht.
    destruct (flush_lines "" 0 (line :: rest)) as [sb cut]. simpl in Hc, Ht. subst cut sb.
    assert (reported b = lb_dropped b + Z.of_nat (S (length rest) - fitting 0 (line :: rest)))%Z as Hr.
    { unfold reported. by rewrite length_sent, E. }
    fold (fitting 0 (line :: rest)). simpl fitting in Hr. simpl fitting. rewrite <- Hr.
    assert (firstn (fitting 0 (line :: rest)) (line :: rest) = sent b) as Hs by (unfold sent; by rewrite E).
    simpl fitting in Hs. rewrite Hs. simpl (_ && _). f_equal.
    destruct (0 <? reported b)%Z.
    + rewrite no_leading_empty_snoc by done.
      assert (write_line (write_lines "" (sent b)) (dropped_marker (reported b))
        = write_lines "" (sent b ++ [dropped_marker (reported b)])) as Hw by (unfold write_lines; by rewrite foldl_snoc).
      rewrite Hw, write_lines_empty, no_leading_empty_snoc by done. done.
    + by rewrite app_nil_r, write_lines_empty.
Qed.

Lemma total_bytes_app l k : total_bytes (l ++ k) = (total_bytes l + total_bytes k)%Z.
Proof. unfold total_bytes. induction l as [|x l IH]; simpl; [lia|]. rewrite IH. lia. Qed.

Lemma total_bytes_nonneg l : (0 ≤ total_bytes l)%Z.
Proof. unfold total_bytes, len. induction l; simpl; lia. Qed.

Lemma len_app s t : len (s +:+ t) = (len s + len t)%Z.
Proof. unfold len. induction s as [|a s IH]; simpl; lia. Qed.

Lemma len_join l : l ≠ [] → (len (join_with newline l) + 1 = total_bytes l)%Z.
Proof.
  induction l as [|x l IH]; [done|]. intros _. destruct l as [|y l]; [simpl; lia|].
  specialize (IH ltac:(done)).
  change (join_with newline (x :: y :: l)) with (x +:+ String newline (join_with newline (y :: l))). rewrite len_app.
  assert (len (String newline (join_with newline (y :: l))) = 1 + len (join_with newline (y :: l)))%Z as ->
    by (unfold len; simpl; lia).
  change (total_bytes (x :: y :: l)) with (len x + 1 + total_bytes (y :: l))%Z. lia.
Qed.

Lemma total_no_leading_empty l : (total_bytes (no_leading_empty l) ≤ total_bytes l)%Z.
Proof.
  induction l as [|x l IH]; [done|]. destruct x as [|a x]; [|done]. cbn [no_leading_empty].
  unfold total_bytes, len in *. simpl. lia.
Qed.

Lemma total_fitting used lines : (used ≤ maxFlushBytes)%Z →
  (used + total_bytes (firstn (fitting used lines) lines) ≤ maxFlushBytes)%Z.
Proof.
  revert used. induction lines as [|l r IH]; intros used Hu; simpl; [lia|].
  destruct (Z.ltb_spec maxFlushBytes (used + len l + 1)); simpl; [lia|].
  specialize (IH (used + len l + 1)%Z ltac:(lia)). unfold total_bytes in *. simpl. lia.
Qed.

(** no message exceeds the cap by more than its marker, however much was buffered: the
    text published by a flush is at most 256 KiB plus the line that says how many lines
    were left out, and a line is left out only with that marker. *)
Theorem flush_bounded b text :
  (0 ≤ lb_dropped b)%Z → (flush b).1 = Some text →
  (len text ≤ maxFlushBytes + len (dropped_marker (reported b)))%Z
  ∧ ((reported b = 0)%Z → sent b = lb_lines b ∧ (len text < maxFlushBytes)%Z).
Proof.
  intros Hd Hf. rewrite flush_spec in Hf by done. simpl in Hf.
  set (markers := if (0 <? reported b)%Z then [dropped_marker (reported b)] else []) in *.
  destruct (String.eqb_spec (join_with newline (no_leading_empty (sent b ++ markers))) "") as [|Hne]; [done|].
  injection Hf as <-. pose proof (total_fitting 0 (lb_lines b) ltac:(unfold maxFlushBytes; lia)) as Hfit.
  fold (sent b) in Hfit.
  assert (no_leading_empty (sent b ++ markers) ≠ []) as Hnn by (by intros Heq; rewrite Heq in Hne).
  pose proof (len_join _ Hnn) as Hlen. pose proof (total_no_leading_empty (sent b ++ markers)) as Htot.
  rewrite total_bytes_app in Htot.
  assert (total_bytes markers ≤ len (dropped_marker (reported b)) + 1)%Z as Hm.
  { unfold markers, total_bytes, len. destruct (0 <? _)%Z; simpl; lia. }
  split; [lia|]. intros Hr. unfold markers in *. rewrite Hr in *. simpl in *.
  change (total_bytes []) with 0%Z in Htot. split; [|lia].
  unfold reported in Hr. unfold sent in *. rewrite length_firstn in Hr.
  apply firstn_all2. lia.
Qed.

Definition ex_batch : logBatcher := batch_add "second" (batch_add "first" newLogBatcher).

Lemma flush_bounded_witness : (flush ex_batch).1 = Some ("first" +:+ String newline "second") ∧ (len ("first" +:+ String newline "second") < maxFlushBytes)%Z.
Proof.
  assert ((flush ex_batch).1 = Some ("first" +:+ String newline "second")) as Hf by (vm_compute; reflexivity).
  split; [exact Hf|].
  apply (proj2 (proj2 (flush_bounded ex_batch ("first" +:+ String newline "second") ltac:(by vm_compute) Hf) ltac:(vm_compute; reflexivity))).
Defined.

(** Lines arrive and the timer fires, in any order; a message is kept as the lines it
    carries and the number of lines it reports lost. *)
Inductive batch_op := AddLine (line : string) | Tick.

Record batch_run := { br_batcher : logBatcher; br_sent : list string; br_reported : Z }.

Definition batch_step (r : batch_run) (op : batch_op) : batch_run :=
  match op with
  | AddLine line => {| br_batcher := batch_add line (br_batcher r); br_sent := br_sent r; br_reported := br_reported r |}
  | Tick => {| br_batcher := (flush (br_batcher r)).2; br_sent := (br_sent r ++ sent (br_batcher r))%list;
               br_reported := br_reported r + reported (br_batcher r) |}
  end.

Definition added_lines (ops : list batch_op) : list string :=
  omap (λ op, match op with AddLine line => Some line | Tick => None end) ops.

Definition batch_start : batch_run := {| br_batcher := newLogBatcher; br_sent := []; br_reported := 0 |}.

Definition accounted (lines : list string) (r : batch_run) : Prop :=
  let b := br_batcher r in
  (br_sent r ++ lb_lines b)%list `sublist_of` lines
  ∧ (Z.of_nat (length lines) = Z.of_nat (length (br_sent r)) + br_reported r + Z.of_nat (length (lb_lines b)) + lb_dropped b)%Z
  ∧ lb_bytes b = total_bytes (lb_lines b) ∧ (lb_bytes b ≤ maxBufferBytes)%Z ∧ (0 ≤ lb_dropped b)%Z.

Lemma flush_empties b : (0 ≤ lb_dropped b)%Z → (flush b).2 = newLogBatcher ∨ ((flush b).2 = b ∧ lb_lines b = [] ∧ lb_dropped b = 0%Z).
Proof.
  intros Hd. rewrite flush_spec by done. simpl. destruct (lb_lines b); [|by left].
  destruct (Z.eqb_spec (lb_dropped b) 0); [right|left]; done.
Qed.

Lemma accounted_step lines r op : accounted lines r →
  accounted (lines ++ added_lines [op]) (batch_step r op).
Proof.
  intros (Hsub & Hcount & Hbytes & Hmax & Hd). destruct op as [line|]; simpl.
  - unfold accounted, batch_add. cbn [br_batcher br_sent br_reported].
    destruct (Z.ltb_spec maxBufferBytes (lb_bytes (br_batcher r) + len line + 1)); cbn [lb_lines lb_bytes lb_dropped];
      rewrite !length_app; simpl; split_and!; try lia.
    + by apply sublist_inserts_r.
    + rewrite app_assoc. by apply sublist_app.
    + rewrite total_bytes_app, <- Hbytes. unfold total_bytes. simpl. lia.
  - rewrite app_nil_r. unfold accounted. cbn [br_batcher br_sent br_reported].
    assert (length (sent (br_batcher r)) ≤ length (lb_lines (br_batcher r)))%nat as Hle
      by (rewrite length_sent; apply fitting_le).
    assert (sent (br_batcher r) `sublist_of` lb_lines (br_batcher r)) as Hs.
    { unfold sent. rewrite <- (firstn_skipn (fitting 0 (lb_lines (br_batcher r))) (lb_lines (br_batcher r))) at 3.
      by apply sublist_inserts_r. }
    rewrite length_app. unfold reported.
    destruct (flush_empties (br_batcher r) Hd) as [->|(-> & Hn & Hz)].
    + cbn [newLogBatcher lb_lines lb_bytes lb_dropped length]. rewrite app_nil_r. unfold maxBufferBytes.
      split_and!; [|lia|done|lia|lia]. etrans; [|exact Hsub]. by apply sublist_app.
    + assert (sent (br_batcher r) = []) as He by (unfold sent; by rewrite Hn).
      rewrite He, Hn in *. simpl in *. rewrite app_nil_r in *. split_and!; try done; try lia. by rewrite app_nil_r.
Qed.

(** a batched stream loses no line silently: however lines and flushes interleave, the
    lines that were sent, followed by those still buffered, are lines of the stream in
    their order; every line of the stream was sent, is buffered, or is counted in a
    marker that was published or is due; and the buffer never exceeds a mebibyte. *)
Theorem batcher_accounts_for_lines ops :
  let r := foldl batch_step batch_start ops in
  let lines := added_lines ops in
  (br_sent r ++ lb_lines (br_batcher r))%list `sublist_of` lines
  ∧ (Z.of_nat (length lines) = Z.of_nat (length (br_sent r)) + br_reported r
       + Z.of_nat (length (lb_lines (br_batcher r))) + lb_dropped (br_batcher r))%Z
  ∧ (total_bytes (lb_lines (br_batcher r)) ≤ maxBufferBytes)%Z.
Proof.
  assert (∀ ops lines r, accounted lines r → accounted (lines ++ added_lines ops) (foldl batch_step r ops)) as Hall.
  { clear. induction ops as [|op ops IH]; intros lines r Hr; [simpl; by rewrite app_nil_r|].
    simpl foldl. replace (added_lines (op :: ops)) with (added_lines [op] ++ added_lines ops)%list.
    - rewrite app_assoc. by apply IH, accounted_step.
    - unfold added_lines. by destruct op. }
  destruct (Hall ops [] batch_start) as (H1 & H2 & H3 & H4 & _).
  { split_and!; simpl; [done|lia|done|unfold maxBufferBytes; lia|lia]. }
  simpl in *. split_and!; [done..|lia].
Qed.

Lemma iter_empty n : (Z.of_nat n ≤ maxFlushBytes)%Z →
  Nat.iter n (batch_add "") newLogBatcher = {| lb_lines := replicate n ""; lb_bytes := Z.of_nat n; lb_dropped := 0 |}.
Proof.
  induction n as [|n IH]; intros Hn; [done|]. simpl. rewrite IH by lia. unfold batch_add, len. cbn [lb_bytes lb_lines lb_dropped].
  unfold maxFlushBytes, maxBufferBytes in *. rewrite (proj2 (Z.ltb_ge _ _)) by (simpl; lia).
  f_equal; [|simpl; lia]. by rewrite <- replicate_S_end.
Qed.

Lemma fitting_empty n used : (used + Z.of_nat n ≤ maxFlushBytes)%Z → fitting used (replicate n "") = n.
Proof.
  revert used. induction n as [|n IH]; intros used Hn; [done|]. simpl.
  unfold len. simpl. rewrite (proj2 (Z.ltb_ge _ _)) by lia. rewrite IH by lia. done.
Qed.

(** empty lines at the front of a message are lost without a marker: a batch of empty
    lines publishes nothing at all, and reports nothing lost. *)
Theorem leading_empty_lines_vanish n :
  (Z.of_nat n ≤ maxFlushBytes)%Z →
  flush (Nat.iter n (batch_add "") newLogBatcher) = (None, newLogBatcher)
  ∧ reported (Nat.iter n (batch_add "") newLogBatcher) = 0%Z.
Proof.
  intros Hn. rewrite iter_empty by done. set (b := {| lb_lines := _; lb_bytes := _; lb_dropped := _ |}).
  assert (sent b = replicate n "") as Hs.
  { unfold sent. cbn [lb_lines b]. rewrite fitting_empty by lia. apply firstn_all2. by rewrite length_replicate. }
  assert (reported b = 0%Z) as Hr by (unfold reported; rewrite Hs; simpl; lia).
  split; [|exact Hr]. rewrite flush_spec by done. rewrite Hr, Hs. simpl (if (0 <? 0)%Z then _ else _).
  rewrite app_nil_r. assert (no_leading_empty (replicate n "") = []) as -> by (clear; by induction n).
  simpl. f_equal. destruct n; [|done]. by subst b.
Qed.

Lemma leading_empty_lines_vanish_witness : flush (batch_add "" (batch_add "" newLogBatcher)) = (None, newLogBatcher).
Proof. apply (proj1 (leading_empty_lines_vanish 2 ltac:(unfold maxFlushBytes; lia))). Defined.

(** *** The end of a batcher *)

Definition drops_counted (r : batcher_run) : Prop := (0 ≤ lb_dropped (rn_batcher r))%Z.

Lemma batcher_flush_empties running r : drops_counted r →
  let b := rn_batcher (batcher_flush running r) in lb_lines b = [] ∧ lb_dropped b = 0%Z.
Proof.
  intros Hd. unfold batcher_flush. pose proof (flush_empties (rn_batcher r) Hd) as H. destruct (flush (rn_batcher r)) as [text b]. cbn in *.
  by destruct H as [->|(-> & Hl & Hz)].
Qed.

Lemma drops_counted_step r e : drops_counted r → drops_counted (run_step r e).
Proof.
  intros Hd. unfold drops_counted. destruct e as [line| |]; cbn.
  - unfold batch_add. destruct (_ <? _)%Z; cbn; unfold drops_counted in Hd; lia.
  - destruct (rn_running r); [|done]. by rewrite (proj2 (batcher_flush_empties true r Hd)).
  - destruct (rn_running r); [|done]. by rewrite (proj2 (batcher_flush_empties false r Hd)).
Qed.

Lemma drops_counted_run es : ∀ r, drops_counted r → drops_counted (foldl run_step r es).
Proof. induction es as [|e es IH]; intros r Hd; [done|]. by apply IH, drops_counted_step. Qed.

Lemma stopped_publishes_nothing es : ∀ r, rn_running r = false →
  rn_running (foldl run_step r es) = false ∧ rn_published (foldl run_step r es) = rn_published r.
Proof.
  induction es as [|e es IH]; intros r Hr; [done|]. cbn. destruct e as [line| |]; cbn; rewrite ?Hr; [|by apply IH..].
  by apply (IH {| rn_batcher := batch_add line (rn_batcher r); rn_published := rn_published r; rn_running := false |}).
Qed.

(** When the first [close] returns the buffer is empty: all that was added before it was
    published or counted.  What is added afterwards is never published. *)
Theorem closed_batcher es1 es2 : StopClosed ∉ es1 →
  let r := foldl run_step run_start (es1 ++ [StopClosed])%list in
  lb_lines (rn_batcher r) = [] ∧ lb_dropped (rn_batcher r) = 0%Z
  ∧ rn_published (foldl run_step r es2) = rn_published r.
Proof.
  intros Hno r. subst r. rewrite foldl_app. cbn.
  assert (rn_running (foldl run_step run_start es1) = true) as Hrun.
  { assert (∀ es r, StopClosed ∉ es → rn_running r = true → rn_running (foldl run_step r es) = true) as Hall; [|by apply Hall].
    clear. induction es as [|e es IH]; intros r Hno Hr; [done|]. apply not_elem_of_cons in Hno as [He Hno]. cbn. apply IH; [done|].
    destruct e as [line| |]; cbn; [done| |done]. rewrite Hr. unfold batcher_flush. by destruct (flush _). }
  rewrite Hrun. assert (drops_counted (foldl run_step run_start es1)) as Hd by (apply drops_counted_run; done).
  destruct (batcher_flush_empties false _ Hd) as [Hl Hz]. split; [done|]. split; [done|].
  apply stopped_publishes_nothing. unfold batcher_flush. by destruct (flush _).
Qed.

(** ** Windows *)

(** A line of a mebibyte ends the reading: it and everything after it is left out. *)
Lemma long_line_ends_reading w rest : lacks newline w = true → (maxLogLineBytes ≤ len w)%Z → scanLines (w +:+ String newline rest) = [].
Proof.
  intros Hw Hl. unfold scanLines, bufio_lines.
  assert (split_on newline (w +:+ String newline rest) = w :: split_on newline rest) as ->.
  { clear Hl. induction w as [|a w IH]; [done|]. cbn in Hw. apply andb_prop in Hw as [Ha Hw]. cbn. unfold not_char in Ha.
    destruct (Ascii.eqb a newline); [done|]. by rewrite IH. }
  cbn. rewrite (proj2 (Z.leb_le _ _)) by done. destruct (split_on newline rest); [|done].
  destruct (String.eqb_spec w "") as [->|]; [|done]. done.
Qed.

(** Cutting old lines until the rest fits, and no more of them than that takes. *)
Definition trims (limit : Z) (lines trimmed kept : list string) : Prop :=
  lines = (trimmed ++ kept)%list ∧ (total_bytes kept ≤ limit)%Z
  ∧ ∀ line, last trimmed = Some line → (limit < total_bytes (line :: kept))%Z.

Lemma trim_front_spec lines limit : (0 ≤ limit)%Z →
  ∃ pre, trims limit lines pre (trim_front lines (total_bytes lines) limit) ∧ ((limit < total_bytes lines)%Z → pre ≠ []).
Proof.
  intros Hlim. induction lines as [|line rest IH]; simpl.
  - exists []. split; [split_and!; [done|exact Hlim|done]|]. change (total_bytes []) with 0%Z. lia.
  - change (total_bytes (line :: rest)) with (len line + 1 + total_bytes rest)%Z.
    destruct (Z.ltb_spec limit (len line + 1 + total_bytes rest)) as [Hbig|Hfits].
    + replace (len line + 1 + total_bytes rest - (len line + 1))%Z with (total_bytes rest) by lia.
      destruct IH as (pre & (Heq & Hle & Hmax) & _). exists (line :: pre). split; [|done].
      split_and!; [by rewrite Heq at 1|done|]. destruct pre as [|x pre]; [|exact Hmax].
      intros y Hy. injection Hy as <-. change (trim_front rest _ limit) with ([] ++ trim_front rest (total_bytes rest) limit)%list.
      by rewrite <- Heq.
    + exists []. split; [by split_and!|lia].
Qed.

Lemma trimToBytes_spec lines limit : (0 ≤ limit)%Z →
  ∃ pre, trims limit lines pre (trimToBytes lines limit).1 ∧ (trimToBytes lines limit).2 = bool_decide (pre ≠ []).
Proof.
  intros Hlim. unfold trimToBytes. destruct (Z.leb_spec (total_bytes lines) limit); simpl.
  - exists []. split; [by split_and!|by rewrite bool_decide_eq_false_2 by tauto].
  - destruct (trim_front_spec lines limit Hlim) as (pre & ? & Hne). exists pre.
    split; [done|by rewrite bool_decide_eq_true_2 by (apply Hne; lia)].
Qed.

Lemma lastn_lastn {A} a b (l : list A) : lastn a (lastn b l) = lastn (Nat.min a b) l.
Proof. unfold lastn. rewrite skipn_skipn, length_skipn. f_equal. lia. Qed.

(** Setting aside the newest [o] of the newest [f] lines. *)
Lemma older_lastn {A} f o (l : list A) :
  firstn (length (lastn f l) - o) (lastn f l) = lastn (f - o) (firstn (length l - o) l).
Proof.
  unfold lastn. rewrite length_skipn, length_firstn, skipn_firstn_comm. destruct (Nat.le_gt_cases (length l) f).
  - replace (length l - f)%nat with 0%nat by lia. replace (Nat.min (length l - o) (length l) - (f - o))%nat with 0%nat by lia.
    f_equal. lia.
  - destruct (Nat.le_gt_cases f o).
    + replace (length l - (length l - f) - o)%nat with 0%nat by lia.
      replace (length l - o - (Nat.min (length l - o) (length l) - (f - o)))%nat with 0%nat by lia. done.
    + f_equal; [lia|]. f_equal. lia.
Qed.

(** Everything but the newest [offset] lines. *)
Definition past (offset : N) (lines : list string) : list string := firstn (length lines - N.to_nat offset) lines.

(** The answer and the flag, from what is past the offset. *)
Lemma select_window_past tail offset lines :
  select_window tail offset lines
  = let window := lastn (N.to_nat (query_tail tail)) (past offset lines) in
    ((trimToBytes window MaxQueryBytes).1,
     (query_tail tail <? N.of_nat (length (past offset lines)))%N || (trimToBytes window MaxQueryBytes).2).
Proof.
  unfold select_window. set (n := N.of_nat (length lines)).
  replace (if (0 <? offset)%N then if (n <=? offset)%N then [] else firstn (N.to_nat (n - offset)) lines else lines)
    with (past offset lines); cycle 1.
  { unfold past. subst n. destruct (N.ltb_spec 0 offset) as [H0|H0].
    - destruct (N.leb_spec (N.of_nat (length lines)) offset); [|f_equal; lia].
      by replace (length lines - N.to_nat offset)%nat with 0%nat by lia.
    - apply firstn_all2. lia. }
  clear n. set (older := past offset lines). cbv zeta. unfold lastn. destruct (N.ltb_spec (query_tail tail) (N.of_nat (length older))).
  - replace (N.to_nat (N.of_nat (length older) - query_tail tail)) with (length older - N.to_nat (query_tail tail))%nat by lia.
    by destruct (trimToBytes _ _).
  - replace (length older - N.to_nat (query_tail tail))%nat with 0%nat by lia. simpl. by destruct (trimToBytes _ _).
Qed.

(** C40: the answer to a windowed query is the page that was asked for, line for line: past
    the newest [offset] of the lines that were read, the newest [tail] (200 when none is
    asked for, at most 5000), and of these only the oldest are left out, as few as it takes
    to fit in 4 MiB; it is flagged truncated exactly when a line past the offset was read and
    is not in the answer. When the lines are the newest ones the daemon has, as many as the
    query asks it for, the page is that page of all its lines, cut short at line 5000; then
    only the size sets the flag, so that cut is not flagged. *)
Theorem select_window_spec tail offset lines :
  let '(answer, truncated) := select_window tail offset lines in
  let wanted := N.to_nat (if (tail =? 0)%N then 200 else N.min tail 5000) in
  ∃ trimmed,
    trims (4 * 2 ^ 20) (lastn wanted (past offset lines)) trimmed answer
    ∧ truncated = bool_decide (length answer < length (past offset lines))%nat
    ∧ ∀ written, lines = lastn (N.to_nat (query_fetch tail offset)) written →
        trims (4 * 2 ^ 20) (lastn (Nat.min wanted (5000 - N.to_nat offset)) (past offset written)) trimmed answer
        ∧ truncated = bool_decide (trimmed ≠ []).
Proof.
  rewrite select_window_past. cbv zeta.
  assert (query_tail tail = if (tail =? 0)%N then 200 else N.min tail 5000)%N as Hq.
  { unfold query_tail, MaxQueryLines, DefaultQueryLines. destruct (tail =? 0)%N; lia. }
  rewrite <- Hq. set (t := query_tail tail) in *. assert (t ≤ 5000)%N as Ht5 by (rewrite Hq; destruct (tail =? 0)%N; lia). clear Hq.
  set (older := past offset lines).
  destruct (trimToBytes_spec (lastn (N.to_nat t) older) MaxQueryBytes ltac:(unfold MaxQueryBytes; lia)) as (trimmed & Htr & Hflag).
  destruct (trimToBytes _ _) as [answer flag]. cbn [fst snd] in *. exists trimmed.
  pose proof Htr as (Heq & _ & _). apply (f_equal length) in Heq. rewrite length_lastn, length_app in Heq.
  split; [exact Htr|]. split.
  - rewrite Hflag. destruct (N.ltb_spec t (N.of_nat (length older))); simpl.
    + symmetry. apply bool_decide_eq_true_2. lia.
    + apply bool_decide_ext. destruct trimmed; simpl in *; [|naive_solver lia]. split; [done|lia].
  - intros written Hl.
    assert (N.to_nat (query_fetch tail offset) - N.to_nat offset = Nat.min (N.to_nat t) (5000 - N.to_nat offset))%nat as Hf.
    { unfold query_fetch, MaxQueryLines. fold t. destruct (N.lt_ge_cases (t + offset) two64) as [Hs|Hb]; [rewrite wrap64_small by done; lia|].
      unfold two64 in Hb. lia. }
    assert (older = lastn (Nat.min (N.to_nat t) (5000 - N.to_nat offset)) (past offset written)) as Hold.
    { unfold older, past. rewrite Hl, older_lastn. by rewrite Hf. }
    assert (length older ≤ N.to_nat t)%nat as Hle by (rewrite Hold, length_lastn; lia).
    rewrite lastn_short in Htr by done. rewrite <- Hold. split; [exact Htr|].
    rewrite Hflag, (proj2 (N.ltb_ge _ _)) by lia. done.
Qed.

(** Six thousand lines were written and the 200 older than the newest 4900 are asked for:
    a hundred come, and nothing says that there are more. *)
Example clamped_page_unflagged :
  let written := List.repeat "up" (N.to_nat 6000) in
  let '(answer, truncated) := select_window 200 4900 (lastn (N.to_nat (query_fetch 200 4900)) written) in
  length answer = 100%nat ∧ truncated = false ∧ length (past 4900 written) = 1100%nat.
Proof. vm_compute. done. Qed.

Lemma select_window_spec_witness :
  select_window 2 1 (lastn (N.to_nat (query_fetch 2 1)) ["a"; "b"; "c"; "d"; "e"]) = (["c"; "d"], false)
  ∧ ∃ trimmed, trims (4 * 2 ^ 20) (lastn 2 (past 1 ["a"; "b"; "c"; "d"; "e"])) trimmed ["c"; "d"] ∧ false = bool_decide (trimmed ≠ []).
Proof.
  split; [vm_compute; reflexivity|].
  pose proof (select_window_spec 2 1 (lastn (N.to_nat (query_fetch 2 1)) ["a"; "b"; "c"; "d"; "e"])) as Ht.
  change (select_window 2 1 _) with (["c"; "d"], false) in Ht. destruct Ht as (trimmed & _ & _ & Ht).
  exists trimmed. exact (Ht ["a"; "b"; "c"; "d"; "e"] eq_refl).
Defined.

(** ** The agent's own log *)

Section agent_log.
Context `{LogRuntime}.

(** Every line with the time and rank it counts for: a line that is no record belongs to
    the record before it. *)
Fixpoint dated (stamp : option Z) (rank : N) (lines : list string) : list (string * option Z * N) :=
  match lines with
  | [] => []
  | raw :: rest =>
      if blank raw then dated stamp rank rest
      else match renderAgentLogLine raw with
           | (text, stamp', rank', true) => (text, stamp', rank') :: dated stamp' rank' rest
           | (text, _, _, false) => (text, stamp, rank) :: dated stamp rank rest
           end
  end.

Definition wanted (q : AgentLogQuery) (line : string * option Z * N) : bool :=
  let '(_, stamp, rank) := line in
  negb ((rank <? levelRank (to_lower (trim_space (aq_MinLevel q))))%N
        || before stamp (aq_Since q) || before (aq_Until q) stamp).

(** The reference: all wanted lines of all files. *)
Definition matching (q : AgentLogQuery) (lines : list string) : list string :=
  (λ l, l.1.1) <$> List.filter (wanted q) (dated None defaultLevelRank lines).

Lemma scan_lines q n lines : (0 < n)%N → ∀ s pre,
  sc_kept s = lastn (N.to_nat n) pre → sc_truncated s = (N.to_nat n <? length pre)%nat →
  let s' := foldl (scan_agent_line q n) s lines in
  let all := (pre ++ ((λ l, l.1.1) <$> List.filter (wanted q) (dated (sc_lastStamp s) (sc_lastRank s) lines)))%list in
  sc_kept s' = lastn (N.to_nat n) all ∧ sc_truncated s' = (N.to_nat n <? length all)%nat.
Proof.
  intros Hn. induction lines as [|raw rest IH]; intros s pre Hk Ht; [simpl; by rewrite app_nil_r|].
  cbn [foldl dated]. unfold scan_agent_line at 2 4. destruct (blank raw); [by apply IH|].
  destruct (renderAgentLogLine raw) as [[[text stamp'] rank'] parsed].
  assert (∀ stamp rank oldest, 
    let s1 := {| sc_kept := sc_kept s; sc_truncated := sc_truncated s; sc_oldest := oldest;
                 sc_lastStamp := stamp; sc_lastRank := rank |} in
    let s2 := {| sc_kept := push (N.to_nat n) (sc_kept s) text;
            sc_truncated := sc_truncated s || (length (sc_kept s) =? N.to_nat n)%nat;
            sc_oldest := oldest; sc_lastStamp := stamp; sc_lastRank := rank |} in
    let s' := foldl (scan_agent_line q n) (if (rank <? levelRank (to_lower (trim_space (aq_MinLevel q))))%N
       || before stamp (aq_Since q) || before (aq_Until q) stamp then s1 else s2) rest in
    let all := (pre ++ ((λ l, l.1.1) <$> List.filter (wanted q) ((text, stamp, rank) :: dated stamp rank rest)))%list in
    sc_kept s' = lastn (N.to_nat n) all ∧ sc_truncated s' = (N.to_nat n <? length all)%nat) as Hstep.
  { intros stamp rank oldest s1 s2 s' all. subst s' all. cbn [List.filter wanted].
    destruct ((rank <? _)%N || _ || _); cbn [negb fmap list_fmap].
    - by apply (IH s1 pre).
    - assert ((pre ++ text :: ((λ l, l.1.1) <$> List.filter (wanted q) (dated stamp rank rest)))%list
        = ((pre ++ [text]) ++ ((λ l, l.1.1) <$> List.filter (wanted q) (dated stamp rank rest)))%list) as Hl
        by (by rewrite <- app_assoc).
      cbn [fst]. change (list_fmap _ _ (λ l : string * option Z * N, l.1.1)) with (fmap (M:=list) (λ l : string * option Z * N, l.1.1)).
      rewrite Hl. apply (IH s2 (pre ++ [text])%list); subst s2; cbn [sc_kept sc_truncated].
      + rewrite Hk. apply push_lastn. lia.
      + rewrite Ht, Hk, length_lastn, length_app. simpl.
        destruct (Nat.ltb_spec (N.to_nat n) (length pre)), (Nat.eqb_spec (Nat.min (N.to_nat n) (length pre)) (N.to_nat n)),
          (Nat.ltb_spec (N.to_nat n) (length pre + 1)); simpl; try done; lia. }
  destruct parsed; apply Hstep.
Qed.

(** C36: the streaming scan of the agent's log files, which keeps a sliding window and carries
    the time and severity of a record over to the raw lines after it, answers exactly as
    the reference that filters the whole log and takes its newest lines: the newest
    [tail] matching lines (trimmed to 4 MiB), truncated exactly if there were more. *)
Theorem QueryAgentLog_reference q files :
  let all := matching q (concat (omap id files)) in
  let newest := lastn (N.to_nat (agent_tail q)) all in
  ar_Lines (QueryAgentLog q files) = (trimToBytes newest MaxQueryBytes).1
  ∧ ar_Truncated (QueryAgentLog q files)
    = (N.to_nat (agent_tail q) <? length all)%nat || (trimToBytes newest MaxQueryBytes).2.
Proof.
  assert (0 < agent_tail q)%N as Hn.
  { unfold agent_tail, MaxAgentLogLines, DefaultAgentLogLines. destruct (N.eqb_spec (aq_Tail q) 0); lia. }
  destruct (scan_lines q (agent_tail q) (concat (omap id files)) Hn scan_start []) as [Hk Ht]; [done..|].
  unfold QueryAgentLog. simpl in Hk, Ht |- *. fold (matching q (concat (omap id files))) in Hk, Ht.
  rewrite Hk, Ht. by destruct (trimToBytes _ _).
Qed.
End agent_log.
