(* ===== verification/LogManager.v ===== *)
(** * The log manager (src/src/logging/applog.go, the log table of persistence/database.go)

    Log processes on a heap (they are shared pointers), the map of the active ones, the
    list of all channel streams, and the table of stored histories.  A subscription on
    the router opens the gate of a process; a stream is read into its history and, while
    the gate is open, into its batcher. *)
From S2P Require Import Prelude Errdefs GoValue Common Records Effects HostPorts World LogText.
Open Scope go_scope.

(** ** Data *)

Record LogProccess := {
  lp_SubscriptionID : string;
  lp_ContainerName : string;
  lp_Stream : option nat;
  lp_ChannelStream : option nat;
  lp_logHistory : list LogEntry;
  lp_Publish : bool;
  lp_Active : bool;
}.

Definition set_gate (id : string) (publish : bool) (p : LogProccess) : LogProccess :=
  {| lp_SubscriptionID := id; lp_ContainerName := lp_ContainerName p; lp_Stream := lp_Stream p;
     lp_ChannelStream := lp_ChannelStream p; lp_logHistory := lp_logHistory p; lp_Publish := publish;
     lp_Active := lp_Active p |}.
Definition set_Active (v : bool) (p : LogProccess) : LogProccess :=
  {| lp_SubscriptionID := lp_SubscriptionID p; lp_ContainerName := lp_ContainerName p; lp_Stream := lp_Stream p;
     lp_ChannelStream := lp_ChannelStream p; lp_logHistory := lp_logHistory p; lp_Publish := lp_Publish p;
     lp_Active := v |}.
Definition set_Stream (v : option nat) (p : LogProccess) : LogProccess :=
  {| lp_SubscriptionID := lp_SubscriptionID p; lp_ContainerName := lp_ContainerName p; lp_Stream := v;
     lp_ChannelStream := lp_ChannelStream p; lp_logHistory := lp_logHistory p; lp_Publish := lp_Publish p;
     lp_Active := lp_Active p |}.
Definition set_logHistory (v : list LogEntry) (p : LogProccess) : LogProccess :=
  {| lp_SubscriptionID := lp_SubscriptionID p; lp_ContainerName := lp_ContainerName p; lp_Stream := lp_Stream p;
     lp_ChannelStream := lp_ChannelStream p; lp_logHistory := v; lp_Publish := lp_Publish p;
     lp_Active := lp_Active p |}.

(** A row of [LogHistory]; the log column is the decoded list. *)
Record log_row := { lr_app_name : string; lr_app_key : N; lr_stage : Stage; lr_log_type : string; lr_log : list string }.

(** The active logs are a Go map: the list is in the order an iteration visits it. *)
Record LogWorld := {
  lw_heap : gmap nat LogProccess;
  lw_next : nat;
  lw_active : list (string * nat);
  lw_entries : list nat;
  lw_rows : list log_row;
}.

Definition put_heap (v : gmap nat LogProccess) (w : LogWorld) : LogWorld :=
  {| lw_heap := v; lw_next := lw_next w; lw_active := lw_active w; lw_entries := lw_entries w; lw_rows := lw_rows w |}.
Definition put_log_active (v : list (string * nat)) (w : LogWorld) : LogWorld :=
  {| lw_heap := lw_heap w; lw_next := lw_next w; lw_active := v; lw_entries := lw_entries w; lw_rows := lw_rows w |}.
Definition put_entries (v : list nat) (w : LogWorld) : LogWorld :=
  {| lw_heap := lw_heap w; lw_next := lw_next w; lw_active := lw_active w; lw_entries := v; lw_rows := lw_rows w |}.
Definition put_rows (v : list log_row) (w : LogWorld) : LogWorld :=
  {| lw_heap := lw_heap w; lw_next := lw_next w; lw_active := lw_active w; lw_entries := lw_entries w; lw_rows := v |}.

(** A stream or channel is read to its end: the lines it yields, and what ended it. *)
Inductive LogCall : Type → Type :=
  | LogDb (step : db_step) : LogCall (unit + error)
  | PublishLog (topic : string) (payload : goval) : LogCall (unit + error)
  | MatchSubscription (topic : string) : LogCall (list goval + error)
  | StreamLines (stream : nat) : LogCall (list string * option error)
  | ChannelLines (channel : nat) : LogCall (list string)
  | LineArrives (chunk : string) : LogCall unit
  | BatchLine (chunk : string) : LogCall unit
  | BatchClose : LogCall unit
  | CloseStream (stream : nat) : LogCall unit
  | ContainerFollow (containerName : string) : LogCall (option nat + error)
  | ContainerTail (containerName : string) : LogCall (list string + error)
  | ComposeTail (name : string) : LogCall (list string + error)
  | ContainerLogs (containerName : string) (query : LogQuery) : LogCall (string + error)   (* what could be read *)
  | ComposeLogs (name : string) (query : LogQuery) : LogCall (string + error)
  | ComposeProjects : LogCall (list string + error)
  | ComposeFollow (project : string) : LogCall (nat + error)
  | HasApp (appKey : N) (stage : Stage) : LogCall (bool + error)
  | AllApps : LogCall (list App + error)
  (* goroutines started and not waited for *)
  | GoClearHistory (containerName : string) : LogCall unit
  | GoStreamCleanup (process : nat) : LogCall unit
  | GoPublishStored (process : nat) : LogCall unit
  | GoEmit (process : nat) : LogCall unit
  | GoConsume (process : nat) : LogCall unit.

Abbreviation Logs := (M LogCall LogWorld).
Abbreviation log_env := (env LogCall LogWorld).
Abbreviation log_state := (state LogCall LogWorld).

(** ** Stored histories *)

Definition log_db (s : db_step) : Logs unit := callE (LogDb s).

Definition log_row_for (name : string) (key : N) (stage : Stage) (r : log_row) : bool :=
  String.eqb (lr_app_name r) name && (lr_app_key r =? key)%N && bool_decide (lr_stage r = stage).

Definition write_logs (logs : list string) (r : log_row) : log_row :=
  {| lr_app_name := lr_app_name r; lr_app_key := lr_app_key r; lr_stage := lr_stage r;
     lr_log_type := lr_log_type r; lr_log := logs |}.

(** [QueryUpdateLogHistoryEntries] and [QueryUpsertLogHistoryEntry]. *)
Definition update_log_rows (name : string) (key : N) (stage : Stage) (logs : list string) (rows : list log_row) : list log_row :=
  map (λ r, if log_row_for name key stage r then write_logs logs r else r) rows.

Definition upsert_log_row (name : string) (key : N) (stage : Stage) (logs : list string) (rows : list log_row) : list log_row :=
  if existsb (λ r, log_row_for name key stage r && String.eqb (lr_log_type r) "APP") rows
  then map (λ r, if log_row_for name key stage r && String.eqb (lr_log_type r) "APP" then write_logs logs r else r) rows
  else (rows ++ [{| lr_app_name := name; lr_app_key := key; lr_stage := stage; lr_log_type := "APP"; lr_log := logs |}])%list.

Definition ClearAllLogHistory (name : string) (key : N) (stage : Stage) : Logs unit :=
  log_db DbPrepare;; log_db DbExec;;
  modify (λ w, put_rows (update_log_rows name key stage [] (lw_rows w)) w).

(** One transaction: nothing is visible before the commit. *)
Definition UpsertLogHistory (name : string) (key : N) (stage : Stage) (logs : list string) : Logs unit :=
  log_db DbBegin;; log_db DbPrepare;; log_db DbExec;; log_db DbPrepare;; log_db DbExec;; log_db DbCommit;;
  modify (λ w, put_rows (update_log_rows name key stage logs (upsert_log_row name key stage logs (lw_rows w))) w).

Definition no_logs (key : N) (stage : Stage) : error :=
  Plain ("no logs found for " +:+ itoa key +:+ " (" +:+ stage_string stage +:+ ") ").

(** The first row of the app key and stage, whatever its name and type. *)
Definition GetAppLogHistory (name : string) (key : N) (stage : Stage) : Logs (list string) :=
  log_db DbPrepare;; log_db DbQuery;;
  let! rows := gets lw_rows in
  match List.find (λ r, (lr_app_key r =? key)%N && bool_decide (lr_stage r = stage)) rows with
  | None => log_db DbClose;; throw (no_logs key stage)
  | Some r => log_db DbScan;; log_db DbClose;; ret (lr_log r)
  end.

(** ** Log processes *)

Definition read_process (p : nat) : Logs LogProccess :=
  let! a := gets (λ w, lw_heap w !! p) in
  match a with Some a => ret a | None => panic end.
Definition update_process (p : nat) (f : LogProccess → LogProccess) : Logs unit :=
  modify (λ w, put_heap (alter f p (lw_heap w)) w).
Definition new_process (a : LogProccess) : Logs nat :=
  let! p := gets lw_next in
  modify (λ w, {| lw_heap := <[p := a]> (lw_heap w); lw_next := S p; lw_active := lw_active w;
                  lw_entries := lw_entries w; lw_rows := lw_rows w |});;
  ret p.
Definition active_log (containerName : string) : Logs (option nat) :=
  gets (λ w, map_get containerName (lw_active w)).
Definition set_active_log (containerName : string) (p : nat) : Logs unit :=
  modify (λ w, put_log_active (map_set containerName p (lw_active w)) w).

Definition blank_process (containerName : string) (stream channel : option nat) : LogProccess :=
  {| lp_SubscriptionID := ""; lp_ContainerName := containerName; lp_Stream := stream;
     lp_ChannelStream := channel; lp_logHistory := []; lp_Publish := false; lp_Active := false |}.

Section manager.
Context `{Host} `{GoRuntime} `{LogRuntime}.

Definition buildTopic (containerName : string) : string :=
  "reswarm.logs." +:+ cfg_SerialNumber config +:+ "." +:+ containerName.

Definition publish_to (containerName : string) (payload : goval) : Logs unit :=
  callE (PublishLog (buildTopic containerName) payload).

Definition build_chunk (text : string) : goval := VMap [("type", VStr "build"); ("chunk", VStr text)].

Definition PublishProgress (containerName id status progress : string) : Logs unit :=
  publish_to containerName (VMap [("id", VStr id); ("status", VStr status); ("progress", VStr progress)]).

Definition Publish (containerName text : string) : Logs unit := publish_to containerName (build_chunk text).

Definition ClearRemote (containerName : string) : Logs unit := Publish containerName "LOGGER_CLEAR".

Definition Write (containerName text : string) : Logs unit :=
  let! activeLog := active_log containerName in
  match activeLog with
  | Some p => update_process p (λ a, set_logHistory (agent_entry (lp_logHistory a) text) a)
  | None => ret tt
  end;;
  publish_to containerName (build_chunk text).

Definition ClearLogHistory (containerName : string) : Logs unit :=
  let! activeLog := active_log containerName in
  match activeLog with
  | Some p => update_process p (set_logHistory [])
  | None => ret tt
  end;;
  call (GoClearHistory containerName).

(** The goroutine of [ClearLogHistory]. *)
Definition clear_stored_history (containerName : string) : Logs unit :=
  match ParseContainerName containerName with
  | inr _ => ret tt
  | inl (stage, appKey, appName) => ignore (ClearAllLogHistory appName appKey stage)
  end.

(** *** Subscriptions *)

Definition subscription_id (arguments : list goval) : string :=
  match arguments with
  | [] => ""
  | VNil :: _ => ""
  | VList [] :: _ => ""
  | VList (id :: _) :: _ => sprint id
  | ids :: _ => sprint ids
  end.

Definition getActiveSubscriptionID (containerName : string) : Logs string :=
  let! arguments := callE (MatchSubscription (buildTopic containerName)) in
  ret (subscription_id arguments).

(** A process whose gate is open if somebody listens already. *)
Definition with_subscription (id : string) (p : LogProccess) : LogProccess :=
  if String.eqb id "" then p else set_gate id true p.

(** The steps of the two subscription events, which run on goroutines of their own. *)
Definition setPublishStateByContainerName (containerName id : string) (publish : bool) (w : LogWorld) : LogWorld :=
  put_heap (foldr (λ p h, match h !! p with
                          | Some a => if String.eqb (lp_ContainerName a) containerName
                                      then <[p := set_gate id publish a]> h else h
                          | None => h
                          end) (lw_heap w) (lw_entries w)) w.

Definition adopt_subscription (id : string) (p : nat) (w : LogWorld) : LogWorld :=
  put_heap (alter (set_gate id true) p (lw_heap w)) w.

(** The URI of a log topic of this device: the container's name. *)
Definition log_topic (uri : string) : option string :=
  if has_prefix "reswarm.logs." uri then
    match split_on "." uri with
    | _ :: _ :: serialNumber :: containerName :: _ =>
        if String.eqb serialNumber (cfg_SerialNumber config) then Some containerName else None
    | _ => None
    end
  else None.

Definition on_create (uri id : string) : Logs unit :=
  match log_topic uri with
  | None => ret tt
  | Some containerName =>
      modify (setPublishStateByContainerName containerName id true);;
      let! activeLog := active_log containerName in
      match activeLog with
      | Some p => modify (adopt_subscription id p)
      | None =>
          let! p := new_process (set_gate id true (blank_process containerName None None)) in
          set_active_log containerName p
      end
  end.

Definition task_of (id : string) (w : LogWorld) : option nat :=
  snd <$> List.find (λ kp, match lw_heap w !! kp.2 with
                           | Some a => String.eqb (lp_SubscriptionID a) id | None => false end) (lw_active w).

Definition GetLogTaskBySubscriptionID (id : string) : Logs (option nat) := gets (task_of id).

(** The check and the set are one critical section. *)
Definition close_gate (id : string) (a : LogProccess) : LogProccess :=
  if String.eqb (lp_SubscriptionID a) id then set_gate (lp_SubscriptionID a) false a else a.

Definition on_delete (id : string) : Logs unit :=
  let! subscription := GetLogTaskBySubscriptionID id in
  match subscription with
  | None => ret tt
  | Some p => update_process p (close_gate id)
  end.

(** *** Reading streams *)

(** One line of a stream: into the history and, with an open gate, into the batcher. *)
Definition emit_line (p : nat) (chunk : string) : Logs unit :=
  call (LineArrives chunk);;
  update_process p (λ a, set_logHistory (stream_entry (lp_logHistory a) chunk) a);;
  let! a := read_process p in
  when (lp_Publish a) (call (BatchLine chunk)).

(** The deferred calls of a reader: the batcher's last flush, then the cleanup goroutine. *)
Definition emitting {A} (p : nat) (body : Logs A) : Logs A :=
  finally (finally (update_process p (set_Active true);; body) (call BatchClose)) (call (GoStreamCleanup p)).

Definition emitChannelStream (p : nat) : Logs unit :=
  let! a := read_process p in
  match lp_ChannelStream a with
  | None => ret tt
  | Some channel =>
      if lp_Active a then ret tt
      else emitting p (let! chunks := call (ChannelLines channel) in for_each chunks (emit_line p))
  end.

Definition closed_connection : string := "use of closed network connection".

(** How a stream ended: canceled, broken, with an error as its last line, or well. *)
Definition stream_result (chunks : list string) (broken : option error) : option error :=
  match broken with
  | Some e => Some (if str_contains closed_connection (error_text e) then DockerStreamCanceled e else e)
  | None =>
      let message := json_error_field (List.last chunks "") in
      if String.eqb message "" then None else Some (Plain message)
  end.

Definition emitStream (p : nat) : Logs unit :=
  let! a := read_process p in
  match lp_Stream a with
  | None => ret tt
  | Some stream =>
      if lp_Active a then ret tt
      else emitting p (
        let! lines := call (StreamLines stream) in
        for_each lines.1 (emit_line p);;
        match stream_result lines.1 lines.2 with Some e => throw e | None => ret tt end)
  end.

(** The cleanup goroutine: the history goes to the database. *)
Definition stream_cleanup (p : nat) : Logs unit :=
  update_process p (set_Active false);;
  let! a := read_process p in
  (match lp_Stream a with Some stream => call (CloseStream stream) | None => ret tt end);;
  match ParseContainerName (lp_ContainerName a) with
  | inr _ => ret tt
  | inl (stage, appKey, appName) =>
      let! a := read_process p in
      let! r := try_ (UpsertLogHistory appName appKey stage (logEntriesToString (lp_logHistory a))) in
      match r with
      | inr _ => ret tt
      | inl _ => call (GoPublishStored p)
      end
  end.

Definition initLogStream (containerName : string) (stream : nat) : Logs unit :=
  let! existing := active_log containerName in
  match existing with
  | Some p => update_process p (set_Stream (Some stream));; emitStream p
  | None =>
      let! id := try_ (getActiveSubscriptionID containerName) in
      match id with
      | inr e => call (CloseStream stream);; throw e
      | inl id =>
          let! p := new_process (with_subscription id (blank_process containerName (Some stream) None)) in
          set_active_log containerName p;;
          emitStream p
      end
  end.

Definition StreamBlocking (containerName : string) (reader : option nat) : Logs unit :=
  match reader with Some stream => initLogStream containerName stream | None => ret tt end.

(** The goroutine of [Stream]: the stream of the container, else the one passed in. *)
Definition stream_container (containerName : string) (otherReader : option nat) : Logs unit :=
  let! r := call (ContainerFollow containerName) in
  match r with
  | inr e => if negb (IsContainerNotFound e) then ret tt else ignore (StreamBlocking containerName otherReader)
  | inl (Some stream) => ignore (initLogStream containerName stream)
  | inl None => ignore (StreamBlocking containerName otherReader)
  end.

Definition addLogProcess (p : nat) : Logs unit :=
  let! a := read_process p in
  let! known := gets (λ w, existsb (λ q, bool_decide (lp_ChannelStream <$> lw_heap w !! q = Some (lp_ChannelStream a)))
                                   (lw_entries w)) in
  if known then ret tt
  else
    modify (λ w, put_entries (lw_entries w ++ [p])%list w);;
    set_active_log (lp_ContainerName a) p;;
    call (GoConsume p).

Definition StreamLogsChannel (channel : nat) (containerName : string) : Logs nat :=
  let! id := getActiveSubscriptionID containerName in
  let! p := new_process (with_subscription id (blank_process containerName None (Some channel))) in
  addLogProcess p;;
  ret p.

(** *** Histories *)

(** The first active process of the container with a non-empty history. *)
Definition live_history (containerName : string) (w : LogWorld) : option (list LogEntry) :=
  (fix go (l : list (string * nat)) : option (list LogEntry) :=
    match l with
    | [] => None
    | (_, p) :: rest =>
        match lw_heap w !! p with
        | Some a => if String.eqb (lp_ContainerName a) containerName
                    then match lp_logHistory a with [] => go rest | h => Some h end else go rest
        | None => go rest
        end
    end) (lw_active w).

Definition getPersistedLogHistory (containerName : string) : Logs (list LogEntry) :=
  let! live := gets (live_history containerName) in
  match live with
  | Some h => ret h
  | None =>
      match ParseContainerName containerName with
      | inr e => throw e
      | inl (stage, appKey, appName) =>
          let! app := try_ (callE (HasApp appKey stage)) in
          match app with
          | inl true =>
              let! logs := try_ (GetAppLogHistory appName appKey stage) in
              ret match logs with
                  | inl l => (λ line, {| le_entry := line; le_logType := CONTAINER |}) <$> l
                  | inr _ => []
                  end
          | _ => ret []
          end
      end
  end.

Definition or_none (m : Logs (list string)) : Logs (list string) :=
  let! r := try_ m in
  ret match r with inl l => l | inr _ => [] end.

Definition getNonAgentLogs (containerName : string) : Logs (list string) :=
  let! history := getPersistedLogHistory containerName in
  if containsOnlyAgentLogs history then or_none (callE (ContainerTail containerName)) else ret [].

Definition getNonAgentLogsCompose (containerName : string) : Logs (list string) :=
  let! history := getPersistedLogHistory containerName in
  if containsOnlyAgentLogs history then or_none (callE (ComposeTail (containerName +:+ "_compose"))) else ret [].

Definition GetLogHistory (containerName : string) : Logs (list string) :=
  let! history := getPersistedLogHistory containerName in
  if containsOnlyAgentLogs history then
    let! tail := or_none (callE (ContainerTail containerName)) in
    ret (logEntriesToString history ++ tail)%list
  else ret (logEntriesToString history).

(** *** Windowed queries *)

Definition sourceDocker : string := "docker".
Definition sourceCompose : string := "compose".
Definition sourceHistory : string := "history".

(** The bounds in time travel with the query: the stored history knows none. *)
Definition readWindow (containerName : string) (query : LogQuery) : Logs (list string * string) :=
  let! r := call (ContainerLogs containerName query) in
  match r with
  | inl text => ret (scanLines text, sourceDocker)
  | inr err =>
      if negb (IsContainerNotFound err) then throw err
      else
        let! c := call (ComposeLogs (containerName +:+ "_compose") query) in
        match c with
        | inl text => ret (scanLines text, sourceCompose)
        | inr _ =>
            let! history := try_ (GetLogHistory containerName) in
            match history with
            | inl lines => ret (lines, sourceHistory)
            | inr _ => throw err
            end
        end
  end.

Definition oldestAvailable (containerName : string) : Logs (option Z) :=
  let! r := call (ContainerLogs containerName {| cq_Tail := 0; cq_Since := ""; cq_Until := ""; cq_Timestamps := true |}) in
  ret (match r with inl text => first_stamp text | inr _ => None end).

Definition empty_name : error := Plain "container name is empty".

Definition QueryLogs (r : LogQueryRequest) : Logs LogQueryResult :=
  if blank (lq_ContainerName r) then throw empty_name
  else
    let! (lines, source) := readWindow (lq_ContainerName r) (window_query r) in
    let '(lines, truncated) := select_window (lq_Tail r) (lq_Offset r) lines in
    let! oldest := if String.eqb source sourceDocker then oldestAvailable (lq_ContainerName r) else ret None in
    ret {| lr_Lines := lines; lr_Source := source; lr_Truncated := truncated; lr_OldestAvailable := oldest |}.

(** *** Reviving *)

(** One app of [ReviveDeadLogs]; [result.Arguments[0]] is read even when the call failed. *)
Definition revive (projects : list string) (app : App) : Logs unit :=
  let containerName := BuildContainerName (app_Stage app) (app_AppKey app) (app_AppName app) in
  let! existing := active_log containerName in
  let! alive := match existing with
                | Some p => let! a := read_process p in ret (lp_Active a && bool_decide (is_Some (lp_Stream a)))
                | None => ret false
                end in
  if alive then ret tt
  else
    let! result := call (MatchSubscription (buildTopic containerName)) in
    match result with
    | inr _ | inl [] => panic
    | inl (id :: _) =>
        let composeAppName := BuildComposeContainerName (app_Stage app) (app_AppKey app) (app_AppName app) in
        if existsb (String.eqb composeAppName) projects then
          let! stream := call (ComposeFollow composeAppName) in
          match stream with
          | inr _ => ret tt
          | inl channel => ignore (StreamLogsChannel channel containerName)
          end
        else
          let! r := call (ContainerFollow containerName) in
          let reader := match r with inl stream => stream | inr _ => None end in
          let process := blank_process containerName reader None in
          let! p := new_process (match id with VNil => process | _ => set_gate (sprint id) true process end) in
          set_active_log containerName p;;
          match reader with Some _ => call (GoEmit p) | None => ret tt end
    end.

Definition ReviveDeadLogs : Logs unit :=
  let! appStates := callE AllApps in
  let! projects := callE ComposeProjects in
  background (for_each appStates (revive projects)).
End manager.
