(* ===== verification/LogManagerSpec.v ===== *)
(** * Properties of the log manager

    The gate of a log process under concurrent subscription events, the revival of log
    streams after a reconnect, the sources of a windowed query, and the stored histories. *)
From S2P Require Import Prelude Errdefs GoValue Common Records Effects HostPorts World LogText LogManager Examples.
Open Scope go_scope.

(** ** Interleavings *)

Inductive interleave {A} : list A → list A → list A → Prop :=
  | interleave_nil : interleave [] [] []
  | interleave_left x l r s : interleave l r s → interleave (x :: l) r (x :: s)
  | interleave_right x l r s : interleave l r s → interleave l (x :: r) (x :: s).

(** What holds after the steps of one goroutine, when the steps of the other preserve it
    at every point. *)
Lemma interleave_run {A S} (f : S → A → S) (J : list A → S → Prop) l r s a :
  interleave l r s →
  (∀ x l' a, J (x :: l') a → J l' (f a x)) → (∀ x l' a, x ∈ r → J l' a → J l' (f a x)) →
  J l a → J [] (foldl f a s).
Proof.
  intros Hs Hl. revert a. induction Hs as [|x l r s Hs IH|x l r s Hs IH]; intros a Hr Ha; simpl; [done| |].
  - apply IH; [done|]. by apply Hl.
  - apply IH; [intros y l' b Hy; apply Hr; by right|]. apply Hr; [by left|done].
Qed.

(** ** The gate *)

Section gate.
Context `{Host} `{GoRuntime} `{LogRuntime}.

(** Both event handlers cut into their atomic steps, with the pointer each has read. *)
Record gate_run := { gr_world : LogWorld; gr_created : option nat; gr_deleted : option nat }.

Inductive gate_step :=
  | OpenAll (name id : string)
  | FindActive (name : string)
  | Adopt (name id : string)
  | FindTask (id : string)
  | CloseGate (id : string).

Definition insert_process (name id : string) (w : LogWorld) : LogWorld :=
  {| lw_heap := <[lw_next w := set_gate id true (blank_process name None None)]> (lw_heap w);
     lw_next := S (lw_next w); lw_active := map_set name (lw_next w) (lw_active w);
     lw_entries := lw_entries w; lw_rows := lw_rows w |}.

Definition gate_exec (r : gate_run) (s : gate_step) : gate_run :=
  let w := gr_world r in
  let on w' := {| gr_world := w'; gr_created := gr_created r; gr_deleted := gr_deleted r |} in
  match s with
  | OpenAll name id => on (setPublishStateByContainerName name id true w)
  | FindActive name => {| gr_world := w; gr_created := map_get name (lw_active w); gr_deleted := gr_deleted r |}
  | Adopt name id => on match gr_created r with
                        | Some p => adopt_subscription id p w
                        | None => insert_process name id w
                        end
  | FindTask id => {| gr_world := w; gr_created := gr_created r; gr_deleted := task_of id w |}
  | CloseGate id => on match gr_deleted r with
                       | Some p => put_heap (alter (close_gate id) p (lw_heap w)) w
                       | None => w
                       end
  end.

Definition create_steps (name id : string) : list gate_step := [OpenAll name id; FindActive name; Adopt name id].
Definition delete_steps (id : string) : list gate_step := [FindTask id; CloseGate id].

Definition gate_start (w : LogWorld) : gate_run := {| gr_world := w; gr_created := None; gr_deleted := None |}.

(** The steps, run without interruption, are the handlers. *)
Lemma on_create_steps en uri name id st : log_topic uri = Some name →
  world (on_create uri id en st).2 = gr_world (foldl gate_exec (gate_start (world st)) (create_steps name id)).
Proof.
  intros Hu. unfold on_create. rewrite Hu. simpl. unfold bind at 1, modify. cbn [world Effects.log].
  unfold bind, active_log, gets. cbn [world Effects.log].
  by destruct (map_get name _).
Qed.

Lemma on_delete_steps en id st :
  world (on_delete id en st).2 = gr_world (foldl gate_exec (gate_start (world st)) (delete_steps id)).
Proof.
  unfold on_delete, GetLogTaskBySubscriptionID, gets, bind. simpl. by destruct (task_of id (world st)).
Qed.

(** Every pointer of the active logs is valid. *)
Definition pointers_valid (w : LogWorld) : Prop :=
  (∀ name p, map_get name (lw_active w) = Some p → is_Some (lw_heap w !! p)).

(** The container's gate is open for subscription [id]. *)
Definition gate_open (name id : string) (w : LogWorld) : Prop :=
  ∃ p a, map_get name (lw_active w) = Some p ∧ lw_heap w !! p = Some a
         ∧ lp_Publish a = true ∧ lp_SubscriptionID a = id.

Lemma open_all_entry name id w p :
  lw_heap (setPublishStateByContainerName name id true w) !! p = lw_heap w !! p
  ∨ ∃ a, lw_heap w !! p = Some a ∧ lw_heap (setPublishStateByContainerName name id true w) !! p = Some (set_gate id true a).
Proof.
  unfold setPublishStateByContainerName. simpl. induction (lw_entries w) as [|q l IH]; simpl; [by left|].
  set (h := foldr _ _ l) in *. destruct (h !! q) as [a|] eqn:E; [|done].
  destruct (String.eqb (lp_ContainerName a) name); [|done].
  destruct (decide (p = q)) as [->|Hne]; [|by rewrite lookup_insert_ne].
  rewrite lookup_insert_eq. right. rewrite E in IH. destruct IH as [IH|(b & Hb & IH)].
  - exists a. by rewrite <- IH.
  - injection IH as ->. by exists b.
Qed.

(** What holds while the steps in [todo] of the creation are still to come. *)
Definition gate_inv (name id : string) (todo : list gate_step) (r : gate_run) : Prop :=
  pointers_valid (gr_world r) ∧
  match todo with
  | [] => gate_open name id (gr_world r)
  | [OpenAll _ _; FindActive _; Adopt _ _] => todo = create_steps name id
  | [FindActive _; Adopt _ _] => todo = [FindActive name; Adopt name id]
  | [Adopt _ _] => todo = [Adopt name id] ∧ gr_created r = map_get name (lw_active (gr_world r))
  | _ => False
  end.

Lemma gate_created name id x todo r : gate_inv name id (x :: todo) r → gate_inv name id todo (gate_exec r x).
Proof.
  intros [Hv Hr].
  destruct x as [n i|n|n i|i|i], todo as [|[n' i'|n'|n' i'|i'|i'] [|[n'' i''|n''|n'' i''|i''|i''] [|]]]; try done; simpl in Hr.
  - injection Hr as -> -> -> -> ->. split; [|done]. intros m p Hp.
    destruct (open_all_entry name id (gr_world r) p) as [He|(a & _ & He)]; simpl in He |- *; rewrite He; [|done].
    by apply (Hv m).
  - by injection Hr as -> -> ->.
  - destruct Hr as [[= -> ->] Hc]. simpl. rewrite Hc.
    destruct (map_get name (lw_active (gr_world r))) as [p|] eqn:E.
    + destruct (Hv name p E) as [a Ha]. split.
      * intros m q Hq. simpl in *. destruct (decide (q = p)) as [->|]; [by rewrite lookup_alter_eq, Ha|].
        rewrite lookup_alter_ne by done. by apply (Hv m).
      * exists p, (set_gate id true a). simpl. rewrite lookup_alter_eq, Ha. done.
    + split.
      * intros m q. simpl. rewrite map_get_set. destruct (String.eqb m name); intros Hq.
        { injection Hq as <-. by rewrite lookup_insert_eq. }
        destruct (decide (q = lw_next (gr_world r))) as [->|]; [by rewrite lookup_insert_eq|].
        rewrite lookup_insert_ne by done. by apply (Hv m).
      * exists (lw_next (gr_world r)). eexists. simpl. by rewrite map_get_set, String.eqb_refl, lookup_insert_eq.
Qed.

Lemma gate_deleted name id old x todo r : old ≠ id → x ∈ delete_steps old →
  gate_inv name id todo r → gate_inv name id todo (gate_exec r x).
Proof.
  intros Hne Hx. unfold delete_steps in Hx.
  apply elem_of_cons in Hx as [->| ->%list_elem_of_singleton]; [by intros|].
  intros [Hv Hr]. simpl. destruct (gr_deleted r) as [p|]; [|done].
  assert (∀ q, lw_heap (put_heap (alter (close_gate old) p (lw_heap (gr_world r))) (gr_world r)) !! q
    = (if decide (q = p) then close_gate old <$> lw_heap (gr_world r) !! q else lw_heap (gr_world r) !! q)) as Hl.
  { intros q. simpl. destruct (decide (q = p)) as [->|]; [by rewrite lookup_alter_eq|by rewrite lookup_alter_ne]. }
  split.
  - intros m q Hq. cbn [gr_world]. rewrite Hl. destruct (Hv m q Hq) as [a ->]. by destruct (decide (q = p)).
  - destruct todo as [|t todo]; [|destruct t; done].
    destruct Hr as (q & a & Hq & Ha & Hp & Hid). exists q, a. cbn [gr_world]. rewrite Hl, Ha. split_and!; [done| |done|done].
    destruct (decide (q = p)); [|done]. simpl. unfold close_gate. rewrite Hid.
    by rewrite (proj2 (String.eqb_neq _ _)) by done.
Qed.

(** C21: a refreshed page keeps its logs: when the subscription of a container is replaced (the
    old one deleted and the new one created on goroutines of their own), then however the
    steps of the two handlers interleave, the container's gate ends open for the new
    subscription; a closing that was decided for the old one no longer takes effect. *)
Theorem gate_survives_refresh name old new_ w sched :
  old ≠ new_ → pointers_valid w →
  interleave (create_steps name new_) (delete_steps old) sched →
  gate_open name new_ (gr_world (foldl gate_exec (gate_start w) sched)).
Proof.
  intros Hne Hv Hs.
  apply (interleave_run gate_exec (gate_inv name new_) _ _ _ (gate_start w) Hs).
  - apply gate_created.
  - intros x todo r Hx. by apply (gate_deleted name new_ old).
  - by split.
Qed.
End gate.

Definition ex_log_world : LogWorld :=
  {| lw_heap := {[ 0%nat := set_gate "17" true (blank_process "prod_7_demo" (Some 3%nat) None) ]}; lw_next := 1;
     lw_active := [("prod_7_demo", 0%nat)]; lw_entries := []; lw_rows := [] |}.

Definition ex_refresh : list gate_step :=
  [FindTask "17"; OpenAll "prod_7_demo" "18"; FindActive "prod_7_demo"; Adopt "prod_7_demo" "18"; CloseGate "17"].

Lemma ex_pointers_valid : pointers_valid ex_log_world.
Proof. intros name p. simpl. destruct (String.eqb name "prod_7_demo"); [|done]. by intros [= <-]. Qed.

(** The deletion reads its task first and closes last: the order that used to wedge the gate. *)
Lemma gate_survives_refresh_witness :
  gate_open "prod_7_demo" "18" (gr_world (foldl gate_exec (gate_start ex_log_world) ex_refresh)).
Proof.
  apply (gate_survives_refresh "prod_7_demo" "17" "18" ex_log_world ex_refresh); [done|exact ex_pointers_valid|].
  repeat constructor.
Defined.

(** ** Reviving streams after a reconnect *)

Section revive.
Context `{Host} `{GoRuntime} `{LogRuntime}.

Definition app_container (app : App) : string := BuildContainerName (app_Stage app) (app_AppKey app) (app_AppName app).
Definition app_project (app : App) : string := BuildComposeContainerName (app_Stage app) (app_AppKey app) (app_AppName app).

(** The router's answers, read as the code that starts a stream reads them: a list. *)
Definition matches (en : log_env) (app : App) (ids : list goval) : Prop :=
  ∀ lg, answer en _ (MatchSubscription (buildTopic (app_container app))) lg = inl [VList ids].

(** after a reconnect the list of matching subscriptions is printed whole and kept as the
    identifier, so the process waits for the deletion of a subscription with a name like
    ["[17]"]: deleting the real one finds no process, and its gate stays open; even an
    empty list opens it. *)
Theorem revived_gate_stays_open en projects app ids st :
  (∀ lg w, interfere en lg w = w) → matches en app ids →
  map_get (app_container app) (lw_active (world st)) = None →
  app_project app ∉ projects →
  let st' := (revive projects app en st).2 in
  gate_open (app_container app) (sprint (VList ids)) (world st').
Proof.
  intros Hq Hm Hn Hp. cbv zeta. unfold revive. fold (app_container app). fold (app_project app).
  unfold bind at 1, active_log, gets. rewrite Hn. unfold bind at 1, ret at 1. cbn [fst snd].
  unfold bind at 1, call at 1. cbn [fst snd]. rewrite Hm, Hq.
  assert (existsb (String.eqb (app_project app)) projects = false) as ->.
  { apply not_true_iff_false. intros (x & Hx & He)%existsb_exists. apply String.eqb_eq in He as <-.
    apply Hp. by apply list_elem_of_In. }
  unfold bind at 1, call at 1. cbn [fst snd]. set (reader := match answer _ _ _ _ with inl s => s | inr _ => None end).
  rewrite Hq. unfold bind, new_process, set_active_log, gets, modify, ret. cbn [world Effects.log fst snd bind].
  assert (∀ (w : LogWorld) lg, lw_active w = map_set (app_container app) (lw_next (world st)) (lw_active (world st)) →
    lw_heap w = <[lw_next (world st) := set_gate (sprint (VList ids)) true (blank_process (app_container app) reader None)]> (lw_heap (world st)) →
    gate_open (app_container app) (sprint (VList ids)) (world (mk_state w lg : log_state))) as Hopen.
  { intros w lg Ha Hh. exists (lw_next (world st)). eexists. simpl. rewrite Ha, Hh, map_get_set_eq, lookup_insert_eq. done. }
  destruct reader as [s|]; [unfold call; cbn [fst snd]; rewrite Hq|]; by apply Hopen.
Qed.

(** one failed lookup ends the whole revival: the answer is used although the call
    failed, the goroutine panics, and no later app gets its log stream back. *)
Theorem revival_stops_at_failed_lookup en projects app rest e st :
  map_get (app_container app) (lw_active (world st)) = None →
  answer en _ (MatchSubscription (buildTopic (app_container app))) (Effects.log st) = inr e →
  background (for_each (app :: rest) (revive projects)) en st
  = (Ok tt, (call (MatchSubscription (buildTopic (app_container app))) en st).2).
Proof.
  intros Hn Hf. unfold background. simpl. unfold revive at 1. fold (app_container app).
  unfold bind at 1. unfold bind at 1, active_log, gets. rewrite Hn. unfold bind at 1, ret at 1.
  unfold bind at 1. unfold call at 1. cbn [fst snd]. rewrite Hf. done.
Qed.
End revive.

(** ** Windowed queries *)

Section windows.
#[local] Set Default Proof Using "Type*".
Context `{Host} `{GoRuntime} `{LogRuntime}.
Variable en : log_env.

Lemma stable_call {T} (c : LogCall T) K : stable en K → keeps en K (call c).
Proof. intros HK. apply keeps_call. intros st r Hst. by apply HK. Qed.

Lemma stable_callE {A} (c : LogCall (A + error)) K : stable en K → keeps en K (callE c).
Proof. intros HK. by apply keeps_callE, stable_call. Qed.

Lemma stored_history_keeps K name key stage : stable en K → keeps en K (GetAppLogHistory name key stage).
Proof.
  intros HK. unfold GetAppLogHistory, log_db. repeat (apply keeps_bind; [by apply stable_callE|intros _]).
  apply keeps_bind; [apply keeps_gets|]. intros rows. destruct (List.find _ rows).
  - repeat (apply keeps_bind; [by apply stable_callE|intros _]). apply keeps_ret.
  - apply keeps_bind; [by apply stable_callE|intros _; apply keeps_throw].
Qed.

(** What was said before is still said after the history was read. *)
Lemma history_keeps K name : stable en K → keeps en K (GetLogHistory name).
Proof.
  intros HK. unfold GetLogHistory. apply keeps_bind.
  - unfold getPersistedLogHistory. apply keeps_bind; [apply keeps_gets|]. intros [h|]; [apply keeps_ret|].
    destruct (ParseContainerName name) as [[[stage key] app]|e]; [|apply keeps_throw]. apply keeps_bind; [by apply keeps_try, stable_callE|].
    intros [[]|e]; try apply keeps_ret. apply keeps_bind; [by apply keeps_try, stored_history_keeps|]. intros. apply keeps_ret.
  - intros history. destruct (containsOnlyAgentLogs history); [|apply keeps_ret]. apply keeps_bind; [|intros; apply keeps_ret].
    unfold or_none. apply keeps_bind; [by apply keeps_try, stable_callE|]. intros. apply keeps_ret.
Qed.

(** Where the lines of a window come from: docker; compose, when docker knows no such
    container; the stored history, when compose has nothing either. *)
Definition window_read (containerName : string) (q : LogQuery) (lines : list string) (source : string) (st : state LogCall LogWorld) : Prop :=
  (source = sourceDocker ∧ ∃ text, seen (ContainerLogs containerName q) (inl text) st ∧ lines = scanLines text)
  ∨ ((∃ e, seen (ContainerLogs containerName q) (inr e) st ∧ IsContainerNotFound e = true)
     ∧ ((source = sourceCompose ∧ ∃ text, seen (ComposeLogs (containerName +:+ "_compose") q) (inl text) st ∧ lines = scanLines text)
        ∨ (source = sourceHistory ∧ ∃ e, seen (ComposeLogs (containerName +:+ "_compose") q) (inr e) st))).

Lemma stable_window_read n q lines source : stable en (window_read n q lines source).
Proof.
  intros st ev Hr. destruct Hr as [(Hs & text & Hd & Hl)|((e & Hd & Hn) & Hr)].
  - left. split; [done|]. exists text. split; [by apply stable_seen|done].
  - right. split; [exists e; split; [by apply stable_seen|done]|]. destruct Hr as [(Hs & text & Hc & Hl)|(Hs & e' & Hc)].
    + left. split; [done|]. exists text. split; [by apply stable_seen|done].
    + right. split; [done|]. exists e'. by apply stable_seen.
Qed.

(** A call is remembered with its answer. *)
Lemma triple_ask {T B} (c : LogCall T) (K : state LogCall LogWorld → Prop) (f : T → Logs B) Q : stable en K →
  (∀ r, triple en (λ st, K st ∧ seen c r st) (f r) Q) → triple en K (bind (call c) f) Q.
Proof.
  intros HK Hf st Hst. unfold bind, call. cbn. apply (Hf (answer en T c (log st))). split; [by apply HK|]. eexists. by left.
Qed.

Lemma readWindow_reads n q : triple en (λ _, True) (readWindow n q) (λ o st, match o with
  | Ok (lines, source) => window_read n q lines source st
  | Err e => seen (ContainerLogs n q) (inr e) st
  | _ => True
  end).
Proof.
  unfold readWindow. apply triple_ask; [apply stable_pure|]. intros [text|e].
  - intros st [_ Hd]. left. split; [done|]. by exists text.
  - destruct (IsContainerNotFound e) eqn:Hn; [|intros st [_ Hd]; exact Hd]. cbn [negb].
    assert (stable en (λ st, True ∧ seen (ContainerLogs n q) (inr e) st)) as Hst.
    { apply stable_and; [apply stable_pure|apply stable_seen]. }
    apply triple_ask; [done|]. intros [text|e'].
    + intros st [[_ Hd] Hc]. right. split; [by exists e|]. left. split; [done|]. by exists text.
    + apply triple_bind with (R := λ _ st, (True ∧ seen (ContainerLogs n q) (inr e) st) ∧ seen (ComposeLogs (n +:+ "_compose") q) (inr e') st).
      * apply triple_try. eapply triple_post; [apply (history_keeps _ n), stable_and; [exact Hst|apply stable_seen]|].
        intros [a|e''| |] st Hk; [exact Hk|exact Hk|done|done].
      * intros [lines|e''] st [[_ Hd] Hc]; [|exact Hd]. right. split; [by exists e|]. right. split; [done|]. by exists e'.
Qed.

Definition first_line_query : LogQuery := {| cq_Tail := 0; cq_Since := ""; cq_Until := ""; cq_Timestamps := true |}.

(** the answer to a query of the logs is a window of what one source said, and says which: the
    stored history only when docker knows no such container and compose has nothing; the time
    of the oldest line is that of the first one docker still has, and unknown elsewhere; an
    error is that of the name or the one docker gave. *)
Theorem query_answers_source r : triple en (λ _, True) (QueryLogs r) (λ o st, match o with
  | Ok res => ∃ lines, window_read (lq_ContainerName r) (window_query r) lines (lr_Source res) st
      ∧ (lr_Lines res, lr_Truncated res) = select_window (lq_Tail r) (lq_Offset r) lines
      ∧ ∀ t, lr_OldestAvailable res = Some t → lr_Source res = sourceDocker
          ∧ ∃ text, seen (ContainerLogs (lq_ContainerName r) first_line_query) (inl text) st ∧ first_stamp text = Some t
  | Err e => e = empty_name ∨ seen (ContainerLogs (lq_ContainerName r) (window_query r)) (inr e) st
  | _ => True
  end).
Proof.
  unfold QueryLogs. destruct (blank _); [intros st _; by left|].
  apply triple_bind with (R := λ p st, window_read (lq_ContainerName r) (window_query r) p.1 p.2 st).
  { eapply triple_post; [apply readWindow_reads|]. intros [[lines source]|e| |] st Hr; [exact Hr|by right|done|done]. }
  intros [lines source]. cbn [fst snd]. destruct (select_window (lq_Tail r) (lq_Offset r) lines) as [shown truncated] eqn:Hsel.
  destruct (String.eqb_spec source sourceDocker) as [->|Hne].
  - unfold oldestAvailable. intros st Hr. unfold bind, call, ret. cbn. exists lines. split; [by apply stable_window_read|]. split; [done|].
    intros t Ht. split; [done|]. unfold first_line_query. destruct (answer en _ _ _) as [text|e] eqn:Ha; [|done]. exists text. split; [|done]. eexists. by left.
  - intros st Hr. exists lines. split; [exact Hr|]. split; [done|]. intros t Ht. done.
Qed.
End windows.

(** ** Examples *)

Definition calm_log {T} (c : LogCall T) : T :=
  match c with
  | LogDb _ | PublishLog _ _ => inl tt
  | MatchSubscription _ => inl [VList [VInt 17]]
  | StreamLines _ => (["starting"; "ready"], None)
  | ChannelLines _ => ["starting"; "ready"]
  | LineArrives _ | BatchLine _ | BatchClose | CloseStream _ | GoClearHistory _ | GoStreamCleanup _
  | GoPublishStored _ | GoEmit _ | GoConsume _ => tt
  | ContainerFollow _ => inl (Some 3%nat)
  | ContainerTail _ | ComposeTail _ => inl []
  | ContainerLogs _ _ | ComposeLogs _ _ => inl ""
  | ComposeProjects => inl []
  | ComposeFollow _ => inl 4%nat
  | HasApp _ _ => inl true
  | AllApps => inl []
  end.

Definition log_answers : Type := ∀ T, LogCall T → option T.

Definition ex_log_env (ov : log_answers) : log_env :=
  {| answer := λ T c l, match ov T c with Some r => r | None => calm_log c end; interfere := λ _ w, w |}.

Definition no_log_answers : log_answers := λ _ _, None.

Definition empty_log_world : LogWorld :=
  {| lw_heap := ∅; lw_next := 0; lw_active := []; lw_entries := []; lw_rows := [] |}.

Lemma revived_gate_stays_open_witness :
  gate_open "prod_7_demo" "[17]" (world (revive [] (ex_app RUNNING RUNNING) (ex_log_env no_log_answers) (mk_state empty_log_world [])).2)
  ∧ gate_open "prod_7_demo" "[17]" (world (on_delete "17" (ex_log_env no_log_answers)
      (revive [] (ex_app RUNNING RUNNING) (ex_log_env no_log_answers) (mk_state empty_log_world [])).2).2).
Proof.
  split.
  - apply (revived_gate_stays_open (ex_log_env no_log_answers) [] (ex_app RUNNING RUNNING) [VInt 17] (mk_state empty_log_world []));
      [done|done|reflexivity|apply not_elem_of_nil].
  - eexists _, _. split_and!; vm_compute; reflexivity.
Defined.

Definition no_router : log_answers := λ T c,
  match c in LogCall T return option T with MatchSubscription _ => Some (inr (Plain "session closed")) | _ => None end.

Lemma revival_stops_at_failed_lookup_witness :
  length (Effects.log (background (for_each [ex_app RUNNING RUNNING; ex_app RUNNING RUNNING] (revive []))
    (ex_log_env no_router) (mk_state empty_log_world [])).2) = 1%nat.
Proof.
  rewrite (revival_stops_at_failed_lookup (ex_log_env no_router) [] (ex_app RUNNING RUNNING) [ex_app RUNNING RUNNING]
    (Plain "session closed") (mk_state empty_log_world []) eq_refl eq_refl). reflexivity.
Defined.

(** ** Stored histories *)

Section stored.
Variable en : log_env.
Hypothesis Hpriv : ∀ lg w, lw_rows (interfere en lg w) = lw_rows w.

#[local] Set Default Proof Using "Type*".

Definition rows_are (rows : list log_row) (st : log_state) : Prop := lw_rows (world st) = rows.

Lemma log_rows_db rows s : keeps en (rows_are rows) (log_db s).
Proof. apply keeps_callE, keeps_call. intros st r Hst. unfold rows_are. simpl. by rewrite Hpriv. Qed.

(** A driver step in front of code that ends the same way when the step fails. *)
Lemma after_db {A} rows s (m : Logs A) Q :
  (∀ o st, rows_are rows st → match o with Ok _ => False | _ => True end → Q o st) →
  triple en (rows_are rows) m Q → triple en (rows_are rows) (log_db s;; m)%go Q.
Proof.
  intros Hq Hm. apply triple_bind with (R := λ _, rows_are rows); [|by intros].
  eapply triple_post; [apply log_rows_db|]. intros [] st Hst; simpl; auto.
Qed.

Lemma upsert_log_rows rows name key stage logs :
  triple en (rows_are rows) (UpsertLogHistory name key stage logs)
    (λ o st, match o with
             | Ok _ => rows_are (update_log_rows name key stage logs (upsert_log_row name key stage logs rows)) st
             | _ => rows_are rows st end).
Proof.
  unfold UpsertLogHistory. do 6 (apply after_db; [by intros [] st|]).
  intros st Hst. unfold rows_are in *. simpl. by rewrite Hst.
Qed.

Lemma log_row_for_iff name key stage r :
  log_row_for name key stage r = true ↔ lr_app_name r = name ∧ lr_app_key r = key ∧ lr_stage r = stage.
Proof.
  unfold log_row_for. rewrite !andb_true_iff, String.eqb_eq, N.eqb_eq, bool_decide_eq_true. tauto.
Qed.

Lemma write_logs_for name key stage logs r : log_row_for name key stage (write_logs logs r) = log_row_for name key stage r.
Proof. done. Qed.

(** After the update every row of the app holds the logs, and there is one. *)
Lemma upserted_rows name key stage logs rows :
  (∀ r, r ∈ rows → lr_app_key r = key → lr_stage r = stage → lr_app_name r = name) →
  ∃ r, List.find (λ r, (lr_app_key r =? key)%N && bool_decide (lr_stage r = stage))
         (update_log_rows name key stage logs (upsert_log_row name key stage logs rows)) = Some r ∧ lr_log r = logs.
Proof.
  intros Hname. set (f := λ r, (lr_app_key r =? key)%N && bool_decide (lr_stage r = stage)).
  set (all := update_log_rows _ _ _ _ _).
  assert (∀ r, r ∈ upsert_log_row name key stage logs rows → f r = true → log_row_for name key stage r = true) as Hup.
  { intros r Hr Hf. unfold f in Hf. apply andb_prop in Hf as [Hk%N.eqb_eq Hs%bool_decide_eq_true].
    apply log_row_for_iff. split; [|done]. unfold upsert_log_row in Hr. destruct (existsb _ rows).
    - apply list_elem_of_In, in_map_iff in Hr as (r0 & <- & Hr0%list_elem_of_In).
      revert Hk Hs. destruct (log_row_for name key stage r0 && _); intros Hk Hs; by apply (Hname r0).
    - apply elem_of_app in Hr as [Hr| ->%list_elem_of_singleton]; [by apply Hname|done]. }
  assert (∃ r, r ∈ upsert_log_row name key stage logs rows ∧ log_row_for name key stage r = true) as (r0 & Hr0 & Hf0).
  { unfold upsert_log_row. destruct (existsb _ rows) eqn:E.
    - apply existsb_exists in E as (r & Hr & [Hf Ht]%andb_prop). exists (write_logs logs r). split; [|done].
      apply list_elem_of_In, in_map_iff. exists r. by rewrite Hf, Ht.
    - eexists. split; [apply elem_of_app; right; by apply list_elem_of_singleton|].
      apply log_row_for_iff. done. }
  assert (∀ r, r ∈ all → f r = true → lr_log r = logs) as Hall.
  { intros r Hr Hf. unfold all, update_log_rows in Hr. apply list_elem_of_In, in_map_iff in Hr as (r1 & <- & Hr1%list_elem_of_In).
    destruct (log_row_for name key stage r1) eqn:E; [done|]. by rewrite (Hup r1 Hr1 Hf) in E. }
  destruct (List.find f all) as [r|] eqn:E.
  - apply find_some in E as [Hr Hf]. exists r. split; [done|]. apply Hall; [by apply list_elem_of_In|done].
  - exfalso. assert (f (write_logs logs r0) = true) as Ht.
    { apply log_row_for_iff in Hf0 as (_ & Hk & Hs). unfold f. simpl. by rewrite Hk, N.eqb_refl, bool_decide_eq_true_2. }
    rewrite (find_none f all E (write_logs logs r0)) in Ht; [done|].
    unfold all, update_log_rows. apply in_map_iff. exists r0. rewrite Hf0. split; [done|by apply list_elem_of_In].
Qed.

(** a stored history reads back as it was written, provided no other app name shares the
    app's key and stage (the query does not look at the name); and a write that fails at any
    driver step leaves the stored histories as they were. *)
Theorem log_history_roundtrip name key stage logs st :
  (∀ r, r ∈ lw_rows (world st) → lr_app_key r = key → lr_stage r = stage → lr_app_name r = name) →
  let '(o, st1) := UpsertLogHistory name key stage logs en st in
  match o with
  | Ok _ => ∀ out st2, GetAppLogHistory name key stage en st1 = (Ok out, st2) → out = logs
  | _ => lw_rows (world st1) = lw_rows (world st)
  end.
Proof.
  intros Hname. pose proof (upsert_log_rows (lw_rows (world st)) name key stage logs st eq_refl) as Hu.
  destruct (UpsertLogHistory name key stage logs en st) as [[[]|e| |] st1]; simpl in Hu; [|exact Hu..].
  destruct (upserted_rows name key stage logs (lw_rows (world st)) Hname) as (r & Hfind & Hlog).
  intros out st2 Hg.
  assert (triple en (rows_are (lw_rows (world st1))) (GetAppLogHistory name key stage)
    (on_ok (λ l _, l = logs))) as Ht.
  { unfold GetAppLogHistory. do 2 (apply after_db; [intros [] st0 ? Hf; unfold on_ok; done|]). apply triple_gets_then. intros rows.
    intros st0 [Hr Hrows]. unfold rows_are in Hr. rewrite Hr, Hu in Hrows. subst rows. rewrite Hfind.
    assert (triple en (rows_are (lw_rows (world st1))) (log_db DbScan;; log_db DbClose;; ret (lr_log r))%go
      (on_ok (λ l _, l = logs))) as Hs.
    { do 2 (apply after_db; [intros [] st3 ? Hf; unfold on_ok; done|]). by intros st3 _. }
    by apply Hs. }
  specialize (Ht st1 eq_refl). by rewrite Hg in Ht.
Qed.
End stored.

Lemma log_history_roundtrip_witness :
  ∃ out st2, GetAppLogHistory "demo" 7 PROD (ex_log_env no_log_answers)
    (UpsertLogHistory "demo" 7 PROD ["a"; "b"] (ex_log_env no_log_answers) (mk_state empty_log_world [])).2 = (Ok out, st2)
  ∧ out = ["a"; "b"].
Proof.
  pose proof (log_history_roundtrip (ex_log_env no_log_answers) (λ lg w, eq_refl) "demo" 7 PROD ["a"; "b"]
    (mk_state empty_log_world []) ltac:(by intros r Hr%not_elem_of_nil)) as Hr.
  eexists _, _. split; [vm_compute; reflexivity|].
  simple eapply Hr. vm_compute; reflexivity.
Defined.
