(* ===== verification/Observing.v ===== *)
(** * Observing containers (src/src/apps/state_observer.go)

    One observer goroutine per container or compose project polls Docker once a second:
    [observe_container] and [observe_compose] are one turn of their loops.  The spawner
    starts observers for the containers Docker reports as created or started, and
    [ObserveAppStates] for the apps known at start-up. *)
From S2P Require Import Prelude Errdefs GoValue Common Records Effects HostPorts World Store.
From S2P Require Import EnvVars Observer Launch Transitions StateMachine AppManager.
Open Scope go_scope.

(** ** The text of a [time.Duration] *)

Fixpoint trim_zeros (s : list ascii) : list ascii :=
  match s with
  | c :: r => if Ascii.eqb c "0" then trim_zeros r else s
  | [] => []
  end.

(** The fraction [n / 10^w] without trailing zeros, with its point. *)
Definition fraction (w : nat) (n : N) : string :=
  let digits := String.list_ascii_of_string (itoa n) in
  let padded := (replicate (w - length digits) "0"%char ++ digits)%list in
  match trim_zeros (rev padded) with
  | [] => ""
  | kept => "." +:+ String.string_of_list_ascii (rev kept)
  end.

Definition scaled (w : nat) (unit_ : string) (n : N) : string :=
  let base := (10 ^ N.of_nat w)%N in itoa (n / base) +:+ fraction w (n mod base) +:+ unit_.

Definition duration_text (d : Z) : string :=
  let n := Z.to_N (Z.abs d) in
  let text :=
    if (n =? 0)%N then "0s"
    else if (n <? 1000)%N then itoa n +:+ "ns"
    else if (n <? 1000000)%N then scaled 3 "µs" n
    else if (n <? 1000000000)%N then scaled 6 "ms" n
    else
      let seconds := (n / 1000000000)%N in
      let minutes := (seconds / 60)%N in
      let hours := (minutes / 60)%N in
      (if (0 <? hours)%N then itoa hours +:+ "h" else "") +:+
      (if (0 <? minutes)%N then itoa (minutes mod 60) +:+ "m" else "") +:+
      scaled 9 "s" ((seconds mod 60) * 1000000000 + n mod 1000000000)%N in
  if (d <? 0)%Z then "-" +:+ text else text.

Section observing.
Context `{GoRuntime} `{Host}.

(** ** One turn of an observer *)

(** How a turn ends: go on with the remembered status, end, or end with an error in the
    observer's channel. *)
Inductive tick (A : Type) :=
  | Continue (last : A)
  | Stop
  | Report (err : error).
#[global] Arguments Continue {A} _.
#[global] Arguments Stop {A}.
#[global] Arguments Report {A} _.

Definition pollingRate : Z := nanosecond_second.

(** Whether to continue; a cancellation during the pause ends it. *)
Definition sleepCtx (ctx : nat) (d : Z) : Agent bool :=
  call (Sleep d);;
  let! canceled := context_canceled ctx in
  ret (negb canceled).

Definition next_turn {A} (ctx : nat) (last : A) : Agent (tick A) :=
  let! go := sleepCtx ctx pollingRate in
  ret (if go then Continue last else Stop).

(** The transition lock is taken and given back, only to see whether it is free. *)
Definition already_transitioning (l : loc) : Agent bool :=
  let! busy := SecureTransition l in
  if busy then ret true else UnlockTransition l;; ret false.

Definition exit_message (appName : string) (stage : Stage) (code : Z) : string :=
  appName +:+ " (" +:+ stage_string stage +:+ ") exited with status code: " +:+ pretty code.

Definition crashloop_message (retries : N) (sleepTime : Z) : string :=
  "Entered a crashloop (" +:+ Ordinal retries +:+ " attempt), retrying in " +:+ duration_text sleepTime.

(** Drive a PROD app to where it should be; the result is whether observing goes on. *)
Definition drive_back (topic : string) (l : loc) (latest : AppState) : Agent bool :=
  let! a := read_app l in
  let! r := try_ (GetRequestedState (app_AppKey a) (app_Stage a)) in
  match r with
  | inr _ => ret false
  | inl payload =>
      if bool_decide (latest = FAILED) then
        let! (retries, sleepTime) := incrementCrashLoop payload in
        best_effort (LogWrite topic (crashloop_message retries sleepTime));;
        ret false
      else ignore (RequestAppState payload);; ret true
  end.

(** What a changed state leads to: [None] to go on. *)
Definition report_change (topic : string) (l : loc) (stage : Stage) (latest : AppState) (exited : Agent unit)
    : Agent (option (option error)) :=
  let! r := try_ (Notify l latest) in
  match r with
  | inr err => ret (Some (Some err))
  | inl _ =>
      exited;;
      if bool_decide (stage = PROD) then
        let! go := drive_back topic l latest in
        ret (if go then None else Some None)
      else ret None
  end.

Definition end_turn {A} (ctx : nat) (last : A) (ended : option (option error)) : Agent (tick A) :=
  match ended with
  | None => next_turn ctx last
  | Some None => ret Stop
  | Some (Some err) => ret (Report err)
  end.

Definition exited_message (topic : string) (appName : string) (stage : Stage) (latest : AppState) (code : Z)
    : Agent unit :=
  when (bool_decide (latest = FAILED) && (bool_decide (stage = DEV) || bool_decide (stage = PROD)))
    (best_effort (LogWrite topic (exit_message appName stage code))).

Definition observe_container (ctx : nat) (stage : Stage) (appKey : N) (appName lastKnownStatus : string)
    : Agent (tick string) :=
  let! canceled := context_canceled ctx in
  if canceled then ret Stop
  else
    let containerName := BuildContainerName stage appKey appName in
    let! st := call (CtrState containerName) in
    match st with
    | inr err =>
        if negb (IsContainerNotFound err) then ret (Report err)
        else try_ (GetApp appKey stage);; ret Stop
    | inl state =>
        if String.eqb lastKnownStatus (st_Status state) then next_turn ctx lastKnownStatus
        else
          match ContainerStateToAppState (st_Status state) (st_ExitCode state) with
          | inr err => ret (Report err)
          | inl latestAppState =>
              let! found := try_ (GetApp appKey stage) in
              match found with
              | inr err => ret (Report err)
              | inl None => ret Stop
              | inl (Some l) =>
                  let! curAppState := with_state_lock l app_CurrentState in
                  let! busy := already_transitioning l in
                  if busy then next_turn ctx lastKnownStatus
                  else
                    let! ended := (
                      if negb (bool_decide (curAppState = latestAppState))
                         && negb (IsTransientState curAppState) && negb (IsTransientState latestAppState)
                      then report_change containerName l stage latestAppState
                             (exited_message containerName appName stage latestAppState (st_ExitCode state))
                      else ret None) in
                    end_turn ctx (st_Status state) ended
              end
          end
    end.

Definition observe_compose (ctx : nat) (stage : Stage) (appKey : N) (appName : string)
    (lastKnownStatus : AppState) : Agent (tick AppState) :=
  let! canceled := context_canceled ctx in
  if canceled then ret Stop
  else
    let! r := try_ (listComposeProjectContainers (BuildComposeContainerName stage appKey appName)) in
    match r with
    | inr _ =>
        let! canceled := context_canceled ctx in
        if canceled then ret Stop else next_turn ctx lastKnownStatus
    | inl [] => ret Stop
    | inl containers =>
        let latestAppState := aggregateContainerResults containers in
        let! found := try_ (GetApp appKey stage) in
        match found with
        | inr err => ret (Report err)
        | inl None => ret Stop
        | inl (Some l) =>
            let! curAppState := with_state_lock l app_CurrentState in
            let! busy := already_transitioning l in
            if busy then next_turn ctx lastKnownStatus
            else if bool_decide (lastKnownStatus = latestAppState) && bool_decide (latestAppState = curAppState)
            then next_turn ctx lastKnownStatus
            else
              let! ended := (
                if negb (bool_decide (curAppState = latestAppState)) && negb (IsTransientState curAppState)
                then report_change (BuildContainerName stage appKey appName) l stage latestAppState (ret tt)
                else ret None) in
              end_turn ctx latestAppState ended
        end
    end.

(** ** The goroutine *)

(** At most [n] turns; whether the observer is still observing. *)
Fixpoint turns {A} (n : nat) (body : A → Agent (tick A)) (last : A) : Agent bool :=
  match n with
  | O => ret true
  | S n =>
      let! t := body last in
      match t with
      | Continue last => turns n body last
      | _ => ret false
      end
  end.

Definition observer_name (o : observer) : string :=
  if ob_compose o then BuildComposeContainerName (ob_stage o) (ob_appKey o) (ob_appName o)
  else BuildContainerName (ob_stage o) (ob_appKey o) (ob_appName o).

(** Only the owner's entry is removed: a replacement under the same name stays. *)
Definition removeOwnObserver (mapKey : string) (ownerCtx : nat) : Agent unit :=
  let! entry := gets (λ w, activeObservers w !! mapKey) in
  match entry with
  | Some ctx =>
      when (Nat.eqb ctx ownerCtx)
        (cancel_context ctx;;
         modify (λ w, set_activeObservers (delete mapKey (activeObservers w)) w))
  | None => ret tt
  end.

(** [defer]: the clean-up runs when the loop returns or a panic unwinds it (the panic is
    recovered then), not while the loop still runs. *)
Definition until_ended (m : Agent bool) (cleanup : Agent unit) : Agent bool := λ en st,
  match m en st with
  | (Ok true, st') => (Ok true, st')
  | (Hang, st') => (Hang, st')
  | (_, st') => (cleanup;; ret false) en st'
  end.

Definition run_container (o : observer) (n : nat) (last : string) : Agent bool :=
  until_ended (turns n (observe_container (ob_ctx o) (ob_stage o) (ob_appKey o) (ob_appName o)) last)
    (removeOwnObserver (observer_name o) (ob_ctx o)).

Definition run_compose (o : observer) (n : nat) (last : AppState) : Agent bool :=
  until_ended (turns n (observe_compose (ob_ctx o) (ob_stage o) (ob_appKey o) (ob_appName o)) last)
    (removeOwnObserver (observer_name o) (ob_ctx o)).

(** What [GoObserve] starts, for its first [n] turns. *)
Definition run_observer (o : observer) (n : nat) : Agent bool :=
  if ob_compose o then run_compose o n empty_state else run_container o n "UKNOWN".

(** ** Adding observers *)

(** The part under the map's mutex: the goroutine's own clean-up takes the same mutex, so
    it sees the new entry. *)
Definition register_observer (compose : bool) (stage : Stage) (appKey : N) (appName : string) : Agent bool :=
  let name := if compose then BuildComposeContainerName stage appKey appName
              else BuildContainerName stage appKey appName in
  let! entry := gets (λ w, activeObservers w !! name) in
  match entry with
  | Some _ => ret false
  | None =>
      let! ctx := new_context in
      modify (λ w, set_activeObservers (<[name := ctx]> (activeObservers w)) w);;
      call (GoObserve {| ob_compose := compose; ob_ctx := ctx; ob_stage := stage; ob_appKey := appKey;
                         ob_appName := appName |});;
      ret true
  end.

Definition addComposeObserver (stage : Stage) (appKey : N) (appName : string) : Agent bool :=
  let! containers := listComposeProjectContainers (BuildComposeContainerName stage appKey appName) in
  match containers with
  | [] => ret false
  | _ => register_observer true stage appKey appName
  end.

Definition addObserver (stage : Stage) (appKey : N) (appName : string) : Agent bool :=
  let! r := call (CtrState (BuildContainerName stage appKey appName)) in
  match r with
  | inr _ => ret false
  | inl _ => register_observer false stage appKey appName
  end.

(** ** The spawner *)

(** The characters of [[a-zA-Z0-9]]; the names of containers are ASCII. *)
Definition alnum (c : ascii) : bool :=
  let n := N_of_ascii c in
  ((48 <=? n) && (n <=? 57) || (65 <=? n) && (n <=? 90) || (97 <=? n) && (n <=? 122))%N.

Definition any_char (c : ascii) : bool := negb (Ascii.eqb c newline).

(** Three or four characters (a match of four ends in one of three), an underscore,
    digits if any, an underscore. *)
Definition ContainerNameRegexExp : string → bool :=
  somewhere (λ s, match s with
    | String a (String b (String c r)) =>
        any_char a && any_char b && any_char c &&
        lit "_" (λ r, lit "_" (λ _, true) (drop_while is_digit r)) r
    | _ => false
    end).

(** A stage, a key, an alphanumeric app name, the compose suffix, an alphanumeric service
    name and a number. *)
Definition ComposeContainerNameRegexExp : string → bool :=
  let tail := lit "_" (some_then is_digit (lit "_" (some_then alnum
                (lit "_compose-" (some_then alnum (lit "-" (some_then is_digit (λ _, true)))))))) in
  somewhere (λ s, lit "dev" tail s || lit "prod" tail s).

Record container_event := { ev_Action : string; ev_name : string }.

Definition container_started (containerName : string) : Agent unit :=
  if ComposeContainerNameRegexExp containerName then
    match ParseComposeContainerName (hd "" (split_on "-" containerName)) with
    | inr _ => ret tt
    | inl (stage, key, name) => ignore (addComposeObserver stage key name)
    end
  else if ContainerNameRegexExp containerName then
    match ParseContainerName containerName with
    | inr _ => ret tt
    | inl (stage, key, name) => ignore (addObserver stage key name)
    end
  else ret tt.

Definition on_event (event : container_event) : Agent unit :=
  when (String.eqb (ev_Action event) "create" || String.eqb (ev_Action event) "start")
    (container_started (ev_name event)).

(** The spawner's loop over what the two channels deliver, until an error. *)
Fixpoint spawner_loop (deliveries : list (container_event + error)) : Agent unit :=
  match deliveries with
  | [] => ret tt
  | inl event :: rest => on_event event;; spawner_loop rest
  | inr _ :: _ => modify (set_spawnerActive false)
  end.

Definition initObserverSpawner : Agent unit :=
  call GoSpawner;;
  modify (set_spawnerActive true).

Definition unobserved (s : AppState) : bool :=
  bool_decide (s = REMOVED) || bool_decide (s = UNINSTALLED) || bool_decide (s = FAILED)
  || bool_decide (s = BUILT) || bool_decide (s = PUBLISHED).

Definition ObserveAppStates : Agent unit :=
  let! known := GetAppStates in
  for_each known (λ a,
    if unobserved (app_CurrentState a) then ret tt
    else
      let! created := addObserver (app_Stage a) (app_AppKey a) (app_AppName a) in
      when (negb created) (ignore (addComposeObserver (app_Stage a) (app_AppKey a) (app_AppName a))));;
  let! active := gets spawnerActive in
  when (negb active) initObserverSpawner.
End observing.
