(* ===== verification/ObservingSpec.v ===== *)
(** * Properties of the observers: one goroutine per name, hands off transitions *)
From S2P Require Import Prelude Errdefs GoValue Common Records Effects HostPorts World Store.
From S2P Require Import EnvVars Observer Launch Transitions StateMachine AppManager Steps Frames.
From S2P Require Import Observing Examples.
Open Scope go_scope.

(** Everything but starting an observer. *)
Definition unobserving (k : kind) : Prop := k ≠ KObserve.

Lemma unobserving_quiet k : quiet k = true → unobserving k.
Proof. by destruct k. Qed.
Lemma unobserving_bookkeeping k : bookkeeping k = true → unobserving k.
Proof. by destruct k. Qed.

Ltac observerless :=
  let H1 := fresh in let H2 := fresh in let H3 := fresh in
  pose proof unobserving_quiet as H1; pose proof unobserving_bookkeeping as H2;
  assert (∀ k, k ≠ KObserve → unobserving k) as H3 by done; frame.

(** ** The steps of a turn *)

Section turn_steps.
Context `{GoRuntime} `{Host}.
Variable en : agent_env.

Abbreviation F m := (∀ st0, keeps en (reach en unobserving st0) m).

Lemma does_sleepCtx c d : F (sleepCtx c d).
Proof. unfold sleepCtx, context_canceled. observerless. Qed.
#[local] Hint Resolve does_sleepCtx : frames.
Lemma does_next_turn {A} c (last : A) : F (next_turn c last).
Proof. unfold next_turn. observerless. Qed.
Lemma does_already_transitioning l : F (already_transitioning l).
Proof. unfold already_transitioning. observerless. Qed.
Lemma does_drive_back topic l s : F (drive_back topic l s).
Proof. unfold drive_back. observerless. Qed.
#[local] Hint Resolve does_next_turn does_already_transitioning does_drive_back : frames.
Lemma does_report_change topic l stage s exited : F exited → F (report_change topic l stage s exited).
Proof. intros Hx. unfold report_change. observerless. Qed.
Lemma does_exited_message topic name stage s c : F (exited_message topic name stage s c).
Proof. unfold exited_message. observerless. Qed.
Lemma does_end_turn {A} c (last : A) e : F (end_turn c last e).
Proof. unfold end_turn. observerless. Qed.
#[local] Hint Resolve does_report_change does_exited_message does_end_turn : frames.
Lemma does_observe_container c stage key name last : F (observe_container c stage key name last).
Proof. unfold observe_container, context_canceled. observerless. Qed.
Lemma does_observe_compose c stage key name last : F (observe_compose c stage key name last).
Proof.
  unfold observe_compose, context_canceled, listComposeProjectContainers. observerless.
  apply does_report_change. intros. apply keeps_ret.
Qed.

Lemma does_turns {A} n (body : A → Agent (tick A)) last : (∀ a, F (body a)) → F (turns n body last).
Proof.
  intros Hb. revert last. induction n as [|n IH]; intros last; simpl; [observerless|].
  intros st0. apply keeps_bind; [apply Hb|]. intros [last'| |err]; [apply IH|apply keeps_ret..].
Qed.
End turn_steps.

(** ** The map of observers and the running goroutines *)

Definition observed {T} (c : AgentCall T) : option observer :=
  match c with GoObserve o => Some o | _ => None end.

(** The observers started so far, newest first. *)
Fixpoint spawned (l : list (event AgentCall World)) : list observer :=
  match l with
  | [] => []
  | Ev c _ _ :: l => match observed c with Some o => o :: spawned l | None => spawned l end
  end.

Lemma unobserving_call {T} (c : AgentCall T) : unobserving (call_kind c) → observed c = None.
Proof. by destruct c. Qed.

Definition live (ended : gset nat) (st : agent_state) (o : observer) : Prop :=
  o ∈ spawned (log st) ∧ ob_ctx o ∉ ended.

(** The entries of the map are the running goroutines, each under its own name, and no two
    goroutines share a context. *)
Record accounted (ended : gset nat) (st : agent_state) : Prop := {
  contexts_distinct : NoDup (ob_ctx <$> spawned (log st));
  contexts_old : ∀ o, o ∈ spawned (log st) → ob_ctx o < next_id (world st);
  ended_old : ∀ c, c ∈ ended → c < next_id (world st);
  entry_live : ∀ name c, activeObservers (world st) !! name = Some c →
    ∃ o, live ended st o ∧ observer_name o = name ∧ ob_ctx o = c;
  live_entry : ∀ o, live ended st o → activeObservers (world st) !! observer_name o = Some (ob_ctx o);
}.

(** What other goroutines do leaves the map to its owners and takes fresh contexts. *)
Definition observers_private (en : agent_env) : Prop := ∀ lg w,
  activeObservers (interfere en lg w) = activeObservers w ∧ (next_id w ≤ next_id (interfere en lg w))%nat.

Lemma same_context ended st o1 o2 : accounted ended st →
  o1 ∈ spawned (log st) → o2 ∈ spawned (log st) → ob_ctx o1 = ob_ctx o2 → o1 = o2.
Proof.
  intros [Hd _ _ _ _]. revert Hd. generalize (spawned (log st)) as l. induction l as [|o l IH]; intros Hd H1 H2 He.
  { by apply not_elem_of_nil in H1. }
  simpl in Hd. apply NoDup_cons in Hd as [Ho Hd].
  apply elem_of_cons in H1 as [->|H1], H2 as [->|H2]; [done| | |by apply IH].
  - destruct Ho. rewrite He. by apply list_elem_of_fmap_2.
  - destruct Ho. rewrite <- He. by apply list_elem_of_fmap_2.
Qed.

Section accounting.
Context `{GoRuntime} `{Host}.
Variable en : agent_env.
Hypothesis Hpriv : observers_private en.

#[local] Set Default Proof Using "Type*".

(** A step that starts no observer and leaves the map alone keeps the account. *)
Lemma accounted_frame ended st st' :
  spawned (log st') = spawned (log st) → activeObservers (world st') = activeObservers (world st) →
  (next_id (world st) ≤ next_id (world st'))%nat → accounted ended st → accounted ended st'.
Proof using.
  intros Hs Ha Hn [Hd Ho He Hel Hle]. unfold live in *. split; unfold live; rewrite ?Hs, ?Ha; try done.
  - intros o Ho'. specialize (Ho o Ho'). lia.
  - intros c Hc. specialize (He c Hc). lia.
Qed.

Lemma step_unobserving st st' : step en unobserving st st' →
  spawned (log st') = spawned (log st) ∧ activeObservers (world st') = activeObservers (world st)
  ∧ (next_id (world st) ≤ next_id (world st'))%nat.
Proof.
  intros Hs. destruct Hs as [T c Hc| | | | | | | | | | |]; simpl; split_and!; try done; try lia.
  - by rewrite unobserving_call.
  - by destruct (Hpriv (Ev c (answer en T c (log st)) (world st) :: log st) (world st)).
  - by destruct (Hpriv (Ev c (answer en T c (log st)) (world st) :: log st) (world st)).
Qed.

(** Handlers that start no observer keep the account and start none. *)
Definition since (ended : gset nat) (os : list observer) (st : agent_state) : Prop :=
  accounted ended st ∧ spawned (log st) = os.

Lemma keeps_since {A} (m : Agent A) ended os : does en unobserving m → keeps en (since ended os) m.
Proof.
  intros Hm. apply (does_keeps en unobserving m); [done|]. intros st st' Hs [Ha Hos].
  apply step_unobserving in Hs as (H1 & H2 & H3). split; [by apply (accounted_frame ended st)|congruence].
Qed.

Lemma keeps_accounted {A} (m : Agent A) ended : does en unobserving m → keeps en (accounted ended) m.
Proof. intros Hm st Hst. by apply (keeps_since m ended (spawned (log st)) Hm st). Qed.

Lemma accounted_register compose stage key name ended :
  keeps en (accounted ended) (register_observer compose stage key name).
Proof.
  intros st Hst. set (n := if compose then BuildComposeContainerName stage key name else BuildContainerName stage key name).
  destruct (activeObservers (world st) !! n) as [c|] eqn:E.
  { assert (register_observer compose stage key name en st = (Ok false, st)) as ->; [|done].
    unfold register_observer. fold n. unfold bind at 1, gets. by rewrite E. }
  set (o := {| ob_compose := compose; ob_ctx := next_id (world st); ob_stage := stage; ob_appKey := key;
               ob_appName := name |}).
  assert (observer_name o = n) as Hn by done.
  set (w := set_activeObservers (<[n := next_id (world st)]> (activeObservers (world st))) (set_next_id (S (next_id (world st))) (world st))).
  assert ((register_observer compose stage key name en st).2
    = mk_state (interfere en (Ev (GoObserve o) (answer en unit (GoObserve o) (log st)) w :: log st) w)
        (Ev (GoObserve o) (answer en unit (GoObserve o) (log st)) w :: log st)) as ->.
  { unfold register_observer. fold n. unfold bind at 1, gets. by rewrite E. }
  destruct (Hpriv (Ev (GoObserve o) (answer en unit (GoObserve o) (log st)) w :: log st) w) as [Ha Hi].
  destruct Hst as [Hd Ho He Hel Hle].
  assert (∀ o', o' ∈ spawned (log st) → ob_ctx o' ≠ ob_ctx o) as Hfresh
    by (intros o' Ho'; specialize (Ho o' Ho'); simpl; lia).
  split; unfold live in *; cbn [world log spawned observed].
  - simpl. apply NoDup_cons. split; [|done]. intros (o' & Hc & Ho')%list_elem_of_fmap. by apply (Hfresh o').
  - intros o' [->|Ho']%elem_of_cons; [simpl in *; lia|]. specialize (Ho o' Ho'). simpl in *. lia.
  - intros c Hc. specialize (He c Hc). simpl in *. lia.
  - intros m c. rewrite Ha. subst w. cbn [activeObservers set_activeObservers]. destruct (decide (m = n)) as [->|Hm].
    + rewrite lookup_insert_eq. intros [= <-]. exists o. split_and!; [by left| |done|done].
      intros Hc. specialize (He _ Hc). simpl in He. lia.
    + rewrite lookup_insert_ne by done. intros Hc. destruct (Hel m c Hc) as (o' & [Ho' Hne] & Hname & Hc').
      exists o'. split_and!; [by right|done..].
  - intros o' [[->|Ho']%elem_of_cons Hne]; rewrite Ha; subst w; cbn [activeObservers set_activeObservers].
    + by rewrite Hn, lookup_insert_eq.
    + specialize (Hle o' (conj Ho' Hne)). rewrite lookup_insert_ne; [done|]. intros Heq. rewrite Heq in E. congruence.
Qed.

(** Handlers made of such steps and of registrations. *)
Lemma accounted_does {A B} (m : Agent A) (f : A → Agent B) ended :
  does en unobserving m → (∀ a, keeps en (accounted ended) (f a)) → keeps en (accounted ended) (bind m f).
Proof. intros Hm Hf. apply keeps_bind; [by apply keeps_accounted|done]. Qed.

Lemma accounted_addObserver stage key name ended : keeps en (accounted ended) (addObserver stage key name).
Proof.
  apply accounted_does; [intros st0; observerless|]. intros [s|e]; [apply accounted_register|apply keeps_ret].
Qed.

Lemma accounted_addComposeObserver stage key name ended :
  keeps en (accounted ended) (addComposeObserver stage key name).
Proof.
  apply accounted_does; [intros st0; unfold listComposeProjectContainers; observerless|].
  intros [|c cs]; [apply keeps_ret|apply accounted_register].
Qed.

Lemma accounted_started name ended : keeps en (accounted ended) (container_started name).
Proof.
  unfold container_started. destruct (ComposeContainerNameRegexExp name).
  - destruct (ParseComposeContainerName _) as [[[stage key] app]|e]; [|apply keeps_ret].
    apply keeps_ignore, accounted_addComposeObserver.
  - destruct (ContainerNameRegexExp name); [|apply keeps_ret].
    destruct (ParseContainerName _) as [[[stage key] app]|e]; [|apply keeps_ret].
    apply keeps_ignore, accounted_addObserver.
Qed.

Lemma accounted_modify f ended : (∀ w, activeObservers (f w) = activeObservers w ∧ next_id (f w) = next_id w) →
  keeps en (accounted ended) (modify f).
Proof using.
  intros Hf. apply keeps_modify. intros st Hst. destruct (Hf (world st)) as [Ha Hn].
  apply (accounted_frame ended st); simpl; [done|done|lia|done].
Qed.

Lemma accounted_spawner deliveries ended : keeps en (accounted ended) (spawner_loop deliveries).
Proof.
  induction deliveries as [|[event|e] rest IH]; simpl; [apply keeps_ret| |by apply accounted_modify].
  apply keeps_bind; [|done]. unfold on_event. apply keeps_when, accounted_started.
Qed.

Lemma accounted_ObserveAppStates ended : keeps en (accounted ended) ObserveAppStates.
Proof.
  apply accounted_does; [intros st0; observerless|]. intros known. apply keeps_bind.
  - apply keeps_for_each. intros a. destruct (unobserved _); [apply keeps_ret|].
    apply keeps_bind; [apply accounted_addObserver|]. intros created.
    apply keeps_when, keeps_ignore, accounted_addComposeObserver.
  - intros _. apply keeps_bind; [apply keeps_gets|]. intros active. apply keeps_when. unfold initObserverSpawner.
    apply accounted_does; [intros st0; observerless|]. intros _. by apply accounted_modify.
Qed.

(** The clean-up of a live observer removes its entry and nothing else. *)
Lemma accounted_remove o ended st : accounted ended st → live ended st o →
  accounted ({[ob_ctx o]} ∪ ended) (removeOwnObserver (observer_name o) (ob_ctx o) en st).2.
Proof using.
  intros Hst Ho. pose proof (live_entry _ _ Hst o Ho) as Hentry.
  unfold removeOwnObserver, bind at 1, gets. rewrite Hentry. cbn [fst snd]. rewrite Nat.eqb_refl.
  unfold when, bind, cancel_context, modify. cbn [fst snd world log].
  pose proof (same_context ended st) as Hsame. destruct Hst as [Hd Hold He Hel Hle].
  split; unfold live in *; cbn [world log activeObservers set_activeObservers next_id set_canceled]; try done.
  - intros c [Hc%elem_of_singleton|Hc]%elem_of_union; [|by apply He]. subst c. apply Hold, Ho.
  - intros m c. destruct (decide (m = observer_name o)) as [->|Hm]; [by rewrite lookup_delete_eq|].
    rewrite lookup_delete_ne by done. intros Hc. destruct (Hel m c Hc) as (o' & [Ho' Hne] & Hname & Hc').
    exists o'. split_and!; [done| |done|done]. intros [Heq%elem_of_singleton|Hin]%elem_of_union; [|done].
    assert (o' = o) as -> by (apply Hsame; [by split|done|by apply Ho|done]). done.
  - intros o' [Ho' Hne]. apply not_elem_of_union in Hne as [Hne Hne']. apply not_elem_of_singleton in Hne.
    pose proof (Hle o' (conj Ho' Hne')) as Hactive.
    rewrite lookup_delete_ne; [done|]. intros Heq. rewrite Heq in Hentry. congruence.
Qed.

Lemma accounted_until o m ended st : does en unobserving m → accounted ended st → live ended st o →
  let r := until_ended m (removeOwnObserver (observer_name o) (ob_ctx o)) en st in
  (r.1 = Ok true ∨ r.1 = Hang) ∧ accounted ended r.2
  ∨ r.1 = Ok false ∧ accounted ({[ob_ctx o]} ∪ ended) r.2.
Proof.
  intros Hm Hst Ho r. subst r. unfold until_ended.
  destruct (keeps_since m ended (spawned (log st)) Hm st (conj Hst eq_refl)) as [Hst1 Hs1].
  assert (live ended (m en st).2 o) as Ho1 by (unfold live in *; by rewrite Hs1).
  assert (∀ st1, accounted ended st1 → live ended st1 o →
    let r := (removeOwnObserver (observer_name o) (ob_ctx o);; ret false)%go en st1 in
    r.1 = Ok false ∧ accounted ({[ob_ctx o]} ∪ ended) r.2) as Hend.
  { intros st1 Ha Hl. pose proof (accounted_remove o ended st1 Ha Hl) as Hr. simpl. unfold bind at 1 2.
    assert ((removeOwnObserver (observer_name o) (ob_ctx o) en st1).1 = Ok tt) as Hok.
    { unfold removeOwnObserver, bind at 1, gets. rewrite (live_entry _ _ Ha o Hl). by rewrite Nat.eqb_refl. }
    destruct (removeOwnObserver _ _ en st1) as [oc st2]. simpl in Hok. subst oc. by split. }
  destruct (m en st) as [[[]|e| |] st1]; simpl in *; auto.
Qed.
End accounting.

(** ** Any sequence of uses *)

Section sequences.
Context `{GoRuntime} `{Host}.

(** The spawner hears of containers, the agent looks at its apps at start-up, an observer
    runs for some turns from whatever status it remembers, a request runs. *)
Inductive observers_step (en : agent_env) : agent_state * gset nat → agent_state * gset nat → Prop :=
  | os_spawner deliveries st ended :
      observers_step en (st, ended) ((spawner_loop deliveries en st).2, ended)
  | os_boot st ended : observers_step en (st, ended) ((ObserveAppStates en st).2, ended)
  | os_request p st ended : observers_step en (st, ended) ((RequestAppState p en st).2, ended)
  | os_container o n last r st st' ended : live ended st o → run_container o n last en st = (r, st') →
      observers_step en (st, ended) (st', match r with Ok false => {[ob_ctx o]} ∪ ended | _ => ended end)
  | os_compose o n last r st st' ended : live ended st o → run_compose o n last en st = (r, st') →
      observers_step en (st, ended) (st', match r with Ok false => {[ob_ctx o]} ∪ ended | _ => ended end).

Lemma observers_accounted en s s' : observers_private en → observers_step en s s' →
  accounted s.2 s.1 → accounted s'.2 s'.1.
Proof.
  intros Hpriv Hs. assert (∀ m o st r st' ended, does en unobserving m → accounted ended st → live ended st o →
    until_ended m (removeOwnObserver (observer_name o) (ob_ctx o)) en st = (r, st') →
    accounted (match r with Ok false => {[ob_ctx o]} ∪ ended | _ => ended end) st') as Hrun.
  { intros m o st r st' ended Hm Ha Ho Hr. pose proof (accounted_until en Hpriv o m ended st Hm Ha Ho) as Hu.
    cbv zeta in Hu. rewrite Hr in Hu. simpl in Hu. destruct Hu as [[[->| ->] Hu]|[-> Hu]]; exact Hu. }
  destruct Hs as [deliveries st ended|st ended|p st ended|o n last r st st' ended Ho Hr|o n last r st st' ended Ho Hr];
    simpl; intros Ha.
  - by apply (accounted_spawner en Hpriv).
  - by apply (accounted_ObserveAppStates en Hpriv).
  - assert (∀ k, k ≠ KObserve → unobserving k) as Hk by done.
    apply (keeps_accounted en Hpriv (RequestAppState p)); [exact (does_RequestAppState en unobserving Hk p)|done].
  - eapply Hrun; [exact (does_turns en n _ last (λ s, does_observe_container en (ob_ctx o) (ob_stage o) (ob_appKey o) (ob_appName o) s))|done..].
  - eapply Hrun; [exact (does_turns en n _ last (λ s, does_observe_compose en (ob_ctx o) (ob_stage o) (ob_appKey o) (ob_appName o) s))|done..].
Qed.

(** C19: one poller per app: from a fresh start, whatever containers come and go, whatever the
    observers do and however they end (on errors, panics or cancellation), the entries of
    the observer map are exactly the observers that are running, each with its own
    context, and no two running observers watch the same name; so an observer's clean-up
    never takes away a successor, and none is left running without its entry. *)
Theorem one_observer_per_name en st0 st ended :
  observers_private en → log st0 = [] → activeObservers (world st0) = ∅ →
  rtc (observers_step en) (st0, ∅) (st, ended) →
  (∀ name c, activeObservers (world st) !! name = Some c ↔
     ∃ o, live ended st o ∧ observer_name o = name ∧ ob_ctx o = c)
  ∧ (∀ o1 o2, live ended st o1 → live ended st o2 → observer_name o1 = observer_name o2 → o1 = o2).
Proof.
  intros Hpriv Hl Ha Hr.
  assert (accounted ended st) as Hst.
  { assert (accounted (st0, ∅ : gset nat).2 (st0, ∅ : gset nat).1) as Hstart.
    { simpl. split; unfold live; rewrite ?Hl, ?Ha; simpl.
      - apply NoDup_nil_2.
      - by intros o Ho%not_elem_of_nil.
      - intros c Hc. set_solver.
      - intros name c. by rewrite lookup_empty.
      - by intros o [Ho%not_elem_of_nil _]. }
    change (accounted (st, ended).2 (st, ended).1). revert Hr Hstart.
    generalize (st0, ∅ : gset nat) as s0. generalize (st, ended) as s. intros s s0 Hr.
    induction Hr as [|s1 s2 s3 Hs _ IH]; [done|]. intros H1. apply IH. by apply (observers_accounted en s1). }
  split.
  - intros name c. split; [apply (entry_live _ _ Hst)|]. intros (o & Ho & <- & <-). by apply (live_entry _ _ Hst).
  - intros o1 o2 H1 H2 Hn. pose proof (live_entry _ _ Hst o1 H1) as E1. pose proof (live_entry _ _ Hst o2 H2) as E2.
    rewrite Hn, E2 in E1. injection E1 as Hc. apply (same_context ended st); [done|apply H1|apply H2|done].
Qed.
End sequences.

(** A device on which the container of the app is running. *)
Definition one_running : override := λ T c _,
  match c in AgentCall T return option T with
  | CtrState _ => Some (inl {| st_Status := "running"; st_ExitCode := 0 |})
  | _ => None
  end.

Definition ex_start (name : string) : container_event + error := inl {| ev_Action := "start"; ev_name := name |}.

(** Two start events of one container: one observer, whose entry the theorem finds. *)
Definition ex_two_starts : agent_state :=
  (spawner_loop [ex_start "prod_7_demo"; ex_start "prod_7_demo"] (ex_env one_running)
    (ex_state (ex_world RUNNING RUNNING))).2.

Lemma one_observer_per_name_witness :
  length (spawned (log ex_two_starts)) = 1%nat
  ∧ ∃ o, live ∅ ex_two_starts o ∧ observer_name o = "prod_7_demo" ∧ ob_ctx o = 1%nat.
Proof.
  split; [vm_compute; reflexivity|].
  assert (observers_private (ex_env one_running)) as Hpriv by (intros lg w; split; [done|simpl; lia]).
  refine (proj1 (proj1 (one_observer_per_name (ex_env one_running) (ex_state (ex_world RUNNING RUNNING)) ex_two_starts ∅
    Hpriv eq_refl eq_refl (rtc_once _ _ (os_spawner _ _ _ _))) "prod_7_demo" 1%nat) _).
  vm_compute. reflexivity.
Defined.
