(* ===== verification/ObserverRaces.v ===== *)
(** * Observers and transitions

    What an observer's turn does while a transition of its app runs (nothing), and what its
    look at the transition lock does to a request that arrives at that moment (it is
    dropped). *)
From S2P Require Import Prelude Errdefs GoValue Common Records Effects HostPorts World Store.
From S2P Require Import EnvVars Observer Launch Transitions StateMachine AppManager Steps Frames.
From S2P Require Import Examples Locks Outcomes Observing ObservingSpec.
Open Scope go_scope.

(** A call that moves an app: it publishes a state, fetches, builds, creates or starts
    something, or asks for another transition. *)
Definition moving (k : kind) : bool :=
  match k with KPublish _ | KUp | KStart | KGrow | KRequest => true | _ => false end.

Definition moving_event (e : event AgentCall World) : bool :=
  match e with Ev c _ _ => moving (call_kind c) end.

Definition unmoved (st0 st : agent_state) : Prop :=
  ∃ new, log st = (new ++ log st0)%list ∧ Forall (λ e, moving_event e = false) new.

(** The kinds of step before a request asks for the lock. *)
Definition preparing (k : kind) : Prop := quiet k = true ∨ k = KCrash.

Lemma find_app_alter key stage f l (h : gmap nat App) ls :
  (∀ a, app_AppKey (f a) = app_AppKey a ∧ app_Stage (f a) = app_Stage a) →
  find_app key stage (alter f l h) ls = find_app key stage h ls.
Proof.
  intros Hf. induction ls as [|l' ls IH]; simpl; [done|]. destruct (decide (l = l')) as [<-|Hne].
  - rewrite lookup_alter_eq. destruct (h !! l) as [a|]; simpl; [|done]. destruct (Hf a) as [-> ->]. by rewrite IH.
  - rewrite lookup_alter_ne by done. by rewrite IH.
Qed.

Section races.
Context `{GoRuntime} `{Host}.
Variable en : agent_env.
Variable l : loc.
Variable sg : Stage.
Hypothesis Happ : app_private en l.
Hypothesis Hlock : lock_private en.

#[local] Set Default Proof Using "Type*".

Variable st0 : agent_state.

(** The app waits in a state, its lock held by somebody. *)
Definition waiting (cur : AppState) (st : agent_state) : Prop :=
  app_in l sg (λ s, s = cur) st ∧ held (world st) l ∧ unmoved st0 st.

Lemma unmoved_call {T} (c : AgentCall T) st : moving (call_kind c) = false →
  unmoved st0 st → unmoved st0 (after_call en c st).
Proof using.
  intros Hc (new & Hl & Hn). exists (Ev c (answer en T c (log st)) (world st) :: new).
  split; [simpl; by f_equal|by constructor].
Qed.

Lemma waiting_step cur st st' : step en preparing st st' → waiting cur st → waiting cur st'.
Proof.
  intros Hs (Hin & Hheld & Hun).
  assert (heap_wf (world st)) as Hwf by apply Hin.
  split; [|split].
  - apply (app_in_step en l sg Happ preparing (λ s, s = cur) st st'); [|done..]. by intros [|].
  - assert (locks_are (held (world st)) st) as Hl by (by split).
    apply (lock_step en Hlock _ st st') in Hl as [_ Hl]; [by apply Hl|].
    apply (step_mono en preparing); [|done]. intros k [Hk|Hk] Hl0; subst k; done.
  - destruct Hs as [T c Hc| | | | | | | | | | |]; try exact Hun. apply unmoved_call; [|done].
    destruct Hc as [Hc|Hc]; [revert Hc; by destruct (call_kind c)|by destruct c].
Qed.

Lemma keeps_waiting {A} cur (m : Agent A) : does en preparing m → keeps en (waiting cur) m.
Proof. intros Hm. eapply does_keeps; [exact Hm|]. intros. by eapply waiting_step. Qed.

Ltac prepare :=
  let H1 := fresh in let H2 := fresh in
  assert (∀ k, quiet k = true → preparing k) as H1 by (by left);
  assert (preparing KCrash) as H2 by (by right); frame.

Lemma preparing_clearCrashLoop key stage : does en preparing (clearCrashLoop key stage).
Proof using.
  intros ?. unfold clearCrashLoop, find_task. prepare.
Qed.

(** The lock is found taken. *)
Lemma secure_busy cur : triple en (waiting cur) (SecureTransition l) (λ o st, o = Ok true ∧ waiting cur st).
Proof using.
  intros st Hst. pose proof Hst as (_ & (a & Ha & Hl) & _).
  unfold SecureTransition, read_app, bind, gets, ret. rewrite Ha. simpl. by rewrite Hl.
Qed.

Lemma triple_then_waiting {A B} cur (m : Agent A) (f : A → Agent B) :
  does en preparing m → (∀ a, keeps en (waiting cur) (f a)) → keeps en (waiting cur) (bind m f).
Proof. intros Hm Hf. apply keeps_bind; [by apply keeps_waiting|done]. Qed.

(** What a request does once it has found its app, up to the lock it does not get. *)
Lemma request_waits p cur : cur ≠ UPDATING → tp_CancelTransition p = false →
  triple en (λ st, find_app (tp_AppKey p) (tp_Stage p) (heap (world st)) (apps (world st)) = Some l ∧ waiting cur st)
    (RequestAppState p) (λ _, waiting cur).
Proof.
  intros Hcur Hcancel. unfold RequestAppState.
  apply triple_bind with (R := λ o st, o = Some l ∧ waiting cur st).
  { intros st [Hf Hst]. unfold GetApp, bind, gets, ret. by rewrite Hf. }
  intros found st1 [-> Hst1]. revert st1 Hst1.
  match goal with |- ∀ st, _ → waiting cur (?m en st).2 => change (keeps en (waiting cur) m) end.
  apply triple_bind with (R := λ c st, c.1 = cur ∧ waiting cur st).
  { intros st Hst. pose proof Hst as ((_ & a & Ha & _ & Hc) & _). unfold with_state_lock, read_app, bind, gets, ret.
    rewrite Ha. simpl. destruct (app_state_lock a); [exact Hst|by split]. }
  intros [c requested] st2 [Hc Hst2]. simpl in Hc. subst c. revert st2 Hst2.
  match goal with |- ∀ st, _ → waiting cur (?m en st).2 => change (keeps en (waiting cur) m) end.
  rewrite Hcancel, (bool_decide_false (cur = UPDATING)) by done.
  apply triple_then_waiting; [intros ?; prepare|intros a].
  apply triple_then_waiting; [intros ?; unfold when; destruct (negb _); [apply preparing_clearCrashLoop|apply keeps_ret]|intros _].
  apply triple_then_waiting; [intros ?; prepare|intros _].
  apply triple_then_waiting; [intros ?; prepare|intros _].
  apply triple_then_waiting; [intros ?; prepare|intros _].
  apply triple_bind with (R := λ o st, o = true ∧ waiting cur st).
  { eapply triple_post; [apply secure_busy|]. intros o st [-> Hst]. done. }
  intros locked st [-> Hst]. done.
Qed.
End races.

(** the observer's look at the transition lock can swallow a request: a request that comes
    between the moment the observer takes the lock to see whether it is free and the moment
    it gives it back finds the lock taken, and moves nothing: nothing is published, fetched,
    built, created or started, no other request is made, and when the observer has released
    the lock the app is where it was, with nobody working on it. *)
Theorem probed_request_is_dropped `{GoRuntime} `{Host} en p l a st :
  app_private en l → lock_private en → heap_wf (world st) →
  find_app (tp_AppKey p) (tp_Stage p) (heap (world st)) (apps (world st)) = Some l →
  heap (world st) !! l = Some a → app_locked a = false → app_CurrentState a ≠ UPDATING →
  tp_CancelTransition p = false →
  let st1 := (SecureTransition l en st).2 in
  let st2 := (RequestAppState p en st1).2 in
  let st3 := (UnlockTransition l en st2).2 in
  already_transitioning l en st = (UnlockTransition l;; ret false)%go en st1
  ∧ unmoved st st3
  ∧ ∃ a', heap (world st3) !! l = Some a' ∧ app_CurrentState a' = app_CurrentState a ∧ app_locked a' = false.
Proof.
  intros Happ Hlock Hwf Hf Ha Hfree Hcur Hcancel st1 st2 st3.
  assert (SecureTransition l en st = (Ok false, st1)) as Hsec.
  { subst st1. unfold SecureTransition, read_app, bind, gets, ret. rewrite Ha. simpl. rewrite Hfree. done. }
  assert (st1 = mk_state (set_heap (alter (app_set_locked true) l (heap (world st))) (world st)) (log st)) as Hst1.
  { subst st1. unfold SecureTransition, read_app, bind, gets, ret. rewrite Ha. simpl. rewrite Hfree. done. }
  assert (waiting l (app_Stage a) st (app_CurrentState a) st1) as Hwait.
  { rewrite Hst1. split; [|split].
    - split; [by apply heap_wf_alter|]. eexists. simpl. rewrite lookup_alter_eq, Ha. split; [done|]. by destruct a.
    - eexists. simpl. rewrite lookup_alter_eq, Ha. by split.
    - by exists []. }
  assert (waiting l (app_Stage a) st (app_CurrentState a) st2) as ((_ & a2 & Ha2 & _ & Hc2) & (a2' & Ha2' & Hl2) & Hun).
  { apply (request_waits en l (app_Stage a) Happ Hlock st p (app_CurrentState a) Hcur Hcancel). split; [|done].
    rewrite Hst1. simpl. rewrite <- Hf. apply find_app_alter. by intros []. }
  assert (a2' = a2) as -> by congruence.
  split_and!.
  - unfold already_transitioning, bind at 1. by rewrite Hsec.
  - destruct Hun as (new & Hl & Hn). exists new. split; [|done]. rewrite <- Hl.
    unfold st3, UnlockTransition, read_app, bind, gets, ret. rewrite Ha2. simpl. by rewrite Hl2.
  - exists (app_set_locked false a2). unfold st3, UnlockTransition, read_app, bind, gets, ret.
    rewrite Ha2. simpl. rewrite Hl2. simpl. rewrite lookup_alter_eq, Ha2. by split_and!.
Qed.

(** The stopped app is asked to run while the observer looks. *)
Definition ex_probed : agent_state := (SecureTransition 0%nat (ex_env no_override) (ex_state (ex_world PRESENT RUNNING))).2.

Lemma probed_request_is_dropped_witness :
  let r := RequestAppState (ex_payload PRESENT RUNNING) (ex_env no_override) ex_probed in
  r.1 = Ok tt ∧ (app_CurrentState <$> heap (world r.2) !! 0%nat) = Some PRESENT
  ∧ unmoved (ex_state (ex_world PRESENT RUNNING)) (UnlockTransition 0%nat (ex_env no_override) r.2).2.
Proof.
  split; [vm_compute; reflexivity|]. split; [vm_compute; reflexivity|].
  refine (proj1 (proj2 (probed_request_is_dropped (ex_env no_override) (ex_payload PRESENT RUNNING) 0%nat (ex_app PRESENT RUNNING)
    (ex_state (ex_world PRESENT RUNNING)) (ex_app_private _ _) (ex_private _) (ex_world_wf _ _) _ _ eq_refl _ eq_refl))).
  - reflexivity.
  - apply lookup_singleton_eq.
  - discriminate.
Defined.

(** ** Turns during a transition *)

(** Looking at Docker and pausing. *)
Definition looking_event (e : event AgentCall World) : bool :=
  match e with Ev c _ _ => match c with CtrState _ | CtrListProject _ | Sleep _ => true | _ => false end end.

(** The app of the key and stage is at [l], in a transition: its lock is held, or its
    state is one that a transition passes through. *)
Definition in_transition (key : N) (stage : Stage) (l : loc) (w : World) : Prop :=
  find_app key stage (heap w) (apps w) = Some l ∧
  ∃ a, heap w !! l = Some a ∧ (app_locked a = true ∨ IsTransientState (app_CurrentState a) = true).

Section turns.
Context `{GoRuntime} `{Host}.
Variable en : agent_env.
Variable key : N.
Variable stage : Stage.
Variable l : loc.
(** The transition goes on for as long as the observer looks. *)
Hypothesis Hgoes : ∀ lg w, in_transition key stage l w → in_transition key stage l (interfere en lg w).

#[local] Set Default Proof Using "Type*".

Variable st0 : agent_state.

(** The observer only looked; where nobody else works, nothing changed. *)
Definition only_looked (st : agent_state) : Prop :=
  (∃ new, log st = (new ++ log st0)%list ∧ Forall (λ e, looking_event e = true) new)
  ∧ ((∀ lg w, interfere en lg w = w) → world st = world st0).

Definition watching (st : agent_state) : Prop := in_transition key stage l (world st) ∧ only_looked st.

Lemma watching_call {T} (c : AgentCall T) : (∀ r w, looking_event (Ev c r w) = true) → keeps en watching (call c).
Proof.
  intros Hc. apply keeps_call. intros st r (Ht & (new & Hl & Hn) & Hw). split; [by apply Hgoes|]. split.
  - exists (Ev c r (world st) :: new). split; [simpl; by f_equal|]. constructor; [apply Hc|done].
  - intros Hq. simpl. rewrite Hq. by apply Hw.
Qed.

(** The probe of the lock puts everything back. *)
Lemma probe_idle st a : heap (world st) !! l = Some a →
  already_transitioning l en st = (Ok (app_locked a), st).
Proof using.
  intros Ha. unfold already_transitioning, SecureTransition, UnlockTransition, read_app, update_app, modify, bind, gets, ret.
  rewrite Ha. destruct (app_locked a) eqn:El; [done|]. cbn [world log heap set_heap].
  rewrite lookup_alter_eq, Ha. simpl. f_equal. destruct st as [w lg]. f_equal. cbn [world] in *.
  assert (alter (app_set_locked false) l (alter (app_set_locked true) l (heap w)) = heap w) as Hback.
  { apply map_eq. intros k. destruct (decide (k = l)) as [->|Hk]; [|by rewrite !lookup_alter_ne by done].
    rewrite !lookup_alter_eq, Ha. simpl. f_equal. destruct a. simpl in El. by rewrite El. }
  unfold set_heap. cbn. rewrite Hback. by destruct w.
Qed.

Lemma watching_next {A} c (last : A) : keeps en watching (next_turn c last).
Proof.
  unfold next_turn, sleepCtx, context_canceled. repeat (apply keeps_bind; [|intros ?]).
  - by apply watching_call.
  - apply keeps_gets.
  - apply keeps_ret.
  - apply keeps_ret.
Qed.

(** The two ends of a turn agree up to what they do when the lock is free. *)
Lemma watching_probe {A} c (last : A) (f : loc → AppState → Agent (tick A)) :
  (∀ l s, IsTransientState s = true → keeps en watching (f l s)) →
  keeps en watching (
    let! found := try_ (GetApp key stage) in
    match found with
    | inr err => ret (Report err)
    | inl None => ret Stop
    | inl (Some l) =>
        let! curAppState := with_state_lock l app_CurrentState in
        let! busy := already_transitioning l in
        if busy then next_turn c last else f l curAppState
    end).
Proof.
  intros Hf st Hst. pose proof Hst as ((Hfind & a & Ha & Hbusy) & _).
  assert (try_ (GetApp key stage) en st = (Ok (inl (Some l)), st)) as Hget.
  { unfold try_, GetApp, bind, gets, ret. by rewrite Hfind. }
  rewrite (bind_ok en st st _ _ _ Hget).
  destruct (app_state_lock a) eqn:Esl.
  { unfold with_state_lock, read_app, bind, gets, ret, hang. by rewrite Ha, Esl. }
  assert (with_state_lock l app_CurrentState en st = (Ok (app_CurrentState a), st)) as Hcur.
  { unfold with_state_lock, read_app, bind, gets, ret. by rewrite Ha, Esl. }
  rewrite (bind_ok en st st _ _ _ Hcur), (bind_ok en st st _ _ _ (probe_idle st a Ha)).
  destruct (app_locked a); [by apply watching_next|]. destruct Hbusy as [|Hb]; [done|]. by apply Hf.
Qed.

Lemma watching_container c name last : keeps en watching (observe_container c stage key name last).
Proof.
  unfold observe_container. apply keeps_bind; [apply keeps_gets|]. intros []; [apply keeps_ret|].
  apply keeps_bind; [by apply watching_call|]. intros [s|e].
  - destruct (String.eqb _ _); [apply watching_next|].
    destruct (ContainerStateToAppState _ _) as [latest|e]; [|apply keeps_ret].
    apply watching_probe. intros l' cur Hcur. rewrite Hcur, andb_false_r. apply keeps_bind; [apply keeps_ret|].
    intros e st Hst. destruct e as [[err|]|]; [exact Hst..|by apply watching_next].
  - destruct (negb _); [apply keeps_ret|]. apply keeps_bind; [|intros _; apply keeps_ret].
    apply keeps_try. intros st Hst. pose proof Hst as ((Hfind & _) & _).
    unfold GetApp, bind, gets, ret. by rewrite Hfind.
Qed.

Lemma watching_compose c name last : keeps en watching (observe_compose c stage key name last).
Proof.
  unfold observe_compose. apply keeps_bind; [apply keeps_gets|]. intros []; [apply keeps_ret|].
  apply keeps_bind; [apply keeps_try; unfold listComposeProjectContainers, callE; apply keeps_bind;
    [by apply watching_call|intros r; apply keeps_lift]|].
  intros [[|ct cts]|e]; [apply keeps_ret| |].
  - apply watching_probe. intros l' cur Hcur. destruct (_ && _); [apply watching_next|].
    rewrite Hcur, andb_false_r. apply keeps_bind; [apply keeps_ret|].
    intros e st Hst. destruct e as [[err|]|]; [exact Hst..|by apply watching_next].
  - apply keeps_bind; [apply keeps_gets|]. intros []; [apply keeps_ret|apply watching_next].
Qed.

Lemma watching_turns {A} n (body : A → Agent (tick A)) last :
  (∀ a, keeps en watching (body a)) → keeps en watching (turns n body last).
Proof.
  intros Hb. revert last. induction n as [|n IH]; intros last; simpl; [apply keeps_ret|].
  apply keeps_bind; [apply Hb|]. intros [last'| |err]; [apply IH|apply keeps_ret..].
Qed.

(** C20: observers keep their hands off a transition: while the app's transition lock is held
    or its state is one a transition passes through, an observer, for any number of turns
    and whatever Docker reports, does nothing but look at Docker and pause: it notifies
    nobody, writes nothing, requests nothing, and leaves every lock as it was. *)
Theorem observer_leaves_transitions_alone n c name status state :
  in_transition key stage l (world st0) →
  only_looked (turns n (observe_container c stage key name) status en st0).2
  ∧ only_looked (turns n (observe_compose c stage key name) state en st0).2.
Proof.
  intros Ht. assert (watching st0) as Hw by (split; [done|]; split; [by exists []|done]).
  split; [apply (watching_turns n _ status (watching_container c name) st0 Hw)
         |apply (watching_turns n _ state (watching_compose c name) st0 Hw)].
Qed.
End turns.

(** A container that exited while its app is being stopped. *)
Definition one_exited : override := λ T c _,
  match c in AgentCall T return option T with
  | CtrState _ => Some (inl {| st_Status := "exited"; st_ExitCode := 137 |})
  | _ => None
  end.

Definition ex_stopping : agent_state := ex_state (ex_world STOPPING PRESENT).

Lemma observer_leaves_transitions_alone_witness :
  world (turns 3 (observe_container 1 PROD 7 "demo") "running" (ex_env one_exited) ex_stopping).2 = world ex_stopping.
Proof.
  apply (proj1 (observer_leaves_transitions_alone (ex_env one_exited) 7 PROD 0%nat (λ lg w Hw, Hw) ex_stopping 3 1 "demo" "running" RUNNING
    ltac:(split; [reflexivity|]; eexists; split; [apply lookup_singleton_eq|by right]))). done.
Defined.

(** Where no transition runs, the same container makes the app fail and enter a crash loop. *)
Example exited_container_fails_app :
  let st := (turns 3 (observe_container 1 PROD 7 "demo") "running" (ex_env one_exited) (ex_state (ex_world RUNNING RUNNING))).2 in
  (app_CurrentState <$> heap (world st) !! 0%nat) = Some FAILED ∧ length (crashLoops (world st)) = 1%nat.
Proof. split; vm_compute; reflexivity. Qed.
