(* ===== verification/SpawnerSpec.v ===== *)
(** * Which observer a started container gets *)
From S2P Require Import Prelude Errdefs GoValue Common Records Effects HostPorts World Store.
From S2P Require Import EnvVars Observer Launch Transitions StateMachine AppManager.
From S2P Require Import Examples Observing ObservingSpec.
Open Scope go_scope.

Lemma alnum_lacks c s : alnum c = false → str_forall alnum s = true → lacks c s = true.
Proof.
  intros Hc. apply str_forall_impl. intros a Ha. unfold not_char. apply negb_true_iff.
  destruct (Ascii.eqb_spec a c) as [->|]; congruence.
Qed.

Lemma alnum_lower s : str_forall alnum s = true → str_forall alnum (to_lower s) = true.
Proof.
  unfold to_lower. induction s as [|a s IH]; simpl; [done|]. intros [Ha Hs]%andb_prop. rewrite IH by done.
  rewrite andb_true_r. by destruct a as [[] [] [] [] [] [] [] []].
Qed.

Lemma lit_underscore g s : lit "_" g (String underscore s) = g s.
Proof. done. Qed.

Section spawner.
Context `{GoRuntime} `{Host}.

(** The name docker compose gives the [n]th container of a service. *)
Definition service_container (stage : Stage) (key : N) (app service : string) (n : N) : string :=
  BuildComposeContainerName stage key app +:+ "-" +:+ service +:+ "-" +:+ itoa n.

Lemma service_container_eq stage key app service n :
  service_container stage key app service n =
  to_lower (stage_string stage) +:+ String underscore (itoa key +:+ String underscore
    (to_lower app +:+ "_compose-" +:+ service +:+ "-" +:+ itoa n)).
Proof.
  unfold service_container. rewrite BuildComposeContainerName_eq.
  by rewrite ?str_app_cons, ?str_app_assoc, ?str_app_cons, ?str_app_assoc, ?str_app_cons, ?str_app_assoc.
Qed.

Lemma service_plain_match stage key app service n : stage = DEV ∨ stage = PROD →
  ContainerNameRegexExp (service_container stage key app service n) = true.
Proof.
  intros Hs. rewrite service_container_eq. set (rest := to_lower app +:+ _).
  assert (lit "_" (λ r, lit "_" (λ _, true) (drop_while is_digit r)) (String underscore (itoa key +:+ String underscore rest)) = true) as Hm.
  { cbn [lit]. change (Ascii.eqb "_" underscore) with true. cbn [andb].
    rewrite drop_while_app; [reflexivity|apply itoa_digits|reflexivity]. }
  unfold ContainerNameRegexExp. destruct Hs as [-> | ->]; [apply somewhere_here|apply somewhere_later, somewhere_here]; exact Hm.
Qed.

Lemma service_compose_match stage key app service n : stage = DEV ∨ stage = PROD →
  app ≠ "" → str_forall alnum app = true → service ≠ "" → str_forall alnum service = true →
  ComposeContainerNameRegexExp (service_container stage key app service n) = true.
Proof.
  intros Hs Ha Hac Hn Hnc. rewrite service_container_eq.
  assert (to_lower app ≠ "") as Hla by (by destruct app).
  unfold ComposeContainerNameRegexExp. apply somewhere_here.
  set (tail := lit "_" _).
  assert (tail (String underscore (itoa key +:+ String underscore (to_lower app +:+ "_compose-" +:+ service +:+ "-" +:+ itoa n))) = true) as Ht.
  { subst tail. rewrite lit_underscore.
    rewrite some_then_app; [|apply itoa_nonempty|apply itoa_digits|done]. rewrite lit_underscore.
    rewrite (some_then_app alnum _ (to_lower app) underscore ("compose-" +:+ service +:+ "-" +:+ itoa n));
      [|done|by apply alnum_lower|done].
    rewrite (lit_app "_compose-" _ (service +:+ String "-" (itoa n))).
    rewrite some_then_app; [|done..].
    simpl. pose proof (itoa_nonempty n) as Hne. pose proof (itoa_digits n) as Hd.
    destruct (itoa n) as [|d r]; [done|]. simpl in *. by apply andb_prop in Hd as [-> _]. }
  destruct Hs as [-> | ->].
  - change (to_lower (stage_string DEV)) with "dev". by rewrite lit_app, Ht.
  - change (to_lower (stage_string PROD)) with "prod". by rewrite (lit_app "prod"), Ht, orb_true_r.
Qed.

(** started containers find the right observer as long as their names are plain: a service
    container of a compose app whose app and service names are alphanumeric makes the
    spawner observe the compose project of the app.  But a service container whose name the
    pattern does not cover (an app name with an underscore, a service name with a hyphen or
    an underscore) is taken for the container of the app itself: the spawner observes that
    one container, under a made-up app name, with the key and the stage of the app. *)
Theorem spawner_dispatch stage key app service n :
  stage = DEV ∨ stage = PROD → (key < two64)%N →
  let name := service_container stage key app service n in
  let made_up := to_lower app +:+ "_compose-" +:+ service +:+ "-" +:+ itoa n in
  (app ≠ "" → str_forall alnum app = true → service ≠ "" → str_forall alnum service = true →
   container_started name = ignore (addComposeObserver stage key (to_lower app)))
  ∧ (ComposeContainerNameRegexExp name = false →
     container_started name = ignore (addObserver stage key made_up)
     ∧ BuildContainerName stage key made_up = to_lower name).
Proof.
  intros Hs Hk name made_up. unfold container_started. split.
  - intros Ha Hac Hn Hnc. unfold name at 1. rewrite service_compose_match by done.
    assert (lacks "-" (BuildComposeContainerName stage key app) = true) as Hl.
    { rewrite BuildComposeContainerName_eq. unfold lacks.
      rewrite str_forall_app. apply andb_true_intro. split; [by destruct Hs as [-> | ->]|].
      cbn [str_forall]. apply andb_true_intro. split; [done|].
      rewrite str_forall_app. apply andb_true_intro. split; [by apply itoa_lacks|].
      cbn [str_forall]. apply andb_true_intro. split; [done|].
      rewrite str_forall_app. apply andb_true_intro. split; [|done].
      apply (alnum_lacks "-"); [done|by apply alnum_lower]. }
    unfold name, service_container. change ("-" +:+ ?x) with (String "-" x).
    rewrite split_on_app by done. cbn [hd].
    assert (lacks underscore app = true) as Hu by (by apply alnum_lacks).
    by rewrite parse_built_compose_name.
  - intros Hm. rewrite Hm. unfold name at 1. rewrite service_plain_match by done.
    split.
    + unfold name. rewrite service_container_eq. fold made_up. by rewrite parse_container_text.
    + unfold name. rewrite service_container_eq. fold made_up. rewrite BuildContainerName_eq.
      rewrite (to_lower_app (to_lower _)), to_lower_idem. f_equal.
      change (to_lower (String underscore (itoa key +:+ ?x))) with (String underscore (to_lower (itoa key +:+ x))).
      by rewrite to_lower_app, to_lower_itoa.
Qed.
End spawner.

(** A compose project whose database service is called [my-db]: the database alone is
    observed, as if it were the app. *)
Lemma spawner_dispatch_witness :
  container_started "prod_7_demo_compose-web-1" = ignore (addComposeObserver PROD 7 "demo")
  ∧ container_started "prod_7_demo_compose-my-db-1" = ignore (addObserver PROD 7 "demo_compose-my-db-1").
Proof.
  split.
  - apply (proj1 (spawner_dispatch PROD 7 "Demo" "web" 1 (or_intror eq_refl) eq_refl)); done.
  - apply (proj1 (proj2 (spawner_dispatch PROD 7 "Demo" "my-db" 1 (or_intror eq_refl) eq_refl) ltac:(vm_compute; reflexivity))).
Defined.

(** When that service ends, the observer makes the whole app fail, although the project's
    other containers run. *)
Definition migration_done : override := λ T c _,
  match c in AgentCall T return option T with
  | CtrState _ => Some (inl {| st_Status := "exited"; st_ExitCode := 0 |})
  | CtrListProject _ => Some (inl [{| ct_ID := "c1"; ct_Names := ["/prod_7_demo_compose-web-1"]; ct_Labels := [];
                                      ct_State := "running"; ct_ExitCode := 0; ct_NetworkMode := "bridge" |}])
  | _ => None
  end.

Definition ex_migrated : agent_state :=
  (spawner_loop [ex_start "prod_7_demo_compose-my-db-1"] (ex_env migration_done) (ex_state (ex_world RUNNING RUNNING))).2.

Example one_service_fails_app :
  match spawned (log ex_migrated) with
  | [o] => (app_CurrentState <$> heap (world (run_observer o 1 (ex_env migration_done) ex_migrated).2) !! 0%nat) = Some FAILED
  | _ => False
  end.
Proof. vm_compute. reflexivity. Qed.
