(* ===== verification/Messenger.v ===== *)
(** * The connection to the router (src/src/messenger/wamp.go)

    A session keeps one WAMP client at a time.  [connect] dials until it succeeds or the
    session is closed, and starts a watcher, which reconnects when the connection is lost or
    the heartbeat gives up, and a heartbeat, which reports the device's status.  Clients and
    heartbeat channels are numbered; a closed session is a cancelled context. *)
From S2P Require Import Prelude Errdefs GoValue Common Records Effects HostPorts World.
Open Scope go_scope.

(** ** Data *)

Inductive DeviceStatus := CONNECTED | DISCONNECTED | CONFIGURING | EMERGENCY.

Definition status_string (s : DeviceStatus) : string :=
  match s with
  | CONNECTED => "CONNECTED" | DISCONNECTED => "DISCONNECTED"
  | CONFIGURING => "CONFIGURING" | EMERGENCY => "EMERGENCY"
  end.

(** Durations in nanoseconds; 0 is unset. *)
Record SocketConfig := {
  sk_PingPongTimeout : Z;
  sk_ResponseTimeout : Z;
  sk_ConnectionTimeout : Z;
  sk_HeartbeatInterval : Z;
  sk_SetupTestament : bool;
}.

Record ConnectConfig := {
  cn_Realm : string;
  cn_authid : string;
  cn_Debug : bool;
  cn_client_certificate : bool;
  cn_KeepAlive : Z;
  cn_ResponseTimeout : Z;
}.

(** The session and the part of the configuration that changes while it lives. *)
Record WampSession := {
  ws_client : option nat;
  ws_next : nat;
  ws_heartbeatDone : option nat;
  ws_done : gset nat;
  ws_closed : bool;
  ws_onConnect : bool;
  ws_SwarmKey : N;
  ws_DeviceKey : N;
  ws_ReswarmBaseURL : string;
}.

Definition put_client (v : option nat) (s : WampSession) : WampSession :=
  {| ws_client := v; ws_next := ws_next s; ws_heartbeatDone := ws_heartbeatDone s; ws_done := ws_done s;
     ws_closed := ws_closed s; ws_onConnect := ws_onConnect s; ws_SwarmKey := ws_SwarmKey s;
     ws_DeviceKey := ws_DeviceKey s; ws_ReswarmBaseURL := ws_ReswarmBaseURL s |}.
Definition put_next (v : nat) (s : WampSession) : WampSession :=
  {| ws_client := ws_client s; ws_next := v; ws_heartbeatDone := ws_heartbeatDone s; ws_done := ws_done s;
     ws_closed := ws_closed s; ws_onConnect := ws_onConnect s; ws_SwarmKey := ws_SwarmKey s;
     ws_DeviceKey := ws_DeviceKey s; ws_ReswarmBaseURL := ws_ReswarmBaseURL s |}.
Definition put_heartbeatDone (v : option nat) (s : WampSession) : WampSession :=
  {| ws_client := ws_client s; ws_next := ws_next s; ws_heartbeatDone := v; ws_done := ws_done s;
     ws_closed := ws_closed s; ws_onConnect := ws_onConnect s; ws_SwarmKey := ws_SwarmKey s;
     ws_DeviceKey := ws_DeviceKey s; ws_ReswarmBaseURL := ws_ReswarmBaseURL s |}.
Definition put_done (v : gset nat) (s : WampSession) : WampSession :=
  {| ws_client := ws_client s; ws_next := ws_next s; ws_heartbeatDone := ws_heartbeatDone s; ws_done := v;
     ws_closed := ws_closed s; ws_onConnect := ws_onConnect s; ws_SwarmKey := ws_SwarmKey s;
     ws_DeviceKey := ws_DeviceKey s; ws_ReswarmBaseURL := ws_ReswarmBaseURL s |}.
Definition put_closed (v : bool) (s : WampSession) : WampSession :=
  {| ws_client := ws_client s; ws_next := ws_next s; ws_heartbeatDone := ws_heartbeatDone s; ws_done := ws_done s;
     ws_closed := v; ws_onConnect := ws_onConnect s; ws_SwarmKey := ws_SwarmKey s;
     ws_DeviceKey := ws_DeviceKey s; ws_ReswarmBaseURL := ws_ReswarmBaseURL s |}.
Definition put_onConnect (v : bool) (s : WampSession) : WampSession :=
  {| ws_client := ws_client s; ws_next := ws_next s; ws_heartbeatDone := ws_heartbeatDone s; ws_done := ws_done s;
     ws_closed := ws_closed s; ws_onConnect := v; ws_SwarmKey := ws_SwarmKey s;
     ws_DeviceKey := ws_DeviceKey s; ws_ReswarmBaseURL := ws_ReswarmBaseURL s |}.
Definition put_ReswarmBaseURL (v : string) (s : WampSession) : WampSession :=
  {| ws_client := ws_client s; ws_next := ws_next s; ws_heartbeatDone := ws_heartbeatDone s; ws_done := ws_done s;
     ws_closed := ws_closed s; ws_onConnect := ws_onConnect s; ws_SwarmKey := ws_SwarmKey s;
     ws_DeviceKey := ws_DeviceKey s; ws_ReswarmBaseURL := v |}.

(** What a [select] yields: the end of the connection, the heartbeat's signal, the end of
    the session. *)
Inductive wake := ConnectionLost | HeartbeatFailed | SessionClosed.

(** A step run with a time limit. *)
Inductive bounded := Finished (r : unit + error) | Panicked | TimedOut.

Inductive SessCall : Type → Type :=
  | ConnectNet (url : string) (cfg : ConnectConfig) (timeout : Z) : SessCall (unit + error)
  | RegisterEstablished (client : nat) (topic : string) : SessCall (unit + error)
  | SubscribeDestroy (client : nat) (topic : string) : SessCall (unit + error)
  | CloseClient (client : nat) : SessCall unit
  | ClientConnected (client : nat) : SessCall bool
  | SessionID (client : nat) : SessCall N
  | RouterPublish (client : nat) (topic : string) (args : list goval) : SessCall (unit + error)
  | RouterSubscribe (client : nat) (topic : string) : SessCall (unit + error)
  | RouterRegister (client : nat) (topic : string) (options : gomap) : SessCall (unit + error)
  | RouterCall (client : nat) (topic : string) (args : list goval) : SessCall (option (list goval) + error)
  | Bounded_SetupTestament : SessCall bounded
  | CancelAllStreams : SessCall bounded
  | Pause (ns : Z) : SessCall unit
  | AwaitEnd (client heartbeat : nat) : SessCall wake
  | AwaitClose : SessCall unit
  | IsEmergency : SessCall bool
  | GetStats : SessCall gomap
  | TunnelCapability : SessCall (option bool)
  | PruneSystem : SessCall unit
  | ExitProcess : SessCall unit
  (* goroutines *)
  | GoWatch (client heartbeat : nat) : SessCall unit
  | GoHeartbeat (heartbeat : nat) : SessCall unit
  | GoOnConnect : SessCall unit.

Abbreviation Sess := (M SessCall WampSession).
Abbreviation sess_env := (env SessCall WampSession).
Abbreviation sess_state := (state SessCall WampSession).

(** What the session takes from the command line, the device's certificate and the WAMP
    library: its name for the error of a taken procedure, and [tls.X509KeyPair]. *)
Class WampHost := {
  socketConfig : SocketConfig;
  offline_flag : bool;
  debug_messaging : bool;
  has_container : bool;
  certificate_pair : unit + error;
  ErrProcedureAlreadyExists : string;
}.

Definition millisecond : Z := 1000000.
Definition reconnectBackoff : Z := 1000 * millisecond.
Definition maxDuplicateSerialAttempts : nat := 8.
Definition DefaultHeartbeatInterval : Z := 30 * 1000 * millisecond.
Definition maxConsecutiveFailures : nat := 2.

Definition canceled_context : error := Plain "context canceled".
Definition ErrNotConnected : error := Plain "not connected".

(** [devices], then anything on the line up to [.com:8080] or [.io:8080]. *)
Definition legacyEndpoint : string → bool :=
  somewhere (lit "devices" (λ s,
    (fix rest s := lit ".com:8080" (λ _, true) s || lit ".io:8080" (λ _, true) s ||
       match s with "" => false | String c r => negb (Ascii.eqb c newline) && rest r end) s)).

Section session.
Context `{GoRuntime} `{Host} `{WampHost}.

(** ** Dialling *)

(** The answer to the authentication challenge is computed by the library from the secret. *)
Definition createConnectConfig (s : WampSession) : ConnectConfig + error :=
  let authid := itoa (ws_SwarmKey s) +:+ "-" +:+ itoa (ws_DeviceKey s) in
  let legacy := legacyEndpoint (cfg_DeviceEndpointURL config) in
  match (if legacy then certificate_pair else inl tt) with
  | inr e => inr e
  | inl _ =>
      inl {| cn_Realm := "realm1"; cn_authid := authid; cn_Debug := debug_messaging;
             cn_client_certificate := legacy; cn_KeepAlive := sk_PingPongTimeout socketConfig;
             cn_ResponseTimeout := sk_ResponseTimeout socketConfig |}
  end.

Definition fresh_id : Sess nat :=
  let! n := gets ws_next in
  modify (put_next (S n));; ret n.

(** [os.Exit]: it does not return. *)
Definition exit_process {A} : Sess A := call ExitProcess;; hang.

(** Whether the pause ended with the session still open. *)
Definition sleepOrDone (d : Z) : Sess bool :=
  call (Pause d);;
  let! closed := gets ws_closed in
  ret (negb closed).

(** How a round of the dial loop ends; the number counts the taken procedures so far. *)
Inductive dialed :=
  | Dialed (client : nat)
  | DialAgain (dupRegisterFailures : nat)
  | DialEnded (err : error).

Definition dial_again (dupRegisterFailures : nat) : Sess dialed :=
  let! go := sleepOrDone reconnectBackoff in
  ret (if go then DialAgain dupRegisterFailures else DialEnded canceled_context).

Definition established_topic : string :=
  "re.mgmt." +:+ cfg_SerialNumber config +:+ ".wamp_connection_established".

(** The format verb of the topic constant is never filled in. *)
Definition ondestroy_topic : string := "reswarm.device.%d.list/ondestroy".

Definition dial_round (dupRegisterFailures : nat) : Sess dialed :=
  let! closed := gets ws_closed in
  if closed then ret (DialEnded canceled_context)
  else
    let! connectionConfig := gets createConnectConfig in
    match connectionConfig with
    | inr _ => dial_again dupRegisterFailures
    | inl cfg =>
        let! r := call (ConnectNet (cfg_DeviceEndpointURL config) cfg (sk_ConnectionTimeout socketConfig)) in
        match r with
        | inr err =>
            if str_contains "WAMP-CRA client signature is invalid" (error_text err) then exit_process
            else dial_again dupRegisterFailures
        | inl _ =>
            let! c := fresh_id in
            let! reg := call (RegisterEstablished c established_topic) in
            match reg with
            | inr regErr =>
                if str_contains ErrProcedureAlreadyExists (error_text regErr) then
                  if (maxDuplicateSerialAttempts <=? S dupRegisterFailures)%nat then exit_process
                  else call (CloseClient c);; dial_again (S dupRegisterFailures)
                else call (SubscribeDestroy c ondestroy_topic);; ret (Dialed c)
            | inl _ => call (SubscribeDestroy c ondestroy_topic);; ret (Dialed c)
            end
        end
    end.

(** At most [n] rounds; [None] while the loop still runs. *)
Fixpoint dial_rounds (n dupRegisterFailures : nat) : Sess (option (nat + error)) :=
  match n with
  | O => ret None
  | S n =>
      let! r := dial_round dupRegisterFailures in
      match r with
      | Dialed c => ret (Some (inl c))
      | DialAgain dup => dial_rounds n dup
      | DialEnded err => ret (Some (inr err))
      end
  end.

Definition dial (n : nat) : Sess (option (nat + error)) :=
  if offline_flag then call AwaitClose;; ret (Some (inr canceled_context))
  else dial_rounds n 0.

(** The body of the subscription to the destruction of the device. *)
Definition on_destroy : Sess unit :=
  when has_container (call PruneSystem);;
  exit_process.

(** ** Requests to the router *)

(** [c := s.currentClient(); if c == nil { return ErrNotConnected }]. *)
Definition with_client {A} (f : nat → Sess A) : Sess A :=
  let! c := gets ws_client in
  match c with None => throw ErrNotConnected | Some c => f c end.

Definition Publish (topic : string) (args : list goval) : Sess unit :=
  with_client (λ c, callE (RouterPublish c topic args)).
Definition Subscribe (topic : string) : Sess unit := with_client (λ c, callE (RouterSubscribe c topic)).
Definition Register (topic : string) : Sess unit :=
  with_client (λ c, callE (RouterRegister c topic [("force_reregister", VBool true)])).
Definition Call (topic : string) (args : list goval) : Sess (option (list goval)) :=
  with_client (λ c, callE (RouterCall c topic args)).

Definition Connected : Sess bool :=
  let! c := gets ws_client in
  match c with None => ret false | Some c => call (ClientConnected c) end.

Definition GetSessionID : Sess N :=
  let! c := gets ws_client in
  match c with None => ret 0%N | Some c => call (SessionID c) end.

(** What an invocation answers: a failing callback becomes a cancelled call. *)
Definition invoke_result (r : (list goval * gomap) + error) : string * list goval * gomap :=
  match r with
  | inr err => ("wamp.error.canceled", [VMap [("error", VStr (error_text err))]], [])
  | inl (args, kwargs) => ("", args, kwargs)
  end.

Definition device_identity (s : WampSession) : gomap :=
  [("swarm_key", VInt (Z.of_N (ws_SwarmKey s))); ("device_key", VInt (Z.of_N (ws_DeviceKey s)))].

Definition SetupTestament : Sess unit :=
  let! identity := gets device_identity in
  let! id := GetSessionID in
  Call "wamp.session.add_testament"
    [VStr "reswarm.api.testament_device";
     VList [VMap (identity ++ [("serial_number", VStr (cfg_SerialNumber config));
                               ("wamp_session_id", VInt (Z.of_N id))])%list];
     VMap []];;
  ret tt.

(** ** The device's status *)

Definition status_payload (status : DeviceStatus) (identity : gomap) (id : N) (stats : gomap) (capable : option bool)
    : gomap :=
  (identity ++ [("status", VStr (status_string status)); ("wamp_session_id", VInt (Z.of_N id)); ("stats", VMap stats)]
   ++ match capable with Some b => [("tunnel_capable", VBool b)] | None => [] end)%list.

(** The base URL of an answer; a missing field prints as [<nil>]. *)
Definition adopt_base_url (answer : goval) : Sess unit :=
  match as_map answer with
  | None => ret tt
  | Some args =>
      let reswarmBaseURL := sprint (map_index "reswarmBaseURL" args) in
      if String.eqb reswarmBaseURL "" then ret tt else modify (put_ReswarmBaseURL reswarmBaseURL)
  end.

(** [res.Arguments[0]] of an empty list panics. *)
Definition UpdateRemoteDeviceStatus (status : DeviceStatus) : Sess unit :=
  let! emergency := (match status with CONNECTED => call IsEmergency | _ => ret false end) in
  let status := if emergency then EMERGENCY else status in
  let! stats := call GetStats in
  let! identity := gets device_identity in
  let! id := GetSessionID in
  let! capable := call TunnelCapability in
  let! arguments := Call "reswarm.devices.update_device_status" [VMap (status_payload status identity id stats capable)] in
  match arguments with
  | None => ret tt
  | Some [] => panic
  | Some (VNil :: _) => ret tt
  | Some (answer :: _) => adopt_base_url answer
  end.

(** ** Connecting *)

Definition timed_out : error := Plain "SetupTestament timed out after 10s".

Definition setupTestamentBounded : Sess unit :=
  let! r := call Bounded_SetupTestament in
  match r with
  | Finished (inl _) => ret tt
  | Finished (inr err) => throw err
  | Panicked => throw (Plain "panic in SetupTestament")
  | TimedOut => throw timed_out
  end.

(** Errors are logged, and the time limit lets the reconnect go on. *)
Definition cancelContainerStreams : Sess unit := when has_container (call CancelAllStreams;; ret tt).

Definition install_client (isReconnect : bool) (c : nat) : Sess unit :=
  let! hbDone := fresh_id in
  let! cb := gets ws_onConnect in
  modify (λ s, put_heartbeatDone (Some hbDone) (put_client (Some c) s));;
  when (sk_SetupTestament socketConfig) (
    let! r := try_ setupTestamentBounded in
    match r with
    | inl _ => ret tt
    | inr testErr =>
        if isReconnect then ret tt
        else
          call (CloseClient c);;
          modify (put_client None);;
          throw testErr
    end);;
  call (GoWatch c hbDone);;
  call (GoHeartbeat hbDone);;
  when (isReconnect && cb) (call GoOnConnect).

(** [false] while the dial loop still runs. *)
Definition connect (isReconnect : bool) (n : nat) : Sess bool :=
  let! r := dial n in
  match r with
  | None => ret false
  | Some (inr err) => throw err
  | Some (inl c) => install_client isReconnect c;; ret true
  end.

Definition watchDisconnect (c hbDone n : nat) : Sess unit :=
  let! w := call (AwaitEnd c hbDone) in
  match w with
  | SessionClosed => ret tt
  | _ => cancelContainerStreams;; ignore (connect true n)
  end.

(** The goroutine [GoWatch] starts: a panic is recovered by reconnecting. *)
Definition watcher (c hbDone n : nat) : Sess unit := λ en st,
  match watchDisconnect c hbDone n en st with
  | (Panic, st') =>
      (let! closed := gets ws_closed in when (negb closed) (ignore (connect true n))) en st'
  | r => r
  end.

(** ** The heartbeat *)

Definition heartbeatInterval : Z :=
  if (sk_HeartbeatInterval socketConfig =? 0)%Z then DefaultHeartbeatInterval else sk_HeartbeatInterval socketConfig.

(** [close(hbDone)]: closing a closed channel panics. *)
Definition signal_failure (hbDone : nat) : Sess unit :=
  let! done_ := gets ws_done in
  if decide (hbDone ∈ done_) then panic else modify (put_done ({[hbDone]} ∪ done_)).

(** One beat: the failures in a row afterwards, or [None] when the heartbeat ends. *)
Definition beat (hbDone consecutiveFailures : nat) : Sess (option nat) :=
  call (Pause heartbeatInterval);;
  let! closed := gets ws_closed in
  if closed then ret None
  else
    let! current := gets ws_heartbeatDone in
    if negb (bool_decide (current = Some hbDone)) then ret None
    else
      let! connected := Connected in
      if negb connected then ret (Some 0%nat)
      else
        let! r := try_ (UpdateRemoteDeviceStatus CONNECTED) in
        match r with
        | inl _ => ret (Some 0%nat)
        | inr _ =>
            if (maxConsecutiveFailures <=? S consecutiveFailures)%nat
            then signal_failure hbDone;; ret None
            else ret (Some (S consecutiveFailures))
        end.

Fixpoint beats (n hbDone consecutiveFailures : nat) : Sess (option nat) :=
  match n with
  | O => ret (Some consecutiveFailures)
  | S n =>
      let! r := beat hbDone consecutiveFailures in
      match r with None => ret None | Some failures => beats n hbDone failures end
  end.

(** ** The session as a whole *)

(** [NewWampSession], from the session before its first connection. *)
Definition open_session (n : nat) : Sess bool :=
  let! r := try_ (connect false n) in
  match r with
  | inl connected => ret connected
  | inr err => modify (put_closed true);; throw err
  end.

Definition SetOnConnect : Sess unit := modify (put_onConnect true).

Definition Reconnect : Sess unit :=
  let! c := gets ws_client in
  match c with None => ret tt | Some c => call (CloseClient c) end.

Definition Close : Sess unit :=
  modify (put_closed true);;
  let! c := gets ws_client in
  modify (put_client None);;
  match c with None => ret tt | Some c => call (CloseClient c) end.
End session.
