(* ===== verification/MessengerSpec.v ===== *)
(** * Properties of the connection to the router *)
From S2P Require Import Prelude Errdefs GoValue Common Records Effects HostPorts World Examples Messenger.
Open Scope go_scope.

(** ** Counting what a session did *)

Section spec.
Context {GR : GoRuntime} {HO : Host} {WH : WampHost}.

Abbreviation sess_event := (event SessCall WampSession).

Definition is_exit (e : sess_event) : bool := match e with Ev c _ _ => match c with ExitProcess => true | _ => false end end.
Definition is_watch (e : sess_event) : bool := match e with Ev c _ _ => match c with GoWatch _ _ => true | _ => false end end.
Definition is_heartbeat (e : sess_event) : bool := match e with Ev c _ _ => match c with GoHeartbeat _ => true | _ => false end end.

(** A refusal of the device's signature by the router. *)
Definition bad_signature (r : unit + error) : bool :=
  match r with inr e => str_contains "WAMP-CRA client signature is invalid" (error_text e) | inl _ => false end.

(** The answer that another session holds the device's procedure. *)
Definition taken (r : unit + error) : bool :=
  match r with inr e => str_contains ErrProcedureAlreadyExists (error_text e) | inl _ => false end.

Definition is_refused (e : sess_event) : bool :=
  match e with Ev c r _ =>
    match c in SessCall T return T → bool with ConnectNet _ _ _ => bad_signature | _ => λ _, false end r end.
Definition is_taken (e : sess_event) : bool :=
  match e with Ev c r _ =>
    match c in SessCall T return T → bool with RegisterEstablished _ _ => taken | _ => λ _, false end r end.

Definition tally (f : sess_event → bool) (st : sess_state) : nat := length (List.filter f (log st)).

Variable en : sess_env.
(** A call moves a tally by what it is. *)
Lemma tally_call f {T} (c : SessCall T) st :
  tally f (call c en st).2 = ((if f (Ev c (answer en T c (log st)) (world st)) then 1 else 0) + tally f st)%nat.
Proof. unfold tally, call. cbn [fst snd log List.filter]. by destruct (f _). Qed.

Variable st0 : sess_state.

(** Since [st0]: exits, watchers, heartbeats, refusals at least, taken procedures. *)
Record since (x w h d : nat) (st : sess_state) : Prop := {
  since_exit : tally is_exit st = (tally is_exit st0 + x)%nat;
  since_watch : tally is_watch st = (tally is_watch st0 + w)%nat;
  since_heartbeat : tally is_heartbeat st = (tally is_heartbeat st0 + h)%nat;
  since_taken : tally is_taken st = (tally is_taken st0 + d)%nat;
  since_refused : (tally is_refused st0 ≤ tally is_refused st)%nat;
}.

Definition nothing {T} (c : SessCall T) : bool :=
  match c with
  | ExitProcess | GoWatch _ _ | GoHeartbeat _ | RegisterEstablished _ _ => false
  | _ => true
  end.

Lemma since_call x w h d {T} (c : SessCall T) : nothing c = true → keeps en (since x w h d) (call c).
Proof.
  intros Hc st [H1 H2 H3 H4 H5]. split; rewrite tally_call; destruct c; done || (simpl; lia).
Qed.

Lemma since_modify x w h d f : keeps en (since x w h d) (modify f).
Proof. intros st [H1 H2 H3 H4 H5]. by split. Qed.

Lemma since_fresh x w h d : triple en (since x w h d) fresh_id (on_ok (λ _, since x w h d)).
Proof. intros st [H1 H2 H3 H4 H5]. by split. Qed.

(** Why the process may exit. *)
Definition exit_reason (st : sess_state) : Prop :=
  (tally is_refused st0 < tally is_refused st)%nat
  ∨ (maxDuplicateSerialAttempts + tally is_taken st0 ≤ tally is_taken st)%nat.

Definition exited (st : sess_state) : Prop := tally is_exit st = S (tally is_exit st0) ∧ exit_reason st.

(** What a round of dialling leaves behind. *)
Definition round_post (o : outcome dialed) (st : sess_state) : Prop :=
  match o with
  | Ok (Dialed _) => ∃ d, since 0 0 0 d st
  | Ok (DialAgain d) => (d < maxDuplicateSerialAttempts)%nat ∧ since 0 0 0 d st
  | Ok (DialEnded _) => ws_closed (world st) = true ∧ ∃ d, since 0 0 0 d st
  | Hang => exited st
  | _ => False
  end.

Lemma again_spec d : (d < maxDuplicateSerialAttempts)%nat → triple en (since 0 0 0 d) (dial_again d) round_post.
Proof.
  intros Hd. unfold dial_again, sleepOrDone. intros st Hst.
  pose proof (since_call 0 0 0 d (Pause reconnectBackoff) eq_refl st Hst) as Hc.
  unfold bind, gets, ret. destruct (call (Pause reconnectBackoff) en st) as [o st1] eqn:E.
  assert (o = Ok (answer en unit (Pause reconnectBackoff) (log st))) as -> by (unfold call in E; congruence).
  simpl in *. destruct (ws_closed (world st1)) eqn:Ec; simpl; [|done]. split; [done|by exists d].
Qed.

Lemma exit_spec {A} d : triple en (λ st, since 0 0 0 d st ∧ exit_reason st) (exit_process (A := A)) (λ o st, o = Hang ∧ exited st).
Proof.
  intros st [Hst Hr]. unfold exit_process, bind. simpl. split; [done|].
  change (exited (call ExitProcess en st).2). split.
  - rewrite tally_call. simpl. destruct Hst as [Hx _ _ _ _]. lia.
  - unfold exit_reason in *. rewrite !tally_call. exact Hr.
Qed.

Lemma subscribed_spec c d :
  triple en (since 0 0 0 d) (call (SubscribeDestroy c ondestroy_topic);; ret (Dialed c))%go round_post.
Proof.
  intros st Hst. pose proof (since_call 0 0 0 d (SubscribeDestroy c ondestroy_topic) eq_refl st Hst) as Hc.
  unfold bind, ret. simpl in *. by exists d.
Qed.

Lemma round_spec d : (d < maxDuplicateSerialAttempts)%nat → triple en (since 0 0 0 d) (dial_round d) round_post.
Proof.
  intros Hd. unfold dial_round.
  apply triple_bind with (R := λ closed st, closed = ws_closed (world st) ∧ since 0 0 0 d st); [by intros st Hst|].
  intros [|] st [Hc Hst]; [by split; [|exists d]|]. clear Hc. revert st Hst.
  match goal with |- ∀ st, _ → round_post (?m en st).1 (?m en st).2 => change (triple en (since 0 0 0 d) m round_post) end.
  apply triple_bind with (R := λ _, since 0 0 0 d); [by intros st Hst|].
  intros [cfg|e]; [|by apply again_spec].
  intros st Hst. set (net := ConnectNet _ _ _).
  destruct (call net en st) as [o st1] eqn:E.
  assert (o = Ok (answer en _ net (log st))) as -> by (unfold call in E; congruence).
  rewrite (bind_ok en st st1 _ _ _ E).
  assert (since 0 0 0 d st1 ∧ (bad_signature (answer en _ net (log st)) = true → tally is_refused st0 < tally is_refused st1)%nat) as [Hst1 Hbad].
  { assert (st1 = (call net en st).2) as -> by (by rewrite E). split; [by apply since_call|].
    intros Hb. rewrite tally_call. unfold net at 1. cbn [is_refused]. fold net. rewrite Hb. destruct Hst as [_ _ _ _ Hr]. lia. }
  destruct (answer en _ net (log st)) as [[]|err]; simpl in Hbad; clear E net.
  - clear Hbad st Hst. revert st1 Hst1.
    match goal with |- ∀ st, _ → round_post (?m en st).1 (?m en st).2 => change (triple en (since 0 0 0 d) m round_post) end.
    apply triple_bind with (R := λ _, since 0 0 0 d).
    { intros st Hst. apply (since_fresh 0 0 0 d st Hst). }
    intros c st Hst. set (reg := RegisterEstablished c _).
    destruct (call reg en st) as [o st1] eqn:E.
    assert (o = Ok (answer en _ reg (log st))) as -> by (unfold call in E; congruence).
    rewrite (bind_ok en st st1 _ _ _ E).
    assert (since 0 0 0 ((if taken (answer en _ reg (log st)) then 1 else 0) + d) st1) as Hst1.
    { assert (st1 = (call reg en st).2) as -> by (by rewrite E).  destruct Hst as [G1 G2 G3 G4 G5].
      split; rewrite tally_call; simpl; lia. }
    destruct (answer en _ reg (log st)) as [[]|err]; simpl in Hst1; [by apply (subscribed_spec c d)|].
    destruct (str_contains _ _); [|by apply (subscribed_spec c d)]. simpl in Hst1.
    destruct (Nat.leb_spec maxDuplicateSerialAttempts (S d)).
    + assert (exit_reason st1) as Hr by (right; destruct Hst1 as [_ _ _ G4 _]; lia).
      destruct (exit_spec (A := dialed) (S d) st1 (conj Hst1 Hr)) as [Ho Hx]. by rewrite Ho.
    + rewrite (bind_ok en st1 (call (CloseClient c) en st1).2 _ _ (answer en unit (CloseClient c) (log st1)) eq_refl).
      by apply again_spec, since_call.
  - destruct (str_contains _ _); [|by apply again_spec].
    destruct (exit_spec (A := dialed) d st1 (conj Hst1 (or_introl (Hbad eq_refl)))) as [Ho Hx]. by rewrite Ho.
Qed.

(** ** The whole loop, and what follows it *)

Definition rounds_post (o : outcome (option (nat + error))) (st : sess_state) : Prop :=
  match o with
  | Ok (Some (inr _)) => ws_closed (world st) = true ∧ ∃ d, since 0 0 0 d st
  | Ok _ => ∃ d, since 0 0 0 d st
  | Hang => exited st
  | _ => False
  end.

Lemma rounds_spec n d : (d < maxDuplicateSerialAttempts)%nat → triple en (since 0 0 0 d) (dial_rounds n d) rounds_post.
Proof.
  revert d. induction n as [|n IH]; intros d Hd st Hst; [by exists d|]. cbn [dial_rounds].
  pose proof (round_spec d Hd st Hst) as Hr.
  destruct (dial_round d en st) as [[[c|d'|e]|e| |] st1] eqn:E; simpl in Hr; try done.
  - by rewrite (bind_ok en st st1 _ _ _ E).
  - rewrite (bind_ok en st st1 _ _ _ E). destruct Hr as [Hd1 Hr]. by apply IH.
  - by rewrite (bind_ok en st st1 _ _ _ E).
  - unfold bind. by rewrite E.
Qed.

(** Steps that always return. *)
Definition certain {A} (P : sess_state → Prop) (m : Sess A) (R : sess_state → Prop) : Prop :=
  triple en P m (λ o st, (∃ a, o = Ok a) ∧ R st).

Lemma certain_bind {A B} P R Q (m : Sess A) (f : A → Sess B) :
  certain P m R → (∀ a, certain R (f a) Q) → certain P (bind m f) Q.
Proof.
  intros Hm Hf st Hst. destruct (Hm st Hst) as [[a Ha] HR]. destruct (m en st) as [o st1] eqn:E. simpl in *. subst o.
  rewrite (bind_ok en st st1 _ _ _ E). by apply Hf.
Qed.

Lemma certain_call x w h d {T} (c : SessCall T) : nothing c = true → certain (since x w h d) (call c) (since x w h d).
Proof. intros Hc st Hst. split; [by eexists|]. by apply since_call. Qed.

Lemma install_spec c d : certain (since 0 0 0 d) (install_client true c) (since 0 1 1 d).
Proof.
  unfold install_client. apply certain_bind with (since 0 0 0 d).
  { intros st Hst. split; [by eexists|]. apply (since_fresh 0 0 0 d st Hst). }
  intros hb. apply certain_bind with (since 0 0 0 d); [intros st Hst; split; [by eexists|done]|intros cb].
  apply certain_bind with (since 0 0 0 d); [intros st Hst; split; [by eexists|by apply since_modify]|intros _].
  apply certain_bind with (since 0 0 0 d).
  { unfold when. destruct (sk_SetupTestament _); [|intros st Hst; split; [by eexists|done]].
    apply certain_bind with (since 0 0 0 d); [|intros [|]; intros st Hst; split; try done; by eexists].
    intros st Hst. unfold try_, setupTestamentBounded.
    rewrite (bind_ok en st (call Bounded_SetupTestament en st).2 _ _ (answer en _ Bounded_SetupTestament (log st)) eq_refl).
    pose proof (since_call 0 0 0 d Bounded_SetupTestament eq_refl st Hst) as Hc.
    destruct (answer en _ Bounded_SetupTestament (log st)) as [[]| |]; (split; [by eexists|exact Hc]). }
  intros _. apply certain_bind with (since 0 1 0 d).
  { intros st [G1 G2 G3 G4 G5]. split; [by eexists|]. split; rewrite tally_call; simpl; lia. }
  intros _. apply certain_bind with (since 0 1 1 d).
  { intros st [G1 G2 G3 G4 G5]. split; [by eexists|]. split; rewrite tally_call; simpl; lia. }
  intros _. unfold when. destruct cb; simpl; [by apply certain_call|]. intros st Hst. by split; [eexists|].
Qed.
End spec.

(** ** Which client a reconnect installs *)

Section installed.
Context {GR : GoRuntime} {HO : Host} {WH : WampHost}.
Variable en : sess_env.

Abbreviation sess_events := (list (event SessCall WampSession)).

(** [l] was added to the log. A client is announced when the router does not answer that
    another session holds the device's procedure. *)
Definition adds (st st' : sess_state) (l : sess_events) : Prop := log st' = (l ++ log st)%list.
Definition announced (c : nat) (l : sess_events) : Prop := ∃ topic r w, Ev (RegisterEstablished c topic) r w ∈ l ∧ taken r = false.
Definition watched (c hb : nat) (l : sess_events) : Prop := (∃ r w, Ev (GoWatch c hb) r w ∈ l) ∧ ∃ r w, Ev (GoHeartbeat hb) r w ∈ l.

(** Nobody else installs a client meanwhile. *)
Definition client_private : Prop := ∀ lg s,
  ws_client (interfere en lg s) = ws_client s ∧ ws_heartbeatDone (interfere en lg s) = ws_heartbeatDone s.

Lemma keeps_log_call {T} (c : SessCall T) st : keeps en (λ st', ∃ l, adds st st' l) (call c).
Proof. apply keeps_call. intros st' r [l Hl]. exists (Ev c r (world st') :: l)%list. unfold adds in *. cbn. by rewrite Hl. Qed.

Lemma keeps_log_round d st : keeps en (λ st', ∃ l, adds st st' l) (dial_round d).
Proof.
  unfold dial_round, dial_again, sleepOrDone, fresh_id, exit_process. repeat (keeps_step || apply keeps_log_call || by apply keeps_modify).
Qed.

(** A round that has dialled [c] announced it as the device's session. *)
Lemma round_announces d st c st1 : dial_round d en st = (Ok (Dialed c), st1) → ∃ l, adds st st1 l ∧ announced c l.
Proof.
  unfold dial_round. intros Hd. apply bind_returned in Hd as (closed & st2 & Hg & Hd). injection Hg as <- <-. destruct (ws_closed _); [done|].
  assert (∀ k s, dial_again k en s ≠ (Ok (Dialed c), st1)) as Hagain.
  { intros k s E. unfold dial_again in E. apply bind_returned in E as (go & s2 & _ & E). by destruct go. }
  apply bind_returned in Hd as (cfg & st2 & Hg & Hd). injection Hg as Hcfg <-. destruct cfg as [cfg|e]; [|by apply Hagain in Hd].
  apply bind_returned in Hd as (r & st2 & Hc & Hd). unfold call in Hc. injection Hc as <- <-.
  destruct (answer en _ _ (log st)) as [[]|e]; [|destruct (str_contains _ _); [|by apply Hagain in Hd]; unfold exit_process in Hd; by apply bind_returned in Hd as (? & ? & _ & Hd)].
  apply bind_returned in Hd as (c' & st2 & Hf & Hd). unfold fresh_id, bind, gets, modify, ret in Hf. injection Hf as <- <-. cbn [log world] in Hd.
  apply bind_returned in Hd as (reg & st2 & Hr & Hd). unfold call in Hr. injection Hr as Hreg <-.
  destruct reg as [[]|e].
  - apply bind_returned in Hd as (u & st3 & Hs & Hd). unfold call in Hs. injection Hs as _ <-. injection Hd as <- <-.
    eexists [_; _; _]. split; [reflexivity|]. eexists _, _, _. split; [right; left|]. by rewrite Hreg.
  - destruct (str_contains _ _) eqn:Etaken.
    + destruct (_ <=? _)%nat; [unfold exit_process in Hd; by apply bind_returned in Hd as (? & ? & _ & Hd)|].
      apply bind_returned in Hd as (? & ? & _ & Hd). by apply Hagain in Hd.
    + apply bind_returned in Hd as (u & st3 & Hs & Hd). unfold call in Hs. injection Hs as _ <-. injection Hd as <- <-.
      eexists [_; _; _]. split; [reflexivity|]. eexists _, _, _. split; [right; left|]. by rewrite Hreg.
Qed.

Lemma rounds_announce n d st c st1 : dial_rounds n d en st = (Ok (Some (inl c)), st1) → ∃ l, adds st st1 l ∧ announced c l.
Proof.
  revert d st. induction n as [|n IH]; intros d st Hd; [done|]. cbn [dial_rounds] in Hd. apply bind_returned in Hd as (r & st2 & Hr & Hd).
  destruct r as [c'|d'|e]; [injection Hd as <- <-; by eapply round_announces| |done].
  destruct (IH _ _ Hd) as (l & Hl & Hreg). pose proof (keeps_log_round d st st (ex_intro _ [] eq_refl)) as Hk. rewrite Hr in Hk. destruct Hk as [l2 Hl2].
  exists (l ++ l2)%list. split; [unfold adds in *; cbn [snd] in Hl2; by rewrite Hl, Hl2, app_assoc|].
  destruct Hreg as (topic & r & w & Hin & Ht). exists topic, r, w. split; [apply elem_of_app; by left|done].
Qed.

(** The installed client is the one that is kept, watched, and beaten for. *)
Lemma install_watches c st : let st' := (install_client true c en st).2 in
  ∃ hb l, adds st st' l ∧ watched c hb l ∧ (client_private → ws_client (world st') = Some c ∧ ws_heartbeatDone (world st') = Some hb).
Proof.
  exists (ws_next (world st)).
  unfold install_client, fresh_id, when, try_, setupTestamentBounded, call, bind, gets, modify, ret.
  destruct (sk_SetupTestament socketConfig);
    [destruct (answer en bounded Bounded_SetupTestament _) as [[[]|e]| |]|]; cbn; destruct (ws_onConnect (world st)); cbn;
    (first [eexists [_; _]; split; [reflexivity|] | eexists [_; _; _]; split; [reflexivity|] | eexists [_; _; _; _]; split; [reflexivity|]]);
    (split; [split; eexists _, _; repeat (left || right)|intros Hp; by rewrite ?(proj1 (Hp _ _)), ?(proj2 (Hp _ _))]).
Qed.
Lemma installed_after n st c st1 : dial_rounds n 0 en st = (Ok (Some (inl c)), st1) →
  ∃ l c' hb, adds st (install_client true c en st1).2 l ∧ announced c' l ∧ watched c' hb l
    ∧ (client_private → ws_client (world (install_client true c en st1).2) = Some c'
                       ∧ ws_heartbeatDone (world (install_client true c en st1).2) = Some hb).
Proof.
  intros Hd. destruct (rounds_announce n 0 st c st1 Hd) as (l1 & Hl1 & topic & r & w & Ha & Ht).
  destruct (install_watches c st1) as (hb & l2 & Hl2 & [(r1 & w1 & Hw1) (r2 & w2 & Hw2)] & Hp).
  exists (l2 ++ l1)%list, c, hb. split_and!; [|by exists topic, r, w; split; [apply elem_of_app; right|]|split|done].
  - unfold adds in *. by rewrite Hl2, Hl1, app_assoc.
  - exists r1, w1. apply elem_of_app. by left.
  - exists r2, w2. apply elem_of_app. by left.
Qed.
End installed.

(** C35: the agent comes back: whatever the network, the router and other goroutines do, a
    reconnect never panics and never gives up. It is still dialling, or it has connected, or
    the session has been closed; or the process exits, and then the router has refused the
    device's signature or has answered eight times that another session holds the device's
    procedure. Once it has connected, the client that announced the device to the router is
    the one the new watcher watches, there is exactly one new watcher and one new heartbeat,
    on the same channel, and while nobody else sets the session's client, that client and
    that channel are the session's. *)
Theorem reconnect_never_gives_up {GR : GoRuntime} {HO : Host} {WH : WampHost} en n st :
  offline_flag = false →
  let '(o, st') := connect true n en st in
  match o with
  | Ok connected =>
      tally is_exit st' = tally is_exit st
      ∧ tally is_watch st' = (tally is_watch st + if connected then 1 else 0)%nat
      ∧ tally is_heartbeat st' = (tally is_heartbeat st + if connected then 1 else 0)%nat
      ∧ (connected = true → ∃ l c hb, adds st st' l ∧ announced c l ∧ watched c hb l
           ∧ (client_private en → ws_client (world st') = Some c ∧ ws_heartbeatDone (world st') = Some hb))
  | Err _ => ws_closed (world st') = true ∧ tally is_exit st' = tally is_exit st
  | Panic => False
  | Hang => exited st st'
  end.
Proof.
  intros Hoff. assert (since st 0 0 0 0 st) as Hstart by (split; lia).
  pose proof (rounds_spec en st n 0 ltac:(unfold maxDuplicateSerialAttempts; lia) st Hstart) as Hr.
  unfold connect, dial. rewrite Hoff. unfold bind at 1.
  destruct (dial_rounds n 0 en st) as [[[[c|e]|]|e| |] st1] eqn:E; simpl in Hr; try done.
  - destruct Hr as [d Hd]. destruct (install_spec en st c d st1 Hd) as [[[] Ho] Hi].
    pose proof (installed_after en n st c st1 E) as Hin.
    unfold bind at 1. destruct (install_client true c en st1) as [o st2]. simpl in *. subst o. simpl.
    destruct Hi as [G1 G2 G3 _ _]. split_and!; [lia..|done].
  - destruct Hr as [Hc [d [G1 _ _ _ _]]]. simpl. split; [done|lia].
  - destruct Hr as [d [G1 G2 G3 _ _]]. simpl. split_and!; [lia..|done].
Qed.

(** ** Giving up on a connection that still lives *)

Section stale.
Context {GR : GoRuntime} {HO : Host} {WH : WampHost}.
Variable en : sess_env.

(** The session of client [c] is known to the router and was not closed. *)
Definition holds_procedure (c : nat) (lg : list (event SessCall WampSession)) : Prop :=
  (∃ topic s, Ev (RegisterEstablished c topic) (inl tt) s ∈ lg) ∧ (∀ r s, Ev (CloseClient c) r s ∉ lg).

(** As long as a session that registered the procedure lives, the router refuses it to
    every other one. *)
Definition router_exclusive : Prop := ∀ c c' topic lg,
  holds_procedure c lg → c ≠ c' → taken (answer en _ (RegisterEstablished c' topic) lg) = true.

(** The transport works, the session is not closed, identifiers are not reused. *)
Record reachable_router : Prop := {
  router_answers : ∀ url cfg t lg, answer en _ (ConnectNet url cfg t) lg = inl tt;
  session_open : ∀ lg s, ws_closed s = false → ws_closed (interfere en lg s) = false;
  ids_grow : ∀ lg s, (ws_next s ≤ ws_next (interfere en lg s))%nat;
  config_usable : ∀ s, ∃ cfg, createConnectConfig s = inl cfg;
}.

Hypothesis Hrouter : router_exclusive.
Hypothesis Hreach : reachable_router.

#[local] Set Default Proof Using "Type*".

(** The old client [c] is still open, and its number is taken. *)
Definition stale (c : nat) (st : sess_state) : Prop :=
  holds_procedure c (log st) ∧ ws_closed (world st) = false ∧ (c < ws_next (world st))%nat.

Definition leaves_open (c : nat) {T} (call_ : SessCall T) : Prop :=
  match call_ with CloseClient c' => c ≠ c' | _ => True end.

Lemma stale_call c {T} (call_ : SessCall T) st : leaves_open c call_ → stale c st → stale c (call call_ en st).2.
Proof.
  intros Hl ([(topic & s & Hreg) Hopen] & Hc & Hn). unfold call. cbn [snd]. split; [split|split].
  - exists topic, s. simpl. by right.
  - intros r s' [Heq|Hin]%elem_of_cons; [|by apply (Hopen r s')].
    destruct call_; try done. simpl in Hl.
    pose proof (f_equal (λ e : event SessCall WampSession, match e with Ev c1 _ _ => match c1 with CloseClient n => n | _ => c end end) Heq) as Hcc.
    simpl in Hcc. done.
  - by apply (session_open Hreach).
  - simpl. pose proof (ids_grow Hreach (Ev call_ (answer en T call_ (log st)) (world st) :: log st) (world st)). lia.
Qed.

(** One refused round: another taken procedure, or the exit. *)
Lemma stale_round c d st : stale c st →
  let '(o, st') := dial_round d en st in
  if (maxDuplicateSerialAttempts <=? S d)%nat then o = Hang ∧ tally is_exit st' = S (tally is_exit st)
  else o = Ok (DialAgain (S d)) ∧ stale c st' ∧ tally is_exit st' = tally is_exit st.
Proof.
  intros Hst. pose proof Hst as (_ & Hc & _). unfold dial_round. unfold bind at 1, gets. rewrite Hc.
  destruct (config_usable Hreach (world st)) as [cfg Hcfg]. unfold bind at 1, gets. rewrite Hcfg.
  set (net := ConnectNet _ _ _).
  rewrite (bind_ok en st (call net en st).2 _ _ (inl tt))
    by (unfold call, net; by rewrite (router_answers Hreach)).
  pose proof (stale_call c net st I Hst) as Hst1.
  assert (tally is_exit (call net en st).2 = tally is_exit st) as Hx1 by (by rewrite tally_call).
  destruct (call net en st) as [o1 st1]. cbn [snd] in *. clear o1.
  set (st2 := mk_state (put_next (S (ws_next (world st1))) (world st1)) (log st1) : sess_state).
  rewrite (bind_ok en st1 st2 _ _ (ws_next (world st1)) eq_refl).
  assert (stale c st2) as Hst2 by (destruct Hst1 as (G1 & G2 & G3); split_and!; simpl; [done|done|lia]).
  assert (c ≠ ws_next (world st1)) as Hne by (destruct Hst1 as (_ & _ & G3); lia).
  assert (tally is_exit st2 = tally is_exit st) as Hx2 by exact Hx1.
  set (reg := RegisterEstablished _ _).
  rewrite (bind_ok en st2 (call reg en st2).2 _ _ (answer en _ reg (log st2)) eq_refl).
  pose proof (stale_call c reg st2 I Hst2) as Hst3.
  assert (tally is_exit (call reg en st2).2 = tally is_exit st2) as Hx3 by (by rewrite tally_call).
  assert (taken (answer en _ reg (log st2)) = true) as Ht.
  { apply (Hrouter c); [apply Hst2|done]. }
  destruct (call reg en st2) as [o3 st3]. cbn [snd] in *. clear o3.
  destruct (answer en _ reg (log st2)) as [|err]; [done|]. simpl in Ht. rewrite Ht.
  destruct (Nat.leb_spec maxDuplicateSerialAttempts (S d)).
  - simpl. split; [done|]. change (mk_state _ _) with (call ExitProcess en st3).2.
    rewrite tally_call. simpl. lia.
  - rewrite (bind_ok en st3 (call (CloseClient (ws_next (world st1))) en st3).2 _ _ (answer en unit (CloseClient (ws_next (world st1))) (log st3)) eq_refl).
    pose proof (stale_call c (CloseClient (ws_next (world st1))) st3 Hne Hst3) as Hst4.
    assert (tally is_exit (call (CloseClient (ws_next (world st1))) en st3).2 = tally is_exit st3) as Hx4 by (by rewrite tally_call).
    destruct (call (CloseClient _) en st3) as [o4 st4]. cbn [snd] in *. clear o4.
    unfold dial_again, sleepOrDone.
    pose proof (stale_call c (Pause reconnectBackoff) st4 I Hst4) as Hst5.
    assert (tally is_exit (call (Pause reconnectBackoff) en st4).2 = tally is_exit st4) as Hx5 by (by rewrite tally_call).
    unfold bind, gets, ret. destruct (call (Pause reconnectBackoff) en st4) as [o5 st5] eqn:E5.
    assert (o5 = Ok (answer en unit (Pause reconnectBackoff) (log st4))) as -> by (unfold call in E5; congruence).
    cbn [snd] in *. pose proof Hst5 as (_ & Hc5 & _). rewrite Hc5. simpl. split_and!; [done|done|lia].
Qed.

Lemma stale_rounds c k n st : stale c st → (S k ≤ n)%nat → (k < maxDuplicateSerialAttempts)%nat →
  let '(o, st') := dial_rounds n (maxDuplicateSerialAttempts - S k) en st in
  o = Hang ∧ tally is_exit st' = S (tally is_exit st).
Proof.
  revert n st. induction k as [|k IH]; intros n st Hst Hn Hk; (destruct n as [|n]; [lia|]); cbn [dial_rounds].
  - pose proof (stale_round c (maxDuplicateSerialAttempts - 1) st Hst) as Hr.
    destruct (dial_round _ en st) as [o st1] eqn:E. rewrite (proj2 (Nat.leb_le _ _)) in Hr by lia.
    destruct Hr as [-> Hx]. unfold bind. by rewrite E.
  - pose proof (stale_round c (maxDuplicateSerialAttempts - S (S k)) st Hst) as Hr.
    destruct (dial_round _ en st) as [o st1] eqn:E. rewrite (proj2 (Nat.leb_gt _ _)) in Hr by lia.
    destruct Hr as (-> & Hst1 & Hx). rewrite (bind_ok en st st1 _ _ _ E).
    replace (S (maxDuplicateSerialAttempts - S (S k))) with (maxDuplicateSerialAttempts - S k)%nat by lia.
    rewrite <- Hx. apply IH; [done|lia|lia].
Qed.
End stale.

(** a heartbeat that fails while the connection lives takes the agent down: the watcher
    dials a new session without closing the old client, so the router still sees the old
    session hold the device's procedure; every attempt is answered as if a second device
    used the serial number, and after the eighth the process exits. *)
Theorem heartbeat_reconnect_exits {GR : GoRuntime} {HO : Host} {WH : WampHost} en c hb n st :
  router_exclusive en → reachable_router en → offline_flag = false →
  stale c st → answer en _ (AwaitEnd c hb) (log st) = HeartbeatFailed →
  (maxDuplicateSerialAttempts ≤ n)%nat →
  let '(o, st') := watchDisconnect c hb n en st in
  o = Hang ∧ tally is_exit st' = S (tally is_exit st).
Proof.
  intros Hrouter Hreach Hoff Hst Hw Hn. unfold watchDisconnect.
  rewrite (bind_ok en st (call (AwaitEnd c hb) en st).2 _ _ HeartbeatFailed) by (unfold call; by rewrite Hw).
  pose proof (stale_call en Hrouter Hreach c (AwaitEnd c hb) st I Hst) as Hst1.
  assert (tally is_exit (call (AwaitEnd c hb) en st).2 = tally is_exit st) as Hx1 by (by rewrite tally_call).
  destruct (call (AwaitEnd c hb) en st) as [o1 st1]. cbn [snd] in *. clear o1.
  assert (∃ st2, cancelContainerStreams en st1 = (Ok tt, st2) ∧ stale c st2 ∧ tally is_exit st2 = tally is_exit st) as (st2 & E2 & Hst2 & Hx2).
  { unfold cancelContainerStreams, when. destruct has_container; [|by exists st1].
    exists (call CancelAllStreams en st1).2. split; [done|]. split; [by apply (stale_call en Hrouter Hreach)|]. by rewrite tally_call. }
  rewrite (bind_ok en st1 st2 _ _ tt E2).
  pose proof (stale_rounds en Hrouter Hreach c 7 n st2 Hst2 ltac:(unfold maxDuplicateSerialAttempts in Hn; lia)
    ltac:(unfold maxDuplicateSerialAttempts; lia)) as Hr.
  change (maxDuplicateSerialAttempts - 8)%nat with 0%nat in Hr.
  unfold ignore, try_, connect, dial. rewrite Hoff. unfold bind.
  destruct (dial_rounds n 0 en st2) as [o st3]. destruct Hr as [-> Hx]. split; [done|lia].
Qed.

(** the base URL of the platform is lost: a status update answered by a map without the
    field leaves the text [<nil>] as the base URL, which is then written into the links
    of every app's environment. *)
Theorem missing_base_url_is_nil_text {GR : GoRuntime} {HO : Host} {WH : WampHost} en args st :
  as_map args = None ∨ (∃ m, args = VMap m ∧ map_get "reswarmBaseURL" m = None) →
  (adopt_base_url args en st).1 = Ok tt
  ∧ ws_ReswarmBaseURL (world (adopt_base_url args en st).2)
    = match args with VMap _ => "<nil>" | _ => ws_ReswarmBaseURL (world st) end.
Proof.
  intros Ha. unfold adopt_base_url. destruct args; try done.
  destruct Ha as [Ha|(m' & [= <-] & Hm)]; [done|]. unfold as_map, map_index. rewrite Hm. done.
Qed.

(** ** Examples *)

#[local] Existing Instance amd64_runtime.
#[local] Existing Instance ex_host.

#[local] Instance ex_wamp : WampHost :=
  {| socketConfig := {| sk_PingPongTimeout := 0; sk_ResponseTimeout := 0; sk_ConnectionTimeout := 0;
                        sk_HeartbeatInterval := 0; sk_SetupTestament := true |};
     offline_flag := false; debug_messaging := false; has_container := true; certificate_pair := inl tt;
     ErrProcedureAlreadyExists := "wamp.error.procedure_already_exists" |}.

(** A router and a device on which everything works. *)
Definition calm_session {T} (c : SessCall T) : T :=
  match c in SessCall T return T with
  | ConnectNet _ _ _ | RegisterEstablished _ _ | SubscribeDestroy _ _ | RouterPublish _ _ _ | RouterSubscribe _ _
  | RouterRegister _ _ _ => inl tt
  | CloseClient _ | Pause _ | AwaitClose | PruneSystem | ExitProcess | GoWatch _ _ | GoHeartbeat _ | GoOnConnect => tt
  | ClientConnected _ => true
  | SessionID _ => 4711%N
  | RouterCall _ _ _ => inl (Some [])
  | Bounded_SetupTestament | CancelAllStreams => Finished (inl tt)
  | AwaitEnd _ _ => HeartbeatFailed
  | IsEmergency => false
  | GetStats => []
  | TunnelCapability => None
  end.

Definition sess_answers : Type := ∀ T, SessCall T → option T.

Definition ex_sess_env (ov : sess_answers) : sess_env :=
  {| answer := λ T c _, match ov T c with Some r => r | None => calm_session c end; interfere := λ _ s, s |}.

Definition calm_router : sess_env := ex_sess_env (λ _ _, None).

(** The router that still has the old session. *)
Definition old_session : sess_answers := λ T c,
  match c in SessCall T return option T with
  | RegisterEstablished _ _ => Some (inr (Plain "wamp.error.procedure_already_exists"))
  | _ => None
  end.

Definition old_session_lives : sess_env := ex_sess_env old_session.

Definition ex_session : WampSession :=
  {| ws_client := None; ws_next := 0; ws_heartbeatDone := None; ws_done := ∅; ws_closed := false;
     ws_onConnect := true; ws_SwarmKey := 2; ws_DeviceKey := 9; ws_ReswarmBaseURL := "https://app.example.com" |}.

(** The session after its first connection: client 0, heartbeat 1. *)
Definition ex_connected : sess_state := (connect false 1 calm_router (mk_state ex_session [])).2.

Lemma ex_reachable : reachable_router old_session_lives.
Proof. split; [done|done|done|by eexists]. Qed.

Lemma ex_stale : stale 0 ex_connected.
Proof.
  split_and!; [split|reflexivity|vm_compute; lia].
  - eexists _, _. vm_compute. repeat (first [by left|right]).
  - intros r s Hin. vm_compute in Hin.
    repeat (apply elem_of_cons in Hin as [Hin|Hin]; [discriminate|]). by apply not_elem_of_nil in Hin.
Qed.

Lemma heartbeat_reconnect_exits_witness :
  (watchDisconnect 0 1 8 old_session_lives ex_connected).1 = Hang
  ∧ tally is_exit (watchDisconnect 0 1 8 old_session_lives ex_connected).2 = 1%nat.
Proof.
  pose proof (heartbeat_reconnect_exits old_session_lives 0 1 8 ex_connected) as Ht.
  assert (router_exclusive old_session_lives) as Hr by (intros c c' topic lg _ _; vm_compute; reflexivity).
  specialize (Ht Hr ex_reachable eq_refl ex_stale eq_refl ltac:(unfold maxDuplicateSerialAttempts; lia)).
  destruct (watchDisconnect 0 1 8 old_session_lives ex_connected) as [o st'] eqn:E. destruct Ht as [-> Hx]. split; [done|].
  change (tally is_exit st' = 1%nat). rewrite Hx. vm_compute. reflexivity.
Defined.

Lemma reconnect_never_gives_up_witness :
  (connect true 3 calm_router ex_connected).1 = Ok true
  ∧ tally is_watch (connect true 3 calm_router ex_connected).2 = 2%nat
  ∧ ∃ c, ws_client (world (connect true 3 calm_router ex_connected).2) = Some c.
Proof.
  pose proof (reconnect_never_gives_up calm_router 3 ex_connected eq_refl) as Ht.
  assert ((connect true 3 calm_router ex_connected).1 = Ok true) as E by (vm_compute; reflexivity).
  destruct (connect true 3 calm_router ex_connected) as [o st'] eqn:Eq. simpl in E. subst o.
  destruct Ht as (_ & Hx & _ & Hc). destruct (Hc eq_refl) as (l & c & hb & _ & _ & _ & Hp). destruct (Hp ltac:(done)) as [Hcl _].
  split; [done|]. change (tally is_watch st' = 2%nat ∧ ∃ c, ws_client (world st') = Some c).
  split; [rewrite Hx; vm_compute; reflexivity|by exists c].
Defined.

Lemma missing_base_url_is_nil_text_witness :
  ws_ReswarmBaseURL (world (UpdateRemoteDeviceStatus CONFIGURING
    (ex_sess_env (λ T c, match c in SessCall T return option T with
       | RouterCall _ _ _ => Some (inl (Some [VMap [("status", VStr "ok")]])) | _ => None end)) ex_connected).2) = "<nil>"
  ∧ ws_ReswarmBaseURL (world (adopt_base_url (VMap [("status", VStr "ok")]) calm_router ex_connected).2) = "<nil>".
Proof.
  split; [vm_compute; reflexivity|].
  pose proof (missing_base_url_is_nil_text calm_router (VMap [("status", VStr "ok")]) ex_connected
    (or_intror (ex_intro _ _ (conj eq_refl eq_refl)))) as [_ Hb]. exact Hb.
Defined.

(** A session closed while it dials: the client of the dial is installed afterwards, and
    nothing closes it. *)
Definition closed_meanwhile : sess_env :=
  {| answer := answer calm_router;
     interfere := λ lg s, match lg with
       | Ev c _ _ :: _ => match c with RegisterEstablished _ _ => put_client None (put_closed true s) | _ => s end
       | [] => s end |}.

Example closed_session_stays_connected :
  let r := connect true 3 closed_meanwhile ex_connected in
  r.1 = Ok true ∧ ws_closed (world r.2) = true ∧ ws_client (world r.2) = Some 2%nat.
Proof. split_and!; vm_compute; reflexivity. Qed.
