(* ===== verification/WampValues.v ===== *)
(** * Arguments of remote calls

    The arguments of a call arrive as [interface{}] values of the dynamic types the
    serializer chose, and the handlers read them by type assertions, which distinguish
    the integer types and tell a plain [map[string]interface{}] from a [common.Dict]. *)
From S2P Require Import Prelude Errdefs GoValue Common.

Inductive wval :=
  | WNil
  | WBool (b : bool)
  | WU64 (n : N)
  | WI64 (z : Z)
  | WF64 (num : Z) (den : positive)
  | WText (s : string)
  | WSeq (l : list wval)
  | WMap (m : list (string * wval))
  | WDict (m : list (string * wval)).

Abbreviation wmap := (list (string * wval)).

(** [m[key]]: [nil] when absent. *)
Definition wget (key : string) (m : wmap) : wval := default WNil (map_get key m).

(** The type assertions [v.(T)]. *)
Definition as_uint64 (v : wval) : option N := match v with WU64 n => Some n | _ => None end.
Definition as_string (v : wval) : option string := match v with WText s => Some s | _ => None end.
Definition as_bool (v : wval) : option bool := match v with WBool b => Some b | _ => None end.
Definition as_slice (v : wval) : option (list wval) := match v with WSeq l => Some l | _ => None end.
Definition as_plain_map (v : wval) : option wmap := match v with WMap m => Some m | _ => None end.
Definition as_dict (v : wval) : option wmap := match v with WDict m => Some m | _ => None end.

(** The same value without the distinctions later code does not make. *)
Fixpoint untyped (v : wval) : goval :=
  match v with
  | WNil => VNil
  | WBool b => VBool b
  | WU64 n => VInt (Z.of_N n)
  | WI64 z => VInt z
  | WF64 n d => VFloat n d
  | WText s => VStr s
  | WSeq l => VList (map untyped l)
  | WMap m | WDict m => VMap (map (λ kv, (kv.1, untyped kv.2)) m)
  end.

Definition untyped_map (m : wmap) : gomap := map (λ kv, (kv.1, untyped kv.2)) m.

Definition coercible (v : wval) : wamp_number :=
  match v with
  | WU64 n => WUint64 n
  | WI64 z => WInt64 z
  | WF64 n d => WFloat64 n d
  | WText s => WString s
  | _ => WOther
  end.

(** [strconv.ParseInt(s, 10, 64)], and [strconv.Atoi] where an [int] has 64 bits: an
    optional sign and decimal digits. *)
Definition Atoi (s : string) : Z + error :=
  match parse_int64 s with Some z => inl z | None => inr (Plain ("strconv.Atoi: parsing " +:+ s)) end.

(** [uint64(v)] of an [int]. *)
Definition int_as_uint64 (z : Z) : N := Z.to_N (z mod Z.of_N two64).

(** [strconv.ParseUint(s, 10, 64)]. *)
Definition ParseUint (s : string) : N + error :=
  match parse_uint 64 s with Some n => inl n | None => inr (Plain ("strconv.ParseUint: parsing " +:+ s)) end.

Definition stage_of_string (s : string) : Stage :=
  if String.eqb s "DEV" then DEV else if String.eqb s "PROD" then PROD else OtherStage s.

Lemma stage_of_stage_string s : (∀ t, s = OtherStage t → t ≠ "DEV" ∧ t ≠ "PROD") → stage_of_string (stage_string s) = s.
Proof.
  intros Hs. destruct s as [| |t]; [done..|]. destruct (Hs t eq_refl) as [H1 H2]. unfold stage_of_string, stage_string.
  destruct (String.eqb_spec t "DEV"); [done|]. by destruct (String.eqb_spec t "PROD").
Qed.

(** [messenger.Result]: a call with its details; the slice of arguments may be [nil]. *)
Record Result := {
  rs_Arguments : option (list wval);
  rs_ArgumentsKw : wmap;
  rs_Details : wmap;
}.

(** [messenger.InvokeResult]. *)
Record InvokeResult := {
  ir_Arguments : list goval;
  ir_ArgumentsKw : gomap;
}.

Definition empty_answer : InvokeResult := {| ir_Arguments := []; ir_ArgumentsKw := [] |}.
Definition answer_with (v : goval) : InvokeResult := {| ir_Arguments := [v]; ir_ArgumentsKw := [] |}.

(** ** Functions that may fail *)

Definition rbind {A B} (m : A + error) (f : A → B + error) : B + error :=
  match m with inl a => f a | inr e => inr e end.

Declare Scope fallible_scope.
Delimit Scope fallible_scope with fallible.
Notation "'let?' x := m 'in' k" := (rbind m (λ x, k))
  (at level 10, x strict pattern, m at level 200, k at level 200, only parsing) : fallible_scope.
