(* ===== verification/Requests.v ===== *)
(** * Requests for app states (src/src/api/request_app_state.go)

    A request carries a payload as keyword arguments; every field is optional and read by
    its own type assertions.  The handler decodes it, creates or updates the app, and
    starts the request in the background. *)
From S2P Require Import Prelude Errdefs GoValue Common Records Effects HostPorts World Store AppManager WampValues.

Definition FailedToParse (what : string) : error := Plain ("failed to parse " +:+ what).
Definition MissingFromPayload (what : string) : error := Plain ("missing from payload " +:+ what).

Local Open Scope fallible_scope.

(** ** One field *)

(** An absent field leaves the zero value; another type fails the request. *)
Definition optional_field {A} (zero : A) (assert : wval → option A) (what : string) (v : wval) : A + error :=
  match v with
  | WNil => inl zero
  | _ => match assert v with Some a => inl a | None => inr (FailedToParse what) end
  end.

Definition string_field : string → wval → string + error := optional_field "" as_string.
Definition bool_field : string → wval → bool + error := optional_field false as_bool.
Definition uint_field : string → wval → N + error := optional_field 0%N as_uint64.
Definition map_field (what : string) (v : wval) : option gomap + error :=
  optional_field None (λ v, Some <$> (untyped_map <$> as_plain_map v)) what v.

(** An account key: an unsigned integer, or a decimal text read by [Atoi], whose sign
    wraps around. *)
Definition account_field (what : string) (v : wval) : N + error :=
  match v with
  | WNil => inl 0%N
  | WU64 n => inl n
  | WText s => let? value := Atoi s in inl (int_as_uint64 value)
  | _ => inr (FailedToParse what)
  end.

(** The key of a release may be stored as text. *)
Definition release_field (v : wval) : N + error :=
  match v with
  | WNil => inl 0%N
  | WU64 n => inl n
  | WText s => ParseUint s
  | _ => inr (FailedToParse "releaseKeyString")
  end.

(** Fields that must not fail a request: what cannot be read counts as absent. *)
Definition instance_field (v : wval) : N :=
  match v with
  | WU64 n => n
  | WText s => match ParseUint s with inl n => n | inr _ => 0%N end
  | _ => 0%N
  end.

Section decode.
Context `{GoRuntime} `{Host}.

Definition epoch_field (v : wval) : N := default 0%N (ToUint64 (coercible v)).

(** ** The groups of fields, in the order the code reads them *)

Definition app_key_field (v : wval) : N + error :=
  let? appKey := uint_field "app_key" v in
  match v with
  | WNil => inl appKey
  | _ => if (appKey =? 0)%N then inr (MissingFromPayload "app_key") else inl appKey
  end.

(** A text that must not be empty when it is given. *)
Definition given_text (what : string) (empty : error) (v : wval) : string + error :=
  let? s := string_field what v in
  match v with
  | WNil => inl s
  | _ => if String.eqb s "" then inr empty else inl s
  end.

Record identity := { id_appKey : N; id_appName : string; id_stage : string }.

Definition decode_identity (kw : wmap) : identity + error :=
  let? appKey := app_key_field (wget "app_key" kw) in
  let? appName := given_text "appName" (FailedToParse "appName") (wget "app_name" kw) in
  let? stage := given_text "stage" (MissingFromPayload "stage") (wget "stage" kw) in
  inl {| id_appKey := appKey; id_appName := appName; id_stage := stage |}.

Record states := { st_requested : string; st_manually : string; st_current : string; st_current2 : string }.

Definition decode_states (kw : wmap) : states + error :=
  let? requestedState := string_field "requestedState" (wget "target_state" kw) in
  let? manuallyRequestedState := string_field "manuallyRequestedState" (wget "manually_requested_state" kw) in
  let? currentState := string_field "currentState" (wget "current_state" kw) in
  let? currentState2 := string_field "currentState2" (wget "state" kw) in
  inl {| st_requested := requestedState; st_manually := manuallyRequestedState;
         st_current := currentState; st_current2 := currentState2 |}.

Record keys := {
  ky_requestor : N; ky_requestor2 : N; ky_deviceOwner : N; ky_instance : N; ky_credEpoch : N;
  ky_release : N; ky_newRelease : N;
}.

Definition decode_keys (kw : wmap) : keys + error :=
  let? requestor := account_field "requestorAccountKey" (wget "requestor_account_key" kw) in
  let? requestor2 := account_field "requestorAccountKey2" (wget "account_id" kw) in
  let? deviceOwner := account_field "deviceOwnerAccountKey" (wget "device_owner_account_key" kw) in
  let instanceKey := instance_field (wget "instance_key" kw) in
  let appCredEpoch := epoch_field (wget "app_cred_epoch" kw) in
  let? releaseKey := release_field (wget "release_key" kw) in
  let? newReleaseKey := uint_field "newReleaseKey" (wget "new_release_key" kw) in
  inl {| ky_requestor := requestor; ky_requestor2 := requestor2; ky_deviceOwner := deviceOwner;
         ky_instance := instanceKey; ky_credEpoch := appCredEpoch; ky_release := releaseKey;
         ky_newRelease := newReleaseKey |}.

Record versions := { vs_version : string; vs_newest : string; vs_present : string;
                     vs_requestUpdate : bool; vs_cancelTransition : bool }.

Definition decode_versions (kw : wmap) : versions + error :=
  let? version := string_field "version" (wget "version" kw) in
  let? newestVersion := string_field "newestVersion" (wget "newest_version" kw) in
  let? presentVersion := string_field "presentVersion" (wget "present_version" kw) in
  let? requestUpdate := bool_field "requestUpdate" (wget "request_update" kw) in
  let? cancelTransition := bool_field "cancelTransition" (wget "cancel_transition" kw) in
  inl {| vs_version := version; vs_newest := newestVersion; vs_present := presentVersion;
         vs_requestUpdate := requestUpdate; vs_cancelTransition := cancelTransition |}.

Definition credentials_error : error := FailedToParse "docker credentials".

Definition decode_credential (v : wval) : DockerCredential + error :=
  match as_plain_map v with
  | None => inr credentials_error
  | Some valMap =>
      match as_string (wget "username" valMap), as_string (wget "password" valMap) with
      | Some username, Some password => inl {| Username := username; Password := password |}
      | _, _ => inr credentials_error
      end
  end.

(** The entries in the order the map is ranged over. *)
Fixpoint decode_credentials (m : wmap) : list (string * DockerCredential) + error :=
  match m with
  | [] => inl []
  | (key, value) :: m =>
      let? c := decode_credential value in
      let? cs := decode_credentials m in
      inl ((key, c) :: cs)
  end.

Definition credentials_field (v : wval) : option (list (string * DockerCredential)) + error :=
  match v with
  | WNil => inl None
  | _ =>
      match as_plain_map v with
      | None => inr credentials_error
      | Some m => let? cs := decode_credentials m in inl (Some cs)
      end
  end.

Record documents := {
  dc_environment : option gomap; dc_environmentTemplate : option gomap; dc_ports : list goval;
  dc_compose : option gomap; dc_newCompose : option gomap;
  dc_credentials : option (list (string * DockerCredential));
}.

Definition decode_documents (kw : wmap) : documents + error :=
  let? environment := map_field "environment" (wget "environment" kw) in
  let? environmentTemplate := map_field "environment template" (wget "environment_template" kw) in
  let? ports := optional_field [] (λ v, map untyped <$> as_slice v) "ports" (wget "ports" kw) in
  let? dockerCompose := map_field "docker compose" (wget "docker_compose" kw) in
  let? newDockerCompose := map_field "new docker compose" (wget "new_docker_compose" kw) in
  let? dockerCredentials := credentials_field (wget "docker_credentials" kw) in
  inl {| dc_environment := environment; dc_environmentTemplate := environmentTemplate; dc_ports := ports;
         dc_compose := dockerCompose; dc_newCompose := newDockerCompose; dc_credentials := dockerCredentials |}.

(** ** The payload *)

Definition or_text (s fallback : string) : string := if String.eqb s "" then fallback else s.
Definition or_key (n fallback : N) : N := if (n =? 0)%N then fallback else n.

(** The fallbacks for a request about an app that is not there yet, and the fields set
    after [BuildTransitionPayload]. *)
Definition assemble (i : identity) (s : states) (k : keys) (v : versions) (d : documents) : TransitionPayload :=
  let p := BuildTransitionPayload imageArchName config (id_appKey i) (id_appName i)
             (or_key (ky_requestor k) (ky_requestor2 k)) (stage_of_string (id_stage i))
             (state_of_string (or_text (st_current s) (st_current2 s)))
             (state_of_string (or_text (st_requested s) (st_manually s)))
             (ky_release k) (ky_newRelease k) in
  {| tp_RequestedState := tp_RequestedState p; tp_CurrentState := tp_CurrentState p; tp_Stage := tp_Stage p;
     tp_RequestorAccountKey := tp_RequestorAccountKey p; tp_DeviceOwnerAccountKey := ky_deviceOwner k;
     tp_DeviceToAppKey := tp_DeviceToAppKey p; tp_AppKey := tp_AppKey p; tp_InstanceKey := ky_instance k;
     tp_AppCredEpoch := ky_credEpoch k; tp_AppName := tp_AppName p; tp_ImageName := tp_ImageName p;
     tp_RegistryImageName := tp_RegistryImageName p; tp_ContainerName := tp_ContainerName p;
     tp_DockerCredentials := dc_credentials d; tp_EnvironmentVariables := dc_environment d;
     tp_EnvironmentTemplate := dc_environmentTemplate d; tp_DockerCompose := dc_compose d;
     tp_NewDockerCompose := dc_newCompose d; tp_Ports := dc_ports d;
     tp_PublishContainerName := tp_PublishContainerName p; tp_RegisteryToken := tp_RegisteryToken p;
     tp_NewestVersion := vs_newest v; tp_PresentVersion := vs_present v; tp_ReleaseKey := tp_ReleaseKey p;
     tp_NewReleaseKey := tp_NewReleaseKey p; tp_Version := vs_version v; tp_RequestUpdate := vs_requestUpdate v;
     tp_Retrying := tp_Retrying p; tp_CancelTransition := vs_cancelTransition v |}.

Definition responseToTransitionPayload (result : Result) : TransitionPayload + error :=
  let kw := rs_ArgumentsKw result in
  let? i := decode_identity kw in
  let? s := decode_states kw in
  let? k := decode_keys kw in
  let? v := decode_versions kw in
  let? d := decode_documents kw in
  inl (assemble i s k v d).

Local Close Scope fallible_scope.
Open Scope go_scope.

Definition requestAppStateHandler (response : Result) : Agent InvokeResult :=
  let! payload := lift (responseToTransitionPayload response) in
  CreateOrUpdateApp payload;;
  call (GoRequestAppState payload);;
  ret empty_answer.
End decode.
