(* ===== verification/RequestsSpec.v ===== *)
(** * Which requests are accepted, and what is read from them *)
From S2P Require Import Prelude Errdefs GoValue Common Records Effects HostPorts World Store AppManager.
From S2P Require Import WampValues Requests Examples.

(** ** The schema of a request *)

Inductive field_kind :=
  | FText | FGivenText | FFlag | FUint | FAppKey | FAccount | FRelease | FMap | FSeq | FCredentials.

Definition is_inl {A B} (r : A + B) : bool := match r with inl _ => true | inr _ => false end.

(** A pair of texts under the names of a credential. *)
Definition is_credential (v : wval) : bool :=
  match v with
  | WMap m => match wget "username" m, wget "password" m with WText _, WText _ => true | _, _ => false end
  | _ => false
  end.

Definition fits (k : field_kind) (v : wval) : bool :=
  match v with
  | WNil => true
  | _ =>
      match k, v with
      | FText, WText _ => true
      | FGivenText, WText s => negb (String.eqb s "")
      | FFlag, WBool _ => true
      | FUint, WU64 _ => true
      | FAppKey, WU64 n => negb (n =? 0)%N
      | FAccount, WU64 _ | FRelease, WU64 _ => true
      | FAccount, WText s => is_inl (Atoi s)
      | FRelease, WText s => is_inl (ParseUint s)
      | FMap, WMap _ => true
      | FSeq, WSeq _ => true
      | FCredentials, WMap m => forallb (λ kv, is_credential kv.2) m
      | _, _ => false
      end
  end.

Definition identity_fields : list (string * field_kind) :=
  [("app_key", FAppKey); ("app_name", FGivenText); ("stage", FGivenText)].
Definition state_fields : list (string * field_kind) :=
  [("target_state", FText); ("manually_requested_state", FText); ("current_state", FText); ("state", FText)].
Definition key_fields : list (string * field_kind) :=
  [("requestor_account_key", FAccount); ("account_id", FAccount); ("device_owner_account_key", FAccount);
   ("release_key", FRelease); ("new_release_key", FUint)].
Definition version_fields : list (string * field_kind) :=
  [("version", FText); ("newest_version", FText); ("present_version", FText);
   ("request_update", FFlag); ("cancel_transition", FFlag)].
Definition document_fields : list (string * field_kind) :=
  [("environment", FMap); ("environment_template", FMap); ("ports", FSeq);
   ("docker_compose", FMap); ("new_docker_compose", FMap); ("docker_credentials", FCredentials)].

Definition schema : list (string * field_kind) :=
  (identity_fields ++ state_fields ++ key_fields ++ version_fields ++ document_fields)%list.

Definition conforms (fields : list (string * field_kind)) (kw : wmap) : bool :=
  forallb (λ f, fits f.2 (wget f.1 kw)) fields.

(** ** Each field *)

Lemma is_inl_rbind {A B} (m : A + error) (f : A → B + error) :
  is_inl (rbind m f) = match m with inl a => is_inl (f a) | inr _ => false end.
Proof. by destruct m. Qed.

Lemma string_field_fits w v : is_inl (string_field w v) = fits FText v.
Proof. by destruct v. Qed.
Lemma bool_field_fits w v : is_inl (bool_field w v) = fits FFlag v.
Proof. by destruct v. Qed.
Lemma uint_field_fits w v : is_inl (uint_field w v) = fits FUint v.
Proof. by destruct v. Qed.
Lemma map_field_fits w v : is_inl (map_field w v) = fits FMap v.
Proof. by destruct v. Qed.
Lemma ports_field_fits w v :
  is_inl (optional_field [] (λ v, map untyped <$> as_slice v) w v) = fits FSeq v.
Proof. by destruct v. Qed.
Lemma account_field_fits w v : is_inl (account_field w v) = fits FAccount v.
Proof. destruct v; try done. unfold account_field. rewrite is_inl_rbind. simpl. by destruct (Atoi s). Qed.
Lemma release_field_fits v : is_inl (release_field v) = fits FRelease v.
Proof. by destruct v. Qed.
Lemma app_key_field_fits v : is_inl (app_key_field v) = fits FAppKey v.
Proof. destruct v; try done. unfold app_key_field. simpl. by destruct (n =? 0)%N. Qed.
Lemma given_text_fits w e v : is_inl (given_text w e v) = fits FGivenText v.
Proof. destruct v; try done. unfold given_text. simpl. by destruct (String.eqb s ""). Qed.

Lemma credential_fits v : is_inl (decode_credential v) = is_credential v.
Proof.
  destruct v; try done. unfold decode_credential. simpl.
  destruct (wget "username" m); simpl; try done; destruct (wget "password" m); done.
Qed.

Lemma credentials_fit m : is_inl (decode_credentials m) = forallb (λ kv, is_credential kv.2) m.
Proof.
  induction m as [|[k v] m IH]; [done|]. cbn [decode_credentials forallb snd].
  rewrite is_inl_rbind, <- credential_fits, <- IH. destruct (decode_credential v); [|done].
  rewrite is_inl_rbind. by destruct (decode_credentials m).
Qed.

Lemma credentials_field_fits v : is_inl (credentials_field v) = fits FCredentials v.
Proof.
  destruct v; try done. unfold credentials_field. simpl. rewrite is_inl_rbind, <- credentials_fit.
  by destruct (decode_credentials m).
Qed.

Create Rewrite HintDb fits.
#[export] Hint Rewrite string_field_fits bool_field_fits uint_field_fits map_field_fits ports_field_fits
  account_field_fits release_field_fits app_key_field_fits given_text_fits credentials_field_fits : fits.

(** Read the next field: it is there as the schema wants it, or the whole read fails. *)
Ltac read_field :=
  rewrite is_inl_rbind;
  match goal with
  | |- context [match ?m with inl _ => is_inl _ | inr _ => false end] =>
      let E := fresh "E" in
      destruct m eqn:E; apply (f_equal is_inl) in E; autorewrite with fits in E;
      cbn [is_inl] in E; rewrite E; cbn [andb]; [|reflexivity]
  end.

Ltac read_group := unfold conforms; cbn [forallb fst snd]; repeat read_field; reflexivity.

Section requests.
Context {GR : GoRuntime} {HO : Host}.

Lemma identity_fits kw : is_inl (decode_identity kw) = conforms identity_fields kw.
Proof. unfold decode_identity, identity_fields. read_group. Qed.
Lemma states_fits kw : is_inl (decode_states kw) = conforms state_fields kw.
Proof. unfold decode_states, state_fields. read_group. Qed.
Lemma keys_fits kw : is_inl (decode_keys kw) = conforms key_fields kw.
Proof. unfold decode_keys, key_fields. read_group. Qed.
Lemma versions_fits kw : is_inl (decode_versions kw) = conforms version_fields kw.
Proof. unfold decode_versions, version_fields. read_group. Qed.
Lemma documents_fits kw : is_inl (decode_documents kw) = conforms document_fields kw.
Proof. unfold decode_documents, document_fields. read_group. Qed.

Lemma conforms_app a b kw : conforms (a ++ b)%list kw = conforms a kw && conforms b kw.
Proof. apply forallb_app. Qed.

(** a request for an app state is accepted exactly when every field that is given has the
    type the schema lists for it: an integer that arrives signed or as a float is refused
    even where a text is taken, and nothing is required to be given. *)
Theorem request_accepted_iff r :
  is_inl (responseToTransitionPayload r) = conforms schema (rs_ArgumentsKw r).
Proof.
  unfold responseToTransitionPayload, schema.
  rewrite !conforms_app, <- identity_fits, <- states_fits, <- keys_fits, <- versions_fits, <- documents_fits.
  generalize (rs_ArgumentsKw r) as kw. intros kw.
  destruct (decode_identity kw); [|done]. destruct (decode_states kw); [|done].
  destruct (decode_keys kw); [|done]. destruct (decode_versions kw); [|done]. by destruct (decode_documents kw).
Qed.
End requests.

(** ** Requests written by the backend *)

Fixpoint typed (v : goval) : wval :=
  match v with
  | VNil => WNil
  | VBool b => WBool b
  | VInt z => if (z <? 0)%Z then WI64 z else WU64 (Z.to_N z)
  | VFloat n d => WF64 n d
  | VStr s => WText s
  | VList l => WSeq (map typed l)
  | VMap m => WMap (map (λ kv, (kv.1, typed kv.2)) m)
  end.

Definition typed_map (m : gomap) : wmap := map (λ kv, (kv.1, typed kv.2)) m.
Definition given_map (m : option gomap) : wval := match m with Some m => WMap (typed_map m) | None => WNil end.

Definition encode_credential (kc : string * DockerCredential) : string * wval :=
  (kc.1, WMap [("username", WText (Username kc.2)); ("password", WText (Password kc.2))]).

Definition encode_request (p : TransitionPayload) : wmap :=
  [("app_key", WU64 (tp_AppKey p)); ("app_name", WText (tp_AppName p)); ("stage", WText (stage_string (tp_Stage p)));
   ("target_state", WText (state_string (tp_RequestedState p))); ("current_state", WText (state_string (tp_CurrentState p)));
   ("requestor_account_key", WU64 (tp_RequestorAccountKey p));
   ("device_owner_account_key", WU64 (tp_DeviceOwnerAccountKey p));
   ("instance_key", WU64 (tp_InstanceKey p)); ("app_cred_epoch", WU64 (tp_AppCredEpoch p));
   ("release_key", WU64 (tp_ReleaseKey p)); ("new_release_key", WU64 (tp_NewReleaseKey p));
   ("version", WText (tp_Version p)); ("newest_version", WText (tp_NewestVersion p));
   ("present_version", WText (tp_PresentVersion p));
   ("request_update", WBool (tp_RequestUpdate p)); ("cancel_transition", WBool (tp_CancelTransition p));
   ("environment", given_map (tp_EnvironmentVariables p));
   ("environment_template", given_map (tp_EnvironmentTemplate p)); ("ports", WSeq (map typed (tp_Ports p)));
   ("docker_compose", given_map (tp_DockerCompose p)); ("new_docker_compose", given_map (tp_NewDockerCompose p));
   ("docker_credentials", match tp_DockerCredentials p with
                          | Some cs => WMap (map encode_credential cs) | None => WNil end)].

Fixpoint untyped_typed (v : goval) : untyped (typed v) = v.
Proof.
  destruct v; simpl; try done.
  - destruct (Z.ltb_spec z 0); simpl; [done|]. by rewrite Z2N.id.
  - f_equal. induction l as [|v l IH]; simpl; [done|]. by rewrite untyped_typed, IH.
  - f_equal. induction m as [|[k v] m IH]; simpl; [done|]. by rewrite untyped_typed, IH.
Qed.

Lemma untyped_typed_list l : map untyped (map typed l) = l.
Proof. induction l as [|v l IH]; simpl; [done|]. by rewrite untyped_typed, IH. Qed.

Lemma untyped_typed_map m : untyped_map (typed_map m) = m.
Proof. induction m as [|[k v] m IH]; simpl; [done|]. rewrite untyped_typed. f_equal. exact IH. Qed.

Lemma map_field_given w m : map_field w (given_map m) = inl m.
Proof. destruct m as [m|]; [|done]. unfold map_field. simpl. by rewrite untyped_typed_map. Qed.

Lemma decode_encoded_credentials cs : decode_credentials (map encode_credential cs) = inl cs.
Proof.
  induction cs as [|[k [u w]] cs IH]; [done|]. cbn [map decode_credentials encode_credential fst snd].
  unfold decode_credential. simpl. by rewrite IH.
Qed.

Section roundtrip.
Context {GR : GoRuntime} {HO : Host}.

(** A payload as a request can carry it: what the device derives itself is derived, what
    it adds later is unset. *)
Record requestable (p : TransitionPayload) : Prop := {
  rq_key : tp_AppKey p ≠ 0%N;
  rq_name : tp_AppName p ≠ "";
  rq_stage : stage_string (tp_Stage p) ≠ "" ∧ stage_of_string (stage_string (tp_Stage p)) = tp_Stage p;
  rq_states : state_of_string (state_string (tp_RequestedState p)) = tp_RequestedState p
              ∧ state_of_string (state_string (tp_CurrentState p)) = tp_CurrentState p;
  rq_names : let q := BuildTransitionPayload imageArchName config (tp_AppKey p) (tp_AppName p) 0 (tp_Stage p)
                        (tp_CurrentState p) (tp_RequestedState p) 0 0 in
             tp_ImageName p = tp_ImageName q ∧ tp_RegistryImageName p = tp_RegistryImageName q
             ∧ tp_ContainerName p = tp_ContainerName q ∧ tp_PublishContainerName p = tp_PublishContainerName q;
  rq_unset : tp_DeviceToAppKey p = 0%N ∧ tp_RegisteryToken p = "" ∧ tp_Retrying p = false;
}.

Lemma or_text_same s : or_text s "" = s.
Proof. unfold or_text. by destruct (String.eqb_spec s ""). Qed.
Lemma or_key_same n : or_key n 0 = n.
Proof. unfold or_key. by destruct (N.eqb_spec n 0). Qed.

(** the payload of a request comes back as the backend wrote it, with every field of the
    wire format in place. *)
Theorem request_roundtrip p args details :
  requestable p →
  responseToTransitionPayload {| rs_Arguments := args; rs_ArgumentsKw := encode_request p; rs_Details := details |} = inl p.
Proof.
  intros [Hk Hn [Hs1 Hs2] [Hr Hc] Hnames (Hd & Ht & Hre)].
  unfold responseToTransitionPayload. cbn [rs_ArgumentsKw].
  assert (decode_identity (encode_request p) =
    inl {| id_appKey := tp_AppKey p; id_appName := tp_AppName p; id_stage := stage_string (tp_Stage p) |}) as ->.
  { unfold decode_identity. simpl. unfold app_key_field, given_text. simpl.
    rewrite (proj2 (N.eqb_neq _ _) Hk). simpl.
    rewrite (proj2 (String.eqb_neq _ _) Hn). simpl. by rewrite (proj2 (String.eqb_neq _ _) Hs1). }
  assert (decode_documents (encode_request p) =
    inl {| dc_environment := tp_EnvironmentVariables p; dc_environmentTemplate := tp_EnvironmentTemplate p;
           dc_ports := tp_Ports p; dc_compose := tp_DockerCompose p; dc_newCompose := tp_NewDockerCompose p;
           dc_credentials := tp_DockerCredentials p |}) as ->.
  { unfold decode_documents. cbn -[map_field given_map typed untyped credentials_field]. rewrite !map_field_given.
    cbn -[typed untyped credentials_field]. rewrite untyped_typed_list. cbn -[credentials_field].
    destruct (tp_DockerCredentials p); [|done]. unfold credentials_field. simpl. by rewrite decode_encoded_credentials. }
  simpl. f_equal. unfold assemble. simpl. rewrite !or_text_same, !or_key_same, Hs2, Hr, Hc.
  destruct Hnames as (N1 & N2 & N3 & N4). destruct p. simpl in *. by subst.
Qed.
End roundtrip.

(** ** Examples *)

#[local] Existing Instance amd64_runtime.
#[local] Existing Instance ex_host.

Definition ex_kwargs : wmap :=
  [("app_key", WU64 42); ("app_name", WText "cam"); ("stage", WText "PROD"); ("target_state", WText "RUNNING");
   ("state", WText "PRESENT"); ("account_id", WText "999"); ("instance_key", WF64 1 1); ("release_key", WText "100");
   ("environment", WMap [("DEPTH", WMap [("value", WI64 (-3))])]); ("ports", WSeq [WMap [("port", WU64 8080)]]);
   ("docker_credentials", WMap [("registry.example.com", WMap [("username", WText "u"); ("password", WText "w")])])].

Definition ex_decoded : TransitionPayload + error :=
  responseToTransitionPayload {| rs_Arguments := None; rs_ArgumentsKw := ex_kwargs; rs_Details := [] |}.

Definition ex_request : TransitionPayload :=
  match ex_decoded with
  | inl p => p
  | inr _ => BuildTransitionPayload imageArchName config 0 "" 0 PROD empty_state empty_state 0 0
  end.

Lemma request_roundtrip_witness :
  tp_RequestorAccountKey ex_request = 999%N
  ∧ responseToTransitionPayload {| rs_Arguments := None; rs_ArgumentsKw := encode_request ex_request; rs_Details := [] |}
    = inl ex_request.
Proof.
  split; [vm_compute; reflexivity|]. apply (request_roundtrip ex_request None []).
  split; [vm_compute; discriminate|vm_compute; discriminate|split; vm_compute; [discriminate|reflexivity]
    |split; vm_compute; reflexivity|split_and!; vm_compute; reflexivity|split_and!; vm_compute; reflexivity].
Defined.

(** A signed key is refused, although the credential epoch next to it may have any type. *)
Example signed_key_refused :
  conforms schema (map_set "app_key" (WI64 42) ex_kwargs) = false
  ∧ conforms schema (map_set "app_cred_epoch" (WI64 42) ex_kwargs) = true.
Proof. split; vm_compute; reflexivity. Qed.
