(* ===== verification/ApiWorld.v ===== *)
(** * What the handlers of remote calls share (src/src/api, src/src/filesystem)

    The handlers keep no state but the file transfers, which live in the filesystem
    component; everything else they do is a call of another component. *)
From S2P Require Import Prelude Errdefs GoValue Common Effects WampValues LogText.

(** ** File transfers *)

Record ActiveFileTransfer := {
  ft_ID : string;
  ft_Current : N;
  ft_Total : N;
  ft_Canceled : bool;
  ft_File : option nat;
}.

(** [activeTransfers] maps container names to transfers, which are shared objects: a
    handler keeps its pointer while the map changes. *)
Record ApiState := {
  activeTransfers : gmap string nat;
  transferHeap : gmap nat ActiveFileTransfer;
  transferNext : nat;
}.

Definition put_transfers (v : gmap string nat) (s : ApiState) : ApiState :=
  {| activeTransfers := v; transferHeap := transferHeap s; transferNext := transferNext s |}.
Definition put_transfer (p : nat) (t : ActiveFileTransfer) (s : ApiState) : ApiState :=
  {| activeTransfers := activeTransfers s; transferHeap := <[p := t]> (transferHeap s); transferNext := transferNext s |}.
Definition new_transfer (t : ActiveFileTransfer) (s : ApiState) : ApiState :=
  {| activeTransfers := activeTransfers s; transferHeap := <[transferNext s := t]> (transferHeap s);
     transferNext := S (transferNext s) |}.

(** ** Calls *)

(** A question to the backend about the rights of an account. *)
Record privilege_query := {
  pq_privilege : string;
  pq_entity_key : N;
  pq_requestor_account_key : Z;
  pq_swarm_key : N;
}.

Record WiFiCredentials := { wc_Ssid : string; wc_Passwd : string; wc_Priority : N; wc_SecurityType : string }.

(** The topics of a terminal session. *)
Record terminal_session := { ts_DataTopic : string; ts_WriteTopic : string; ts_ResizeTopic : string; ts_SessionID : string }.

Record EthernetDevice := { ed_InterfaceName : string; ed_MAC : string; ed_IPv4 : goval; ed_IPv6 : goval; ed_Method : string }.
Record WiFi := {
  wf_MAC : string; wf_SSID : string; wf_Channel : N; wf_Signal : N; wf_SecurityType : string; wf_Frequency : N;
  wf_Known : bool; wf_Current : bool;
}.

Record SystemInfo := { si_DetailedOS : string; si_Arch : string; si_Variant : string }.

Record Stats := {
  sa_CPUCount : goval; sa_CPUUsagePercent : goval; sa_MemoryTotal : goval; sa_MemoryUsed : goval;
  sa_MemoryAvailable : goval; sa_StorageTotal : goval; sa_StorageUsed : goval; sa_StorageFree : goval;
  sa_DockerAppsTotal : goval; sa_DockerAppsUsed : goval; sa_DockerAppsFree : goval; sa_DockerAppsMounted : goval;
}.

Inductive ApiCall : Type → Type :=
  (* the backend *)
  | CheckPrivilege (q : privilege_query) : ApiCall (option (list wval) + error)
  | RegisterTopic (topic : string) : ApiCall (unit + error)
  (* files of transfers *)
  | OpenTruncate (path : string) : ApiCall (nat + error)
  | WriteFile (file : nat) (data : string) : ApiCall (N + error)
  | SyncFile (file : nat) : ApiCall (unit + error)
  | CloseFile (file : nat) : ApiCall (unit + error)
  (* goroutines *)
  | GoHandleTransferFailure (containerName : string) (err : error) : ApiCall unit
  | GoClearLogHistory (containerName : string) : ApiCall unit
  | GoLogWrite (containerName message : string) : ApiCall unit
  | GoPublishProgress (containerName fileName : string) (transfer : nat) : ApiCall unit
  | GoReboot : ApiCall unit
  | GoPoweroff : ApiCall unit
  | GoRestartAgent : ApiCall unit
  | GoPublishOutput (timeout : N) : ApiCall unit
  (* time *)
  | Now : ApiCall Z
  (* containers *)
  | ListImages : ApiCall (list goval + error)
  | PruneAll : ApiCall (string + error)
  | PruneDanglingImages : ApiCall (unit + error)
  | GetContainers : ApiCall (goval + error)
  (* logs *)
  | GetLogHistory (containerName : string) : ApiCall (goval + error)
  | QueryContainerLogs (request : LogQueryRequest) : ApiCall (LogQueryResult + error)
  | ReadAgentLogs : ApiCall (list (option (list string)) + error)
  (* the system *)
  | GetSystemInfo : ApiCall SystemInfo
  | GetDeviceStats : ApiCall Stats
  | LatestAgentVersion : ApiCall (string + error)
  | UpdateAgentBinary : ApiCall (goval * option error)
  | OSReleaseCurrent : ApiCall (list (string * string) + error)
  | OSReleaseLatest : ApiCall (gomap + error)
  | DownloadUpdate : ApiCall (unit + error)
  | InstallUpdate : ApiCall (unit + error)
  | RunCommand (cmd : string) (args : list string) : ApiCall (string + error)
  | PipeCommand (cmd : string) (args : list string) : ApiCall (unit + error)
  | StartCommand : ApiCall (N + error)
  (* tunnels *)
  | TunnelsCapable : ApiCall (option bool)
  | TunnelState : ApiCall (goval + error)
  (* terminals *)
  | StartSession (sessionID : string) (registrationID : N) : ApiCall (unit + error)
  | StopSession (sessionID : string) : ApiCall (unit + error)
  | RequestSession (containerName : string) : ApiCall (terminal_session + error)
  | DeviceTerminal (callerID : string) : ApiCall ((terminal_session * bool) + error)
  | SetupTerminal (t : terminal_session) : ApiCall goval
  (* network *)
  | NetworkAddresses : ApiCall (list goval)
  | IPv4Addresses : ApiCall (goval + error)
  | ListEthernetDevices : ApiCall (list EthernetDevice + error)
  | EnableDHCP (mac interfaceName : string) : ApiCall (unit + error)
  | SetIPv4Address (mac interfaceName ipv4 : string) (prefix : N) : ApiCall (unit + error)
  | ListWifiNetworks : ApiCall (list WiFi + error)
  | WirelessConfig : ApiCall ((goval * goval) + error)
  | RemoveWifi (ssid : string) : ApiCall (unit + error)
  | ScanWifi : ApiCall (unit + error)
  | ReloadWifi : ApiCall (unit + error)
  | AddWiFi (mac : string) (c : WiFiCredentials) : ApiCall (unit + error)
  | ActivateWiFi (mac ssid : string) : ApiCall (unit + error).

Abbreviation Api := (M ApiCall ApiState).
Abbreviation api_env := (env ApiCall ApiState).
Abbreviation api_state := (state ApiCall ApiState).
