(* ===== verification/Transfer.v ===== *)
(** * File transfers (src/src/filesystem/transfer.go)

    A transfer to a container is opened by a BEGIN, fed with hexadecimal chunks and ended
    by an END, each naming the transfer it belongs to. *)
From S2P Require Import Prelude Errdefs GoValue Common Effects WampValues LogText ApiWorld.
Open Scope go_scope.

(** ** [hex.DecodeString] *)

Definition hex_digit (a : ascii) : option N :=
  let n := N_of_ascii a in
  if ((48 <=? n) && (n <=? 57))%N then Some (n - 48)%N
  else if ((97 <=? n) && (n <=? 102))%N then Some (n - 87)%N
  else if ((65 <=? n) && (n <=? 70))%N then Some (n - 55)%N
  else None.

Fixpoint hex_decode (s : string) : option string :=
  match s with
  | "" => Some ""
  | String _ "" => None
  | String a (String b s') =>
      match hex_digit a, hex_digit b, hex_decode s' with
      | Some h, Some l, Some r => Some (String (ascii_of_N (16 * h + l)) r)
      | _, _, _ => None
      end
  end.

Definition hex_error : error := Plain "encoding/hex".

(** ** Operations *)

Record FileChunk := {
  fc_ID : string; fc_FileName : string; fc_FilePath : string; fc_Data : string;
  fc_ContainerName : string; fc_Total : N;
}.

Definition find_transfer (name : string) (s : ApiState) : option nat := activeTransfers s !! name.

Definition GetActiveTransfer (containerName : string) : Api (option nat) := gets (find_transfer containerName).

(** The object a pointer of the map points to. *)
Definition read_transfer (p : nat) : Api ActiveFileTransfer :=
  let! t := gets (λ s, transferHeap s !! p) in
  match t with Some t => ret t | None => panic end.

Definition close_file (f : option nat) : Api unit :=
  match f with Some h => call (CloseFile h);; ret tt | None => ret tt end.

Definition canceled_transfer (t : ActiveFileTransfer) : ActiveFileTransfer :=
  {| ft_ID := ft_ID t; ft_Current := ft_Current t; ft_Total := ft_Total t; ft_Canceled := true; ft_File := ft_File t |}.
Definition advanced (n : N) (t : ActiveFileTransfer) : ActiveFileTransfer :=
  {| ft_ID := ft_ID t; ft_Current := wrap64 (ft_Current t + n); ft_Total := ft_Total t;
     ft_Canceled := ft_Canceled t; ft_File := ft_File t |}.

Definition CancelTransfer (containerName : string) : Api unit :=
  let! p := GetActiveTransfer containerName in
  match p with
  | None => ret tt
  | Some p =>
      let! t := read_transfer p in
      modify (put_transfer p (canceled_transfer t));;
      close_file (ft_File t)
  end.

(** [if transfer := m[name]; transfer != nil && transfer.File != nil { transfer.File.Close() }]. *)
Definition close_active (containerName : string) : Api unit :=
  let! p := GetActiveTransfer containerName in
  match p with
  | None => ret tt
  | Some p => let! t := read_transfer p in close_file (ft_File t)
  end.

Definition forget_transfer (containerName : string) : Api unit :=
  modify (λ s, put_transfers (delete containerName (activeTransfers s)) s).

Definition CleanupFailedTransfer (containerName : string) : Api unit :=
  close_active containerName;;
  forget_transfer containerName.

Definition no_active_transfer : error := Plain "We received a chunk without an active transfer".
Definition canceled_error : error := Plain "canceled".
Definition no_file_handle : error := Plain "active transfer has no open file handle".

Definition begin_transfer (chunk : FileChunk) : Api unit :=
  close_active (fc_ContainerName chunk);;
  let! f := call (OpenTruncate (fc_FilePath chunk +:+ "/" +:+ fc_FileName chunk)) in
  match f with
  | inr err => forget_transfer (fc_ContainerName chunk);; throw err
  | inl f =>
      modify (λ s, put_transfers (<[fc_ContainerName chunk := transferNext s]> (activeTransfers s))
        (new_transfer {| ft_ID := fc_ID chunk; ft_Current := 0; ft_Total := fc_Total chunk;
                         ft_Canceled := false; ft_File := Some f |} s))
  end.

(** An END of another transfer changes nothing. *)
Definition end_transfer (chunk : FileChunk) (t : ActiveFileTransfer) : Api unit :=
  if negb (String.eqb (ft_ID t) (fc_ID chunk)) then ret tt
  else
    let! err := (match ft_File t with
                 | None => ret (inl tt)
                 | Some f =>
                     let! synced := call (SyncFile f) in
                     let! closed := call (CloseFile f) in
                     ret (match synced with inl _ => closed | inr e => inr e end)
                 end) in
    forget_transfer (fc_ContainerName chunk);;
    lift err.

Definition write_chunk (chunk : FileChunk) (p : nat) (t : ActiveFileTransfer) : Api unit :=
  if ft_Canceled t then throw canceled_error
  else if negb (String.eqb (ft_ID t) (fc_ID chunk)) then ret tt
  else
    match ft_File t with
    | None => throw no_file_handle
    | Some f =>
        match hex_decode (fc_Data chunk) with
        | None => throw hex_error
        | Some data =>
            let! n := callE (WriteFile f data) in
            let! t := read_transfer p in
            modify (put_transfer p (advanced n t))
        end
    end.

Definition WriteChunk (chunk : FileChunk) : Api unit :=
  if String.eqb (fc_Data chunk) "BEGIN" then begin_transfer chunk
  else
    let! p := GetActiveTransfer (fc_ContainerName chunk) in
    match p with
    | None => throw no_active_transfer
    | Some p =>
        let! t := read_transfer p in
        if String.eqb (fc_Data chunk) "END" then end_transfer chunk t
        else write_chunk chunk p t
    end.
