(* ===== verification/TransferSpec.v ===== *)
(** * What a transfer leaves in its file *)
From S2P Require Import Prelude Errdefs GoValue Common Effects WampValues LogText ApiWorld Transfer.
Open Scope go_scope.

(** ** Hexadecimal *)

Definition hex_char (n : N) : ascii := ascii_of_N (if (n <? 10)%N then 48 + n else 87 + n).

Fixpoint hex_encode (s : string) : string :=
  match s with
  | "" => ""
  | String a s => String (hex_char (N_of_ascii a / 16)) (String (hex_char (N_of_ascii a mod 16)) (hex_encode s))
  end.

Lemma hex_digit_char n : (n < 16)%N → hex_digit (hex_char n) = Some n.
Proof.
  rewrite <- (N2Nat.id n). generalize (N.to_nat n). intros k Hk.
  do 16 (destruct k as [|k]; [reflexivity|]). lia.
Qed.

Lemma hex_roundtrip s : hex_decode (hex_encode s) = Some s.
Proof.
  induction s as [|a s IH]; [done|]. cbn [hex_encode hex_decode].
  pose proof (N_ascii_bounded a) as Ha.
  rewrite !hex_digit_char, IH by (try apply N.mod_lt; try apply N.Div0.div_lt_upper_bound; lia).
  rewrite <- N.div_mod by lia. by rewrite ascii_N_embedding.
Qed.

Lemma hex_encode_not_token s : hex_encode s ≠ "BEGIN" ∧ hex_encode s ≠ "END".
Proof.
  split; intros He; pose proof (hex_roundtrip s) as Hr; rewrite He in Hr; by vm_compute in Hr.
Qed.

(** ** The files behind the handles *)

Fixpoint str_skip (n : nat) (s : string) : string :=
  match n, s with O, _ => s | S n, String _ s => str_skip n s | S _, EmptyString => "" end.
(** A write at an offset; beyond the end the gap is filled with zeros. *)
Fixpoint write_at (off : nat) (d b : string) : string :=
  match off with
  | O => d +:+ str_skip (String.length d) b
  | S off => match b with
             | String a b => String a (write_at off d b)
             | EmptyString => String Ascii.zero (write_at off d "")
             end
  end.

Lemma write_at_end d b : write_at (String.length b) d b = b +:+ d.
Proof. induction b as [|a b IH]; cbn; [by destruct (String.length d); rewrite str_app_nil_r|by rewrite IH]. Qed.

(** The contents of the files, and for each handle its file and the offset of its next write. *)
Record Disk := { dk_files : gmap string string; dk_handles : gmap nat (string * nat) }.

Section disk.
(** The file that a path leads to. *)
Variable node : string → string.

Definition disk_event {T} (c : ApiCall T) : T → Disk → Disk :=
  match c in ApiCall T return T → Disk → Disk with
  | OpenTruncate path => λ r d,
      match r with
      | inl h => {| dk_files := <[node path := ""]> (dk_files d); dk_handles := <[h := (node path, 0%nat)]> (dk_handles d) |}
      | inr _ => d
      end
  | WriteFile h data => λ r d,
      match r, dk_handles d !! h with
      | inl _, Some (x, off) =>
          {| dk_files := <[x := write_at off data (default "" (dk_files d !! x))]> (dk_files d);
             dk_handles := <[h := (x, (off + String.length data)%nat)]> (dk_handles d) |}
      | _, _ => d
      end
  | _ => λ _ d, d
  end.

Fixpoint disk_of (lg : list (event ApiCall ApiState)) : Disk :=
  match lg with
  | [] => {| dk_files := ∅; dk_handles := ∅ |}
  | Ev c r _ :: lg => disk_event c r (disk_of lg)
  end.
End disk.

(** Where a transfer puts its file. *)
Definition file_path (c : FileChunk) : string := fc_FilePath c +:+ "/" +:+ fc_FileName c.

(** The bytes transfer [id] sends to a container before its END. *)
Fixpoint own_bytes (id name : string) (cs : list FileChunk) : string :=
  match cs with
  | [] => ""
  | c :: cs =>
      if String.eqb (fc_ContainerName c) name && String.eqb id (fc_ID c) then
        if String.eqb (fc_Data c) "END" then "" else default "" (hex_decode (fc_Data c)) +:+ own_bytes id name cs
      else own_bytes id name cs
  end.

(** Chunks handled one after the other, each failing on its own. *)
Definition receive (cs : list FileChunk) : Api unit := for_each cs (λ c, ignore (WriteChunk c)).

Section transfer.
Variable en : api_env.

Definition opened (f : nat) (lg : list (event ApiCall ApiState)) : Prop := ∃ path s, Ev (OpenTruncate path) (inl f) s ∈ lg.

(** The handlers of transfers take turns, open files are told apart, and writing to one
    succeeds. *)
Record transfers_served : Prop := {
  alone : ∀ lg s, interfere en lg s = s;
  fresh_file : ∀ path lg f, answer en _ (OpenTruncate path) lg = inl f → ¬ opened f lg;
  writable : ∀ f d lg, answer en _ (WriteFile f d) lg = inl (N.of_nat (String.length d));
}.
Hypothesis Hserved : transfers_served.

#[local] Set Default Proof Using "Type*".

Variable node : string → string.
Variables (f p : nat) (P name : string).

Definition handle_at (h : nat) (st : api_state) : option (string * nat) := dk_handles (disk_of node (log st)) !! h.
Definition file_at (x : string) (st : api_state) : option string := dk_files (disk_of node (log st)) !! x.
(** The handle leads to another file. *)
Definition elsewhere (h : nat) (st : api_state) : Prop := ∃ x off, handle_at h st = Some (x, off) ∧ x ≠ P.

Lemma handle_opened h st x : handle_at h st = Some x → opened h (log st).
Proof.
  unfold handle_at. destruct st as [w lg]. cbn [log]. revert x. induction lg as [|[T c r s] lg IH]; intros x; [done|]. cbn [disk_of].
  assert (opened h lg → opened h (Ev c r s :: lg)) as Hmore by (intros (path & s' & Hin); exists path, s'; by right).
  destruct c; cbn [disk_event]; try (intros Hx; by eapply Hmore, IH).
  - destruct r as [h'|e]; [|intros Hx; by eapply Hmore, IH]. cbn. intros [[<- _]|[_ Hx]]%lookup_insert_Some; [eexists _, _; by left|by eapply Hmore, IH].
  - destruct r as [n|e]; [|intros Hx; by eapply Hmore, IH]. destruct (dk_handles (disk_of node lg) !! file) as [[y off]|] eqn:E; [|intros Hx; by eapply Hmore, IH].
    cbn. intros [[<- _]|[_ Hx]]%lookup_insert_Some; by eapply Hmore, IH.
Qed.

(** The slot of [name] holds [v], its object is [o], the file [P] has [b], its handle [f] stands
    at the end of it, and no other container's transfer is that object or has that file open. *)
Record Slot (v : option nat) (o : option ActiveFileTransfer) (b : string) (st : api_state) : Prop := {
  sl_slot : activeTransfers (world st) !! name = v;
  sl_object : transferHeap (world st) !! p = o;
  sl_bound : (p < transferNext (world st))%nat;
  sl_contents : file_at P st = Some b;
  sl_handle : handle_at f st = Some (P, String.length b);
  sl_foreign : ∀ name' p', name' ≠ name → activeTransfers (world st) !! name' = Some p' →
    p' ≠ p ∧ (p' < transferNext (world st))%nat ∧ ∃ t, transferHeap (world st) !! p' = Some t ∧ ∀ h, ft_File t = Some h → elsewhere h st;
}.

(** The calls that leave the file alone. *)
Definition spares {T} (c : ApiCall T) (st : api_state) : Prop :=
  match c with WriteFile h _ => elsewhere h st | OpenTruncate path => node path ≠ P | _ => True end.

Lemma opened_ne path st h x : handle_at h st = Some x → answer en _ (OpenTruncate path) (log st) ≠ inl h.
Proof. intros Hh Ha. apply (fresh_file Hserved _ _ _ Ha). by eapply handle_opened. Qed.

Lemma elsewhere_call h {T} (c : ApiCall T) st : elsewhere h st → elsewhere h (call c en st).2.
Proof.
  intros (x & off & Hh & Hx). unfold elsewhere, handle_at, call. cbn [snd log disk_of].
  destruct c; cbn [disk_event]; try (by exists x, off).
  - pose proof (opened_ne path st h _ Hh) as Hne. destruct (answer en _ (OpenTruncate path) (log st)) as [h'|e]; [|by exists x, off].
    exists x, off. cbn. rewrite lookup_insert_ne by congruence. done.
  - destruct (answer en _ (WriteFile file data) (log st)) as [n|e]; [|by exists x, off].
    destruct (dk_handles (disk_of node (log st)) !! file) as [[y off']|] eqn:E; [|by exists x, off].
    destruct (decide (file = h)) as [->|Hne]; [|exists x, off; cbn; by rewrite lookup_insert_ne].
    unfold handle_at in Hh. rewrite Hh in E. injection E as <- <-. eexists x, _. cbn. by rewrite lookup_insert_eq.
Qed.

Lemma spares_call b {T} (c : ApiCall T) st : spares c st → file_at P st = Some b → handle_at f st = Some (P, String.length b) →
  file_at P (call c en st).2 = Some b ∧ handle_at f (call c en st).2 = Some (P, String.length b).
Proof.
  intros Hc Hf Hh. unfold file_at, handle_at, call in *. cbn [snd log disk_of].
  destruct c; cbn [disk_event spares] in *; try done.
  - pose proof (opened_ne path st f _ Hh) as Hne. destruct (answer en _ (OpenTruncate path) (log st)) as [h'|e]; [|done].
    cbn. rewrite !lookup_insert_ne by congruence. done.
  - destruct (answer en _ (WriteFile file data) (log st)) as [n|e]; [|done]. destruct Hc as (x & off & Hx & Hne). unfold handle_at in Hx. rewrite Hx.
    assert (file ≠ f) by (intros ->; congruence). cbn. rewrite !lookup_insert_ne by done. done.
Qed.

Lemma slot_call v o b {T} (c : ApiCall T) st : spares c st → Slot v o b st → Slot v o b (call c en st).2.
Proof.
  intros Hc [H1 H2 H3 H4 H5 H6]. destruct (spares_call b c st Hc H4 H5) as [G4 G5].
  assert (world (call c en st).2 = world st) as Hw by apply (alone Hserved). split; rewrite ?Hw; try done.
  intros n' p' Hn Hl. destruct (H6 n' p' Hn Hl) as (K1 & K2 & t & K3 & K4). do 2 (split; [done|]). exists t. split; [done|].
  intros h Hh. by apply elsewhere_call, K4.
Qed.

Lemma slot_forget v o b name' st :
  name' ≠ name → Slot v o b st → Slot v o b (mk_state (put_transfers (delete name' (activeTransfers (world st))) (world st)) (log st)).
Proof.
  intros Hne [H1 H2 H3 H4 H5 H6]. split; simpl; try done.
  - by rewrite lookup_delete_ne.
  - intros n' p' Hn [Hd Ha]%lookup_delete_Some. by apply (H6 n').
Qed.

(** Closing a file nobody writes to any more. *)
Lemma slot_close v o b h st : Slot v o b st → ∃ st', close_file h en st = (Ok tt, st') ∧ Slot v o b st' ∧ world st' = world st.
Proof.
  intros Hs. destruct h as [h|]; [|by exists st].
  exists (call (CloseFile h) en st).2. split_and!; [done|by apply slot_call|]. simpl. apply (alone Hserved).
Qed.

Lemma slot_close_active v o b name' st : name' ≠ name → Slot v o b st →
  ∃ st', close_active name' en st = (Ok tt, st') ∧ Slot v o b st' ∧ world st' = world st.
Proof.
  intros Hne Hs. unfold close_active, GetActiveTransfer, bind, gets, find_transfer.
  destruct (activeTransfers (world st) !! name') as [p'|] eqn:E; [|by exists st].
  destruct (sl_foreign _ _ _ _ Hs name' p' Hne E) as (_ & _ & t & Ht & _).
  unfold read_transfer, bind, gets. rewrite Ht. unfold ret. by apply slot_close.
Qed.

(** It returned, with or without an error. *)
Definition settled {A} (r : outcome A) : Prop := match r with Ok _ | Err _ => True | _ => False end.

(** A chunk of another container. *)
Lemma slot_other_begin v o b c st : fc_ContainerName c ≠ name → node (file_path c) ≠ P → Slot v o b st →
  ∃ r st', begin_transfer c en st = (r, st') ∧ settled r ∧ Slot v o b st'.
Proof.
  intros Hne Hpath Hs. unfold begin_transfer. fold (file_path c).
  destruct (slot_close_active v o b _ st Hne Hs) as (st1 & E1 & Hs1 & _).
  rewrite (bind_ok en st st1 _ _ tt E1). clear E1 st Hs.
  set (op := OpenTruncate _).
  rewrite (bind_ok en st1 (call op en st1).2 _ _ (answer en _ op (log st1)) eq_refl).
  pose proof (slot_call v o b op st1 Hpath Hs1 : Slot v o b (call op en st1).2) as Hs2.
  assert (∀ h, answer en _ op (log st1) = inl h → elsewhere h (call op en st1).2) as Hfresh.
  { intros h Hh. exists (node (file_path c)), 0%nat. split; [|done]. unfold handle_at, call, op. cbn [snd log disk_of disk_event]. fold op. rewrite Hh. apply lookup_insert_eq. }
  destruct (call op en st1) as [o2 st2]. cbn [snd] in *.
  destruct (answer en _ op (log st1)) as [h|e].
  - eexists _, _. split; [reflexivity|]. split; [done|].
    specialize (Hfresh h eq_refl). destruct Hs2 as [H1 H2 H3 H4 H5 H6]. split; simpl; try done; [..|].
    + by rewrite lookup_insert_ne.
    + rewrite lookup_insert_ne by lia. done.
    + lia.
    + intros n' p' Hn Hl. destruct (decide (n' = fc_ContainerName c)) as [->|Hnn].
      * rewrite lookup_insert_eq in Hl. injection Hl as <-. split; [lia|]. split; [lia|].
        rewrite lookup_insert_eq. eexists. split; [done|]. by intros h' [= <-].
      * rewrite lookup_insert_ne in Hl by done. destruct (H6 n' p' Hn Hl) as (G1 & G2 & t & G3 & G4).
        split; [done|]. split; [lia|]. exists t. rewrite lookup_insert_ne by lia. done.
  - eexists _, _. split; [reflexivity|]. split; [done|]. by apply slot_forget.
Qed.

(** Syncing and closing a file. *)
Lemma slot_finish v o b h st : Slot v o b st →
  ∃ r st', (match h with
     | None => ret (inl tt)
     | Some f' => let! synced := call (SyncFile f') in
                  let! closed := call (CloseFile f') in
                  ret (match synced with inl _ => closed | inr e => inr e end)
     end : Api (unit + error)) en st = (Ok r, st') ∧ Slot v o b st' ∧ world st' = world st.
Proof.
  intros Hs. destruct h as [h|]; [|by exists (inl tt), st].
  eexists _, _. split; [reflexivity|].
  change (mk_state _ _) with (call (CloseFile h) en (call (SyncFile h) en st).2).2.
  split; [by apply slot_call, slot_call|]. simpl. by rewrite !(alone Hserved).
Qed.

Lemma slot_other v o b c st : fc_ContainerName c ≠ name → (fc_Data c = "BEGIN" → node (file_path c) ≠ P) → Slot v o b st →
  ∃ r st', WriteChunk c en st = (r, st') ∧ settled r ∧ Slot v o b st'.
Proof.
  intros Hne Hpath Hs. unfold WriteChunk. destruct (String.eqb_spec (fc_Data c) "BEGIN") as [Hb|_]; [by apply slot_other_begin; [|apply Hpath|]|].
  unfold GetActiveTransfer, bind at 1, gets, find_transfer.
  destruct (activeTransfers (world st) !! fc_ContainerName c) as [p'|] eqn:E; [|by eexists _, _].
  destruct (sl_foreign _ _ _ _ Hs _ p' Hne E) as (Hp & Hb & t & Ht & Hf).
  unfold read_transfer at 1, bind at 1, bind at 1, gets. rewrite Ht. unfold ret at 1.
  destruct (String.eqb (fc_Data c) "END").
  - unfold end_transfer. destruct (negb _); [by eexists _, _|].
    destruct (slot_finish v o b (ft_File t) st Hs) as (r & st1 & E1 & Hs1 & _).
    rewrite (bind_ok en st st1 _ _ r E1).
    destruct r; (eexists _, _; split; [reflexivity|]; split; [done|]; by apply slot_forget).
  - unfold write_chunk. destruct (ft_Canceled t); [by eexists _, _|]. destruct (negb _); [by eexists _, _|].
    destruct (ft_File t) as [h|] eqn:Eh; [|by eexists _, _].
    destruct (hex_decode _) as [d|]; [|by eexists _, _].
    pose proof (writable Hserved h d (log st)) as En.
    unfold callE. rewrite (bind_ok en st (call (WriteFile h d) en st).2 _ _ (N.of_nat (String.length d))) by (unfold call, bind, lift; by rewrite En).
    pose proof (slot_call v o b (WriteFile h d) st (Hf h eq_refl) Hs) as Hs1.
    pose proof (elsewhere_call h (WriteFile h d) st (Hf h eq_refl)) as Hels.
    assert (world (call (WriteFile h d) en st).2 = world st) as Hw by apply (alone Hserved).
    destruct (call (WriteFile h d) en st) as [o1 st1]. cbn [snd] in *. clear o1.
    unfold read_transfer, bind, gets. rewrite Hw, Ht. unfold ret, modify. eexists _, _. split; [reflexivity|]. split; [done|].
    destruct Hs1 as [H1 H2 H3 H4 H5 H6]. split; simpl; try done.
    + by rewrite lookup_insert_ne.
    + intros n' p'' Hn Hl. destruct (H6 n' p'' Hn Hl) as (G1 & G2 & t' & G3 & G4).
      split; [done|]. split; [done|]. destruct (decide (p'' = p')) as [->|].
      * rewrite lookup_insert_eq. eexists. split; [done|]. simpl. intros h' Hh'. rewrite Eh in Hh'. by injection Hh' as <-.
      * rewrite lookup_insert_ne by done. by exists t'.
Qed.

(** ** The chunks of the container itself *)

Variable id : string.

(** The transfer is open with the bytes received so far; or it is over, and no transfer
    writes to its file any more. *)
Definition receiving (b : string) (st : api_state) : Prop :=
  ∃ t, Slot (Some p) (Some t) b st ∧ ft_ID t = id ∧ ft_Canceled t = false ∧ ft_File t = Some f.
Definition finished (b : string) (st : api_state) : Prop := ∃ o, Slot None o b st.

Lemma own_end b t c st : Slot (Some p) (Some t) b st → ft_File t = Some f → ft_ID t = fc_ID c →
  fc_ContainerName c = name → ∃ r st', end_transfer c t en st = (r, st') ∧ settled r ∧ finished b st'.
Proof.
  intros Hs Hf Hid Hc. unfold end_transfer. rewrite Hid, String.eqb_refl, Hc. cbn [negb].
  destruct (slot_finish _ _ b (ft_File t) st Hs) as (r & st1 & E1 & [H1 H2 H3 H4 H5 H6] & _).
  rewrite (bind_ok en st st1 _ _ r E1).
  assert (finished b (mk_state (put_transfers (delete name (activeTransfers (world st1))) (world st1)) (log st1))) as Hfin.
  { exists (Some t). split; simpl; try done; [by rewrite lookup_delete_eq|].
    intros n' p' Hn [Hd Ha]%lookup_delete_Some. by apply (H6 n'). }
  destruct r; (eexists _, _; split; [reflexivity|]; by split).
Qed.

Lemma own_write b t c st d : Slot (Some p) (Some t) b st → ft_File t = Some f → ft_ID t = fc_ID c →
  ft_Canceled t = false → hex_decode (fc_Data c) = Some d → fc_ID c = id →
  ∃ r st', write_chunk c p t en st = (r, st') ∧ settled r ∧ receiving (b +:+ d) st'.
Proof.
  intros Hs Hf Hid Hca Hd Hc. unfold write_chunk. rewrite Hca, Hid, String.eqb_refl, Hf, Hd. cbn [negb].
  pose proof (writable Hserved f d (log st)) as En.
  unfold callE. rewrite (bind_ok en st (call (WriteFile f d) en st).2 _ _ (N.of_nat (String.length d))) by (unfold call, bind, lift; by rewrite En).
  assert (Slot (Some p) (Some t) (b +:+ d) (call (WriteFile f d) en st).2) as Hs1.
  { destruct Hs as [H1 H2 H3 H4 H5 H6]. assert (world (call (WriteFile f d) en st).2 = world st) as Hw by apply (alone Hserved).
    split; rewrite ?Hw; try done; [..|intros n' p' Hn Hl; destruct (H6 n' p' Hn Hl) as (K1 & K2 & t' & K3 & K4); do 2 (split; [done|]);
      exists t'; split; [done|]; intros h Hh; by apply elsewhere_call, K4].
    all: unfold file_at, handle_at, call in *; cbn [snd log disk_of disk_event]; rewrite En, H5; cbn.
    - by rewrite lookup_insert_eq, H4, write_at_end.
    - by rewrite lookup_insert_eq, str_length_app. }
  destruct (call (WriteFile f d) en st) as [o1 st1]. cbn [snd] in *. clear o1.
  unfold read_transfer, bind, gets. rewrite (sl_object _ _ _ _ Hs1). unfold ret, modify.
  eexists _, _. split; [reflexivity|]. split; [done|]. exists (advanced (N.of_nat (String.length d)) t).
  split; [|simpl; by rewrite Hid]. destruct Hs1 as [H1 H2 H3 H4 H5 H6]. split; simpl; try done.
  - by rewrite lookup_insert_eq.
  - intros n' p' Hn Hl. destruct (H6 n' p' Hn Hl) as (G1 & G2 & t' & G3 & G4).
    split; [done|]. split; [done|]. exists t'. by rewrite lookup_insert_ne.
Qed.

(** One chunk of the container while the transfer is open. *)
Lemma own_chunk b c st : fc_ContainerName c = name → fc_Data c ≠ "BEGIN" → receiving b st →
  ∃ r st', WriteChunk c en st = (r, st') ∧ settled r ∧
    if String.eqb id (fc_ID c) then
      if String.eqb (fc_Data c) "END" then finished b st' else receiving (b +:+ default "" (hex_decode (fc_Data c))) st'
    else receiving b st'.
Proof.
  intros Hc Hb (t & Hs & Hid & Hca & Hf). unfold WriteChunk.
  rewrite (proj2 (String.eqb_neq _ _) Hb). unfold GetActiveTransfer, bind at 1, gets, find_transfer.
  rewrite Hc, (sl_slot _ _ _ _ Hs). unfold read_transfer at 1, bind at 1, bind at 1, gets.
  rewrite (sl_object _ _ _ _ Hs). unfold ret at 1.
  destruct (String.eqb_spec id (fc_ID c)) as [Hi|Hi]; destruct (String.eqb_spec (fc_Data c) "END") as [He|He].
  - apply own_end; congruence.
  - destruct (hex_decode (fc_Data c)) as [d|] eqn:Ed.
    + eapply own_write; [done|done|congruence|done|done|done].
    + unfold write_chunk. rewrite Hca, Hid, Hi, String.eqb_refl, Hf, Ed. simpl. eexists _, _. split; [reflexivity|].
      split; [done|]. rewrite str_app_nil_r. by exists t; rewrite Hid.
  - unfold end_transfer. rewrite Hid, (proj2 (String.eqb_neq _ _) Hi). eexists _, _. split; [reflexivity|]. split; [done|]. by exists t.
  - unfold write_chunk. rewrite Hca, Hid, (proj2 (String.eqb_neq _ _) Hi). eexists _, _. split; [reflexivity|]. split; [done|]. by exists t.
Qed.

Lemma late_chunk b c st : fc_ContainerName c = name → fc_Data c ≠ "BEGIN" → finished b st →
  WriteChunk c en st = (Err no_active_transfer, st).
Proof.
  intros Hc Hb (o & Hs). unfold WriteChunk. rewrite (proj2 (String.eqb_neq _ _) Hb).
  unfold GetActiveTransfer, bind, gets, find_transfer. by rewrite Hc, (sl_slot _ _ _ _ Hs).
Qed.

Lemma receive_cons c cs st r st' : WriteChunk c en st = (r, st') → settled r → receive (c :: cs) en st = receive cs en st'.
Proof. intros E Hr. unfold receive. simpl. unfold bind at 1, ignore, try_, bind. rewrite E. by destruct r. Qed.

(** No chunk begins a transfer anew, or one of another container into the same file. *)
Definition feeds (cs : list FileChunk) : Prop :=
  ∀ c, c ∈ cs → fc_Data c = "BEGIN" → fc_ContainerName c ≠ name ∧ node (file_path c) ≠ P.

Lemma begin_elsewhere c cs : feeds (c :: cs) → fc_ContainerName c = name → fc_Data c ≠ "BEGIN".
Proof. intros Hfd Hc Hb. by destruct (Hfd c ltac:(left) Hb). Qed.

Lemma feeds_path c cs : feeds (c :: cs) → fc_Data c = "BEGIN" → node (file_path c) ≠ P.
Proof. intros Hfd Hb. by destruct (Hfd c ltac:(left) Hb). Qed.

Lemma receive_finished b cs st : feeds cs → finished b st → ∃ st', receive cs en st = (Ok tt, st') ∧ finished b st'.
Proof.
  revert st. induction cs as [|c cs IH]; intros st Hfd Hfin; [by exists st|].
  assert (feeds cs) as Hfd' by (intros c' Hc'; apply Hfd; by right).
  destruct (decide (fc_ContainerName c = name)) as [Hc|Hc].
  - rewrite (receive_cons _ _ _ _ _ (late_chunk b c st Hc (begin_elsewhere c cs Hfd Hc) Hfin) I). by apply IH.
  - destruct Hfin as [o Hs]. destruct (slot_other None o b c st Hc (feeds_path c cs Hfd) Hs) as (r & st' & E & Hr & Hs').
    rewrite (receive_cons _ _ _ _ _ E Hr). apply IH; [done|by exists o].
Qed.

Lemma receive_all b cs st : feeds cs → receiving b st →
  ∃ st', receive cs en st = (Ok tt, st') ∧ file_at P st' = Some (b +:+ own_bytes id name cs).
Proof.
  revert b st. induction cs as [|c cs IH]; intros b st Hfd Hrec.
  - exists st. split; [done|]. destruct Hrec as (t & Hs & _). by rewrite (sl_contents _ _ _ _ Hs), str_app_nil_r.
  - assert (feeds cs) as Hfd' by (intros c' Hc'; apply Hfd; by right). cbn [own_bytes].
    destruct (String.eqb_spec (fc_ContainerName c) name) as [Hc|Hc]; cbn [andb].
    + destruct (own_chunk b c st Hc (begin_elsewhere c cs Hfd Hc) Hrec) as (r & st' & E & Hr & Hn).
      rewrite (receive_cons _ _ _ _ _ E Hr). destruct (String.eqb id (fc_ID c)); [|by apply IH].
      destruct (String.eqb (fc_Data c) "END").
      * destruct (receive_finished b cs st' Hfd' Hn) as (st'' & E' & o & Hs'). exists st''. split; [done|].
        by rewrite (sl_contents _ _ _ _ Hs'), str_app_nil_r.
      * rewrite <- str_app_assoc. by apply IH.
    + destruct Hrec as (t & Hs & Hrest). destruct (slot_other _ _ b c st Hc (feeds_path c cs Hfd) Hs) as (r & st' & E & Hr & Hs').
      rewrite (receive_cons _ _ _ _ _ E Hr). apply IH; [done|by exists t].
Qed.
End transfer.

(** ** A whole transfer *)

(** Every entry points to an object, and its file was opened. *)
Definition transfers_valid (st : api_state) : Prop :=
  ∀ name p, activeTransfers (world st) !! name = Some p →
    (p < transferNext (world st))%nat ∧ ∃ t, transferHeap (world st) !! p = Some t ∧
      ∀ f, ft_File t = Some f → opened f (log st).

Definition is_chunk_of (id name : string) (c : FileChunk) : bool :=
  String.eqb (fc_ContainerName c) name && String.eqb id (fc_ID c).

Lemma own_bytes_pieces id name cs pieces later :
  map fc_Data (List.filter (is_chunk_of id name) cs) = (map hex_encode pieces ++ "END" :: later)%list →
  own_bytes id name cs = foldr String.append "" pieces.
Proof.
  revert pieces. induction cs as [|c cs IH]; intros pieces Hd; simpl in *.
  - by destruct pieces.
  - unfold is_chunk_of in Hd at 1. destruct (String.eqb (fc_ContainerName c) name && String.eqb id (fc_ID c)); [|by apply IH].
    simpl in Hd. destruct pieces as [|d pieces]; simpl in Hd; injection Hd as Hd1 Hd2.
    + by rewrite Hd1.
    + rewrite Hd1, (proj2 (String.eqb_neq _ _) (proj2 (hex_encode_not_token d))), hex_roundtrip. simpl. f_equal. by apply IH.
Qed.

(** No transfer of another container has the file [P] open. *)
Definition own_file (node : string → string) (P name : string) (st : api_state) : Prop :=
  ∀ name' p t h, name' ≠ name → activeTransfers (world st) !! name' = Some p → transferHeap (world st) !! p = Some t → ft_File t = Some h →
    ∀ off, handle_at node h st ≠ Some (P, off).

Lemma handles_stay node {T} (c : ApiCall T) r d h : is_Some (dk_handles d !! h) → is_Some (dk_handles (disk_event node c r d) !! h).
Proof.
  intros Hh. destruct c; cbn; try done; destruct r; try done; [|destruct (dk_handles d !! file) as [[x off]|]; [|done]]; cbn; rewrite lookup_insert_is_Some'; by right.
Qed.

Lemma opened_handle_at node h st : opened h (log st) → is_Some (handle_at node h st).
Proof.
  unfold handle_at. destruct st as [w lg]. cbn [log]. induction lg as [|e lg IH]; intros (path & s & Hin); [by apply not_elem_of_nil in Hin|].
  apply elem_of_cons in Hin as [<-|Hin]; [cbn; rewrite lookup_insert_eq; by eexists|]. destruct e as [T c r s']. cbn [disk_of].
  apply handles_stay, IH. by exists path, s.
Qed.

Lemma begin_receiving en node c st st1 : transfers_served en → transfers_valid st → own_file node (node (file_path c)) (fc_ContainerName c) st →
  fc_Data c = "BEGIN" → WriteChunk c en st = (Ok tt, st1) →
  ∃ f, receiving node f (transferNext (world st)) (node (file_path c)) (fc_ContainerName c) (fc_ID c) "" st1.
Proof.
  intros Hserved Hv Hown Hb Hw. unfold WriteChunk in Hw. rewrite Hb in Hw. simpl in Hw. unfold begin_transfer in Hw. fold (file_path c) in Hw.
  assert (∃ st0, close_active (fc_ContainerName c) en st = (Ok tt, st0) ∧ world st0 = world st
            ∧ (∀ h, handle_at node h st0 = handle_at node h st)) as (st0 & E0 & W0 & O0).
  { unfold close_active, GetActiveTransfer, bind, gets, find_transfer.
    destruct (activeTransfers (world st) !! fc_ContainerName c) as [p'|] eqn:E; [|by exists st].
    destruct (Hv _ p' E) as (_ & t & Ht & _). unfold read_transfer, bind, gets. rewrite Ht. unfold ret, close_file, bind.
    destruct (ft_File t) as [h|]; [|by exists st]. exists (call (CloseFile h) en st).2. split_and!; [done|apply (alone en Hserved)|done]. }
  rewrite (bind_ok en st st0 _ _ tt E0) in Hw. set (op := OpenTruncate (file_path c)) in *.
  rewrite (bind_ok en st0 (call op en st0).2 _ _ (answer en _ op (log st0)) eq_refl) in Hw.
  destruct (answer en _ op (log st0)) as [f|e] eqn:Ef; [|unfold bind, forget_transfer, modify, throw in Hw; simplify_eq].
  unfold modify in Hw. injection Hw as <-. exists f.
  exists {| ft_ID := fc_ID c; ft_Current := 0; ft_Total := fc_Total c; ft_Canceled := false; ft_File := Some f |}.
  split; [|done]. rewrite !(alone en Hserved), W0. split; cbn [world log activeTransfers transferHeap transferNext new_transfer put_transfers].
  - by rewrite lookup_insert_eq.
  - by rewrite lookup_insert_eq.
  - lia.
  - unfold file_at. cbn [log call snd disk_of disk_event]. rewrite Ef. apply lookup_insert_eq.
  - unfold handle_at. cbn [log call snd disk_of disk_event]. rewrite Ef. apply lookup_insert_eq.
  - intros n' p' Hn Hl'. rewrite lookup_insert_ne in Hl' by done. destruct (Hv _ _ Hl') as (Hp & t & Ht & Ho).
    split; [lia|]. split; [lia|]. exists t. rewrite lookup_insert_ne by lia. split; [done|]. intros h Hh.
    destruct (opened_handle_at node h st (Ho h Hh)) as [[x off] Hx]. rewrite <- O0 in Hx.
    exists x, off. split; [|intros ->; rewrite O0 in Hx; by eapply Hown].
    pose proof (opened_ne en Hserved node (file_path c) st0 h _ Hx) as Hne. unfold handle_at. cbn [log call snd disk_of disk_event]. rewrite Ef.
    cbn. rewrite lookup_insert_ne; [done|]. intros ->. by apply Hne.
Qed.


(** ** Examples *)

(** A device on which everything works; files are numbered upwards. *)
Definition handle_of {T} (c : ApiCall T) : T → nat :=
  match c in ApiCall T return T → nat with
  | OpenTruncate _ => λ r, match r with inl h => h | inr _ => 0 end
  | _ => λ _, 0
  end%nat.

Definition event_handle (e : event ApiCall ApiState) : nat := match e with Ev c r _ => handle_of c r end.

Fixpoint last_handle (lg : list (event ApiCall ApiState)) : nat :=
  match lg with [] => 0 | e :: lg => Nat.max (event_handle e) (last_handle lg) end.

Lemma opened_handle f lg : opened f lg → (f ≤ last_handle lg)%nat.
Proof.
  intros (path & s & Hin). induction lg as [|e lg IH]; [by apply not_elem_of_nil in Hin|].
  simpl. apply elem_of_cons in Hin as [He|Hin]; [|specialize (IH Hin); lia].
  apply (f_equal event_handle) in He. simpl in He. lia.
Qed.

Definition calm_api {T} (c : ApiCall T) (lg : list (event ApiCall ApiState)) : T :=
  match c in ApiCall T return T with
  | CheckPrivilege _ => inl (Some [WBool true])
  | RegisterTopic _ | SyncFile _ | CloseFile _ | PruneDanglingImages | DownloadUpdate | InstallUpdate | PipeCommand _ _
  | StartSession _ _ | StopSession _ | EnableDHCP _ _ | SetIPv4Address _ _ _ _ | RemoveWifi _ | ScanWifi | ReloadWifi
  | AddWiFi _ _ | ActivateWiFi _ _ => inl tt
  | OpenTruncate _ => inl (S (last_handle lg))
  | WriteFile _ d => inl (N.of_nat (String.length d))
  | GoHandleTransferFailure _ _ | GoClearLogHistory _ | GoLogWrite _ _ | GoPublishProgress _ _ _ | GoReboot | GoPoweroff
  | GoRestartAgent | GoPublishOutput _ => tt
  | Now => 0%Z
  | ListImages => inl []
  | PruneAll => inl ""
  | GetContainers | GetLogHistory _ | TunnelState | IPv4Addresses => inl VNil
  | UpdateAgentBinary => (VNil, None)
  | QueryContainerLogs _ => inl {| lr_Lines := []; lr_Source := "docker"; lr_Truncated := false; lr_OldestAvailable := None |}
  | ReadAgentLogs => inl []
  | GetSystemInfo => {| si_DetailedOS := "linux"; si_Arch := "amd64"; si_Variant := "" |}
  | GetDeviceStats => {| sa_CPUCount := VNil; sa_CPUUsagePercent := VNil; sa_MemoryTotal := VNil; sa_MemoryUsed := VNil;
      sa_MemoryAvailable := VNil; sa_StorageTotal := VNil; sa_StorageUsed := VNil; sa_StorageFree := VNil;
      sa_DockerAppsTotal := VNil; sa_DockerAppsUsed := VNil; sa_DockerAppsFree := VNil; sa_DockerAppsMounted := VNil |}
  | LatestAgentVersion => inl "1.0.0"
  | OSReleaseCurrent => inl []
  | OSReleaseLatest => inl []
  | RunCommand _ _ => inl ""
  | StartCommand => inl 1%N
  | TunnelsCapable => None
  | RequestSession _ => inl {| ts_DataTopic := ""; ts_WriteTopic := ""; ts_ResizeTopic := ""; ts_SessionID := "" |}
  | DeviceTerminal _ => inl ({| ts_DataTopic := ""; ts_WriteTopic := ""; ts_ResizeTopic := ""; ts_SessionID := "" |}, true)
  | SetupTerminal _ => VNil
  | NetworkAddresses => []
  | ListEthernetDevices => inl []
  | ListWifiNetworks => inl []
  | WirelessConfig => inl (VNil, VNil)
  end.

Definition calm_device : api_env := {| answer := λ T c lg, calm_api c lg; interfere := λ _ s, s |}.
Definition no_transfers : api_state := mk_state {| activeTransfers := ∅; transferHeap := ∅; transferNext := 0 |} [].

Definition chunk (id name data : string) : FileChunk :=
  {| fc_ID := id; fc_FileName := name +:+ ".tar.gz"; fc_FilePath := "/apps/build"; fc_Data := data;
     fc_ContainerName := name; fc_Total := 3 |}.


Lemma calm_transfers : transfers_served calm_device.
Proof.
  split; [done| |by eexists].
  intros path lg f Hf Ho%opened_handle. simpl in Hf. injection Hf as <-. lia.
Qed.

(** Two transfers to the same container: the second supersedes the first, whose late
    chunk and END are ignored. *)
Definition ex_chunks : list FileChunk :=
  [chunk "b" "dev_7_cam" "4865"; chunk "a" "dev_7_cam" "ffff"; chunk "c" "dev_8_door" "BEGIN";
   chunk "a" "dev_7_cam" "END"; chunk "c" "dev_8_door" "00"; chunk "b" "dev_7_cam" "6c6c6f"; chunk "b" "dev_7_cam" "END"].

Definition ex_superseded : api_state :=
  (receive [chunk "a" "dev_7_cam" "BEGIN"; chunk "a" "dev_7_cam" "4142"] calm_device no_transfers).2.

Lemma ex_superseded_valid : transfers_valid ex_superseded.
Proof.
  intros name p Hp. vm_compute in Hp.
  assert (name = "dev_7_cam" ∧ p = 0%nat) as [-> ->].
  { assert (activeTransfers (world ex_superseded) = {["dev_7_cam" := 0%nat]}) as E by (vm_compute; reflexivity).
    assert (activeTransfers (world ex_superseded) !! name = Some p) as Hp' by exact Hp.
    rewrite E in Hp'. by apply lookup_singleton_Some in Hp' as [<- <-]. }
  split; [vm_compute; lia|]. eexists. split; [vm_compute; reflexivity|]. intros f [= <-].
  exists "/apps/build/dev_7_cam.tar.gz", (world no_transfers). vm_compute. right. left.
Qed.


(** Transfers to two containers that name the same file: the second BEGIN empties it, and the
    first goes on at its own offset. *)
Definition same_file (id name data : string) : FileChunk :=
  {| fc_ID := id; fc_FileName := "app.tar.gz"; fc_FilePath := "/apps/build"; fc_Data := data; fc_ContainerName := name; fc_Total := 3 |}.
Example shared_file_clashes :
  let st := (receive [same_file "a" "dev_7_cam" "BEGIN"; same_file "a" "dev_7_cam" "4142"; same_file "b" "dev_8_door" "BEGIN";
    same_file "b" "dev_8_door" "63"; same_file "a" "dev_7_cam" "43"; same_file "a" "dev_7_cam" "END"] calm_device no_transfers).2 in
  dk_files (disk_of id (log st)) !! "/apps/build/app.tar.gz" = Some ("c" +:+ String Ascii.zero "C").
Proof. vm_compute. reflexivity. Qed.
