(* ===== verification/Api.v ===== *)
(** * Handlers of remote calls (src/src/api, src/src/privilege)

    Every topic of the device has a handler.  A handler gets the call's arguments and
    details, whose caller decides what it may do, and answers with values or an error.
    Indexing an empty argument list panics. *)
From S2P Require Import Prelude Errdefs GoValue Common Records Effects HostPorts World WampValues.
From S2P Require Import EnvVars LogText Requests ApiWorld Transfer.
Open Scope go_scope.

(** ** Callers and privileges *)

Definition InsufficientPrivileges (what : string) : error :=
  Typed KInsufficientPrivileges (Plain ("insufficient privileges " +:+ what)).

(** What the handlers take from the standard library for durations and missing files, and
    the version built into the agent. *)
Class ApiHost := {
  agent_version : string;
  parse_duration : string → option Z;
  os_is_not_exist : error → bool;
}.

Section api.
Context `{GoRuntime} `{Host} `{LogRuntime} `{ApiHost}.

(** The account a call by the system is made for, from the keyword arguments or else
    from the first argument when that is a [common.Dict]. *)
Definition requestor_argument (r : Result) : wval :=
  match wget "requestor_account_key" (rs_ArgumentsKw r) with
  | WNil =>
      match rs_Arguments r with
      | Some (argsOne :: _) =>
          match as_dict argsOne with
          | None => WNil
          | Some argsDict => wget "requestor_account_key" argsDict
          end
      | _ => WNil
      end
  | requestorAccountKeyKw => requestorAccountKeyKw
  end.

Definition with_caller (value : Z) (r : Result) : Result :=
  {| rs_Arguments := rs_Arguments r; rs_ArgumentsKw := rs_ArgumentsKw r;
     rs_Details := map_set "caller_authid" (WU64 (int_as_uint64 value)) (rs_Details r) |}.

(** The call as the handler sees it. *)
Definition wrapDetails (r : Result) : Result :=
  match wget "caller_authid" (rs_Details r) with
  | WText "system" =>
      match requestor_argument r with
      | WNil => r
      | key => match Atoi (sprint (untyped key)) with inl value => with_caller value r | inr _ => r end
      end
  | _ => r
  end.

Definition caller_authid (details : wmap) : string := sprint (untyped (wget "caller_authid" details)).

Definition query_of (privilege : string) (requestor : Z) : privilege_query :=
  {| pq_privilege := privilege; pq_entity_key := cfg_DeviceKey config;
     pq_requestor_account_key := requestor; pq_swarm_key := cfg_SwarmKey config |}.

Definition not_bool : error := Plain "type of argument is not bool".

Definition Check (privilege : string) (details : wmap) : Api bool :=
  if String.eqb (caller_authid details) "system" then ret true
  else
    let! requestorAccountKey := lift (Atoi (caller_authid details)) in
    let! arguments := callE (CheckPrivilege (query_of privilege requestorAccountKey)) in
    match arguments with
    | Some (isPrivileged :: _) => match as_bool isPrivileged with Some b => ret b | None => throw not_bool end
    | _ => panic
    end.

(** The guard of a handler: what follows runs only for a privileged caller. *)
Definition guarded (privilege what : string) (body : Result → Api InvokeResult) (r : Result) : Api InvokeResult :=
  let! privileged := Check privilege (rs_Details r) in
  if privileged then body r else throw (InsufficientPrivileges what).

(** The log queries say when the check itself failed. *)
Definition guarded_verified (privilege what : string) (body : Result → Api InvokeResult) (r : Result) : Api InvokeResult :=
  let! privileged := try_ (Check privilege (rs_Details r)) in
  match privileged with
  | inr err => throw (Annotated "could not verify privileges" err)
  | inl true => body r
  | inl false => throw (InsufficientPrivileges what)
  end.

(** ** Arguments *)

Definition first_argument (r : Result) : Api wval :=
  match rs_Arguments r with Some (v :: _) => ret v | _ => panic end.

Definition nth_argument (n : nat) (r : Result) : Api wval :=
  match rs_Arguments r with
  | Some l => match nth_error l n with Some v => ret v | None => panic end
  | None => panic
  end.

Definition or_throw {A} (o : option A) (msg : string) : Api A :=
  match o with Some a => ret a | None => throw (Plain msg) end.

(** [if args == nil || args[0] == nil { return err }], then the dictionary. *)
Definition dict_argument (missing : string) (r : Result) : Api wmap :=
  match rs_Arguments r with
  | None => throw (Plain missing)
  | Some _ =>
      let! v := first_argument r in
      match v with
      | WNil => throw (Plain missing)
      | _ => or_throw (as_plain_map v) "first param should be a dict"
      end
  end.

(** [if response.Arguments == nil { return err }], then the payload. *)
Definition payload_argument (missing : string) (r : Result) : Api wmap :=
  match rs_Arguments r with
  | None => throw (Plain missing)
  | Some _ => let! v := first_argument r in or_throw (as_plain_map v) "failed to parse payload"
  end.

(** [if len(args) == 0 { return err }], then the dictionary. *)
Definition counted_argument (r : Result) : Api wmap :=
  match rs_Arguments r with
  | None | Some [] => throw (Plain "args for add wifi config is empty")
  | Some (v :: _) => or_throw (as_plain_map v) "argument 1 of args is not a dictionary type"
  end.

Definition text_of (key : string) (m : wmap) (msg : string) : Api string := or_throw (as_string (wget key m)) msg.

Definition firstArgDict (r : Result) : Api wmap :=
  match rs_Arguments r with
  | None | Some [] => throw (Plain "arguments are missing")
  | Some (WNil :: _) => throw (Plain "arguments are missing")
  | Some (v :: _) => or_throw (as_plain_map v) "first param should be a dict"
  end.

Definition optionalUint64 (argsDict : wmap) (key : string) : Api N :=
  match wget key argsDict with
  | WNil => ret 0%N
  | raw => or_throw (ToUint64 (coercible raw)) ("the " +:+ key +:+ " param should be a non-negative whole number")
  end.

(** An absolute time, a duration before now, or seconds since the epoch, in this order. *)
Definition ParseLogTime (value : string) (now : Z) : Z + error :=
  let trimmed := trim_space value in
  if String.eqb trimmed "" then inr (Plain "empty log time")
  else
    match parse_rfc3339 trimmed with
    | Some t => inl t
    | None =>
        match parse_duration (trim_prefix "-" trimmed) with
        | Some d => inl (now - Z.abs d)%Z
        | None =>
            match parse_int64 trimmed with
            | Some seconds => inl (seconds * 1000000000)%Z
            | None => inr (Plain (trimmed +:+ " is not an RFC3339 time, a Unix timestamp, or a duration"))
            end
        end
    end.

Definition optionalLogTime (argsDict : wmap) (key : string) (now : Z) : Api (option Z) :=
  match wget key argsDict with
  | WNil => ret None
  | raw =>
      let! value := or_throw (as_string raw) ("the " +:+ key +:+ " param should be a string") in
      if String.eqb value "" then ret None
      else match ParseLogTime value now with
           | inl t => ret (Some t)
           | inr err => throw (Annotated ("invalid " +:+ key) err)
           end
  end.

Definition answer_none (m : Api unit) : Api InvokeResult := m;; ret empty_answer.
Definition answer_values (l : list goval) : InvokeResult := {| ir_Arguments := l; ir_ArgumentsKw := [] |}.
Definition texts (l : list string) : goval := VList (map VStr l).

(** ** The device and its system *)

(** [wrapDetails] and registration aside, a handler is this. *)
Definition handler := Result → Api InvokeResult.

Definition deviceHandshakeHandler : handler := λ _,
  let! now := call Now in
  ret {| ir_Arguments := []; ir_ArgumentsKw := [("utp", VStr (format_rfc3339 now)); ("id", VStr (cfg_SerialNumber config))] |}.

Definition systemRebootHandler : handler :=
  guarded "MAINTAIN" "to reboot device" (λ _, answer_none (call GoReboot)).
Definition systemShutdownHandler : handler :=
  guarded "MAINTAIN" "to power off device" (λ _, answer_none (call GoPoweroff)).
Definition systemRestartAgentHandler : handler :=
  guarded "MAINTAIN" "to restart agent" (λ _, answer_none (call GoRestartAgent)).

Definition updateReagent : handler :=
  guarded "MAINTAIN" "to update reagent" (λ _,
    let! (updateResult, err) := call UpdateAgentBinary in
    match err with
    | Some err => if IsInProgress err then ret (answer_with updateResult) else throw err
    | None => ret (answer_with updateResult)
    end).

Definition getOSReleaseHandler : handler :=
  guarded "READ" "to get os release data" (λ _,
    let! current := call OSReleaseCurrent in
    match current with
    | inr err => if os_is_not_exist err then ret empty_answer else throw err
    | inl osReleaseCurrent =>
        let '(version, buildTime) :=
          match split_on "-" (default "" (map_get "VERSION" osReleaseCurrent)) with
          | [v; _; t] => (str_rev (trim_left (Ascii.eqb "v") (str_rev (trim_left (Ascii.eqb "v") v))), t)
          | _ => ("", "")
          end in
        let! latest := call OSReleaseLatest in
        match latest with
        | inr err => if os_is_not_exist err then ret empty_answer else throw err
        | inl osReleaseLatest =>
            ret (answer_with (VMap
              [("currentRelease", VMap [("Name", VStr (default "" (map_get "Name" osReleaseCurrent)));
                                        ("Version", VStr version); ("BuildTime", VStr buildTime)]);
               ("latestRelease", VMap [("Name", VStr (sprint (map_index "" osReleaseLatest)));
                                       ("Version", VStr (sprint (map_index "version" osReleaseLatest)));
                                       ("BuildTime", VStr (sprint (map_index "buildtime" osReleaseLatest)))])]))
        end
    end).

Definition downloadOSUpdateHandler : handler :=
  guarded "MAINTAIN" "to update reswarmos" (λ _, answer_none (callE DownloadUpdate)).
Definition installOSUpdateHandler : handler :=
  guarded "MAINTAIN" "to update reswarmos" (λ _, answer_none (callE InstallUpdate)).

Definition frp_version : string := "0.70.0".

Definition getAgentMetadataHandler : handler :=
  guarded "READ" "to get agent metadata" (λ _,
    let! sysInfo := call GetSystemInfo in
    let! capable := call TunnelsCapable in
    let! lastAgentVersion := call LatestAgentVersion in
    ret (answer_with (VMap
      ([("os", VStr (si_DetailedOS sysInfo)); ("arch", VStr (si_Arch sysInfo)); ("variant", VStr (si_Variant sysInfo));
        ("version", VStr agent_version); ("serialNumber", VStr (cfg_SerialNumber config)); ("canUpdate", VBool true);
        ("OSVersion", VStr (si_DetailedOS sysInfo))]
       ++ match capable with Some b => [("tunnelCapable", VBool b)] | None => [] end
       ++ match lastAgentVersion with
          | inl v => [("latestVersion", VStr v); ("latestTunnelVersion", VStr frp_version);
                      ("latestAgentVersion", VStr v); ("hasLatest", VBool (String.eqb v agent_version))]
          | inr _ => []
          end)%list))).

Definition getStorageDataHandler : handler :=
  guarded "READ" "to get storage data" (λ _,
    let! stats := call GetDeviceStats in
    ret (answer_with (VMap
      [("cpu_count", sa_CPUCount stats); ("cpu_usage", sa_CPUUsagePercent stats); ("memory_total", sa_MemoryTotal stats);
       ("memory_used", sa_MemoryUsed stats); ("memory_available", sa_MemoryAvailable stats);
       ("storage_total", sa_StorageTotal stats); ("storage_used", sa_StorageUsed stats);
       ("storage_free", sa_StorageFree stats); ("docker_apps_total", sa_DockerAppsTotal stats);
       ("docker_apps_used", sa_DockerAppsUsed stats); ("docker_apps_free", sa_DockerAppsFree stats);
       ("docker_apps_mounted", sa_DockerAppsMounted stats)]))).

(** The command's output is published by a goroutine when the call does not wait for it. *)
Definition codeExecutionHandler : handler := λ r,
  let! argsDict := dict_argument "args array should not be empty" r in
  let! cmdName := text_of "cmd" argsDict "cmd param should be a string" in
  let! blocking := or_throw (as_bool (wget "blocking" argsDict)) "blocking param should be a boolean" in
  let! cmdArgs := (match wget "args" argsDict with
                   | WNil => ret []
                   | v => or_throw (as_slice v) "args param should be an array of primitive values"
                   end) in
  let! commandTimeout := (match wget "timeout" argsDict with
                          | WNil => ret 1000%N
                          | v => or_throw (as_uint64 v) "the timeout param should be an uint64"
                          end) in
  let cmdArgs := map (λ a, sprint (untyped a)) cmdArgs in
  if blocking : bool then
    let! output := callE (RunCommand cmdName cmdArgs) in
    ret (answer_with (VStr output))
  else
    callE (PipeCommand cmdName cmdArgs);;
    call (GoPublishOutput commandTimeout);;
    let! pid := call StartCommand in
    match pid with
    | inr err => throw (Plain ("command failed to run: " +:+ error_text err))
    | inl pid => ret (answer_with (VMap [("pid", VInt (Z.of_N pid))]))
    end.

(** ** Containers and logs *)

Definition getImagesHandler : handler :=
  guarded "READ" "to read docker images" (λ _,
    let! images := callE ListImages in
    ret (answer_values images)).

Definition listContainersHandler : handler :=
  guarded "READ" "to list containers" (λ _,
    let! containers := callE GetContainers in
    ret (answer_with containers)).

(** [if args != nil || args[0] != nil]: a missing list is indexed. *)
Definition pruneImageHandler : handler :=
  guarded "MAINTAIN" "to prune images" (λ r,
    let! v := first_argument r in
    let! options := or_throw (as_plain_map v) "first param should be a dict" in
    let! all := (match wget "all" options with
                 | WNil => ret false
                 | v => or_throw (as_bool v) "all value for container prune is not a boolean"
                 end) in
    if all : bool then
      let! output := callE PruneAll in
      ret (answer_with (VStr output))
    else answer_none (callE PruneDanglingImages)).

Definition container_name_of (argsDict : wmap) : Api string :=
  text_of "containerName" argsDict "invalid value for containerName".

Definition getAppLogHistoryHandler : handler :=
  guarded "READ" "to get app log history" (λ r,
    let! argsDict := dict_argument "arguments are missing" r in
    let! containerName := container_name_of argsDict in
    let! history := callE (GetLogHistory containerName) in
    ret (answer_with history)).

(** The retention floor is absent when it is not known. *)
Definition oldest_available (t : option Z) : gomap :=
  match t with Some t => [("oldest_available", VStr (format_rfc3339 t))] | None => [] end.

Definition queryAppLogsHandler : handler :=
  guarded_verified "READ" "to query app logs" (λ r,
    let! argsDict := firstArgDict r in
    let! containerName := container_name_of argsDict in
    let! now := call Now in
    let! tail := optionalUint64 argsDict "tail" in
    let! offset := optionalUint64 argsDict "offset" in
    let! since := optionalLogTime argsDict "since" now in
    let! until := optionalLogTime argsDict "until" now in
    let! timestamps := (match wget "timestamps" argsDict with
                        | WNil => ret true
                        | raw => or_throw (as_bool raw) "the timestamps param should be a boolean"
                        end) in
    let! result := callE (QueryContainerLogs
      {| lq_ContainerName := containerName; lq_Tail := tail; lq_Offset := offset; lq_Since := since;
         lq_Until := until; lq_NoTimestamps := negb timestamps |}) in
    ret (answer_with (VMap
      ([("lines", texts (lr_Lines result)); ("source", VStr (lr_Source result));
        ("returned", VInt (Z.of_nat (length (lr_Lines result)))); ("truncated", VBool (lr_Truncated result));
        ("device_time", VStr (format_rfc3339 now))] ++ oldest_available (lr_OldestAvailable result))%list))).

(** Every argument is optional here. *)
Definition optional_dict (r : Result) : Api wmap :=
  match rs_Arguments r with
  | None | Some [] | Some (WNil :: _) => ret []
  | Some (v :: _) => or_throw (as_plain_map v) "first param should be a dict"
  end.

Definition queryDeviceLogsHandler : handler :=
  guarded_verified "READ" "to query device logs" (λ r,
    let! argsDict := optional_dict r in
    let! now := call Now in
    let! tail := optionalUint64 argsDict "tail" in
    let! since := optionalLogTime argsDict "since" now in
    let! until := optionalLogTime argsDict "until" now in
    let! level := (match wget "level" argsDict with
                   | WNil => ret ""
                   | raw => or_throw (as_string raw) "the level param should be a string"
                   end) in
    let! files := callE ReadAgentLogs in
    let result := QueryAgentLog {| aq_Tail := tail; aq_Since := since; aq_Until := until; aq_MinLevel := level |} files in
    ret (answer_with (VMap
      ([("lines", texts (ar_Lines result)); ("returned", VInt (Z.of_nat (length (ar_Lines result))));
        ("truncated", VBool (ar_Truncated result)); ("files_scanned", VInt (Z.of_nat (ar_FilesScanned result)));
        ("device_time", VStr (format_rfc3339 now))] ++ oldest_available (ar_OldestAvailable result))%list))).

Definition getTunnelState : handler := λ _,
  let! state := callE TunnelState in
  ret (answer_with state).

(** ** Terminals *)

Definition startTerminalSessHandler : handler :=
  guarded "DEVELOP" "to start a terminal session" (λ r,
    let! payload := payload_argument "failed to parse args, payload is missing" r in
    let! sessionID := text_of "sessionID" payload "failed to parse sessionID" in
    let! registrationID := or_throw (as_uint64 (wget "registrationID" payload)) "failed to parse registrationID" in
    answer_none (callE (StartSession sessionID registrationID))).

Definition stopTerminalSession : handler :=
  guarded "DEVELOP" "to start a terminal session" (λ r,
    let! payload := payload_argument "failed to parse args, payload is missing" r in
    let! sessionID := text_of "sessionID" payload "failed to parse sessionID" in
    answer_none (callE (StopSession sessionID))).

Definition session_data (t : terminal_session) : goval :=
  VMap [("dataTopic", VStr (ts_DataTopic t)); ("writeTopic", VStr (ts_WriteTopic t));
        ("resizeTopic", VStr (ts_ResizeTopic t)); ("sessionID", VStr (ts_SessionID t))].

Definition requestTerminalSessHandler : handler :=
  guarded "DEVELOP" "to start a terminal session" (λ r,
    let! payload := payload_argument "no args found" r in
    let! containerName := text_of "containerName" payload "failed to parse containerName" in
    let! termSess := callE (RequestSession containerName) in
    ret (answer_with (session_data termSess))).

Definition initDeviceTerm : handler := λ r,
  let! (pseudoTerminal, created) := callE (DeviceTerminal (caller_authid (rs_Details r))) in
  if created : bool then
    let! res := call (SetupTerminal pseudoTerminal) in
    ret (answer_with res)
  else ret (answer_with (session_data pseudoTerminal)).

(** ** Network *)

Definition listEthernetDevices : handler :=
  guarded "READ" "to list ethernet devices" (λ _,
    let! devices := callE ListEthernetDevices in
    ret (answer_values (map (λ d, VMap
      [("interfaceName", VStr (ed_InterfaceName d)); ("mac", VStr (ed_MAC d)); ("ipv4", ed_IPv4 d);
       ("ipv6", ed_IPv6 d); ("method", VStr (ed_Method d))]) devices))).

Definition uint32_of (n : N) : N := (n mod 2 ^ 32)%N.

Definition updateIPConfigHandler : handler :=
  guarded "NETWORK" "to update ip config" (λ r,
    let! payload := payload_argument "failed to parse args, payload is missing" r in
    let! method := text_of "method" payload "failed to parse method parameter" in
    let! mac := text_of "mac" payload "failed to parse mac parameter" in
    let! interfaceName := text_of "interfaceName" payload "failed to parse interface parameter" in
    if String.eqb method "auto" then answer_none (callE (EnableDHCP mac interfaceName))
    else
      let! ipv4 := text_of "ipv4" payload "failed to parse ipv4 parameter" in
      let! prefix := or_throw (as_uint64 (wget "prefix" payload)) "failed to parse prefix parameter" in
      answer_none (callE (SetIPv4Address mac interfaceName ipv4 (uint32_of prefix)))).

Definition listWiFiNetworksHandler : handler :=
  guarded "READ" "to list wifi networks" (λ _,
    let! wifis := callE ListWifiNetworks in
    let! (ipv4, ipv6) := callE WirelessConfig in
    ret {| ir_Arguments := map (λ w, VMap
             [("mac", VStr (wf_MAC w)); ("ssid", VStr (wf_SSID w)); ("channel", VInt (Z.of_N (wf_Channel w)));
              ("signal", VInt (Z.of_N (wf_Signal w))); ("security", VStr (wf_SecurityType w));
              ("frequency", VInt (Z.of_N (wf_Frequency w))); ("known", VBool (wf_Known w));
              ("current", VBool (wf_Current w))]) wifis;
           ir_ArgumentsKw := [("ipv4", ipv4); ("ipv6", ipv6)] |}).

Definition getCurrentIPAddresses : handler := λ _,
  let! addresses := callE IPv4Addresses in
  ret (answer_with addresses).

Definition getNetworkDataHandler : handler := λ _,
  let! addresses := call NetworkAddresses in
  ret (answer_values addresses).

Definition removeWifiHandler : handler :=
  guarded "NETWORK" "to remove wifi config" (λ r,
    let! payload := counted_argument r in
    let! ssid := text_of "ssid" payload "failed to parse ssid, invalid type" in
    answer_none (callE (RemoveWifi ssid))).

Definition wifiScanHandler : handler := λ _, answer_none (callE ScanWifi).

Definition wifiRebootHandler : handler :=
  guarded "NETWORK" "to restart wifi" (λ _, answer_none (callE ReloadWifi)).

Definition optional_text (key : string) (m : wmap) (msg : string) : Api string :=
  match wget key m with
  | WNil => ret ""
  | v => or_throw (as_string v) msg
  end.

Definition addWiFiConfigurationHandler : handler :=
  guarded "NETWORK" "to add wifi config" (λ r,
    let! wifiDict := counted_argument r in
    let! mac := optional_text "mac" wifiDict "failed to parse mac, invalid type" in
    let! securityType := optional_text "security" wifiDict "failed to parse securityType, invalid type" in
    let! ssid := text_of "ssid" wifiDict "failed to parse ssid, invalid type" in
    let! password := text_of "password" wifiDict "failed to parse password, invalid type" in
    let! priority := or_throw (as_uint64 (wget "priority" wifiDict)) "failed to parse priority, invalid type" in
    answer_none (callE (AddWiFi mac
      {| wc_Ssid := ssid; wc_Passwd := password; wc_Priority := uint32_of priority; wc_SecurityType := securityType |}))).

Definition selectWiFiNetworkHandler : handler :=
  guarded "NETWORK" "to select wifi network" (λ r,
    let! wifiDict := counted_argument r in
    let! ssid := text_of "ssid" wifiDict "failed to parse ssid, invalid type" in
    let! mac := text_of "mac" wifiDict "failed to parse mac, invalid type" in
    answer_none (callE (ActivateWiFi mac ssid))).

(** ** Files *)

(** What is logged for the first and last chunk, and the progress of the others. *)
Definition report_chunk (fileChunk : FileChunk) : Api unit :=
  let containerName := fc_ContainerName fileChunk in
  if String.eqb (fc_Data fileChunk) "BEGIN" then
    call (GoClearLogHistory containerName);;
    call (GoLogWrite containerName "Received first package on device!")
  else if String.eqb (fc_Data fileChunk) "END" then
    call (GoLogWrite containerName "File transfer has finished, starting build...")
  else
    let! activeTransfer := GetActiveTransfer containerName in
    match activeTransfer with
    | None => ret tt
    | Some p => call (GoPublishProgress containerName (fc_FileName fileChunk) p)
    end.

Definition writeToFileHandler : handler :=
  guarded "DEVELOP" "write data to device" (λ r,
    let! chunkArg := nth_argument 0 r in
    let! fileNameArg := nth_argument 1 r in
    let! containerNameArg := nth_argument 2 r in
    let! totalArg := nth_argument 3 r in
    let! idArg := nth_argument 4 r in
    let! fileName := or_throw (as_string fileNameArg) "failed to parse name argument" in
    let! data := or_throw (as_string chunkArg) "failed to parse chunk argument" in
    let! containerName := or_throw (as_string containerNameArg) "failed to parse containerName argument" in
    let! total := or_throw (as_uint64 totalArg) "failed to parse total argument" in
    let! id := or_throw (as_string idArg) "failed to parse id argument" in
    let fileChunk := {| fc_ID := id; fc_FileName := fileName; fc_FilePath := cfg_AppsBuildDir config; fc_Data := data;
                        fc_ContainerName := containerName; fc_Total := total |} in
    let! written := try_ (WriteChunk fileChunk) in
    match written with
    | inr err =>
        CleanupFailedTransfer containerName;;
        call (GoHandleTransferFailure containerName err);;
        throw err
    | inl _ => answer_none (report_chunk fileChunk)
    end).

(** ** The table of topics *)

(** A handler runs in the app manager's world or in the device's. *)
Inductive registration_handler :=
  | ByManager (h : Result → Agent InvokeResult)
  | ByDevice (h : handler).

Definition getTopicHandlerMap : list (string * registration_handler) :=
  [("request_app_state", ByManager requestAppStateHandler);
   ("write_data", ByDevice writeToFileHandler);
   ("device_handshake", ByDevice deviceHandshakeHandler);
   ("get_images", ByDevice getImagesHandler);
   ("request_terminal_session", ByDevice requestTerminalSessHandler);
   ("start_terminal_session", ByDevice startTerminalSessHandler);
   ("stop_terminal_session", ByDevice stopTerminalSession);
   ("list_wifi_networks", ByDevice listWiFiNetworksHandler);
   ("add_wifi_configuration", ByDevice addWiFiConfigurationHandler);
   ("scan_wifi_networks", ByDevice wifiScanHandler);
   ("remove_wifi_configuration", ByDevice removeWifiHandler);
   ("select_wifi_network", ByDevice selectWiFiNetworkHandler);
   ("list_ethernet_devices", ByDevice listEthernetDevices);
   ("update_ipv4_config", ByDevice updateIPConfigHandler);
   ("system_reboot", ByDevice systemRebootHandler);
   ("system_shutdown", ByDevice systemShutdownHandler);
   ("system_restart_agent", ByDevice systemRestartAgentHandler);
   ("restart_wifi", ByDevice wifiRebootHandler);
   ("update_agent", ByDevice updateReagent);
   ("prune_images", ByDevice pruneImageHandler);
   ("get_agent_metadata", ByDevice getAgentMetadataHandler);
   ("list_containers", ByDevice listContainersHandler);
   ("get_network_metadata", ByDevice getNetworkDataHandler);
   ("get_app_log_history", ByDevice getAppLogHistoryHandler);
   ("query_app_logs", ByDevice queryAppLogsHandler);
   ("query_device_logs", ByDevice queryDeviceLogsHandler);
   ("get_tunnel_state", ByDevice getTunnelState);
   ("get_os_release", ByDevice getOSReleaseHandler);
   ("download_os_update", ByDevice downloadOSUpdateHandler);
   ("install_os_update", ByDevice installOSUpdateHandler);
   ("execute_cmd", ByDevice codeExecutionHandler);
   ("init_device_terminal", ByDevice initDeviceTerm);
   ("get_ipv4_addresses", ByDevice getCurrentIPAddresses);
   ("get_storage_data", ByDevice getStorageDataHandler)].

(** Registering one topic: that it exists already is not an error. *)
Definition register_topic (topic : string) : Api unit :=
  let! r := call (RegisterTopic (BuildExternalApiTopic (cfg_SerialNumber config) topic)) in
  match r with
  | inl _ => ret tt
  | inr err => if str_contains "wamp.error.procedure_already_exists" (error_text err) then ret tt else throw err
  end.

(** The topics in the order the map is ranged over. *)
Definition RegisterAll (order : list string) : Api unit := for_each order register_topic.
End api.
