(* ===== verification/ApiSpec.v ===== *)
(** * Who may do what through a remote call *)
From S2P Require Import Prelude Errdefs GoValue Common Records Effects HostPorts World WampValues.
From S2P Require Import EnvVars LogText Requests ApiWorld Transfer TransferSpec Api Examples.
Open Scope go_scope.

(** The privilege a topic asks for. *)
Definition topic_privilege (topic : string) : option string :=
  if bool_decide (topic ∈ ["get_images"; "list_wifi_networks"; "list_ethernet_devices"; "get_agent_metadata";
      "list_containers"; "get_app_log_history"; "query_app_logs"; "query_device_logs"; "get_os_release"; "get_storage_data"])
  then Some "READ"
  else if bool_decide (topic ∈ ["system_reboot"; "system_shutdown"; "system_restart_agent"; "update_agent";
      "prune_images"; "download_os_update"; "install_os_update"]) then Some "MAINTAIN"
  else if bool_decide (topic ∈ ["write_data"; "request_terminal_session"; "start_terminal_session";
      "stop_terminal_session"]) then Some "DEVELOP"
  else if bool_decide (topic ∈ ["add_wifi_configuration"; "remove_wifi_configuration"; "select_wifi_network";
      "update_ipv4_config"; "restart_wifi"]) then Some "NETWORK"
  else None.

Definition asks (e : event ApiCall ApiState) : bool :=
  match e with Ev c _ _ => match c with CheckPrivilege _ => true | _ => false end end.

(** ** The calls a handler adds to the log *)

Section logged.
Context {GR : GoRuntime} {HO : Host} {LR : LogRuntime} {AH : ApiHost}.
Variable P : event ApiCall ApiState → Prop.

Definition logged (st0 st : api_state) : Prop := ∃ new, log st = (new ++ log st0)%list ∧ Forall P new.

Lemma logged_refl st : logged st st.
Proof. by exists []. Qed.

Lemma logged_call {T} (c : ApiCall T) en st0 : (∀ r s, P (Ev c r s)) → keeps en (logged st0) (call c).
Proof.
  intros HP st (new & Hl & Hf). unfold call. exists (Ev c (answer en T c (log st)) (world st) :: new). simpl. rewrite Hl.
  split; [done|]. by constructor.
Qed.

Lemma logged_callE {A} (c : ApiCall (A + error)) en st0 : (∀ r s, P (Ev c r s)) → keeps en (logged st0) (callE c).
Proof. intros HP. unfold callE. apply keeps_bind; [by apply logged_call|]. intros r. apply keeps_lift. Qed.

Lemma logged_modify f en st0 : keeps en (logged st0) (modify f).
Proof. apply keeps_modify. intros st (new & Hl & Hf). by exists new. Qed.

Lemma logged_or_throw {A} (o : option A) msg en st0 : keeps en (logged st0) (or_throw o msg).
Proof. unfold or_throw. destruct o; [apply keeps_ret|apply keeps_throw]. Qed.
End logged.

Section handlers.
Context {GR : GoRuntime} {HO : Host} {LR : LogRuntime} {AH : ApiHost}.

(** Whatever is not a question to the backend. *)
Definition answered (P : event ApiCall ApiState → Prop) : Prop := ∀ e, asks e = false → P e.

Variable P : event ApiCall ApiState → Prop.
Hypothesis HP : answered P.
Variable en : api_env.
Variable st0 : api_state.

#[local] Set Default Proof Using "Type*".

Lemma P_call {T} (c : ApiCall T) : (∀ r s, asks (Ev c r s) = false) → keeps en (logged P st0) (call c).
Proof. intros Hc. apply logged_call. intros. apply HP, Hc. Qed.
Lemma P_callE {A} (c : ApiCall (A + error)) : (∀ r s, asks (Ev c r s) = false) → keeps en (logged P st0) (callE c).
Proof. intros Hc. apply logged_callE. intros. apply HP, Hc. Qed.

(** A guarded call: made by the system itself, allowed by the backend before anything
    else happened, or refused with nothing done. *)
Definition authorized (privilege : string) (details : wmap) (st : api_state) (o : outcome InvokeResult) (st' : api_state) : Prop :=
  caller_authid details = "system"
  ∨ (∃ key, Atoi (caller_authid details) = inl key ∧
      ∃ rest s new, log st' = (new ++ Ev (CheckPrivilege (query_of privilege key)) (inl (Some (WBool true :: rest))) s :: log st)%list)
  ∨ ((∀ a, o ≠ Ok a) ∧
     (st' = st ∨ ∃ key, Atoi (caller_authid details) = inl key ∧ st' = (call (CheckPrivilege (query_of privilege key)) en st).2)).
End handlers.

(** Walk through the body of a handler. *)
Ltac walk_body HP :=
  repeat lazymatch goal with
  | |- keeps _ (logged _ _) (call _) => apply (P_call _ HP); intros; reflexivity
  | |- keeps _ (logged _ _) (callE _) => apply (P_callE _ HP); intros; reflexivity
  | |- keeps _ (logged _ _) (modify _) => apply logged_modify
  | |- keeps _ (logged _ _) (or_throw _ _) => apply logged_or_throw
  | |- keeps _ (logged _ _) (text_of _ _ _) => apply logged_or_throw
  | |- keeps _ (logged _ _) (answer_none _) => unfold answer_none
  | |- keeps _ (logged _ _) (GetActiveTransfer _) => unfold GetActiveTransfer
  | |- keeps _ (logged _ _) (read_transfer _) => unfold read_transfer
  | |- keeps _ (logged _ _) (close_file _) => unfold close_file
  | |- keeps _ (logged _ _) (close_active _) => unfold close_active
  | |- keeps _ (logged _ _) (forget_transfer _) => apply logged_modify
  | |- keeps _ (logged _ _) (first_argument _) => unfold first_argument
  | |- keeps _ (logged _ _) (nth_argument _ _) => unfold nth_argument
  | |- keeps _ (logged _ _) (dict_argument _ _) => unfold dict_argument
  | |- keeps _ (logged _ _) (payload_argument _ _) => unfold payload_argument
  | |- keeps _ (logged _ _) (counted_argument _) => unfold counted_argument
  | |- keeps _ (logged _ _) (firstArgDict _) => unfold firstArgDict
  | |- keeps _ (logged _ _) (optional_dict _) => unfold optional_dict
  | |- keeps _ (logged _ _) (optional_text _ _ _) => unfold optional_text
  | |- keeps _ (logged _ _) (optionalUint64 _ _) => unfold optionalUint64
  | |- keeps _ (logged _ _) (optionalLogTime _ _ _) => unfold optionalLogTime
  | |- keeps _ (logged _ _) (container_name_of _) => apply logged_or_throw
  | |- keeps _ (logged _ _) (report_chunk _) => unfold report_chunk
  | |- keeps _ (logged _ _) (CleanupFailedTransfer _) => unfold CleanupFailedTransfer
  | |- keeps _ (logged _ _) (WriteChunk _) => unfold WriteChunk
  | |- keeps _ (logged _ _) (begin_transfer _) => unfold begin_transfer
  | |- keeps _ (logged _ _) (end_transfer _ _) => unfold end_transfer
  | |- keeps _ (logged _ _) (write_chunk _ _ _) => unfold write_chunk
  | |- _ => first [keeps_step | progress cbv beta zeta]
  end.

Section guards.
Context {GR : GoRuntime} {HO : Host} {LR : LogRuntime} {AH : ApiHost}.
Variable en : api_env.

Definition anything (_ : event ApiCall ApiState) : Prop := True.
Definition no_question (e : event ApiCall ApiState) : Prop := asks e = false.

(** What runs behind the guard of a handler. *)
Definition quiet_body (body : Result → Api InvokeResult) : Prop :=
  ∀ P st0 r, answered P → keeps en (logged P st0) (body r).

(** What asking tells: the answer follows from the one new event. *)
Lemma Check_spec privilege details st :
  let '(o, st') := Check privilege details en st in
  (o = Ok true ∧ (caller_authid details = "system" ∨
     ∃ key rest s, Atoi (caller_authid details) = inl key ∧
       log st' = Ev (CheckPrivilege (query_of privilege key)) (inl (Some (WBool true :: rest))) s :: log st))
  ∨ (o ≠ Ok true ∧ (st' = st ∨ ∃ key, Atoi (caller_authid details) = inl key ∧
       st' = (call (CheckPrivilege (query_of privilege key)) en st).2)).
Proof.
  unfold Check. destruct (String.eqb_spec (caller_authid details) "system") as [Hs|_]; [left; by split; [|left]|].
  unfold lift at 1. destruct (Atoi (caller_authid details)) as [key|e] eqn:Ek; [|right; split; [done|by left]].
  unfold bind at 1, ret at 1. unfold callE, bind at 1.
  set (q := CheckPrivilege _). unfold bind at 1.
  destruct (call q en st) as [o1 st1] eqn:Ec.
  assert (o1 = Ok (answer en _ q (log st))) as -> by (unfold call in Ec; by injection Ec).
  assert (log st1 = Ev q (answer en _ q (log st)) (world st) :: log st) as Hl by (unfold call in Ec; by injection Ec as <-).
  assert (st1 = (call q en st).2) as Hst by (by rewrite Ec).
  assert (∀ o : outcome bool, o ≠ Ok true → o ≠ Ok true ∧ (st1 = st ∨ ∃ key', @inl Z error key = inl key' ∧
    st1 = (call (CheckPrivilege (query_of privilege key')) en st).2)) as Hno.
  { intros o Ho. split; [done|]. right. by exists key. }
  destruct (answer en _ q (log st)) as [[[|v rest]|]|e] eqn:Ea; cbn [lift ret panic throw];
    [by right; apply Hno| |by right; apply Hno|by right; apply Hno].
  destruct v as [|b| | | | | | |]; cbn [as_bool ret throw]; try (right; by apply Hno).
  destruct b; [|right; by apply Hno].
  left. split; [done|]. right. by exists key, rest, (world st).
Qed.

Lemma body_log body r st : quiet_body body → ∃ new, log (body r en st).2 = (new ++ log st)%list.
Proof.
  intros Hb. destruct (Hb anything st r (λ _ _, I) st (logged_refl anything st)) as (new & Hl & _). by exists new.
Qed.

(** The two guards differ in the error only. *)
Lemma guard_authorized privilege details (body : Result → Api InvokeResult) st (deny : Api InvokeResult) (fail : error → error) :
  (∀ st', ∃ e, deny en st' = (Err e, st')) → quiet_body body → ∀ r,
  let '(o, st') := match Check privilege details en st with
    | (Ok true, st1) => body r en st1
    | (Ok false, st1) => deny en st1
    | (Err e, st1) => (Err (fail e), st1)
    | (Panic, st1) => (Panic, st1)
    | (Hang, st1) => (Hang, st1)
    end in authorized en privilege details st o st'.
Proof.
  intros Hd Hb r. pose proof (Check_spec privilege details st) as Hc.
  destruct (Check privilege details en st) as [c st1]. destruct Hc as [[-> Hc]|[Hno Hc]].
  - destruct (body_log body r st1 Hb) as [new Hl]. destruct (body r en st1) as [o st']. simpl in Hl.
    destruct Hc as [Hs|(key & rest & s & Hk & Hl1)]; [by left|]. right. left. exists key. split; [done|].
    exists rest, s, new. by rewrite Hl, Hl1.
  - destruct c as [[]|e| |]; [done| | | |]; try (right; right; split; [by intros|exact Hc]).
    destruct (Hd st1) as [e ->]. right. right. split; [by intros|exact Hc].
Qed.

Lemma guarded_authorized privilege what body r st : quiet_body body →
  let '(o, st') := guarded privilege what body r en st in authorized en privilege (rs_Details r) st o st'.
Proof.
  intros Hb.
  pose proof (guard_authorized privilege (rs_Details r) body st (throw (InsufficientPrivileges what)) id
    ltac:(intros st'; by eexists) Hb r) as Hg.
  unfold guarded, bind. destruct (Check privilege (rs_Details r) en st) as [[[]|e| |] st1]; exact Hg.
Qed.

Lemma guarded_verified_authorized privilege what body r st : quiet_body body →
  let '(o, st') := guarded_verified privilege what body r en st in authorized en privilege (rs_Details r) st o st'.
Proof.
  intros Hb.
  pose proof (guard_authorized privilege (rs_Details r) body st (throw (InsufficientPrivileges what))
    (Annotated "could not verify privileges")
    ltac:(intros st'; by eexists) Hb r) as Hg.
  unfold guarded_verified, bind, try_. destruct (Check privilege (rs_Details r) en st) as [[[]|e| |] st1]; exact Hg.
Qed.

(** A handler without a guard asks nobody. *)
Lemma unguarded body r st : quiet_body body →
  let '(o, st') := body r en st in ∃ new, log st' = (new ++ log st)%list ∧ Forall no_question new.
Proof.
  intros Hb. pose proof (Hb no_question st r (λ _ He, He) st (logged_refl no_question st)) as (new & Hl & Hf).
  destruct (body r en st) as [o st']. by exists new.
Qed.

(** The topics without a privilege: the terminal of the device and the commands of
    [execute_cmd] are among them. *)
Definition open_topics : list string :=
  ["device_handshake"; "scan_wifi_networks"; "get_network_metadata"; "get_tunnel_state"; "execute_cmd";
   "init_device_terminal"; "get_ipv4_addresses"].

Lemma closed_topic topic privilege details st (run : outcome InvokeResult * api_state) : bool_decide (topic ∈ open_topics) = false →
  (let '(o, st') := run in authorized en privilege details st o st') →
  let '(o, st') := run in topic ∉ open_topics ∧ authorized en privilege details st o st'.
Proof. intros Ht%bool_decide_eq_false_1 H. by destruct run. Qed.

Lemma open_topic topic st (run : outcome InvokeResult * api_state) : bool_decide (topic ∈ open_topics) = true →
  (let '(o, st') := run in ∃ new, log st' = (new ++ log st)%list ∧ Forall no_question new) →
  let '(o, st') := run in topic ∈ open_topics ∧ ∃ new, log st' = (new ++ log st)%list ∧ Forall no_question new.
Proof. intros Ht%bool_decide_eq_true_1 H. by destruct run. Qed.

End guards.

(** ** Calls the system makes for an account *)

Section system_calls.
Context {GR : GoRuntime} {HO : Host} {LR : LogRuntime} {AH : ApiHost}.
Variable en : api_env.

(** The arguments as the decoder of the transport builds them: a dictionary is a plain
    map. *)
Definition decoded (r : Result) : Prop :=
  match rs_Arguments r with Some (v :: _) => as_dict v = None | _ => True end.

Definition called_by_system (r : Result) : Prop := wget "caller_authid" (rs_Details r) = WText "system".

Lemma wrap_positional r : called_by_system r → wget "requestor_account_key" (rs_ArgumentsKw r) = WNil → decoded r →
  wrapDetails r = r.
Proof.
  intros Hs Hk Hd. unfold wrapDetails, requestor_argument. rewrite Hs, Hk. unfold decoded in Hd.
  destruct (rs_Arguments r) as [[|v l]|]; [done| |done]. by rewrite Hd.
Qed.

Lemma Check_system privilege r st : called_by_system r → Check privilege (rs_Details r) en st = (Ok true, st).
Proof. intros Hs. unfold Check, caller_authid. by rewrite Hs. Qed.

(** Behind either guard, and without one. *)
Lemma guarded_system privilege what body r st : quiet_body en body → called_by_system r →
  ∃ new, log (guarded privilege what body r en st).2 = (new ++ log st)%list ∧ Forall no_question new.
Proof.
  intros Hb Hs. unfold guarded. rewrite (bind_ok en st st _ _ true (Check_system privilege r st Hs)).
  apply (Hb no_question st r (λ _ He, He) st (logged_refl no_question st)).
Qed.

Lemma guarded_verified_system privilege what body r st : quiet_body en body → called_by_system r →
  ∃ new, log (guarded_verified privilege what body r en st).2 = (new ++ log st)%list ∧ Forall no_question new.
Proof.
  intros Hb Hs. unfold guarded_verified, bind, try_. rewrite (Check_system privilege r st Hs).
  apply (Hb no_question st r (λ _ He, He) st (logged_refl no_question st)).
Qed.

Lemma unguarded_system body r st : quiet_body en body → called_by_system r →
  ∃ new, log (body r en st).2 = (new ++ log st)%list ∧ Forall no_question new.
Proof. intros Hb _. apply (Hb no_question st r (λ _ He, He) st (logged_refl no_question st)). Qed.

(** the account a system call is made for is lost when it is given in the first argument:
    the code looks for it in a [common.Dict], the transport delivers a plain map, and so
    every topic is served with the rights of the system, without asking whether the
    account has the privilege. *)
Theorem positional_requestor_ignored topic h r st :
  (topic, ByDevice h) ∈ getTopicHandlerMap →
  called_by_system r → wget "requestor_account_key" (rs_ArgumentsKw r) = WNil → decoded r →
  ∃ new, log (h (wrapDetails r) en st).2 = (new ++ log st)%list ∧ Forall no_question new.
Proof.
  intros Hin Hs Hk Hd. rewrite (wrap_positional r Hs Hk Hd). unfold getTopicHandlerMap in Hin.
  repeat (apply elem_of_cons in Hin as [Heq|Hin];
    [first [discriminate Heq | injection Heq as -> ->;
      first [ apply guarded_system | apply guarded_verified_system | apply unguarded_system ]; [|exact Hs];
      intros P st0 rr HP;
      unfold deviceHandshakeHandler, wifiScanHandler, getNetworkDataHandler, getTunnelState, codeExecutionHandler,
        initDeviceTerm, getCurrentIPAddresses;
      walk_body HP ]|]).
  by apply not_elem_of_nil in Hin.
Qed.

(** An account given by keyword becomes the caller, whose privileges are asked for. *)
Lemma keyword_requestor_is_caller r n :
  called_by_system r → wget "requestor_account_key" (rs_ArgumentsKw r) = WU64 n → (n < 2 ^ 63)%N →
  caller_authid (rs_Details (wrapDetails r)) = itoa n ∧ Atoi (itoa n) = inl (Z.of_N n).
Proof.
  intros Hs Hk Hn. unfold wrapDetails, requestor_argument. rewrite Hs, Hk.
  assert (sprint (untyped (WU64 n)) = itoa n) as Ht by (simpl; by rewrite pretty_Z_of_N).
  assert (Atoi (itoa n) = inl (Z.of_N n)) as Ha by (unfold Atoi; by rewrite parse_int64_itoa).
  rewrite Ht, Ha. split; [|done]. unfold caller_authid, with_caller. simpl rs_Details.
  unfold wget. rewrite map_get_set_eq. simpl.
  unfold int_as_uint64. rewrite Z.mod_small by (unfold two64; lia). by rewrite N2Z.id, pretty_Z_of_N.
Qed.
End system_calls.

(** ** Examples *)

#[local] Existing Instance amd64_runtime.
#[local] Existing Instance ex_host.

#[local] Instance ex_log_runtime : LogRuntime :=
  {| parse_rfc3339 := λ _, None; format_rfc3339 := λ _, ""; parse_rfc3339nano := λ _, None;
     json_log_line := λ _, None; json_error_field := λ _, "" |}.
#[local] Instance ex_api_host : ApiHost :=
  {| agent_version := "1.0.0"; parse_duration := λ _, None; os_is_not_exist := λ _, false |}.

(** A backend that allows nothing. *)
Definition denying_device : api_env :=
  {| answer := λ T c lg, match c in ApiCall T return T with
                         | CheckPrivilege _ => inl (Some [WBool false]) | c => calm_api c lg end;
     interfere := λ _ s, s |}.

Definition reboot_for (details : wmap) (kw : wmap) (args : list wval) : Result :=
  {| rs_Arguments := Some args; rs_ArgumentsKw := kw; rs_Details := details |}.

Definition by_system : wmap := [("caller_authid", WText "system")].


(** A caller whom the backend allows nothing is refused a container's terminal, and gets the
    device's and the output of a command. *)
Example device_terminal_is_open :
  let ask topic_handler args := (topic_handler (wrapDetails (reboot_for [("caller_authid", WU64 7)] [] args)) denying_device no_transfers).1 in
  ask requestTerminalSessHandler [WMap []] = Err (InsufficientPrivileges "to start a terminal session")
  ∧ ask initDeviceTerm [] = Ok (answer_with VNil)
  ∧ ask codeExecutionHandler [WMap [("cmd", WText "id"); ("blocking", WBool true)]] = Ok (answer_with (VStr "")).
Proof. split_and!; vm_compute; reflexivity. Qed.

(** The device is rebooted for an account the backend would refuse. *)
Definition reboot_for_stranger : Result := reboot_for by_system [] [WMap [("requestor_account_key", WU64 7)]].

Lemma positional_requestor_ignored_witness :
  (systemRebootHandler (wrapDetails reboot_for_stranger) denying_device no_transfers).1 = Ok empty_answer
  ∧ (∃ new, log (systemRebootHandler (wrapDetails reboot_for_stranger) denying_device no_transfers).2
       = (new ++ log no_transfers)%list ∧ Forall no_question new).
Proof.
  split; [vm_compute; reflexivity|].
  apply (positional_requestor_ignored denying_device "system_reboot" systemRebootHandler reboot_for_stranger no_transfers);
    [unfold getTopicHandlerMap; do 14 right; left|reflexivity|reflexivity|reflexivity].
Defined.

(** A handler that indexes its arguments panics on an empty list. *)
Example empty_arguments_panic :
  Forall (λ h : handler, (h (reboot_for by_system [] []) calm_device no_transfers).1 = Panic)
    [codeExecutionHandler; getAppLogHistoryHandler; pruneImageHandler; startTerminalSessHandler; stopTerminalSession;
     requestTerminalSessHandler; updateIPConfigHandler; writeToFileHandler].
Proof. repeat constructor. Qed.

(** An account that is no number leaves the call the system's own. *)
Example unparsable_requestor_is_system :
  (systemRebootHandler (wrapDetails (reboot_for by_system [("requestor_account_key", WText "acc-7")] [])) denying_device no_transfers).1
  = Ok empty_answer.
Proof. vm_compute. reflexivity. Qed.
