(* ===== verification/Startup.v ===== *)
(** * Connecting and synchronising (src/src/agent.go, src/src/store/app_store.go)

    On every connection the agent refreshes its identity, registers its endpoints, waits
    for docker, takes the requested states of the backend, removes what the backend no
    longer lists, corrects and observes what runs, and requests what should run. *)
From S2P Require Import Prelude Errdefs GoValue Common Records Effects HostPorts World Store.
From S2P Require Import TunnelRules Observer Observing StateMachine AppManager WampValues.
Open Scope go_scope.

(** ** The answer of the backend *)

Section decode.
Context `{GoRuntime} `{Host}.

(** Decoding an [int]: a whole number of 64 bits. *)
Definition json_int (v : goval) : option Z :=
  let fits z := if ((- 2 ^ 63 <=? z) && (z <? 2 ^ 63))%Z then Some z else None in
  match v with
  | VNil => Some 0%Z
  | VInt z => fits z
  | VFloat n d =>
      let t := float_trunc n d in
      if negb (float_integral n d) then None
      else if (Z.abs t <? Z.of_N exact_float)%Z then Some t
      else match json_big_uint t with Some b => fits (Z.of_N b) | None => None end
  | _ => None
  end.

(** Decoding a map or a slice of [interface{}]; [null] leaves it [nil]. *)
Definition json_map (v : goval) : option (option gomap) :=
  match v with
  | VMap m => Some (as_map (json_roundtrip (VMap m)))
  | VNil => Some None
  | _ => None
  end.
Definition json_slice (v : goval) : option (list goval) :=
  match v with VList l => Some (map json_roundtrip l) | VNil => Some [] | _ => None end.

(** The fields of a [DeviceSyncResponse] the agent reads. *)
Record DeviceSyncResponse := {
  ds_DeviceOwnerAccountKey : Z;
  ds_AppName : string;
  ds_ReleaseKey : Z;
  ds_NewReleaseKey : Z;
  ds_Environment : option gomap;
  ds_EnvironmentTemplate : option gomap;
  ds_DockerCompose : option gomap;
  ds_NewDockerCompose : option gomap;
  ds_Ports : list goval;
  ds_CurrentState : string;
  ds_Stage : string;
  ds_RequestUpdate : bool;
  ds_TargetState : string;
  ds_RequestorAccountKey : Z;
  ds_PresentVersion : string;
  ds_NewestVersion : string;
  ds_AppKey : N;
  ds_AppCredEpoch : N;
}.

(** The error of [json.Unmarshal] is dropped: a field of the wrong type keeps its zero
    value, and so does every field of an element that is not an object. *)
Definition decode_sync (entry : goval) : DeviceSyncResponse :=
  let m := default [] (as_map entry) in
  let get {A} (zero : A) (decode : goval → option A) (name : string) : A := default zero (decode (field name m)) in
  {| ds_DeviceOwnerAccountKey := get 0%Z json_int "device_owner_account_key";
     ds_AppName := get "" json_string "app_name";
     ds_ReleaseKey := get 0%Z json_int "release_key";
     ds_NewReleaseKey := get 0%Z json_int "new_release_key";
     ds_Environment := get None json_map "environment";
     ds_EnvironmentTemplate := get None json_map "environment_template";
     ds_DockerCompose := get None json_map "docker_compose";
     ds_NewDockerCompose := get None json_map "new_docker_compose";
     ds_Ports := get [] json_slice "ports";
     ds_CurrentState := get "" json_string "current_state";
     ds_Stage := get "" json_string "stage";
     ds_RequestUpdate := get false json_bool "request_update";
     ds_TargetState := get "" json_string "target_state";
     ds_RequestorAccountKey := get 0%Z json_int "requestor_account_key";
     ds_PresentVersion := get "" json_string "present_version";
     ds_NewestVersion := get "" json_string "newest_version";
     ds_AppKey := get 0%N json_uint "app_key";
     ds_AppCredEpoch := get 0%N json_uint "app_cred_epoch" |}.

(** An answer that is not an array decodes to no apps. *)
Definition decode_syncs (answer : goval) : list DeviceSyncResponse :=
  match answer with VList l => map decode_sync l | _ => [] end.

Definition payload_of_sync (d : DeviceSyncResponse) : TransitionPayload :=
  let p := BuildTransitionPayload imageArchName config (ds_AppKey d) (ds_AppName d)
             (int_as_uint64 (ds_RequestorAccountKey d)) (stage_of_string (ds_Stage d))
             (state_of_string (ds_CurrentState d)) (state_of_string (ds_TargetState d))
             (int_as_uint64 (ds_ReleaseKey d)) (int_as_uint64 (ds_NewReleaseKey d)) in
  {| tp_RequestedState := tp_RequestedState p; tp_CurrentState := tp_CurrentState p; tp_Stage := tp_Stage p;
     tp_RequestorAccountKey := tp_RequestorAccountKey p;
     tp_DeviceOwnerAccountKey := int_as_uint64 (ds_DeviceOwnerAccountKey d);
     tp_DeviceToAppKey := tp_DeviceToAppKey p; tp_AppKey := tp_AppKey p; tp_InstanceKey := tp_InstanceKey p;
     tp_AppCredEpoch := ds_AppCredEpoch d; tp_AppName := tp_AppName p; tp_ImageName := tp_ImageName p;
     tp_RegistryImageName := tp_RegistryImageName p; tp_ContainerName := tp_ContainerName p;
     tp_DockerCredentials := tp_DockerCredentials p; tp_EnvironmentVariables := ds_Environment d;
     tp_EnvironmentTemplate := ds_EnvironmentTemplate d; tp_DockerCompose := ds_DockerCompose d;
     tp_NewDockerCompose := ds_NewDockerCompose d; tp_Ports := ds_Ports d;
     tp_PublishContainerName := tp_PublishContainerName p; tp_RegisteryToken := tp_RegisteryToken p;
     tp_NewestVersion := ds_NewestVersion d; tp_PresentVersion := ds_PresentVersion d;
     tp_ReleaseKey := tp_ReleaseKey p; tp_NewReleaseKey := tp_NewReleaseKey p; tp_Version := ds_PresentVersion d;
     tp_RequestUpdate := ds_RequestUpdate d; tp_Retrying := tp_Retrying p; tp_CancelTransition := tp_CancelTransition p |}.

(** [result.Arguments[0]] of an empty answer panics. *)
Definition FetchRequestedAppStates : Agent (list TransitionPayload) :=
  let! arguments := callE (CallRequestedAppStates (cfg_DeviceKey config)) in
  match arguments with
  | Some (answer :: _) => ret (map payload_of_sync (decode_syncs answer))
  | _ => panic
  end.

Definition UpdateRequestedStatesWithRemote : Agent unit :=
  let! appStateChanges := FetchRequestedAppStates in
  BulkUpsertRequestedStateChanges appStateChanges.

Definition GetAppCredKey : Agent string :=
  let! arguments := callE CallAppCredKey in
  match arguments with
  | None | Some [] => throw (Plain "empty app_cred_key payload")
  | Some (VStr key :: _) => if String.eqb key "" then throw (Plain "invalid app_cred_key payload") else ret key
  | Some _ => throw (Plain "invalid app_cred_key payload")
  end.

(** ** Starting and connecting *)

(** The local states against the daemon: [fatal] ends the process on an error. *)
Definition initLocalAppStates (fatal : bool) : Agent unit :=
  let fail (m : Agent unit) : Agent unit := if fatal then m else ignore m in
  fail (CorrectAppStates false);;
  fail ObserveAppStates;;
  ignore CleanupOrphanedContainers;;
  fail EnsureLocalRequestedStates.

(** Steps 1 to 4: the backend's view replaces the device's. *)
Definition synchronise : Agent unit :=
  let! remotePayloads := try_ FetchRequestedAppStates in
  match remotePayloads with
  | inr _ => ret tt
  | inl remotePayloads =>
      ignore (CleanupOrphanedAppsFromDatabase remotePayloads);;
      ignore (UpdateLocalRequestedAppStatesWithRemote remotePayloads);;
      ignore CleanupOrphanedContainers
  end.

(** What the registrations of a new session need: endpoints, the terminals of a reconnect,
    the tunnel client of a first connection. *)
Definition offer_services (reconnect : bool) : Agent unit :=
  call RegisterEndpoints;;
  if reconnect then call ReregisterTerminals
  else call AcquireFrpc;; call GoSuperviseTunnels.

Definition refresh_cred_key : Agent unit :=
  let! key := try_ GetAppCredKey in
  match key with inl key => SetAppCredKey key | inr _ => ret tt end.

Definition OnConnect (reconnect : bool) : Agent unit :=
  let! (swarmChanged, _) := call RefreshDeviceMetadata in
  if swarmChanged : bool then call SessionReconnect
  else
    refresh_cred_key;;
    call (UpdateDeviceStatus "CONFIGURING");;
    offer_services reconnect;;
    call PublishMetadata;;
    call GoReviveLogs;;
    call AwaitDaemon;;
    synchronise;;
    ignore (CorrectAppStates true);;
    ignore ObserveAppStates;;
    ignore EnsureRemoteRequestedStates;;
    call AwaitRevivedLogs;;
    callE (UpdateDeviceStatus "CONNECTED").
End decode.
