(* ===== verification/StartupSpec.v ===== *)
(** * What a connection does to the device's apps *)
From S2P Require Import Prelude Errdefs GoValue Common Records Effects HostPorts World Store.
From S2P Require Import TunnelRules Observer Observing StateMachine AppManager WampValues Startup Examples.
Open Scope go_scope.

(** ** Steps that work on the tables *)

(** The two tables, and the apps in memory. *)
Definition tables (w : World) : list app_row * list requested_row := (AppStates w, RequestedAppStates w).

Section tables.
Context {GR : GoRuntime} {HO : Host}.
Variable en : agent_env.

(** Only this goroutine writes the tables while it cleans up, and the database works. *)
Record tables_served : Prop := {
  tables_private : ∀ lg w, tables (interfere en lg w) = tables w ∧ apps (interfere en lg w) = apps w;
  db_works : ∀ step lg, answer en _ (Db step) lg = inl tt;
}.
Hypothesis Hserved : tables_served.

#[local] Set Default Proof Using "Type*".

(** [m] returns a value related to the tables it finds and leaves them changed by [f];
    the list of apps in memory stays. *)
Definition yields {A} (m : Agent A) (Q : list app_row * list requested_row → A → Prop)
    (f : list app_row * list requested_row → list app_row * list requested_row) : Prop :=
  ∀ st, ∃ a st', m en st = (Ok a, st') ∧ Q (tables (world st)) a
    ∧ tables (world st') = f (tables (world st)) ∧ apps (world st') = apps (world st).

Definition runs (m : Agent unit) f : Prop := yields m (λ _ _, True) f.

Lemma yields_call {T} (c : AgentCall T) : yields (call c) (λ _ _, True) id.
Proof.
  intros st. eexists _, _. split; [reflexivity|]. split; [done|]. simpl. apply (tables_private Hserved).
Qed.

Lemma yields_bind {A B} (m : Agent A) (k : A → Agent B) Q Q' f g :
  yields m Q f → (∀ a tb, Q tb a → ∀ st, tables (world st) = f tb →
     ∃ b st', k a en st = (Ok b, st') ∧ Q' tb b ∧ tables (world st') = g (f tb) ∧ apps (world st') = apps (world st)) →
  yields (bind m k) Q' (λ tb, g (f tb)).
Proof.
  intros Hm Hk st. destruct (Hm st) as (a & st1 & E & Hq & Ht & Ha).
  destruct (Hk a (tables (world st)) Hq st1 Ht) as (b & st2 & E2 & Hq2 & Ht2 & Ha2).
  exists b, st2. rewrite (bind_ok en st st1 m k a E). split; [done|]. split; [done|]. split; [done|congruence].
Qed.

(** A sequence of steps that do not look at the tables. *)
Lemma runs_then {A} (m : Agent A) (k : A → Agent unit) f g :
  yields m (λ _ _, True) f → (∀ a, runs (k a) g) → runs (bind m k) (λ tb, g (f tb)).
Proof.
  intros Hm Hk. apply yields_bind with (Q := λ _ _, True); [done|]. intros a tb _ st Ht.
  destruct (Hk a st) as (b & st' & E & _ & H1 & H2). exists b, st'. by rewrite <- Ht.
Qed.

Lemma runs_ret : runs (ret tt) id.
Proof. intros st. by exists tt, st. Qed.

Lemma runs_ext m f g : (∀ tb, f tb = g tb) → runs m f → runs m g.
Proof. intros Hfg Hm st. destruct (Hm st) as (a & st' & E & _ & H1 & H2). exists a, st'. by rewrite <- Hfg. Qed.

Lemma runs_ignore (m : Agent unit) f : runs m f → runs (ignore m) f.
Proof.
  intros Hm st. destruct (Hm st) as (a & st' & E & _ & H1 & H2). exists tt, st'.
  split; [|done]. unfold ignore, bind, try_. by rewrite E.
Qed.

Lemma runs_db step : runs (db step) id.
Proof.
  intros st. exists tt, (call (Db step) en st).2. unfold db, db_or, bind, call. rewrite (db_works Hserved). cbn [snd].
  split; [done|]. split; [done|]. apply (tables_private Hserved).
Qed.

Lemma runs_for_each {A} (l : list A) (body : A → Agent unit) f :
  (∀ x, runs (body x) (f x)) → runs (for_each l body) (λ tb, foldl (λ tb x, f x tb) tb l).
Proof.
  intros Hb. induction l as [|x l IH]; simpl; [apply runs_ret|].
  apply (runs_then (body x) (λ _, for_each l body) (f x) (λ tb, foldl (λ tb x, f x tb) tb l)); [apply Hb|done].
Qed.

Lemma runs_best_effort c : runs (best_effort c) id.
Proof. apply (runs_then (call c) (λ _, ret tt) id id); [apply yields_call|]. intros _. apply runs_ret. Qed.

Lemma runs_modify_states g : runs (modify (λ w, set_AppStates (g (AppStates w)) w)) (λ tb, (g tb.1, tb.2)).
Proof. intros st. by eexists tt, _. Qed.
Lemma runs_modify_requested g : runs (modify (λ w, set_RequestedAppStates (g (RequestedAppStates w)) w)) (λ tb, (tb.1, g tb.2)).
Proof. intros st. by eexists tt, _. Qed.

Lemma runs_drop_by_name name : runs (drop_by_name name) id.
Proof.
  apply (runs_then (call (CtrGet name)) _ id id); [apply yields_call|].
  intros [cont|e]; [apply runs_best_effort|apply runs_ret].
Qed.

(** The rows without those of one app. *)
Definition without (a : App) (tb : list app_row * list requested_row) : list app_row * list requested_row :=
  (List.filter (λ r, negb (row_of_app (app_AppKey a) (app_Stage a) r)) tb.1,
   List.filter (λ r, negb (requested_of_app (app_AppKey a) (app_Stage a) r)) tb.2).

Lemma runs_delete_app k s :
  runs (ignore (DeleteAppState k s)) (λ tb, (List.filter (λ r, negb (row_of_app k s r)) tb.1, tb.2)).
Proof.
  apply runs_ignore. unfold DeleteAppState.
  apply (runs_then (db DbPrepare) _ id); [apply runs_db|intros _].
  apply (runs_then (db DbExec) _ id); [apply runs_db|intros _]. apply runs_modify_states.
Qed.

Lemma runs_delete_requested k s :
  runs (ignore (DeleteRequestedState k s)) (λ tb, (tb.1, List.filter (λ r, negb (requested_of_app k s r)) tb.2)).
Proof.
  apply runs_ignore. unfold DeleteRequestedState.
  apply (runs_then (db DbPrepare) _ id); [apply runs_db|intros _].
  apply (runs_then (db DbExec) _ id); [apply runs_db|intros _]. apply runs_modify_requested.
Qed.

Lemma runs_drop_app a : runs (drop_app a) (without a).
Proof.
  unfold drop_app.
  apply (runs_then _ _ id (without a)); [apply runs_drop_by_name|intros _].
  apply (runs_then _ _ id (without a)); [apply runs_drop_by_name|intros _].
  apply (runs_then _ _ id (without a)); [unfold when; case_bool_decide; [apply runs_best_effort|apply runs_ret]|intros _].
  eapply runs_ext; [|eapply runs_then; [apply runs_delete_app|intros _; apply runs_delete_requested]]. done.
Qed.

(** Reading the known apps. *)
Definition known_apps (tb : list app_row * list requested_row) : list App :=
  map (adopt_requested (map row_payload tb.2)) (map app_of_row tb.1).

Lemma yields_scan {A} (rows : list A) : runs (for_each rows (λ _, db DbScan)) id.
Proof.
  eapply runs_ext; [|apply (runs_for_each rows (λ _, db DbScan) (λ _, id)); intros _; apply runs_db].
  intros tb. simpl. by induction rows.
Qed.

Lemma yields_requested : yields GetRequestedStates (λ tb ps, ps = map row_payload tb.2) id.
Proof.
  intros st. unfold GetRequestedStates.
  destruct (runs_db DbQuery st) as ([] & st1 & E1 & _ & T1 & A1). rewrite (bind_ok en st st1 _ _ tt E1).
  rewrite (bind_ok en st1 st1 _ _ (RequestedAppStates (world st1)) eq_refl).
  destruct (yields_scan (RequestedAppStates (world st1)) st1) as ([] & st2 & E2 & _ & T2 & A2).
  rewrite (bind_ok en st1 st2 _ _ tt E2). eexists _, st2. split; [reflexivity|].
  unfold id in *. split; [|split; congruence]. by rewrite <- T1.
Qed.

Lemma yields_known : yields GetAppStates (λ tb l, l = known_apps tb) id.
Proof.
  intros st. unfold GetAppStates.
  destruct (runs_db DbQuery st) as ([] & st1 & E1 & _ & T1 & A1). rewrite (bind_ok en st st1 _ _ tt E1).
  rewrite (bind_ok en st1 st1 _ _ (AppStates (world st1)) eq_refl).
  destruct (yields_scan (AppStates (world st1)) st1) as ([] & st2 & E2 & _ & T2 & A2). rewrite (bind_ok en st1 st2 _ _ tt E2).
  destruct (runs_db DbClose st2) as ([] & st3 & E3 & _ & T3 & A3). rewrite (bind_ok en st2 st3 _ _ tt E3).
  destruct (yields_requested st3) as (ps & st4 & E4 & -> & T4 & A4). rewrite (bind_ok en st3 st4 _ _ _ E4).
  eexists _, st4. split; [reflexivity|]. unfold id in *. split; [|split; congruence].
  unfold known_apps. rewrite T3, T2, T1. by rewrite <- T1.
Qed.

(** ** Removing what the backend does not list *)

(** The backend lists an app: one of its payloads has the key and the stage. *)
Definition listed (ps : list TransitionPayload) (appKey : N) (stage : Stage) : bool :=
  existsb (λ p, (tp_AppKey p =? appKey)%N && String.eqb (stage_string (tp_Stage p)) (stage_string stage)) ps.

Lemma str_app_inj (s t t' : string) : s +:+ t = s +:+ t' → t = t'.
Proof. induction s as [|c s IH]; simpl; [done|]. intros E. injection E. exact IH. Qed.

(** The key the clean-up builds for an app stands for that app alone. *)
Lemma app_id_inj k k' s s' : app_id k s = app_id k' s' ↔ k = k' ∧ stage_string s = stage_string s'.
Proof.
  split; [|intros [-> E]; unfold app_id; by rewrite E]. unfold app_id. intros E.
  assert (∀ n t, split_on underscore (itoa n +:+ "_" +:+ t) = itoa n :: split_on underscore t) as Hs.
  { intros n t. apply split_on_app, itoa_lacks_underscore. }
  pose proof (f_equal (split_on underscore) E) as Es. rewrite !Hs in Es. injection Es as Ek _.
  apply itoa_inj in Ek as ->. split; [done|]. apply str_app_inj in E. apply (str_app_inj "_" _ _ E).
Qed.

Lemma listed_spec ps k s : bool_decide (app_id k s ∈ map (λ p, app_id (tp_AppKey p) (tp_Stage p)) ps) = listed ps k s.
Proof.
  apply eq_true_iff_eq. rewrite bool_decide_eq_true. unfold listed. rewrite existsb_exists.
  setoid_rewrite andb_true_iff. setoid_rewrite N.eqb_eq. setoid_rewrite String.eqb_eq.
  rewrite list_elem_of_In, in_map_iff. split; intros (p & H1 & H2).
  - apply app_id_inj in H1. by exists p.
  - exists p. split; [by apply app_id_inj|done].
Qed.

Definition clean (ps : list TransitionPayload) (tb : list app_row * list requested_row) : list app_row * list requested_row :=
  foldl (λ tb a, if listed ps (app_AppKey a) (app_Stage a) then tb else without a tb) tb (known_apps tb).

Lemma runs_cleanup ps st :
  ∃ st', CleanupOrphanedAppsFromDatabase ps en st = (Ok tt, st') ∧ tables (world st') = clean ps (tables (world st))
    ∧ apps (world st') = apps (world st).
Proof.
  unfold CleanupOrphanedAppsFromDatabase.
  destruct (yields_known st) as (l & st1 & E1 & -> & T1 & A1). rewrite (bind_ok en st st1 _ _ _ E1).
  destruct (runs_for_each (known_apps (tables (world st))) (λ a,
      when (negb (bool_decide (app_id (app_AppKey a) (app_Stage a) ∈ map (λ p, app_id (tp_AppKey p) (tp_Stage p)) ps))) (drop_app a))
      (λ a tb, if listed ps (app_AppKey a) (app_Stage a) then tb else without a tb)) with st1
    as ([] & st2 & E2 & _ & T2 & A2).
  { intros a. rewrite listed_spec. destruct (listed _ _ _); simpl; [apply runs_ret|apply runs_drop_app]. }
  exists st2. split; [exact E2|]. unfold id in *. split; [|congruence]. by rewrite T2, T1.
Qed.
End tables.

Lemma adopt_requested_id ps a :
  app_AppKey (adopt_requested ps a) = app_AppKey a ∧ app_Stage (adopt_requested ps a) = app_Stage a.
Proof.
  unfold adopt_requested. revert a. induction ps as [|p ps IH]; intros a; simpl; [done|].
  destruct (IH (if (app_AppKey a =? tp_AppKey p)%N && bool_decide (app_Stage a = tp_Stage p) then with_requested p a else a)) as [H1 H2].
  rewrite H1, H2. by destruct (_ && _).
Qed.

(** Dropping apps one after the other leaves the rows none of the dropped ones owns. *)
Lemma filter_filter {A} (f g : A → bool) l : List.filter f (List.filter g l) = List.filter (λ x, g x && f x) l.
Proof. induction l as [|x l IH]; simpl; [done|]. destruct (g x) eqn:E; simpl; rewrite IH; [|done]. done. Qed.

Lemma filter_all {A} (f : A → bool) l : (∀ x, f x = true) → List.filter f l = l.
Proof. intros Hf. induction l as [|x l IH]; simpl; [done|]. by rewrite Hf, IH. Qed.

Lemma drops_rows ps l tb :
  foldl (λ tb a, if listed ps (app_AppKey a) (app_Stage a) then tb else without a tb) tb l
  = (List.filter (λ r, forallb (λ a, listed ps (app_AppKey a) (app_Stage a) || negb (row_of_app (app_AppKey a) (app_Stage a) r)) l) tb.1,
     List.filter (λ r, forallb (λ a, listed ps (app_AppKey a) (app_Stage a) || negb (requested_of_app (app_AppKey a) (app_Stage a) r)) l) tb.2).
Proof.
  revert tb. induction l as [|a l IH]; intros tb; simpl; [by rewrite !filter_all; destruct tb|].
  rewrite IH. destruct (listed ps (app_AppKey a) (app_Stage a)); simpl; [done|]. by rewrite !filter_filter.
Qed.

Lemma row_of_app_key k s r : row_of_app k s r = true → k = ar_app_key r ∧ s = ar_stage r.
Proof. unfold row_of_app. intros [Hk Hs]%andb_prop. apply N.eqb_eq in Hk. apply bool_decide_eq_true in Hs. done. Qed.

Lemma requested_of_app_key k s r : requested_of_app k s r = true → k = rr_app_key r ∧ s = rr_stage r.
Proof. unfold requested_of_app. intros [Hk Hs]%andb_prop. apply N.eqb_eq in Hk. apply bool_decide_eq_true in Hs. done. Qed.

Lemma forallb_known {HO : Host} {A} (listed_ : N → Stage → bool) (owns : N → Stage → A → bool) tb x :
  forallb (λ a, listed_ (app_AppKey a) (app_Stage a) || negb (owns (app_AppKey a) (app_Stage a) x)) (known_apps tb)
  = forallb (λ r, listed_ (ar_app_key r) (ar_stage r) || negb (owns (ar_app_key r) (ar_stage r) x)) tb.1.
Proof.
  unfold known_apps. generalize (map row_payload tb.2) as ps. intros ps. induction tb.1 as [|r rows IH]; simpl; [done|].
  destruct (adopt_requested_id ps (app_of_row r)) as [H1 H2]. rewrite H1, H2. by rewrite IH.
Qed.

Lemma forallb_owned {A} (listed_ : N → Stage → bool) (owns : N → Stage → A → bool) k s x (rows : list app_row) :
  (∀ k' s', owns k' s' x = true ↔ k' = k ∧ s' = s) →
  forallb (λ r, listed_ (ar_app_key r) (ar_stage r) || negb (owns (ar_app_key r) (ar_stage r) x)) rows
  = listed_ k s || negb (existsb (row_of_app k s) rows).
Proof.
  intros Ho. induction rows as [|r rows IH]; simpl; [by destruct (listed_ k s)|]. rewrite IH.
  assert (owns (ar_app_key r) (ar_stage r) x = row_of_app k s r) as ->.
  { apply eq_true_iff_eq. rewrite Ho. unfold row_of_app. rewrite andb_true_iff, N.eqb_eq, bool_decide_eq_true. done. }
  destruct (row_of_app k s r) eqn:E; simpl; [|by rewrite orb_true_r].
  apply row_of_app_key in E as [<- <-]. rewrite orb_false_r. by destruct (listed_ k s).
Qed.

(** What the tables hold after the clean-up. *)
Lemma clean_spec {HO : Host} ps tb : clean ps tb =
  (List.filter (λ r, listed ps (ar_app_key r) (ar_stage r)) tb.1,
   List.filter (λ r, listed ps (rr_app_key r) (rr_stage r) || negb (existsb (row_of_app (rr_app_key r) (rr_stage r)) tb.1)) tb.2).
Proof.
  unfold clean. rewrite drops_rows. f_equal.
  - apply List.filter_ext_in. intros r Hr. rewrite (forallb_known (listed ps) row_of_app tb r).
    rewrite (forallb_owned (listed ps) row_of_app (ar_app_key r) (ar_stage r) r tb.1).
    + assert (existsb (row_of_app (ar_app_key r) (ar_stage r)) tb.1 = true) as ->; [|by rewrite orb_false_r].
      apply existsb_exists. exists r. split; [done|]. unfold row_of_app. by rewrite N.eqb_refl, bool_decide_true.
    + intros k' s'. unfold row_of_app. rewrite andb_true_iff, N.eqb_eq, bool_decide_eq_true. split; intros [? ?]; by split.
  - apply List.filter_ext_in. intros r Hr. rewrite (forallb_known (listed ps) requested_of_app tb r).
    apply (forallb_owned (listed ps) requested_of_app (rr_app_key r) (rr_stage r) r tb.1).
    intros k' s'. unfold requested_of_app. rewrite andb_true_iff, N.eqb_eq, bool_decide_eq_true. split; intros [? ?]; by split.
Qed.


Section synchronise.
Context {GR : GoRuntime} {HO : Host}.
Variable en : agent_env.
Hypothesis Hserved : tables_served en.

#[local] Set Default Proof Using "Type*".

Lemma runs_cleanup_containers : runs en (ignore CleanupOrphanedContainers) id.
Proof.
  intros st. destruct (yields_call en Hserved CtrList st) as (r & st1 & E1 & _ & T1 & A1).
  unfold CleanupOrphanedContainers. destruct r as [cs|e].
  - assert (runs en (let! known := GetAppStates in
      for_each cs (λ c, when (is_orphan known c) (best_effort (CtrRemove (ct_ID c))))) id) as Hrest.
    { intros st2. destruct (yields_known en Hserved st2) as (l & st3 & E3 & _ & T3 & A3).
      destruct (runs_for_each en Hserved cs (λ c, when (is_orphan l c) (best_effort (CtrRemove (ct_ID c)))) (λ _, id)) with st3
        as ([] & st4 & E4 & _ & T4 & A4).
      { intros c. unfold when. destruct (is_orphan l c); [apply (runs_best_effort en Hserved)|apply (runs_ret en Hserved)]. }
      exists tt, st4. rewrite (bind_ok en st2 st3 _ _ l E3). split; [exact E4|]. split; [done|]. unfold id in *.
      split; [|congruence]. rewrite T4, <- T3. generalize (tables (world st3)) as tb. clear. induction cs as [|c cs IH]; intros tb; [done|apply IH]. }
    destruct (runs_ignore en Hserved _ _ Hrest st1) as ([] & st2 & E2 & _ & T2 & A2).
    exists tt, st2. split; [|unfold id in *; split_and!; first [done|congruence]].
    unfold ignore, try_, bind, callE in *. unfold bind, lift. rewrite E1. exact E2.
  - exists tt, st1. split; [|done]. unfold ignore, try_, bind, callE. unfold bind, lift. by rewrite E1.
Qed.

End synchronise.

(** a malformed answer empties the device: the error of decoding it is dropped, so an answer
    that is no list, an error text or [null], counts as a list without apps, and the
    clean-up removes every local app; a failed call, by contrast, leaves the tables as
    they are. *)
Theorem broken_answer_empties_device {GR : GoRuntime} {HO : Host} en st answer_ rest : tables_served en →
  answer en _ (CallRequestedAppStates (cfg_DeviceKey config)) (log st) = inl (Some (answer_ :: rest)) →
  as_list answer_ = None →
  ∃ st', synchronise en st = (Ok tt, st') ∧ AppStates (world st') = []
    ∧ ∀ r, r ∈ RequestedAppStates (world st') → existsb (row_of_app (rr_app_key r) (rr_stage r)) (AppStates (world st)) = false.
Proof.
  intros Hserved Ha Hl.
  destruct (yields_call en Hserved (CallRequestedAppStates (cfg_DeviceKey config)) st) as (r & st1 & E1 & _ & T1 & A1).
  assert (r = inl (Some (answer_ :: rest))) as -> by (unfold call in E1; rewrite Ha in E1; congruence).
  unfold synchronise.
  assert (try_ FetchRequestedAppStates en st = (Ok (inl []), st1)) as Ef.
  { unfold try_, FetchRequestedAppStates, callE, bind, lift. rewrite E1. unfold ret. by destruct answer_. }
  rewrite (bind_ok en st st1 _ _ _ Ef).
  destruct (runs_cleanup en Hserved [] st1) as (st2 & E2 & T2 & _).
  rewrite clean_spec in T2. injection T2 as S2 R2. cbn [tables fst snd] in S2, R2.
  assert (ignore (CleanupOrphanedAppsFromDatabase []) en st1 = (Ok tt, st2)) as Ei by (unfold ignore, bind, try_; by rewrite E2).
  rewrite (bind_ok en st1 st2 _ _ tt Ei).
  rewrite (bind_ok en st2 st2 (ignore (UpdateLocalRequestedAppStatesWithRemote [])) _ tt eq_refl).
  destruct (runs_cleanup_containers en Hserved st2) as ([] & st3 & E3 & _ & T3 & _).
  unfold tables, id in *. injection T1 as S1 R1. injection T3 as S3 R3.
  assert (∀ k s, listed [] k s = false) as Hn by done.
  exists st3. split; [exact E3|]. rewrite S3, R3, S2, R2. split.
  - clear. induction (AppStates (world st1)) as [|r rows IH]; simpl; [done|]. by rewrite Hn || exact IH.
  - intros r Hr. apply list_elem_of_In, List.filter_In in Hr as [_ Hr]. simpl in Hr.
    rewrite <- S1. by apply negb_true_iff.
Qed.

(** ** The course of a connection *)

Lemma bind_err_inv {A B} en (m : Agent A) (k : A → Agent B) e st st' :
  errorless en m → bind m k en st = (Err e, st') → ∃ a st1, m en st = (Ok a, st1) ∧ k a en st1 = (Err e, st').
Proof.
  intros Hm Hb. unfold bind in Hb. destruct (m en st) as [[a|e'| |] st1] eqn:E; [by exists a, st1| |done|done].
  by destruct (Hm st e' st1).
Qed.

Lemma errorless_ignore {A} en (m : Agent A) : errorless en (ignore m).
Proof. unfold ignore. apply errorless_bind; [apply errorless_try|intros ?; apply errorless_ret]. Qed.

Lemma errorless_synchronise {GR : GoRuntime} {HO : Host} en : errorless en synchronise.
Proof.
  unfold synchronise. apply errorless_bind; [apply errorless_try|]. intros [ps|e]; [|apply errorless_ret].
  repeat (apply errorless_bind; [apply errorless_ignore|intros ?]). apply errorless_ignore.
Qed.

Lemma errorless_offer {GR : GoRuntime} {HO : Host} en b : errorless en (offer_services b).
Proof.
  unfold offer_services. apply errorless_bind; [apply errorless_call|intros _].
  destruct b; [apply errorless_call|]. apply errorless_bind; [apply errorless_call|intros _; apply errorless_call].
Qed.

Lemma errorless_cred_key {GR : GoRuntime} {HO : Host} en : errorless en refresh_cred_key.
Proof.
  unfold refresh_cred_key. apply errorless_bind; [apply errorless_try|].
  intros [key|e]; [|apply errorless_ret]. unfold SetAppCredKey. destruct (String.eqb key ""); [apply errorless_ret|apply errorless_modify].
Qed.

(** a connection is survived: a device that was moved to another project does nothing on
    the stale session but reconnect; otherwise whatever fails on the way, identity,
    endpoints, synchronisation, correction, is passed over, and the only error that is
    returned, and that ends the process, is the one of the last status update. *)
Theorem OnConnect_survives {GR : GoRuntime} {HO : Host} en reconnect st :
  match answer en _ RefreshDeviceMetadata (log st) with
  | (true, _) =>
      ∃ st', OnConnect reconnect en st = (Ok tt, st') ∧
        ∃ s1 s2 r1 r2, log st' = Ev SessionReconnect r2 s2 :: Ev RefreshDeviceMetadata r1 s1 :: log st
  | (false, _) =>
      ∀ e st', OnConnect reconnect en st = (Err e, st') →
        ∃ s lg, log st' = Ev (UpdateDeviceStatus "CONNECTED") (inr e) s :: lg
  end.
Proof.
  unfold OnConnect. set (m := RefreshDeviceMetadata).
  destruct (answer en _ m (log st)) as [[] err] eqn:Ea.
  - rewrite (bind_ok en st (call m en st).2 _ _ (true, err)) by (unfold call; by rewrite Ea).
    exists (call SessionReconnect en (call m en st).2).2. split; [|by eexists _, _, _, _].
    unfold call at 1 3. cbn [snd]. by destruct (answer en unit SessionReconnect _).
  - intros e st' Hr. rewrite (bind_ok en st (call m en st).2 _ _ (false, err)) in Hr by (unfold call; by rewrite Ea).
    cbv iota beta in Hr.
    apply bind_err_inv in Hr as (? & ? & _ & Hr); [|apply errorless_cred_key].
    apply bind_err_inv in Hr as (? & ? & _ & Hr); [|apply errorless_call].
    apply bind_err_inv in Hr as (? & ? & _ & Hr); [|apply errorless_offer].
    do 3 (apply bind_err_inv in Hr as (? & ? & _ & Hr); [|apply errorless_call]).
    apply bind_err_inv in Hr as (? & ? & _ & Hr); [|apply errorless_synchronise].
    do 3 (apply bind_err_inv in Hr as (? & ? & _ & Hr); [|apply errorless_ignore]).
    apply bind_err_inv in Hr as (? & st1 & _ & Hr); [|apply errorless_call].
    unfold callE in Hr. apply bind_err_inv in Hr as (r & st2 & Ec & Hr); [|apply errorless_call].
    destruct r as [|e']; [done|]. unfold lift, throw in Hr. injection Hr as -> <-.
    unfold call in Ec. injection Ec as Hans <-. rewrite Hans. by eexists _, _.
Qed.

(** ** Examples *)

Definition running_device : agent_state := ex_state (ex_world RUNNING RUNNING).

(** The backend answers the synchronisation with an error text, and refuses the last
    status. *)
Definition broken_backend : override := λ T c _,
  match c in AgentCall T return option T with
  | CallRequestedAppStates _ => Some (inl (Some [VStr "internal error"]))
  | UpdateDeviceStatus "CONNECTED" => Some (inr (Plain "wamp.error.timeout"))
  | _ => None
  end.

Lemma calm_tables (ov : override) : (∀ step lg, ov _ (Db step) lg = None) → tables_served (ex_env ov).
Proof. intros Hov. split; [done|]. intros step lg. simpl. by rewrite Hov. Qed.

Definition ex_listed : TransitionPayload := ex_payload RUNNING RUNNING.


Lemma broken_answer_empties_device_witness :
  AppStates (world running_device) = [ex_app_row RUNNING]
  ∧ ∃ st', synchronise (ex_env broken_backend) running_device = (Ok tt, st') ∧ AppStates (world st') = [].
Proof.
  split; [reflexivity|].
  destruct (broken_answer_empties_device (ex_env broken_backend) running_device (VStr "internal error") []
    (calm_tables broken_backend ltac:(done)) eq_refl eq_refl) as (st' & E & S & _).
  exists st'. split; [exact E|exact S].
Defined.

Lemma OnConnect_survives_witness :
  ∃ st', OnConnect true (ex_env broken_backend) running_device = (Err (Plain "wamp.error.timeout"), st')
    ∧ ∃ s lg, log st' = Ev (UpdateDeviceStatus "CONNECTED") (inr (Plain "wamp.error.timeout")) s :: lg.
Proof.
  pose proof (OnConnect_survives (ex_env broken_backend) true running_device) as H.
  change (answer (ex_env broken_backend) _ RefreshDeviceMetadata (log running_device)) with (false, @None error) in H.
  destruct (OnConnect true (ex_env broken_backend) running_device) as [o st'] eqn:E.
  assert (o = Err (Plain "wamp.error.timeout")) as ->.
  { change o with (o, st').1. rewrite <- E. vm_compute. reflexivity. }
  exists st'. split; [reflexivity|]. exact (H _ _ eq_refl).
Defined.
