(* ===== verification/SelfUpdate.v ===== *)
(** * Updating the agent's own binary (src/src/selfupdate/selfupdate.go)

    An update is swapped into the path of the service by two renames, with a marker file
    that says how far it came; a new binary is on probation until it stayed up long
    enough, and one that keeps dying is rolled back and blocked. *)
From S2P Require Import Prelude Errdefs Effects.
Open Scope go_scope.

(** ** Files *)

Inductive phase := Swapping | Probation | RolledBack | OtherPhase (s : string).

#[export] Instance phase_eq_dec : EqDecision phase.
Proof. solve_decision. Defined.

(** The marker, [update-state.json]. *)
Record marker := {
  mk_Phase : phase;
  mk_NewVersion : string;
  mk_OldVersion : string;
  mk_Attempts : Z;
  mk_UpdatedAt : string;
}.

(** What a file of the agent's directory holds: a program, a marker, or what does not
    decode as one. *)
Inductive file :=
  | Exe (program : string)
  | MarkerFile (s : marker)
  | Garbage.

Record Dir := { files : gmap string file }.

Definition put_files (v : gmap string file) (d : Dir) : Dir := {| files := v |}.

(** The operations of the system: each may fail for its own reasons. *)
Inductive UpdCall : Type → Type :=
  | ReadFile (name : string) : UpdCall (unit + error)
  | WriteTemp (name : string) : UpdCall (unit + error)
  | RenameFile (old new : string) : UpdCall (unit + error)
  | RemoveFile (name : string) : UpdCall (unit + error)
  | StatFile (name : string) : UpdCall (N + error)
  | CurrentExe : UpdCall (string + error)
  | ExecVersion (name : string) : UpdCall (string + error)
  | VerifySignature (name : string) : UpdCall (unit + error)
  | RetryDelay : UpdCall unit
  | NowText : UpdCall string
  (* around the update: the service and its supervisor *)
  | FlushDelay : UpdCall unit
  | RequestRestart (reason : string) : UpdCall (unit + error).

Abbreviation Upd := (M UpdCall Dir).
Abbreviation upd_env := (env UpdCall Dir).
Abbreviation upd_state := (state UpdCall Dir).

Definition not_exist : error := Plain "file does not exist".

(** Reading, moving and removing need the file to be there. *)
Definition os_read (name : string) : Upd (file + error) :=
  let! f := gets (λ d, files d !! name) in
  match f with
  | None => ret (inr not_exist)
  | Some f =>
      let! r := call (ReadFile name) in
      ret (match r with inl _ => inl f | inr e => inr e end)
  end.

Definition os_rename (old new : string) : Upd (unit + error) :=
  let! f := gets (λ d, files d !! old) in
  match f with
  | None => ret (inr not_exist)
  | Some f =>
      let! r := call (RenameFile old new) in
      match r with
      | inl _ => modify (λ d, put_files (<[new := f]> (delete old (files d))) d);; ret (inl tt)
      | inr e => ret (inr e)
      end
  end.

Definition os_remove (name : string) : Upd (unit + error) :=
  let! f := gets (λ d, files d !! name) in
  match f with
  | None => ret (inr not_exist)
  | Some _ =>
      let! r := call (RemoveFile name) in
      match r with
      | inl _ => modify (λ d, put_files (delete name (files d)) d);; ret (inl tt)
      | inr e => ret (inr e)
      end
  end.

Definition os_stat (name : string) : Upd (N + error) :=
  let! f := gets (λ d, files d !! name) in
  match f with
  | None => ret (inr not_exist)
  | Some _ => call (StatFile name)
  end.

(** ** Names *)

Definition activeName : string := "reagent.exe".
Definition prevName : string := "reagent-prev.exe".
Definition markerName : string := "update-state.json".
Definition versionedName (version : string) : string := "reagent-v" +:+ version +:+ ".exe".
Definition failedName (version : string) : string := "reagent-failed-v" +:+ version +:+ ".exe".

Definition maxProbationAttempts : Z := 3.
Definition renameRetries : nat := 5.

(** ** The marker *)

(** What the updater takes from its surroundings: whether two paths are the same, the path
    of the active binary, and the cutover switch of the signatures. *)
Class UpdateHost := {
  same_path : string → string → bool;
  active_path : string;
  enforceSignature : bool;
}.

(** Try at least once; the last error is returned. *)
Fixpoint rename_attempts (n : nat) (old new : string) (last : unit + error) : Upd (unit + error) :=
  match n with
  | O => ret last
  | S n =>
      let! r := os_rename old new in
      match r with
      | inl _ => ret (inl tt)
      | inr e => call RetryDelay;; rename_attempts n old new (inr e)
      end
  end.

Definition retryRename (old new : string) : Upd (unit + error) := rename_attempts renameRetries old new (inl tt).

(** A missing marker and one that cannot be decoded both count as none. *)
Definition readMarker : Upd (option marker) :=
  let! f := os_read markerName in
  match f with
  | inr e => if decide (e = not_exist) then ret None else throw e
  | inl (MarkerFile s) => ret (Some s)
  | inl _ => ret None
  end.

Definition stamped (now : string) (s : marker) : marker :=
  {| mk_Phase := mk_Phase s; mk_NewVersion := mk_NewVersion s; mk_OldVersion := mk_OldVersion s;
     mk_Attempts := mk_Attempts s; mk_UpdatedAt := now |}.

Definition tempName : string := markerName +:+ ".tmp".

Definition writeMarker (s : marker) : Upd (unit + error) :=
  let! now := call NowText in
  let! r := call (WriteTemp tempName) in
  match r with
  | inr e => ret (inr e)
  | inl _ =>
      modify (λ d, put_files (<[tempName := MarkerFile (stamped now s)]> (files d)) d);;
      os_rename tempName markerName
  end.

Definition clearMarker : Upd unit := os_remove markerName;; ret tt.

Definition IsVersionBlocked (version : string) : Upd bool :=
  let! s := try_ readMarker in
  ret (match s with
       | inl (Some s) => bool_decide (mk_Phase s = RolledBack) && String.eqb (mk_NewVersion s) version
       | _ => false
       end).

(** ** Activating an update *)

Definition ErrVersionBlocked : error := Plain "this version previously failed on this device and is blocked".

Definition new_marker (p : phase) (newVersion currentVersion : string) : marker :=
  {| mk_Phase := p; mk_NewVersion := newVersion; mk_OldVersion := currentVersion; mk_Attempts := 0; mk_UpdatedAt := "" |}.

Definition wrapped (what : string) (e : error) : error := Annotated what e.

(** A blocked version is refused; another one clears the block. *)
Definition check_blocked (newVersion : string) : Upd unit :=
  let! m := readMarker in
  match m with
  | Some s =>
      if decide (mk_Phase s = RolledBack) then
        if String.eqb (mk_NewVersion s) newVersion then throw ErrVersionBlocked else clearMarker
      else ret tt
  | None => ret tt
  end.

Section activate.
Context `{UpdateHost}.

(** The process must run from the service's path; the download must be there, run and
    report its version, and be signed once signatures are enforced. *)
Definition check_download (newVersion : string) : Upd unit :=
  let! runningExe := callE CurrentExe in
  if negb (same_path runningExe active_path) then throw (Plain ("refusing to self-update from " +:+ runningExe))
  else
    let newExe := versionedName newVersion in
    let! size := os_stat newExe in
    match size with
    | inr e => throw (wrapped "downloaded update not found" e)
    | inl size =>
        if (size =? 0)%N then throw (Plain "downloaded update is empty")
        else
          let! reported := call (ExecVersion newExe) in
          match reported with
          | inr e => throw (wrapped "downloaded update failed to execute" e)
          | inl reportedVersion =>
              if negb (String.eqb reportedVersion newVersion) then throw (Plain "downloaded update reports another version")
              else
                let! sig := call (VerifySignature newExe) in
                match sig with
                | inr e => if enforceSignature then throw (wrapped "refusing to activate an improperly signed update" e) else ret tt
                | inl _ => ret tt
                end
          end
    end.

(** The two renames; a failed second one is taken back. *)
Definition swap (newVersion currentVersion : string) : Upd unit :=
  let! r := retryRename activeName prevName in
  match r with
  | inr e => clearMarker;; throw (wrapped "failed to move the running binary aside" e)
  | inl _ =>
      let! r := retryRename (versionedName newVersion) activeName in
      match r with
      | inl _ => writeMarker (new_marker Probation newVersion currentVersion);; ret tt
      | inr e =>
          let! compErr := retryRename prevName activeName in
          match compErr with
          | inr compErr => throw (wrapped "swap failed and rollback failed" e)
          | inl _ => clearMarker;; throw (wrapped "failed to move the update into place" e)
          end
      end
  end.

Definition Activate (newVersion currentVersion : string) : Upd unit :=
  check_blocked newVersion;;
  check_download newVersion;;
  let! r := os_remove prevName in
  match r with
  | inr e =>
      if decide (e = not_exist) then ret tt else throw (wrapped "failed to remove stale previous binary" e)
  | inl _ => ret tt
  end;;
  let! r := writeMarker (new_marker Swapping newVersion currentVersion) in
  lift r;;
  swap newVersion currentVersion.
End activate.

(** ** Starting the service *)

Definition attempt (s : marker) : marker :=
  {| mk_Phase := mk_Phase s; mk_NewVersion := mk_NewVersion s; mk_OldVersion := mk_OldVersion s;
     mk_Attempts := (mk_Attempts s + 1)%Z; mk_UpdatedAt := mk_UpdatedAt s |}.

(** The new version died too often: quarantine it and restore the previous one.  [true]
    asks for a restart. *)
Definition roll_back (s : marker) : Upd bool :=
  let! r := retryRename activeName (failedName (mk_NewVersion s)) in
  match r with
  | inr _ => writeMarker s;; ret false
  | inl _ =>
      let! r := retryRename prevName activeName in
      match r with
      | inr _ => ret true
      | inl _ => writeMarker (new_marker RolledBack (mk_NewVersion s) (mk_OldVersion s));; ret true
      end
  end.

Definition probation (s : marker) (runningVersion : string) : Upd bool :=
  if String.eqb runningVersion (mk_NewVersion s) then
    let s := attempt s in
    if (mk_Attempts s <=? maxProbationAttempts)%Z then writeMarker s;; ret false else roll_back s
  else if String.eqb runningVersion (mk_OldVersion s) then
    writeMarker (new_marker RolledBack (mk_NewVersion s) (mk_OldVersion s));; ret false
  else clearMarker;; ret false.

(** Whether a roll-back was performed. *)
Definition OnServiceStart (runningVersion : string) : Upd bool :=
  let! s := try_ readMarker in
  match s with
  | inr _ | inl None => ret false
  | inl (Some s) =>
      match mk_Phase s with
      | Swapping => clearMarker;; ret false
      | Probation => probation s runningVersion
      | RolledBack => ret false
      | OtherPhase _ => clearMarker;; ret false
      end
  end.

Definition MarkHealthy : Upd unit :=
  let! s := try_ readMarker in
  match s with
  | inl (Some s) => when (bool_decide (mk_Phase s = Probation)) clearMarker
  | _ => ret tt
  end.

(** ** The repair at boot (servicecmd.go) *)

(** A missing binary is replaced by the previous one, or else by the newest download of
    the list. *)
Definition repair (downloads : list string) : Upd unit :=
  let! active := gets (λ d, files d !! activeName) in
  let! prev := gets (λ d, files d !! prevName) in
  match active, prev, downloads with
  | Some _, _, _ => ret tt
  | None, Some _, _ => os_rename prevName activeName;; ret tt
  | None, None, newest :: _ => os_rename newest activeName;; ret tt
  | None, None, [] => ret tt
  end.

(** ** Activation after a download (system/activate_windows.go) *)

Definition activate_downloaded `{UpdateHost} (supervised : bool) (latestVersion currentVersion : string) : Upd unit :=
  if negb supervised then ret tt
  else
    let! blocked := IsVersionBlocked latestVersion in
    if blocked then ret tt
    else
      call FlushDelay;;
      let! r := try_ (Activate latestVersion currentVersion) in
      match r with
      | inr _ => ret tt
      | inl _ => call (RequestRestart ("agent update v" +:+ latestVersion));; ret tt
      end.
