(* ===== verification/SelfUpdateSpec.v ===== *)
(** * An update never leaves the device without a binary *)
From S2P Require Import Prelude Errdefs Effects SelfUpdate.
Open Scope go_scope.

(** ** Names are told apart *)

Lemma versioned_active v : versionedName v ≠ activeName. Proof. done. Qed.
Lemma versioned_prev v : versionedName v ≠ prevName. Proof. done. Qed.
Lemma versioned_marker v : versionedName v ≠ markerName. Proof. done. Qed.
Lemma versioned_temp v : versionedName v ≠ tempName. Proof. done. Qed.
Lemma failed_active v : failedName v ≠ activeName. Proof. done. Qed.
Lemma failed_prev v : failedName v ≠ prevName. Proof. done. Qed.
Lemma failed_marker v : failedName v ≠ markerName. Proof. done. Qed.
Lemma failed_temp v : failedName v ≠ tempName. Proof. done. Qed.

Create HintDb names discriminated.
#[export] Hint Resolve versioned_active versioned_prev versioned_marker versioned_temp
  failed_active failed_prev failed_marker failed_temp : names.

(** ** Specifications that also watch the moments in between *)

Definition event_files (e : event UpdCall Dir) : gmap string file := match e with Ev _ _ d => files d end.

Section watched.
Variable en : upd_env.

(** Nobody else moves these files. *)
Definition files_private : Prop := ∀ lg d, interfere en lg d = d.
(** What must hold whenever the process may die: before every operation. *)
Variable R : gmap string file → Prop.

Definition watched (st : upd_state) : Prop := Forall (λ e, R (event_files e)) (log st).

(** From files in [A], [m] returns with [Q], or fails with [E], and every moment is in [R]. *)
Definition spec {B} (A : gmap string file → Prop) (m : Upd B) (Q : B → gmap string file → Prop)
    (E : gmap string file → Prop) : Prop :=
  ∀ st, A (files (world st)) → watched st →
    let '(o, st') := m en st in
    watched st' ∧ match o with Ok b => Q b (files (world st')) | Err _ => E (files (world st')) | _ => False end.

Lemma spec_ret {B} A (b : B) Q E : (∀ fs, A fs → Q b fs) → spec A (ret b) Q E.
Proof. intros HQ st HA Hw. by split; [|apply HQ]. Qed.
Lemma spec_throw {B} A e Q (E : gmap string file → Prop) : (∀ fs, A fs → E fs) → spec A (@throw _ _ B e) Q E.
Proof. intros HE st HA Hw. by split; [|apply HE]. Qed.

Lemma spec_bind {B C} A (m : Upd B) (k : B → Upd C) Q1 Q E :
  spec A m Q1 E → (∀ b, spec (Q1 b) (k b) Q E) → spec A (bind m k) Q E.
Proof.
  intros Hm Hk st HA Hw. specialize (Hm st HA Hw). unfold bind.
  destruct (m en st) as [[b|e| |] st']; destruct Hm as [Hw' Hq]; [by apply Hk|by split|done|done].
Qed.

Lemma spec_gets {B C} A (g : gmap string file → B) (k : B → Upd C) Q E :
  (∀ b, spec (λ fs, A fs ∧ b = g fs) (k b) Q E) → spec A (bind (gets (λ d, g (files d))) k) Q E.
Proof. intros Hk st HA Hw. by apply (Hk (g (files (world st)))). Qed.

Lemma spec_modify {C} A g (k : Upd C) A' Q E :
  (∀ fs, A fs → A' (g fs)) → spec A' k Q E → spec A (bind (modify (λ d, put_files (g (files d)) d)) (λ _, k)) Q E.
Proof. intros Hg Hk st HA Hw. apply (Hk (mk_state (put_files (g (files (world st))) (world st)) (log st))); [by apply Hg|done]. Qed.

Lemma spec_weaken {B} A A' (m : Upd B) Q Q' (E E' : gmap string file → Prop) :
  spec A' m Q' E' → (∀ fs, A fs → A' fs) → (∀ b fs, Q' b fs → Q b fs) → (∀ fs, E' fs → E fs) → spec A m Q E.
Proof.
  intros Hm HA HQ HE st Ha Hw. specialize (Hm st (HA _ Ha) Hw).
  destruct (m en st) as [[b|e| |] st']; destruct Hm as [? ?]; split; auto.
Qed.

Lemma spec_try {B} A (m : Upd B) Q E E' :
  spec A m (λ b, Q (inl b)) E → (∀ e fs, E fs → Q (inr e) fs) → spec A (try_ m) Q E'.
Proof.
  intros Hm HE st HA Hw. specialize (Hm st HA Hw). unfold try_.
  destruct (m en st) as [[b|e| |] st']; destruct Hm as [? ?]; split; auto.
Qed.

(** ** The operations *)

Hypothesis Hpriv : files_private.
#[local] Set Default Proof Using "Type*".

Lemma spec_call {T} (A : gmap string file → Prop) (c : UpdCall T) E : (∀ fs, A fs → R fs) → spec A (call c) (λ _, A) E.
Proof.
  intros HR st HA Hw. unfold call. cbn [world log]. rewrite Hpriv. split; [|done]. by constructor; [apply HR|].
Qed.

Lemma spec_call_then {T C} (A : gmap string file → Prop) (c : UpdCall T) (k : T → Upd C) Q E :
  (∀ fs, A fs → R fs) → (∀ r, spec A (k r) Q E) → spec A (bind (call c) k) Q E.
Proof. intros HR Hk. apply spec_bind with (λ _, A); [by apply spec_call|done]. Qed.

Lemma spec_rename A a b (Q : unit + error → gmap string file → Prop) E :
  (∀ fs, A fs → R fs) →
  (∀ fs f, A fs → fs !! a = Some f → Q (inl tt) (<[b := f]> (delete a fs))) →
  (∀ e fs, A fs → Q (inr e) fs) → spec A (os_rename a b) Q E.
Proof.
  intros HR Hi Hr. unfold os_rename. apply (spec_gets A (λ fs, fs !! a)). intros [f|].
  - apply spec_call_then; [intros fs [HA _]; auto|]. intros [[]|e].
    + apply (spec_modify _ (λ fs, <[b := f]> (delete a fs)) _ (Q (inl tt))); [intros fs [HA Hf]; by apply Hi|]. by apply spec_ret.
    + apply spec_ret. intros fs [HA _]. auto.
  - apply spec_ret. intros fs [HA _]. auto.
Qed.

Lemma spec_remove A a (Q : unit + error → gmap string file → Prop) E :
  (∀ fs, A fs → R fs) → (∀ fs, A fs → Q (inl tt) (delete a fs)) → (∀ e fs, A fs → Q (inr e) fs) → spec A (os_remove a) Q E.
Proof.
  intros HR Hi Hr. unfold os_remove. apply (spec_gets A (λ fs, fs !! a)). intros [f|].
  - apply spec_call_then; [intros fs [HA _]; auto|]. intros [[]|e].
    + apply (spec_modify _ (λ fs, delete a fs) _ (Q (inl tt))); [intros fs [HA _]; by apply Hi|]. by apply spec_ret.
    + apply spec_ret. intros fs [HA _]. auto.
  - apply spec_ret. intros fs [HA _]. auto.
Qed.

Lemma spec_attempts n A a b last (Q : unit + error → gmap string file → Prop) E :
  (∀ fs, A fs → R fs) →
  (∀ fs f, A fs → fs !! a = Some f → Q (inl tt) (<[b := f]> (delete a fs))) →
  (∀ e fs, A fs → Q (inr e) fs) → (n = O → ∀ fs, A fs → Q last fs) → spec A (rename_attempts n a b last) Q E.
Proof.
  intros HR Hi Hr. revert last. induction n as [|n IH]; intros last Hl; cbn [rename_attempts].
  - apply spec_ret. auto.
  - apply spec_bind with (λ r fs, match r with inl _ => Q (inl tt) fs | inr _ => A fs end).
    + apply spec_rename; auto.
    + intros [[]|e]; [by apply spec_ret|]. apply spec_call_then; [done|]. intros _. apply IH. intros _. auto.
Qed.

Lemma spec_retryRename A a b (Q : unit + error → gmap string file → Prop) E :
  (∀ fs, A fs → R fs) →
  (∀ fs f, A fs → fs !! a = Some f → Q (inl tt) (<[b := f]> (delete a fs))) →
  (∀ e fs, A fs → Q (inr e) fs) → spec A (retryRename a b) Q E.
Proof. intros HR Hi Hr. by apply spec_attempts. Qed.

(** Writing or clearing the marker keeps what does not depend on the marker's files. *)
Definition marker_free (A : gmap string file → Prop) : Prop :=
  ∀ fs fs', (∀ n, n ≠ markerName → n ≠ tempName → fs' !! n = fs !! n) → A fs → A fs'.

Lemma spec_writeMarker A s E : (∀ fs, A fs → R fs) → marker_free A → spec A (writeMarker s) (λ _, A) E.
Proof.
  intros HR Hm. unfold writeMarker. apply spec_call_then; [done|]. intros now. apply spec_call_then; [done|]. intros [[]|e].
  - apply (spec_modify A (λ fs, <[tempName := MarkerFile (stamped now s)]> fs) _ A).
    + intros fs. apply Hm. intros n _ Hn. by rewrite lookup_insert_ne.
    + apply spec_rename; [done| |done]. intros fs f HA Hf. apply (Hm fs); [|done]. intros n H1 H2.
      rewrite lookup_insert_ne, lookup_delete_ne by done. done.
  - by apply spec_ret.
Qed.

Lemma spec_clearMarker A E : (∀ fs, A fs → R fs) → marker_free A → spec A clearMarker (λ _, A) E.
Proof.
  intros HR Hm. unfold clearMarker. apply spec_bind with (λ _, A).
  - apply spec_remove; [done| |done]. intros fs. apply Hm. intros n Hn _. by rewrite lookup_delete_ne.
  - intros _. by apply spec_ret.
Qed.

Lemma spec_readMarker A : (∀ fs, A fs → R fs) → spec A readMarker (λ _, A) A.
Proof.
  intros HR. unfold readMarker, os_read. apply spec_bind with (λ _, A).
  - apply (spec_gets A (λ fs, fs !! markerName)). intros [f|]; [|apply spec_ret; by intros fs [? _]].
    apply spec_call_then; [intros fs [HA _]; auto|]. intros r. apply spec_ret. by intros fs [? _].
  - intros [[]|e]; try by apply spec_ret. destruct (decide (e = not_exist)); [by apply spec_ret|by apply spec_throw].
Qed.
End watched.

(** ** The swap *)

Section activation.
Context `{UpdateHost}.
Variable en : upd_env.
Hypothesis Hpriv : files_private en.
Variables (old : file) (v w : string).

(** The binary is in place; it is aside and its path is vacant; the update took its place. *)
Definition intact (new : option file) (fs : gmap string file) : Prop :=
  fs !! activeName = Some old ∧ fs !! versionedName v = new.
Definition aside (new : option file) (fs : gmap string file) : Prop :=
  fs !! activeName = None ∧ fs !! prevName = Some old ∧ fs !! versionedName v = new.
Definition swapped (new : option file) (fs : gmap string file) : Prop :=
  is_Some new ∧ fs !! activeName = new ∧ fs !! prevName = Some old.

(** At every moment there is a binary to start, or the old one to restore. *)
Definition recoverable (fs : gmap string file) : Prop :=
  is_Some (fs !! activeName) ∨ fs !! activeName = None ∧ fs !! prevName = Some old.

(** How a failed activation may leave the directory. *)
Definition unswapped (fs : gmap string file) : Prop :=
  fs !! activeName = Some old ∨ fs !! activeName = None ∧ fs !! prevName = Some old.

Lemma intact_recoverable new fs : intact new fs → recoverable fs. Proof. unfold recoverable. intros [-> _]. left. by eexists. Qed.
Lemma aside_recoverable new fs : aside new fs → recoverable fs. Proof. intros (? & ? & _). by right. Qed.
Lemma swapped_recoverable new fs : swapped new fs → recoverable fs. Proof. unfold recoverable. intros (Hn & -> & _). by left. Qed.
Lemma intact_unswapped new fs : intact new fs → unswapped fs. Proof. intros [? _]. by left. Qed.
Lemma aside_unswapped new fs : aside new fs → unswapped fs. Proof. intros (? & ? & _). by right. Qed.
#[local] Hint Resolve intact_recoverable aside_recoverable swapped_recoverable intact_unswapped aside_unswapped : core.

Lemma intact_free new : marker_free (intact new).
Proof. intros fs fs' Hs [Ha Hv]. split; rewrite Hs by auto with names; done. Qed.
Lemma aside_free new : marker_free (aside new).
Proof. intros fs fs' Hs (Ha & Hp & Hv). repeat split; rewrite Hs by auto with names; done. Qed.
Lemma swapped_free new : marker_free (swapped new).
Proof. intros fs fs' Hs (Hi & Ha & Hp). repeat split; [done|rewrite Hs by auto with names; done..]. Qed.
#[local] Hint Resolve intact_free aside_free swapped_free : core.

Abbreviation leads A m Q := (spec en recoverable A m Q unswapped).

#[local] Set Default Proof Using "Type*".

Lemma check_blocked_spec new : leads (intact new) (check_blocked v) (λ _, intact new).
Proof.
  unfold check_blocked. apply spec_bind with (λ _, intact new).
  - eapply spec_weaken; [apply (spec_readMarker en recoverable Hpriv (intact new)); eauto|eauto..].
  - intros [s|]; [|by apply spec_ret]. destruct (decide _); [|by apply spec_ret].
    destruct (String.eqb _ _); [apply spec_throw; eauto|]. apply spec_clearMarker; eauto.
Qed.

Lemma check_download_spec new : leads (intact new) (check_download v) (λ _, intact new).
Proof.
  unfold check_download, callE. apply spec_bind with (λ _, intact new).
  - apply spec_call_then; eauto. intros [r|e]; [by apply spec_ret|apply spec_throw; eauto].
  - intros exe. destruct (same_path _ _); cbn [negb]; [|apply spec_throw; eauto].
    apply spec_bind with (λ _, intact new).
    + unfold os_stat. apply (spec_gets en recoverable (intact new) (λ fs, fs !! versionedName v)). intros [f|].
      * eapply spec_weaken; [apply (spec_call en recoverable Hpriv (intact new)); eauto|by intros fs [? _]|eauto..].
      * apply spec_ret. by intros fs [? _].
    + intros [n|e]; [|apply spec_throw; eauto]. destruct (n =? 0)%N; [apply spec_throw; eauto|].
      apply spec_call_then; eauto. intros [r|e]; [|apply spec_throw; eauto].
      destruct (String.eqb _ _); cbn [negb]; [|apply spec_throw; eauto].
      apply spec_call_then; eauto. intros [[]|e]; [by apply spec_ret|].
      destruct enforceSignature; [apply spec_throw; eauto|by apply spec_ret].
Qed.

Lemma move_aside new fs f : intact new fs → fs !! activeName = Some f → aside new (<[prevName := f]> (delete activeName fs)).
Proof.
  intros [Ha Hv] Hf. simplify_eq. repeat split; [|by rewrite lookup_insert_eq|];
    rewrite lookup_insert_ne by auto using versioned_prev; [apply lookup_delete_eq|].
  by rewrite lookup_delete_ne by auto using versioned_active.
Qed.

Lemma move_in new fs f : aside new fs → fs !! versionedName v = Some f → swapped new (<[activeName := f]> (delete (versionedName v) fs)).
Proof.
  intros (Ha & Hp & Hv) Hf. simplify_eq. repeat split; [by eexists|by rewrite lookup_insert_eq|].
  rewrite lookup_insert_ne, lookup_delete_ne by auto using versioned_prev. done.
Qed.

Lemma move_back new fs f : aside new fs → fs !! prevName = Some f → intact new (<[activeName := f]> (delete prevName fs)).
Proof.
  intros (Ha & Hp & Hv) Hf. simplify_eq. split; [by rewrite lookup_insert_eq|].
  rewrite lookup_insert_ne, lookup_delete_ne by auto using not_eq_sym, versioned_prev, versioned_active. done.
Qed.

(** What the last step, putting the new binary on probation, makes of the files. *)
Definition ends_in new (Q : gmap string file → Prop) : Prop :=
  leads (swapped new) (bind (writeMarker (new_marker Probation v w)) (λ _, ret tt)) (λ _, Q).

Lemma ends_swapped new : ends_in new (swapped new).
Proof. apply spec_bind with (λ _, swapped new); [apply spec_writeMarker; eauto|]. intros _. by apply spec_ret. Qed.

Lemma swap_spec new Q : ends_in new Q → leads (intact new) (swap v w) (λ _, Q).
Proof.
  intros HQ. unfold swap. apply spec_bind with (λ r fs, match r with inl _ => aside new fs | inr _ => intact new fs end).
  { apply spec_retryRename; eauto using move_aside. }
  intros [[]|e].
  2: { apply spec_bind with (λ _, intact new); [apply spec_clearMarker; eauto|]. intros _. apply spec_throw; eauto. }
  apply spec_bind with (λ r fs, match r with inl _ => swapped new fs | inr _ => aside new fs end).
  { apply spec_retryRename; eauto using move_in. }
  intros [[]|e]; [exact HQ|].
  apply spec_bind with (λ r fs, match r with inl _ => intact new fs | inr _ => aside new fs end).
  { apply spec_retryRename; eauto using move_back. }
  intros [[]|e']; [|apply spec_throw; eauto].
  apply spec_bind with (λ _, intact new); [apply spec_clearMarker; eauto|]. intros _. apply spec_throw; eauto.
Qed.

Lemma intact_remove_prev new fs : intact new fs → intact new (delete prevName fs).
Proof. intros [Ha Hv]. split; rewrite lookup_delete_ne by auto using not_eq_sym, versioned_prev; done. Qed.

Lemma Activate_spec new Q : ends_in new Q → leads (intact new) (Activate v w) (λ _, Q).
Proof.
  intros HQ. unfold Activate.
  apply spec_bind with (λ _, intact new); [apply check_blocked_spec|intros _].
  apply spec_bind with (λ _, intact new); [apply check_download_spec|intros _].
  apply spec_bind with (λ _, intact new).
  { apply spec_remove; eauto using intact_remove_prev. }
  intros r. apply spec_bind with (λ _, intact new).
  { destruct r as [[]|e]; [by apply spec_ret|]. destruct (decide _); [by apply spec_ret|apply spec_throw; eauto]. }
  intros _. apply spec_bind with (λ _, intact new); [apply spec_writeMarker; eauto|intros r'].
  apply spec_bind with (λ _, intact new); [|intros _; by apply swap_spec].
  destruct r' as [[]|e]; [by apply spec_ret|apply spec_throw; eauto].
Qed.
End activation.

(** ** When the file system does its work *)

(** Reading, writing, moving and removing what is there succeeds. *)
Record smooth (en : upd_env) : Prop := {
  smooth_private : files_private en;
  smooth_read : ∀ n lg, answer en _ (ReadFile n) lg = inl tt;
  smooth_write : ∀ n lg, answer en _ (WriteTemp n) lg = inl tt;
  smooth_rename : ∀ a b lg, answer en _ (RenameFile a b) lg = inl tt;
  smooth_remove : ∀ n lg, answer en _ (RemoveFile n) lg = inl tt;
}.

(** [m] returns [b] and leaves the files [fs]. *)
Definition results {B} (en : upd_env) (m : Upd B) (st : upd_state) (b : B) (fs : gmap string file) : Prop :=
  ∃ st', m en st = (Ok b, st') ∧ files (world st') = fs.

Lemma results_bind {B C} en (m : Upd B) (k : B → Upd C) st b fs c fs' :
  results en m st b fs → (∀ st', files (world st') = fs → results en (k b) st' c fs') → results en (bind m k) st c fs'.
Proof. intros (st' & E & Hf) Hk. destruct (Hk st' Hf) as (st2 & E2 & Hf2). exists st2. unfold bind. by rewrite E. Qed.

Lemma results_ret {B} en (b : B) st : results en (ret b) st b (files (world st)).
Proof. by eexists. Qed.

Section smooth.
Variable en : upd_env.
Hypothesis Hs : smooth en.
#[local] Set Default Proof Using "Type*".

Lemma os_rename_yields a b st f : files (world st) !! a = Some f →
  results en (os_rename a b) st (inl tt) (<[b := f]> (delete a (files (world st)))).
Proof.
  intros Hf. eexists. unfold os_rename, bind, gets, call. rewrite Hf. cbn [world log]. rewrite (smooth_rename _ Hs), (smooth_private _ Hs).
  split; reflexivity.
Qed.

Lemma os_remove_yields a st f : files (world st) !! a = Some f →
  results en (os_remove a) st (inl tt) (delete a (files (world st))).
Proof.
  intros Hf. eexists. unfold os_remove, bind, gets, call. rewrite Hf. cbn [world log]. rewrite (smooth_remove _ Hs), (smooth_private _ Hs).
  split; reflexivity.
Qed.

Lemma retryRename_yields a b st f : files (world st) !! a = Some f →
  results en (retryRename a b) st (inl tt) (<[b := f]> (delete a (files (world st)))).
Proof.
  intros Hf. unfold retryRename, renameRetries. cbn [rename_attempts]. eapply results_bind; [by apply os_rename_yields|].
  intros st' <-. apply results_ret.
Qed.

Lemma readMarker_yields st s : files (world st) !! markerName = Some (MarkerFile s) →
  results en readMarker st (Some s) (files (world st)).
Proof.
  intros Hf. eexists. unfold readMarker, os_read, bind, gets, call. rewrite Hf. cbn [world log]. rewrite (smooth_read _ Hs), (smooth_private _ Hs).
  split; reflexivity.
Qed.

Lemma try_readMarker_yields st s : files (world st) !! markerName = Some (MarkerFile s) →
  results en (try_ readMarker) st (inl (Some s)) (files (world st)).
Proof. intros Hf. destruct (readMarker_yields st s Hf) as (st' & E & Hf'). exists st'. unfold try_. by rewrite E. Qed.

(** The marker is written, and the temporary file is gone. *)
Definition marked (s : marker) (now : string) (fs : gmap string file) : gmap string file :=
  <[markerName := MarkerFile (stamped now s)]> (delete tempName fs).

Lemma writeMarker_yields s st : ∃ now, results en (writeMarker s) st (inl tt) (marked s now (files (world st))).
Proof.
  exists (answer en _ NowText (log st)). unfold writeMarker. eapply results_bind; [by eexists|]. intros st1 Hf1.
  rewrite (smooth_private _ Hs) in Hf1. cbn [world] in Hf1.
  eapply (results_bind _ _ _ _ (inl tt)); [eexists; split; [unfold call; by rewrite (smooth_write _ Hs), (smooth_private _ Hs)|reflexivity]|].
  intros st2 Hf2. cbn [world] in Hf2.
  eapply results_bind; [by eexists|]. intros st3 Hf3. cbn [world files put_files] in Hf3.
  assert (marked s (answer en _ NowText (log st)) (files (world st)) =
    <[markerName := MarkerFile (stamped (answer en _ NowText (log st)) s)]> (delete tempName (files (world st3)))) as ->.
  { rewrite Hf3. unfold marked. f_equal. rewrite Hf2, Hf1. by rewrite delete_insert_eq. }
  apply os_rename_yields. by rewrite Hf3, lookup_insert_eq.
Qed.
End smooth.

(** [m] returns [b] with files that satisfy [Q]. *)
Definition ends {B} (en : upd_env) (m : Upd B) (st : upd_state) (b : B) (Q : gmap string file → Prop) : Prop :=
  ∃ fs, results en m st b fs ∧ Q fs.

Lemma ends_bind {B C} en (m : Upd B) (k : B → Upd C) st b fs c Q :
  results en m st b fs → (∀ st', files (world st') = fs → ends en (k b) st' c Q) → ends en (bind m k) st c Q.
Proof.
  intros (st' & E & Hf) Hk. destruct (Hk st' Hf) as (fs2 & (st2 & E2 & Hf2) & HQ). exists fs2. split; [|done].
  exists st2. unfold bind. by rewrite E.
Qed.

Lemma ends_marker en (Hs : smooth en) {B} s (b : B) st Q :
  (∀ now, Q (marked s now (files (world st)))) → ends en (bind (writeMarker s) (λ _, ret b)) st b Q.
Proof.
  intros HQ. destruct (writeMarker_yields en Hs s st) as (now & Hw). eapply ends_bind; [done|].
  intros st' Hf. exists (files (world st')). split; [apply results_ret|]. rewrite Hf. apply HQ.
Qed.

(** ** Probation *)

Section trial.
Variables (v w : string) (old new : file).

(** [v] is active and on probation after [k] starts, with [w] aside. *)
Definition on_trial (k : Z) (fs : gmap string file) : Prop :=
  ∃ t, fs !! markerName = Some (MarkerFile {| mk_Phase := Probation; mk_NewVersion := v; mk_OldVersion := w; mk_Attempts := k; mk_UpdatedAt := t |})
    ∧ fs !! activeName = Some new ∧ fs !! prevName = Some old.

(** [w] is active again and [v] is quarantined and blocked. *)
Definition rolled_back (fs : gmap string file) : Prop :=
  fs !! activeName = Some old ∧ fs !! failedName v = Some new
  ∧ ∃ s, fs !! markerName = Some (MarkerFile s) ∧ mk_Phase s = RolledBack ∧ mk_NewVersion s = v.

Lemma marked_other s now fs n : n ≠ markerName → n ≠ tempName → marked s now fs !! n = fs !! n.
Proof. intros H1 H2. unfold marked. by rewrite lookup_insert_ne, lookup_delete_ne by auto. Qed.

Lemma marked_marker s now fs : marked s now fs !! markerName = Some (MarkerFile (stamped now s)).
Proof. apply lookup_insert_eq. Qed.

Variable en : upd_env.
Hypothesis Hs : smooth en.
#[local] Set Default Proof Using "Type*".

Lemma trial_start st k : (k < maxProbationAttempts)%Z → on_trial k (files (world st)) →
  ends en (OnServiceStart v) st false (on_trial (k + 1)).
Proof.
  intros Hk (t & Hm & Ha & Hp). unfold OnServiceStart.
  eapply ends_bind; [by apply try_readMarker_yields|]. intros st' Hf. cbn [mk_Phase]. unfold probation, attempt.
  cbn [mk_Phase mk_NewVersion mk_OldVersion mk_Attempts mk_UpdatedAt]. rewrite String.eqb_refl.
  rewrite (proj2 (Z.leb_le _ _)) by lia. apply (ends_marker en Hs). intros now. rewrite Hf. exists now.
  rewrite marked_marker, !marked_other by done. done.
Qed.

Lemma trial_end st : on_trial maxProbationAttempts (files (world st)) → ends en (OnServiceStart v) st true rolled_back.
Proof.
  intros (t & Hm & Ha & Hp). unfold OnServiceStart.
  eapply ends_bind; [by apply try_readMarker_yields|]. intros st' Hf. cbn [mk_Phase]. unfold probation, attempt.
  cbn [mk_Phase mk_NewVersion mk_OldVersion mk_Attempts mk_UpdatedAt]. rewrite String.eqb_refl. cbn [Z.add Z.leb maxProbationAttempts].
  unfold roll_back. cbn [mk_NewVersion mk_OldVersion]. eapply ends_bind; [by apply retryRename_yields; [|rewrite Hf]|].
  intros st2 Hf2. cbn iota.
  assert (files (world st2) !! prevName = Some old) as Hp2
    by (rewrite Hf2, Hf, lookup_insert_ne, lookup_delete_ne by auto using failed_prev; done).
  eapply ends_bind; [by apply retryRename_yields|]. intros st3 Hf3. cbn iota.
  apply (ends_marker en Hs). intros now. rewrite Hf3, Hf2, Hf. unfold rolled_back. rewrite marked_marker, !marked_other by auto with names.
  split; [by rewrite lookup_insert_eq|]. split; [|by eexists].
  rewrite lookup_insert_ne, lookup_delete_ne, lookup_insert_eq by auto using not_eq_sym, failed_active, failed_prev. done.
Qed.
End trial.

(** ** The theorems *)

(** Every directory the process could have died with, and the one it ended with. *)
Definition moments (st : upd_state) : list (gmap string file) := files (world st) :: map event_files (log st).

Lemma repair_recovers en downloads old st : smooth en → recoverable old (files (world st)) →
  ∃ b, files (world (repair downloads en st).2) !! activeName = Some b
    ∧ (files (world st) !! activeName = Some b ∨ files (world st) !! activeName = None ∧ b = old).
Proof.
  intros Hs [[b Hb]|[Ha Hp]]; unfold repair, bind, gets.
  - exists b. rewrite Hb. split; [exact Hb|by left].
  - exists old. rewrite Ha, Hp. destruct (os_rename_yields en Hs prevName activeName st _ Hp) as (st' & E & Hf).
    rewrite E. cbn [snd ret]. rewrite Hf. split; [apply lookup_insert_eq|by right].
Qed.

(** C7: an activation never costs the device its agent.  Whatever the system answers, at
    every moment at which the process may die the repair at boot finds or restores a
    binary, and never anything but the old one into a vacant place; a successful activation
    has put exactly the download into place and kept the old binary for a roll-back; a
    failed one has left the old binary in place, or aside to be restored. *)
Theorem activation_never_bricks `{UpdateHost} en v w d old : files_private en → files d !! activeName = Some old →
  let '(o, st) := Activate v w en (mk_state d []) in
  (∀ m en' lg downloads, In m (moments st) → smooth en' →
    ∃ b, files (world (repair downloads en' (mk_state {| files := m |} lg)).2) !! activeName = Some b
      ∧ (m !! activeName = Some b ∨ m !! activeName = None ∧ b = old))
  ∧ match o with
    | Ok _ => swapped old (files d !! versionedName v) (files (world st))
    | Err _ => unswapped old (files (world st))
    | _ => False
    end.
Proof.
  intros Hpriv Hold.
  pose proof (Activate_spec en Hpriv old v w (files d !! versionedName v) _ (ends_swapped en Hpriv old v w _)
    (mk_state d []) (conj Hold eq_refl) (List.Forall_nil _)) as HA.
  destruct (Activate v w en (mk_state d [])) as [o st]. destruct HA as [Hw Ho].
  assert (recoverable old (files (world st))) as Hend.
  { destruct o as [[]|e| |]; [by eapply swapped_recoverable| |done..]. destruct Ho as [Ho|Ho]; [left; by eexists|by right]. }
  split; [|by destruct o as [[]|e| |]].
  intros m en' lg downloads Hm Hs. apply (repair_recovers en' downloads old (mk_state {| files := m |} lg) Hs).
  destruct Hm as [<-|(e & <- & He)%in_map_iff]; [exact Hend|]. unfold watched in Hw. rewrite List.Forall_forall in Hw. by apply Hw.
Qed.

Lemma ends_on_trial `{UpdateHost} en v w old new : smooth en → ends_in en old v w (Some new) (on_trial v w old new 0).
Proof.
  intros Hs st (_ & Ha & Hp) Hw.
  pose proof (spec_writeMarker en (recoverable old) (smooth_private _ Hs) (swapped old (Some new)) (new_marker Probation v w)
    (unswapped old) (swapped_recoverable old _) (swapped_free old _) st) as HWr.
  destruct (writeMarker_yields en Hs (new_marker Probation v w) st) as (now & st' & E & Hf).
  unfold bind. rewrite E in HWr |- *. destruct HWr as [Hw' _]; [repeat split; [by eexists|done..]|done|].
  split; [exact Hw'|]. cbn. rewrite Hf. exists now. rewrite marked_marker, !marked_other by done. done.
Qed.

Lemma blocked_refused `{UpdateHost} en v w old new st : smooth en → rolled_back v old new (files (world st)) →
  (Activate v w en st).1 = Err ErrVersionBlocked.
Proof.
  intros Hs (_ & _ & s & Hm & Hph & Hv). unfold Activate, check_blocked, bind at 1 2.
  destruct (readMarker_yields en Hs st s Hm) as (st' & E & _). rewrite E. rewrite Hph, Hv, String.eqb_refl. done.
Qed.

(** C8: a version that never stays up is given three starts; the fourth restores the
    previous binary, quarantines the new one, and blocks the version from being activated
    again. *)
Theorem failing_version_is_rolled_back `{UpdateHost} en v w d old : smooth en → files d !! activeName = Some old →
  (Activate v w en (mk_state d [])).1 = Ok tt →
  ∃ new st, files d !! versionedName v = Some new
    ∧ map_m [v; v; v; v] OnServiceStart en (Activate v w en (mk_state d [])).2 = (Ok [false; false; false; true], st)
    ∧ rolled_back v old new (files (world st))
    ∧ ∀ lg w', (Activate v w' en (mk_state (world st) lg)).1 = Err ErrVersionBlocked.
Proof.
  intros Hs Hold HOk. pose proof (smooth_private _ Hs) as Hpriv.
  pose proof (Activate_spec en Hpriv old v w (files d !! versionedName v) _ (ends_swapped en Hpriv old v w _)
    (mk_state d []) (conj Hold eq_refl) (List.Forall_nil _)) as HA.
  destruct (files d !! versionedName v) as [new|] eqn:Hnew.
  2: { destruct (Activate v w en (mk_state d [])) as [o st]. cbn in HOk. subst o. by destruct HA as (_ & [? [=]] & _). }
  clear HA. pose proof (Activate_spec en Hpriv old v w (Some new) _ (ends_on_trial en v w old new Hs)
    (mk_state d []) (conj Hold Hnew) (List.Forall_nil _)) as HA.
  destruct (Activate v w en (mk_state d [])) as [o st]. cbn in HOk. subst o. destruct HA as [_ HA].
  exists new. cbn [snd map_m].
  pose proof (trial_start v w old new en Hs) as Hstep. unfold maxProbationAttempts in Hstep.
  destruct (Hstep st 0%Z ltac:(lia) HA) as (f1 & (st1 & E1 & <-) & H1).
  destruct (Hstep st1 1%Z ltac:(lia) H1) as (f2 & (st2 & E2 & <-) & H2).
  destruct (Hstep st2 2%Z ltac:(lia) H2) as (f3 & (st3 & E3 & <-) & H3).
  destruct (trial_end v w old new en Hs st3 H3) as (f4 & (st4 & E4 & <-) & H4).
  exists st4. split; [done|]. split; [unfold bind; by rewrite E1, E2, E3, E4|]. split; [exact H4|].
  intros lg w'. by apply (blocked_refused en v w' old new _ Hs).
Qed.

Lemma unmarked_start en v st : files (world st) !! markerName = None → OnServiceStart v en st = (Ok false, st).
Proof. intros Hm. unfold OnServiceStart, readMarker, os_read, bind, try_, gets. by rewrite Hm. Qed.

Lemma unmarked_starts en v n st : files (world st) !! markerName = None →
  map_m (repeat v n) OnServiceStart en st = (Ok (repeat false n), st).
Proof. intros Hm. induction n as [|n IH]; [done|]. cbn [repeat map_m]. unfold bind. by rewrite unmarked_start, IH. Qed.

(** a version that was marked healthy is never rolled back: however often the service
    starts afterwards, nothing moves, and the previous binary is still there for the next
    update. *)
Theorem healthy_version_stays en v w k old new n st : smooth en → on_trial v w old new k (files (world st)) →
  ∃ st', (MarkHealthy;; map_m (repeat v n) OnServiceStart) en st = (Ok (repeat false n), st')
    ∧ files (world st') = delete markerName (files (world st))
    ∧ files (world st') !! activeName = Some new ∧ files (world st') !! prevName = Some old.
Proof.
  intros Hs (t & Hm & Ha & Hp). unfold MarkHealthy, clearMarker.
  destruct (try_readMarker_yields en Hs st _ Hm) as (st1 & E1 & Hf1).
  assert (files (world st1) !! markerName = Some (MarkerFile {| mk_Phase := Probation; mk_NewVersion := v; mk_OldVersion := w; mk_Attempts := k; mk_UpdatedAt := t |}))
    as Hm1 by (by rewrite Hf1).
  destruct (os_remove_yields en Hs markerName st1 _ Hm1) as (st2 & E2 & Hf2).
  exists st2. split; [|rewrite Hf2, Hf1; repeat split; rewrite lookup_delete_ne by done; done].
  unfold bind at 1 2. rewrite E1. cbn [mk_Phase]. rewrite bool_decide_true by done. unfold when, bind. rewrite E2.
  apply unmarked_starts. rewrite Hf2. apply lookup_delete_eq.
Qed.

(** ** A device that is updated from 1.0 to 2.0 *)

#[local] Instance ex_update : UpdateHost := {| same_path := String.eqb; active_path := "C:\agent\reagent.exe"; enforceSignature := true |}.

Definition working {T} (c : UpdCall T) : T :=
  match c with
  | ReadFile _ | WriteTemp _ | RenameFile _ _ | RemoveFile _ | VerifySignature _ | RequestRestart _ => inl tt
  | StatFile _ => inl 1%N
  | CurrentExe => inl "C:\agent\reagent.exe"
  | ExecVersion n => inl (if String.eqb n "reagent-v2.0.exe" then "2.0" else "3.0")
  | RetryDelay | FlushDelay => tt
  | NowText => "2026-01-01T00:00:00Z"
  end.

Definition working_update : upd_env := {| answer := λ T c _, working c; interfere := λ _ d, d |}.

Lemma working_smooth : smooth working_update.
Proof. done. Qed.

Definition device_1 : Dir := {| files := <[activeName := Exe "one"]> (<["reagent-v2.0.exe" := Exe "two"]> (<[prevName := Exe "zero"]> ∅)) |}.

Definition updated : upd_state := (Activate "2.0" "1.0" working_update (mk_state device_1 [])).2.

Lemma update_succeeds : Activate "2.0" "1.0" working_update (mk_state device_1 []) = (Ok tt, updated).
Proof. vm_compute. reflexivity. Qed.

Lemma activation_never_bricks_witness :
  files device_1 !! activeName = Some (Exe "one")
  ∧ files (world updated) !! activeName = Some (Exe "two") ∧ files (world updated) !! prevName = Some (Exe "one").
Proof.
  split; [reflexivity|].
  pose proof (activation_never_bricks working_update "2.0" "1.0" device_1 (Exe "one") (smooth_private _ working_smooth) eq_refl) as HA.
  rewrite update_succeeds in HA. destruct HA as (_ & _ & Ha & Hp). split; [exact Ha|exact Hp].
Defined.

Lemma failing_version_is_rolled_back_witness :
  ∃ new (st : upd_state), files device_1 !! versionedName "2.0" = Some new ∧ rolled_back "2.0" (Exe "one") new (files (world st))
    ∧ (Activate "2.0" "1.0" working_update (mk_state (world st) [])).1 = Err ErrVersionBlocked.
Proof.
  destruct (@failing_version_is_rolled_back ex_update working_update "2.0" "1.0" device_1 (Exe "one") working_smooth eq_refl
    ltac:(vm_compute; reflexivity)) as (new & st & Hn & _ & Hr & Hb).
  exists new, st. split; [exact Hn|]. split; [exact Hr|]. exact (Hb [] "1.0").
Defined.

Definition on_trial_files (k : Z) : gmap string file :=
  <[markerName := MarkerFile {| mk_Phase := Probation; mk_NewVersion := "2.0"; mk_OldVersion := "1.0"; mk_Attempts := k; mk_UpdatedAt := "" |}]>
  (<[activeName := Exe "two"]> (<[prevName := Exe "one"]> ∅)).

Lemma healthy_version_stays_witness :
  ∃ st', (MarkHealthy;; map_m (repeat "2.0" 5) OnServiceStart) working_update (mk_state {| files := on_trial_files 3 |} [])
    = (Ok (repeat false 5), st') ∧ files (world st') !! activeName = Some (Exe "two").
Proof.
  destruct (healthy_version_stays working_update "2.0" "1.0" 3 (Exe "one") (Exe "two") 5 (mk_state {| files := on_trial_files 3 |} []) working_smooth
    (ex_intro _ "" (conj eq_refl (conj eq_refl eq_refl)))) as (st' & E & _ & Ha & _).
  exists st'. split; [exact E|exact Ha].
Defined.

(** ** What the code does besides *)

(** The block is cleared before the other version is checked: a later version that cannot
    be activated at all (here its download is missing) unblocks the one that failed. *)
Definition blocked_2 : Dir :=
  {| files := <[markerName := MarkerFile (new_marker RolledBack "2.0" "1.0")]> (<[activeName := Exe "one"]> ∅) |}.

Example failed_activation_unblocks :
  (IsVersionBlocked "2.0" working_update (mk_state blocked_2 [])).1 = Ok true
  ∧ (Activate "3.0" "1.0" working_update (mk_state blocked_2 [])).1 = Err (wrapped "downloaded update not found" not_exist)
  ∧ (IsVersionBlocked "2.0" working_update (Activate "3.0" "1.0" working_update (mk_state blocked_2 [])).2).1 = Ok false.
Proof. repeat split; vm_compute; reflexivity. Qed.

(** The disk is full when the probation marker is written: the swap succeeded, the marker
    still says "swapping", and the new version is started for ever without probation. *)
Definition filling (calls : nat) {T} (c : UpdCall T) : T :=
  match c with
  | WriteTemp _ => if (calls <? 8)%nat then inl tt else inr (Plain "no space left on device")
  | ReadFile _ | RenameFile _ _ | RemoveFile _ | VerifySignature _ | RequestRestart _ => inl tt
  | StatFile n => working (StatFile n)
  | CurrentExe => working CurrentExe
  | ExecVersion n => working (ExecVersion n)
  | RetryDelay | FlushDelay => tt
  | NowText => working NowText
  end.

Definition full_disk : upd_env := {| answer := λ T c lg, filling (length lg) c; interfere := λ _ d, d |}.

Example unwritten_probation_is_skipped :
  (Activate "2.0" "1.0" full_disk (mk_state device_1 [])).1 = Ok tt
  ∧ (map_m (repeat "2.0" 6) OnServiceStart working_update (Activate "2.0" "1.0" full_disk (mk_state device_1 [])).2).1 = Ok (repeat false 6).
Proof. split; vm_compute; reflexivity. Qed.
