(* ===== verification/Terminals.v ===== *)
(** * Terminals of the device (src/src/terminal/pty.go)

    A device terminal is a shell whose bytes are read, cut at rune boundaries and
    published, and whose teardown is a dance of four goroutines over channels.  The text
    functions are plain functions over bytes; the goroutines are a step relation over the
    terminals of the process and the registry that finds them by caller. *)
From S2P Require Import Prelude Errdefs GoValue Common WampValues.
#[local] Open Scope Z_scope.

(** ** Cutting at rune boundaries *)

Abbreviation bytes := (list Z).

Definition UTFMax : nat := 4.

(** [utf8.RuneStart]. *)
Definition RuneStart (c : Z) : bool := negb (Z.land c 192 =? 128).

Definition runeLen (c : Z) : nat :=
  if Z.land c 128 =? 0 then 1
  else if Z.land c 224 =? 192 then 2
  else if Z.land c 240 =? 224 then 3
  else if Z.land c 248 =? 240 then 4
  else 1.

(** The loop of [splitTrailingPartialRune] at its [i]-th byte from the end, with [fuel]
    more to look at. *)
Fixpoint split_scan (fuel i : nat) (b : bytes) : bytes * bytes :=
  match fuel with
  | O => (b, [])
  | S fuel =>
      if (i <? length b)%nat then
        let idx := (length b - 1 - i)%nat in
        if negb (RuneStart (nth idx b 0%Z)) then split_scan fuel (S i) b
        else if (S i <? runeLen (nth idx b 0%Z))%nat then (firstn idx b, skipn idx b)
        else (b, [])
      else (b, [])
  end.

Definition splitTrailingPartialRune (b : bytes) : bytes * bytes := split_scan UTFMax 0 b.

(** One turn of the read loop: what was carried over and what was read, into what is
    published and what is carried on. *)
Definition read_chunk (carry buffer : bytes) : bytes * bytes :=
  match buffer with
  | [] => ([], carry)
  | _ => let '(complete, partial) := splitTrailingPartialRune (carry ++ buffer) in (complete, firstn UTFMax partial)
  end.

(** What a session publishes of a sequence of reads, and what it still carries. *)
Fixpoint session_text (carry : bytes) (reads : list bytes) : list bytes * bytes :=
  match reads with
  | [] => ([], carry)
  | buffer :: reads =>
      let '(complete, carry) := read_chunk carry buffer in
      let '(out, rest) := session_text carry reads in
      (match complete with [] => out | _ => complete :: out end, rest)
  end.

(** The end of the session flushes what is carried. *)
Definition session_output (reads : list bytes) : list bytes :=
  let '(out, carry) := session_text [] reads in
  match carry with [] => out | _ => out ++ [carry] end.

(** ** Arguments of the control topics *)

Definition maxTerminalDimension : Z := 32767.

(** [int64(v)] of a [uint64] and of a float; out of its range a float converts as the
    processor does. *)
Definition int64_wrap (n : Z) : Z := let m := n mod 2 ^ 64 in if m <? 2 ^ 63 then m else m - 2 ^ 64.

Section dimensions.
Variable float_overflow_i64 : Z → positive → Z.

Definition int64_of_float (num : Z) (den : positive) : Z :=
  let t := Z.quot num (Zpos den) in
  if (- 2 ^ 63 <=? t) && (t <? 2 ^ 63) then t else int64_wrap (float_overflow_i64 num den).

Definition parseDimension (value : wval) : Z + error :=
  let bounded n :=
    if (n <? 0) || (maxTerminalDimension <? n) then inr (Plain ("out of range: " +:+ pretty n)) else inl n in
  match value with
  | WU64 n => bounded (int64_wrap (Z.of_N n))
  | WI64 n => bounded n
  | WF64 num den => bounded (int64_of_float num den)
  | _ => inr (Plain "unexpected type")
  end.

Record TerminalSize := { Rows : Z; Cols : Z }.

(** The handler of the write topic, up to its send. *)
Definition write_argument (args : list wval) : string + error :=
  match args with
  | [] => inr (Plain "failed to parse args, payload is missing")
  | a :: _ => match as_string a with Some data => inl data | None => inr (Plain "failed to parse args") end
  end.

(** The handler of the resize topic, up to its send. *)
Definition resize_argument (args : list wval) : TerminalSize + error :=
  match args with
  | [] => inr (Plain "failed to parse args, payload is missing")
  | a :: _ =>
      match as_plain_map a with
      | None => inr (Plain "failed to parse args")
      | Some payload =>
          match parseDimension (wget "height" payload) with
          | inr e => inr (Annotated "failed to parse height" e)
          | inl height =>
              match parseDimension (wget "width" payload) with
              | inr e => inr (Annotated "failed to parse width" e)
              | inl width => inl {| Rows := height; Cols := width |}
              end
          end
      end
  end.

Definition clampTerminalSize (size : TerminalSize) : option (Z * Z) :=
  if (Rows size =? 0) || (Cols size =? 0) then None
  else if (maxTerminalDimension <? Rows size) || (maxTerminalDimension <? Cols size) then None
  else Some (Rows size, Cols size).

(** What a call of the resize topic makes the shell do. *)
Definition shell_resize (args : list wval) : option (Z * Z) :=
  match resize_argument args with inl size => clampTerminalSize size | inr _ => None end.
End dimensions.

(** ** The goroutines of a terminal *)

(** What is published on the data topic. *)
Inductive message := Data (b : bytes) | TERMINAL_EOF.

Inductive reader :=
  | Reading (carry : bytes)
  | Sending (chunk carry : bytes) (ended : bool)
  | Flushing (carry : bytes)
  | ReadDone.

Inductive waiter := Waiting | Draining | WaitDone.

(** The goroutine of [Setup] that tears the terminal down; [finished] says whether the
    read loop had returned. *)
Inductive cleaner :=
  | NotSetup
  | AwaitCleanup
  | AwaitReader
  | PublishEof (finished : bool)
  | Unregister (finished : bool)
  | CloseOutput (finished : bool)
  | Evict
  | CleanDone.

(** The goroutine that publishes what is sent on [Output]. *)
Inductive publisher := NoPublisher | PubIdle | PubBusy | PubDone.

Record PseudoTerminal := {
  pt_Id : string;
  pt_SessionID : string;
  pt_reader : reader;
  pt_waiter : waiter;
  pt_cleaner : cleaner;
  pt_publisher : publisher;
  pt_Cleanup : bool;      (* closed *)
  pt_OutputOpen : bool;
  pt_published : list message;
  pt_read : bytes;        (* all the shell said *)
  pt_panicked : bool;
}.

Definition set_reader (r : reader) (t : PseudoTerminal) : PseudoTerminal :=
  {| pt_Id := pt_Id t; pt_SessionID := pt_SessionID t; pt_reader := r; pt_waiter := pt_waiter t; pt_cleaner := pt_cleaner t;
     pt_publisher := pt_publisher t; pt_Cleanup := pt_Cleanup t; pt_OutputOpen := pt_OutputOpen t;
     pt_published := pt_published t; pt_read := pt_read t; pt_panicked := pt_panicked t |}.
Definition heard (b : bytes) (t : PseudoTerminal) : PseudoTerminal :=
  {| pt_Id := pt_Id t; pt_SessionID := pt_SessionID t; pt_reader := pt_reader t; pt_waiter := pt_waiter t; pt_cleaner := pt_cleaner t;
     pt_publisher := pt_publisher t; pt_Cleanup := pt_Cleanup t; pt_OutputOpen := pt_OutputOpen t;
     pt_published := pt_published t; pt_read := pt_read t ++ b; pt_panicked := pt_panicked t |}.
Definition set_waiter (w : waiter) (t : PseudoTerminal) : PseudoTerminal :=
  {| pt_Id := pt_Id t; pt_SessionID := pt_SessionID t; pt_reader := pt_reader t; pt_waiter := w; pt_cleaner := pt_cleaner t;
     pt_publisher := pt_publisher t; pt_Cleanup := pt_Cleanup t; pt_OutputOpen := pt_OutputOpen t;
     pt_published := pt_published t; pt_read := pt_read t; pt_panicked := pt_panicked t |}.
Definition set_cleaner (c : cleaner) (t : PseudoTerminal) : PseudoTerminal :=
  {| pt_Id := pt_Id t; pt_SessionID := pt_SessionID t; pt_reader := pt_reader t; pt_waiter := pt_waiter t; pt_cleaner := c;
     pt_publisher := pt_publisher t; pt_Cleanup := pt_Cleanup t; pt_OutputOpen := pt_OutputOpen t;
     pt_published := pt_published t; pt_read := pt_read t; pt_panicked := pt_panicked t |}.
Definition set_publisher (p : publisher) (t : PseudoTerminal) : PseudoTerminal :=
  {| pt_Id := pt_Id t; pt_SessionID := pt_SessionID t; pt_reader := pt_reader t; pt_waiter := pt_waiter t; pt_cleaner := pt_cleaner t;
     pt_publisher := p; pt_Cleanup := pt_Cleanup t; pt_OutputOpen := pt_OutputOpen t;
     pt_published := pt_published t; pt_read := pt_read t; pt_panicked := pt_panicked t |}.
(** The [once] around it makes the close idempotent. *)
Definition signalCleanup (t : PseudoTerminal) : PseudoTerminal :=
  {| pt_Id := pt_Id t; pt_SessionID := pt_SessionID t; pt_reader := pt_reader t; pt_waiter := pt_waiter t; pt_cleaner := pt_cleaner t;
     pt_publisher := pt_publisher t; pt_Cleanup := true; pt_OutputOpen := pt_OutputOpen t;
     pt_published := pt_published t; pt_read := pt_read t; pt_panicked := pt_panicked t |}.
(** Closing a channel that is closed panics, and so does sending on it. *)
Definition close_output (t : PseudoTerminal) : PseudoTerminal :=
  {| pt_Id := pt_Id t; pt_SessionID := pt_SessionID t; pt_reader := pt_reader t; pt_waiter := pt_waiter t; pt_cleaner := pt_cleaner t;
     pt_publisher := pt_publisher t; pt_Cleanup := pt_Cleanup t; pt_OutputOpen := false;
     pt_published := pt_published t; pt_read := pt_read t; pt_panicked := pt_panicked t || negb (pt_OutputOpen t) |}.
Definition panics (t : PseudoTerminal) : PseudoTerminal :=
  {| pt_Id := pt_Id t; pt_SessionID := pt_SessionID t; pt_reader := pt_reader t; pt_waiter := pt_waiter t; pt_cleaner := pt_cleaner t;
     pt_publisher := pt_publisher t; pt_Cleanup := pt_Cleanup t; pt_OutputOpen := pt_OutputOpen t;
     pt_published := pt_published t; pt_read := pt_read t; pt_panicked := true |}.
(** The publisher took a message: it publishes it before it takes another one. *)
Definition handed_over (m : message) (t : PseudoTerminal) : PseudoTerminal :=
  {| pt_Id := pt_Id t; pt_SessionID := pt_SessionID t; pt_reader := pt_reader t; pt_waiter := pt_waiter t; pt_cleaner := pt_cleaner t;
     pt_publisher := PubBusy; pt_Cleanup := pt_Cleanup t; pt_OutputOpen := pt_OutputOpen t;
     pt_published := pt_published t ++ [m]; pt_read := pt_read t; pt_panicked := pt_panicked t |}.

Definition newPseudoTerminal (id : string) : PseudoTerminal :=
  {| pt_Id := id; pt_SessionID := ""; pt_reader := Reading []; pt_waiter := Waiting; pt_cleaner := NotSetup;
     pt_publisher := NoPublisher; pt_Cleanup := false; pt_OutputOpen := true; pt_published := []; pt_read := [];
     pt_panicked := false |}.

(** [Setup] names the session and starts the publisher and the goroutine of the teardown. *)
Definition Setup (session : string) (t : PseudoTerminal) : PseudoTerminal :=
  {| pt_Id := pt_Id t; pt_SessionID := session; pt_reader := pt_reader t; pt_waiter := pt_waiter t; pt_cleaner := AwaitCleanup;
     pt_publisher := PubIdle; pt_Cleanup := pt_Cleanup t; pt_OutputOpen := pt_OutputOpen t;
     pt_published := pt_published t; pt_read := pt_read t; pt_panicked := pt_panicked t |}.

(** The read loop once its chunk is out: the next read, or the end. *)
Definition after_chunk (carry : bytes) (ended : bool) (t : PseudoTerminal) : PseudoTerminal :=
  if ended then
    match carry with
    | [] => signalCleanup (set_reader ReadDone t)
    | _ => set_reader (Flushing carry) t
    end
  else set_reader (Reading carry) t.

(** A read returned [b], together with an error or without. *)
Definition on_read (b : bytes) (ended : bool) (carry : bytes) (t : PseudoTerminal) : PseudoTerminal :=
  let '(complete, carry) := read_chunk carry b in
  match complete with
  | [] => after_chunk carry ended (heard b t)
  | _ => set_reader (Sending complete carry ended) (heard b t)
  end.

Inductive role := Reader | Waiter | Cleaner | Publisher.

(** The steps of the goroutines of one terminal that touch only it.  To unregister a topic is one
    step that can always be taken: the client waits for the router no longer than its
    [ResponseTimeout], and the error is passed over. *)
Inductive tstep : role → PseudoTerminal → PseudoTerminal → Prop :=
  | step_read t b ended carry : pt_reader t = Reading carry → tstep Reader t (on_read b ended carry t)
  | step_send t chunk carry ended : pt_reader t = Sending chunk carry ended → pt_OutputOpen t = true → pt_publisher t = PubIdle →
      tstep Reader t (after_chunk carry ended (handed_over (Data chunk) t))
  | step_send_closed t chunk carry ended : pt_reader t = Sending chunk carry ended → pt_OutputOpen t = false → tstep Reader t (panics t)
  | step_send_cancelled t chunk carry ended : pt_reader t = Sending chunk carry ended → pt_Cleanup t = true →
      tstep Reader t (set_reader ReadDone t)
  | step_flush t carry : pt_reader t = Flushing carry → pt_OutputOpen t = true → pt_publisher t = PubIdle →
      tstep Reader t (signalCleanup (set_reader ReadDone (handed_over (Data carry) t)))
  | step_flush_closed t carry : pt_reader t = Flushing carry → pt_OutputOpen t = false → tstep Reader t (panics t)
  | step_flush_cancelled t carry : pt_reader t = Flushing carry → pt_Cleanup t = true →
      tstep Reader t (signalCleanup (set_reader ReadDone t))
  | step_exit t : pt_waiter t = Waiting → tstep Waiter t (set_waiter Draining t)
  (* the read loop is done, or the grace has run out *)
  | step_drained t : pt_waiter t = Draining → tstep Waiter t (signalCleanup (set_waiter WaitDone t))
  | step_cleanup t : pt_cleaner t = AwaitCleanup → pt_Cleanup t = true → tstep Cleaner t (set_cleaner AwaitReader t)
  | step_reader_done t : pt_cleaner t = AwaitReader → pt_reader t = ReadDone → tstep Cleaner t (set_cleaner (PublishEof true) t)
  | step_reader_late t : pt_cleaner t = AwaitReader → tstep Cleaner t (set_cleaner (PublishEof false) t)
  | step_eof t f : pt_cleaner t = PublishEof f → pt_OutputOpen t = true → pt_publisher t = PubIdle →
      tstep Cleaner t (set_cleaner (Unregister f) (handed_over TERMINAL_EOF t))
  | step_eof_closed t f : pt_cleaner t = PublishEof f → pt_OutputOpen t = false → tstep Cleaner t (panics t)
  | step_eof_late t f : pt_cleaner t = PublishEof f → tstep Cleaner t (set_cleaner (Unregister f) t)
  | step_unregister t f : pt_cleaner t = Unregister f → tstep Cleaner t (set_cleaner (CloseOutput f) t)
  | step_close t : pt_cleaner t = CloseOutput true → tstep Cleaner t (set_cleaner Evict (close_output t))
  | step_leave_open t : pt_cleaner t = CloseOutput false → tstep Cleaner t (set_cleaner Evict t)
  | step_published t : pt_publisher t = PubBusy → tstep Publisher t (set_publisher PubIdle t)
  | step_pub_end t : pt_publisher t = PubIdle → pt_OutputOpen t = false → tstep Publisher t (set_publisher PubDone t).

(** ** The process: terminals, the registry and the calls that ask for one *)

Inductive init_call := OwesSetup (p : nat) | Answered (session : string) | NoShell.

Record Terminals := {
  terminals : list PseudoTerminal;
  pseudoTerminals : gmap string nat;
  calls : list init_call;
}.

Definition put_terminal (p : nat) (t : PseudoTerminal) (w : Terminals) : Terminals :=
  {| terminals := <[p := t]> (terminals w); pseudoTerminals := pseudoTerminals w; calls := calls w |}.

(** [GetOrCreatePseudoTerminal] by one call, atomic under its mutex: the live terminal of
    the caller as it is, or a new one that its creator still has to set up. *)
Definition GetOrCreatePseudoTerminal (id : string) (shell_starts : bool) (w : Terminals) : Terminals :=
  match pseudoTerminals w !! id with
  | Some p =>
      {| terminals := terminals w; pseudoTerminals := pseudoTerminals w;
         calls := calls w ++ [Answered (default "" (pt_SessionID <$> terminals w !! p))] |}
  | None =>
      if shell_starts then
        let p := length (terminals w) in
        {| terminals := terminals w ++ [newPseudoTerminal id]; pseudoTerminals := <[id := p]> (pseudoTerminals w);
           calls := calls w ++ [OwesSetup p] |}
      else {| terminals := terminals w; pseudoTerminals := pseudoTerminals w; calls := calls w ++ [NoShell] |}
  end.

(** The creator's [Setup], which answers its call. *)
Definition run_setup (c : nat) (p : nat) (t : PseudoTerminal) (session : string) (w : Terminals) : Terminals :=
  {| terminals := <[p := Setup session t]> (terminals w); pseudoTerminals := pseudoTerminals w;
     calls := <[c := Answered session]> (calls w) |}.

(** The last step of the teardown: only the terminal itself is taken out. *)
Definition evict (p : nat) (t : PseudoTerminal) (w : Terminals) : Terminals :=
  {| terminals := <[p := set_cleaner CleanDone t]> (terminals w);
     pseudoTerminals := if decide (pseudoTerminals w !! pt_Id t = Some p) then delete (pt_Id t) (pseudoTerminals w) else pseudoTerminals w;
     calls := calls w |}.

Inductive wstep : Terminals → Terminals → Prop :=
  | wstep_init w id starts : wstep w (GetOrCreatePseudoTerminal id starts w)
  | wstep_setup w c p t session : calls w !! c = Some (OwesSetup p) → terminals w !! p = Some t → wstep w (run_setup c p t session w)
  | wstep_terminal w p t t' r : terminals w !! p = Some t → tstep r t t' → wstep w (put_terminal p t' w)
  | wstep_evict w p t : terminals w !! p = Some t → pt_cleaner t = Evict → wstep w (evict p t w).

Definition fresh_process : Terminals := {| terminals := []; pseudoTerminals := ∅; calls := [] |}.

Definition reached (w : Terminals) : Prop := rtc wstep fresh_process w.

(** [ReregisterControlTopics]: after a reconnect every terminal of the registry registers
    its topics again, in the order the map is ranged over. *)
Definition ReregisterControlTopics (order : list string) (w : Terminals) : list string :=
  omap (λ id, p ← pseudoTerminals w !! id; t ← terminals w !! p; Some (pt_SessionID t)) order.
