(* ===== verification/TerminalSpec.v ===== *)
(** * What a terminal shows is what its shell said

    The published text is valid wherever the shell's is and loses nothing; the goroutines
    of a teardown never panic and always finish. *)
From S2P Require Import Prelude Errdefs GoValue Common WampValues Terminals.
#[local] Open Scope Z_scope.
#[local] Open Scope list_scope.

(** ** UTF-8 *)

Definition in_range (lo hi c : Z) : bool := (lo <=? c) && (c <=? hi).
Definition continuation : Z → bool := in_range 128 191.

(** The encodings of the runes, without surrogates and overlong forms. *)
Definition is_rune (r : bytes) : bool :=
  match r with
  | [a] => in_range 0 127 a
  | [a; b] => in_range 194 223 a && continuation b
  | [a; b; c] =>
      ((a =? 224) && in_range 160 191 b || in_range 225 236 a && continuation b
       || (a =? 237) && in_range 128 159 b || in_range 238 239 a && continuation b) && continuation c
  | [a; b; c; d] =>
      ((a =? 240) && in_range 144 191 b || in_range 241 243 a && continuation b
       || (a =? 244) && in_range 128 143 b) && continuation c && continuation d
  | _ => false
  end.

Inductive utf8 : bytes → Prop :=
  | utf8_nil : utf8 []
  | utf8_cons r s : is_rune r = true → utf8 s → utf8 (r ++ s).

(** [utf8.Valid]. *)
Fixpoint Valid (s : bytes) : bool :=
  match s with
  | [] => true
  | a :: s =>
      is_rune [a] && Valid s
      || match s with
         | [] => false
         | b :: s =>
             is_rune [a; b] && Valid s
             || match s with
                | [] => false
                | c :: s => is_rune [a; b; c] && Valid s
                    || match s with [] => false | d :: s => is_rune [a; b; c; d] && Valid s end
                end
         end
  end.

Lemma Valid_utf8 s : Valid s = true → utf8 s.
Proof.
  induction s as [s IH] using (induction_ltof1 _ (@length Z)); unfold ltof in IH.
  assert (∀ r s' : bytes, r ≠ [] → s = r ++ s' → is_rune r && Valid s' = true → utf8 s) as Hstep.
  { intros r s' Hr -> [Hrune Hv]%andb_prop. apply utf8_cons; [done|]. apply IH; [|done].
    rewrite length_app. destruct r; [done|simpl; lia]. }
  destruct s as [|a s]; [constructor|]. cbn [Valid]. intros [H|H]%orb_prop; [by eapply (Hstep [a])|].
  destruct s as [|b s]; [done|]. apply orb_prop in H as [H|H]; [by eapply (Hstep [a; b])|].
  destruct s as [|c s]; [done|]. apply orb_prop in H as [H|H]; [by eapply (Hstep [a; b; c])|].
  destruct s as [|d s]; [done|]. by eapply (Hstep [a; b; c; d]).
Qed.

Lemma utf8_Valid s : utf8 s → Valid s = true.
Proof.
  induction 1 as [|r s Hr Hs IH]; [done|].
  destruct r as [|a [|b [|c [|d [|]]]]]; try discriminate Hr; cbn [app Valid]; rewrite Hr, IH; cbn [andb];
    rewrite ?orb_true_r; reflexivity.
Qed.

(** ** Bytes of runes *)

Lemma all_bytes (f : Z → bool) lo hi : forallb f (seqZ lo (hi - lo + 1)) = true → ∀ a, in_range lo hi a = true → f a = true.
Proof.
  intros Hf a [H1 H2]%andb_prop. rewrite forallb_forall in Hf. apply Hf. apply list_elem_of_In, elem_of_seqZ.
  apply Z.leb_le in H1, H2. lia.
Qed.

Lemma continuation_start c : continuation c = true → RuneStart c = false.
Proof. intros Hc. apply negb_true_iff. by apply (all_bytes (λ c, negb (RuneStart c)) 128 191). Qed.

Definition opens (n : nat) (a : Z) : bool := RuneStart a && (runeLen a =? n)%nat.
Lemma opens_1 a : in_range 0 127 a = true → opens 1 a = true. Proof. by apply all_bytes. Qed.
Lemma opens_2 a : in_range 194 223 a = true → opens 2 a = true. Proof. by apply all_bytes. Qed.
Lemma opens_3 a : in_range 224 239 a = true → opens 3 a = true. Proof. by apply all_bytes. Qed.
Lemma opens_4 a : in_range 240 244 a = true → opens 4 a = true. Proof. by apply all_bytes. Qed.

Ltac by_ranges :=
  repeat match goal with
  | H : _ && _ = true |- _ => apply andb_prop in H as [? ?]
  | H : _ || _ = true |- _ => apply orb_prop in H as [?|?]
  | H : (_ =? _) = true |- _ => apply Z.eqb_eq in H; subst
  end.

(** A rune opens with a start byte that tells its length and goes on with others. *)
Lemma rune_shape r : is_rune r = true →
  ∃ a t, r = a :: t ∧ RuneStart a = true ∧ runeLen a = length r ∧ Forall (λ c, RuneStart c = false) t ∧ (length t ≤ 3)%nat.
Proof.
  assert (∀ a n, opens n a = true → RuneStart a = true ∧ runeLen a = n) as Ho.
  { intros a n [H1 H2]%andb_prop. by apply Nat.eqb_eq in H2. }
  assert (∀ lo hi c, 128 ≤ lo → hi ≤ 191 → in_range lo hi c = true → RuneStart c = false) as Hc.
  { intros lo hi c H1 H2 [H3 H4]%andb_prop. apply continuation_start. apply Z.leb_le in H3, H4. apply andb_true_intro.
    split; apply Z.leb_le; lia. }
  assert (∀ lo hi lo' hi' a, lo' ≤ lo → hi ≤ hi' → in_range lo hi a = true → in_range lo' hi' a = true) as Hw.
  { intros lo hi lo' hi' a H1 H2 [H3 H4]%andb_prop. apply Z.leb_le in H3, H4. apply andb_true_intro. split; apply Z.leb_le; lia. }
  intros Hr. destruct r as [|a [|b [|c [|d [|]]]]]; try discriminate Hr; cbn in Hr; exists a; eexists; split; try reflexivity.
  - destruct (Ho a 1%nat (opens_1 _ Hr)). repeat split; try done; simpl; lia.
  - apply andb_prop in Hr as [Ha Hb]. destruct (Ho a 2%nat (opens_2 _ Ha)).
    repeat split; try done; try (simpl; lia). repeat (constructor || by apply (Hc 128 191)).
  - apply andb_prop in Hr as [Hab Hc']. assert (in_range 224 239 a = true ∧ continuation b = true) as [Ha Hb].
    { by_ranges; split; try reflexivity; try (eapply Hw; [| |eassumption]; lia); try assumption;
        unfold continuation; (eapply Hw; [| |eassumption]; lia). }
    destruct (Ho a 3%nat (opens_3 _ Ha)). repeat split; try done; try (simpl; lia).
    repeat (constructor || by apply (Hc 128 191)).
  - apply andb_prop in Hr as [[Hab Hc']%andb_prop Hd]. assert (in_range 240 244 a = true ∧ continuation b = true) as [Ha Hb].
    { by_ranges; split; try reflexivity; try (eapply Hw; [| |eassumption]; lia); try assumption;
        unfold continuation; (eapply Hw; [| |eassumption]; lia). }
    destruct (Ho a 4%nat (opens_4 _ Ha)). repeat split; try done; try (simpl; lia).
    repeat (constructor || by apply (Hc 128 191)).
Qed.

(** ** The cut *)

Lemma split_scan_app fuel i pre c (conts : bytes) : length conts = i →
  split_scan (S fuel) i (pre ++ c :: conts) =
    if negb (RuneStart c) then split_scan fuel (S i) (pre ++ c :: conts)
    else if (S i <? runeLen c)%nat then (pre, c :: conts) else (pre ++ c :: conts, []).
Proof.
  intros Hl. cbn [split_scan]. rewrite length_app. cbn [length]. rewrite Hl.
  rewrite (proj2 (Nat.ltb_lt _ _)) by lia.
  replace (length pre + S i - 1 - i)%nat with (length pre) by lia.
  rewrite nth_middle. rewrite take_app_length, drop_app_length. done.
Qed.

(** Only the last start byte matters, if it is among the last four bytes. *)
Lemma split_at_start pre s (conts : bytes) : RuneStart s = true → Forall (λ c, RuneStart c = false) conts → (length conts ≤ 3)%nat →
  splitTrailingPartialRune (pre ++ s :: conts) =
    if (S (length conts) <? runeLen s)%nat then (pre, s :: conts) else (pre ++ s :: conts, []).
Proof.
  intros Hs Hc Hl. unfold splitTrailingPartialRune, UTFMax.
  assert (∀ done todo fuel, Forall (λ c, RuneStart c = false) todo → (length todo < fuel)%nat →
    split_scan fuel (length done) (pre ++ s :: todo ++ done) =
      if (S (length (todo ++ done)) <? runeLen s)%nat then (pre, s :: todo ++ done) else (pre ++ s :: todo ++ done, [])) as Hgo.
  { intros done todo. revert done. induction todo as [|c todo IH] using rev_ind; intros done fuel Ht Hf.
    - destruct fuel as [|fuel]; [simpl in Hf; lia|]. cbn [app]. rewrite (split_scan_app fuel (length done)) by done. by rewrite Hs.
    - rewrite length_app in Hf. simpl in Hf. destruct fuel as [|fuel]; [lia|].
      apply Forall_app in Ht as [Ht Hc1]. apply Forall_cons in Hc1 as [Hc1 _].
      rewrite <- app_assoc. cbn [app].
      replace (pre ++ s :: todo ++ c :: done) with ((pre ++ s :: todo) ++ c :: done) by (by rewrite <- app_assoc).
      rewrite split_scan_app by done. rewrite Hc1. cbn [negb]. rewrite <- app_assoc. cbn [app].
      apply (IH (c :: done)); [done|lia]. }
  specialize (Hgo [] conts 4%nat Hc ltac:(lia)). by rewrite app_nil_r in Hgo.
Qed.

Lemma split_scan_spec fuel i b c p : split_scan fuel i b = (c, p) → b = c ++ p ∧ (length p ≤ 3)%nat.
Proof.
  revert i. induction fuel as [|fuel IH]; intros i; cbn [split_scan]; [intros [= <- <-]; rewrite app_nil_r; split; [done|simpl; lia]|].
  destruct (Nat.ltb_spec i (length b)) as [Hi|]; [|intros [= <- <-]; rewrite app_nil_r; split; [done|simpl; lia]].
  destruct (negb _); [apply IH|].
  destruct (Nat.ltb_spec (S i) (runeLen (nth (length b - 1 - i) b 0%Z))) as [Hl|];
    intros [= <- <-]; [|rewrite app_nil_r; split; [done|simpl; lia]].
  split; [by rewrite take_drop|]. rewrite length_skipn.
  assert (runeLen (nth (length b - 1 - i) b 0%Z) ≤ 4)%nat; [|lia].
  unfold runeLen. repeat case_match; lia.
Qed.

(** What is carried starts a rune and does not finish it. *)
Definition partial_rune (p : bytes) : Prop := p = [] ∨ ∃ t, t ≠ [] ∧ is_rune (p ++ t) = true.

Lemma rune_cons r : is_rune r = true → r ≠ [].
Proof. by destruct r. Qed.

Lemma utf8_partial_nil p : partial_rune p → utf8 p → p = [].
Proof.
  intros [->|(t & Ht & Hr)] Hp; [done|]. destruct Hp as [|r s Hr' _]; [done|exfalso].
  destruct (rune_shape _ Hr) as (a & l & E & _ & Hl & _). destruct (rune_shape _ Hr') as (a' & l' & -> & _ & Hl' & _).
  cbn in E. injection E as <- E. rewrite Hl' in Hl. rewrite !length_app in Hl. destruct t; [done|]. simpl in Hl. lia.
Qed.

Lemma utf8_cut s : utf8 s → ∀ b rest, s = b ++ rest →
  ∃ pre p, b = pre ++ p ∧ utf8 pre ∧ utf8 (p ++ rest) ∧ partial_rune p.
Proof.
  induction 1 as [|r s Hr Hs IH]; intros b rest E.
  - symmetry in E. apply app_eq_nil in E as [-> ->]. exists [], []. repeat split; try constructor. done.
  - apply app_eq_inv in E as [(k & -> & ->)|(k & -> & ->)].
    + destruct k as [|x k].
      * rewrite app_nil_r in Hr. exists b, []. rewrite app_nil_r. split; [done|]. split; [|split; [done|by left]].
        rewrite <- (app_nil_r b). by apply utf8_cons; [|constructor].
      * exists [], b. split; [done|]. split; [constructor|]. split; [rewrite app_assoc; by apply utf8_cons|].
        right. by exists (x :: k).
    + destruct (IH k rest eq_refl) as (pre & p & -> & Hpre & Hp & Hpart).
      exists (r ++ pre), p. rewrite <- app_assoc. split; [done|]. split; [by apply utf8_cons|done].
Qed.

Lemma utf8_snoc s : utf8 s → s = [] ∨ ∃ s' r, s = s' ++ r ∧ is_rune r = true.
Proof.
  induction 1 as [|r s Hr Hs IH]; [by left|right]. destruct IH as [->|(s' & r' & -> & Hr')].
  - exists [], r. by rewrite app_nil_r.
  - exists (r ++ s'), r'. by rewrite app_assoc.
Qed.

(** Of a piece of valid text the cut publishes whole runes and keeps a partial one. *)
Lemma split_utf8 b rest : utf8 (b ++ rest) →
  let '(c, p) := splitTrailingPartialRune b in utf8 c ∧ utf8 (p ++ rest) ∧ partial_rune p.
Proof.
  intros Hb. destruct (utf8_cut _ Hb b rest eq_refl) as (pre & p & -> & Hpre & Hp & Hpart).
  assert (splitTrailingPartialRune (pre ++ p) = (pre, p)) as ->; [|done].
  destruct Hpart as [->|(t & Ht & Hr)].
  - rewrite app_nil_r. destruct (utf8_snoc _ Hpre) as [->|(s' & r & -> & Hr)]; [done|].
    destruct (rune_shape _ Hr) as (a & l & -> & Ha & Hl & Hc & Hlen).
    rewrite split_at_start by done. rewrite Hl. cbn [length]. by rewrite Nat.ltb_irrefl.
  - destruct (rune_shape _ Hr) as (a & l & E & Ha & Hl & Hc & Hlen).
    destruct p as [|x p].
    + (* nothing is carried: the rune is all to come *)
      rewrite app_nil_r. destruct (utf8_snoc _ Hpre) as [->|(s' & r & -> & Hr')]; [done|].
      destruct (rune_shape _ Hr') as (a' & l' & -> & Ha' & Hl' & Hc' & Hlen').
      rewrite split_at_start by done. rewrite Hl'. cbn [length]. by rewrite Nat.ltb_irrefl.
    + cbn in E. injection E as -> <-. apply Forall_app in Hc as [Hc _]. rewrite length_app in Hlen.
      rewrite split_at_start by (done || lia). rewrite Hl. cbn [app length]. rewrite length_app.
      rewrite (proj2 (Nat.ltb_lt _ _)); [done|]. destruct t; [done|simpl; lia].
Qed.

Lemma read_chunk_app carry buffer c p : (length carry ≤ 3)%nat → read_chunk carry buffer = (c, p) →
  carry ++ buffer = c ++ p ∧ (length p ≤ 3)%nat.
Proof.
  intros Hcarry. unfold read_chunk. destruct buffer as [|x buffer]; [intros [= <- <-]; by rewrite app_nil_r|].
  destruct (splitTrailingPartialRune _) as [c' p'] eqn:E. apply split_scan_spec in E as [E Hl]. intros [= <- <-].
  rewrite take_ge by (unfold UTFMax; lia). done.
Qed.

Lemma read_chunk_utf8 carry buffer rest : (length carry ≤ 3)%nat → partial_rune carry → utf8 (carry ++ buffer ++ rest) →
  let '(c, p) := read_chunk carry buffer in utf8 c ∧ utf8 (p ++ rest) ∧ partial_rune p.
Proof.
  intros Hcarry Hpart Hu. unfold read_chunk. destruct buffer as [|x buffer]; [repeat split; [constructor|done..]|].
  rewrite app_assoc in Hu. pose proof (split_utf8 _ _ Hu) as Hs.
  destruct (splitTrailingPartialRune _) as [c p] eqn:E. apply split_scan_spec in E as [_ Hl].
  by rewrite take_ge by (unfold UTFMax; lia).
Qed.

Lemma session_text_spec reads : ∀ carry, (length carry ≤ 3)%nat →
  let '(out, carry') := session_text carry reads in
  concat out ++ carry' = carry ++ concat reads ∧ (length carry' ≤ 3)%nat ∧ Forall (.≠ []) out
  ∧ ∀ rest, partial_rune carry → utf8 (carry ++ concat reads ++ rest) → Forall utf8 out ∧ utf8 (carry' ++ rest) ∧ partial_rune carry'.
Proof.
  induction reads as [|b reads IH]; intros carry Hl; cbn [session_text concat].
  { rewrite app_nil_r. repeat split; auto. }
  destruct (read_chunk carry b) as [c p] eqn:E. destruct (read_chunk_app _ _ _ _ Hl E) as [Ha Hp].
  specialize (IH p Hp). destruct (session_text p reads) as [out carry'] eqn:Es. destruct IH as (Hc & Hl' & Hne & Hu).
  split; [|split; [done|split]].
  - rewrite app_assoc, Ha. rewrite <- app_assoc, <- Hc. by destruct c; cbn [concat app]; rewrite <- ?app_assoc.
  - destruct c; [done|]. by constructor.
  - intros rest Hpart Hv. rewrite <- app_assoc in Hv. pose proof (read_chunk_utf8 _ _ _ Hl Hpart Hv) as Hr. rewrite E in Hr.
    destruct Hr as (Huc & Hup & Hpp). destruct (Hu rest Hpp Hup) as (Ho & Hr & Hp').
    split; [|done]. destruct c; [done|]. by constructor.
Qed.

(** C23: what a terminal shows is what its shell said: however the output falls into reads,
    the published chunks put together are the output, at most three bytes are held back at
    any time and none at the end; and wherever the shell writes valid UTF-8, no chunk cuts a
    character in two, so that every chunk is valid by itself. *)
Theorem terminal_text_intact reads :
  let '(out, carry) := session_text [] reads in
  concat (session_output reads) = concat reads
  ∧ concat out ++ carry = concat reads ∧ (length carry ≤ 3)%nat
  ∧ (∀ rest, Valid (concat reads ++ rest) = true → Forall (λ chunk, Valid chunk = true) out)
  ∧ (Valid (concat reads) = true → session_output reads = out).
Proof.
  pose proof (session_text_spec reads [] ltac:(simpl; lia)) as Hs. unfold session_output.
  destruct (session_text [] reads) as [out carry]. destruct Hs as (Hc & Hl & _ & Hu). cbn [app] in *.
  split; [|split; [done|split; [done|split]]].
  - destruct carry; [by rewrite app_nil_r in Hc|]. rewrite concat_app. cbn [concat]. by rewrite app_nil_r.
  - intros rest Hv. destruct (Hu rest (or_introl eq_refl) (Valid_utf8 _ Hv)) as [Ho _].
    eapply Forall_impl; [exact Ho|]. apply utf8_Valid.
  - intros Hv. destruct (Hu [] (or_introl eq_refl)) as (_ & Hr & Hp); [rewrite app_nil_r; by apply Valid_utf8|].
    rewrite app_nil_r in Hr. by rewrite (utf8_partial_nil _ Hp Hr).
Qed.

(** ** Resizing *)

Definition dimension (n : Z) : bool := in_range 1 maxTerminalDimension n.

Lemma int64_wrap_small n : 0 ≤ n < 2 ^ 63 → int64_wrap n = n.
Proof. intros Hn. unfold int64_wrap. rewrite Z.mod_small by lia. cbn zeta. by rewrite (proj2 (Z.ltb_lt _ _)) by lia. Qed.

Lemma int64_wrap_large n : 2 ^ 63 ≤ n < 2 ^ 64 → int64_wrap n < 0.
Proof.
  intros Hn. unfold int64_wrap. rewrite Z.mod_small by lia. cbn zeta. rewrite (proj2 (Z.ltb_ge _ _)) by lia. lia.
Qed.

Lemma parseDimension_range ovf v n : parseDimension ovf v = inl n → 0 ≤ n ≤ maxTerminalDimension.
Proof.
  unfold parseDimension. intros H.
  assert (∀ m, (if (m <? 0) || (maxTerminalDimension <? m) then inr (Plain ("out of range: " +:+ pretty m)) else inl m) = inl n →
    0 ≤ n ≤ maxTerminalDimension) as Hb.
  { intros m. destruct (Z.ltb_spec m 0); [done|]. destruct (Z.ltb_spec maxTerminalDimension m); [done|]. intros [= <-]. lia. }
  destruct v; try discriminate H; by apply Hb in H.
Qed.

Lemma parseDimension_uint ovf h : (h < 2 ^ 64)%N →
  parseDimension ovf (WU64 h) = if Z.of_N h <=? maxTerminalDimension then inl (Z.of_N h) else parseDimension ovf (WU64 h).
Proof.
  intros Hh. destruct (Z.leb_spec (Z.of_N h) maxTerminalDimension) as [Hm|]; [|done]. unfold maxTerminalDimension in *.
  unfold parseDimension. rewrite int64_wrap_small by lia. destruct (Z.ltb_spec (Z.of_N h) 0); [lia|].
  by destruct (Z.ltb_spec maxTerminalDimension (Z.of_N h)); [unfold maxTerminalDimension in *; lia|].
Qed.

Lemma parseDimension_too_large ovf h : (h < 2 ^ 64)%N → maxTerminalDimension < Z.of_N h → ∃ e, parseDimension ovf (WU64 h) = inr e.
Proof.
  intros Hh Hm. unfold maxTerminalDimension in *. unfold parseDimension.
  destruct (Z.le_gt_cases (2 ^ 63) (Z.of_N h)).
  - pose proof (int64_wrap_large (Z.of_N h) ltac:(lia)). rewrite (proj2 (Z.ltb_lt _ _)) by lia. by eexists.
  - rewrite int64_wrap_small by lia. rewrite (proj2 (Z.ltb_lt maxTerminalDimension _)) by (unfold maxTerminalDimension; lia).
    rewrite orb_true_r. by eexists.
Qed.

Lemma dimension_spec n : dimension n = true ↔ 1 ≤ n ≤ maxTerminalDimension.
Proof. unfold dimension, in_range. rewrite andb_true_iff, !Z.leb_le. done. Qed.

Lemma dimension_too_large n : maxTerminalDimension < n → dimension n = false.
Proof. intros Hn. destruct (dimension n) eqn:E; [apply dimension_spec in E; lia|done]. Qed.

Lemma clamp_spec rows cols : 0 ≤ rows → 0 ≤ cols →
  clampTerminalSize {| Rows := rows; Cols := cols |} = if dimension rows && dimension cols then Some (rows, cols) else None.
Proof.
  intros Hr Hc. unfold clampTerminalSize, dimension, in_range. cbn [Rows Cols].
  destruct (Z.eqb_spec rows 0), (Z.eqb_spec cols 0), (Z.ltb_spec maxTerminalDimension rows), (Z.ltb_spec maxTerminalDimension cols),
    (Z.leb_spec 1 rows), (Z.leb_spec 1 cols), (Z.leb_spec rows maxTerminalDimension), (Z.leb_spec cols maxTerminalDimension);
    cbn; (done || lia).
Qed.

(** C38: a resize reaches the shell with two dimensions it accepts or not at all, whatever the
    payload holds; sizes sent as unsigned integers, however large, arrive as they were sent
    or not at all. *)
Theorem resize_well_typed ovf args :
  match shell_resize ovf args with Some (rows, cols) => dimension rows && dimension cols = true | None => True end
  ∧ ∀ h w, args = [WMap [("height", WU64 h); ("width", WU64 w)]] → (h < 2 ^ 64)%N → (w < 2 ^ 64)%N →
      shell_resize ovf args =
        if dimension (Z.of_N h) && dimension (Z.of_N w) then Some (Z.of_N h, Z.of_N w) else None.
Proof.
  split.
  - unfold shell_resize. destruct (resize_argument ovf args) as [[rows cols]|] eqn:E; [|done].
    assert (0 ≤ rows ∧ 0 ≤ cols) as [Hr Hc].
    { unfold resize_argument in E. destruct args as [|a args]; [done|]. destruct (as_plain_map a) as [m|]; [|done].
      destruct (parseDimension ovf (wget "height" m)) eqn:E1; [|done]. destruct (parseDimension ovf (wget "width" m)) eqn:E2; [|done].
      apply parseDimension_range in E1, E2. injection E as <- <-. lia. }
    rewrite clamp_spec by done. by destruct (dimension rows && dimension cols) eqn:Ed.
  - intros h w -> Hh Hw. unfold shell_resize, resize_argument. cbn [as_plain_map].
    change (wget "height" [("height", WU64 h); ("width", WU64 w)]) with (WU64 h).
    change (wget "width" [("height", WU64 h); ("width", WU64 w)]) with (WU64 w).
    rewrite (parseDimension_uint ovf h Hh), (parseDimension_uint ovf w Hw).
    destruct (Z.leb_spec (Z.of_N h) maxTerminalDimension) as [Hh'|Hh'].
    2: { destruct (parseDimension_too_large ovf h Hh Hh') as [e ->]. by rewrite dimension_too_large. }
    destruct (Z.leb_spec (Z.of_N w) maxTerminalDimension) as [Hw'|Hw'].
    2: { destruct (parseDimension_too_large ovf w Hw Hw') as [e ->]. by rewrite (dimension_too_large (Z.of_N w)), andb_false_r. }
    apply clamp_spec; lia.
Qed.

(** "né" in three reads, the last rune cut in two. *)
Lemma terminal_text_intact_witness :
  let reads := [[110]; [195]; [169; 33]] in
  Valid (concat reads) = true ∧ session_output reads = [[110]; [195; 169; 33]]
  ∧ concat (session_output reads) = [110; 195; 169; 33] ∧ Forall (λ chunk, Valid chunk = true) [[110]; [195; 169; 33]].
Proof.
  pose proof (terminal_text_intact [[110]; [195]; [169; 33]]) as H. vm_compute (session_text _ _) in H.
  destruct H as (Hc & _ & _ & Hv & _). split; [reflexivity|]. split; [reflexivity|]. split; [exact Hc|].
  apply (Hv []). vm_compute. reflexivity.
Defined.

Lemma resize_well_typed_witness :
  shell_resize (λ _ _, 0) [WMap [("height", WU64 24); ("width", WU64 80)]] = Some (24, 80).
Proof. exact (proj2 (resize_well_typed (λ _ _, 0) _) 24%N 80%N eq_refl eq_refl eq_refl). Defined.

(** A zero or enormous dimension reaches nothing. *)
Example resize_ignored :
  shell_resize (λ _ _, 0) [WMap [("height", WU64 0); ("width", WU64 80)]] = None
  ∧ shell_resize (λ _ _, 0) [WMap [("height", WU64 (2 ^ 64 - 1)); ("width", WU64 80)]] = None
  ∧ shell_resize (λ _ _, 0) [WMap [("height", WF64 24 1); ("width", WI64 80)]] = Some (24, 80).
Proof. repeat split; vm_compute; reflexivity. Qed.
