(* ===== verification/TerminalRaces.v ===== *)
(** * The goroutines of a terminal, interleaved

    Whatever the interleaving, nothing is sent on a closed channel, the published text is
    what the shell said, and a teardown that has begun always finishes and takes exactly
    its own terminal out of the registry. *)
From S2P Require Import Prelude Errdefs GoValue Common WampValues Terminals TerminalSpec.
#[local] Open Scope nat_scope.
#[local] Open Scope list_scope.

(** ** One terminal *)

Definition in_hand (r : reader) : bytes :=
  match r with Reading c => c | Sending chunk c _ => chunk ++ c | Flushing c => c | ReadDone => [] end.

Definition carried (r : reader) : nat :=
  match r with Reading c => length c | Sending _ c _ => length c | Flushing c => length c | ReadDone => 0 end.

Definition text_of (m : message) : bytes := match m with Data b => b | TERMINAL_EOF => [] end.
Definition said (l : list message) : bytes := concat (map text_of l).
#[global] Arguments said : simpl never.
Definition is_data (m : message) : Prop := m ≠ TERMINAL_EOF.

(** Data, and then perhaps the end marker, and nothing after it. *)
Definition eof_last (l : list message) : Prop := Forall is_data l ∨ ∃ d, Forall is_data d ∧ l = d ++ [TERMINAL_EOF].

(** The teardown has seen the read loop return. *)
Definition reader_seen_done (c : cleaner) : bool :=
  match c with PublishEof f | Unregister f | CloseOutput f => f | _ => false end.
(** The end marker is still to come. *)
Definition before_eof (c : cleaner) : bool :=
  match c with NotSetup | AwaitCleanup | AwaitReader | PublishEof _ => true | _ => false end.
Definition tearing_down (c : cleaner) : bool := match c with NotSetup | AwaitCleanup => false | _ => true end.
Definition closed_by (c : cleaner) : bool := match c with Evict | CleanDone => true | _ => false end.

Record terminal_ok (t : PseudoTerminal) : Prop := {
  ok_calm : pt_panicked t = false;
  ok_carried : carried (pt_reader t) ≤ 3;
  ok_said : pt_reader t ≠ ReadDone → said (pt_published t) ++ in_hand (pt_reader t) = pt_read t;
  ok_prefix : said (pt_published t) `prefix_of` pt_read t;
  ok_seen : reader_seen_done (pt_cleaner t) = true → pt_reader t = ReadDone ∧ eof_last (pt_published t);
  ok_early : before_eof (pt_cleaner t) = true → Forall is_data (pt_published t);
  ok_closed : pt_OutputOpen t = false → closed_by (pt_cleaner t) = true ∧ pt_reader t = ReadDone ∧ eof_last (pt_published t);
  ok_cleanup : tearing_down (pt_cleaner t) = true → pt_Cleanup t = true;
}.

Lemma terminal_ok_new id : terminal_ok (newPseudoTerminal id).
Proof. split; cbn; try done; try lia; try constructor. Qed.

Lemma said_app l m : said (l ++ [m]) = said l ++ text_of m.
Proof. unfold said. rewrite map_app, concat_app. cbn. by rewrite app_nil_r. Qed.

Lemma data_app l b : Forall is_data l → Forall is_data (l ++ [Data b]).
Proof. intros Hl. apply Forall_app. split; [done|]. by repeat constructor. Qed.

Lemma eof_app l : Forall is_data l → eof_last (l ++ [TERMINAL_EOF]).
Proof. intros Hl. right. by exists l. Qed.

(** The shared shape of the reader's steps: the reader changes, something may be heard or
    published, [Cleanup] may be closed. *)
Definition reader_step (r : reader) (published : list message) (cleanup : bool) (read : bytes) (t : PseudoTerminal) : Prop :=
  pt_reader t = r ∧ pt_published t = published ∧ pt_Cleanup t = cleanup ∧ pt_read t = read.

Lemma ok_reader_moves t t' : terminal_ok t → pt_reader t ≠ ReadDone →
  pt_cleaner t' = pt_cleaner t → pt_OutputOpen t' = pt_OutputOpen t → pt_panicked t' = false →
  (pt_Cleanup t = true → pt_Cleanup t' = true) → carried (pt_reader t') ≤ 3 →
  (pt_published t' = pt_published t ∨ ∃ b, pt_published t' = pt_published t ++ [Data b]) →
  (pt_reader t' ≠ ReadDone → said (pt_published t') ++ in_hand (pt_reader t') = pt_read t') →
  said (pt_published t') `prefix_of` pt_read t' → terminal_ok t'.
Proof.
  intros [] Hr Hc Ho Hp Hcl Hcar Hpub Hsaid Hpre. split; rewrite ?Hc, ?Ho; auto.
  - intros Hs. destruct (ok_seen0 Hs). congruence.
  - intros Hb. specialize (ok_early0 Hb). destruct Hpub as [->|[b ->]]; [done|by apply data_app].
  - intros Hcl'. destruct (ok_closed0 Hcl') as (_ & ? & _). congruence.
Qed.

(** The teardown moves on; it may publish the end marker and close what it closes. *)
Lemma ok_cleaner_moves t c : terminal_ok t → (tearing_down c = true → pt_Cleanup t = true) →
  (reader_seen_done c = true → pt_reader t = ReadDone ∧ eof_last (pt_published t)) →
  (before_eof c = true → before_eof (pt_cleaner t) = true) → (closed_by (pt_cleaner t) = true → closed_by c = true) →
  terminal_ok (set_cleaner c t).
Proof. intros [] Ht Hs He Hb. split; cbn; auto. intros Hcl. destruct (ok_closed0 Hcl) as (? & ? & ?). auto. Qed.

Lemma after_chunk_reader carry ended t : pt_reader (after_chunk carry ended t) =
  if ended then match carry with [] => ReadDone | _ => Flushing carry end else Reading carry.
Proof. unfold after_chunk. by destruct ended, carry. Qed.

(** Reading and sending keep account of every byte. *)
Lemma ok_after_chunk t t0 carry ended : terminal_ok t0 → pt_reader t0 ≠ ReadDone →
  pt_cleaner t = pt_cleaner t0 → pt_OutputOpen t = pt_OutputOpen t0 → pt_panicked t = false → pt_Cleanup t = pt_Cleanup t0 →
  (pt_published t = pt_published t0 ∨ ∃ b, pt_published t = pt_published t0 ++ [Data b]) →
  length carry ≤ 3 → said (pt_published t) ++ carry = pt_read t → terminal_ok (after_chunk carry ended t).
Proof.
  intros Hok Hr Hc Ho Hp Hcl Hpub Hl Hs.
  assert (said (pt_published t) `prefix_of` pt_read t) as Hpre by (exists carry; by rewrite Hs).
  unfold after_chunk. destruct ended; [destruct carry|]; apply (ok_reader_moves t0); cbn in *; rewrite ?Hcl; auto; try lia; try done.
Qed.

Lemma ok_read t b ended carry : terminal_ok t → pt_reader t = Reading carry → terminal_ok (on_read b ended carry t).
Proof.
  intros Hok Hr. pose proof Hok as []. rewrite Hr in *. cbn [in_hand carried] in *.
  specialize (ok_said0 ltac:(done)). unfold on_read. destruct (read_chunk carry b) as [c p] eqn:E.
  destruct (read_chunk_app _ _ _ _ ok_carried0 E) as [Ha Hp].
  assert (said (pt_published t) ++ c ++ p = pt_read t ++ b) as Hs by (by rewrite <- ok_said0, <- Ha, app_assoc).
  destruct c as [|x c].
  - apply (ok_after_chunk _ t); try done; [by rewrite Hr|by left].
  - apply (ok_reader_moves t); cbn; try done; [by rewrite Hr|by left|].
    etransitivity; [exact ok_prefix0|]. by exists b.
Qed.

Lemma ok_step r t t' : tstep r t t' → terminal_ok t → terminal_ok t'.
Proof.
  intros Hs Hok. pose proof Hok as [Hcalm Hcar Hsaid Hpre Hseen Hearly Hclosed Hclean].
  destruct Hs as [t b ended carry Hr|t chunk carry ended Hr Ho Hp|t chunk carry ended Hr Ho|t chunk carry ended Hr Hc|t carry Hr Ho Hp
    |t carry Hr Ho|t carry Hr Hc|t Hw|t Hw|t Hc Hcl|t Hc Hr|t Hc|t f Hc Ho Hp|t f Hc Ho|t f Hc|t f Hc|t Hc|t Hc|t Hp|t Hp Ho].
  - by apply ok_read.
  - rewrite Hr in *. cbn in Hcar. specialize (Hsaid ltac:(done)). cbn in Hsaid.
    apply (ok_after_chunk _ t); cbn; auto; [by rewrite Hr|right; by eexists|]. rewrite said_app, <- app_assoc. exact Hsaid.
  - destruct (Hclosed Ho) as (_ & ? & _). congruence.
  - apply (ok_reader_moves t); cbn; auto; [by rewrite Hr|done].
  - rewrite Hr in *. specialize (Hsaid ltac:(done)). cbn in Hsaid.
    apply (ok_reader_moves t); cbn; auto; [by rewrite Hr|right; by eexists|done|]. rewrite said_app. cbn. rewrite Hsaid. done.
  - destruct (Hclosed Ho) as (_ & ? & _). congruence.
  - apply (ok_reader_moves t); cbn; auto; [by rewrite Hr|done].
  - by split.
  - split; cbn; auto.
  - apply ok_cleaner_moves; try done; by rewrite Hc.
  - apply ok_cleaner_moves; try done; [intros _; apply Hclean; by rewrite Hc| |by rewrite Hc|by rewrite Hc].
    intros _. split; [done|]. left. apply Hearly. by rewrite Hc.
  - apply ok_cleaner_moves; try done; [intros _; apply Hclean; by rewrite Hc|by rewrite Hc|by rewrite Hc].
  - rewrite Hc in *. assert (Forall is_data (pt_published t)) as Hd by by apply Hearly.
    split; cbn; rewrite ?said_app, ?app_nil_r; auto; try done; try congruence.
    intros ->. split; [by apply Hseen|by apply eof_app].
  - destruct (Hclosed Ho) as (He & _). rewrite Hc in He. done.
  - apply ok_cleaner_moves; try done; [intros _; apply Hclean; by rewrite Hc| |by rewrite Hc].
    cbn. intros ->. apply Hseen. by rewrite Hc.
  - apply ok_cleaner_moves; try done; [intros _; apply Hclean; by rewrite Hc| |by rewrite Hc].
    cbn. intros ->. apply Hseen. by rewrite Hc.
  - rewrite Hc in *. destruct (Hseen eq_refl) as [Hr He]. destruct (pt_OutputOpen t) eqn:Ho.
    2: { destruct (Hclosed eq_refl) as (? & _). done. }
    split; cbn; auto; try done. by rewrite Hcalm, Ho.
  - apply ok_cleaner_moves; try done. intros _. apply Hclean. by rewrite Hc.
  - by split.
  - by split.
Qed.

(** ** All terminals *)

(** How far the teardown of a terminal is from its end. *)
Definition rank (c : cleaner) : nat :=
  match c with
  | NotSetup => 7 | AwaitCleanup => 6 | AwaitReader => 5 | PublishEof _ => 4 | Unregister _ => 3 | CloseOutput _ => 2
  | Evict => 1 | CleanDone => 0
  end.

Lemma rank_bound c : rank c ≤ 7.
Proof. destruct c; simpl; lia. Qed.

Lemma rank_zero c : rank c ≤ 0 → c = CleanDone.
Proof. destruct c; simpl; (done || lia). Qed.

Lemma tstep_frame r t t' : tstep r t t' → pt_Id t' = pt_Id t ∧ pt_SessionID t' = pt_SessionID t
  ∧ (pt_cleaner t' = NotSetup ↔ pt_cleaner t = NotSetup) ∧ (pt_cleaner t' = CleanDone ↔ pt_cleaner t = CleanDone)
  ∧ (pt_Cleanup t = true → pt_Cleanup t' = true) ∧ rank (pt_cleaner t') ≤ rank (pt_cleaner t)
  ∧ (r = Cleaner → terminal_ok t → rank (pt_cleaner t') < rank (pt_cleaner t)).
Proof.
  intros Hs. destruct Hs; unfold on_read, after_chunk; repeat case_match; cbn;
    repeat match goal with H : pt_cleaner _ = _ |- _ => rewrite H; cbn end;
    repeat split; try done; try lia.
  intros _ Hok. destruct (ok_closed _ Hok) as [He _]; [done|]. by rewrite H in He.
Qed.

Record world_ok (w : Terminals) : Prop := {
  wo_terminals : ∀ p t, terminals w !! p = Some t →
    terminal_ok t ∧ (pt_cleaner t ≠ CleanDone → pseudoTerminals w !! pt_Id t = Some p);
  wo_registry : ∀ id p, pseudoTerminals w !! id = Some p →
    ∃ t, terminals w !! p = Some t ∧ pt_Id t = id ∧ pt_cleaner t ≠ CleanDone;
  wo_owed : ∀ c p, calls w !! c = Some (OwesSetup p) → ∃ t, terminals w !! p = Some t ∧ pt_cleaner t = NotSetup;
  wo_once : ∀ c c' p, calls w !! c = Some (OwesSetup p) → calls w !! c' = Some (OwesSetup p) → c = c';
  wo_setup : ∀ p t, terminals w !! p = Some t → pt_cleaner t = NotSetup → ∃ c, calls w !! c = Some (OwesSetup p);
}.

Lemma world_ok_fresh : world_ok fresh_process.
Proof. split; cbn; intros *; rewrite ?lookup_nil, ?lookup_empty; done. Qed.

(** A call that is answered at once only grows the list of calls. *)
Lemma world_ok_answer w a : world_ok w → (∀ p, a ≠ OwesSetup p) →
  world_ok {| terminals := terminals w; pseudoTerminals := pseudoTerminals w; calls := calls w ++ [a] |}.
Proof.
  intros [Ht Hr Ho Hn Hs] Ha.
  assert (∀ c p, (calls w ++ [a]) !! c = Some (OwesSetup p) → calls w !! c = Some (OwesSetup p)) as Hl.
  { intros c p [Hc|[_ Hc]]%lookup_app_Some; [done|]. apply list_lookup_singleton_Some in Hc as [_ Hc]. by destruct (Ha p). }
  split; cbn; eauto. intros p t Hp Hc. destruct (Hs p t Hp Hc) as [c Hc']. exists c. by apply lookup_app_l_Some.
Qed.

Lemma world_ok_create w id : world_ok w → pseudoTerminals w !! id = None → world_ok (GetOrCreatePseudoTerminal id true w).
Proof.
  intros [Ht Hr Ho Hn Hs] Hid. unfold GetOrCreatePseudoTerminal. rewrite Hid.
  assert (∀ p t, terminals w !! p = Some t → p ≠ length (terminals w)) as Hold
    by (intros p t Hp%lookup_lt_Some; lia).
  assert (∀ p t, (terminals w ++ [newPseudoTerminal id]) !! p = Some t →
    terminals w !! p = Some t ∨ p = length (terminals w) ∧ t = newPseudoTerminal id) as Hl.
  { intros p t [Hp|[Hp Hq]]%lookup_app_Some; [by left|right]. apply list_lookup_singleton_Some in Hq as [Hq ->]. split; [lia|done]. }
  assert (∀ c p, (calls w ++ [OwesSetup (length (terminals w))]) !! c = Some (OwesSetup p) →
    calls w !! c = Some (OwesSetup p) ∨ c = length (calls w) ∧ p = length (terminals w)) as Hlc.
  { intros c p [Hc|[Hge Hc]]%lookup_app_Some; [by left|right]. apply list_lookup_singleton_Some in Hc as [Hc [= ->]]. split; [lia|done]. }
  assert (∀ c p, calls w !! c = Some (OwesSetup p) → p ≠ length (terminals w)) as Hnew.
  { intros c p Hc. destruct (Ho c p Hc) as (t & Hp & _). by eapply Hold. }
  split; cbn.
  - intros p t [Hp|[-> ->]]%Hl.
    + destruct (Ht p t Hp) as [Hok Hreg]. split; [done|]. intros Hc. specialize (Hreg Hc).
      rewrite lookup_insert_ne; [done|]. intros E. congruence.
    + split; [apply terminal_ok_new|]. intros _. apply lookup_insert_eq.
  - intros id' p [[<- <-]|[Hne Hp]]%lookup_insert_Some.
    + exists (newPseudoTerminal id). split; [|done]. rewrite lookup_app_r by lia. by rewrite Nat.sub_diag.
    + destruct (Hr id' p Hp) as (t & Hp' & ?). exists t. split; [by apply lookup_app_l_Some|done].
  - intros c p [Hc|[-> ->]]%Hlc.
    + destruct (Ho c p Hc) as (t & Hp & ?). exists t. split; [by apply lookup_app_l_Some|done].
    + exists (newPseudoTerminal id). split; [|done]. rewrite lookup_app_r by lia. by rewrite Nat.sub_diag.
  - intros c c' p [Hc|[-> ->]]%Hlc [Hc'|[-> E]]%Hlc; [by eapply Hn|by destruct (Hnew _ _ Hc)|by destruct (Hnew _ _ Hc')|done].
  - intros p t [Hp|[-> ->]]%Hl Hc.
    + destruct (Hs p t Hp Hc) as [c ?]. exists c. by apply lookup_app_l_Some.
    + exists (length (calls w)). rewrite lookup_app_r by lia. by rewrite Nat.sub_diag.
Qed.

(** One terminal moves without being set up, evicted or renamed. *)
Lemma world_ok_put w p t t' : world_ok w → terminals w !! p = Some t → terminal_ok t' → pt_Id t' = pt_Id t →
  (pt_cleaner t' = NotSetup ↔ pt_cleaner t = NotSetup) → (pt_cleaner t' = CleanDone ↔ pt_cleaner t = CleanDone) →
  world_ok (put_terminal p t' w).
Proof.
  intros [Ht Hr Ho Hn Hs] Hp Hok Hid Hns Hcd. pose proof (lookup_lt_Some _ _ _ Hp) as Hlt. split; cbn.
  - intros q u [(-> & -> & _)|[Hne Hq]]%list_lookup_insert_Some; [|by apply Ht].
    split; [done|]. rewrite Hid, Hcd. by apply Ht.
  - intros id q Hq. destruct (Hr id q Hq) as (u & Hu & ? & ?). destruct (decide (q = p)) as [->|Hne].
    + exists t'. rewrite list_lookup_insert_eq by done. simplify_eq. rewrite Hcd, Hid. done.
    + exists u. by rewrite list_lookup_insert_ne.
  - intros c q Hc. destruct (Ho c q Hc) as (u & Hu & ?). destruct (decide (q = p)) as [->|Hne].
    + exists t'. rewrite list_lookup_insert_eq by done. simplify_eq. by rewrite Hns.
    + exists u. by rewrite list_lookup_insert_ne.
  - done.
  - intros q u [(-> & -> & _)|[Hne Hq]]%list_lookup_insert_Some Hc; [|by eapply Hs].
    apply (Hs q t); [done|]. by apply Hns.
Qed.

Lemma world_ok_setup w c p t session : world_ok w → calls w !! c = Some (OwesSetup p) → terminals w !! p = Some t →
  world_ok (run_setup c p t session w).
Proof.
  intros [Ht Hr Ho Hn Hs] Hc Hp. destruct (Ht p t Hp) as [Hok Hreg].
  destruct (Ho c p Hc) as (t0 & Hp0 & Hns). simplify_eq. specialize (Hreg ltac:(congruence)).
  pose proof (lookup_lt_Some _ _ _ Hp) as Hlt. pose proof (lookup_lt_Some _ _ _ Hc) as Hltc.
  assert (terminal_ok (Setup session t)) as Hok'.
  { destruct Hok. rewrite Hns in *. split; cbn; auto; try done. }
  assert (∀ c' q, <[c:=Answered session]> (calls w) !! c' = Some (OwesSetup q) → c' ≠ c ∧ calls w !! c' = Some (OwesSetup q)) as Hl.
  { intros c' q [(-> & ? & _)|[? ?]]%list_lookup_insert_Some; [done|by split]. }
  split; cbn.
  - intros q u [(<- & <- & _)|[Hne Hq]]%list_lookup_insert_Some; [|by apply Ht]. by split.
  - intros id q Hq. destruct (Hr id q Hq) as (u & Hu & ? & ?). destruct (decide (q = p)) as [->|Hne].
    + exists (Setup session t). rewrite list_lookup_insert_eq by done. by simplify_eq.
    + exists u. by rewrite list_lookup_insert_ne.
  - intros c' q [Hne Hc']%Hl. destruct (Ho c' q Hc') as (u & Hu & ?). exists u. rewrite list_lookup_insert_ne; [done|].
    intros <-. by destruct Hne; eapply Hn.
  - intros c1 c2 q [_ H1]%Hl [_ H2]%Hl. by eapply Hn.
  - intros q u [(<- & <- & _)|[Hne Hq]]%list_lookup_insert_Some Hc'; [done|]. destruct (Hs q u Hq Hc') as [c' Hc''].
    exists c'. rewrite list_lookup_insert_ne; [done|]. intros <-. congruence.
Qed.

Lemma world_ok_evict w p t : world_ok w → terminals w !! p = Some t → pt_cleaner t = Evict → world_ok (evict p t w).
Proof.
  intros [Ht Hr Ho Hn Hs] Hp He. destruct (Ht p t Hp) as [Hok Hreg]. specialize (Hreg ltac:(congruence)).
  pose proof (lookup_lt_Some _ _ _ Hp) as Hlt. unfold evict. rewrite decide_True by done.
  assert (terminal_ok (set_cleaner CleanDone t)) as Hok'.
  { apply ok_cleaner_moves; try done. intros _. apply (ok_cleanup _ Hok). by rewrite He. }
  split; cbn.
  - intros q u [(<- & <- & _)|[Hne Hq]]%list_lookup_insert_Some; [by split|]. destruct (Ht q u Hq) as [? Hreg']. split; [done|].
    intros Hc. specialize (Hreg' Hc). rewrite lookup_delete_ne; [done|]. intros E. rewrite E in Hreg. congruence.
  - intros id q [Hne Hq]%lookup_delete_Some. destruct (Hr id q Hq) as (u & Hu & Hid & Hc). exists u.
    rewrite list_lookup_insert_ne; [done|]. intros ->. simplify_eq.
  - intros c q Hc. destruct (Ho c q Hc) as (u & Hu & ?). exists u. rewrite list_lookup_insert_ne; [done|]. intros ->. congruence.
  - done.
  - intros q u [(<- & <- & _)|[Hne Hq]]%list_lookup_insert_Some Hc; [done|by eapply Hs].
Qed.

Lemma world_ok_step w w' : wstep w w' → world_ok w → world_ok w'.
Proof.
  intros Hs Hok. destruct Hs as [w id starts|w c p t session Hc Hp|w p t t' r Hp Hstep|w p t Hp He].
  - destruct (pseudoTerminals w !! id) as [p|] eqn:Hid.
    + unfold GetOrCreatePseudoTerminal. rewrite Hid. by apply world_ok_answer.
    + destruct starts; [by apply world_ok_create|]. unfold GetOrCreatePseudoTerminal. rewrite Hid. by apply world_ok_answer.
  - by apply world_ok_setup.
  - destruct (tstep_frame _ _ _ Hstep) as (Hid & _ & Hns & Hcd & _).
    apply (world_ok_put w p t); try done. eapply ok_step; [exact Hstep|]. by apply (wo_terminals _ Hok p).
  - by apply world_ok_evict.
Qed.

Lemma reached_ok w : reached w → world_ok w.
Proof.
  intros Hr. unfold reached in Hr. remember fresh_process as w0 eqn:E. assert (world_ok w0) as H0 by (rewrite E; apply world_ok_fresh).
  clear E. induction Hr as [|x y z Hs _ IH]; [done|]. apply IH. by eapply world_ok_step.
Qed.

(** C25: the goroutines of the terminals, however they are interleaved, never send on a closed
    channel nor close one twice; what a terminal has published is a prefix of what its shell
    said, with at most three bytes held back besides the chunk in hand; once the teardown
    closed the channel, the end marker was the last message; and a caller never has two
    terminals. *)
Theorem terminals_never_panic w : reached w →
  (∀ p t, terminals w !! p = Some t →
     pt_panicked t = false ∧ said (pt_published t) `prefix_of` pt_read t
     ∧ (pt_reader t ≠ ReadDone → said (pt_published t) ++ in_hand (pt_reader t) = pt_read t ∧ carried (pt_reader t) ≤ 3)
     ∧ (pt_OutputOpen t = false → eof_last (pt_published t)))
  ∧ (∀ p q t u, terminals w !! p = Some t → terminals w !! q = Some u → pt_Id t = pt_Id u →
       pt_cleaner t ≠ CleanDone → pt_cleaner u ≠ CleanDone → p = q).
Proof.
  intros Hw%reached_ok. split.
  - intros p t Hp. destruct (wo_terminals _ Hw p t Hp) as [[] _]. repeat split; auto. intros Ho. by destruct (ok_closed0 Ho) as (_ & _ & ?).
  - intros p q t u Hp Hq Hid Ht Hu. destruct (wo_terminals _ Hw p t Hp) as [_ Hp']. destruct (wo_terminals _ Hw q u Hq) as [_ Hq'].
    specialize (Hp' Ht). specialize (Hq' Hu). rewrite Hid in Hp'. congruence.
Qed.

(** ** A teardown that has begun finishes *)

(** The steps that are the teardown's own: its goroutine's, the eviction, and the [Setup]
    that starts the goroutine. *)
Inductive teardown_step (p : nat) : Terminals → Terminals → Prop :=
  | td_step w t t' : terminals w !! p = Some t → tstep Cleaner t t' → teardown_step p w (put_terminal p t' w)
  | td_setup w c t session : calls w !! c = Some (OwesSetup p) → terminals w !! p = Some t → teardown_step p w (run_setup c p t session w)
  | td_evict w t : terminals w !! p = Some t → pt_cleaner t = Evict → teardown_step p w (evict p t w).

Lemma teardown_wstep p w w' : teardown_step p w w' → wstep w w'.
Proof. intros []; [by eapply wstep_terminal|by apply wstep_setup|by apply wstep_evict]. Qed.

(** Nobody sets a teardown back: its rank never grows and its cleanup stays asked for. *)
Lemma teardown_kept w w' p t : wstep w w' → terminals w !! p = Some t →
  ∃ t', terminals w' !! p = Some t' ∧ pt_Id t' = pt_Id t ∧ (pt_Cleanup t = true → pt_Cleanup t' = true)
    ∧ (world_ok w → rank (pt_cleaner t') ≤ rank (pt_cleaner t)).
Proof.
  intros Hs Hp. pose proof (lookup_lt_Some _ _ _ Hp) as Hlt.
  destruct Hs as [w id starts|w c q u session Hc Hq|w q u u' r Hq Hstep|w q u Hq He].
  - exists t. unfold GetOrCreatePseudoTerminal. repeat case_match; cbn; repeat split; try done. by apply lookup_app_l_Some.
  - destruct (decide (q = p)) as [->|Hne].
    + exists (Setup session t). simplify_eq. cbn. rewrite list_lookup_insert_eq by done. repeat split; try done.
      intros Hw. destruct (wo_owed _ Hw _ _ Hc) as (v & Hv & Hns). simplify_eq. rewrite Hns. cbn. lia.
    + exists t. cbn. rewrite list_lookup_insert_ne by done. done.
  - destruct (decide (q = p)) as [->|Hne].
    + simplify_eq. exists u'. cbn. rewrite list_lookup_insert_eq by done.
      destruct (tstep_frame _ _ _ Hstep) as (? & _ & _ & _ & ? & ? & _). done.
    + exists t. cbn. rewrite list_lookup_insert_ne by done. done.
  - destruct (decide (q = p)) as [->|Hne].
    + simplify_eq. exists (set_cleaner CleanDone u). cbn. rewrite list_lookup_insert_eq by done. repeat split; try done. lia.
    + exists t. cbn. rewrite list_lookup_insert_ne by done. done.
Qed.

(** It can always take its next step, which brings it nearer to its end. *)
Lemma teardown_advances w p t : world_ok w → terminals w !! p = Some t → pt_Cleanup t = true → pt_cleaner t ≠ CleanDone →
  ∃ w' t', teardown_step p w w' ∧ terminals w' !! p = Some t' ∧ rank (pt_cleaner t') < rank (pt_cleaner t).
Proof.
  intros Hw Hp Hcl Hnd. destruct (wo_terminals _ Hw p t Hp) as [Hok _]. pose proof (lookup_lt_Some _ _ _ Hp) as Hlt.
  assert (∀ t', tstep Cleaner t t' →
    ∃ w' t', teardown_step p w w' ∧ terminals w' !! p = Some t' ∧ rank (pt_cleaner t') < rank (pt_cleaner t)) as Hown.
  { intros t' Hs. exists (put_terminal p t' w), t'. cbn. rewrite list_lookup_insert_eq by done.
    split; [by eapply td_step|]. split; [done|]. by apply (tstep_frame _ _ _ Hs). }
  destruct (pt_cleaner t) as [| | |f|f|[]| |] eqn:Hc; try done.
  - destruct (wo_setup _ Hw p t Hp Hc) as [c Hcall]. exists (run_setup c p t "" w), (Setup "" t). cbn.
    rewrite list_lookup_insert_eq by done. split; [by apply td_setup|]. split; [done|]. cbn. lia.
  - rewrite <- Hc in *. eapply Hown. by apply step_cleanup.
  - rewrite <- Hc in *. eapply Hown. by apply step_reader_late.
  - rewrite <- Hc in *. eapply Hown. by eapply step_eof_late.
  - rewrite <- Hc in *. eapply Hown. by eapply step_unregister.
  - rewrite <- Hc in *. eapply Hown. by apply step_close.
  - rewrite <- Hc in *. eapply Hown. by apply step_leave_open.
  - exists (evict p t w), (set_cleaner CleanDone t). cbn. rewrite list_lookup_insert_eq by done.
    split; [by apply td_evict|]. split; [done|]. cbn. lia.
Qed.

Lemma teardown_runs n : ∀ w p t, rank (pt_cleaner t) ≤ n → world_ok w → terminals w !! p = Some t → pt_Cleanup t = true →
  ∃ k w' t', k ≤ n ∧ nsteps (teardown_step p) k w w' ∧ world_ok w'
    ∧ terminals w' !! p = Some t' ∧ pt_Id t' = pt_Id t ∧ pt_cleaner t' = CleanDone.
Proof.
  induction n as [|n IH]; intros w p t Hr Hw Hp Hcl.
  - exists 0, w, t. split; [lia|]. split; [constructor|].
    split; [exact Hw|]. split; [exact Hp|]. split; [done|]. by apply rank_zero.
  - destruct (decide (rank (pt_cleaner t) = 0)) as [H0|H0].
    { destruct (IH w p t ltac:(lia) Hw Hp Hcl) as (k & w' & t' & ? & ?). exists k, w', t'. split; [lia|done]. }
    destruct (teardown_advances w p t Hw Hp Hcl) as (w1 & t1 & Hs & Hp1 & Hlt); [intros Hc; by rewrite Hc in H0|].
    destruct (teardown_kept _ _ p t (teardown_wstep _ _ _ Hs) Hp) as (u & Hu & Hid & Hcl' & _). rewrite Hp1 in Hu. injection Hu as <-.
    destruct (IH w1 p t1 ltac:(lia) (world_ok_step _ _ (teardown_wstep _ _ _ Hs) Hw) Hp1 (Hcl' Hcl))
      as (k & w' & t' & Hk & Hn & Hw' & Hp' & Hid' & Hd).
    exists (S k), w', t'. split; [lia|]. split; [by eapply nsteps_l|].
    split; [exact Hw'|]. split; [exact Hp'|]. split; [congruence|exact Hd].
Qed.

(** C24: a terminal whose teardown was asked for leaves the registry: its own goroutine needs
    at most seven steps for it, can always take the next one whatever the shell, the router
    and the read loop do, and no other goroutine sets it back. *)
Theorem teardown_finishes w p t : reached w → terminals w !! p = Some t → pt_Cleanup t = true →
  (∃ n w' t', n ≤ 7 ∧ nsteps (teardown_step p) n w w' ∧ terminals w' !! p = Some t' ∧ pt_cleaner t' = CleanDone
     ∧ pseudoTerminals w' !! pt_Id t ≠ Some p)
  ∧ (pt_cleaner t ≠ CleanDone → ∃ w' t', teardown_step p w w' ∧ terminals w' !! p = Some t' ∧ rank (pt_cleaner t') < rank (pt_cleaner t))
  ∧ (∀ w', wstep w w' → ∃ t', terminals w' !! p = Some t' ∧ pt_Cleanup t' = true ∧ rank (pt_cleaner t') ≤ rank (pt_cleaner t)).
Proof.
  intros Hw%reached_ok Hp Hcl. split; [|split].
  - destruct (teardown_runs 7 w p t) as (k & w' & t' & Hk & Hn & Hw' & Hp' & Hid & Hd); [apply rank_bound|done..|].
    exists k, w', t'. repeat split; try done. intros Hreg. destruct (wo_registry _ Hw' _ _ Hreg) as (u & Hu & _ & Hne). congruence.
  - intros Hd. by apply teardown_advances.
  - intros w' Hs. destruct (teardown_kept _ _ _ _ Hs Hp) as (t' & Hp' & _ & Hcl' & Hr). exists t'. auto.
Qed.

(** a caller is handed its dying terminal: until the teardown has finished, which may take
    ten seconds of grace besides the publishing, a new request is answered with the topics
    of the session that ends, and nothing is started for it; and until the creator has set
    the terminal up, a second request is answered with empty topics. *)
Theorem dying_terminal_is_handed_out w p t starts : reached w → terminals w !! p = Some t → pt_cleaner t ≠ CleanDone →
  let w' := GetOrCreatePseudoTerminal (pt_Id t) starts w in
  calls w' = calls w ++ [Answered (pt_SessionID t)] ∧ terminals w' = terminals w ∧ pseudoTerminals w' = pseudoTerminals w.
Proof.
  intros Hw%reached_ok Hp Hd. destruct (wo_terminals _ Hw p t Hp) as [_ Hreg]. specialize (Hreg Hd).
  unfold GetOrCreatePseudoTerminal. rewrite Hreg. cbn. by rewrite Hp.
Qed.

(** ** One user, two browser tabs *)

(** The shell of the user ends, and while the device tears the terminal down the second tab
    asks for one. *)
Definition ended_session : PseudoTerminal := signalCleanup (set_waiter WaitDone (Setup "s1" (newPseudoTerminal "alice"))).
Definition ended_process : Terminals :=
  {| terminals := [ended_session]; pseudoTerminals := {["alice" := 0]}; calls := [Answered "s1"] |}.

Lemma ended_reached : reached ended_process.
Proof.
  eapply rtc_l; [apply (wstep_init _ "alice" true)|].
  eapply rtc_l; [apply (wstep_setup _ 0 0 (newPseudoTerminal "alice") "s1"); reflexivity|].
  eapply rtc_l; [eapply (wstep_terminal _ 0); [reflexivity|]; by apply step_exit|].
  eapply rtc_l; [eapply (wstep_terminal _ 0); [reflexivity|]; by apply step_drained|].
  apply (rtc_refl wstep ended_process).
Qed.

Lemma terminals_never_panic_witness : pt_panicked ended_session = false ∧ said (pt_published ended_session) `prefix_of` [].
Proof.
  destruct (terminals_never_panic ended_process ended_reached) as [H _]. destruct (H 0 ended_session eq_refl) as (H1 & H2 & _).
  split; [exact H1|exact H2].
Defined.

Lemma teardown_finishes_witness : ∃ n w', n ≤ 7 ∧ nsteps (teardown_step 0) n ended_process w' ∧ pseudoTerminals w' !! "alice" ≠ Some 0.
Proof.
  destruct (teardown_finishes ended_process 0 ended_session ended_reached eq_refl eq_refl) as [(n & w' & t' & Hn & Hs & _ & _ & Hr) _].
  exists n, w'. split; [exact Hn|]. split; [exact Hs|exact Hr].
Defined.

Lemma dying_terminal_is_handed_out_witness :
  pt_Cleanup ended_session = true ∧ calls (GetOrCreatePseudoTerminal "alice" true ended_process) = [Answered "s1"; Answered "s1"].
Proof.
  split; [reflexivity|].
  destruct (dying_terminal_is_handed_out ended_process 0 ended_session true ended_reached eq_refl ltac:(discriminate)) as [H _].
  exact H.
Defined.

(** A second tab that asks before the first one's request has set the terminal up. *)
Example unset_terminal_handed_out :
  calls (GetOrCreatePseudoTerminal "alice" true (GetOrCreatePseudoTerminal "alice" true fresh_process)) = [OwesSetup 0; Answered ""].
Proof. reflexivity. Qed.
