(* ===== verification/Updates.v ===== *)
(** * Updates and the identity of the device (src/src/system, src/src/config, src/src/filesystem)

    Downloads of binaries with their verification, the choice of a version, the update of
    the operating system, and the device's configuration file with its refresh from the
    backend, over a disk and calls of the system, the network and the backend. *)
From S2P Require Import Prelude Errdefs GoValue Common Effects WampValues LogText.
From S2P Require TerminalSpec.
Open Scope go_scope.

(** ** State *)

(** The [.flock] file (config/config.go). *)
Record Board := {
  bd_CPU : string; bd_Docs : goval; bd_Board : string; bd_Model : string; bd_Boardname : string; bd_Modelname : string; bd_Reflasher : bool;
  bd_Architecture : string;
}.
Record Authentication := { au_Key : string; au_Certificate : string }.
Record ReswarmConfig := {
  rc_Name : string; rc_Secret : string; rc_Board : Board; rc_Status : string; rc_Password : string; rc_Wlanssid : string; rc_SwarmKey : Z;
  rc_DeviceKey : Z; rc_SwarmName : string; rc_Description : goval; rc_Architecture : string; rc_SerialNumber : string;
  rc_Authentication : Authentication; rc_SwarmOwnerName : string; rc_ConfigPassphrase : string; rc_DeviceEndpointURL : string;
  rc_Environment : string; rc_DockerRegistryURL : string; rc_InsecureRegistries : string; rc_DockerMainRepository : string;
  rc_ApplianceDomain : string; rc_UpdateURL : string; rc_ReswarmBaseURL : string;
}.

Definition empty_board : Board :=
  {| bd_CPU := ""; bd_Docs := VNil; bd_Board := ""; bd_Model := ""; bd_Boardname := ""; bd_Modelname := ""; bd_Reflasher := false; bd_Architecture := "" |}.
Definition empty_config : ReswarmConfig :=
  {| rc_Name := ""; rc_Secret := ""; rc_Board := empty_board; rc_Status := ""; rc_Password := ""; rc_Wlanssid := ""; rc_SwarmKey := 0;
     rc_DeviceKey := 0; rc_SwarmName := ""; rc_Description := VNil; rc_Architecture := ""; rc_SerialNumber := "";
     rc_Authentication := {| au_Key := ""; au_Certificate := "" |}; rc_SwarmOwnerName := ""; rc_ConfigPassphrase := ""; rc_DeviceEndpointURL := "";
     rc_Environment := ""; rc_DockerRegistryURL := ""; rc_InsecureRegistries := ""; rc_DockerMainRepository := ""; rc_ApplianceDomain := "";
     rc_UpdateURL := ""; rc_ReswarmBaseURL := "" |}.

(** *** The configuration as a JSON document

    A document is a tree, a number with an integer literal [VInt]. *)

(** What a string becomes on its way: every byte that belongs to no rune is replaced. *)
Definition replacement : list Z := [239; 191; 189]%Z.
Fixpoint to_valid (s : list Z) : list Z :=
  match s with
  | [] => []
  | a :: s1 =>
      if TerminalSpec.is_rune [a] then a :: to_valid s1
      else match s1 with
           | [] => replacement
           | b :: s2 =>
               if TerminalSpec.is_rune [a; b] then a :: b :: to_valid s2
               else match s2 with
                    | [] => replacement ++ to_valid s1
                    | c :: s3 =>
                        if TerminalSpec.is_rune [a; b; c] then a :: b :: c :: to_valid s3
                        else match s3 with
                             | [] => replacement ++ to_valid s1
                             | d :: s4 => if TerminalSpec.is_rune [a; b; c; d] then a :: b :: c :: d :: to_valid s4 else replacement ++ to_valid s1
                             end
                    end
           end
  end.
Definition bytes_of (s : string) : list Z := map (λ a, Z.of_N (Ascii.N_of_ascii a)) (String.list_ascii_of_string s).
Definition string_of (b : list Z) : string := String.string_of_list_ascii (map (λ z, Ascii.ascii_of_N (Z.to_N z)) b).
Definition json_text (s : string) : string := string_of (to_valid (bytes_of s)).

Fixpoint json_texts (v : goval) : goval :=
  match v with
  | VStr s => VStr (json_text s)
  | VList l => VList (map json_texts l)
  | VMap m => VMap (map (λ kv, (json_text kv.1, json_texts kv.2)) m)
  | _ => v
  end.

Definition text (s : string) : goval := VStr (json_text s).
(** The tag [omitempty]. *)
Definition omitempty (k v : string) : gomap := if String.eqb v "" then [] else [(k, text v)].

Definition marshal_board (b : Board) : gomap :=
  [("cpu", text (bd_CPU b)); ("docs", json_texts (bd_Docs b)); ("board", text (bd_Board b)); ("model", text (bd_Model b));
   ("boardname", text (bd_Boardname b)); ("modelname", text (bd_Modelname b)); ("reflasher", VBool (bd_Reflasher b));
   ("architecture", text (bd_Architecture b))].
Definition marshal_authentication (a : Authentication) : gomap := [("key", text (au_Key a)); ("certificate", text (au_Certificate a))].

(** [json.MarshalIndent] of a configuration: its fields by their tags; [ReswarmBaseURL], tagged
    with a dash, is left out. *)
Definition MarshalConfig (c : ReswarmConfig) : gomap :=
  ("name", text (rc_Name c)) ::
  ("secret", text (rc_Secret c)) ::
  ("board", VMap (marshal_board (rc_Board c))) ::
  ("status", text (rc_Status c)) ::
  ("password", text (rc_Password c)) ::
  ("wlanssid", text (rc_Wlanssid c)) ::
  ("swarm_key", VInt (rc_SwarmKey c)) ::
  ("device_key", VInt (rc_DeviceKey c)) ::
  ("swarm_name", text (rc_SwarmName c)) ::
  ("description", json_texts (rc_Description c)) ::
  ("architecture", text (rc_Architecture c)) ::
  ("serial_number", text (rc_SerialNumber c)) ::
  ("authentication", VMap (marshal_authentication (rc_Authentication c))) ::
  ("swarm_owner_name", text (rc_SwarmOwnerName c)) ::
  ("config_passphrase", text (rc_ConfigPassphrase c)) ::
  ("device_endpoint_url", text (rc_DeviceEndpointURL c)) ::
  omitempty "environment" (rc_Environment c) ++
  ("docker_registry_url", text (rc_DockerRegistryURL c)) ::
  omitempty "insecure-registries" (rc_InsecureRegistries c) ++
  ("docker_main_repository", text (rc_DockerMainRepository c)) ::
  omitempty "appliance_domain" (rc_ApplianceDomain c) ++
  omitempty "update_url" (rc_UpdateURL c) ++
  [].

(** A key names a field whatever its case (of ASCII letters; the two others that Go folds, the
    Kelvin sign and the long s, are not looked for). *)
Definition names_field (k k' : string) : bool := String.eqb (to_lower k) (to_lower k').
(** Every entry that names the field is stored over what is there. *)
Definition field {A} (k : string) (set : goval → A → A) (zero : A) (m : gomap) : A :=
  foldl (λ acc kv, if names_field k kv.1 then set kv.2 acc else acc) zero m.

(** A value of another type than the field's, and [null], leave it as it is; an error is noted
    for the former, and nothing here asks for it. *)
Definition set_text (v : goval) (old : string) : string := match v with VStr s => s | _ => old end.
Definition set_int (v : goval) (old : Z) : Z :=
  match v with VInt z => if (- 2 ^ 63 <=? z)%Z && (z <? 2 ^ 63)%Z then z else old | _ => old end.
Definition set_bool (v : goval) (old : bool) : bool := match v with VBool b => b | _ => old end.
Definition set_any (v : goval) (old : goval) : goval := json_roundtrip v.
Definition unmarshal_board (m : gomap) (b : Board) : Board :=
  {| bd_CPU := field "cpu" set_text (bd_CPU b) m; bd_Docs := field "docs" set_any (bd_Docs b) m; bd_Board := field "board" set_text (bd_Board b) m;
     bd_Model := field "model" set_text (bd_Model b) m; bd_Boardname := field "boardname" set_text (bd_Boardname b) m;
     bd_Modelname := field "modelname" set_text (bd_Modelname b) m; bd_Reflasher := field "reflasher" set_bool (bd_Reflasher b) m;
     bd_Architecture := field "architecture" set_text (bd_Architecture b) m |}.
Definition unmarshal_authentication (m : gomap) (a : Authentication) : Authentication :=
  {| au_Key := field "key" set_text (au_Key a) m; au_Certificate := field "certificate" set_text (au_Certificate a) m |}.
Definition set_board (v : goval) (old : Board) : Board := match v with VMap m => unmarshal_board m old | _ => old end.
Definition set_authentication (v : goval) (old : Authentication) : Authentication :=
  match v with VMap m => unmarshal_authentication m old | _ => old end.

(** [json.Unmarshal] of an object into a configuration. *)
Definition UnmarshalConfig (m : gomap) (c : ReswarmConfig) : ReswarmConfig :=
  {| rc_Name := field "name" set_text (rc_Name c) m; rc_Secret := field "secret" set_text (rc_Secret c) m;
     rc_Board := field "board" set_board (rc_Board c) m; rc_Status := field "status" set_text (rc_Status c) m;
     rc_Password := field "password" set_text (rc_Password c) m; rc_Wlanssid := field "wlanssid" set_text (rc_Wlanssid c) m;
     rc_SwarmKey := field "swarm_key" set_int (rc_SwarmKey c) m; rc_DeviceKey := field "device_key" set_int (rc_DeviceKey c) m;
     rc_SwarmName := field "swarm_name" set_text (rc_SwarmName c) m; rc_Description := field "description" set_any (rc_Description c) m;
     rc_Architecture := field "architecture" set_text (rc_Architecture c) m; rc_SerialNumber := field "serial_number" set_text (rc_SerialNumber c) m;
     rc_Authentication := field "authentication" set_authentication (rc_Authentication c) m;
     rc_SwarmOwnerName := field "swarm_owner_name" set_text (rc_SwarmOwnerName c) m;
     rc_ConfigPassphrase := field "config_passphrase" set_text (rc_ConfigPassphrase c) m;
     rc_DeviceEndpointURL := field "device_endpoint_url" set_text (rc_DeviceEndpointURL c) m;
     rc_Environment := field "environment" set_text (rc_Environment c) m;
     rc_DockerRegistryURL := field "docker_registry_url" set_text (rc_DockerRegistryURL c) m;
     rc_InsecureRegistries := field "insecure-registries" set_text (rc_InsecureRegistries c) m;
     rc_DockerMainRepository := field "docker_main_repository" set_text (rc_DockerMainRepository c) m;
     rc_ApplianceDomain := field "appliance_domain" set_text (rc_ApplianceDomain c) m;
     rc_UpdateURL := field "update_url" set_text (rc_UpdateURL c) m; rc_ReswarmBaseURL := rc_ReswarmBaseURL c |}.

(** What the configuration file holds: a JSON document, or a text that is none, such as the
    empty one. *)
Inductive config_file :=
  | JsonDoc (document : goval)
  | NoJson.

Record SysState := {
  disk : gmap string string;           (* files and their bytes *)
  DownloadLocks : gmap string bool;    (* whether the semaphore of a path is taken *)
  flock : option config_file;          (* the configuration file *)
  config : ReswarmConfig;              (* the configuration in memory *)
}.

Definition put_disk (v : gmap string string) (s : SysState) : SysState :=
  {| disk := v; DownloadLocks := DownloadLocks s; flock := flock s; config := config s |}.
Definition put_locks (v : gmap string bool) (s : SysState) : SysState :=
  {| disk := disk s; DownloadLocks := v; flock := flock s; config := config s |}.
Definition put_flock (v : option config_file) (s : SysState) : SysState :=
  {| disk := disk s; DownloadLocks := DownloadLocks s; flock := v; config := config s |}.
Definition put_config (v : ReswarmConfig) (s : SysState) : SysState :=
  {| disk := disk s; DownloadLocks := DownloadLocks s; flock := flock s; config := v |}.

(** ** Calls *)

Record DownloadProgress := { dp_FilePath : string; dp_Increment : N; dp_CurrentBytes : N; dp_TotalFileSize : N }.

(** A response: its status, its [Content-Length] header, the pieces of its body and the
    error its body ends with. *)
Record http_response := { hr_Status : Z; hr_ContentLength : string; hr_Body : list string; hr_Error : option error }.

Inductive SysCall : Type → Type :=
  | OsCreate (path : string) : SysCall (unit + error)
  | OsAppend (path data : string) : SysCall (unit + error)
  | OsOpen (path : string) : SysCall (unit + error)
  | OsReadCopy (path : string) : SysCall (unit + error)
  | OsChmod (path : string) : SysCall (unit + error)
  | OsMove (old new : string) : SysCall (unit + error)
  | OsDelete (path : string) : SysCall (unit + error)
  | OsExists (path : string) : SysCall (bool + error)
  | ReadEtcFile (path : string) : SysCall (string + error)
  | RunVersionOf (path : string) : SysCall (string + error)
  | WriteEmbeddedFrpc (path : string) : SysCall (unit + error)
  | HttpGet (url : string) : SysCall (http_response + error)
  | CodesignVerify (path : string) : SysCall (unit + error)
  | ReadFlock (path : string) : SysCall (unit + error)
  (* a failed write may have emptied the file *)
  | WriteFlock (path : string) : SysCall (unit + bool * error)
  | DeviceMetadata (device_key : Z) : SysCall (list wval + error)
  | RaucInstall (bundle : string) : SysCall (unit + error)
  | ReportProgress (p : DownloadProgress) : SysCall unit
  | PauseSecond : SysCall unit
  | FatalExit (message : string) : SysCall unit.

Abbreviation Sys := (M SysCall SysState).
Abbreviation sys_env := (env SysCall SysState).
Abbreviation sys_state := (state SysCall SysState).

(** The platform, the command line, and what the standard library and semver compute. *)
Class SysHost := {
  goos : string;
  build_arch : string;
  agent_version : string;
  agent_dir : string;
  download_dir : string;
  remote_update_url : string;
  config_location : string;
  frpc_embedded : bool;
  codesign_enforcing : bool;
  sha256_hex : string → string;
  decode_versions : string → list (string * string);
  semver_newer : string → string → bool + error;
  join_path : list string → string;                       (* [filepath.Join] of the system *)
  }.

Section system.
Context `{SysHost} `{GoRuntime}.

(** ** Downloading (filesystem/get.go, filesystem/utils.go) *)

Definition expired_certificate : string := "certificate has expired or is not yet valid".

(** A certificate that is not valid yet is waited for, however long it takes: [turns]
    bounds how often it is asked for here. *)
Fixpoint GetRemoteFileWithStatus (turns : nat) (url : string) : Sys http_response :=
  match turns with
  | O => hang
  | S turns =>
      let! resp := call (HttpGet url) in
      match resp with
      | inl resp => ret resp
      | inr err =>
          if str_contains expired_certificate (error_text err)
          then call PauseSecond;; GetRemoteFileWithStatus turns url
          else throw err
      end
  end.

(** Each piece of the body is counted and reported before it is written. *)
Fixpoint copy_body (filePath : string) (report : DownloadProgress → Sys unit) (size total : N) (body : list string) (last : option error)
    : Sys unit :=
  match body with
  | [] => match last with Some e => throw e | None => ret tt end
  | piece :: body =>
      let total := wrap64 (total + N.of_nat (String.length piece)) in
      report {| dp_FilePath := filePath; dp_Increment := N.of_nat (String.length piece); dp_CurrentBytes := total; dp_TotalFileSize := size |};;
      callE (OsAppend filePath piece);;
      modify (λ s, put_disk (<[filePath := default "" (disk s !! filePath) +:+ piece]> (disk s)) s);;
      copy_body filePath report size total body last
  end.

Definition download_body (filePath url : string) (report : DownloadProgress → Sys unit) : Sys unit :=
  callE (OsCreate filePath);;
  modify (λ s, put_disk (<[filePath := ""]> (disk s)) s);;
  let! resp := callE (HttpGet url) in
  match Atoi (hr_ContentLength resp) with
  | inr e => throw e
  | inl size => copy_body filePath report (int_as_uint64 size) 0 (hr_Body resp) (hr_Error resp)
  end.

Definition DownloadURL (filePath url : string) (report : DownloadProgress → Sys unit) : Sys unit :=
  let! taken := gets (λ s, default false (DownloadLocks s !! filePath)) in
  if taken : bool then throw (wrap_kind KInProgress (Plain "download already in progress"))
  else
    modify (λ s, put_locks (<[filePath := true]> (DownloadLocks s)) s);;
    finally (download_body filePath url report)
      (modify (λ s, put_locks (delete filePath (DownloadLocks s)) s)).

(** ** Verifying and installing a binary (system/system.go) *)

Definition updateBaseURL (c : ReswarmConfig) : string :=
  if String.eqb (rc_UpdateURL c) "" then remote_update_url else rc_UpdateURL c.

Definition buildBinaryDownloadURL (base bucketName os arch versionString fileName : string) : string :=
  let url := base +:+ "/" +:+ bucketName +:+ "/" +:+ os +:+ "/" +:+ arch +:+ "/" +:+ versionString +:+ "/" +:+ fileName in
  if String.eqb os "windows" then url +:+ ".exe" else url.

(** The first white-space separated token: reading the first of none panics. *)
Definition first_field (s : string) : option string :=
  match (fix fields (w : string) (s : string) : option string :=
    match s with
    | EmptyString => if String.eqb w "" then None else Some w
    | String a s => if is_space a then (if String.eqb w "" then fields "" s else Some w) else fields (w +:+ String a "") s
    end) "" s with
  | f => f
  end.

(** At most 1024 bytes of the body; an error after them is not noticed. *)
Definition read_limited (resp : http_response) : string + error :=
  let text := fold_right String.append "" (hr_Body resp) in
  if (1024 <=? String.length text)%nat then inl (String.substring 0 1024 text)
  else match hr_Error resp with Some e => inr e | None => inl text end.

Definition verifyRemoteChecksum (turns : nat) (filePath binaryURL : string) : Sys unit :=
  let! resp := try_ (GetRemoteFileWithStatus turns (binaryURL +:+ ".sha256")) in
  match resp with
  | inr _ => ret tt
  | inl resp =>
      if negb (hr_Status resp =? 200)%Z then ret tt
      else
        match read_limited resp with
        | inr _ => ret tt
        | inl manifest =>
            match first_field manifest with
            | None => panic
            | Some field =>
                let expected := to_lower field in
                if negb (String.length expected =? 64)%nat then ret tt
                else
                  callE (OsOpen filePath);;
                  callE (OsReadCopy filePath);;
                  let! bytes := gets (λ s, default "" (disk s !! filePath)) in
                  if String.eqb (sha256_hex bytes) expected then ret tt
                  else throw (Plain ("checksum mismatch for " +:+ binaryURL))
            end
        end
  end.

Definition os_delete (path : string) : Sys (unit + error) :=
  let! r := call (OsDelete path) in
  match r with
  | inl _ => modify (λ s, put_disk (delete path (disk s)) s);; ret (inl tt)
  | inr e => ret (inr e)
  end.

Definition os_move (old new : string) : Sys unit :=
  let! f := gets (λ s, disk s !! old) in
  match f with
  | None => throw (Plain "no such file or directory")
  | Some b =>
      callE (OsMove old new);;
      modify (λ s, put_disk (<[new := b]> (delete old (disk s))) s)
  end.

Definition binary_destination (fileName versionString : string) (includeVersionString : bool) : string :=
  agent_dir +:+ "/" +:+ fileName +:+ (if includeVersionString then "-v" +:+ versionString else "")
    +:+ (if String.eqb goos "windows" then ".exe" else "").

Definition binary_download (fileName versionString : string) : string :=
  download_dir +:+ "/" +:+ fileName +:+ "-v" +:+ versionString.

(** A download that fails its checksum, or once signatures are enforced its signature, is
    deleted. *)
Definition verified_download (turns : nat) (tmpFilePath agentURL : string) (report : DownloadProgress → Sys unit) : Sys unit :=
  DownloadURL tmpFilePath agentURL report;;
  let! ok := try_ (verifyRemoteChecksum turns tmpFilePath agentURL) in
  match ok with
  | inr e => os_delete tmpFilePath;; throw e
  | inl _ =>
      let! sig := call (CodesignVerify tmpFilePath) in
      match sig with
      | inr e =>
          if codesign_enforcing then os_delete tmpFilePath;; throw (Annotated "refusing to install an improperly signed binary" e)
          else ret tt
      | inl _ => ret tt
      end;;
      callE (OsChmod tmpFilePath)
  end.

(** Only a verified download is moved to its destination. *)
Definition downloadBinary (turns : nat) (fileName bucketName versionString : string) (includeVersionString : bool)
    (report : DownloadProgress → Sys unit) : Sys unit :=
  let! c := gets config in
  let agentURL := buildBinaryDownloadURL (updateBaseURL c) bucketName goos build_arch versionString fileName in
  let tmpFilePath := binary_download fileName versionString in
  verified_download turns tmpFilePath agentURL report;;
  os_move tmpFilePath (binary_destination fileName versionString includeVersionString).

(** ** Which version (system/system.go) *)

Definition GetEnvironment (c : ReswarmConfig) : string :=
  if negb (String.eqb (rc_Environment c) "") then rc_Environment c
  else if str_contains "datapods" (rc_DeviceEndpointURL c) then "test"
  else if str_contains "record-evolution" (rc_DeviceEndpointURL c) then "production"
  else "local".

(** Whatever does not decode counts as an empty map. *)
Definition GetLatestVersion (turns : nat) (bucketName : string) : Sys string :=
  let! c := gets config in
  let! resp := GetRemoteFileWithStatus turns (updateBaseURL c +:+ "/" +:+ bucketName +:+ "/availableVersions.json") in
  let versions := decode_versions (fold_right String.append "" (hr_Body resp)) in
  let versionString := default "" (map_get (GetEnvironment c) versions) in
  ret (if String.eqb versionString "" then default "" (map_get "all" versions) else versionString).

Record UpdateResult := {
  ur_CurrentVersion : string; ur_LatestVersion : string;
  ur_DidAgentUpdate : bool; ur_DidTunnelUpdate : bool; ur_DidUpdate : bool; ur_InProgress : bool;
}.

Definition no_update : UpdateResult :=
  {| ur_CurrentVersion := ""; ur_LatestVersion := ""; ur_DidAgentUpdate := false; ur_DidTunnelUpdate := false;
     ur_DidUpdate := false; ur_InProgress := false |}.
Definition version_result (current latest : string) (did inProgress : bool) : UpdateResult :=
  {| ur_CurrentVersion := current; ur_LatestVersion := latest; ur_DidAgentUpdate := false; ur_DidTunnelUpdate := false;
     ur_DidUpdate := did; ur_InProgress := inProgress |}.

(** The result and the error are both returned: the caller logs the error and goes on. *)
Definition updateAgentIfRequired (turns : nat) (report : DownloadProgress → Sys unit) : Sys (UpdateResult * option error) :=
  let! latest := try_ (GetLatestVersion turns "re-agent") in
  match latest with
  | inr e => ret (no_update, Some e)
  | inl latestVersion =>
      match semver_newer agent_version latestVersion with
      | inr e => ret (no_update, Some e)
      | inl false => ret (version_result agent_version latestVersion false false, None)
      | inl true =>
          let! err := try_ (downloadBinary turns "reagent" "re-agent" latestVersion true report) in
          match err with
          | inr e =>
              if IsInProgress e then ret (version_result agent_version latestVersion false true, Some e)
              else ret (no_update, Some e)
          | inl _ => ret (version_result agent_version latestVersion true false, None)
          end
      end
  end.

Definition FRP_VERSION : string := "0.70.0".

Definition GetTunnelBinaryPath (binaryName : string) : string :=
  join_path [agent_dir; binaryName +:+ (if String.eqb goos "windows" then ".exe" else "")].

Definition GetFrpCurrentVersion : Sys string :=
  let! exists_ := callE (OsExists (GetTunnelBinaryPath "frpc")) in
  if exists_ : bool then
    let! v := callE (RunVersionOf (GetTunnelBinaryPath "frpc")) in
    ret (trim_space v)
  else throw (Plain "not found").

(** The client of the tunnels is pinned: extracted from the agent, or downloaded where it
    is not embedded. *)
Definition DownloadFrpIfNotExists (turns : nat) : Sys unit :=
  let frpcPath := GetTunnelBinaryPath "frpc" in
  let! exists_ := callE (OsExists frpcPath) in
  let! current :=
    (if exists_ : bool then
       let! v := try_ GetFrpCurrentVersion in
       ret (match v with inl v => String.eqb v FRP_VERSION | inr _ => false end)
     else ret false) in
  if current : bool then ret tt
  else if frpc_embedded then
    let! r := call (WriteEmbeddedFrpc frpcPath) in
    match r with inr e => throw (Annotated "failed to extract embedded frpc" e) | inl _ => ret tt end
  else
    let! r := try_ (downloadBinary turns "frpc" "re-agent/frpc" FRP_VERSION false (λ _, ret tt)) in
    match r with inr e => throw (Annotated "failed to download frpc" e) | inl _ => ret tt end.

Definition updateFrpIfRequired (turns : nat) : Sys (UpdateResult * option error) :=
  let! r := try_ (DownloadFrpIfNotExists turns) in
  match r with
  | inr e => ret (no_update, Some e)
  | inl _ => ret (version_result FRP_VERSION FRP_VERSION false false, None)
  end.

(** ** The operating system (system/system.go) *)

Definition quotation : ascii := ascii_of_N 34.

(** One line of [/etc/os-release]: what does not have exactly one equals sign is left out,
    and the quotes go if there are exactly two. *)
Definition os_release_line (line : string) : option (string * string) :=
  match split_on "=" line with
  | [key; value] =>
      Some (key, match split_on quotation value with [_; v; _] => v | v :: _ => v | [] => "" end)
  | _ => None
  end.

Definition os_release (text : string) : list (string * string) :=
  fold_left (λ dict line, match os_release_line line with Some (k, v) => map_set k v dict | None => dict end)
    (split_on newline text) [].

Definition GetOSReleaseCurrent : Sys (list (string * string)) :=
  let! text := callE (ReadEtcFile "/etc/os-release") in
  ret (os_release text).

(** [url, file] of the third field of the first line: a line with fewer panics. *)
Definition getOSUpdateTags : Sys (string * string) :=
  let! text := callE (ReadEtcFile "/etc/reswarmos-update") in
  match split_on "," (hd "" (split_on newline text)) with
  | _ :: _ :: updateURL :: _ => ret (updateURL, List.last (split_on "/" updateURL) "")
  | _ => panic
  end.

(** A failure to read the tags is logged, and the download goes on with empty ones. *)
Definition GetOSUpdate (report : DownloadProgress → Sys unit) : Sys unit :=
  let! tags := try_ getOSUpdateTags in
  let '(updateURL, updateFile) := match tags with inl t => t | inr _ => ("", "") end in
  DownloadURL ("/tmp/" +:+ updateFile) updateURL report.

(** A failed installation is logged and reported as a success. *)
Definition InstallOSUpdate : Sys unit :=
  let! tags := try_ getOSUpdateTags in
  let '(_, updateFile) := match tags with inl t => t | inr _ => ("", "") end in
  call (RaucInstall ("/tmp/" +:+ updateFile));;
  ret tt.

(** ** The configuration file (config/config.go) *)

Definition SaveReswarmConfig (c : ReswarmConfig) : Sys unit :=
  let! r := call (WriteFlock config_location) in
  match r with
  | inl _ => modify (put_flock (Some (JsonDoc (VMap (MarshalConfig c)))))
  | inr (emptied, e) =>
      when emptied (modify (put_flock (Some NoJson)));;
      throw e
  end.

Definition set_registry (v : string) (c : ReswarmConfig) : ReswarmConfig :=
  {| rc_Name := rc_Name c; rc_Secret := rc_Secret c; rc_Board := rc_Board c; rc_Status := rc_Status c; rc_Password := rc_Password c;
     rc_Wlanssid := rc_Wlanssid c; rc_SwarmKey := rc_SwarmKey c; rc_DeviceKey := rc_DeviceKey c; rc_SwarmName := rc_SwarmName c;
     rc_Description := rc_Description c; rc_Architecture := rc_Architecture c; rc_SerialNumber := rc_SerialNumber c;
     rc_Authentication := rc_Authentication c; rc_SwarmOwnerName := rc_SwarmOwnerName c; rc_ConfigPassphrase := rc_ConfigPassphrase c;
     rc_DeviceEndpointURL := rc_DeviceEndpointURL c; rc_Environment := rc_Environment c; rc_DockerRegistryURL := v;
     rc_InsecureRegistries := rc_InsecureRegistries c; rc_DockerMainRepository := rc_DockerMainRepository c;
     rc_ApplianceDomain := rc_ApplianceDomain c; rc_UpdateURL := rc_UpdateURL c; rc_ReswarmBaseURL := rc_ReswarmBaseURL c |}.
Definition set_endpoint (v : string) (c : ReswarmConfig) : ReswarmConfig :=
  {| rc_Name := rc_Name c; rc_Secret := rc_Secret c; rc_Board := rc_Board c; rc_Status := rc_Status c; rc_Password := rc_Password c;
     rc_Wlanssid := rc_Wlanssid c; rc_SwarmKey := rc_SwarmKey c; rc_DeviceKey := rc_DeviceKey c; rc_SwarmName := rc_SwarmName c;
     rc_Description := rc_Description c; rc_Architecture := rc_Architecture c; rc_SerialNumber := rc_SerialNumber c;
     rc_Authentication := rc_Authentication c; rc_SwarmOwnerName := rc_SwarmOwnerName c; rc_ConfigPassphrase := rc_ConfigPassphrase c;
     rc_DeviceEndpointURL := v; rc_Environment := rc_Environment c; rc_DockerRegistryURL := rc_DockerRegistryURL c;
     rc_InsecureRegistries := rc_InsecureRegistries c; rc_DockerMainRepository := rc_DockerMainRepository c;
     rc_ApplianceDomain := rc_ApplianceDomain c; rc_UpdateURL := rc_UpdateURL c; rc_ReswarmBaseURL := rc_ReswarmBaseURL c |}.

(** The addresses of the time before the product was renamed. *)
Definition migrate (c : ReswarmConfig) : ReswarmConfig :=
  let c := if String.eqb (rc_DockerRegistryURL c) "registry.reswarm.io/" then set_registry "registry.ironflock.com/" c else c in
  if String.eqb (rc_DeviceEndpointURL c) "wss://cbw.record-evolution.com/ws-re-dev"
  then set_endpoint "wss://cbw.ironflock.com/ws-re-dev" c else c.

(** A text that is no document, and a document that is no object, fill in nothing. *)
Definition decoded (f : config_file) : ReswarmConfig :=
  match f with JsonDoc (VMap m) => UnmarshalConfig m empty_config | JsonDoc _ | NoJson => empty_config end.

(** The error of decoding is dropped, and what was decoded is written back. *)
Definition LoadReswarmConfig : Sys ReswarmConfig :=
  callE (ReadFlock config_location);;
  let! f := gets flock in
  let c := migrate (match f with Some f => decoded f | None => empty_config end) in
  let! saved := try_ (SaveReswarmConfig c) in
  match saved with
  | inl _ => ret c
  | inr _ => call (FatalExit "failed to save .flock config file");; hang
  end.

(** ** The identity of the device (system/system.go) *)

Definition set_identity (name swarmName owner : string) (swarmKey : Z) (c : ReswarmConfig) : ReswarmConfig :=
  {| rc_Name := name; rc_Secret := rc_Secret c; rc_Board := rc_Board c; rc_Status := rc_Status c; rc_Password := rc_Password c;
     rc_Wlanssid := rc_Wlanssid c; rc_SwarmKey := swarmKey; rc_DeviceKey := rc_DeviceKey c; rc_SwarmName := swarmName;
     rc_Description := rc_Description c; rc_Architecture := rc_Architecture c; rc_SerialNumber := rc_SerialNumber c;
     rc_Authentication := rc_Authentication c; rc_SwarmOwnerName := owner; rc_ConfigPassphrase := rc_ConfigPassphrase c;
     rc_DeviceEndpointURL := rc_DeviceEndpointURL c; rc_Environment := rc_Environment c; rc_DockerRegistryURL := rc_DockerRegistryURL c;
     rc_InsecureRegistries := rc_InsecureRegistries c; rc_DockerMainRepository := rc_DockerMainRepository c;
     rc_ApplianceDomain := rc_ApplianceDomain c; rc_UpdateURL := rc_UpdateURL c; rc_ReswarmBaseURL := rc_ReswarmBaseURL c |}.

(** [int(v)] of a [uint64]. *)
Definition int_of_uint64 (n : N) : Z :=
  let z := Z.of_N (wrap64 n) in if (z <? 2 ^ 63)%Z then z else (z - 2 ^ 64)%Z.

(** Whether the project changed, which is returned together with the error of saving. *)
Definition UpdateDeviceMetadata : Sys (bool * option error) :=
  let! c := gets config in
  let! args := callE (DeviceMetadata (rc_DeviceKey c)) in
  match args with
  | [] => panic
  | a :: _ =>
      match as_plain_map a with
      | None => throw (Plain "invalid payload")
      | Some payload =>
          match ToUint64 (coercible (wget "swarm_key" payload)) with
          | None => throw (Plain "swarm_key has invalid type")
          | Some swarmKey =>
              let text key := sprint (untyped (wget key payload)) in
              let c' := set_identity (text "device_name") (text "swarm_name") (text "ownername") (int_of_uint64 swarmKey) c in
              modify (put_config c');;
              let! saved := try_ (SaveReswarmConfig c') in
              ret (negb (rc_SwarmKey c =? int_of_uint64 swarmKey)%Z, match saved with inr e => Some e | inl _ => None end)
          end
      end
  end.
End system.

(** ** The progress of an update (system/system.go)

    The downloads send their reports on an unbuffered channel; the loop that sums them up
    leaves as soon as the sums say that all is there, and waits for the downloads. *)

Definition stored := (N * N)%type.   (* bytes so far, total *)

(** The first report of a file is stored; later ones update only the bytes. *)
Definition store_progress (p : DownloadProgress) (m : list (string * stored)) : list (string * stored) :=
  match map_get (dp_FilePath p) m with
  | None => map_set (dp_FilePath p) (dp_CurrentBytes p, dp_TotalFileSize p) m
  | Some (_, total) => map_set (dp_FilePath p) (dp_CurrentBytes p, total) m
  end.

Definition summed (m : list (string * stored)) : stored :=
  fold_left (λ acc kv, (wrap64 (acc.1 + kv.2.1), wrap64 (acc.2 + kv.2.2))%N) m (0, 0)%N.

Definition all_there (m : list (string * stored)) : bool := let '(cur, total) := summed m in (cur =? total)%N.

Inductive update_stage := Collecting (m : list (string * stored)) | AwaitDownloads | UpdateOver.

(** The reports each download still has to send. *)
Record Updating := { senders : list (list DownloadProgress); up_stage : update_stage }.

#[export] Instance DownloadProgress_eq_dec : EqDecision DownloadProgress.
Proof. solve_decision. Defined.

Definition no_reports (senders : list (list DownloadProgress)) : bool := forallb (λ l, bool_decide (l = [])) senders.

Inductive ustep : Updating → Updating → Prop :=
  | u_receive l i p ps m : l !! i = Some (p :: ps) →
      ustep {| senders := l; up_stage := Collecting m |}
        {| senders := <[i := ps]> l;
           up_stage := let m := store_progress p m in if all_there m then AwaitDownloads else Collecting m |}
  (* every download is done, and the channel is closed *)
  | u_close l m : no_reports l = true → ustep {| senders := l; up_stage := Collecting m |} {| senders := l; up_stage := AwaitDownloads |}
  | u_wait l : no_reports l = true → ustep {| senders := l; up_stage := AwaitDownloads |} {| senders := l; up_stage := UpdateOver |}.

(** The reports of a download of [size] bytes that arrives in these pieces. *)
Fixpoint reports (filePath : string) (size total : N) (body : list string) : list DownloadProgress :=
  match body with
  | [] => []
  | piece :: body =>
      let total := wrap64 (total + N.of_nat (String.length piece)) in
      {| dp_FilePath := filePath; dp_Increment := N.of_nat (String.length piece); dp_CurrentBytes := total; dp_TotalFileSize := size |}
        :: reports filePath size total body
  end.

(** [UpdateSystem]: the client of the tunnels is fetched without reports, the agent with. *)
Definition update_start (filePath : string) (size : N) (body : list string) : Updating :=
  {| senders := [[]; reports filePath size 0 body]; up_stage := Collecting [] |}.
