(* ===== verification/UpdatesSpec.v ===== *)
(** * What a download may become, and what a configuration may lose *)
From S2P Require Import Prelude Errdefs GoValue Common Effects WampValues LogText Updates.
From S2P Require TerminalSpec.
Open Scope go_scope.

(** ** Running calls *)

Definition grows (st st' : sys_state) : Prop := ∃ l, log st' = (l ++ log st)%list.

Lemma grows_refl st : grows st st. Proof. by exists []. Qed.
Lemma grows_trans a b c : grows a b → grows b c → grows a c.
Proof. intros [l H] [k H']. exists (k ++ l)%list. by rewrite H', H, app_assoc. Qed.
#[export] Hint Resolve grows_refl : core.

(** Call [c] was made and answered [r]. *)
Definition happened {T} (c : SysCall T) (r : T) (P : SysState → Prop) (st : sys_state) : Prop :=
  ∃ at_, List.In (Ev c r at_) (log st) ∧ P at_.

Lemma happened_grows {T} (c : SysCall T) r P st st' : grows st st' → happened c r P st → happened c r P st'.
Proof. intros [l E] (a & Hin & Ha). exists a. split; [|done]. rewrite E. apply in_or_app. by right. Qed.

Section install.
Context `{SysHost} `{GoRuntime}.
Variable en : sys_env.

(** Nobody else touches the downloads and the binaries. *)
Definition disk_private : Prop := ∀ lg s, disk (interfere en lg s) = disk s.
Hypothesis Hpriv : disk_private.

(** A report of progress does not touch the disk either, and returns. *)
Definition harmless (report : DownloadProgress → Sys unit) : Prop :=
  ∀ p st, ∃ st', report p en st = (Ok tt, st') ∧ disk (world st') = disk (world st) ∧ grows st st'.

#[local] Set Default Proof Using "Type*".

Lemma call_runs {T} (c : SysCall T) st : ∃ r st', call c en st = (Ok r, st') ∧ disk (world st') = disk (world st)
  ∧ grows st st' ∧ happened c r (λ s, disk s = disk (world st)) st'.
Proof.
  eexists _, _. split; [reflexivity|]. cbn. split; [apply Hpriv|]. split; [by exists [Ev c (answer en T c (log st)) (world st)]|].
  exists (world st). split; [by left|done].
Qed.

(** [callE c]: an error ends the function, a value goes on. *)
Lemma callE_runs {T} (c : SysCall (T + error)) st : ∃ r st', callE c en st = (match r with inl a => Ok a | inr e => Err e end, st')
  ∧ disk (world st') = disk (world st) ∧ grows st st' ∧ happened c r (λ s, disk s = disk (world st)) st'.
Proof.
  destruct (call_runs c st) as (r & st' & E & Hd & Hg & Hh). exists r, st'. unfold callE, bind. rewrite E. by destruct r.
Qed.

(** What a step may do to the disk: nothing but to the file [tmp]. *)
Definition only (tmp : string) (d d' : gmap string string) : Prop := ∀ p, p ≠ tmp → d' !! p = d !! p.

Lemma only_refl tmp d : only tmp d d. Proof. by intros p _. Qed.
Lemma only_trans tmp a b c : only tmp a b → only tmp b c → only tmp a c.
Proof. intros H1 H2 p Hp. by rewrite H2, H1. Qed.
Lemma only_eq tmp d d' : d' = d → only tmp d d'. Proof. by intros ->. Qed.
Lemma only_insert tmp d v : only tmp d (<[tmp := v]> d). Proof. intros p Hp. by rewrite lookup_insert_ne. Qed.
Lemma only_delete tmp d : only tmp d (delete tmp d). Proof. intros p Hp. by rewrite lookup_delete_ne. Qed.

(** [m] touches at most the file [tmp], keeps the log, and returns with [Q] if it does. *)
Definition runs {A} (tmp : string) (m : Sys A) (st : sys_state) (Q : A → sys_state → Prop) : Prop :=
  let '(o, st') := m en st in
  only tmp (disk (world st)) (disk (world st')) ∧ grows st st' ∧ match o with Ok a => Q a st' | _ => True end.

Lemma runs_bind {A B} tmp (m : Sys A) (k : A → Sys B) st Q1 Q :
  runs tmp m st Q1 → (∀ a st1, Q1 a st1 → grows st st1 → runs tmp (k a) st1 Q) → runs tmp (bind m k) st Q.
Proof.
  unfold runs, bind. intros Hm Hk. destruct (m en st) as [[a|e| |] st1]; destruct Hm as (Ho & Hg & Hq); [|by repeat split..].
  specialize (Hk a st1 Hq Hg). destruct (k a en st1) as [o st2]. destruct Hk as (Ho' & Hg' & Hq').
  split; [by eapply only_trans|]. split; [by eapply grows_trans|done].
Qed.

Lemma runs_weaken {A} tmp (m : Sys A) st (Q Q' : A → sys_state → Prop) :
  runs tmp m st Q' → (∀ a st', Q' a st' → grows st st' → Q a st') → runs tmp m st Q.
Proof. unfold runs. intros Hm HQ. destruct (m en st) as [[a|e| |] st1]; destruct Hm as (Ho & Hg & Hq); auto. Qed.

Lemma runs_return {A} tmp (a : A) st (Q : A → sys_state → Prop) : Q a st → runs tmp (ret a) st Q.
Proof. intros HQ. split; [apply only_refl|]. by split. Qed.
Lemma runs_throw {A} tmp e st (Q : A → sys_state → Prop) : runs tmp (throw e) st Q.
Proof. split; [apply only_refl|]. by split. Qed.
Lemma runs_panic {A} tmp st (Q : A → sys_state → Prop) : runs tmp panic st Q.
Proof. split; [apply only_refl|]. by split. Qed.
Lemma runs_hang {A} tmp st (Q : A → sys_state → Prop) : runs tmp hang st Q.
Proof. split; [apply only_refl|]. by split. Qed.

Lemma runs_gets {A B} tmp (g : SysState → A) (k : A → Sys B) st Q : runs tmp (k (g (world st))) st Q → runs tmp (bind (gets g) k) st Q.
Proof. done. Qed.

Lemma runs_try {A} tmp (m : Sys A) st (Q : A → sys_state → Prop) (E : sys_state → Prop) :
  runs tmp m st Q → (∀ st', grows st st' → E st') → runs tmp (try_ m) st (λ r st', match r with inl a => Q a st' | inr _ => E st' end).
Proof. unfold runs, try_. intros Hm HE. destruct (m en st) as [[a|e| |] st1]; destruct Hm as (Ho & Hg & Hq); auto. Qed.

(** A change of the state that leaves every file but [tmp] as it is. *)
Lemma runs_modify {B} tmp (f : SysState → SysState) (k : Sys B) st Q :
  only tmp (disk (world st)) (disk (f (world st))) → runs tmp k (mk_state (f (world st)) (log st)) Q → runs tmp (modify f;; k) st Q.
Proof.
  intros Hf Hk. unfold runs, bind, modify in *. destruct (k en _) as [o st']. destruct Hk as (Ho & Hg & Hq).
  split; [by eapply only_trans|]. by split.
Qed.

Lemma runs_call {T B} tmp (c : SysCall T) (k : T → Sys B) st Q :
  (∀ r st1, disk (world st1) = disk (world st) → grows st st1 → happened c r (λ s, disk s = disk (world st)) st1 → runs tmp (k r) st1 Q) →
  runs tmp (bind (call c) k) st Q.
Proof.
  intros Hk. destruct (call_runs c st) as (r & st1 & E & Hd & Hg & Hh).
  eapply runs_bind with (Q1 := λ a s, a = r ∧ s = st1); [|intros ? ? [-> ->] _; by apply Hk].
  unfold runs. rewrite E. split; [by apply only_eq|]. by split.
Qed.

Lemma runs_callE {T B} tmp (c : SysCall (T + error)) (k : T → Sys B) st Q :
  (∀ r st1, disk (world st1) = disk (world st) → grows st st1 → happened c (inl r) (λ s, disk s = disk (world st)) st1 → runs tmp (k r) st1 Q) →
  runs tmp (bind (callE c) k) st Q.
Proof.
  intros Hk. destruct (callE_runs c st) as (r & st1 & E & Hd & Hg & Hh).
  eapply runs_bind with (Q1 := λ a s, r = inl a ∧ s = st1); [|intros ? ? [-> ->] _; by apply Hk].
  unfold runs. rewrite E. split; [by apply only_eq|]. split; [done|]. by destruct r.
Qed.

(** A cleanup that only gives a lock back. *)
Lemma runs_finally {A} tmp (m : Sys A) (f : SysState → SysState) st Q :
  (∀ s, disk (f s) = disk s) → runs tmp m st (λ a st', Q a (mk_state (f (world st')) (log st'))) → runs tmp (finally m (modify f)) st Q.
Proof.
  intros Hf Hm. unfold runs, finally, modify in *. destruct (m en st) as [[a|e| |] st1]; destruct Hm as (Ho & Hg & Hq);
    cbn; rewrite ?Hf; by repeat split.
Qed.

(** ** The download *)

(** The pieces of a body. *)
Definition whole (body : list string) : string := fold_right String.append "" body.
Definition content (tmp : string) (s : SysState) : string := default "" (disk s !! tmp).

Lemma content_insert tmp v s : content tmp (put_disk (<[tmp := v]> (disk s)) s) = v.
Proof. unfold content. cbn. by rewrite lookup_insert_eq. Qed.

Lemma copy_body_runs tmp report size body last : harmless report → ∀ total st,
  runs tmp (copy_body tmp report size total body last) st
    (λ _ st', last = None ∧ content tmp (world st') = content tmp (world st) +:+ whole body).
Proof.
  intros Hrep. induction body as [|piece body IH]; intros total st; cbn [copy_body].
  { destruct last; [apply runs_throw|]. apply runs_return. cbn. by rewrite str_app_nil_r. }
  destruct (Hrep {| dp_FilePath := tmp; dp_Increment := N.of_nat (String.length piece);
    dp_CurrentBytes := wrap64 (total + N.of_nat (String.length piece)); dp_TotalFileSize := size |} st) as (st1 & E & Hd & Hg).
  apply runs_bind with (Q1 := λ _ s, s = st1).
  { unfold runs. rewrite E. split; [by apply only_eq|by split]. }
  intros _ _ -> _. apply runs_callE. intros _ st2 Hd2 _ _. apply runs_modify; [apply only_insert|].
  eapply runs_weaken; [apply IH|]. cbn [world]. intros _ st' [Hl Hc] _. split; [done|]. rewrite Hc, content_insert.
  unfold content. rewrite Hd2, Hd. cbn. by rewrite str_app_assoc.
Qed.

(** The response whose body is in the file. *)
Definition fetched (url : string) (bytes : string) (st : sys_state) : Prop :=
  ∃ resp, happened (HttpGet url) (inl resp) (λ _, True) st ∧ hr_Error resp = None ∧ bytes = whole (hr_Body resp).

Lemma fetched_grows url bytes st st' : grows st st' → fetched url bytes st → fetched url bytes st'.
Proof. intros Hg (resp & Hh & ?). exists resp. split; [by eapply happened_grows|done]. Qed.

Lemma happened_weaken {T} (c : SysCall T) r (P P' : SysState → Prop) st : (∀ s, P s → P' s) → happened c r P st → happened c r P' st.
Proof. intros HP (a & ? & ?). exists a. auto. Qed.

Lemma DownloadURL_runs tmp url report st : harmless report →
  runs tmp (DownloadURL tmp url report) st (λ _ st', fetched url (content tmp (world st')) st').
Proof.
  intros Hrep. unfold DownloadURL. apply runs_gets. destruct (default false _); [apply runs_throw|].
  apply runs_modify; [apply only_refl|]. apply runs_finally; [done|]. unfold download_body.
  apply runs_callE. intros _ st1 _ _ _. apply runs_modify; [apply only_insert|].
  apply runs_callE. intros resp st2 Hd2 _ Hh. destruct (Atoi _); [|apply runs_throw].
  eapply runs_weaken; [by apply copy_body_runs|]. intros _ st' [Hl Hc] Hg. exists resp.
  split; [|split; [done|]].
  - eapply happened_grows; [exact Hg|]. by eapply happened_weaken; [|exact Hh].
  - change (content tmp (world st') = whole (hr_Body resp)). rewrite Hc. unfold content at 1. rewrite Hd2. cbn.
    by rewrite lookup_insert_eq.
Qed.

(** What the manifest says of these bytes: nothing to go by, or their checksum. *)
Definition checksum_ok (answer : http_response + error) (bytes : string) : Prop :=
  match answer with
  | inr _ => True
  | inl resp =>
      hr_Status resp ≠ 200%Z ∨ (∃ e, read_limited resp = inr e)
      ∨ ∃ manifest field, read_limited resp = inl manifest ∧ first_field manifest = Some field
          ∧ (String.length (to_lower field) ≠ 64%nat ∨ sha256_hex bytes = to_lower field)
  end.

Definition manifest_agrees (url bytes : string) (st : sys_state) : Prop :=
  ∃ answer, happened (HttpGet (url +:+ ".sha256")) answer (λ _, True) st ∧ checksum_ok answer bytes.

Lemma GetRemote_runs turns tmp url st :
  runs tmp (try_ (GetRemoteFileWithStatus turns url)) st (λ r st',
    disk (world st') = disk (world st) ∧ ∃ answer, happened (HttpGet url) answer (λ _, True) st'
      ∧ match r with inl resp => answer = inl resp | inr _ => ∃ e, answer = inr e end).
Proof.
  revert st. induction turns as [|turns IH]; intros st; cbn [GetRemoteFileWithStatus].
  { split; [apply only_refl|]. by split. }
  destruct (call_runs (HttpGet url) st) as (r & st1 & E & Hd & Hg & Hh).
  assert (happened (HttpGet url) r (λ _, True) st1) as Hh' by (by eapply happened_weaken; [|exact Hh]).
  unfold runs, try_, bind. rewrite E. destruct r as [resp|e].
  - cbn. split; [by apply only_eq|]. split; [done|]. split; [done|]. by exists (inl resp).
  - destruct (str_contains _ _).
    + destruct (call_runs PauseSecond st1) as (u & st2 & E2 & Hd2 & Hg2 & _). rewrite E2.
      specialize (IH st2). unfold runs, try_ in IH. rewrite Hd2, Hd in IH.
      destruct (GetRemoteFileWithStatus turns url en st2) as [[a|e'| |] st3]; destruct IH as (Ho & Hg3 & IH);
        (split; [done|split; [by do 2 (eapply grows_trans; [eassumption|])|done]]).
    + cbn. split; [by apply only_eq|]. split; [done|]. split; [done|]. exists (inr e). split; [done|by eexists].
Qed.

Lemma manifest_grows url bytes st st' : grows st st' → manifest_agrees url bytes st → manifest_agrees url bytes st'.
Proof. intros Hg (a & Hh & Hc). exists a. split; [by eapply happened_grows|done]. Qed.

Lemma verify_runs turns tmp url st :
  runs tmp (verifyRemoteChecksum turns tmp url) st (λ _ st',
    disk (world st') = disk (world st) ∧ manifest_agrees url (content tmp (world st)) st').
Proof.
  unfold verifyRemoteChecksum. eapply runs_bind; [apply GetRemote_runs|]. intros r st1 (Hd & answer & Hh & Hr) _.
  destruct r as [resp|e]; [|apply runs_return; split; [done|]; exists answer; split; [done|]; by destruct Hr as [e' ->]].
  subst answer. assert (∀ st', grows st1 st' → checksum_ok (inl resp) (content tmp (world st)) → manifest_agrees url (content tmp (world st)) st') as Hok.
  { intros st' Hg Hc. exists (inl resp). split; [by eapply happened_grows|done]. }
  destruct (Z.eqb_spec (hr_Status resp) 200) as [_|Hne]; cbn [negb]; [|apply runs_return; split; [done|]; apply Hok; [done|by left]].
  destruct (read_limited resp) as [manifest|e] eqn:Em; [|apply runs_return; split; [done|]; apply Hok; [done|right; left; by exists e]].
  destruct (first_field manifest) as [field|] eqn:Ef; [|apply runs_panic].
  destruct (Nat.eqb_spec (String.length (to_lower field)) 64) as [_|Hne]; cbn [negb].
  2: { apply runs_return. split; [done|]. apply Hok; [done|]. right; right. exists manifest, field. split; [done|]. split; [done|by left]. }
  apply runs_callE. intros _ st2 Hd2 Hg2 _. apply runs_callE. intros _ st3 Hd3 Hg3 _. apply runs_gets.
  destruct (String.eqb_spec (sha256_hex (default "" (disk (world st3) !! tmp))) (to_lower field)) as [Heq|]; [|apply runs_throw].
  apply runs_return. split; [congruence|]. apply Hok; [by eapply grows_trans|]. right; right. exists manifest, field.
  split; [done|]. split; [done|]. right. rewrite <- Heq. unfold content. by rewrite Hd3, Hd2, Hd.
Qed.

(** The signature was checked on these very bytes, where signatures are enforced. *)
Definition signature_ok (tmp bytes : string) (st : sys_state) : Prop :=
  codesign_enforcing = true → happened (CodesignVerify tmp) (inl tt) (λ s, content tmp s = bytes) st.

Definition verified (tmp url bytes : string) (st : sys_state) : Prop :=
  fetched url bytes st ∧ manifest_agrees url bytes st ∧ signature_ok tmp bytes st.

Lemma os_delete_runs tmp st {B} (k : unit + error → Sys B) Q :
  (∀ r st', grows st st' → runs tmp (k r) st' Q) → runs tmp (bind (os_delete tmp) k) st Q.
Proof.
  intros Hk. apply runs_bind with (Q1 := λ _ _, True); [|intros r st' _ Hg; by apply Hk].
  unfold os_delete. apply runs_call. intros [[]|e] st1 _ _ _; [|by apply runs_return].
  apply runs_modify; [apply only_delete|]. by apply runs_return.
Qed.

Lemma verified_download_runs turns tmp url report st : harmless report →
  runs tmp (verified_download turns tmp url report) st (λ _ st', verified tmp url (content tmp (world st')) st').
Proof.
  intros Hrep. unfold verified_download. eapply runs_bind; [by apply DownloadURL_runs|]. intros u st1 Hf _. cbn beta in Hf.
  eapply runs_bind; [apply runs_try with (E := λ _, True); [apply verify_runs|done]|].
  intros [[]|e] st2; [|intros _ _; apply os_delete_runs; intros; apply runs_throw]. intros (Hd2 & Hm) Hg2.
  apply runs_call. intros sig st3 Hd3 Hg3 Hs.
  apply runs_bind with (Q1 := λ _ st', disk (world st') = disk (world st1) ∧ signature_ok tmp (content tmp (world st1)) st').
  { destruct sig as [[]|e].
    - apply runs_return. split; [congruence|]. intros _. eapply happened_weaken; [|exact Hs]. intros s Hds. unfold content. by rewrite Hds, Hd2.
    - unfold signature_ok. destruct codesign_enforcing; [apply os_delete_runs; intros; apply runs_throw|]. apply runs_return. split; [congruence|done]. }
  intros _ st4 (Hd4 & Hsig) Hg4. 
  destruct (callE_runs (OsChmod tmp) st4) as (r & st5 & E & Hd5 & Hg5 & _). unfold runs. rewrite E.
  split; [by apply only_eq|]. split; [done|]. destruct r as [[]|]; [|done].
  assert (content tmp (world st5) = content tmp (world st1)) as -> by (unfold content; by rewrite Hd5, Hd4).
  split; [|split].
  - do 4 (eapply fetched_grows; [eassumption|]). done.
  - do 3 (eapply manifest_grows; [eassumption|]). done.
  - intros He. eapply happened_grows; [exact Hg5|]. by apply Hsig.
Qed.
End install.

(** C27: a binary is replaced only by a verified download: whatever the network, the disk and
    the signature check answer, the destination is as it was unless [downloadBinary]
    succeeds, and then it holds exactly the body that the update server sent to the end,
    which agrees with the checksum published next to it wherever one can be read, and whose
    signature was checked on these very bytes where signatures are enforced. *)
Theorem install_is_verified `{SysHost} `{GoRuntime} en turns fileName bucketName version included report st :
  disk_private en → harmless en report →
  let tmp := binary_download fileName version in
  let url := buildBinaryDownloadURL (updateBaseURL (config (world st))) bucketName goos build_arch version fileName in
  let target := binary_destination fileName version included in
  target ≠ tmp →
  let '(o, st') := downloadBinary turns fileName bucketName version included report en st in
  match o with
  | Ok _ => ∃ bytes, disk (world st') !! target = Some bytes ∧ verified tmp url bytes st'
  | _ => disk (world st') !! target = disk (world st) !! target
  end ∧ ∀ p, p ≠ target → p ≠ tmp → disk (world st') !! p = disk (world st) !! p.
Proof.
  intros Hpriv Hrep tmp url target Hne. unfold downloadBinary, bind at 1, gets. cbn beta iota zeta. fold tmp url target.
  pose proof (verified_download_runs en Hpriv turns tmp url report st Hrep) as Hv. unfold runs in Hv. unfold bind at 1.
  destruct (verified_download turns tmp url report en st) as [[[]|e| |] st1]; destruct Hv as (Ho & Hg & Hv); [|by split; auto..].
  unfold os_move, bind, gets. destruct (disk (world st1) !! tmp) as [bytes|] eqn:Et; [|by split; auto].
  destruct (callE_runs en Hpriv (OsMove tmp target) st1) as (r & st2 & E & Hd & Hg2 & _). rewrite E.
  destruct r as [[]|e]; [|rewrite Hd; by split; auto]. unfold modify. cbn [world log disk put_disk]. rewrite Hd. split.
  - exists bytes. split; [apply lookup_insert_eq|]. unfold content in Hv. rewrite Et in Hv. cbn in Hv.
    destruct Hv as (Hf & Hm & Hsig). split; [by eapply fetched_grows; [exact Hg2|]|]. split; [by eapply manifest_grows; [exact Hg2|]|].
    intros He. eapply happened_grows; [exact Hg2|]. by apply Hsig.
  - intros p Hp Hpt. rewrite lookup_insert_ne, lookup_delete_ne by done. by apply Ho.
Qed.

(** ** The configuration file *)

(** Nobody else changes the configuration while a function here waits. *)
Definition undisturbed (en : sys_env) : Prop := ∀ lg s, interfere en lg s = s.

(** What the file holds after a configuration was saved. *)
Definition stored_config (c : ReswarmConfig) : config_file := JsonDoc (VMap (MarshalConfig c)).

Section config.
Context `{SysHost} `{GoRuntime}.
Variable en : sys_env.
Hypothesis Hpriv : undisturbed en.
#[local] Set Default Proof Using "Type*".

Lemma call_undisturbed {T} (c : SysCall T) st :
  call c en st = (Ok (answer en T c (log st)), mk_state (world st) (Ev c (answer en T c (log st)) (world st) :: log st)).
Proof. unfold call. cbn zeta. by rewrite Hpriv. Qed.

Lemma save_succeeds c st : (∀ lg, answer en _ (WriteFlock config_location) lg = inl tt) →
  ∃ lg, SaveReswarmConfig c en st = (Ok tt, mk_state (put_flock (Some (stored_config c)) (world st)) lg).
Proof. intros Hw. eexists. unfold SaveReswarmConfig, bind at 1. rewrite call_undisturbed, Hw. reflexivity. Qed.

Lemma load_succeeds st : (∀ lg, answer en _ (WriteFlock config_location) lg = inl tt) →
  (∀ lg, answer en _ (ReadFlock config_location) lg = inl tt) →
  let c := migrate (match flock (world st) with Some f => decoded f | None => empty_config end) in
  ∃ lg, LoadReswarmConfig en st = (Ok c, mk_state (put_flock (Some (stored_config c)) (world st)) lg).
Proof.
  intros Hw Hr c. unfold LoadReswarmConfig, callE, bind at 1 2. rewrite call_undisturbed, Hr. cbn [lift ret].
  unfold bind, gets. cbn [world]. fold c. unfold try_. destruct (save_succeeds c (mk_state (world st) (Ev (ReadFlock config_location) (inl tt) (world st) :: log st)) Hw)
    as [lg E]. cbn [lift ret]. rewrite E. by exists lg.
Qed.

Lemma save_fails c st e : answer en _ (WriteFlock config_location) (log st) = inr (true, e) →
  ∃ lg, SaveReswarmConfig c en st = (Err e, mk_state (put_flock (Some NoJson) (world st)) lg).
Proof. intros Hw. eexists. unfold SaveReswarmConfig, bind at 1. rewrite call_undisturbed, Hw. reflexivity. Qed.
End config.

Definition old_registry (c : ReswarmConfig) : bool := String.eqb (rc_DockerRegistryURL c) "registry.reswarm.io/".
Definition old_endpoint (c : ReswarmConfig) : bool := String.eqb (rc_DeviceEndpointURL c) "wss://cbw.record-evolution.com/ws-re-dev".

Lemma migrate_fixed c : old_registry c = false → old_endpoint c = false → migrate c = c.
Proof. unfold old_registry, old_endpoint, migrate. intros -> He. cbn zeta. by rewrite He. Qed.

Lemma migrate_current c : old_registry (migrate c) = false ∧ old_endpoint (migrate c) = false.
Proof.
  unfold migrate, old_registry, old_endpoint. destruct (String.eqb (rc_DockerRegistryURL c) "registry.reswarm.io/") eqn:Hr; cbn zeta.
  - destruct (String.eqb (rc_DeviceEndpointURL (set_registry _ c)) _) eqn:He; by split.
  - destruct (String.eqb (rc_DeviceEndpointURL c) _) eqn:He; by split.
Qed.

Lemma migrate_idem c : migrate (migrate c) = migrate c.
Proof. destruct (migrate_current c). by apply migrate_fixed. Qed.

(** *** A configuration through its document *)

Definition valid_text (s : string) : bool := TerminalSpec.Valid (bytes_of s).

Lemma to_valid_valid b : TerminalSpec.utf8 b → to_valid b = b.
Proof.
  induction 1 as [|r b Hr _ IH]; [done|].
  destruct r as [|a [|b1 [|c [|d [|]]]]]; try discriminate Hr; cbn [app to_valid].
  - by rewrite Hr, IH.
  - destruct (TerminalSpec.is_rune [a]) eqn:H1; [exfalso; revert Hr H1; unfold TerminalSpec.is_rune, TerminalSpec.in_range; lia|]. by rewrite Hr, IH.
  - destruct (TerminalSpec.is_rune [a]) eqn:H1; [exfalso; revert Hr H1; unfold TerminalSpec.is_rune, TerminalSpec.in_range; lia|].
    destruct (TerminalSpec.is_rune [a; b1]) eqn:H2; [exfalso; revert Hr H2; unfold TerminalSpec.is_rune, TerminalSpec.in_range; lia|]. by rewrite Hr, IH.
  - destruct (TerminalSpec.is_rune [a]) eqn:H1; [exfalso; revert Hr H1; unfold TerminalSpec.is_rune, TerminalSpec.in_range; lia|].
    destruct (TerminalSpec.is_rune [a; b1]) eqn:H2; [exfalso; revert Hr H2; unfold TerminalSpec.is_rune, TerminalSpec.in_range; lia|].
    destruct (TerminalSpec.is_rune [a; b1; c]) eqn:H3; [exfalso; revert Hr H3; unfold TerminalSpec.is_rune, TerminalSpec.in_range; lia|]. by rewrite Hr, IH.
Qed.

Lemma string_of_bytes s : string_of (bytes_of s) = s.
Proof.
  unfold string_of, bytes_of. rewrite map_map. rewrite (map_ext _ id); [rewrite map_id; apply String.string_of_list_ascii_of_string|].
  intros a. rewrite N2Z.id. apply Ascii.ascii_N_embedding.
Qed.

Lemma json_text_valid s : valid_text s = true → json_text s = s.
Proof. intros Hv. unfold json_text. rewrite to_valid_valid by (by apply TerminalSpec.Valid_utf8). apply string_of_bytes. Qed.

(** What a decoder of JSON can have put into a field of any type. *)
Definition decoded_value (v : goval) : Prop := json_roundtrip (json_texts v) = v.
Definition int64 (z : Z) : Prop := (- 2 ^ 63 ≤ z < 2 ^ 63)%Z.

(** The texts of a configuration that are stored. *)
Definition texts_of (c : ReswarmConfig) : list string :=
  [rc_Name c; rc_Secret c; bd_CPU (rc_Board c); bd_Board (rc_Board c); bd_Model (rc_Board c); bd_Boardname (rc_Board c); bd_Modelname (rc_Board c);
   bd_Architecture (rc_Board c); rc_Status c; rc_Password c; rc_Wlanssid c; rc_SwarmName c; rc_Architecture c; rc_SerialNumber c;
   au_Key (rc_Authentication c); au_Certificate (rc_Authentication c); rc_SwarmOwnerName c; rc_ConfigPassphrase c; rc_DeviceEndpointURL c;
   rc_Environment c; rc_DockerRegistryURL c; rc_InsecureRegistries c; rc_DockerMainRepository c; rc_ApplianceDomain c; rc_UpdateURL c].

Record storable (c : ReswarmConfig) : Prop := {
  st_texts : Forall (λ s, valid_text s = true) (texts_of c);
  st_keys : int64 (rc_SwarmKey c) ∧ int64 (rc_DeviceKey c);
  st_any : decoded_value (bd_Docs (rc_Board c)) ∧ decoded_value (rc_Description c);
}.

(** A configuration without the field that is not stored. *)
Definition without_base (c : ReswarmConfig) : ReswarmConfig :=
  {| rc_Name := rc_Name c; rc_Secret := rc_Secret c; rc_Board := rc_Board c; rc_Status := rc_Status c; rc_Password := rc_Password c;
     rc_Wlanssid := rc_Wlanssid c; rc_SwarmKey := rc_SwarmKey c; rc_DeviceKey := rc_DeviceKey c; rc_SwarmName := rc_SwarmName c;
     rc_Description := rc_Description c; rc_Architecture := rc_Architecture c; rc_SerialNumber := rc_SerialNumber c;
     rc_Authentication := rc_Authentication c; rc_SwarmOwnerName := rc_SwarmOwnerName c; rc_ConfigPassphrase := rc_ConfigPassphrase c;
     rc_DeviceEndpointURL := rc_DeviceEndpointURL c; rc_Environment := rc_Environment c; rc_DockerRegistryURL := rc_DockerRegistryURL c;
     rc_InsecureRegistries := rc_InsecureRegistries c; rc_DockerMainRepository := rc_DockerMainRepository c;
     rc_ApplianceDomain := rc_ApplianceDomain c; rc_UpdateURL := rc_UpdateURL c; rc_ReswarmBaseURL := "" |}.

Section fields.
Context {A : Type}.
Implicit Types (set : goval → A → A) (z : A).
Lemma field_take k set z k' v m : names_field k k' = true → field k set z ((k', v) :: m) = field k set (set v z) m.
Proof. intros Hn. unfold field. cbn [foldl fst snd]. by rewrite Hn. Qed.
Lemma field_skip k set z k' v m : names_field k k' = false → field k set z ((k', v) :: m) = field k set z m.
Proof. intros Hn. unfold field. cbn [foldl fst snd]. by rewrite Hn. Qed.
Lemma field_omit k set z k' v m : names_field k k' = false → field k set z (omitempty k' v ++ m) = field k set z m.
Proof. intros Hn. unfold omitempty. destruct (String.eqb v ""); [done|]. by apply field_skip. Qed.
Lemma field_none k set z : field k set z [] = z.
Proof. done. Qed.
End fields.

Lemma field_omitted k k' v m : names_field k k' = true → field k set_text "" (omitempty k' v ++ m) = field k set_text (json_text v) m.
Proof.
  intros Hn. unfold omitempty. destruct (String.eqb_spec v "") as [->|Hv]; [done|]. cbn [app]. by rewrite field_take.
Qed.

Lemma set_int_int64 z old : int64 z → set_int (VInt z) old = z.
Proof. intros [H1 H2]. unfold set_int. apply Z.leb_le in H1. apply Z.ltb_lt in H2. by rewrite H1, H2. Qed.

Ltac fields := repeat first [rewrite field_skip by reflexivity | rewrite field_omit by reflexivity | rewrite field_take by reflexivity
  | rewrite field_omitted by reflexivity]; rewrite ?field_none.

Lemma unmarshal_board_spec b : Forall (λ s, valid_text s = true) [bd_CPU b; bd_Board b; bd_Model b; bd_Boardname b; bd_Modelname b; bd_Architecture b] →
  decoded_value (bd_Docs b) → unmarshal_board (marshal_board b) empty_board = b.
Proof.
  intros Ht Hd. repeat match goal with H : Forall _ (_ :: _) |- _ => inversion H; clear H; subst end.
  destruct b as [cpu docs bo mo bn mn re ar]. cbn in *. unfold unmarshal_board, marshal_board, empty_board. cbn [bd_CPU bd_Docs bd_Board bd_Model bd_Boardname bd_Modelname bd_Reflasher bd_Architecture].
  f_equal; fields; cbn [set_text set_any set_bool text]; by rewrite ?json_text_valid.
Qed.

Lemma unmarshal_authentication_spec a : valid_text (au_Key a) = true → valid_text (au_Certificate a) = true →
  unmarshal_authentication (marshal_authentication a) {| au_Key := ""; au_Certificate := "" |} = a.
Proof.
  intros Hk Hc. destruct a as [k c]. cbn in *. unfold unmarshal_authentication, marshal_authentication. cbn [au_Key au_Certificate].
  f_equal; fields; cbn [set_text text]; by rewrite json_text_valid.
Qed.

(** A stored configuration is decoded as it was, but for the field that is not stored. *)
Lemma unmarshal_marshal c : storable c → UnmarshalConfig (MarshalConfig c) empty_config = without_base c.
Proof.
  intros [Ht [Hs Hd] [Hdocs Hdesc]]. unfold texts_of in Ht. repeat match goal with H : Forall _ (_ :: _) |- _ => inversion H; clear H; subst end.
  unfold UnmarshalConfig, MarshalConfig, without_base. f_equal; fields; cbn [set_text set_any set_board set_authentication text]; try (by apply json_text_valid).
  - apply unmarshal_board_spec; [by repeat constructor|done].
  - by apply set_int_int64.
  - by apply set_int_int64.
  - done.
  - by apply unmarshal_authentication_spec.
Qed.

Lemma storable_migrate c : storable c → storable (migrate (without_base c)).
Proof.
  intros [Ht Hk Ha]. unfold texts_of in Ht. repeat match goal with H : Forall _ (_ :: _) |- _ => inversion H; clear H; subst end.
  unfold migrate. repeat case_match; (split; [|done|done]); unfold texts_of; cbn [set_registry set_endpoint]; repeat (constructor; [done || reflexivity|]); constructor.
Qed.

Lemma migrate_base c : without_base (migrate (without_base c)) = migrate (without_base c).
Proof. unfold migrate. repeat case_match; reflexivity. Qed.

(** C29: a configuration whose texts are valid is loaded as it was saved, with two exceptions:
    the base address is never stored and comes back empty, and the addresses of the time
    before the renaming are replaced; the file then holds what was loaded, under the names of
    the tags, and however often it is loaded nothing changes any more. *)
Theorem config_roundtrip `{SysHost} `{GoRuntime} en c st : undisturbed en → storable c →
  (∀ lg, answer en _ (WriteFlock config_location) lg = inl tt) → (∀ lg, answer en _ (ReadFlock config_location) lg = inl tt) →
  let c' := migrate (without_base c) in
  ∃ st1 st2, (SaveReswarmConfig c;; LoadReswarmConfig) en st = (Ok c', st1)
    ∧ LoadReswarmConfig en st1 = (Ok c', st2)
    ∧ flock (world st1) = Some (stored_config c') ∧ flock (world st2) = Some (stored_config c').
Proof.
  intros Hu Hc Hw Hr. destruct (save_succeeds en Hu c st Hw) as [lg E]. unfold bind. rewrite E.
  destruct (load_succeeds en Hu (mk_state (put_flock (Some (stored_config c)) (world st)) lg) Hw Hr) as [lg1 E1]. rewrite E1.
  cbn [world flock put_flock decoded stored_config]. rewrite (unmarshal_marshal c Hc). eexists.
  destruct (load_succeeds en Hu (mk_state (put_flock (Some (stored_config (migrate (without_base c)))) (world st)) lg1) Hw Hr) as [lg2 E2].
  cbn [world flock put_flock decoded stored_config] in E2. rewrite (unmarshal_marshal _ (storable_migrate c Hc)), migrate_base, migrate_idem in E2.
  eexists. split; [reflexivity|]. split; [exact E2|done].
Qed.

(** ** The identity of the device *)

(** What of a configuration the refresh may change. *)
Definition same_device (c c' : ReswarmConfig) : Prop :=
  rc_DeviceKey c' = rc_DeviceKey c ∧ rc_Environment c' = rc_Environment c ∧ rc_DeviceEndpointURL c' = rc_DeviceEndpointURL c
  ∧ rc_DockerRegistryURL c' = rc_DockerRegistryURL c ∧ rc_UpdateURL c' = rc_UpdateURL c
  ∧ rc_Secret c' = rc_Secret c ∧ rc_Board c' = rc_Board c ∧ rc_Status c' = rc_Status c ∧ rc_Password c' = rc_Password c ∧ rc_Wlanssid c' = rc_Wlanssid c
  ∧ rc_Description c' = rc_Description c ∧ rc_Architecture c' = rc_Architecture c ∧ rc_SerialNumber c' = rc_SerialNumber c
  ∧ rc_Authentication c' = rc_Authentication c ∧ rc_ConfigPassphrase c' = rc_ConfigPassphrase c ∧ rc_InsecureRegistries c' = rc_InsecureRegistries c
  ∧ rc_DockerMainRepository c' = rc_DockerMainRepository c ∧ rc_ApplianceDomain c' = rc_ApplianceDomain c ∧ rc_ReswarmBaseURL c' = rc_ReswarmBaseURL c.

Lemma same_device_refl c : same_device c c. Proof. done. Qed.

Lemma save_config_private `{SysHost} en c st : undisturbed en → config (world (SaveReswarmConfig c en st).2) = config (world st)
  ∧ disk (world (SaveReswarmConfig c en st).2) = disk (world st)
  ∧ match (SaveReswarmConfig c en st).1 with Ok _ => flock (world (SaveReswarmConfig c en st).2) = Some (stored_config c) | Err _ => True | _ => False end.
Proof.
  intros Hu. assert (∃ o lg f, SaveReswarmConfig c en st = (o, mk_state (put_flock f (world st)) lg)
    ∧ match o with Ok _ => f = Some (stored_config c) | Err _ => True | _ => False end) as (o & lg & f & -> & Hf).
  { unfold SaveReswarmConfig, bind at 1. rewrite (call_undisturbed en Hu). destruct st as [w lg].
    destruct (answer en _ _ _) as [[]|[[] e]].
    - eexists _, _, _. split; reflexivity.
    - eexists _, _, _. split; [reflexivity|done].
    - eexists _, _, (flock w). split; [destruct w; reflexivity|done]. }
  cbn. destruct o; naive_solver.
Qed.

(** the refresh of the identity either learns a whole new one or changes nothing: on an
    error of the call or a payload without a number for the project, nothing in memory or in
    the file has changed; otherwise the new project and names are in memory, all else of the
    configuration is as it was, the caller is told exactly whether the project changed, and
    unless an error is reported the file holds the same. *)
Theorem identity_refresh `{SysHost} `{GoRuntime} en st : undisturbed en →
  let '(o, st') := UpdateDeviceMetadata en st in
  disk (world st') = disk (world st)
  ∧ match o with
    | Ok (changed, saved) =>
        same_device (config (world st)) (config (world st'))
        ∧ changed = negb (rc_SwarmKey (config (world st)) =? rc_SwarmKey (config (world st')))%Z
        ∧ (saved = None → flock (world st') = Some (stored_config (config (world st'))))
    | _ => config (world st') = config (world st) ∧ flock (world st') = flock (world st)
    end.
Proof.
  intros Hu. unfold UpdateDeviceMetadata, callE. unfold bind at 1, gets. cbn beta iota.
  unfold bind at 1 2. rewrite (call_undisturbed en Hu). set (st1 := mk_state (world st) _).
  destruct (answer en _ (DeviceMetadata _) (log st)) as [args|e]; [|done]. cbn [lift ret].
  destruct args as [|a args]; [done|]. destruct (as_plain_map a) as [payload|]; [|done].
  destruct (ToUint64 _) as [key|]; [|done]. unfold bind at 1, modify. cbn [world log st1]. unfold bind, try_.
  set (c' := set_identity _ _ _ _ _). set (st2 := mk_state _ _).
  destruct (save_config_private en c' st2 Hu) as (Hc & Hd & Hs).
  destruct (SaveReswarmConfig c' en st2) as [[[]|e| |] st3]; cbn [fst snd] in *; try done; cbn [ret];
    rewrite ?Hs, Hc, Hd; subst st2 c'; cbn; repeat split; done.
Qed.

(** a refresh on a full disk costs the device its identity: the configuration file is
    emptied before it is written, and the next start takes what it cannot decode for an
    empty configuration, returns it and writes it over the file. *)
Theorem failed_refresh_forgets_device `{SysHost} `{GoRuntime} en en' e st payload :
  undisturbed en → undisturbed en' →
  (∀ k lg, answer en _ (DeviceMetadata k) lg = inl [WMap payload]) → ToUint64 (coercible (wget "swarm_key" payload)) ≠ None →
  (∀ lg, answer en _ (WriteFlock config_location) lg = inr (true, e)) →
  (∀ lg, answer en' _ (WriteFlock config_location) lg = inl tt) → (∀ lg, answer en' _ (ReadFlock config_location) lg = inl tt) →
  ∃ changed st1, UpdateDeviceMetadata en st = (Ok (changed, Some e), st1)
    ∧ ∀ c lg, ∃ st2, LoadReswarmConfig en' (mk_state (put_config c (world st1)) lg) = (Ok empty_config, st2)
        ∧ flock (world st2) = Some (stored_config empty_config).
Proof.
  intros Hu Hu' Hm Hk Hw Hw' Hr'. unfold UpdateDeviceMetadata, callE. unfold bind at 1, gets. cbn beta iota.
  unfold bind at 1 2. rewrite (call_undisturbed en Hu), Hm. cbn [lift ret as_plain_map].
  destruct (ToUint64 _) as [key|]; [|done]. unfold bind at 1, modify. cbn [world log]. unfold bind, try_.
  set (c' := set_identity _ _ _ _ _). set (st2 := mk_state _ _).
  destruct (save_fails en Hu c' st2 e (Hw _)) as [lg1 E]. rewrite E. eexists _, _. split; [reflexivity|].
  intros c lg. destruct (load_succeeds en' Hu' (mk_state (put_config c (put_flock (Some NoJson) (world st2))) lg) Hw' Hr') as [lg2 E2].
  eexists. split; [exact E2|reflexivity].
Qed.

(** ** The progress loop ends *)

Definition lengths (body : list string) : N := fold_right (λ p n, N.of_nat (String.length p) + n)%N 0%N body.

(** What may still come of the agent's download, and what is stored of it. *)
Inductive update_ok (fp : string) (size : N) : Updating → Prop :=
  | ok_start body : Forall (.≠ "") body → (lengths body ≤ size)%N →
      update_ok fp size {| senders := [[]; reports fp size 0 body]; up_stage := Collecting [] |}
  | ok_running t body : Forall (.≠ "") body → (t + lengths body ≤ size)%N →
      update_ok fp size {| senders := [[]; reports fp size t body]; up_stage := Collecting [(fp, (t, size))] |}
  | ok_waiting : update_ok fp size {| senders := [[]; []]; up_stage := AwaitDownloads |}
  | ok_over : update_ok fp size {| senders := [[]; []]; up_stage := UpdateOver |}.

Lemma store_first fp size t m : m = [] ∨ (∃ t0, m = [(fp, (t0, size))]) →
  store_progress {| dp_FilePath := fp; dp_Increment := 0; dp_CurrentBytes := t; dp_TotalFileSize := size |} m = [(fp, (t, size))].
Proof.
  intros [->|[t0 ->]]; unfold store_progress; cbn -[String.eqb]; rewrite ?String.eqb_refl; cbn -[String.eqb]; by rewrite ?String.eqb_refl.
Qed.

Lemma store_progress_inc fp inc inc' t size m :
  store_progress {| dp_FilePath := fp; dp_Increment := inc; dp_CurrentBytes := t; dp_TotalFileSize := size |} m =
  store_progress {| dp_FilePath := fp; dp_Increment := inc'; dp_CurrentBytes := t; dp_TotalFileSize := size |} m.
Proof. done. Qed.

Lemma all_there_single fp t size : (t < two64)%N → (size < two64)%N → all_there [(fp, (t, size))] = (t =? size)%N.
Proof. intros Ht Hs. unfold all_there, summed. cbn. unfold wrap64. rewrite !N.mod_small by (unfold two64 in *; lia). done. Qed.

Lemma lengths_pos body : Forall (.≠ "") body → lengths body = 0%N → body = [].
Proof.
  intros Hb. destruct Hb as [|p body Hp _]; [done|]. cbn. intros Hz. exfalso. apply Hp. destruct p; [done|]. cbn in Hz. lia.
Qed.

Definition update_rank (u : Updating) : nat :=
  length (concat (senders u)) + match up_stage u with Collecting _ => 2 | AwaitDownloads => 1 | UpdateOver => 0 end.

Lemma update_step fp size u u' : (size < two64)%N → update_ok fp size u → ustep u u' →
  update_ok fp size u' ∧ (update_rank u' < update_rank u)%nat.
Proof.
  intros Hsize Hok Hs.
  assert (∀ t body m, (m = [] ∨ ∃ t0, m = [(fp, (t0, size))]) → Forall (.≠ "") body → (t + lengths body ≤ size)%N → ∀ i p ps,
    [[]; reports fp size t body] !! i = Some (p :: ps) →
    let u' := {| senders := <[i := ps]> [[]; reports fp size t body];
      up_stage := let m := store_progress p m in if all_there m then AwaitDownloads else Collecting m |} in
    update_ok fp size u' ∧ length (concat (senders u')) + 1 = length (reports fp size t body)) as Hrecv.
  { intros t body m Hm Hb Hle i p ps Hi. destruct i as [|[|i]]; cbn in Hi; [done| |done].
    destruct body as [|piece body]; [done|]. cbn [reports] in Hi. injection Hi as <- <-.
    apply Forall_cons in Hb as [Hp Hb]. cbn [lengths fold_right] in Hle. fold (lengths body) in Hle.
    cbn zeta. rewrite (store_progress_inc _ _ 0), (store_first _ _ _ _ Hm).
    assert (wrap64 (t + N.of_nat (String.length piece)) = (t + N.of_nat (String.length piece))%N) as Hw by (apply N.mod_small; unfold two64 in *; lia).
    rewrite Hw.
    assert (t + N.of_nat (String.length piece) < two64)%N as Hlt by lia.
    rewrite (all_there_single _ _ _ Hlt Hsize). cbn -[N.eqb]. rewrite app_nil_r, ?Hw. split; [|lia].
    destruct (N.eqb_spec (t + N.of_nat (String.length piece)) size) as [He|He].
    - rewrite (lengths_pos body Hb) by lia. constructor.
    - constructor; [done|lia]. }
  destruct Hok as [body Hb Hl|t body Hb Hl| |]; inversion Hs as [l i p ps m Hi|l m Hn|l Hn]; subst; unfold update_rank; cbn [senders up_stage].
  - destruct (Hrecv 0%N body [] (or_introl eq_refl) Hb Hl i p ps Hi) as [Hok Hlen]. split; [exact Hok|]. cbn [senders] in Hlen. cbn [concat app]. rewrite app_nil_r.
    destruct (all_there _); lia.
  - cbn in Hn. apply andb_prop in Hn as [Hn _]. apply bool_decide_eq_true in Hn. rewrite Hn. split; [constructor|cbn; lia].
  - destruct (Hrecv t body _ (or_intror (ex_intro _ t eq_refl)) Hb Hl i p ps Hi) as [Hok Hlen]. split; [exact Hok|]. cbn [senders] in Hlen. cbn [concat app]. rewrite app_nil_r.
    destruct (all_there _); lia.
  - cbn in Hn. apply andb_prop in Hn as [Hn _]. apply bool_decide_eq_true in Hn. rewrite Hn. split; [constructor|cbn; lia].
  - split; [constructor|cbn; lia].
Qed.

Lemma update_can_step fp size u : update_ok fp size u → up_stage u = UpdateOver ∨ ∃ u', ustep u u'.
Proof.
  intros [body _ _|t body _ _| |]; [right|right|right|by left].
  - destruct body as [|p body]; [eexists; by apply u_close|]. eexists. by apply (u_receive _ 1).
  - destruct body as [|p body]; [eexists; by apply u_close|]. eexists. by apply (u_receive _ 1).
  - eexists. by apply u_wait.
Qed.

(** C28: an update never waits for ever on its own progress: as long as the body is not longer
    than the server announced, and however it is cut into pieces, every schedule of the
    loop and of the downloads is at most as long as the reports and two steps, can always go
    on until the update is over, and then every report was received. *)
Theorem update_never_hangs fp size body : (size < two64)%N → Forall (.≠ "") body → (lengths body ≤ size)%N →
  ∀ n u, nsteps ustep n (update_start fp size body) u →
    (n ≤ length (reports fp size 0 body) + 2)%nat
    ∧ (up_stage u = UpdateOver ∨ ∃ u', ustep u u') ∧ (up_stage u = UpdateOver → no_reports (senders u) = true).
Proof.
  intros Hs Hb Hl.
  assert (∀ n v u, update_ok fp size v → nsteps ustep n v u → update_ok fp size u ∧ (n + update_rank u ≤ update_rank v)%nat) as Hrun.
  { induction n as [|n IH]; intros v u Hv Hn; [inversion Hn; subst; split; [done|lia]|].
    inversion Hn as [|? ? w ? Hstep Hrest]; subst. destruct (update_step _ _ _ _ Hs Hv Hstep) as [Hw Hlt].
    destruct (IH w u Hw Hrest) as [Hu Hle]. split; [done|lia]. }
  intros n u Hn. destruct (Hrun n _ u (ok_start fp size body Hb Hl) Hn) as [Hu Hle]. split; [|split].
  - unfold update_rank in Hle at 2. cbn in Hle. rewrite app_nil_r in Hle. lia.
  - by eapply update_can_step.
  - intros Ho. by destruct Hu.
Qed.

(** It is the single reporter that keeps it so: were both downloads to report, the first to
    be complete would end the loop, and the other one would wait for ever. *)
Definition report_of (path : string) : DownloadProgress :=
  {| dp_FilePath := path; dp_Increment := 1; dp_CurrentBytes := 1; dp_TotalFileSize := 1 |}.

Example two_reporters_stick :
  let stuck := {| senders := [[]; [report_of "b"]]; up_stage := AwaitDownloads |} in
  ustep {| senders := [[report_of "a"]; [report_of "b"]]; up_stage := Collecting [] |} stuck ∧ ∀ u, ¬ ustep stuck u.
Proof.
  cbn zeta. split.
  - exact (u_receive [[report_of "a"]; [report_of "b"]] 0 (report_of "a") [] [] eq_refl).
  - intros u Hu. inversion Hu as [| |l Hn]; subst. by apply andb_prop in Hn as [_ Hn].
Qed.

(** ** A device on the network *)

#[local] Instance ex_sys : SysHost :=
  {| goos := "linux"; build_arch := "amd64"; agent_version := "1.0.0"; agent_dir := "/opt/reagent"; download_dir := "/opt/reagent/downloads";
     remote_update_url := "https://dl"; config_location := "/opt/reagent/device.flock"; frpc_embedded := true; codesign_enforcing := true;
     sha256_hex := λ s, if String.eqb s "binary" then "0123456789abcdef0123456789abcdef0123456789abcdef0123456789abcdef" else "";
     decode_versions := λ s, [("all", s)]; semver_newer := λ a b, inl (negb (String.eqb a b));
     join_path := String.concat "/" |}.
#[local] Existing Instance amd64_runtime.

Definition manifest_line : string := "0123456789ABCDEF0123456789abcdef0123456789abcdef0123456789abcdef  reagent".

Definition serve (url : string) : http_response :=
  if String.eqb url "https://dl/re-agent/linux/amd64/2.0.0/reagent"
  then {| hr_Status := 200; hr_ContentLength := "6"; hr_Body := ["bin"; "ary"]; hr_Error := None |}
  else if String.eqb url "https://dl/re-agent/linux/amd64/2.0.0/reagent.sha256"
  then {| hr_Status := 200; hr_ContentLength := "73"; hr_Body := [manifest_line]; hr_Error := None |}
  else {| hr_Status := 200; hr_ContentLength := "0"; hr_Body := []; hr_Error := None |}.

Definition answer_sys {T} (flock_write : unit + bool * error) (c : SysCall T) : T :=
  match c with
  | OsCreate _ | OsAppend _ _ | OsOpen _ | OsReadCopy _ | OsChmod _ | OsMove _ _ | OsDelete _ | WriteEmbeddedFrpc _
  | CodesignVerify _ | ReadFlock _ | RaucInstall _ => inl tt
  | OsExists _ => inl true
  | ReadEtcFile _ | RunVersionOf _ => inl ""
  | HttpGet url => inl (serve url)
  | WriteFlock _ => flock_write
  | DeviceMetadata _ => inl [WMap [("swarm_key", WU64 7); ("device_name", WText "pump")]]
  | ReportProgress _ | PauseSecond | FatalExit _ => tt
  end.

Definition healthy_system : sys_env := {| answer := λ T c _, answer_sys (inl tt) c; interfere := λ _ s, s |}.
Definition full_system : sys_env := {| answer := λ T c _, answer_sys (inr (true, Plain "no space left on device")) c; interfere := λ _ s, s |}.

Definition device_config : ReswarmConfig :=
  {| rc_Name := "pump"; rc_Secret := "s"; rc_Board := {| bd_CPU := "arm"; bd_Docs := VNil; bd_Board := "rpi"; bd_Model := "4"; bd_Boardname := "";
       bd_Modelname := ""; bd_Reflasher := true; bd_Architecture := "arm64" |}; rc_Status := ""; rc_Password := ""; rc_Wlanssid := "";
     rc_SwarmKey := 3; rc_DeviceKey := 42; rc_SwarmName := "plant"; rc_Description := VStr "in the hall"; rc_Architecture := "arm64";
     rc_SerialNumber := "1-2"; rc_Authentication := {| au_Key := "k"; au_Certificate := "c" |}; rc_SwarmOwnerName := "acme";
     rc_ConfigPassphrase := ""; rc_DeviceEndpointURL := "wss://cbw.record-evolution.com/ws-re-dev"; rc_Environment := "";
     rc_DockerRegistryURL := "registry.reswarm.io/"; rc_InsecureRegistries := "[]"; rc_DockerMainRepository := "apps/"; rc_ApplianceDomain := "";
     rc_UpdateURL := ""; rc_ReswarmBaseURL := "https://old" |}.

Definition system_start : sys_state :=
  mk_state {| disk := {["/opt/reagent/reagent-v2.0.0" := "old"]}; DownloadLocks := ∅; flock := Some (stored_config device_config); config := device_config |} [].

Definition quiet : DownloadProgress → M SysCall SysState unit := λ _, ret tt.

Lemma quiet_harmless en : harmless en quiet.
Proof. intros p st. by exists st. Qed.

Lemma healthy_undisturbed : undisturbed healthy_system.
Proof. by intros lg s. Qed.

Lemma install_is_verified_witness :
  ∃ st', downloadBinary 3 "reagent" "re-agent" "2.0.0" true quiet healthy_system system_start = (Ok tt, st')
    ∧ disk (world st') !! "/opt/reagent/reagent-v2.0.0" = Some "binary".
Proof.
  assert ((downloadBinary 3 "reagent" "re-agent" "2.0.0" true quiet healthy_system system_start).1 = Ok tt) as HOk by (vm_compute; reflexivity).
  assert (disk (world (downloadBinary 3 "reagent" "re-agent" "2.0.0" true quiet healthy_system system_start).2) !! "/opt/reagent/reagent-v2.0.0" = Some "binary")
    as Hb by (vm_compute; reflexivity).
  assert (binary_destination "reagent" "2.0.0" true ≠ binary_download "reagent" "2.0.0") as Hne by (vm_compute; discriminate).
  assert (disk_private healthy_system) as Hpriv by (intros lg s; reflexivity).
  pose proof (@install_is_verified ex_sys amd64_runtime healthy_system 3 "reagent" "re-agent" "2.0.0" true quiet system_start Hpriv
    (quiet_harmless healthy_system) Hne) as Hi.
  destruct (downloadBinary 3 "reagent" "re-agent" "2.0.0" true quiet healthy_system system_start) as [o st'].
  cbn in HOk, Hb. subst o. destruct Hi as [(bytes & Hd & _) _]. exists st'. split; [reflexivity|exact Hb].
Defined.

Lemma config_roundtrip_witness :
  ∃ c' st1 st2, (SaveReswarmConfig device_config;; LoadReswarmConfig) healthy_system system_start = (Ok c', st1)
    ∧ LoadReswarmConfig healthy_system st1 = (Ok c', st2)
    ∧ rc_DockerRegistryURL c' = "registry.ironflock.com/" ∧ rc_InsecureRegistries c' = "[]" ∧ rc_ReswarmBaseURL c' = "".
Proof.
  assert (storable device_config) as Hc by (split; [repeat constructor|vm_compute; split_and!; congruence|split; reflexivity]).
  destruct (@config_roundtrip ex_sys amd64_runtime healthy_system device_config system_start healthy_undisturbed Hc (λ _, eq_refl) (λ _, eq_refl)) as (st1 & st2 & E1 & E2 & _).
  exists (migrate (without_base device_config)), st1, st2. split; [exact E1|]. split; [exact E2|]. split_and!; reflexivity.
Defined.

(** The document names the fields by their tags and leaves the base address out. *)
Example stored_keys : map fst (MarshalConfig device_config) =
  ["name"; "secret"; "board"; "status"; "password"; "wlanssid"; "swarm_key"; "device_key"; "swarm_name"; "description"; "architecture"; "serial_number";
   "authentication"; "swarm_owner_name"; "config_passphrase"; "device_endpoint_url"; "docker_registry_url"; "insecure-registries"; "docker_main_repository"].
Proof. reflexivity. Qed.

Lemma identity_refresh_witness :
  (UpdateDeviceMetadata healthy_system system_start).1 = Ok (true, None)
  ∧ flock (world (UpdateDeviceMetadata healthy_system system_start).2) = Some (stored_config (config (world (UpdateDeviceMetadata healthy_system system_start).2))).
Proof.
  assert ((UpdateDeviceMetadata healthy_system system_start).1 = Ok (true, None)) as HOk by (vm_compute; reflexivity).
  pose proof (@identity_refresh ex_sys amd64_runtime healthy_system system_start healthy_undisturbed) as Hi. split; [exact HOk|].
  destruct (UpdateDeviceMetadata healthy_system system_start) as [o st']. cbn in HOk. subst o. destruct Hi as (_ & _ & _ & Hf).
  exact (Hf eq_refl).
Defined.

Lemma failed_refresh_forgets_device_witness :
  ∃ changed st1, UpdateDeviceMetadata full_system system_start = (Ok (changed, Some (Plain "no space left on device")), st1)
    ∧ ∃ st2, LoadReswarmConfig healthy_system (mk_state (put_config empty_config (world st1)) []) = (Ok empty_config, st2)
        ∧ flock (world st2) = Some (stored_config empty_config).
Proof.
  assert (ToUint64 (coercible (wget "swarm_key" [("swarm_key", WU64 7); ("device_name", WText "pump")])) ≠ None) as Hk by discriminate.
  assert (undisturbed full_system) as Hf by (intros lg s; reflexivity).
  assert (∀ k lg, answer full_system _ (DeviceMetadata k) lg = inl [WMap [("swarm_key", WU64 7); ("device_name", WText "pump")]]) as Hm by (intros; reflexivity).
  assert (∀ lg, answer full_system _ (WriteFlock config_location) lg = inr (true, Plain "no space left on device")) as Hw by (intros; reflexivity).
  assert (∀ lg, answer healthy_system _ (WriteFlock config_location) lg = inl tt) as Hw' by (intros; reflexivity).
  assert (∀ lg, answer healthy_system _ (ReadFlock config_location) lg = inl tt) as Hr' by (intros; reflexivity).
  pose proof (@failed_refresh_forgets_device ex_sys amd64_runtime full_system healthy_system (Plain "no space left on device") system_start
    _ Hf healthy_undisturbed Hm Hk Hw Hw' Hr') as Hx.
  destruct Hx as (changed & st1 & E & Hl).
  exists changed, st1. split; [exact E|exact (Hl empty_config [])].
Defined.

Lemma update_never_hangs_witness :
  up_stage (update_start "/d/reagent" 6 ["bin"; "ary"]) = UpdateOver
  ∨ ∃ u', ustep (update_start "/d/reagent" 6 ["bin"; "ary"]) u'.
Proof.
  assert (6 < two64)%N as H6 by reflexivity.
  assert (Forall (.≠ "") ["bin"; "ary"]) as Hb by (repeat constructor; discriminate).
  assert (lengths ["bin"; "ary"] ≤ 6)%N as Hl by (vm_compute; discriminate).
  destruct (update_never_hangs "/d/reagent" 6 ["bin"; "ary"] H6 Hb Hl 0 (update_start "/d/reagent" 6 ["bin"; "ary"]) (nsteps_O ustep _)) as (_ & Hp & _).
  exact Hp.
Defined.

(** ** What the code does besides *)

(** An update server that publishes an empty manifest makes the check panic, although a
    manifest that cannot be used is meant to be tolerated. *)
Example empty_manifest_panics : first_field "" = None ∧ first_field "  " = None.
Proof. split; reflexivity. Qed.

(** A value with an equals sign is left out of the release information. *)
Example os_release_drops_urls :
  os_release (join_with newline ["ID=debian"; "VERSION_ID=" +:+ String quotation ("13" +:+ String quotation "");
    "HOME_URL=" +:+ String quotation ("https://x.org/?a=b" +:+ String quotation "")]) = [("ID", "debian"); ("VERSION_ID", "13")].
Proof. vm_compute. reflexivity. Qed.

(** An answer of the backend without the names stores the text of nothing as the name. *)
Example missing_name_is_nil_text :
  rc_Name (config (world (UpdateDeviceMetadata healthy_system system_start).2)) = "pump"
  ∧ rc_SwarmName (config (world (UpdateDeviceMetadata healthy_system system_start).2)) = "<nil>".
Proof. split; vm_compute; reflexivity. Qed.
