(* ===== verification/DockerClient.v ===== *)
(** * The Docker client (src/src/container/docker.go)

    The wrapper of the Docker SDK behind the [Container] interface: options read from
    dictionaries, errors given the types the transitions branch on, lookups by name,
    streams that can be canceled, and the loops that poll the daemon.  The SDK's calls,
    the [docker] command line, the clock and the channels' readers are the environment. *)
From S2P Require Import Prelude Errdefs GoValue Common Effects WampValues LogText ComposePorts World.
Open Scope go_scope.

(** ** Data of the SDK *)

(** [filters.Args]: pairs of a key and a value. *)
Abbreviation filter_args := (list (string * string)).

(** A value of an option dictionary: [filters.Args] travels in them too, and an [int] is
    told from the integers a serializer yields. *)
Inductive optval := Val (v : wval) | IntVal (z : Z) | Filters (f : filter_args).
Abbreviation options := (list (string * optval)).

Definition opt_get (key : string) (o : options) : optval := default (Val WNil) (map_get key o).
Definition opt_bool (v : optval) : option bool := match v with Val v => as_bool v | _ => None end.
Definition opt_string (v : optval) : option string := match v with Val v => as_string v | _ => None end.
Definition opt_nil (v : optval) : bool := match v with Val WNil => true | _ => false end.

Record ListOptions := {
  lo_All : bool; lo_Size : bool; lo_Latest : bool;
  lo_Since : string; lo_Before : string; lo_Limit : Z; lo_Filters : filter_args;
}.

Record Port := { po_PrivatePort : N; po_PublicPort : N; po_Type : string }.

(** [types.Container]. *)
Record Summary := {
  su_ID : string; su_Names : list string; su_ImageID : string; su_Command : string;
  su_Labels : list (string * string); su_State : string; su_Status : string; su_Ports : list Port;
}.

Record ContainerResult := {
  rs_ID : string; rs_Names : list string; rs_ImageID : string; rs_Labels : list (string * string);
  rs_Status : string; rs_State : string; rs_ExitCode : Z; rs_Command : string;
}.

(** [ContainerInspect]: the fields the agent reads. *)
Record InspectState := {
  is_Status : string; is_Running : bool; is_Paused : bool; is_Restarting : bool; is_OOMKilled : bool;
  is_Dead : bool; is_Pid : Z; is_ExitCode : Z; is_Error : string; is_StartedAt : string; is_FinishedAt : string;
}.
Record HostBinding := { hb_HostIP : string; hb_HostPort : string }.
Record HostPart := { hp_PortBindings : list (string * list HostBinding); hp_NetworkMode : string }.
Record Inspect := { in_State : InspectState; in_HostConfig : option HostPart }.

Record ImageResult := {
  ir_Created : Z; ir_Containers : Z; ir_SharedSize : Z; ir_VirtualSize : Z; ir_ID : string;
  ir_Labels : list (string * string); ir_Size : Z; ir_RepoTags : list string;
}.

Record RemoveOptions := { ro_RemoveVolumes : bool; ro_RemoveLinks : bool; ro_Force : bool }.
Record ImageRemoveOptions := { io_Force : bool; io_PruneChildren : bool }.
Record LogsOptions := {
  lg_ShowStdout : bool; lg_ShowStderr : bool; lg_Follow : bool; lg_Tail : string;
  lg_Since : string; lg_Until : string; lg_Timestamps : bool;
}.
Record VolumeResult := { vr_Name : string; vr_Labels : list (string * string) }.
Record Ping := { pg_APIVersion : string; pg_OSType : string; pg_Experimental : bool; pg_BuilderVersion : string }.
Record HijackedResponse := { hj_Conn : nat; hj_ExecID : string }.
Record TtyDimension := { tty_Height : N; tty_Width : N }.
Record ExecConfig := { ec_Cmd : list string; ec_Tty : bool; ec_AttachStdin : bool }.

(** What the select of a wait on a container yields. *)
Inductive wait_result := WaitStatus (code : Z) | WaitFailed (e : error).

(** A run of [docker login]: the output, the failure, and whether the deadline of the
    context had passed by the time the failure was looked at. *)
Record login_answer := { la_Output : string; la_Error : option error; la_Deadline : bool }.

(** A build context file that cannot be opened: missing, or another failure. *)
Inductive open_answer := Opened | Missing (e : error) | OpenFailed (e : error).

Inductive DockerCall : Type → Type :=
  | SdkContainerList (o : ListOptions) : DockerCall (list Summary + error)
  | SdkContainerRemove (id : string) (o : RemoveOptions) : DockerCall (unit + error)
  | SdkContainerStop (id : string) (seconds : Z) : DockerCall (unit + error)
  | SdkContainerStart (id : string) : DockerCall (unit + error)
  | SdkContainerInspect (name : string) : DockerCall (Inspect + error)
  | SdkContainerWait (id condition : string) : DockerCall wait_result
  | SdkContainerLogs (name : string) (o : LogsOptions) : DockerCall (option nat * option error)
  | SdkContainerCreate (name : string) (c : ContainerConfig) (h : HostConfig) : DockerCall (string + error)
  | SdkContainerAttach (name : string) : DockerCall (nat + error)
  | SdkExecCreate (id : string) (c : ExecConfig) : DockerCall (string + error)
  | SdkExecAttach (exec : string) (tty : bool) : DockerCall (nat + error)
  | SdkExecResize (exec : string) (d : TtyDimension) : DockerCall (unit + error)
  | SdkImageList (all : bool) (f : filter_args) : DockerCall (list ImageResult + error)
  | SdkImageRemove (id : string) (o : ImageRemoveOptions) : DockerCall (unit + error)
  | SdkImagesPrune (f : filter_args) : DockerCall (unit + error)
  | SdkImagePull (name auth : string) : DockerCall (option nat * option error)
  | SdkImagePush (name auth : string) : DockerCall (option nat * option error)
  | SdkImageTag (source target : string) : DockerCall (unit + error)
  | SdkImageBuild (tar buildID : string) : DockerCall (option nat * option error)
  | SdkVolumeList (f : filter_args) : DockerCall (list (option VolumeResult) + error)
  | SdkVolumeRemove (name : string) (force : bool) : DockerCall (unit + error)
  | SdkInfoRootDir : DockerCall (string + error)
  | SdkPing : DockerCall (Ping + error)
  | DockerCli (args : list string) : DockerCall (string + error)
  | DockerLogin (url username password : string) : DockerCall login_answer
  | OpenBuildContext (path : string) : DockerCall open_answer
  | CloseStream (stream : nat) : DockerCall (unit + error)
  | ClockNow : DockerCall Z
  | SleepNs (ns : Z) : DockerCall unit.

(** A stream that was handed out: its identifier and its reader, nil in principle. *)
Record DockerStream := { ds_StreamID : string; ds_Stream : option nat }.

(** [activeStreams], in the order an iteration visits it. *)
Record DockerState := { activeStreams : list (string * DockerStream) }.

Abbreviation Docker := (M DockerCall DockerState).
Abbreviation docker_env := (env DockerCall DockerState).
Abbreviation docker_state := (state DockerCall DockerState).

(** The SDK's classification of its errors ([client.IsErrNotFound]). *)
Class DockerSdk := { IsErrNotFound : error → bool }.

(** ** Lines of an output *)

Definition MaxScanTokenSize : Z := 64 * 1024.

(** ** Exit codes in status texts (common/utils.go) *)

(** The first match of an opening parenthesis, as few characters as possible without a
    line feed, and a closing one. *)
Fixpoint up_to_close (s : string) : option string :=
  match s with
  | EmptyString => None
  | String a s =>
      if Ascii.eqb a ")" then Some ")"
      else if Ascii.eqb a newline then None
      else match up_to_close s with Some r => Some (String a r) | None => None end
  end.

Fixpoint StatusRegex_FindString (s : string) : string :=
  match s with
  | EmptyString => ""
  | String a s' =>
      if Ascii.eqb a "(" then
        match up_to_close s' with Some r => String a r | None => StatusRegex_FindString s' end
      else StatusRegex_FindString s'
  end.

Fixpoint trim_right_char (c : ascii) (s : string) : string :=
  match s with
  | EmptyString => EmptyString
  | String a s =>
      match trim_right_char c s with
      | EmptyString => if Ascii.eqb a c then EmptyString else String a EmptyString
      | s => String a s
      end
  end.

Definition ParseExitCodeFromContainerStatus (status : string) : Z + error :=
  let statusString := StatusRegex_FindString status in
  Atoi (trim_right_char ")" (trim_left (λ a, Ascii.eqb a "(") statusString)).

(** ** Registry authentication: base64url of a JSON object *)

Definition hex_digit (n : N) : ascii := if (n <? 10)%N then ascii_of_N (48 + n) else ascii_of_N (87 + n).

(** The JSON text of a character of a string: [json.Marshal] escapes quotes, backslashes,
    control characters and the characters of HTML. *)
Definition json_char (a : ascii) : string :=
  let n := N_of_ascii a in
  if (n =? 34)%N then String "\" (String a "")
  else if (n =? 92)%N then String "\" (String a "")
  else if (n =? 8)%N then "\b" else if (n =? 12)%N then "\f"
  else if (n =? 10)%N then "\n" else if (n =? 13)%N then "\r" else if (n =? 9)%N then "\t"
  else if (n <? 32)%N || (n =? 38)%N || (n =? 60)%N || (n =? 62)%N
  then "\u00" +:+ String (hex_digit (n / 16)) (String (hex_digit (n mod 16)) "")
  else String a "".

Fixpoint json_chars (s : string) : string :=
  match s with EmptyString => "" | String a s => json_char a +:+ json_chars s end.

(** A string of ASCII characters; other runes are written as they are. *)
Definition json_string (s : string) : string :=
  String (ascii_of_N 34) (json_chars s +:+ String (ascii_of_N 34) "").

Definition json_auth (a : AuthConfig) : string :=
  "{" +:+ json_string "Username" +:+ ":" +:+ json_string (au_Username a) +:+ ","
    +:+ json_string "Password" +:+ ":" +:+ json_string (au_Password a) +:+ "}".

Definition base64url_digit (n : N) : ascii :=
  if (n <? 26)%N then ascii_of_N (65 + n)
  else if (n <? 52)%N then ascii_of_N (97 + (n - 26))
  else if (n <? 62)%N then ascii_of_N (48 + (n - 52))
  else if (n =? 62)%N then "-" else "_".

Definition quad (v : N) (k : N) : ascii := base64url_digit (N.land (N.shiftr v (6 * k)) 63).

(** [base64.URLEncoding.EncodeToString]: three bytes to four digits, padded with [=]. *)
Fixpoint base64url (s : string) : string :=
  match s with
  | EmptyString => ""
  | String a EmptyString =>
      let v := N.shiftl (N_of_ascii a) 16 in
      String (quad v 3) (String (quad v 2) "==")
  | String a (String b EmptyString) =>
      let v := N.lor (N.shiftl (N_of_ascii a) 16) (N.shiftl (N_of_ascii b) 8) in
      String (quad v 3) (String (quad v 2) (String (quad v 1) "="))
  | String a (String b (String c s)) =>
      let v := N.lor (N.lor (N.shiftl (N_of_ascii a) 16) (N.shiftl (N_of_ascii b) 8)) (N_of_ascii c) in
      String (quad v 3) (String (quad v 2) (String (quad v 1) (String (quad v 0) (base64url s))))
  end.

Definition registry_auth (a : AuthConfig) : string := base64url (json_auth a).

Section docker.
Context `{DockerSdk} `{GoRuntime}.

(** ** Containers *)

(** [x, ok := kw.(T); if ok { field = x }]: a value of another type is ignored. *)
Definition list_options (o : options) : ListOptions :=
  {| lo_All := default false (opt_bool (opt_get "all" o));
     lo_Size := default false (opt_bool (opt_get "size" o));
     lo_Latest := default false (opt_bool (opt_get "latest" o));
     lo_Since := default "" (opt_string (opt_get "since" o));
     lo_Before := default "" (opt_string (opt_get "before" o));
     lo_Limit := match opt_get "limit" o with IntVal z => z | _ => 0 end;
     lo_Filters := match opt_get "filters" o with Filters f => f | _ => [] end |}.

(** A container as a result; an exit code of -1 is left out. *)
Definition container_result (c : Summary) : ContainerResult + error :=
  match (if String.eqb (su_State c) "exited" then ParseExitCodeFromContainerStatus (su_Status c) else inl (-1)%Z) with
  | inr e => inr e
  | inl exitCode =>
      inl {| rs_ID := su_ID c; rs_Names := su_Names c; rs_ImageID := su_ImageID c; rs_Command := su_Command c;
             rs_Labels := su_Labels c; rs_State := su_State c; rs_Status := su_Status c;
             rs_ExitCode := if (exitCode =? -1)%Z then 0 else exitCode |}
  end.

Fixpoint container_results (l : list Summary) : list ContainerResult + error :=
  match l with
  | [] => inl []
  | c :: l =>
      match container_result c with
      | inr e => inr e
      | inl r => match container_results l with inl rs => inl (r :: rs) | inr e => inr e end
      end
  end.

Definition ListContainers (o : options) : Docker (list ContainerResult) :=
  let! l := callE (SdkContainerList (list_options o)) in
  lift (container_results l).

Definition all_named (f : filter_args) : ListOptions :=
  {| lo_All := true; lo_Size := false; lo_Latest := false; lo_Since := ""; lo_Before := ""; lo_Limit := 0; lo_Filters := f |}.

(** The ports of one container that are live, a later one replacing an earlier one. *)
Definition add_published (service : string) (published : list (string * N)) (p : Port) : list (string * N) :=
  if (po_PublicPort p =? 0)%N then published
  else map_set (PublishedPortKey service (po_PrivatePort p) (po_Type p)) (po_PublicPort p) published.

Definition published_ports (l : list Summary) : list (string * N) :=
  foldl (λ published c,
    foldl (add_published (default "" (map_get "com.docker.compose.service" (su_Labels c)))) published (su_Ports c)) [] l.

Definition GetComposePublishedPorts (projectName : string) : Docker (list (string * N)) :=
  let project := NormalizeComposeProjectName projectName in
  let! l := callE (SdkContainerList (all_named [("label", "com.docker.compose.project=" +:+ project)])) in
  ret (published_ports l).

Definition ContainerNotFoundError : error := wrap_kind KContainerNotFound (Plain "container not found").

(** The first of the containers the daemon's name filter lets through. *)
Definition GetContainer (containerName : string) : Docker Summary :=
  let! containers := callE (SdkContainerList (all_named [("name", containerName)])) in
  match containers with
  | c :: _ => ret c
  | [] => throw ContainerNotFoundError
  end.

Definition GetContainers : Docker (list Summary) := callE (SdkContainerList (all_named [])).

Definition no_such_container : string := "No such container".

(** The text of the daemon decides the type of a failed removal. *)
Definition removal_error (e : error) : error :=
  if str_contains no_such_container (error_text e) then wrap_kind KContainerNotFound e
  else if str_contains "is already in progress" (error_text e) then wrap_kind KContainerRemovalAlreadyInProgress e
  else e.

Definition remove_options (o : options) : RemoveOptions :=
  {| ro_RemoveVolumes := default false (opt_bool (opt_get "removeVolumes" o));
     ro_RemoveLinks := default false (opt_bool (opt_get "removeLinks" o));
     ro_Force := default false (opt_bool (opt_get "force" o)) |}.

(** A call whose error is given a type. *)
Definition classify {A} (f : error → error) (c : DockerCall (A + error)) : Docker A :=
  let! r := call c in
  match r with inl a => ret a | inr e => throw (f e) end.

Definition RemoveContainerByID (containerID : string) (o : options) : Docker unit :=
  classify removal_error (SdkContainerRemove containerID (remove_options o)).

Definition RemoveContainerByName (containerName : string) (o : options) : Docker unit :=
  let! c := GetContainer containerName in
  RemoveContainerByID (su_ID c) o.

(** [int(timeout.Seconds())]: whole seconds, towards zero. *)
Definition seconds_of (ns : Z) : Z := Z.quot ns 1000000000.

Definition StopContainerByID (containerID : string) (timeout : Z) : Docker unit :=
  callE (SdkContainerStop containerID (seconds_of timeout)).

Definition StopContainerByName (containerName : string) (timeout : Z) : Docker unit :=
  let! c := GetContainer containerName in
  callE (SdkContainerStop (su_ID c) (seconds_of timeout)).

Definition StartContainer (containerID : string) : Docker unit := callE (SdkContainerStart containerID).

Definition creation_error (e : error) : error :=
  if str_contains "is already in use by container" (error_text e) then wrap_kind KContainerNameAlreadyInUse e
  else if str_contains "No such image" (error_text e) then wrap_kind KImageNotFound e
  else e.

Definition CreateContainer (c : ContainerConfig) (h : HostConfig) (containerName : string) : Docker string :=
  classify creation_error (SdkContainerCreate containerName c h).

Definition inspect_error (e : error) : error := if IsErrNotFound e then wrap_kind KContainerNotFound e else e.

Definition GetContainerState (containerName : string) : Docker InspectState :=
  let! res := classify inspect_error (SdkContainerInspect containerName) in
  ret (in_State res).

(** The host port of a binding that can be used. *)
Definition usable_port (b : HostBinding) : option N :=
  match parse_uint 64 (hb_HostPort b) with
  | Some p => if (p =? 0)%N then None else Some p
  | None => None
  end.

Definition all_interfaces (b : HostBinding) : bool := String.eqb (hb_HostIP b) "" || String.eqb (hb_HostIP b) "0.0.0.0".

Definition add_binding (containerPort : string) (bindings : list (string * N)) (b : HostBinding) : list (string * N) :=
  match usable_port b with
  | None => bindings
  | Some hostPort =>
      if negb (bool_decide (is_Some (map_get containerPort bindings))) || all_interfaces b
      then map_set containerPort hostPort bindings else bindings
  end.

Definition port_bindings (l : list (string * list HostBinding)) : list (string * N) :=
  foldl (λ bindings pb, foldl (add_binding pb.1) bindings pb.2) [] l.

Definition GetContainerPortBindings (containerName : string) : Docker (list (string * N)) :=
  let! res := classify inspect_error (SdkContainerInspect containerName) in
  match in_HostConfig res with
  | None => ret []
  | Some hc => ret (port_bindings (hp_PortBindings hc))
  end.

Definition GetContainerNetworkMode (containerName : string) : Docker string :=
  let! res := classify inspect_error (SdkContainerInspect containerName) in
  ret (match in_HostConfig res with None => "" | Some hc => hp_NetworkMode hc end).

Definition wait_error (e : error) : error :=
  if str_contains no_such_container (error_text e) then wrap_kind KContainerNotFound e else e.

Definition WaitForContainerByID (containerID condition : string) : Docker Z :=
  let! r := call (SdkContainerWait containerID condition) in
  match r with
  | WaitStatus code => ret code
  | WaitFailed e => throw (wait_error e)
  end.

Definition WaitForContainerByName (containerName condition : string) : Docker Z :=
  let! c := GetContainer containerName in
  WaitForContainerByID (su_ID c) condition.

(** ** Logs and processes in containers *)

(** A numeric [tail] is rendered; anything else that is not a string is ignored. *)
Definition logsOptionsFromDict (o : wmap) : LogsOptions :=
  {| lg_ShowStdout := default false (as_bool (wget "stdout" o));
     lg_ShowStderr := default false (as_bool (wget "stderr" o));
     lg_Follow := default false (as_bool (wget "follow" o));
     lg_Tail :=
       match as_string (wget "tail" o) with
       | Some tail => tail
       | None => match ToUint64 (coercible (wget "tail" o)) with Some n => itoa n | None => "" end
       end;
     lg_Since := default "" (as_string (wget "since" o));
     lg_Until := default "" (as_string (wget "until" o));
     lg_Timestamps := default false (as_bool (wget "timestamps" o)) |}.

Definition logs_error (e : error) : error :=
  if str_contains no_such_container (error_text e) then wrap_kind KContainerNotFound e
  else if str_contains "container which is dead or marked for removal" (error_text e) then wrap_kind KContainerNotFound e
  else e.

(** [reader.Close()], its error dropped. *)
Definition close_if (r : option nat) : Docker unit :=
  match r with Some s => call (CloseStream s);; ret tt | None => ret tt end.

Definition Logs (containerName : string) (o : wmap) : Docker (option nat) :=
  let! r := call (SdkContainerLogs containerName (logsOptionsFromDict o)) in
  match r with
  | (reader, None) => ret reader
  | (reader, Some e) => close_if reader;; throw (logs_error e)
  end.

Definition Attach (containerName : string) : Docker HijackedResponse :=
  let! conn := callE (SdkContainerAttach containerName) in
  ret {| hj_Conn := conn; hj_ExecID := "" |}.

Definition ResizeExecContainer (execID : string) (d : TtyDimension) : Docker unit := callE (SdkExecResize execID d).

(** A process of its own in a running container, found by name. *)
Definition exec_in (containerName : string) (c : ExecConfig) : Docker HijackedResponse :=
  let! container := GetContainer containerName in
  let! execID := callE (SdkExecCreate (su_ID container) c) in
  let! conn := callE (SdkExecAttach execID (ec_Tty c)) in
  ret {| hj_Conn := conn; hj_ExecID := execID |}.

Definition ExecAttach (containerName shell : string) : Docker HijackedResponse :=
  exec_in containerName {| ec_Cmd := [shell]; ec_Tty := true; ec_AttachStdin := true |}.

Definition ExecCommand (containerName : string) (cmd : list string) : Docker HijackedResponse :=
  exec_in containerName {| ec_Cmd := cmd; ec_Tty := false; ec_AttachStdin := false |}.

(** ** Images and volumes *)

Definition no_such_image : string := "No such image".
Definition image_error (e : error) : error := if str_contains no_such_image (error_text e) then wrap_kind KImageNotFound e else e.

Definition GetImages (fullImageName : string) : Docker (list ImageResult) :=
  if String.eqb fullImageName ""
  then classify image_error (SdkImageList true [])
  else classify image_error (SdkImageList false [("reference", fullImageName)]).

Definition GetImage (fullImageName tag : string) : Docker ImageResult :=
  let! images := classify image_error (SdkImageList false [("reference", fullImageName +:+ ":" +:+ tag)]) in
  match images with
  | i :: _ => ret i
  | [] => throw (wrap_kind KImageNotFound (Plain ("no image found with name: " +:+ fullImageName +:+ ":" +:+ tag)))
  end.

(** An option that must be a boolean when it is there. *)
Definition strict_bool (key : string) (message : string) (o : options) : bool + error :=
  let v := opt_get key o in
  if opt_nil v then inl false
  else match opt_bool v with Some b => inl b | None => inr (Plain message) end.

Definition ListImages (o : options) : Docker (list ImageResult) :=
  let! all := lift (strict_bool "all" "Invalid type for 'all' option" o) in
  callE (SdkImageList all []).

Definition PruneImages (o : options) : Docker unit :=
  let! all := lift (strict_bool "all" "all value for container prune is not a boolean" o) in
  callE (SdkImagesPrune (if all : bool then [("dangling", "false")] else [])).

Definition RemoveImage (imageID : string) (o : options) : Docker unit :=
  let! force := lift (strict_bool "force" "Invalid type for 'force' option" o) in
  let! prune := lift (strict_bool "pruneChildren" "Invalid type for 'pruneChilderen' option" o) in
  callE (SdkImageRemove imageID {| io_Force := force; io_PruneChildren := prune |}).

Definition RemoveImagesByName (imageName : string) (o : options) : Docker unit :=
  let! images := callE (SdkImageList false [("reference", imageName)]) in
  for_each images (λ i, for_each (ir_RepoTags i) (λ repoTag,
    if String.eqb repoTag "" then ret tt else RemoveImage repoTag o)).

Definition RemoveImageByName (imageName tag : string) (o : options) : Docker unit :=
  let name := imageName +:+ ":" +:+ tag in
  let! images := callE (SdkImageList false [("reference", name)]) in
  match images with
  | [] => throw (Plain ("no image was found with name: " +:+ name))
  | [i] => RemoveImage (ir_ID i) o
  | _ => throw (Plain ("multiple images were found with name: " +:+ name))
  end.

Definition Tag (source target : string) : Docker unit := callE (SdkImageTag source target).

Definition PruneSystem : Docker string := callE (DockerCli ["system"; "prune"; "-af"; "--volumes"]).
Definition PruneAllImages : Docker string := callE (DockerCli ["image"; "prune"; "-af"]).
Definition PruneDanglingImages : Docker string := callE (DockerCli ["image"; "prune"; "-f"]).
Definition PruneBuildCache : Docker string := callE (DockerCli ["builder"; "prune"; "-f"]).

Definition ListDanglingVolumes : Docker (list VolumeResult) :=
  let! volumes := callE (SdkVolumeList [("dangling", "true")]) in
  ret (present volumes).

Definition RemoveVolume (name : string) : Docker unit := callE (SdkVolumeRemove name false).

Definition DataRootDir : Docker string := callE SdkInfoRootDir.

(** ** Registry logins *)

Definition login_timeout_error (registryURL : string) : error :=
  Plain ("registry login to " +:+ registryURL +:+ " timed out after 10s: the registry is not responding (check that the registry is reachable and, on proxied hosts, that NO_PROXY covers it)").

(** What a failed login is reported as: the deadline, else the first line of the output
    that names an error, else the failure of the command. *)
Definition login_error (registryURL : string) (a : login_answer) (e : error) : error :=
  if la_Deadline a then login_timeout_error registryURL
  else match List.find (str_contains "Error") (bufio_lines MaxScanTokenSize (la_Output a)).1 with
       | Some line => Plain line
       | None => e
       end.

Definition HandleRegistryLogins (credentials : list (string * DockerCredential)) : Docker unit :=
  for_each credentials (λ c,
    let! a := call (DockerLogin c.1 (Username c.2) (Password c.2)) in
    match la_Error a with
    | None => ret tt
    | Some e => throw (login_error c.1 a e)
    end).

(** ** Streams that can be canceled *)

Definition put_stream (id : string) (stream : option nat) : Docker unit :=
  if String.eqb id "" then ret tt
  else modify (λ s, {| activeStreams := map_set id {| ds_StreamID := id; ds_Stream := stream |} (activeStreams s) |}).

(** A stream the daemon answers: handed out and registered, or closed with the error. *)
Definition opened_stream (id : string) (refine : error → error) (r : option nat * option error) : Docker (option nat) :=
  match r with
  | (reader, Some e) => close_if reader;; throw (refine e)
  | (reader, None) => put_stream id reader;; ret reader
  end.

Definition Pull (imageName : string) (a : AuthConfig) (pullID : string) : Docker (option nat) :=
  let! r := call (SdkImagePull imageName (registry_auth a)) in opened_stream pullID id r.

Definition Push (imageName : string) (a : AuthConfig) (pushID : string) : Docker (option nat) :=
  let! r := call (SdkImagePush imageName (registry_auth a)) in opened_stream pushID id r.

Definition build_error (e : error) : error :=
  if str_contains "the Dockerfile (Dockerfile) cannot be empty" (error_text e) then wrap_kind KDockerfileCannotBeEmpty e
  else if str_contains "Cannot locate specified Dockerfile: Dockerfile" (error_text e) then wrap_kind KDockerfileIsMissing e
  else e.

Definition Build (compressedBuildFilesPath buildID : string) : Docker (option nat) :=
  let! f := call (OpenBuildContext compressedBuildFilesPath) in
  match f with
  | Missing e => throw (wrap_kind KDockerBuildFilesNotFound e)
  | OpenFailed e => throw e
  | Opened =>
      let! r := call (SdkImageBuild compressedBuildFilesPath buildID) in
      opened_stream buildID build_error r
  end.

Definition CancelStream (streamID : string) : Docker unit :=
  let! entry := gets (λ s, map_get streamID (activeStreams s)) in
  match entry with
  | None => throw (Plain "no active stream was found")
  | Some {| ds_Stream := None |} => ret tt
  | Some {| ds_Stream := Some r |} => callE (CloseStream r)
  end.

Definition CancelAllStreams : Docker unit :=
  let! streams := gets activeStreams in
  for_each streams (λ s, match ds_Stream s.2 with None => panic | Some r => callE (CloseStream r) end).

(** ** Waiting for the daemon *)

Definition PingDaemon : Docker Ping := callE SdkPing.

Definition daemon_wait_error : error := Plain "maxium retry timeout for docker daemon ping was exceeded".

(** The loop recurses on the turns it may take; without turns left it would go on. *)
Fixpoint daemon_loop (turns : nat) (retryTimeout started : Z) : Docker unit :=
  match turns with
  | O => hang
  | S turns =>
      let! r := try_ PingDaemon in
      match r with
      | inl _ => ret tt
      | inr _ =>
          call (SleepNs 100000000);;
          let! now := call ClockNow in
          if (retryTimeout <? now - started)%Z then throw daemon_wait_error
          else daemon_loop turns retryTimeout started
      end
  end.

Definition WaitForDaemon (turns : nat) (retryTimeoutParam : option Z) : Docker unit :=
  let! started := call ClockNow in
  daemon_loop turns (default 5000000000 retryTimeoutParam)%Z started.

End docker.
