(* ===== verification/DockerPolls.v ===== *)
(** * Goroutines that poll a container (src/src/container/docker.go)

    [PollContainerState] and [WaitForRunning] start a goroutine that inspects a container
    again and again and reports on two channels of capacity one: one for states, one for the
    error that ends it.  The goroutine is a machine over the channels; what an inspection
    makes it do is a list of channel operations.  Compose's [WaitForRunning] is the same
    machine with another reaction. *)
From S2P Require Import Prelude Errdefs World DockerClient.
#[local] Open Scope list_scope.

Section machine.
Context {I D : Type}.

Inductive chan_op := SendData (d : D) | SendErr (e : error) | CloseErr | CloseData.

(** What follows one inspection: operations on the channels, and whether the goroutine
    then sleeps, goes straight on, or returns. *)
Inductive after := ThenSleep | ThenAgain | ThenReturn.
Record reaction := { re_ops : list chan_op; re_after : after }.

Inductive place :=
  | Inspecting
  | Doing (ops : list chan_op) (next : after)
  | Sleeping
  | Returned.

Record poll := {
  pl_place : place;
  pl_inspected : nat;        (* inspections so far *)
  dataC : list D;
  dataC_closed : bool;
  errC : list error;
  errC_closed : bool;
}.

Definition poll_start : poll :=
  {| pl_place := Inspecting; pl_inspected := 0; dataC := []; dataC_closed := false; errC := []; errC_closed := false |}.

Definition goto (p : place) (s : poll) : poll :=
  {| pl_place := p; pl_inspected := pl_inspected s; dataC := dataC s; dataC_closed := dataC_closed s;
     errC := errC s; errC_closed := errC_closed s |}.

Definition after_ops (next : after) : place :=
  match next with ThenSleep => Sleeping | ThenAgain => Inspecting | ThenReturn => Returned end.

(** A channel operation; [None] when it blocks. *)
Definition do_op (o : chan_op) (s : poll) : option poll :=
  match o with
  | SendData d =>
      if decide (length (dataC s) < 1)%nat
      then Some {| pl_place := pl_place s; pl_inspected := pl_inspected s; dataC := dataC s ++ [d];
                   dataC_closed := dataC_closed s; errC := errC s; errC_closed := errC_closed s |}
      else None
  | SendErr e =>
      if decide (length (errC s) < 1)%nat
      then Some {| pl_place := pl_place s; pl_inspected := pl_inspected s; dataC := dataC s;
                   dataC_closed := dataC_closed s; errC := errC s ++ [e]; errC_closed := errC_closed s |}
      else None
  | CloseErr =>
      Some {| pl_place := pl_place s; pl_inspected := pl_inspected s; dataC := dataC s;
              dataC_closed := dataC_closed s; errC := errC s; errC_closed := true |}
  | CloseData =>
      Some {| pl_place := pl_place s; pl_inspected := pl_inspected s; dataC := dataC s;
              dataC_closed := true; errC := errC s; errC_closed := errC_closed s |}
  end.

Section run.
Variable react : I → reaction.
Variable answers : nat → I.    (* the daemon's answer to each inspection *)

(** One step of the goroutine; a blocked one stays. *)
Definition poll_step (s : poll) : poll :=
  match pl_place s with
  | Inspecting =>
      let r := react (answers (pl_inspected s)) in
      {| pl_place := Doing (re_ops r) (re_after r); pl_inspected := S (pl_inspected s); dataC := dataC s;
         dataC_closed := dataC_closed s; errC := errC s; errC_closed := errC_closed s |}
  | Doing [] next => goto (after_ops next) s
  | Doing (o :: ops) next => match do_op o s with Some s' => goto (Doing ops next) s' | None => s end
  | Sleeping => goto Inspecting s
  | Returned => s
  end.

Definition poll_after (n : nat) : poll := Nat.iter n poll_step poll_start.

Lemma poll_after_S n : poll_after (S n) = poll_step (poll_after n).
Proof. done. Qed.

(** A state that steps to itself is the last. *)
Lemma poll_after_fixed k n : poll_step (poll_after k) = poll_after k → (k ≤ n)%nat → poll_after n = poll_after k.
Proof.
  intros Hfix. induction 1 as [|n _ IH]; [done|]. by rewrite poll_after_S, IH.
Qed.
End run.
End machine.
Arguments chan_op D : clear implicits.
Arguments reaction D : clear implicits.
Arguments poll D : clear implicits.

(** ** PollContainerState *)

Definition poll_error (e : error) : error :=
  if str_contains "no such container" (error_text e) then wrap_kind KContainerNotFound e else e.

Definition PollContainerState_reaction (r : InspectState + error) : reaction InspectState :=
  match r with
  | inr e => {| re_ops := [SendErr (poll_error e); CloseErr; CloseData]; re_after := ThenReturn |}
  | inl s => {| re_ops := [SendData s]; re_after := ThenSleep |}
  end.

Definition PollContainerState : (nat → InspectState + error) → nat → poll InspectState :=
  poll_after PollContainerState_reaction.

(** ** WaitForRunning *)

Definition exited_error : error := Plain "the container has exited".

Definition WaitForRunning_reaction (r : InspectState + error) : reaction unit :=
  let fail e := {| re_ops := [SendErr e; CloseErr; CloseData]; re_after := ThenReturn |} in
  match r with
  | inr e => fail e
  | inl s =>
      if is_Running s then {| re_ops := [SendData tt; CloseErr; CloseData]; re_after := ThenReturn |}
      else if String.eqb (is_Status s) "exited" || String.eqb (is_Status s) "dead" then fail exited_error
      else if negb (String.eqb (is_Error s) "") then fail (Plain (is_Error s))
      else {| re_ops := []; re_after := ThenSleep |}
  end.

Definition WaitForRunning : (nat → InspectState + error) → nat → poll unit := poll_after WaitForRunning_reaction.

(** What a [select] over both channels may take: a value, or the zero value of a channel that
    is closed and empty. *)
Definition select_ready {D} (s : poll D) : list wait_answer :=
  match errC s with
  | e :: _ => [WaitErr e]
  | [] => if errC_closed s then [WaitErrClosed] else []
  end
  ++ (if negb (bool_decide (dataC s = [])) || dataC_closed s then [WaitRunning] else []).

(** * What waiting on a container's polls can yield *)

(** ** Waiting for a removal

    The transitions that remove a container read the error channel alone, until the poll
    finds the container gone. *)

(** The state the goroutine ends in when the container is still there twice. *)
Definition blocked_on (s1 s2 : InspectState) : poll InspectState :=
  {| pl_place := Doing [SendData s2] ThenSleep; pl_inspected := 2; dataC := [s1]; dataC_closed := false;
     errC := []; errC_closed := false |}.

Lemma blocked_stays answers s1 s2 : poll_step PollContainerState_reaction answers (blocked_on s1 s2) = blocked_on s1 s2.
Proof. done. Qed.

(** A run follows a list of states, each the step of the one before. *)
Fixpoint follows {I D} (react : I → reaction D) (answers : nat → I) (s : poll D) (l : list (poll D)) : Prop :=
  match l with [] => True | s' :: l => poll_step react answers s = s' ∧ follows react answers s' l end.

Lemma follows_at {I D} (react : I → reaction D) answers l : ∀ k s,
  poll_after react answers k = s → follows react answers s l →
  ∀ i t, (s :: l) !! i = Some t → poll_after react answers (k + i) = t.
Proof.
  induction l as [|s' l IH]; intros k s Hk Hf [|i] t; cbn [lookup list_lookup];
    [intros [= <-]; by rewrite Nat.add_0_r|done|intros [= <-]; by rewrite Nat.add_0_r|].
  destruct Hf as [Hs Hf]. intros Hi. rewrite Nat.add_succ_r. apply (IH (S k) s'); [|done|done]. rewrite poll_after_S. by rewrite Hk.
Qed.

Definition polling (p : place) (inspected : nat) (data : list InspectState) : poll InspectState :=
  {| pl_place := p; pl_inspected := inspected; dataC := data; dataC_closed := false; errC := []; errC_closed := false |}.

(** The run on a container that is there twice. *)
Definition there_twice (s1 s2 : InspectState) : list (poll InspectState) :=
  [polling (Doing [SendData s1] ThenSleep) 1 []; polling (Doing [] ThenSleep) 1 [s1]; polling Sleeping 1 [s1];
   polling Inspecting 1 [s1]; blocked_on s1 s2].

Section waiting.
Variable answers : nat → InspectState + error.

Lemma follows_there_twice s1 s2 : answers 0%nat = inl s1 → answers 1%nat = inl s2 →
  follows PollContainerState_reaction answers poll_start (there_twice s1 s2).
Proof.
  intros H0 H1. repeat split; unfold poll_step; cbn [pl_place poll_start polling pl_inspected]; rewrite ?H0, ?H1; done.
Qed.

Lemma blocked_for_ever s1 s2 n : answers 0%nat = inl s1 → answers 1%nat = inl s2 →
  errC (PollContainerState answers n) = [] ∧ errC_closed (PollContainerState answers n) = false.
Proof.
  intros H0 H1. pose proof (follows_at _ answers _ 0 poll_start eq_refl (follows_there_twice s1 s2 H0 H1)) as Hat.
  unfold PollContainerState. destruct (decide (n < 5)%nat) as [Hn|Hn].
  - pose proof (Hat 0%nat _ eq_refl) as A0. pose proof (Hat 1%nat _ eq_refl) as A1. pose proof (Hat 2%nat _ eq_refl) as A2.
    pose proof (Hat 3%nat _ eq_refl) as A3. pose proof (Hat 4%nat _ eq_refl) as A4. cbn [Nat.add] in *.
    destruct n as [|[|[|[|[|n]]]]]; [by rewrite A0|by rewrite A1|by rewrite A2|by rewrite A3|by rewrite A4|lia].
  - specialize (Hat 5%nat _ eq_refl). cbn [Nat.add] in Hat. rewrite (poll_after_fixed _ _ 5 n); [by rewrite Hat|by rewrite Hat|lia].
Qed.

(** The run on a container that is gone, after [data] was sent. *)
Definition gone (k : nat) (data : list InspectState) (e : error) : list (poll InspectState) :=
  [polling (Doing [SendErr (poll_error e); CloseErr; CloseData] ThenReturn) k data;
   {| pl_place := Doing [CloseErr; CloseData] ThenReturn; pl_inspected := k; dataC := data; dataC_closed := false;
      errC := [poll_error e]; errC_closed := false |}].

Lemma gone_at_first e : answers 0%nat = inr e → errC (PollContainerState answers 2) = [poll_error e].
Proof.
  intros H0. assert (follows PollContainerState_reaction answers poll_start (gone 1 [] e)) as Hf.
  { repeat split; unfold poll_step; cbn [pl_place poll_start pl_inspected]; by rewrite ?H0. }
  exact (f_equal errC (follows_at _ answers _ 0 poll_start eq_refl Hf 2%nat _ eq_refl)).
Qed.

Lemma gone_at_second s e : answers 0%nat = inl s → answers 1%nat = inr e → errC (PollContainerState answers 6) = [poll_error e].
Proof.
  intros H0 H1. assert (follows PollContainerState_reaction answers poll_start
    ([polling (Doing [SendData s] ThenSleep) 1 []; polling (Doing [] ThenSleep) 1 [s]; polling Sleeping 1 [s];
      polling Inspecting 1 [s]] ++ gone 2 [s] e)) as Hf.
  { repeat split; unfold poll_step; cbn [pl_place poll_start polling pl_inspected]; rewrite ?H0, ?H1; done. }
  exact (f_equal errC (follows_at _ answers _ 0 poll_start eq_refl Hf 6%nat _ eq_refl)).
Qed.
End waiting.

(** the wait for a removed container ends if and only if one of the first two polls
    already fails to find it.  Nobody receives the states, whose channel holds one: a
    container still listed a second after its removal blocks the goroutine on the second
    state, the error never comes, and the transition waits for ever with its lock held,
    whatever its deadline. *)
Theorem removal_wait_ends_iff answers :
  (∃ n, errC (PollContainerState answers n) ≠ [] ∨ errC_closed (PollContainerState answers n) = true)
  ↔ (∃ e, answers 0%nat = inr e) ∨ (∃ s e, answers 0%nat = inl s ∧ answers 1%nat = inr e).
Proof.
  split.
  - intros (n & Hn). destruct (answers 0%nat) as [s|e] eqn:H0; [|by left; exists e].
    destruct (answers 1%nat) as [s'|e] eqn:H1; [|right; by exists s, e].
    destruct (blocked_for_ever answers s s' n H0 H1) as [E1 E2]. rewrite E1, E2 in Hn. destruct Hn; congruence.
  - intros [(e & H0)|(s & e & H0 & H1)].
    + exists 2%nat. left. by rewrite (gone_at_first _ _ H0).
    + exists 6%nat. left. by rewrite (gone_at_second _ _ _ H0 H1).
Qed.

(** ** Waiting for a start

    The goroutines of docker and compose report once: the running signal or an error, then
    both channels are closed. *)

Section starting.
Context {I : Type}.
Variable react : I → reaction unit.
Variable answers : nat → I.

(** What an inspection decides: nothing yet, running, or a failure. *)
Definition decided (i : I) : option (option error) :=
  match re_ops (react i) with
  | SendData _ :: _ => Some None
  | SendErr e :: _ => Some (Some e)
  | _ => None
  end.

Definition signal (v : option error) : chan_op unit := match v with None => SendData tt | Some e => SendErr e end.

(** Every reaction is to go on in silence, or to report and close. *)
Definition reports_once : Prop := ∀ i,
  match decided i with
  | None => re_ops (react i) = [] ∧ re_after (react i) ≠ ThenReturn
  | Some v => re_ops (react i) = [signal v; CloseErr; CloseData] ∧ re_after (react i) = ThenReturn
  end.
Hypothesis Honce : reports_once.
#[local] Set Default Proof Using "Type*".

Definition quiet (p : place) (k : nat) : poll unit :=
  {| pl_place := p; pl_inspected := k; dataC := []; dataC_closed := false; errC := []; errC_closed := false |}.

(** The channels once [v] was sent. *)
Definition told (p : place) (k : nat) (v : option error) (err_closed data_closed : bool) : poll unit :=
  {| pl_place := p; pl_inspected := S k; dataC := match v with None => [tt] | Some _ => [] end; dataC_closed := data_closed;
     errC := match v with None => [] | Some e => [e] end; errC_closed := err_closed |}.

Definition undecided_before (k : nat) : Prop := ∀ j, (j < k)%nat → decided (answers j) = None.

Inductive phase : poll unit → Prop :=
  | QuietInspecting k : undecided_before k → phase (quiet Inspecting k)
  | QuietDone k next : undecided_before k → next ≠ ThenReturn → phase (quiet (Doing [] next) k)
  | QuietSleeping k : undecided_before k → phase (quiet Sleeping k)
  | AboutTo k v : undecided_before k → decided (answers k) = Some v →
      phase (quiet (Doing [signal v; CloseErr; CloseData] ThenReturn) (S k))
  | Told k v ops ec dc : undecided_before k → decided (answers k) = Some v →
      (ops, ec, dc) ∈ [([CloseErr; CloseData], false, false); ([CloseData], true, false); ([], true, true)] →
      phase (told (Doing ops ThenReturn) k v ec dc)
  | Ended k v : undecided_before k → decided (answers k) = Some v → phase (told Returned k v true true).

Lemma undecided_S k : undecided_before k → decided (answers k) = None → undecided_before (S k).
Proof. intros Hk Hd j Hj. destruct (decide (j = k)) as [->|]; [done|]. apply Hk. lia. Qed.

Lemma phase_step s : phase s → phase (poll_step react answers s).
Proof.
  destruct 1 as [k Hk|k [] Hk Hn|k Hk|k v Hk Hv|k v ops ec dc Hk Hv Hops|k v Hk Hv]; unfold poll_step; cbn [pl_place quiet told pl_inspected].
  - pose proof (Honce (answers k)) as Ho. destruct (decided (answers k)) as [v|] eqn:Hd; destruct Ho as [-> Ha]; cbn.
    + rewrite Ha. by apply (AboutTo k v).
    + apply (QuietDone (S k)); [by apply undecided_S|done].
  - by apply QuietSleeping.
  - by apply QuietInspecting.
  - done.
  - by apply QuietInspecting.
  - destruct v as [e|]; cbn; [apply (Told k (Some e) _ false false)|apply (Told k None _ false false)]; try done; by left.
  - rewrite !elem_of_cons, elem_of_nil in Hops. destruct Hops as [[= -> -> ->]|[[= -> -> ->]|[[= -> -> ->]|[]]]]; cbn.
    + apply (Told k v _ true false); [done..|]. right. by left.
    + apply (Told k v _ true true); [done..|]. right. right. by left.
    + by apply (Ended k v).
  - by apply (Ended k v).
Qed.

Lemma phase_after n : phase (poll_after react answers n).
Proof. induction n as [|n IH]; [apply (QuietInspecting 0); intros ? ?; lia|]. by apply phase_step. Qed.

(** What a waiting transition may be told, and on which grounds. *)
Definition told_of (k : nat) (w : wait_answer) : Prop :=
  undecided_before k ∧
  match decided (answers k) with
  | None => False
  | Some None => w = WaitRunning ∨ w = WaitErrClosed
  | Some (Some e) => w = WaitErr e ∨ w = WaitRunning
  end.

Lemma select_grounds n w : w ∈ select_ready (poll_after react answers n) → ∃ k, told_of k w.
Proof.
  destruct (phase_after n) as [k Hk|k next Hk Hn|k Hk|k v Hk Hv|k v ops ec dc Hk Hv Hops|k v Hk Hv]; try by intros ?%elem_of_nil.
  - intros Hw. exists k. split; [done|]. rewrite Hv. revert Hw. unfold select_ready, told. destruct v as [e|], ec, dc; cbn;
      rewrite ?elem_of_cons, ?elem_of_nil; intuition.
  - intros Hw. exists k. split; [done|]. rewrite Hv. revert Hw. unfold select_ready, told. destruct v as [e|]; cbn;
      rewrite ?elem_of_cons, ?elem_of_nil; intuition.
Qed.

(** The goroutine gets past every inspection that decides nothing. *)
Lemma reaches_inspection k : undecided_before k → ∃ n, poll_after react answers n = quiet Inspecting k.
Proof.
  induction k as [|k IH]; intros Hk; [by exists 0%nat|]. destruct IH as [n Hn]; [intros j Hj; apply Hk; lia|].
  pose proof (Honce (answers k)) as Ho. rewrite (Hk k) in Ho by lia. destruct Ho as [Ho Ha].
  destruct (re_after (react (answers k))) eqn:Er; [exists (3 + n)%nat|exists (2 + n)%nat|done];
    cbn [Nat.add]; rewrite !poll_after_S, Hn; unfold poll_step; cbn [pl_place quiet pl_inspected]; by rewrite Ho, Er.
Qed.

Lemma reaches_end k v : undecided_before k → decided (answers k) = Some v → ∃ n, poll_after react answers n = told Returned k v true true.
Proof.
  intros Hk Hv. destruct (reaches_inspection k Hk) as [n Hn].
  pose proof (Honce (answers k)) as Ho. rewrite Hv in Ho. destruct Ho as [Ho Ha].
  exists (5 + n)%nat. cbn [Nat.add]. rewrite !poll_after_S, Hn. unfold poll_step at 5. cbn [pl_place quiet pl_inspected].
  rewrite Ho, Ha. by destruct v.
Qed.

Lemma ended_ready k v n : poll_after react answers n = told Returned k v true true →
  select_ready (poll_after react answers n) =
    match v with None => [WaitErrClosed; WaitRunning] | Some e => [WaitErr e; WaitRunning] end.
Proof. intros ->. by destruct v. Qed.
End starting.

Lemma docker_reports_once : reports_once WaitForRunning_reaction.
Proof. intros [s|e]; unfold decided, WaitForRunning_reaction; [|done].
  destruct (is_Running s); [done|]. destruct (_ || _); [done|]. by destruct (negb _). Qed.

(** What an inspection says of a container that is being started: it is on its way, it runs, or
    it has failed: it could not be inspected, has exited or died, or docker names an error. *)
Definition still_starting (r : InspectState + error) : Prop :=
  ∃ s, r = inl s ∧ is_Running s = false ∧ is_Status s ∉ ["exited"; "dead"] ∧ is_Error s = "".
Definition has_started (r : InspectState + error) : Prop := ∃ s, r = inl s ∧ is_Running s = true.
Inductive start_failed : InspectState + error → error → Prop :=
  | failed_inspection e : start_failed (inr e) e
  | failed_exited s : is_Running s = false → is_Status s ∈ ["exited"; "dead"] → start_failed (inl s) exited_error
  | failed_with s : is_Running s = false → is_Status s ∉ ["exited"; "dead"] → is_Error s ≠ "" → start_failed (inl s) (Plain (is_Error s)).

Lemma decided_spec r :
  match decided WaitForRunning_reaction r with
  | None => still_starting r
  | Some None => has_started r
  | Some (Some e) => start_failed r e
  end.
Proof.
  unfold decided, WaitForRunning_reaction. destruct r as [s|e]; [|constructor]. destruct (is_Running s) eqn:Hr; [by exists s|].
  assert (String.eqb (is_Status s) "exited" || String.eqb (is_Status s) "dead" = true ↔ is_Status s ∈ ["exited"; "dead"]) as Hs
    by (rewrite orb_true_iff, !String.eqb_eq, !elem_of_cons, elem_of_nil; tauto).
  destruct (String.eqb (is_Status s) "exited" || _).
  - cbn. apply failed_exited; [done|by apply Hs].
  - assert (is_Status s ∉ ["exited"; "dead"]) as Hn by (intros H; by apply Hs in H).
    destruct (String.eqb_spec (is_Error s) ""); cbn; [by exists s|by apply failed_with].
Qed.

Lemma starting_undecided r : still_starting r → decided WaitForRunning_reaction r = None.
Proof.
  intros (s & -> & Hr & Hn & He). pose proof (decided_spec (inl s)) as Hd. destruct (decided _ _) as [[e|]|]; [|destruct Hd as (? & [= <-] & ?); congruence|done].
  by inversion Hd.
Qed.

Lemma failed_decided r e : start_failed r e → decided WaitForRunning_reaction r = Some (Some e).
Proof.
  intros Hf. pose proof (decided_spec r) as Hd. destruct (decided _ _) as [[e'|]|].
  - do 2 f_equal. destruct Hf; inversion Hd; by subst.
  - destruct Hd as (s & -> & Hr). inversion Hf; congruence.
  - destruct Hd as (s & -> & Hr & Hn & He). by inversion Hf.
Qed.

(** C30: what a transition waiting for a container's start can be told, whenever it looks: the
    first inspection that finds it no longer starting stands behind it.  If that inspection
    found it running, the wait is told so, or gets the nil of the closed error channel; if the
    container could not be inspected, has exited, died or has an error, the wait is told
    exactly that error, or finds the closed channel of the running signal.  So an error is
    told only for a container that failed. *)
Theorem start_wait_grounds answers n w : w ∈ select_ready (WaitForRunning answers n) →
  ∃ k, (∀ j, (j < k)%nat → still_starting (answers j))
    ∧ (has_started (answers k) ∧ (w = WaitRunning ∨ w = WaitErrClosed)
       ∨ ∃ e, start_failed (answers k) e ∧ (w = WaitErr e ∨ w = WaitRunning)).
Proof.
  intros Hw. destruct (select_grounds _ _ docker_reports_once n w Hw) as (k & Hk & Ht). exists k. split.
  - intros j Hj. specialize (Hk j Hj). pose proof (decided_spec (answers j)) as Hd. by rewrite Hk in Hd.
  - pose proof (decided_spec (answers k)) as Hd. destruct (decided _ _) as [[e|]|]; [right; by exists e|by left|done].
Qed.

(** a container that fails to start can be taken for a running one: once the goroutine
    has reported the failure it closes the channel of the running signal too, and a select
    that comes after it may take either. *)
Theorem failed_start_may_pass answers k e :
  (∀ j, (j < k)%nat → still_starting (answers j)) → start_failed (answers k) e →
  ∃ n, ∀ m, (n ≤ m)%nat → select_ready (WaitForRunning answers m) = [WaitErr e; WaitRunning].
Proof.
  intros Hk Hv. destruct (reaches_end _ answers docker_reports_once k (Some e)) as [n Hn]; [intros j Hj; by apply starting_undecided, Hk|by apply failed_decided|].
  exists n. intros m Hm. unfold WaitForRunning. rewrite (poll_after_fixed _ _ n m); [by rewrite Hn|by rewrite Hn|done].
Qed.

(** A container that is created, then exits. *)
Definition ex_state (status : string) : InspectState :=
  {| is_Status := status; is_Running := String.eqb status "running"; is_Paused := false; is_Restarting := false;
     is_OOMKilled := false; is_Dead := false; is_Pid := 0; is_ExitCode := 1; is_Error := ""; is_StartedAt := ""; is_FinishedAt := "" |}.
Definition ex_exits (k : nat) : InspectState + error := inl (ex_state (if (k =? 0)%nat then "created" else "exited")).

Lemma exits_starting j : (j < 1)%nat → still_starting (ex_exits j).
Proof. intros Hj. assert (j = 0%nat) as -> by lia. exists (ex_state "created"). split_and!; try done. by apply (bool_decide_unpack _). Qed.
Lemma exits_failed : start_failed (ex_exits 1) exited_error.
Proof. apply failed_exited; [done|]. by left. Qed.

Lemma failed_start_may_pass_witness :
  ∃ n, ∀ m, (n ≤ m)%nat → select_ready (WaitForRunning ex_exits m) = [WaitErr exited_error; WaitRunning].
Proof. exact (failed_start_may_pass ex_exits 1 exited_error exits_starting exits_failed). Defined.

Lemma start_wait_grounds_witness :
  ∃ k, (∀ j, (j < k)%nat → still_starting (ex_exits j)) ∧ start_failed (ex_exits k) exited_error.
Proof.
  assert (WaitErr exited_error ∈ select_ready (WaitForRunning ex_exits 6)) as Hin by (vm_compute; by left).
  destruct (start_wait_grounds ex_exits 6 (WaitErr exited_error) Hin) as (k & Hk & [[_ [H|H]]|(e & He & [H|H])]); try discriminate H.
  exists k. split; [exact Hk|]. injection H as <-. exact He.
Defined.
