(* ===== verification/DockerSpec.v ===== *)
(** * What the Docker client computes and promises *)
From S2P Require Import Prelude Errdefs GoValue Common Effects WampValues LogText World DockerClient.
Open Scope go_scope.

(** ** Registry credentials reach the registry as they are *)

(** A reader of the header, as the daemon is one: base64url digits, then the object. *)
Definition base64url_value (a : ascii) : option N :=
  let n := N_of_ascii a in
  if ((65 <=? n) && (n <=? 90))%N then Some (n - 65)%N
  else if ((97 <=? n) && (n <=? 122))%N then Some (n - 97 + 26)%N
  else if ((48 <=? n) && (n <=? 57))%N then Some (n - 48 + 52)%N
  else if (n =? 45)%N then Some 62%N else if (n =? 95)%N then Some 63%N else None.

Definition byte_at (v k : N) : ascii := ascii_of_N ((v / 2 ^ (8 * k)) mod 256)%N.

Fixpoint base64url_read (s : string) : option string :=
  match s with
  | EmptyString => Some ""
  | String a (String b (String c (String d s))) =>
      a ← base64url_value a; b ← base64url_value b;
      if Ascii.eqb c "=" then
        let v := (a * 2 ^ 18 + b * 2 ^ 12)%N in Some (String (byte_at v 2) "")
      else
        c ← base64url_value c;
        if Ascii.eqb d "=" then
          let v := (a * 2 ^ 18 + b * 2 ^ 12 + c * 2 ^ 6)%N in Some (String (byte_at v 2) (String (byte_at v 1) ""))
        else
          d ← base64url_value d;
          let v := (a * 2 ^ 18 + b * 2 ^ 12 + c * 2 ^ 6 + d)%N in
          rest ← base64url_read s;
          Some (String (byte_at v 2) (String (byte_at v 1) (String (byte_at v 0) rest)))
  | _ => None
  end%list.

Lemma base64url_value_digit n : (n < 64)%N → base64url_value (base64url_digit n) = Some n ∧ Ascii.eqb (base64url_digit n) "=" = false.
Proof.
  assert (forallb (λ n, bool_decide (base64url_value (base64url_digit n) = Some n) && negb (Ascii.eqb (base64url_digit n) "="))
            (map N.of_nat (seq 0 64)) = true) as Hall by (vm_compute; reflexivity).
  intros Hn. rewrite forallb_forall in Hall. specialize (Hall n).
  destruct (andb_prop _ _ (Hall ltac:(apply in_map_iff; exists (N.to_nat n); split; [lia|apply in_seq; lia]))) as [H1 H2].
  split; [by apply bool_decide_eq_true_1 in H1|by apply negb_true_iff].
Qed.

Lemma lor_shiftl a b n : (b < 2 ^ n)%N → N.lor (N.shiftl a n) b = (a * 2 ^ n + b)%N.
Proof.
  intros Hb. assert (N.land (N.shiftl a n) b = 0%N) as Hd.
  { apply N.bits_inj. intros m. rewrite N.land_spec, N.bits_0. destruct (N.lt_ge_cases m n) as [Hm|Hm].
    - by rewrite N.shiftl_spec_low.
    - rewrite <- (N.mod_small b (2 ^ n)) by done. rewrite N.mod_pow2_bits_high by done. by rewrite andb_false_r. }
  rewrite <- N.lxor_lor by done. rewrite <- N.add_nocarry_lxor by done. by rewrite N.shiftl_mul_pow2.
Qed.

Lemma quad_value v k : base64url_value (quad v k) = Some ((v / 2 ^ (6 * k)) mod 64)%N ∧ Ascii.eqb (quad v k) "=" = false.
Proof.
  unfold quad. replace 63%N with (N.ones 6) by done. rewrite N.land_ones, N.shiftr_div_pow2.
  change (2 ^ 6)%N with 64%N. apply base64url_value_digit. apply N.mod_lt. done.
Qed.

Lemma byte_lt a : (N_of_ascii a < 256)%N. Proof. apply N_ascii_bounded. Qed.

Lemma byte_at_is v k a : ((v / 2 ^ (8 * k)) mod 256 = N_of_ascii a)%N → byte_at v k = a.
Proof. unfold byte_at. intros ->. apply ascii_N_embedding. Qed.

(** One, two or three bytes, as one number, are its leading digits of six bits. *)
Ltac digits := cbv zeta; intros;
  change (2 ^ 24)%N with 16777216%N; change (2 ^ 18)%N with 262144%N; change (2 ^ 12)%N with 4096%N; change (2 ^ 6)%N with 64%N;
  change (2 ^ (6 * 3))%N with 262144%N; change (2 ^ (6 * 2))%N with 4096%N; change (2 ^ (6 * 1))%N with 64%N; change (2 ^ (6 * 0))%N with 1%N;
  change (2 ^ (8 * 2))%N with 65536%N; change (2 ^ (8 * 1))%N with 256%N; change (2 ^ (8 * 0))%N with 1%N;
  zify; Z.to_euclidean_division_equations; lia.

Lemma digits_one a : (a < 256)%N → let v := (a * 65536)%N in
  ((v / 2 ^ (6 * 3)) mod 64 * 2 ^ 18 + (v / 2 ^ (6 * 2)) mod 64 * 2 ^ 12 = v)%N.
Proof. digits. Qed.
Lemma digits_two a b : (a < 256)%N → (b < 256)%N → let v := (a * 65536 + b * 256)%N in
  ((v / 2 ^ (6 * 3)) mod 64 * 2 ^ 18 + (v / 2 ^ (6 * 2)) mod 64 * 2 ^ 12 + (v / 2 ^ (6 * 1)) mod 64 * 2 ^ 6 = v)%N.
Proof. digits. Qed.
Lemma digits_three a b c : (a < 256)%N → (b < 256)%N → (c < 256)%N → let v := (a * 65536 + b * 256 + c)%N in
  ((v / 2 ^ (6 * 3)) mod 64 * 2 ^ 18 + (v / 2 ^ (6 * 2)) mod 64 * 2 ^ 12 + (v / 2 ^ (6 * 1)) mod 64 * 2 ^ 6 + (v / 2 ^ (6 * 0)) mod 64 = v)%N.
Proof. digits. Qed.

Lemma bytes_of a b c : (a < 256)%N → (b < 256)%N → (c < 256)%N →
  let v := (a * 65536 + b * 256 + c)%N in
  ((v / 2 ^ (8 * 2)) mod 256 = a)%N ∧ ((v / 2 ^ (8 * 1)) mod 256 = b)%N ∧ ((v / 2 ^ (8 * 0)) mod 256 = c)%N.
Proof. digits. Qed.

(** The number a group of bytes is encoded from. *)
Lemma group_one a : N.shiftl a 16 = (a * 65536 + 0 * 256 + 0)%N.
Proof. rewrite N.shiftl_mul_pow2. change (2 ^ 16)%N with 65536%N. lia. Qed.
Lemma group_two a b : (b < 256)%N → N.lor (N.shiftl a 16) (N.shiftl b 8) = (a * 65536 + b * 256 + 0)%N.
Proof.
  intros Hb. rewrite lor_shiftl; rewrite N.shiftl_mul_pow2; change (2 ^ 16)%N with 65536%N; change (2 ^ 8)%N with 256%N; lia.
Qed.
Lemma group_three a b c : (b < 256)%N → (c < 256)%N →
  N.lor (N.lor (N.shiftl a 16) (N.shiftl b 8)) c = (a * 65536 + b * 256 + c)%N.
Proof.
  intros Hb Hc. rewrite (group_two a b) by done.
  replace (a * 65536 + b * 256 + 0)%N with (N.shiftl (a * 256 + b) 8) by (rewrite N.shiftl_mul_pow2; change (2 ^ 8)%N with 256%N; lia).
  rewrite lor_shiftl by done. change (2 ^ 8)%N with 256%N. lia.
Qed.

Lemma base64url_roundtrip s : base64url_read (base64url s) = Some s.
Proof.
  revert s. fix IH 1. intros [|a [|b [|c s]]]; [done|..]; cbn [base64url]; pose proof (byte_lt a) as La.
  - rewrite group_one. pose proof (bytes_of (N_of_ascii a) 0 0) as B. pose proof (digits_one (N_of_ascii a)) as D.
    cbv zeta in *. rewrite <- (N.add_0_r (_ * 65536)), <- (N.add_0_r (_ + 0)) in D. change (0 * 256)%N with 0%N in *. set (v := (_ + 0 + 0)%N) in *.
    cbn [base64url_read]. destruct (quad_value v 3) as [-> _]. destruct (quad_value v 2) as [-> _]. cbn [mbind option_bind].
    change (Ascii.eqb "=" "=") with true. cbv iota. rewrite D by done. do 2 f_equal. by apply byte_at_is, B.
  - pose proof (byte_lt b) as Lb. rewrite group_two by done. pose proof (bytes_of (N_of_ascii a) (N_of_ascii b) 0) as B.
    pose proof (digits_two (N_of_ascii a) (N_of_ascii b)) as D. cbv zeta in *. rewrite <- (N.add_0_r (_ + _ * 256)) in D. set (v := (_ + 0)%N) in *.
    cbn [base64url_read]. destruct (quad_value v 3) as [-> _]. destruct (quad_value v 2) as [-> _]. destruct (quad_value v 1) as [-> ->].
    cbn [mbind option_bind]. change (Ascii.eqb "=" "=") with true. cbv iota. rewrite D by done.
    destruct B as (B2 & B1 & _); [done..|]. by rewrite (byte_at_is v 2 a B2), (byte_at_is v 1 b B1).
  - pose proof (byte_lt b) as Lb. pose proof (byte_lt c) as Lc. rewrite group_three by done.
    pose proof (bytes_of (N_of_ascii a) (N_of_ascii b) (N_of_ascii c)) as B.
    pose proof (digits_three (N_of_ascii a) (N_of_ascii b) (N_of_ascii c)) as D. cbv zeta in *. set (v := (_ + N_of_ascii c)%N) in *.
    cbn [base64url_read]. destruct (quad_value v 3) as [-> _]. destruct (quad_value v 2) as [-> _]. destruct (quad_value v 1) as [-> ->].
    destruct (quad_value v 0) as [-> ->]. cbn [mbind option_bind]. rewrite IH. rewrite D by done. cbn [mbind option_bind].
    destruct B as (B2 & B1 & B0); [done..|]. by rewrite (byte_at_is v 2 a B2), (byte_at_is v 1 b B1), (byte_at_is v 0 c B0).
Qed.

(** A reader of a JSON string, after its opening quote: the string and the rest. *)
Definition hex_value (a : ascii) : N := let n := N_of_ascii a in if (n <? 58)%N then (n - 48)%N else (n - 87)%N.

Fixpoint json_read (s : string) : option (string * string) :=
  match s with
  | EmptyString => None
  | String a s =>
      if Ascii.eqb a (ascii_of_N 34) then Some ("", s)
      else if Ascii.eqb a "\" then
        match s with
        | String "u" (String _ (String _ (String h (String l s)))) =>
            '(t, rest) ← json_read s; Some (String (ascii_of_N (hex_value h * 16 + hex_value l)) t, rest)
        | String c s =>
            '(t, rest) ← json_read s;
            Some (String (if Ascii.eqb c "n" then ascii_of_N 10 else if Ascii.eqb c "r" then ascii_of_N 13
                          else if Ascii.eqb c "t" then ascii_of_N 9 else if Ascii.eqb c "b" then ascii_of_N 8
                          else if Ascii.eqb c "f" then ascii_of_N 12 else c) t, rest)
        | EmptyString => None
        end
      else '(t, rest) ← json_read s; Some (String a t, rest)
  end.

Lemma json_read_char a t : json_read (json_char a +:+ t) = ('(u, rest) ← json_read t; Some (String a u, rest)).
Proof. destruct a as [[] [] [] [] [] [] [] []]; reflexivity. Qed.

Lemma json_read_chars s t : json_read (json_chars s +:+ String (ascii_of_N 34) t) = Some (s, t).
Proof. induction s as [|a s IH]; [done|]. cbn [json_chars]. by rewrite str_app_assoc, json_read_char, IH. Qed.

Definition expect (p s : string) : option string :=
  if has_prefix p s then Some (String.substring (String.length p) (String.length s - String.length p) s) else None.

Lemma expect_app p s : expect p (p +:+ s) = Some s.
Proof.
  unfold expect, has_prefix. induction p as [|a p IH].
  - cbn [String.append String.prefix String.length]. rewrite Nat.sub_0_r, substring_all. by destruct s.
  - cbn [String.append String.prefix String.length Nat.sub String.substring]. by destruct (ascii_dec a a).
Qed.

(** The credentials a header carries. *)
Definition read_auth (header : string) : option AuthConfig :=
  s ← base64url_read header;
  s ← expect ("{" +:+ json_string "Username" +:+ ":" +:+ String (ascii_of_N 34) "") s;
  '(u, s) ← json_read s;
  s ← expect ("," +:+ json_string "Password" +:+ ":" +:+ String (ascii_of_N 34) "") s;
  '(p, s) ← json_read s;
  if String.eqb s "}" then Some {| au_Username := u; au_Password := p |} else None.

(** whatever characters a user name and a password consist of, the registry header built
    from them reads back as the same credentials: quotes and control characters are escaped,
    and the bytes survive base64url with its padding. *)
Theorem registry_auth_roundtrip a : read_auth (registry_auth a) = Some a.
Proof.
  destruct a as [u p]. unfold read_auth, registry_auth. rewrite base64url_roundtrip. cbn [mbind option_bind].
  replace (json_auth _) with (("{" +:+ json_string "Username" +:+ ":" +:+ String (ascii_of_N 34) "") +:+ (json_chars u +:+ String (ascii_of_N 34)
    (("," +:+ json_string "Password" +:+ ":" +:+ String (ascii_of_N 34) "") +:+ (json_chars p +:+ String (ascii_of_N 34) "}")))).
  - rewrite expect_app. cbn [mbind option_bind]. rewrite json_read_chars. cbn [mbind option_bind].
    rewrite expect_app. cbn [mbind option_bind]. rewrite json_read_chars. done.
  - unfold json_auth, json_string. cbn [au_Username au_Password].
    repeat (rewrite ?str_app_assoc; cbn [String.append]). reflexivity.
Qed.

(** ** Published ports *)

(** The host port of a container port with several bindings: the last on all interfaces,
    else the first that is usable. *)
Definition usable (bs : list HostBinding) : list (bool * N) :=
  omap (λ b, p ← usable_port b; Some (all_interfaces b, p)) bs.
Definition chosen_port (bs : list HostBinding) : option N :=
  match last (filter (λ bp, bp.1 = true) (usable bs)) with
  | Some bp => Some bp.2
  | None => snd <$> head (usable bs)
  end.

(** What the loop over the bindings does to the entry of its port. *)
Definition entry_step (cur : option N) (b : HostBinding) : option N :=
  match usable_port b with
  | None => cur
  | Some p => if negb (bool_decide (is_Some cur)) || all_interfaces b then Some p else cur
  end.

Lemma add_binding_entry cp m b : map_get cp (add_binding cp m b) = entry_step (map_get cp m) b.
Proof.
  unfold add_binding, entry_step. destruct (usable_port b) as [p|]; [|done].
  destruct (_ || _); [apply map_get_set_eq|done].
Qed.

Lemma add_binding_other cp cp' m b : cp ≠ cp' → map_get cp' (add_binding cp m b) = map_get cp' m.
Proof.
  intros Hne. unfold add_binding. destruct (usable_port b) as [p|]; [|done]. destruct (_ || _); [by apply map_get_set_ne|done].
Qed.

Lemma bindings_entry cp bs : ∀ m, map_get cp (foldl (add_binding cp) m bs) = foldl entry_step (map_get cp m) bs.
Proof. induction bs as [|b bs IH]; intros m; [done|]. cbn [foldl]. by rewrite IH, add_binding_entry. Qed.

Lemma bindings_other cp cp' bs : cp ≠ cp' → ∀ m, map_get cp' (foldl (add_binding cp) m bs) = map_get cp' m.
Proof. intros Hne. induction bs as [|b bs IH]; intros m; [done|]. cbn [foldl]. by rewrite IH, add_binding_other. Qed.

Lemma entry_chosen bs : ∀ cur, foldl entry_step cur bs =
  match last (filter (λ bp, bp.1 = true) (usable bs)) with
  | Some bp => Some bp.2
  | None => match cur with Some p => Some p | None => snd <$> head (usable bs) end
  end.
Proof.
  induction bs as [|b bs IH]; intros cur; [by destruct cur|]. cbn [foldl]. rewrite IH. unfold entry_step, usable. cbn [omap list_omap].
  fold (usable bs). destruct (usable_port b) as [p|]; cbn [mbind option_bind]; [|done]. rewrite filter_cons. cbn [fst].
  destruct (all_interfaces b) eqn:Ea.
  - rewrite decide_True by done. rewrite orb_true_r. destruct (last (filter _ (usable bs))) as [x|] eqn:El.
    + rewrite last_cons, El. done.
    + rewrite last_cons, El. done.
  - rewrite decide_False by done. destruct (last (filter _ (usable bs))); [done|]. by destruct cur.
Qed.

(** the port a restarted agent recovers for a container port is the binding that the
    traffic of the device uses: one on all interfaces if there is any, the last of them,
    else the first binding whose port is a usable number, whatever the order of the ports. *)
Theorem port_bindings_choice l cp : NoDup (fst <$> l) → map_get cp (port_bindings l) = (bs ← map_get cp l; chosen_port bs).
Proof.
  unfold port_bindings. set (m := ([] : list (string * N))). assert (map_get cp m = None) as Hm by done. clearbody m.
  assert (NoDup (fst <$> l) → map_get cp (foldl (λ bindings pb, foldl (add_binding pb.1) bindings pb.2) m l) =
    match map_get cp l with Some bs => foldl entry_step (map_get cp m) bs | None => map_get cp m end) as Hgen.
  { clear Hm. revert m. induction l as [|[k bs] l IH]; intros m; [done|]. cbn [fmap list_fmap fst]. intros [Hk Hnd]%NoDup_cons.
    cbn [foldl fst snd]. rewrite IH by done. cbn [map_get]. destruct (String.eqb_spec cp k) as [->|Hne].
    - rewrite bindings_entry. destruct (map_get k l) as [bs'|] eqn:E; [|done].
      destruct Hk. apply map_get_elem in E. apply list_elem_of_fmap. by exists (k, bs').
    - by rewrite bindings_other. }
  intros Hnd. rewrite Hgen by done. rewrite Hm. destruct (map_get cp l) as [bs|]; [|done]. cbn [mbind option_bind].
  by rewrite entry_chosen.
Qed.

Definition ex_binding (ip port : string) : HostBinding := {| hb_HostIP := ip; hb_HostPort := port |}.
Definition ex_bindings : list (string * list HostBinding) :=
  [("80/tcp", [ex_binding "127.0.0.1" "8080"; ex_binding "0.0.0.0" "32768"; ex_binding "::" "32769"]);
   ("443/tcp", [ex_binding "" ""; ex_binding "10.0.0.1" "8443"; ex_binding "10.0.0.2" "9443"])].

Lemma port_bindings_choice_witness :
  map_get "80/tcp" (port_bindings ex_bindings) = Some 32768%N ∧ map_get "443/tcp" (port_bindings ex_bindings) = Some 8443%N.
Proof.
  assert (NoDup (fst <$> ex_bindings)) as Hnd by (apply NoDup_cons; split; [by intros [=]%list_elem_of_singleton|apply NoDup_singleton]).
  split; [exact (port_bindings_choice ex_bindings "80/tcp" Hnd)|exact (port_bindings_choice ex_bindings "443/tcp" Hnd)].
Defined.

(** ** Waiting for the daemon *)

Section daemon.
Variable en : docker_env.

(** The time slept in a stretch of a log. *)
Fixpoint slept (l : list (@event DockerCall DockerState)) : Z :=
  match l with
  | [] => 0
  | Ev (SleepNs ns) _ _ :: l => ns + slept l
  | _ :: l => slept l
  end%Z.

(** The clock advances by no less than what is slept. *)
Definition clock_honest : Prop := ∀ l lg, (answer en _ ClockNow lg + slept l ≤ answer en _ ClockNow (l ++ lg))%Z.
Hypothesis Hclock : clock_honest.
#[local] Set Default Proof Using "Type*".

Definition ends_wait (o : outcome unit) (st : docker_state) : Prop :=
  (o = Ok tt ∧ ∃ p w lg, log st = Ev SdkPing (inl p) w :: lg) ∨ o = Err daemon_wait_error.

Lemma call_returns {T} (c : DockerCall T) st : ∃ st', call c en st = (Ok (answer en T c (log st)), st')
  ∧ log st' = Ev c (answer en T c (log st)) (world st) :: log st.
Proof. by eexists. Qed.

(** A ping that failed, then the sleep and the look at the clock. *)
Lemma daemon_turn turns retry started st : ∃ r st1,
  log st1 = Ev SdkPing r (world st) :: log st ∧
  match r with
  | inl _ => daemon_loop (S turns) retry started en st = (Ok tt, st1)
  | inr _ => ∃ st3 u w2 w3 now, now = answer en _ ClockNow (Ev (SleepNs 100000000) u w2 :: log st1)
      ∧ log st3 = Ev ClockNow now w3 :: Ev (SleepNs 100000000) u w2 :: log st1
      ∧ daemon_loop (S turns) retry started en st =
          if (retry <? now - started)%Z then (Err daemon_wait_error, st3) else daemon_loop turns retry started en st3
  end.
Proof.
  destruct (call_returns SdkPing st) as (st1 & E1 & L1). exists (answer en _ SdkPing (log st)), st1. split; [done|].
  cbn [daemon_loop]. unfold try_, PingDaemon, callE, lift, ret, throw, bind. rewrite E1.
  destruct (answer en _ SdkPing (log st)) as [p|e]; [done|]. cbn beta iota.
  destruct (call_returns (SleepNs 100000000) st1) as (st2 & E2 & L2).
  destruct (call_returns ClockNow st2) as (st3 & E3 & L3). rewrite L2 in L3, E3.
  exists st3. eexists _, _, _, _. split; [reflexivity|]. split; [exact L3|].
  rewrite E2. cbn beta iota. rewrite E3. cbn beta iota. by destruct (_ <? _)%Z.
Qed.

Lemma daemon_loop_ends turns : ∀ retry lg l st, log st = (l ++ lg)%list →
  (slept l ≤ retry)%Z → (retry - slept l < 100000000 * Z.of_nat turns)%Z →
  ends_wait (daemon_loop turns retry (answer en _ ClockNow lg) en st).1 (daemon_loop turns retry (answer en _ ClockNow lg) en st).2.
Proof.
  induction turns as [|turns IH]; intros retry lg l st Hl Hs Ht; [lia|].
  destruct (daemon_turn turns retry (answer en _ ClockNow lg) st) as ([p|e] & st1 & L1 & E).
  { rewrite E. left. split; [done|]. by eexists _, _, _. }
  destruct E as (st3 & u & w2 & w3 & now & Hnow & L3 & ->).
  destruct (retry <? now - answer en Z ClockNow lg)%Z eqn:Eb; [by right|]. bool_to_prop.
  set (l2 := (Ev (SleepNs 100000000) u w2 :: Ev SdkPing (inr e) (world st) :: l)%list).
  assert (now = answer en _ ClockNow (l2 ++ lg)%list) as Hnow' by (rewrite Hnow, L1, Hl; done).
  assert (slept l2 = 100000000 + slept l)%Z as Hl2 by done. pose proof (Hclock l2 lg) as Hc.
  apply (IH retry lg (Ev ClockNow now w3 :: l2)%list); [by rewrite L3, L1, Hl|cbn [slept]; lia|cbn [slept]; lia].
Qed.

(** waiting for the docker daemon always comes to an end: a timeout of [retryTimeout] is
    worth at most one ping per tenth of a second and one more, and the wait succeeds only on
    a ping that the daemon answered. *)
Theorem daemon_wait_ends turns retryTimeout st : (0 ≤ retryTimeout)%Z → (retryTimeout < 100000000 * Z.of_nat turns)%Z →
  let r := WaitForDaemon turns (Some retryTimeout) en st in
  (r.1 = Ok tt ∧ ∃ p w lg, log r.2 = Ev SdkPing (inl p) w :: lg) ∨ r.1 = Err daemon_wait_error.
Proof.
  intros H0 Ht. cbv zeta. unfold WaitForDaemon, bind. destruct (call_returns ClockNow st) as (st' & -> & Hl).
  apply (daemon_loop_ends turns retryTimeout (log st) [Ev ClockNow (answer en _ ClockNow (log st)) (world st)]); [by rewrite Hl|done|cbn; lia].
Qed.
End daemon.

(** A daemon that never answers, under a clock that runs. *)
Fixpoint time_of (l : list (@event DockerCall DockerState)) : Z :=
  match l with [] => 0 | Ev (SleepNs ns) _ _ :: l => Z.abs ns + time_of l | _ :: l => time_of l end%Z.
Definition ex_inspect : Inspect :=
  {| in_State := {| is_Status := "exited"; is_Running := false; is_Paused := false; is_Restarting := false; is_OOMKilled := false;
       is_Dead := false; is_Pid := 0; is_ExitCode := 0; is_Error := ""; is_StartedAt := ""; is_FinishedAt := "" |}; in_HostConfig := None |}.
Definition silent_daemon (T : Type) (c : DockerCall T) (lg : list (@event DockerCall DockerState)) : T :=
  match c in DockerCall T return T with
  | ClockNow => time_of lg
  | SleepNs _ => tt
  | SdkContainerWait _ _ => WaitFailed (Plain "down")
  | SdkContainerLogs _ _ | SdkImagePull _ _ | SdkImagePush _ _ | SdkImageBuild _ _ => (None, Some (Plain "down"))
  | DockerLogin _ _ _ => {| la_Output := ""; la_Error := Some (Plain "down"); la_Deadline := false |}
  | OpenBuildContext _ => Opened
  | SdkContainerList _ | SdkContainerRemove _ _ | SdkContainerStop _ _ | SdkContainerStart _ | SdkContainerInspect _
  | SdkContainerCreate _ _ _ | SdkContainerAttach _ | SdkExecCreate _ _ | SdkExecAttach _ _ | SdkExecResize _ _ | SdkImageList _ _
  | SdkImageRemove _ _ | SdkImagesPrune _ | SdkImageTag _ _ | SdkVolumeList _ | SdkVolumeRemove _ _ | SdkInfoRootDir | SdkPing
  | DockerCli _ | CloseStream _ => inr (Plain "down")
  end.
Definition silent_env : docker_env := {| answer := silent_daemon; interfere := λ _ s, s |}.
Definition docker_idle : docker_state := mk_state {| activeStreams := [] |} [].

Lemma silent_clock : clock_honest silent_env.
Proof.
  intros l lg. cbn. induction l as [|[T c r w] l IH]; cbn [app time_of slept]; [lia|]. destruct c; cbn; try done. lia.
Qed.

Lemma daemon_wait_ends_witness :
  let r := WaitForDaemon 51 (Some 5000000000%Z) silent_env docker_idle in
  (r.1 = Ok tt ∧ ∃ p w lg, log r.2 = Ev SdkPing (inl p) w :: lg) ∨ r.1 = Err daemon_wait_error.
Proof.
  assert (0 ≤ 5000000000)%Z as H0 by lia. assert (5000000000 < 100000000 * Z.of_nat 51)%Z as H1 by lia.
  exact (daemon_wait_ends silent_env silent_clock 51 5000000000 docker_idle H0 H1).
Defined.

(** ** Lookups by name *)

(** The name filter of the daemon lets through every container one of whose names contains
    the text. *)
Definition name_filter (n : string) (cs : list Summary) : list Summary := List.filter (λ c, existsb (str_contains n) (su_Names c)) cs.
Definition lists_containers (en : docker_env) (cs : list Summary) : Prop :=
  ∀ n lg, answer en _ (SdkContainerList (all_named [("name", n)])) lg = inl (name_filter n cs).

Section lookups.
Context `{DockerSdk}.
Variables (en : docker_env) (cs : list Summary).
Hypothesis Hlist : lists_containers en cs.
#[local] Set Default Proof Using "Type*".

(** The answer of a lookup, and the call it makes. *)
Lemma GetContainer_spec n st : (GetContainer n en st).1 =
  match name_filter n cs with c :: _ => Ok c | [] => Err ContainerNotFoundError end.
Proof.
  unfold GetContainer, bind, callE, call, lift, ret, throw. cbn. unfold bind. cbn. rewrite Hlist. by destruct (name_filter n cs).
Qed.

(** Removing by name removes the first container whose name merely contains the text. *)
Lemma RemoveContainerByName_spec n o st c rest : name_filter n cs = c :: rest →
  ∃ lg w, log (RemoveContainerByName n o en st).2 = Ev (SdkContainerRemove (su_ID c) (remove_options o)) lg w :: log (GetContainer n en st).2.
Proof.
  intros Hc. pose proof (GetContainer_spec n st) as Hg. rewrite Hc in Hg. unfold RemoveContainerByName, bind.
  destruct (GetContainer n en st) as [o' st']. cbn [fst snd] in *. subst o'. unfold RemoveContainerByID, classify, bind, call.
  by destruct (answer en _ _ (log st')); eexists _, _.
Qed.
End lookups.

Definition ex_container (id name : string) : Summary :=
  {| su_ID := id; su_Names := ["/" +:+ name]; su_ImageID := ""; su_Command := ""; su_Labels := []; su_State := "running"; su_Status := "Up"; su_Ports := [] |}.
Definition ex_host : list Summary := [ex_container "c1" "prod_7_cam_compose-web-1"; ex_container "c2" "prod_7_cam"].
Definition lookup_daemon (T : Type) (c : DockerCall T) (lg : list (@event DockerCall DockerState)) : T :=
  match c in DockerCall T return T with
  | SdkContainerList o => inl (match lo_Filters o with [("name", n)] => name_filter n ex_host | _ => ex_host end)
  | SdkContainerRemove _ _ => inl tt
  | c => silent_daemon _ c lg
  end.
Definition lookup_env : docker_env := {| answer := lookup_daemon; interfere := λ _ s, s |}.

(** The container of a compose service is removed for the app's own. *)
Example removes_the_wrong_container `{DockerSdk} :
  match log (RemoveContainerByName "prod_7_cam" [("force", Val (WBool true))] lookup_env docker_idle).2 with
  | Ev (SdkContainerRemove id o) _ _ :: _ => id = "c1" ∧ ro_Force o = true
  | _ => False
  end.
Proof. split; reflexivity. Qed.

(** ** Streams *)

(** The streams closed, in the order they were. *)
Fixpoint closings (l : list (@event DockerCall DockerState)) : list nat :=
  match l with
  | [] => []
  | Ev (CloseStream s) _ _ :: l => (closings l ++ [s])%list
  | _ :: l => closings l
  end.

(** The streams up to the first whose close fails, with that failure. *)
Fixpoint until_failure (close : nat → unit + error) (l : list nat) : list nat * option error :=
  match l with
  | [] => ([], None)
  | s :: l => match close s with
              | inr e => ([s], Some e)
              | inl _ => let '(closed, e) := until_failure close l in (s :: closed, e)
              end
  end.

Section streams.
Context `{DockerSdk}.
Variables (en : docker_env) (close : nat → unit + error).
(** A close answers the same whenever it is made. *)
Definition closes_as : Prop := ∀ s lg, answer en _ (CloseStream s) lg = close s.
Hypothesis Hclose : closes_as.
#[local] Set Default Proof Using "Type*".

(** The readers of the registered streams, in the order they are visited. *)
Definition readers (l : list (string * DockerStream)) : list nat := omap (λ s, ds_Stream s.2) l.

Lemma close_step r st : ∃ st', callE (CloseStream r) en st = (match close r with inl a => Ok a | inr e => Err e end, st')
  ∧ closings (log st') = (closings (log st) ++ [r])%list.
Proof. unfold callE, bind, call. rewrite Hclose. by destruct (close r); eexists. Qed.

Definition close_reader (s : string * DockerStream) : Docker unit :=
  match ds_Stream s.2 with None => panic | Some r => callE (CloseStream r) end.

Lemma close_all_spec l : Forall (λ s, is_Some (ds_Stream s.2)) l → ∀ st, 
  let '(closed, failure) := until_failure close (readers l) in
  ∃ st', for_each l close_reader en st = (match failure with None => Ok tt | Some e => Err e end, st')
    ∧ closings (log st') = (closings (log st) ++ closed)%list.
Proof.
  intros Hl. induction Hl as [|[k [i [r|]]] l [r' Hr] Hl IH]; intros st; cbn [ds_Stream snd] in *; [exists st; by rewrite app_nil_r| |done].
  unfold readers. cbn [omap list_omap ds_Stream snd]. fold (readers l). cbn [until_failure].
  cbn [for_each]. unfold bind, close_reader at 1. cbn [ds_Stream snd]. destruct (close_step r st) as (st1 & -> & Hc1).
  destruct (close r) as [[]|e]; [|by exists st1]. specialize (IH st1).
  destruct (until_failure close (readers l)) as [closed failure]. destruct IH as (st' & -> & Hc). exists st'. split; [done|].
  by rewrite Hc, Hc1, <- app_assoc.
Qed.

(** canceling all streams, on a reconnect, closes them one after the other and stops at
    the first that cannot be closed: the ones after it stay open, and the failure is
    reported. *)
Theorem cancel_all_until_failure st : Forall (λ s, is_Some (ds_Stream s.2)) (activeStreams (world st)) →
  let '(closed, failure) := until_failure close (readers (activeStreams (world st))) in
  (CancelAllStreams en st).1 = match failure with None => Ok tt | Some e => Err e end
  ∧ closings (log (CancelAllStreams en st).2) = (closings (log st) ++ closed)%list.
Proof.
  intros Hs. pose proof (close_all_spec _ Hs st) as Hc. change (CancelAllStreams en st) with (for_each (activeStreams (world st)) close_reader en st).
  destruct (until_failure _ _) as [closed failure]. destruct Hc as (st' & E & Hc). by rewrite E.
Qed.
End streams.

(** Every pull, push and build stays registered after it ended. *)
Lemma streams_are_kept `{DockerSdk} name a id reader en st : id ≠ "" →
  (∀ lg s, interfere en lg s = s) → (answer en _ (SdkImagePull name (registry_auth a)) (log st)) = (Some reader, None) →
  map_get id (activeStreams (world (Pull name a id en st).2)) = Some {| ds_StreamID := id; ds_Stream := Some reader |}.
Proof.
  intros Hid Hint Ha. unfold Pull, bind, call. rewrite Ha. cbn. unfold put_stream, bind.
  destruct (String.eqb_spec id ""); [done|]. cbn. rewrite Hint. apply map_get_set_eq.
Qed.

Definition closing_daemon (T : Type) (c : DockerCall T) (lg : list (@event DockerCall DockerState)) : T :=
  match c in DockerCall T return T with
  | CloseStream s => if (s =? 2)%nat then inr (Plain "broken pipe") else inl tt
  | c => silent_daemon _ c lg
  end.
Definition closing_env : docker_env := {| answer := closing_daemon; interfere := λ _ s, s |}.
Definition ex_streams : docker_state :=
  mk_state {| activeStreams := [("a", {| ds_StreamID := "a"; ds_Stream := Some 1%nat |}); ("b", {| ds_StreamID := "b"; ds_Stream := Some 2%nat |});
                                ("c", {| ds_StreamID := "c"; ds_Stream := Some 3%nat |})] |} [].
#[local] Instance ex_sdk : DockerSdk := {| IsErrNotFound := λ e, str_contains "No such container" (error_text e) |}.

(** The third stream of three is not closed. *)
Lemma cancel_all_until_failure_witness :
  (CancelAllStreams closing_env ex_streams).1 = Err (Plain "broken pipe") ∧ closings (log (CancelAllStreams closing_env ex_streams).2) = [1%nat; 2%nat].
Proof.
  assert (closes_as closing_env (λ s, if (s =? 2)%nat then inr (Plain "broken pipe") else inl tt)) as Hc by done.
  assert (Forall (λ s : string * DockerStream, is_Some (ds_Stream s.2)) (activeStreams (world ex_streams))) as Hs by (repeat constructor; eauto).
  exact (cancel_all_until_failure closing_env _ Hc ex_streams Hs).
Defined.

(** ** Errors the transitions branch on *)

(** The type a failed removal is given: not found or already in progress when, and only
    when, the daemon says so, and the text is the daemon's in every case. *)
Lemma removal_error_typed e : (∀ k, is_kind k e = false) →
  IsContainerNotFound (removal_error e) = str_contains no_such_container (error_text e)
  ∧ IsContainerRemovalAlreadyInProgress (removal_error e) =
      negb (str_contains no_such_container (error_text e)) && str_contains "is already in progress" (error_text e)
  ∧ error_text (removal_error e) = error_text e.
Proof.
  intros Hp. unfold removal_error, IsContainerNotFound, IsContainerRemovalAlreadyInProgress.
  destruct (str_contains no_such_container _).
  - rewrite is_kind_wrap, error_text_wrap. split_and!; [done| |done]. destruct (is_kind KContainerRemovalAlreadyInProgress _) eqn:E; [|done].
    pose proof (is_kind_unique _ _ _ (is_kind_wrap KContainerNotFound e) E). done.
  - destruct (str_contains "is already in progress" _).
    + rewrite is_kind_wrap, error_text_wrap. split_and!; [|done|done]. destruct (is_kind KContainerNotFound (wrap_kind _ e)) eqn:E; [|done].
      pose proof (is_kind_unique _ _ _ (is_kind_wrap KContainerRemovalAlreadyInProgress e) E). done.
    + by rewrite !Hp.
Qed.
