(* ===== verification/ComposeClient.v ===== *)
(** * The compose client (src/src/container/compose.go)

    [docker compose] driven through its command line: starting a command and draining its
    output without ever waiting for the reader of the stream, the tail kept to explain a
    failure, the statuses of a project, its logs and its published ports, and the builds
    that can be canceled.  Processes and the decoder of their JSON are the environment. *)
From S2P Require Import Prelude Errdefs GoValue Common Effects WampValues LogText ComposePorts World.
From S2P Require Import DockerClient DockerPolls.
Open Scope go_scope.

(** ** The tail of an output *)

Definition composeTailLines : nat := 25.
Definition composeStreamBuffer : nat := 4096.
Definition maxComposeLineBytes : Z := 1024 * 1024.

Record composeOutputTail := { ot_lines : list string; ot_dropped : nat }.
Definition newTail : composeOutputTail := {| ot_lines := []; ot_dropped := 0 |}.

Definition tail_add (line : string) (t : composeOutputTail) : composeOutputTail :=
  {| ot_lines := push composeTailLines (ot_lines t) line; ot_dropped := ot_dropped t |}.
Definition recordDropped (t : composeOutputTail) : composeOutputTail :=
  {| ot_lines := ot_lines t; ot_dropped := S (ot_dropped t) |}.

(** [strings.Join]. *)
Fixpoint join_sep (sep : string) (l : list string) : string :=
  match l with [] => "" | [w] => w | w :: l => w +:+ sep +:+ join_sep sep l end.

(** The lines that are not blank, trimmed, with a note on what was not streamed. *)
Definition tail_String (t : composeOutputTail) : string :=
  let note := if (0 <? ot_dropped t)%nat then ["(" +:+ itoa (N.of_nat (ot_dropped t)) +:+ " output line(s) dropped)"] else [] in
  join_sep "; " (note ++ List.filter (λ l, negb (String.eqb l "")) (map trim_space (ot_lines t)))%list.

(** ** The reader of a command's output

    The reader adds each line to the tail and offers it to the stream, whose channel holds
    [composeStreamBuffer] lines; a full channel costs the line, not the reader's time.  The
    consumer takes lines whenever it likes. *)

Record reader := { rd_tail : composeOutputTail; rd_chan : list string; rd_taken : list string }.
Definition reader_start : reader := {| rd_tail := newTail; rd_chan := []; rd_taken := [] |}.

Inductive reader_event := LineRead (line : string) | LineTaken.

Definition reader_step (streamed : bool) (r : reader) (e : reader_event) : reader :=
  match e with
  | LineRead line =>
      let t := tail_add line (rd_tail r) in
      if negb streamed then {| rd_tail := t; rd_chan := rd_chan r; rd_taken := rd_taken r |}
      else if (length (rd_chan r) <? composeStreamBuffer)%nat
      then {| rd_tail := t; rd_chan := rd_chan r ++ [line]; rd_taken := rd_taken r |}
      else {| rd_tail := recordDropped t; rd_chan := rd_chan r; rd_taken := rd_taken r |}
  | LineTaken =>
      match rd_chan r with
      | [] => r
      | line :: chan => {| rd_tail := rd_tail r; rd_chan := chan; rd_taken := rd_taken r ++ [line] |}
      end
  end%list.

Definition read_output (streamed : bool) (es : list reader_event) : reader := foldl (reader_step streamed) reader_start es.

(** The lines a run of events reads. *)
Definition lines_read (es : list reader_event) : list string :=
  omap (λ e, match e with LineRead l => Some l | LineTaken => None end) es.

(** ** Errors *)

Record ComposeError := { er_Subcommand : string; er_Output : string; er_Err : error }.

Definition compose_error (e : ComposeError) : error :=
  Plain ("docker compose " +:+ er_Subcommand e +:+ " failed: " +:+ error_text (er_Err e)
    +:+ (if String.eqb (er_Output e) "" then "" else ": " +:+ er_Output e)).

(** ** Processes *)

(** A process that ran: what it wrote, how the reading and the taking of lines interleaved
    is not told, the failure it exited with, and whether it would still be writing once its
    output is no longer read. *)
Record process := { pr_Output : string; pr_Exit : option error; pr_WritesOn : bool }.

(** [cmd.Output()]: the output, the error of a non-zero exit, or another failure. *)
Inductive output_answer := Output (s : string) | ExitError (e : error) | OutputFailed (e : error).

Record Publisher := { pb_TargetPort : Z; pb_PublishedPort : Z; pb_Protocol : string }.
Record ComposeStatus := { cs_Service : string; cs_State : string; cs_Publishers : list Publisher }.
Record ListEntry := { li_Name : string; li_Status : string; li_ConfigFiles : string }.

Inductive ComposeCall : Type → Type :=
  | StartProcess (binary : string) (args : list string) : ComposeCall (nat + error)
  | ProcessEnds (proc : nat) : ComposeCall process
  | RunOutput (binary : string) (args : list string) : ComposeCall output_answer
  | RunCombined (binary : string) (args : list string) : ComposeCall (string * option error)
  | InvokeCancel (cancel : nat) : ComposeCall unit
  | StatPath (path : string) : ComposeCall (unit + error).

Record ComposeState := { co_Supported : bool; co_binary : string; composeProcessesMap : gmap string nat }.

Abbreviation ComposeM := (M ComposeCall ComposeState).

(** What the JSON decoder makes of texts, and the directories of the command line. *)
Class ComposeHost := {
  json_values : string → list string * option error;     (* the raw values of a stream *)
  decode_statuses : string → list ComposeStatus + error;  (* an array *)
  decode_status : string → ComposeStatus + error;         (* an object *)
  decode_list : string → list ListEntry + error;
  apps_compose_dir : string;
  apps_build_dir : string;
}.

(** ** Log queries *)

Definition ComposeArgs (q : LogQuery) : list string :=
  (["logs"; "--no-color"]
    ++ (if (0 <? cq_Tail q)%N then ["--tail"; itoa (cq_Tail q)] else ["--tail"; "all"])
    ++ (if cq_Timestamps q then ["--timestamps"] else [])
    ++ (if String.eqb (cq_Since q) "" then [] else ["--since"; cq_Since q])
    ++ (if String.eqb (cq_Until q) "" then [] else ["--until"; cq_Until q]))%list.

Definition DockerOptions (q : LogQuery) : wmap :=
  let options := [("follow", WBool false); ("stdout", WBool true); ("stderr", WBool true)] in
  let options := map_set "tail" (WText (if (0 <? cq_Tail q)%N then itoa (cq_Tail q) else "all")) options in
  let options := if cq_Timestamps q then map_set "timestamps" (WBool true) options else options in
  let options := if String.eqb (cq_Since q) "" then options else map_set "since" (WText (cq_Since q)) options in
  if String.eqb (cq_Until q) "" then options else map_set "until" (WText (cq_Until q)) options.

Section compose.
Context `{ComposeHost} `{GoRuntime}.

(** ** Commands *)

Record ComposeCmd := { cmd_proc : nat; cmd_subcommand : string; cmd_streamed : bool }.

Definition binary_name : ComposeM string := let! b := gets co_binary in ret (if String.eqb b "" then "docker" else b).

Definition startComposeCommand (dockerComposePath : string) (streamed : bool) (providedArgs : list string) : ComposeM ComposeCmd :=
  let! binary := binary_name in
  let! proc := callE (StartProcess binary (["compose"; "-f"; dockerComposePath] ++ providedArgs)%list) in
  ret {| cmd_proc := proc; cmd_subcommand := match providedArgs with a :: _ => a | [] => "compose" end; cmd_streamed := streamed |}.

(** The lines the reader of a process gets: all of them, unless one is too long. *)
Definition process_lines (p : process) : list string * bool := bufio_lines maxComposeLineBytes (pr_Output p).

(** [Wait], under one way the consumer of the stream took lines meanwhile: a reader that
    stopped early leaves the process waiting for its pipe. *)
Definition Wait (takes : list string → list reader_event) (cmd : ComposeCmd) : ComposeM unit :=
  let! p := call (ProcessEnds (cmd_proc cmd)) in
  let '(lines, stopped) := process_lines p in
  if stopped && pr_WritesOn p then hang
  else
    match pr_Exit p with
    | None => ret tt
    | Some e =>
        throw (compose_error {| er_Subcommand := cmd_subcommand cmd;
                                er_Output := tail_String (rd_tail (read_output (cmd_streamed cmd) (takes lines)));
                                er_Err := e |})
    end.

(** A command nobody streams. *)
Definition no_takes (lines : list string) : list reader_event := map LineRead lines.

Definition run (dockerComposePath : string) (providedArgs : list string) : ComposeM unit :=
  let! cmd := startComposeCommand dockerComposePath false providedArgs in
  Wait no_takes cmd.

Definition composeCommand (dockerComposePath : string) (providedArgs : list string) : ComposeM ComposeCmd :=
  startComposeCommand dockerComposePath true providedArgs.

Definition Build (path : string) : ComposeM ComposeCmd := composeCommand path ["build"].
Definition Push (path : string) : ComposeM ComposeCmd := composeCommand path ["push"].
Definition Pull (path : string) : ComposeM ComposeCmd := composeCommand path ["pull"].
Definition PullContext (path : string) (services : list string) : ComposeM ComposeCmd := composeCommand path ("pull" :: services)%list.
Definition PullIgnoreBuildable (path : string) : ComposeM ComposeCmd := composeCommand path ["pull"; "--ignore-buildable"].
Definition Up (path : string) : ComposeM ComposeCmd := composeCommand path ["up"; "--remove-orphans"; "-d"].
Definition UpNoBuild (path : string) : ComposeM ComposeCmd := composeCommand path ["up"; "--remove-orphans"; "-d"; "--no-build"].
Definition Stop (path : string) : ComposeM unit := run path ["stop"].
Definition Remove (path : string) : ComposeM unit := run path ["rm"; "-f"].
Definition Down (path : string) : ComposeM unit := run path ["down"; "-v"].
Definition DownRemoveOrphans (path : string) : ComposeM unit := run path ["down"; "--remove-orphans"].

(** ** Builds that can be canceled *)

Definition put_processes (f : gmap string nat → gmap string nat) : ComposeM unit :=
  modify (λ s, {| co_Supported := co_Supported s; co_binary := co_binary s; composeProcessesMap := f (composeProcessesMap s) |}).

Definition RegisterBuildCancel (buildID : string) (cancel : nat) : ComposeM unit := put_processes <[buildID := cancel]>.
Definition UnregisterBuildCancel (buildID : string) : ComposeM unit := put_processes (delete buildID).
Definition CancelBuild (buildID : string) : ComposeM unit :=
  let! cancel := gets (λ s, composeProcessesMap s !! buildID) in
  match cancel with
  | None => throw (Plain "no active compose build process found")
  | Some c => call (InvokeCancel c);; ret tt
  end.

(** ** Statuses *)

(** One raw value of the output: an array of statuses or a single one. *)
Definition parse_value (value : string) : list ComposeStatus + error :=
  if String.eqb value "" then inl []
  else if has_prefix "[" value then decode_statuses value
  else match decode_status value with inl s => inl [s] | inr e => inr e end.

Fixpoint parse_values (values : list string) (failure : option error) : list ComposeStatus + error :=
  match values with
  | [] => match failure with Some e => inr e | None => inl [] end
  | v :: values =>
      match parse_value (trim_space v) with
      | inr e => inr e
      | inl l => match parse_values values failure with inl rest => inl (l ++ rest)%list | inr e => inr e end
      end
  end.

Definition parseComposePSOutput (output : string) : list ComposeStatus + error :=
  let '(values, failure) := json_values output in parse_values values failure.

Definition Status (dockerComposePath : string) : ComposeM (list ComposeStatus) :=
  let! supported := gets co_Supported in
  if negb supported then ret []
  else
    let! r := call (RunOutput "docker" ["compose"; "-f"; dockerComposePath; "ps"; "-a"; "--format"; "json"]) in
    match r with
    | Output s => lift (parseComposePSOutput s)
    | ExitError _ => ret []
    | OutputFailed e => throw e
    end.

Definition all_running (statuses : list ComposeStatus) : bool := forallb (λ s, String.eqb (cs_State s) "running") statuses.

Definition IsRunning (dockerComposePath : string) : ComposeM bool :=
  let! statuses := Status dockerComposePath in ret (all_running statuses).

(** One turn of [WaitForRunning]: whether the context is done, the answer of [Status] and,
    where it gets that far, of the second one [IsRunning] makes. *)
Record wait_turn := { wt_done : bool; wt_status : list ComposeStatus + error; wt_again : list ComposeStatus + error }.

Definition has_ended (statuses : list ComposeStatus) : bool :=
  existsb (λ s, String.eqb (cs_State s) "exited" || String.eqb (cs_State s) "dead") statuses.

Definition compose_wait_reaction (t : wait_turn) : reaction unit :=
  let fail e := {| re_ops := [SendErr e; CloseErr; CloseData]; re_after := ThenReturn |} in
  if wt_done t then fail (Plain "waiting for running canceled")
  else
    match wt_status t with
    | inr e => fail e
    | inl [] => {| re_ops := []; re_after := ThenAgain |}
    | inl statuses =>
        match wt_again t with
        | inr e => fail e
        | inl again =>
            if all_running again then {| re_ops := [SendData tt; CloseErr; CloseData]; re_after := ThenReturn |}
            else if has_ended statuses then fail exited_error
            else {| re_ops := []; re_after := ThenSleep |}
        end
    end.

Definition WaitForProjectRunning : (nat → wait_turn) → nat → poll unit := poll_after compose_wait_reaction.

(** The host ports of a project by service and container port; [int]s become [uint64]s. *)
Definition published_by (statuses : list ComposeStatus) : list (string * N) :=
  foldl (λ published s, foldl (λ published p,
    if (pb_PublishedPort p =? 0)%Z then published
    else map_set (PublishedPortKey (cs_Service s) (u64_of_int (pb_TargetPort p)) (pb_Protocol p)) (u64_of_int (pb_PublishedPort p)) published)
    published (cs_Publishers s)) [] statuses.

Definition GetPublishedPorts (dockerComposePath : string) : ComposeM (list (string * N)) :=
  let! statuses := Status dockerComposePath in ret (published_by statuses).

(** ** Images, projects and support *)

Fixpoint service_images (services : gomap) : list string + error :=
  match services with
  | [] => inl []
  | (_, v) :: services =>
      match as_map v with
      | None => inr (Plain "failed to infer service")
      | Some service =>
          match service_images services with
          | inr e => inr e
          | inl rest =>
              inl (match map_index "image" service with VNil => rest | image => sprint image :: rest end)%list
          end
      end
  end.

Definition ListProjectImages (dockerCompose : gomap) : list string + error :=
  match compose_services dockerCompose with
  | None => inr (Plain "failed to infer services")
  | Some services => service_images services
  end.

Definition List_ : ComposeM (list ListEntry) :=
  let! supported := gets co_Supported in
  if negb supported then ret []
  else
    let! r := call (RunOutput "docker" ["compose"; "ls"; "-a"; "--format"; "json"]) in
    match r with
    | Output s => lift (decode_list s)
    | ExitError e | OutputFailed e => throw e
    end.

Definition IsComposeSupported : ComposeM bool :=
  let! r := call (RunCombined "docker" ["compose"]) in
  ret (match r.2 with None => true | Some _ => false end).

Definition RefreshSupport : ComposeM unit :=
  let! b := IsComposeSupported in
  modify (λ s, {| co_Supported := b; co_binary := co_binary s; composeProcessesMap := composeProcessesMap s |}).

Definition HasComposeDir (appName : string) (stage : Stage) : ComposeM bool :=
  let dir := match stage with DEV => apps_build_dir | _ => apps_compose_dir end in
  let! r := call (StatPath (dir +:+ "/" +:+ appName)) in
  ret (match r with inl _ => true | inr _ => false end).

(** ** Logs *)

Definition compose_logs (dockerComposePath : string) (q : LogQuery) : ComposeM string :=
  let! binary := binary_name in
  let! r := call (RunCombined binary (["compose"; "-f"; dockerComposePath] ++ ComposeArgs q)%list) in
  match r.2 with None => ret r.1 | Some e => throw e end.

(** The last project of that name. *)
Definition LogsByContainerName (containerName : string) (q : LogQuery) : ComposeM string :=
  let! entries := List_ in
  match last (List.filter (λ e, String.eqb (li_Name e) containerName) entries) with
  | None => throw (Plain "compose entry not found")
  | Some e => compose_logs (li_ConfigFiles e) q
  end.

(** The followed logs of a project: the default limit on a line applies. *)
Definition LogStream (dockerComposePath : string) : ComposeM nat :=
  callE (StartProcess "docker" ["compose"; "-f"; dockerComposePath; "logs"; "-f"]).
Definition stream_lines (output : string) : list string * bool := bufio_lines MaxScanTokenSize output.

End compose.
