(* ===== verification/ComposeSpec.v ===== *)
(** * What compose commands report *)
From S2P Require Import Prelude Errdefs GoValue Common Effects WampValues LogText ComposePorts World Launch LogSpec.
From S2P Require Import DockerClient DockerPolls ComposeClient.
Open Scope go_scope.

(** ** The reader of an output *)

Lemma reader_tail streamed es : ∀ r, ot_lines (rd_tail (foldl (reader_step streamed) r es)) = foldl (push composeTailLines) (ot_lines (rd_tail r)) (lines_read es).
Proof.
  induction es as [|[line|] es IH]; intros r; [done|..]; cbn [foldl]; rewrite IH; unfold lines_read; cbn [omap list_omap foldl].
  - f_equal. unfold reader_step. destruct streamed; [|done]. by destruct (length (rd_chan r) <? composeStreamBuffer)%nat.
  - f_equal. cbn [reader_step]. by destruct (rd_chan r).
Qed.

(** The tail is the last lines of the output, however the reading and the taking went. *)
Lemma tail_is_last streamed es : ot_lines (rd_tail (read_output streamed es)) = lastn composeTailLines (lines_read es).
Proof.
  unfold read_output. rewrite reader_tail. apply (foldl_push composeTailLines []). unfold composeTailLines. lia.
Qed.

(** What the stream carries: a channel within its capacity, lines in the order they were
    written, and a count of the ones that are missing. *)
Definition accounts_for (r : reader) (lines : list string) : Prop :=
  (length (rd_chan r) ≤ composeStreamBuffer)%nat
  ∧ (rd_taken r ++ rd_chan r)%list `sublist_of` lines
  ∧ (length (rd_taken r ++ rd_chan r) + ot_dropped (rd_tail r) = length lines)%nat.

Lemma reader_accounts es : ∀ r lines, accounts_for r lines →
  accounts_for (foldl (reader_step true) r es) (lines ++ lines_read es).
Proof.
  induction es as [|[line|] es IH]; intros r lines (Hc & Hs & Hd).
  - unfold lines_read. cbn. rewrite app_nil_r. by split_and!.
  - cbn [foldl]. unfold lines_read. cbn [omap list_omap]. fold (lines_read es).
    replace (lines ++ line :: lines_read es)%list with ((lines ++ [line]) ++ lines_read es)%list by by rewrite <- app_assoc.
    apply IH. cbn [reader_step negb]. destruct (Nat.ltb_spec (length (rd_chan r)) composeStreamBuffer); split_and!; cbn [rd_chan rd_taken rd_tail tail_add recordDropped ot_dropped].
    + rewrite length_app. cbn. lia.
    + rewrite app_assoc. by apply sublist_app.
    + rewrite !length_app in *. cbn [length]. lia.
    + done.
    + by apply sublist_inserts_r.
    + rewrite !length_app in *. cbn [length]. lia.
  - cbn [foldl]. unfold lines_read. cbn [omap list_omap]. apply IH. cbn [reader_step]. destruct (rd_chan r) as [|line chan] eqn:E; [by split_and!; rewrite ?E|].
    split_and!; cbn [rd_chan rd_taken rd_tail]; [cbn in Hc; lia|by rewrite <- app_assoc|by rewrite <- app_assoc].
Qed.

(** C31: a consumer that stalls costs lines of the stream, never the command: whatever way
    the consumer takes lines, every line is read, what it gets is the output in order
    without the lines that were dropped, their number is counted, and the tail kept for an
    error is the last 25 lines all the same. *)
Theorem compose_stream_accounts es :
  let r := read_output true es in
  accounts_for r (lines_read es) ∧ ot_lines (rd_tail r) = lastn composeTailLines (lines_read es).
Proof.
  split; [|apply tail_is_last]. apply (reader_accounts es reader_start []). split_and!; [cbn; lia|apply sublist_nil_l|done].
Qed.

(** ** Texts inside texts *)

Lemma str_contains_iff p s : str_contains p s = true ↔ ∃ u v, s = u +:+ p +:+ v.
Proof.
  assert (∀ s, has_prefix p s = true ↔ ∃ v, s = p +:+ v) as Hpre.
  { clear s. unfold has_prefix. induction p as [|a p IH]; intros [|b s]; cbn.
    - split; [by exists ""|done].
    - split; [by exists (String b s)|done].
    - split; [done|]. by intros (v & Hv).
    - destruct (ascii_dec a b) as [->|Hab].
      + rewrite IH. split; intros (v & Hv); exists v; [by rewrite Hv|by injection Hv].
      + split; [done|]. intros (v & Hv). by injection Hv. }
  induction s as [|a s IH]; cbn [str_contains].
  - rewrite orb_false_r, Hpre. split; [intros (v & Hv); by exists "", v|]. intros ([|] & v & Hv); [by exists v|done].
  - rewrite orb_true_iff, Hpre, IH. split.
    + intros [(v & Hv)|(u & v & Hv)]; [by exists "", v|]. exists (String a u), v. cbn. by rewrite Hv.
    + intros ([|b u] & v & Hv); [left; by exists v|]. right. exists u, v. by injection Hv.
Qed.

Lemma str_contains_in p s u v : str_contains p s = true → str_contains p (u +:+ s +:+ v) = true.
Proof.
  rewrite !str_contains_iff. intros (u' & v' & ->). exists (u +:+ u'), (v' +:+ v). by rewrite !str_app_assoc.
Qed.

Lemma str_contains_r p s u : str_contains p s = true → str_contains p (u +:+ s) = true.
Proof. intros Hp. rewrite <- (str_app_nil_r s). by apply str_contains_in. Qed.

Lemma contains_join p sep l w : w ∈ l → str_contains p w = true → str_contains p (join_sep sep l) = true.
Proof.
  intros Hw Hp. induction Hw as [w l|w x l Hw IH].
  - destruct l as [|y l]; [done|]. exact (str_contains_in p w "" _ Hp).
  - destruct l as [|y l]; [by apply elem_of_nil in Hw|]. cbn [join_sep]. rewrite <- str_app_assoc. apply str_contains_r. by apply IH.
Qed.

(** Cutting characters off the left keeps a text that does not begin with one. *)
Lemma trim_left_contains f a p s : f a = false → str_contains (String a p) s = true → str_contains (String a p) (trim_left f s) = true.
Proof.
  intros Hf. rewrite str_contains_iff. intros (u & v & ->). induction u as [|b u IH]; cbn [String.append trim_left].
  - rewrite Hf. apply str_contains_iff. by exists "", v.
  - destruct (f b); [done|]. apply str_contains_iff. by exists (String b u), v.
Qed.

Lemma str_rev_app s t : str_rev (s +:+ t) = str_rev t +:+ str_rev s.
Proof.
  unfold str_rev. assert (∀ x y, String.list_ascii_of_string (x +:+ y) = (String.list_ascii_of_string x ++ String.list_ascii_of_string y)%list) as Hl.
  { induction x as [|a x IH]; intros y; [done|]. cbn. by rewrite IH. }
  assert (∀ x y, String.string_of_list_ascii (x ++ y) = String.string_of_list_ascii x +:+ String.string_of_list_ascii y) as Hs.
  { induction x as [|a x IH]; intros y; [done|]. cbn. by rewrite IH. }
  by rewrite Hl, rev_app_distr, Hs.
Qed.

Lemma str_rev_involutive s : str_rev (str_rev s) = s.
Proof. unfold str_rev. by rewrite String.list_ascii_of_string_of_list_ascii, rev_involutive, String.string_of_list_ascii_of_string. Qed.

Lemma str_rev_contains p s : str_contains p s = true → str_contains (str_rev p) (str_rev s) = true.
Proof. rewrite !str_contains_iff. intros (u & v & ->). exists (str_rev v), (str_rev u). by rewrite !str_rev_app, str_app_assoc. Qed.

(** A text that neither begins nor ends with white space survives the trimming. *)
Lemma trim_space_contains p a p' b p'' s : p = String a p' → str_rev p = String b p'' → is_space a = false → is_space b = false →
  str_contains p s = true → str_contains p (trim_space s) = true.
Proof.
  intros Hp Hr Ha Hb Hs. unfold trim_space. rewrite <- (str_rev_involutive p). apply str_rev_contains. rewrite Hr.
  apply trim_left_contains; [done|]. rewrite <- Hr. apply str_rev_contains. rewrite Hp in *. by apply trim_left_contains.
Qed.

Lemma str_contains_nonempty a p s : str_contains (String a p) s = true → s ≠ "".
Proof. by intros Hs ->. Qed.

(** A text of one of the last lines is quoted in the tail's. *)
Lemma tail_quotes p a p' b p'' t line : p = String a p' → str_rev p = String b p'' → is_space a = false → is_space b = false →
  line ∈ ot_lines t → str_contains p line = true → str_contains p (tail_String t) = true.
Proof.
  intros Hp Hr Ha Hb Hl Hc. pose proof (trim_space_contains p a p' b p'' line Hp Hr Ha Hb Hc) as Ht.
  unfold tail_String. apply (contains_join p _ _ (trim_space line)); [|done]. apply elem_of_app. right.
  apply list_elem_of_In, filter_In. split; [by apply in_map, list_elem_of_In|].
  apply negb_true_iff, String.eqb_neq. subst p. by eapply str_contains_nonempty.
Qed.

(** ** Failures are explained *)

Section failures.
Context `{ComposeHost} `{GoRuntime}.
Variable en : env ComposeCall ComposeState.

(** The two texts the app manager looks for in a failed start. *)
Definition conflict_text (line : string) : Prop :=
  str_contains "port is already allocated" line = true ∨ str_contains "address already in use" line = true.

(** The error of a command that failed quotes the last lines of its output. *)
Lemma compose_error_quotes takes lines sub e line cmd : lines_read (takes lines) = lines →
  line ∈ lastn composeTailLines lines → conflict_text line →
  isPortAllocationError (compose_error {| er_Subcommand := sub;
    er_Output := tail_String (rd_tail (read_output cmd (takes lines))); er_Err := e |}) = true.
Proof.
  intros Hr Hl Hc. set (out := tail_String _).
  assert (str_contains "port is already allocated" out = true ∨ str_contains "address already in use" out = true) as Ho.
  { destruct Hc as [Hc|Hc]; [left|right]; (eapply (tail_quotes _ _ _ _ _ _ line); [reflexivity..| |exact Hc]); by rewrite tail_is_last, Hr. }
  assert (out ≠ "") as Hne by (destruct Ho as [Ho|Ho]; by eapply str_contains_nonempty).
  unfold isPortAllocationError, compose_error. cbn [error_text er_Subcommand er_Output er_Err].
  rewrite (proj2 (String.eqb_neq _ _) Hne). apply orb_true_iff. destruct Ho as [Ho|Ho]; [left|right];
    do 4 apply str_contains_r; by apply (str_contains_r _ out ": ").
Qed.

(** a port conflict that [docker compose] reports in the last 25 lines of its output is
    recognised as one when the command has failed, however its lines were streamed, so the
    app manager moves the port and tries again. *)
Theorem compose_conflict_recognised takes cmd p e line st :
  answer en _ (ProcessEnds (cmd_proc cmd)) (log st) = p → pr_Exit p = Some e → (process_lines p).2 = false →
  (∀ lines, lines_read (takes lines) = lines) →
  line ∈ lastn composeTailLines (process_lines p).1 → conflict_text line →
  ∃ err, (Wait takes cmd en st).1 = Err err ∧ isPortAllocationError err = true.
Proof.
  intros Ha He Hs Ht Hl Hc. unfold Wait, bind, call. rewrite Ha. destruct (process_lines p) as [lines stopped]. cbn [fst snd] in *. subst stopped.
  cbn [andb]. rewrite He. eexists. split; [reflexivity|]. by eapply compose_error_quotes.
Qed.

(** A line of a megabyte or more ends the reading; a command that writes on then never
    exits, and neither does its wait. *)
Lemma overlong_line_hangs takes cmd p st : answer en _ (ProcessEnds (cmd_proc cmd)) (log st) = p →
  (process_lines p).2 = true → pr_WritesOn p = true → (Wait takes cmd en st).1 = Hang.
Proof.
  intros Ha Hs Hw. unfold Wait, bind, call. rewrite Ha. destruct (process_lines p) as [lines stopped]. cbn [snd] in *. by rewrite Hs, Hw.
Qed.
End failures.

(** A [compose up] whose conflict is followed by other lines, while nobody reads the stream. *)
Definition ex_host_decoder : ComposeHost :=
  {| json_values := λ _, ([], None); decode_statuses := λ _, inl []; decode_status := λ _, inr (Plain "eof");
     decode_list := λ _, inl []; apps_compose_dir := "/apps/compose"; apps_build_dir := "/apps/build" |}.
Definition ex_up_output : string :=
  "Container web Starting" +:+ String newline
  ("  Error response from daemon: Bind for 0.0.0.0:8080 failed: port is already allocated  " +:+ String newline "exit").
Definition ex_up : process := {| pr_Output := ex_up_output; pr_Exit := Some (Plain "exit status 1"); pr_WritesOn := false |}.
Definition ex_up_daemon (T : Type) (c : ComposeCall T) (_ : list (@event ComposeCall ComposeState)) : T :=
  match c in ComposeCall T return T with
  | StartProcess _ _ => inl 1%nat
  | ProcessEnds _ => ex_up
  | RunOutput _ _ => Output ""
  | RunCombined _ _ => ("", None)
  | InvokeCancel _ => tt
  | StatPath _ => inl tt
  end.
Definition ex_up_env : env ComposeCall ComposeState := {| answer := ex_up_daemon; interfere := λ _ s, s |}.
Definition ex_compose : state ComposeCall ComposeState :=
  mk_state {| co_Supported := true; co_binary := ""; composeProcessesMap := ∅ |} [].

Lemma compose_conflict_recognised_witness :
  ∃ err, (Wait (λ lines, map LineRead lines) {| cmd_proc := 1; cmd_subcommand := "up"; cmd_streamed := true |} ex_up_env ex_compose).1 = Err err
    ∧ isPortAllocationError err = true.
Proof.
  assert (∀ lines, lines_read (map LineRead lines) = lines) as Ht
    by (induction lines as [|l lines IH]; [reflexivity|unfold lines_read in *; cbn; by rewrite IH]).
  assert ((process_lines ex_up).2 = false) as Hs by (vm_compute; reflexivity).
  assert ("  Error response from daemon: Bind for 0.0.0.0:8080 failed: port is already allocated  " ∈ lastn composeTailLines (process_lines ex_up).1) as Hl
    by (vm_compute; right; left).
  assert (conflict_text "  Error response from daemon: Bind for 0.0.0.0:8080 failed: port is already allocated  ") as Hc
    by (left; vm_compute; reflexivity).
  exact (compose_conflict_recognised ex_up_env (λ lines, map LineRead lines) {| cmd_proc := 1; cmd_subcommand := "up"; cmd_streamed := true |}
           ex_up (Plain "exit status 1") _ ex_compose eq_refl eq_refl Hs Ht Hl Hc).
Defined.

(** ** Both ways to read a window of logs *)

(** What [docker compose logs] makes of its flags: tail, since, until, timestamps. *)
Record log_window := { w_tail : string; w_since : string; w_until : string; w_timestamps : bool }.

Fixpoint read_flags (args : list string) (w : log_window) : log_window :=
  match args with
  | [] => w
  | flag :: rest =>
      if String.eqb flag "--timestamps"
      then read_flags rest {| w_tail := w_tail w; w_since := w_since w; w_until := w_until w; w_timestamps := true |}
      else
        match rest with
        | [] => w
        | v :: rest' =>
            if String.eqb flag "--tail"
            then read_flags rest' {| w_tail := v; w_since := w_since w; w_until := w_until w; w_timestamps := w_timestamps w |}
            else if String.eqb flag "--since"
            then read_flags rest' {| w_tail := w_tail w; w_since := v; w_until := w_until w; w_timestamps := w_timestamps w |}
            else if String.eqb flag "--until"
            then read_flags rest' {| w_tail := w_tail w; w_since := w_since w; w_until := v; w_timestamps := w_timestamps w |}
            else read_flags rest w
        end
  end.

Definition window_of_flags (args : list string) : log_window :=
  read_flags args {| w_tail := ""; w_since := ""; w_until := ""; w_timestamps := false |}.
Definition window_of_options (o : LogsOptions) : log_window :=
  {| w_tail := lg_Tail o; w_since := lg_Since o; w_until := lg_Until o; w_timestamps := lg_Timestamps o |}.

(** a window of logs is the same window for a container and for a compose project: the
    flags of the command line and the options of the docker client, as it reads them back
    from the dictionary, carry one tail, one start, one end and one choice of timestamps;
    the container's logs come from both streams and are not followed. *)
Theorem log_query_renderings_agree `{GoRuntime} q :
  let o := logsOptionsFromDict (DockerOptions q) in
  window_of_flags (ComposeArgs q) = window_of_options o
  ∧ w_tail (window_of_options o) = (if (0 <? cq_Tail q)%N then itoa (cq_Tail q) else "all")
  ∧ w_since (window_of_options o) = cq_Since q ∧ w_until (window_of_options o) = cq_Until q
  ∧ w_timestamps (window_of_options o) = cq_Timestamps q
  ∧ lg_ShowStdout o = true ∧ lg_ShowStderr o = true ∧ lg_Follow o = false.
Proof.
  destruct q as [tail since until ts]. unfold ComposeArgs, DockerOptions, window_of_flags, window_of_options, logsOptionsFromDict.
  cbn [cq_Tail cq_Since cq_Until cq_Timestamps].
  destruct (String.eqb_spec since "") as [->|_], (String.eqb_spec until "") as [->|_], ts, (0 <? tail)%N; split_and!; reflexivity.
Qed.

(** ** Waiting for a project *)

Lemma compose_reports_once : reports_once compose_wait_reaction.
Proof.
  intros [stop [[|s l]|e] again]; unfold decided, compose_wait_reaction; cbn [wt_done wt_status wt_again]; destruct stop; try done.
  destruct again as [again|e]; [|done]. destruct (all_running again); [done|]. by destruct (has_ended (s :: l)).
Qed.

Definition project_verdict : wait_turn → option (option error) := decided compose_wait_reaction.

(** what a transition that waits for a compose project is told, and why: it is taken to
    run only if some turn's second look saw nothing but running services, or if the wait
    failed and its channels were closed. *)
Theorem project_wait_grounds turns n w : w ∈ select_ready (WaitForProjectRunning turns n) →
  ∃ k, (∀ j, (j < k)%nat → project_verdict (turns j) = None)
    ∧ match project_verdict (turns k) with
      | None => False
      | Some None => (w = WaitRunning ∨ w = WaitErrClosed) ∧ ∃ again, wt_again (turns k) = inl again ∧ all_running again = true
      | Some (Some e) => w = WaitErr e ∨ w = WaitRunning
      end.
Proof.
  intros Hw. destruct (select_grounds _ _ compose_reports_once n w Hw) as (k & Hk & Hd). exists k. split; [exact Hk|].
  unfold project_verdict. destruct (decided compose_wait_reaction (turns k)) as [[e|]|] eqn:E; [done| |done]. split; [done|].
  revert E. unfold decided, compose_wait_reaction. destruct (wt_done (turns k)); [done|].
  destruct (wt_status (turns k)) as [[|s l]|e]; [done| |done]. destruct (wt_again (turns k)) as [again|e]; [|done].
  destruct (all_running again) eqn:Er; [by exists again|]. by destruct (has_ended (s :: l)).
Qed.

(** A project that is taken down between the two looks of a turn counts as running: no
    service is anything but running. *)
Example vanished_project_counts_as_running :
  project_verdict {| wt_done := false; wt_status := inl [{| cs_Service := "web"; cs_State := "exited"; cs_Publishers := [] |}]; wt_again := inl [] |} = Some None.
Proof. reflexivity. Qed.

(** A project with no containers yet is asked for again at once, without a pause. *)
Example empty_project_spins :
  compose_wait_reaction {| wt_done := false; wt_status := inl []; wt_again := inl [] |} = {| re_ops := []; re_after := ThenAgain |}.
Proof. reflexivity. Qed.

Definition ex_turn (states : list string) : wait_turn :=
  let l := map (λ s, {| cs_Service := "web"; cs_State := s; cs_Publishers := [] |}) states in
  {| wt_done := false; wt_status := inl l; wt_again := inl l |}.
Definition ex_turns (k : nat) : wait_turn := ex_turn (if (k =? 0)%nat then ["running"; "created"] else ["running"; "running"]).

Lemma project_wait_grounds_witness :
  ∃ k, (∀ j, (j < k)%nat → project_verdict (ex_turns j) = None)
    ∧ match project_verdict (ex_turns k) with
      | None => False
      | Some None => (WaitRunning = WaitRunning ∨ WaitRunning = WaitErrClosed) ∧ ∃ again, wt_again (ex_turns k) = inl again ∧ all_running again = true
      | Some (Some e) => WaitRunning = WaitErr e ∨ WaitRunning = WaitRunning
      end.
Proof.
  assert (WaitRunning ∈ select_ready (WaitForProjectRunning ex_turns 8)) as Hin by (vm_compute; right; left).
  exact (project_wait_grounds ex_turns 8 WaitRunning Hin).
Defined.
