(* ===== verification/NetworkManager.v ===== *)
(** * The NetworkManager bindings (src/src/networkmanager)

    D-Bus objects are their paths; a property arrives as a variant whose dynamic type the
    getters check.  First the part the network settings call: access points with their
    security and channel, devices, connections, addresses and name servers; then activation,
    checkpoints, routes and the watching of a connection. *)
From S2P Require Import Prelude Errdefs GoValue Common Effects.
Open Scope go_scope.

(** ** Variants and settings *)

Inductive dval :=
  | DNil
  | DPath (p : string) | DPaths (l : list string)
  | DBool (b : bool)
  | DStr (s : string) | DStrs (l : list string)
  | DBytes (s : string)
  | DU8 (n : N) | DU32 (n : N) | DU64 (n : N) | DI32 (z : Z) | DI64 (z : Z) | DInt (z : Z)
  | DU32s (l : list N) | DU32ss (l : list (list N))
  | DBytess (l : list string)
  | DDicts (l : list (list (string * dval))).

Abbreviation section := (list (string * dval)).
(** [ConnectionSettings]: a map of sections. *)
Abbreviation settings := (list (string * section)).

Definition dget (k : string) (s : section) : dval := default DNil (map_get k s).
(** [settings[name]], a nil map when absent: reading it and deleting from it do nothing. *)
Definition section_of (name : string) (s : settings) : section := default [] (map_get name s).

Fixpoint map_delete {A} (k : string) (m : list (string * A)) : list (string * A) :=
  match m with
  | [] => []
  | (k', v) :: m => if String.eqb k k' then map_delete k m else (k', v) :: map_delete k m
  end.

(** ** Calls *)

Inductive DbusCall : Type → Type :=
  | BusObject (path : string) : DbusCall (unit + error)
  | GetProp (path property : string) : DbusCall (dval + error)
  | CallPaths (path method : string) : DbusCall (list string + error)
  | CallUnit (path method : string) : DbusCall (unit + error)
  | CallGetSettings (conn : string) : DbusCall (list (string * list (string * dval)) + error)
  | CallUpdate (conn : string) (s : list (string * list (string * dval))) : DbusCall (unit + error)
  | CallAddConnection (s : list (string * list (string * dval))) : DbusCall (string + error)
  | CallActivate (conn dev specific : string) : DbusCall (string + error)
  | GoActivate (conn dev : string) : DbusCall unit       (* activated by a goroutine *)
  | CallMethod (path method : string) (args : list dval) : DbusCall (dval + error)
  | CallAddAndActivate (s : list (string * list (string * dval))) (dev specific : string) : DbusCall (string * string + error)
  | CallRollback (checkpoint : string) : DbusCall (list (string * N) + error)
  | GetDictProp (path property : string) : DbusCall (option (list (string * dval)) + error)   (* [None]: a variant of another type *)
  | CallGetSecrets (conn setting : string) : DbusCall (list (string * list (string * dval)) + error)
  | ScanDeadlinePassed : DbusCall bool
  | SleepMs (ms : Z) : DbusCall unit.

(** The agent keeps no state of its own here. *)
Abbreviation Bus := (M DbusCall unit).
Abbreviation bus_env := (env DbusCall unit).
Abbreviation bus_state := (state DbusCall unit).

(** ** Properties (utils.go) *)

Definition makeErrVariantType (iface : string) : error := Plain ("unexpected variant type for '" +:+ iface +:+ "'").

Definition get_property {A} (as_type : dval → option A) (path iface : string) : Bus A :=
  let! v := callE (GetProp path iface) in
  match as_type v with
  | Some a => ret a
  | None => throw (makeErrVariantType iface)
  end.

Definition getStringProperty : string → string → Bus string := get_property (λ v, match v with DStr s => Some s | _ => None end).
Definition getUint32Property : string → string → Bus N := get_property (λ v, match v with DU32 n => Some n | _ => None end).
Definition getUint8Property : string → string → Bus N := get_property (λ v, match v with DU8 n => Some n | _ => None end).
Definition getInt64Property : string → string → Bus Z := get_property (λ v, match v with DI64 z => Some z | _ => None end).
Definition getSliceByteProperty : string → string → Bus string := get_property (λ v, match v with DBytes s => Some s | _ => None end).
Definition getObjectProperty : string → string → Bus string := get_property (λ v, match v with DPath p => Some p | _ => None end).
Definition getSliceObjectProperty : string → string → Bus (list string) := get_property (λ v, match v with DPaths l => Some l | _ => None end).
Definition getSliceUint32Property : string → string → Bus (list N) := get_property (λ v, match v with DU32s l => Some l | _ => None end).
Definition getSliceMapStringVariantProperty : string → string → Bus (list section) :=
  get_property (λ v, match v with DDicts l => Some l | _ => None end).

(** An object of its own for a path; the bus may be unreachable. *)
Definition new_object (path : string) : Bus string := callE (BusObject path);; ret path.
Definition new_objects (paths : list string) : Bus (list string) := map_m paths new_object.

(** The object a property points to, nil for [/]. *)
Definition optional_object (path iface : string) : Bus (option string) :=
  let! p := getObjectProperty path iface in
  if String.eqb p "/" then ret None else let! o := new_object p in ret (Some o).

(** ** Addresses *)

Definition byte_of (n k : N) : N := (N.shiftr n (8 * k) mod 256)%N.

(** A little-endian word as a dotted quad. *)
Definition ip4ToString (ip : N) : string :=
  itoa (byte_of ip 0) +:+ "." +:+ itoa (byte_of ip 1) +:+ "." +:+ itoa (byte_of ip 2) +:+ "." +:+ itoa (byte_of ip 3).

Record AddressData := { ad_Address : string; ad_Prefix : N }.

(** [uint8(prefix)] truncates. *)
Definition address_data (a : section) : AddressData + error :=
  match dget "prefix" a with
  | DU32 prefix =>
      match dget "address" a with
      | DStr address => inl {| ad_Address := address; ad_Prefix := (prefix mod 256)%N |}
      | _ => inr (Plain "unexpected variant type for address")
      end
  | _ => inr (Plain "unexpected variant type for address prefix")
  end.

Fixpoint all_inl {A} (l : list (A + error)) : list A + error :=
  match l with
  | [] => inl []
  | inr e :: _ => inr e
  | inl a :: l => match all_inl l with inl r => inl (a :: r) | inr e => inr e end
  end.

Definition IP4_GetPropertyAddressData (cfg : string) : Bus (list AddressData) :=
  let! l := getSliceMapStringVariantProperty cfg "IP4Config.AddressData" in lift (all_inl (map address_data l)).
Definition IP6_GetPropertyAddressData (cfg : string) : Bus (list AddressData) :=
  let! l := getSliceMapStringVariantProperty cfg "IP6Config.AddressData" in lift (all_inl (map address_data l)).
Definition GetPropertyGateway (cfg : string) : Bus string := getStringProperty cfg "IP4Config.Gateway".
Definition GetPropertyNameservers (cfg : string) : Bus (list string) :=
  let! l := getSliceUint32Property cfg "IP4Config.Nameservers" in ret (map ip4ToString l).

(** The name servers as data: appended to a list that already has the length of the result,
    filled with empty entries. *)
Definition nameserver_data (l : list section) : list string + error :=
  match all_inl (map (λ s, match dget "address" s with DStr a => inl a | _ => inr (Plain "unexpected variant type for address") end) l) with
  | inl addresses => inl (replicate (length l) "" ++ addresses)%list
  | inr e => inr e
  end.
Definition GetPropertyNameserverData (cfg : string) : Bus (list string) :=
  let! l := getSliceMapStringVariantProperty cfg "IP4Config.NameserverData" in lift (nameserver_data l).

(** ** Access points *)

Definition two32 : N := 4294967296%N.
(** [uint32] subtraction. *)
Definition sub32 (a b : N) : N := ((a + two32 - b) mod two32)%N.

Definition freqToChannel (freq : N) : N :=
  (if freq =? 2484 then 14
   else if freq <? 2484 then sub32 freq 2407 / 5
   else if (4910 <=? freq) && (freq <=? 4980) then sub32 freq 4000 / 5
   else if freq <? 5925 then sub32 freq 5000 / 5
   else if freq =? 5935 then 2
   else if freq <=? 45000 then sub32 freq 5950 / 5
   else if (58320 <=? freq) && (freq <=? 70200) then sub32 freq 56160 / 2160
   else 0)%N.

Definition SecPairWEP40 : N := 1.
Definition SecPairWEP104 : N := 2.
Definition SecGroupWEP40 : N := 16.
Definition SecGroupWEP104 : N := 32.
Definition SecKeyMgmtPSK : N := 256.
Definition SecKeyMgmt8021X : N := 512.
Definition SecKeyMgmtEAPSuiteB192 : N := 8192.

Definition has_flag (flags f : N) : bool := negb (N.land flags f =? 0)%N.

Definition SecurityNone : string := "none".
Definition SecurityWEP : string := "wep".
Definition SecurityDynamicWEP : string := "ieee8021x".
Definition SecurityWPAEnterprise : string := "wpa-eap".
Definition SecurityWPA : string := "wpa-psk".
Definition SecurityUnknown : string := "unknown".

Definition wep_type (flags : N) : string := if has_flag flags SecKeyMgmt8021X then SecurityDynamicWEP else SecurityWEP.

(** The security the flags of an access point announce. *)
Definition security_of (flags : N) : string :=
  if (flags =? 0)%N then SecurityNone
  else if has_flag flags SecPairWEP40 then wep_type flags
  else if has_flag flags SecPairWEP104 then wep_type flags
  else if has_flag flags SecGroupWEP40 then wep_type flags
  else if has_flag flags SecGroupWEP104 then wep_type flags
  else if has_flag flags SecKeyMgmtEAPSuiteB192 then SecurityWPAEnterprise
  else if has_flag flags SecKeyMgmtPSK then SecurityWPA
  else SecurityUnknown.

Definition GetPropertySSID (ap : string) : Bus string := getSliceByteProperty ap "AccessPoint.Ssid".
Definition AP_GetPropertyHWAddress (ap : string) : Bus string := getStringProperty ap "AccessPoint.HwAddress".
Definition GetPropertyFlags (ap : string) : Bus N := getUint32Property ap "AccessPoint.Flags".
Definition GetPropertyWPAFlags (ap : string) : Bus N := getUint32Property ap "AccessPoint.WpaFlags".
Definition GetPropertyRSNFlags (ap : string) : Bus N := getUint32Property ap "AccessPoint.RsnFlags".
Definition GetPropertyFrequency (ap : string) : Bus N := getUint32Property ap "AccessPoint.Frequency".
Definition GetPropertyStrength (ap : string) : Bus N := getUint8Property ap "AccessPoint.Strength".

Definition GetChannel (ap : string) : Bus N := let! freq := GetPropertyFrequency ap in ret (freqToChannel freq).

Definition GetSecurityType (ap : string) : Bus string :=
  let! rsn := GetPropertyRSNFlags ap in
  let! flags := (if (rsn =? 0)%N then GetPropertyWPAFlags ap else ret rsn) in
  ret (security_of flags).

(** ** Devices *)

Definition DeviceTypeEthernet : N := 1.
Definition DeviceTypeWifi : N := 2.
Definition DeviceTypeGeneric : N := 14.
Definition DeviceTypeIpTunnel : N := 17.
Definition DeviceTypeDummy : N := 22.
Definition DeviceStateDisconnected : N := 30.

Definition GetPropertyDeviceType (dev : string) : Bus N := getUint32Property dev "Device.DeviceType".

(** An object of the class that its type selected when it was made. *)
Record Device := { dev_Path : string; dev_Class : N }.

(** The types with a class of their own; an object of another type stays the general one. *)
Definition has_class (t : N) : bool :=
  existsb (N.eqb t) [DeviceTypeDummy; DeviceTypeGeneric; DeviceTypeIpTunnel; DeviceTypeEthernet; DeviceTypeWifi].

(** A device is made twice: once to ask for its type, once as an object of that type. *)
Definition DeviceFactory (path : string) : Bus Device :=
  let! d := new_object path in
  let! t := GetPropertyDeviceType d in
  if has_class t then let! d := new_object path in ret {| dev_Path := d; dev_Class := t |}
  else ret {| dev_Path := d; dev_Class := 0 |}.

Definition GetAllDevices : Bus (list Device) :=
  let! paths := callE (CallPaths "/org/freedesktop/NetworkManager" "GetAllDevices") in
  map_m paths DeviceFactory.

Definition GetPropertyActiveConnections : Bus (list string) :=
  let! paths := getSliceObjectProperty "/org/freedesktop/NetworkManager" "ActiveConnections" in
  new_objects paths.

Definition AC_GetPropertyDevices (ac : string) : Bus (list Device) :=
  let! paths := getSliceObjectProperty ac "Connection.Active.Devices" in
  map_m paths DeviceFactory.

Definition AC_GetPropertyConnection (ac : string) : Bus string :=
  let! p := getObjectProperty ac "Connection.Active.Connection" in new_object p.

(** Three of the classes ask for the address under an interface of their own. *)
Definition hw_address_property (class : N) : string :=
  if (class =? DeviceTypeEthernet)%N then "Device.Wired.HwAddress"
  else if (class =? DeviceTypeDummy)%N then "Device.Dummy.HwAddress"
  else if (class =? DeviceTypeGeneric)%N then "Device.Generic.HwAddress"
  else "Device.HwAddress".
Definition GetPropertyHwAddress (dev : Device) : Bus string :=
  getStringProperty (dev_Path dev) (hw_address_property (dev_Class dev)).
Definition GetPropertyPermHwAddress (dev : string) : Bus string := getStringProperty dev "Device.Wired.PermHwAddress".
Definition GetPropertyInterface (dev : string) : Bus string := getStringProperty dev "Device.Interface".
Definition GetPropertyIpInterface (dev : string) : Bus string := getStringProperty dev "Device.IpInterface".
Definition GetPropertyState (dev : string) : Bus N := getUint32Property dev "Device.State".
Definition GetPropertyActiveConnection (dev : string) : Bus (option string) := optional_object dev "Device.ActiveConnection".
Definition GetPropertyIP4Config (dev : string) : Bus (option string) := optional_object dev "Device.Ip4Config".
Definition GetPropertyIP6Config (dev : string) : Bus (option string) := optional_object dev "Device.Ip6Config".
Definition GetPropertyLastScan (dev : string) : Bus Z := getInt64Property dev "Device.Wireless.LastScan".

Definition GetAllAccessPoints (dev : string) : Bus (list string) :=
  let! paths := callE (CallPaths dev "GetAllAccessPoints") in new_objects paths.

Definition ErrorFollowingPreviousScan : error := Plain "scanning not allowed immediately following previous scan".

(** Whether the scan was refused for its rate; every other failure is dropped. *)
Definition RequestScan (dev : string) : Bus bool :=
  let! r := call (CallUnit dev "RequestScan") in
  ret (match r with
       | inl _ => false
       | inr e => str_contains "not allowed immediately following previous scan" (error_text e)
       end).

(** ** Connection profiles *)

Definition ListConnections : Bus (list string) :=
  let! paths := callE (CallPaths "/org/freedesktop/NetworkManager/Settings" "ListConnections") in
  new_objects paths.

Definition GetSettings (conn : string) : Bus settings := callE (CallGetSettings conn).

(** ** The rest of the bindings

    What nothing in the agent calls yet, or only as one step of a larger call. *)

Definition nm_path : string := "/org/freedesktop/NetworkManager".

Definition getBoolProperty : string → string → Bus bool := get_property (λ v, match v with DBool b => Some b | _ => None end).
Definition getUint64Property : string → string → Bus N := get_property (λ v, match v with DU64 n => Some n | _ => None end).
Definition getSliceStringProperty : string → string → Bus (list string) := get_property (λ v, match v with DStrs l => Some l | _ => None end).
Definition getSliceSliceByteProperty : string → string → Bus (list string) := get_property (λ v, match v with DBytess l => Some l | _ => None end).
Definition getSliceSliceUint32Property : string → string → Bus (list (list N)) := get_property (λ v, match v with DU32ss l => Some l | _ => None end).
Definition getMapStringVariantProperty (path iface : string) : Bus section :=
  let! v := callE (GetDictProp path iface) in match v with Some s => ret s | None => throw (makeErrVariantType iface) end.

(** A reply that does not store as what is expected. *)
Definition store_error : error := Plain "dbus.Store: type mismatch".
Definition call_object (path method : string) (args : list dval) : Bus string :=
  let! v := callE (CallMethod path method args) in match v with DPath p => ret p | _ => throw store_error end.

(** *** The manager *)

Definition GetDevices : Bus (list Device) :=
  let! paths := callE (CallPaths nm_path "GetDevices") in map_m paths DeviceFactory.
Definition GetDeviceByIpIface (interfaceId : string) : Bus Device :=
  let! p := call_object nm_path "GetDeviceByIpIface" [DStr interfaceId] in DeviceFactory p.

(** No device is the root here, and the empty path below. *)
Definition ActivateConnection (conn : string) (device : option Device) (specific : string) : Bus string :=
  let! p := callE (CallActivate conn (match device with Some d => dev_Path d | None => "/" end) specific) in new_object p.
Definition AddAndActivateConnection (s : settings) (device : option Device) : Bus string :=
  let! r := callE (CallAddAndActivate s (match device with Some d => dev_Path d | None => "" end) "/") in new_object r.2.
Definition ActivateWirelessConnection (conn : string) (device : Device) (ap : string) : Bus string :=
  let! p := callE (CallActivate conn (dev_Path device) ap) in new_object p.
Definition AddAndActivateWirelessConnection (s : settings) (device : Device) (ap : string) : Bus string :=
  let! r := callE (CallAddAndActivate s (dev_Path device) ap) in new_object r.2.

(** The paths of the devices are put into a variable of the inner block: the list that is sent
    is the outer, empty one. *)
Definition CheckpointCreate (devices : list Device) (rollbackTimeout flags : N) : Bus string :=
  let devicePaths : list string := [] in
  let! p := call_object nm_path "CheckpointCreate" [DPaths devicePaths; DU32 rollbackTimeout; DU32 flags] in new_object p.
Definition CheckpointDestroy (checkpoint : option string) : Bus unit :=
  callE (CallMethod nm_path "CheckpointDestroy" (match checkpoint with Some p => [DPath p] | None => [] end));; ret tt.

Definition CheckpointRollback (checkpoint : string) : Bus (list (string * N)) := callE (CallRollback checkpoint).

(** Devices of the general class, whatever their type. *)
Definition general_device (path : string) : Bus Device := let! d := new_object path in ret {| dev_Path := d; dev_Class := 0 |}.
Definition NM_GetPropertyDevices : Bus (list Device) := let! l := getSliceObjectProperty nm_path "Devices" in map_m l general_device.
Definition NM_GetPropertyAllDevices : Bus (list Device) := let! l := getSliceObjectProperty nm_path "AllDevices" in map_m l general_device.
Definition GetPropertyCheckpoints : Bus (list string) := let! l := getSliceObjectProperty nm_path "Checkpoints" in new_objects l.
Definition Checkpoint_GetPropertyDevices (cp : string) : Bus (list Device) := let! l := getSliceObjectProperty cp "Checkpoint.Devices" in map_m l general_device.
Definition GetPropertyPrimaryConnection : Bus string := let! p := getObjectProperty nm_path "PrimaryConnection" in new_object p.

(** *** Connections *)

Definition AC_GetPropertySpecificObject (ac : string) : Bus string := let! p := getObjectProperty ac "Connection.Active.SpecificObject" in new_object p.
(** Two flags are taken without asking for their type. *)
Definition unchecked_bool (path iface : string) : Bus bool :=
  let! v := callE (GetProp path iface) in match v with DBool b => ret b | _ => panic end.
Definition AC_GetPropertyDefault (ac : string) : Bus bool := unchecked_bool ac "Connection.Active.Default".
Definition AC_GetPropertyVPN (ac : string) : Bus bool := unchecked_bool ac "Connection.Active.Vpn".
Definition AC_GetPropertyIP4Config (ac : string) : Bus (option string) := optional_object ac "Connection.Active.Ip4Config".
Definition AC_GetPropertyIP6Config (ac : string) : Bus (option string) := optional_object ac "Connection.Active.Ip6Config".
Definition AC_GetPropertyDHCP4Config (ac : string) : Bus (option string) := optional_object ac "Connection.Active.Dhcp4Config".
Definition AC_GetPropertyDHCP6Config (ac : string) : Bus (option string) := optional_object ac "Connection.Active.Dhcp6Config".
Definition optional_device (path iface : string) : Bus (option Device) :=
  let! p := getObjectProperty path iface in
  if String.eqb p "/" then ret None else let! d := DeviceFactory p in ret (Some d).
Definition AC_GetPropertyMaster (ac : string) : Bus (option Device) := optional_device ac "Connection.Active.Master".
Definition IpTunnel_GetPropertyParent (dev : string) : Bus (option Device) := optional_device dev "Device.IPTunnel.Parent".
Definition GetPropertyDHCP4Config (dev : string) : Bus (option string) := optional_object dev "Device.Dhcp4Config".
Definition GetPropertyDHCP6Config (dev : string) : Bus (option string) := optional_object dev "Device.Dhcp6Config".
Definition GetPropertyAvailableConnections (dev : string) : Bus (list string) := let! l := getSliceObjectProperty dev "Device.AvailableConnections" in new_objects l.

Definition GetSecrets (conn settingName : string) : Bus settings := callE (CallGetSecrets conn settingName).
Definition GetConnectionByUUID (uuid : string) : Bus string :=
  let! p := call_object "/org/freedesktop/NetworkManager/Settings" "GetConnectionByUUID" [DStr uuid] in new_object p.
Definition AddConnection (s : settings) : Bus string := let! p := callE (CallAddConnection s) in new_object p.

(** *** Access points *)

Definition GetAccessPoints (dev : string) : Bus (list string) := let! paths := callE (CallPaths dev "GetAccessPoints") in new_objects paths.
Definition GetPropertyAccessPoints (dev : string) : Bus (list string) := let! l := getSliceObjectProperty dev "Device.Wireless.AccessPoints" in new_objects l.
Definition GetPropertyActiveAccessPoint (dev : string) : Bus (option string) := optional_object dev "Device.Wireless.ActiveAccessPoint".
Definition GetPropertyMode (ap : string) : Bus N := getUint32Property ap "AccessPoint.Mode".

(** *** Routes *)

(** An outcome as code. *)
Definition outcome_of {A} (o : outcome A) : Bus A := λ _ st, (o, st).

Record IP4Address := { ia_Address : string; ia_Prefix : N; ia_Gateway : string }.
Record IP4Route := { ir_Route : string; ir_Prefix : N; ir_NextHop : string; ir_Metric : N }.

(** The parts are indexed without asking how many there are. *)
Definition address_parts (parts : list N) : outcome IP4Address :=
  match parts with
  | a :: p :: g :: _ => Ok {| ia_Address := ip4ToString a; ia_Prefix := (p mod 256)%N; ia_Gateway := ip4ToString g |}
  | _ => Panic
  end.
Definition route_parts (parts : list N) : outcome IP4Route :=
  match parts with
  | r :: p :: h :: m :: _ => Ok {| ir_Route := ip4ToString r; ir_Prefix := (p mod 256)%N; ir_NextHop := ip4ToString h; ir_Metric := (m mod 256)%N |}
  | _ => Panic
  end.
Definition IP4_GetPropertyAddresses (cfg : string) : Bus (list IP4Address) :=
  let! l := getSliceSliceUint32Property cfg "IP4Config.Addresses" in map_m l (λ parts, outcome_of (address_parts parts)).
Definition IP4_GetPropertyRoutes (cfg : string) : Bus (list IP4Route) :=
  let! l := getSliceSliceUint32Property cfg "IP4Config.Routes" in map_m l (λ parts, outcome_of (route_parts parts)).

Record RouteData := { rd_Destination : string; rd_Prefix : N; rd_NextHop : string; rd_Metric : N }.
Definition no_route : RouteData := {| rd_Destination := ""; rd_Prefix := 0; rd_NextHop := ""; rd_Metric := 0 |}.

Definition bad_attribute (name : string) : error := Plain ("unexpected variant type for " +:+ name).
(** One attribute; what is not one of the four is put into a map that was never made. *)
Definition route_attribute (k : string) (v : dval) (r : RouteData) : outcome RouteData :=
  if String.eqb k "dest" then
    match v with DStr d => Ok {| rd_Destination := d; rd_Prefix := rd_Prefix r; rd_NextHop := rd_NextHop r; rd_Metric := rd_Metric r |} | _ => Err (bad_attribute k) end
  else if String.eqb k "prefix" then
    match v with DU32 n => Ok {| rd_Destination := rd_Destination r; rd_Prefix := (n mod 256)%N; rd_NextHop := rd_NextHop r; rd_Metric := rd_Metric r |} | _ => Err (bad_attribute k) end
  else if String.eqb k "next-hop" then
    match v with DStr h => Ok {| rd_Destination := rd_Destination r; rd_Prefix := rd_Prefix r; rd_NextHop := h; rd_Metric := rd_Metric r |} | _ => Err (bad_attribute k) end
  else if String.eqb k "metric" then
    match v with DU32 n => Ok {| rd_Destination := rd_Destination r; rd_Prefix := rd_Prefix r; rd_NextHop := rd_NextHop r; rd_Metric := (n mod 256)%N |} | _ => Err (bad_attribute k) end
  else Panic.
(** The attributes come in the order of a map's iteration. *)
Fixpoint route_attributes (attributes : section) (r : RouteData) : outcome RouteData :=
  match attributes with
  | [] => Ok r
  | (k, v) :: attributes =>
      match route_attribute k v r with
      | Ok r => route_attributes attributes r
      | o => o
      end
  end.
Fixpoint routes_of (data : list section) : outcome (list RouteData) :=
  match data with
  | [] => Ok []
  | d :: data =>
      match route_attributes d no_route with
      | Ok r => match routes_of data with Ok l => Ok (r :: l) | o => o end
      | Err e => Err e | Panic => Panic | Hang => Hang
      end
  end.
(** Appended to a list that already has the length of the result. *)
Definition route_data (data : list section) : outcome (list RouteData) :=
  match routes_of data with Ok l => Ok (replicate (length data) no_route ++ l)%list | o => o end.
Definition IP4_GetPropertyRouteData (cfg : string) : Bus (list RouteData) :=
  let! l := getSliceMapStringVariantProperty cfg "IP4Config.RouteData" in outcome_of (route_data l).
Definition IP6_GetPropertyRouteData (cfg : string) : Bus (list RouteData) :=
  let! l := getSliceMapStringVariantProperty cfg "IP6Config.RouteData" in outcome_of (route_data l).
Definition IP6_GetPropertyNameservers (cfg : string) : Bus (list string) := getSliceSliceByteProperty cfg "IP6Config.Nameservers".
Definition DHCP4_GetPropertyOptions (cfg : string) : Bus section := getMapStringVariantProperty cfg "DHCP4Config.Options".
Definition DHCP6_GetPropertyOptions (cfg : string) : Bus section := getMapStringVariantProperty cfg "DHCP6Config.Options".

(** *** Watching a connection *)

Inductive watch_event :=
  | SignalOf (path name : string) (body : list dval)
  | ChannelClosed
  | ExitAsked.
Inductive watch_end := Watching | WatchEnded | WatchPanicked.

Definition state_changed : string := "org.freedesktop.NetworkManager.Connection.Active.StateChanged".

(** The goroutine of [SubscribeState]: what it reports, and how it stands. *)
Fixpoint watch_states (ac : string) (es : list watch_event) : list (N * N) * watch_end :=
  match es with
  | [] => ([], Watching)
  | SignalOf path name body :: es =>
      if negb (String.eqb path ac) || negb (String.eqb name state_changed) then watch_states ac es
      else
        match body with
        | DU32 state :: DU32 reason :: _ => let '(l, e) := watch_states ac es in ((state, reason) :: l, e)
        | _ => ([], WatchPanicked)
        end
  | ChannelClosed :: _ | ExitAsked :: _ => ([], WatchEnded)
  end.
