(* ===== verification/Network.v ===== *)
(** * Network settings (src/src/network/nmw_network.go, network.go)

    The operations behind the network topics, over the NetworkManager bindings: finding
    devices, access points and profiles, adding and removing WiFi networks, scans, static
    addresses and DHCP, and the lists of networks and ethernet devices. *)
From S2P Require Import Prelude Errdefs GoValue Common Effects NetworkManager.
Open Scope go_scope.

Definition ErrNotFound : error := Plain "not found".
Definition ErrDeviceNotFound : error := Plain "device not found".
Definition ErrInvalidWiFiPassword : error := Plain "the wifi password is invalid".
Definition ErrNotConnected : error := Plain "not connected".
Definition DeadlineExceeded : error := Plain "context deadline exceeded".

Record WiFi := {
  wf_SSID : string; wf_MAC : string; wf_SecurityType : string; wf_Signal : N; wf_WPAFlags : N; wf_RSNFlags : N;
  wf_Flags : N; wf_Frequency : N; wf_Channel : N; wf_Current : bool; wf_Known : bool;
}.
Record EthernetDevice := {
  ed_InterfaceName : string; ed_MAC : string; ed_IPv4 : list AddressData; ed_IPv6 : list AddressData; ed_Method : string;
}.
Record WiFiCredentials := { cr_Ssid : string; cr_Passwd : string; cr_SecurityType : string; cr_Priority : N }.

(** Texts of the standard library: a printed list of dictionaries, and the IPv4 address that
    a text in the notation of IPv6 maps. *)
Class NetHost := { print_dicts : list (list (string * dval)) → string; mapped_ip4 : string → option N }.

(** ** Bytes of addresses *)

Definition swapUint32 (n : N) : N :=
  N.lor (N.lor (N.lor (N.shiftl (N.land n 255) 24 mod two32) (N.shiftl (N.land n 65280) 8 mod two32))
               (N.shiftr (N.land n 16711680) 8)) (N.shiftr (N.land n 4278190080) 24).

(** One part of a dotted quad: one to three digits without a leading zero, up to 255. *)
Definition octet (s : string) : option N :=
  match s with
  | String "0" (String _ _) => None
  | _ => if (3 <? String.length s)%nat then None else match parse_uint 8 s with Some n => Some n | None => None end
  end.

Definition big_endian (a b c d : N) : N := (((a * 256 + b) * 256 + c) * 256 + d)%N.

(** ** The addresses of the host (network.go) *)

Record Ipv4Address := { ia_InterfaceName : string; ia_Ip : string }.

Definition digit_between (lo hi a : ascii) : bool := (N_of_ascii lo <=? N_of_ascii a)%N && (N_of_ascii a <=? N_of_ascii hi)%N.

(** One part of [IPv4RegExp]: [25[0-5]|2[0-4][0-9]|[01]?[0-9][0-9]?]. *)
Definition ip_part (s : string) : bool :=
  match String.list_ascii_of_string s with
  | [a] => digit_between "0" "9" a
  | [a; b] => digit_between "0" "9" a && digit_between "0" "9" b
  | [a; b; c] =>
      (Ascii.eqb a "2" && Ascii.eqb b "5" && digit_between "0" "5" c)
      || (Ascii.eqb a "2" && digit_between "0" "4" b && digit_between "0" "9" c)
      || (digit_between "0" "1" a && digit_between "0" "9" b && digit_between "0" "9" c)
  | _ => false
  end.

Definition IPv4RegExp (s : string) : bool :=
  match split_on "." s with [a; b; c; d] => ip_part a && ip_part b && ip_part c && ip_part d | _ => false end.

(** Addresses of the loopback and of docker's interfaces are left out. *)
Definition wanted_address (name ip : string) : bool :=
  IPv4RegExp ip && negb (String.eqb ip "127.0.0.1" || String.eqb ip "0.0.0.0") && negb (str_contains "docker" name).

(** The interfaces with their printed addresses; an interface whose addresses cannot be had
    ends the search. *)
Fixpoint GetIPv4Addresses (ifaces : list (string * (list string + error))) : list Ipv4Address + error :=
  match ifaces with
  | [] => inl []
  | (_, inr e) :: _ => inr e
  | (name, inl addrs) :: ifaces =>
      match GetIPv4Addresses ifaces with
      | inr e => inr e
      | inl rest => inl (map (Build_Ipv4Address name) (List.filter (wanted_address name) addrs) ++ rest)%list
      end
  end.

Definition virtual_interface (name : string) : bool := has_prefix "veth" name || has_prefix "br-" name.

(** [route]: the source address of the default route, if a socket could be had for it. *)
Definition GetPrimaryLANIP (route : option string) (ifaces : list (string * (list string + error))) : string :=
  match route with
  | Some ip => ip
  | None =>
      match GetIPv4Addresses ifaces with
      | inr _ => ""
      | inl addresses =>
          match List.find (λ a, negb (virtual_interface (ia_InterfaceName a))) addresses with
          | Some a => ia_Ip a
          | None => ""
          end
      end
  end.

Section network.
Context `{NetHost}.

(** [net.ParseIP(ip).To4()] read as a big-endian word; without one the word stays zero. *)
Definition parse_ip4 (ip : string) : option N :=
  match map octet (split_on "." ip) with
  | [Some a; Some b; Some c; Some d] => Some (big_endian a b c d)
  | _ => mapped_ip4 ip
  end.

Definition ip2Long (ip : string) : N := swapUint32 (default 0%N (parse_ip4 ip)).

(** [fmt.Sprint] of a setting. *)
Definition sprint_words (l : list N) : string := "[" +:+ join_with " " (map itoa l) +:+ "]".
Definition sprint_bytes (s : string) : string := sprint_words (map N_of_ascii (String.list_ascii_of_string s)).
Definition sprint_dval (v : dval) : string :=
  match v with
  | DNil => "<nil>"
  | DPath s | DStr s => s
  | DBool b => if b then "true" else "false"
  | DU8 n | DU32 n | DU64 n => itoa n
  | DI32 z | DI64 z | DInt z => pretty z
  | DPaths l | DStrs l => "[" +:+ join_with " " l +:+ "]"
  | DBytes s => sprint_bytes s
  | DU32s l => sprint_words l
  | DU32ss l => "[" +:+ join_with " " (map sprint_words l) +:+ "]"
  | DBytess l => "[" +:+ join_with " " (map sprint_bytes l) +:+ "]"
  | DDicts l => print_dicts l
  end.

(** ** Devices, access points and profiles *)

(** The first element for which a test with effects holds; an error of the test ends it. *)
Fixpoint find_m {A} (f : A → Bus bool) (l : list A) : Bus (option A) :=
  match l with
  | [] => ret None
  | x :: l => let! b := f x in if b : bool then ret (Some x) else find_m f l
  end.

Definition is_wifi (dev : Device) : Bus bool := let! t := GetPropertyDeviceType (dev_Path dev) in ret (t =? DeviceTypeWifi)%N.

(** The first WiFi device of the active connections; an error anywhere ends the search. *)
Fixpoint active_wifi (acs : list string) : Bus string :=
  match acs with
  | [] => throw ErrDeviceNotFound
  | ac :: acs =>
      let! devices := AC_GetPropertyDevices ac in
      let! d := find_m is_wifi devices in
      match d with Some d => new_object (dev_Path d) | None => active_wifi acs end
  end.

Definition getActiveWirelessDevice : Bus string :=
  let! acs := GetPropertyActiveConnections in active_wifi acs.

Definition getWirelessDevice : Bus string :=
  let! active := try_ getActiveWirelessDevice in
  match active with
  | inl d => ret d
  | inr _ =>
      let! devices := GetAllDevices in
      let! d := find_m is_wifi devices in
      match d with Some d => new_object (dev_Path d) | None => throw ErrDeviceNotFound end
  end.

Definition found (r : option string) : Bus string := match r with Some x => ret x | None => throw ErrNotFound end.

Definition getAccessPointBySSID (ssid : string) : Bus string :=
  let! d := getWirelessDevice in
  let! aps := GetAllAccessPoints d in
  let! ap := find_m (λ ap, let! s := GetPropertySSID ap in ret (String.eqb s ssid)) aps in found ap.

Definition getAccessPointByMAC (mac : string) : Bus string :=
  let! d := getWirelessDevice in
  let! aps := GetAllAccessPoints d in
  let! ap := find_m (λ ap, let! m := AP_GetPropertyHWAddress ap in ret (String.eqb m mac)) aps in found ap.

Definition ssid_error : error := Plain "failed to parse ssid".

Definition getConnectionBySSID (ssid : string) : Bus string :=
  let! conns := ListConnections in
  let! c := find_m (λ c,
    let! s := GetSettings c in
    match dget "ssid" (section_of "802-11-wireless" s) with
    | DNil => ret false
    | DBytes b => ret (String.eqb ssid b)
    | _ => throw ssid_error
    end) conns in found c.

Definition getConnectionByInterfaceName (interfaceName : string) : Bus string :=
  let! conns := ListConnections in
  let! c := find_m (λ c,
    let! s := GetSettings c in
    ret (String.eqb interfaceName (sprint_dval (dget "interface-name" (section_of "connection" s))))) conns in found c.

Definition Reload : Bus unit := callE (CallUnit "/org/freedesktop/NetworkManager" "Reload").
Definition RemoveWifi (ssid : string) : Bus unit :=
  let! c := getConnectionBySSID ssid in callE (CallUnit c "Delete").

Definition ActivateWiFi (mac ssid : string) : Bus unit :=
  let! d := getWirelessDevice in
  let! ap := getAccessPointByMAC mac in
  let! c := getConnectionBySSID ssid in
  let! p := callE (CallActivate c d ap) in
  new_object p;; ret tt.

(** ** Retrying for ever *)

Definition with_retries (s : settings) : settings :=
  map_set "connection" (map_set "autoconnect-retries" (DI32 0) (section_of "connection" s)) s.

(** Ethernet and WiFi profiles that would give up; the others are left alone. *)
Definition needs_retries (s : settings) : bool :=
  match map_get "connection" s with
  | None => false
  | Some c =>
      let t := sprint_dval (dget "type" c) in
      (String.eqb t "802-3-ethernet" || String.eqb t "802-11-wireless")
      && negb (match dget "autoconnect-retries" c with DI32 z => (z =? 0)%Z | _ => false end)
  end.

Definition SetInfiniteAutoconnectRetries : Bus unit :=
  let! conns := ListConnections in
  for_each conns (λ c,
    let! s := try_ (GetSettings c) in
    match s with
    | inr _ => ret tt
    | inl s => when (needs_retries s) (call (CallUpdate c (with_retries s));; ret tt)
    end).

(** ** Adding a network *)

Definition new_wifi (ssid secType : string) (credentials : WiFiCredentials) : settings :=
  let security := [("key-mgmt", DStr secType)] in
  let security :=
    if String.eqb secType SecurityWPA || String.eqb secType SecurityWPAEnterprise
    then (security ++ [("psk-flags", DInt 0); ("psk", DStr (cr_Passwd credentials))])%list
    else if String.eqb secType SecurityWEP
    then (security ++ [("wep-key-type", DInt 1); ("wep-key0", DStr (cr_Passwd credentials))])%list
    else security in
  [("connection", [("id", DStr ssid); ("autoconnect-priority", DU32 (cr_Priority credentials)); ("autoconnect-retries", DI32 0)]);
   ("802-11-wireless", [("ssid", DBytes ssid); ("security", DStr "802-11-wireless-security")]);
   ("802-11-wireless-security", security)].

Definition adding_error (e : error) : error :=
  if str_contains "802-11-wireless-security.psk: property is invalid" (error_text e)
     || str_contains "802-11-wireless-security.wep-key0: property is invalid" (error_text e)
  then ErrInvalidWiFiPassword else e.

Definition AddWiFi (mac : string) (credentials : WiFiCredentials) : Bus unit :=
  let! network := (
    if String.eqb mac "" then ret (cr_Ssid credentials, cr_SecurityType credentials)
    else
      let! ap := getAccessPointByMAC mac in
      let! ssid := GetPropertySSID ap in
      let! secType := GetSecurityType ap in
      ret (ssid, secType)) in
  let! r := call (CallAddConnection (new_wifi network.1 network.2 credentials)) in
  match r with
  | inr e => throw (adding_error e)
  | inl p => new_object p;; ret tt
  end.

(** ** Scans *)

(** The wait for the end of a scan; [turns] bounds the looks at the device. *)
Fixpoint scan_wait (turns : nat) (dev : string) (before : Z) : Bus unit :=
  match turns with
  | O => hang
  | S turns =>
      let! late := call ScanDeadlinePassed in
      if late : bool then throw DeadlineExceeded
      else
        let! lastScan := GetPropertyLastScan dev in
        if negb (before =? lastScan)%Z then ret tt
        else
          let! st := GetPropertyState dev in
          if (st <=? DeviceStateDisconnected)%N then throw ErrNotConnected
          else call (SleepMs 100);; scan_wait turns dev before
  end.

(** A scan refused for its rate is asked for again a second later, with a timeout of its own;
    [retries] bounds how often. *)
Fixpoint Scan (retries turns : nat) : Bus unit :=
  match retries with
  | O => hang
  | S retries =>
      let! dev := getWirelessDevice in
      let! before := GetPropertyLastScan dev in
      let! limited := RequestScan dev in
      if limited : bool then call (SleepMs 1000);; Scan retries turns
      else scan_wait turns dev before
  end.

(** ** Known and current networks *)

(** The name and the access points of one profile; what stops the look at them is an error,
    or none for access points of another type. *)
Definition known_one (s : settings) : (list string * list string) + option error :=
  let wireless := section_of "802-11-wireless" s in
  let bssids := match dget "seen-bssids" wireless with DNil => inl [] | DStrs b => inl b | _ => inr None end in
  match dget "ssid" wireless with
  | DNil => match bssids with inl b => inl ([], b) | inr e => inr e end
  | DBytes x => match bssids with inl b => inl ([x], b) | inr e => inr e end
  | _ => inr (Some ssid_error)
  end.

(** Profiles are read one by one, up to the first whose settings cannot be had or used. *)
Fixpoint read_known (conns : list string) : Bus ((list string * list string) + option error) :=
  match conns with
  | [] => ret (inl ([], []))
  | c :: conns =>
      let! s := GetSettings c in
      match known_one s with
      | inr e => ret (inr e)
      | inl (ssids, bssids) =>
          let! rest := read_known conns in
          ret (match rest with inr e => inr e | inl (ssids', bssids') => inl (ssids ++ ssids', bssids ++ bssids')%list end)
      end
  end.

Definition isKnown (ssid bssid : string) : Bus bool :=
  let! conns := ListConnections in
  let! k := read_known conns in
  match k with
  | inr (Some e) => throw e
  | inr None => ret false
  | inl (ssids, bssids) => ret (existsb (String.eqb bssid) bssids || existsb (String.eqb ssid) ssids)
  end.

Definition isCurrent (bssid : string) : Bus bool :=
  let! d := getWirelessDevice in
  let! ac := GetPropertyActiveConnection d in
  match ac with
  | None => ret false
  | Some ac =>
      let! c := AC_GetPropertyConnection ac in
      let! s := GetSettings c in
      match dget "seen-bssids" (section_of "802-11-wireless" s) with
      | DStrs bssids => ret (existsb (String.eqb bssid) bssids)
      | _ => ret false
      end
  end.

Definition wifi_of_ap (ap : string) : Bus WiFi :=
  let! r := try_ (GetPropertySSID ap) in
  let ssid := match r with inl s => s | inr _ => "" end in
  let! mac := AP_GetPropertyHWAddress ap in
  let! known := isKnown ssid mac in
  let! current := isCurrent mac in
  let! wpa := GetPropertyWPAFlags ap in
  let! signal := GetPropertyStrength ap in
  let! flags := GetPropertyFlags ap in
  let! freq := GetPropertyFrequency ap in
  let! channel := GetChannel ap in
  let! rsn := GetPropertyRSNFlags ap in
  let! sec := GetSecurityType ap in
  ret {| wf_SSID := ssid; wf_MAC := mac; wf_SecurityType := sec; wf_Signal := signal; wf_WPAFlags := wpa; wf_RSNFlags := rsn;
         wf_Flags := flags; wf_Frequency := freq; wf_Channel := channel; wf_Current := current; wf_Known := known |}.

Definition accessPointsToWiFi (aps : list string) : Bus (list WiFi) := map_m aps wifi_of_ap.

(** ** The list of networks *)

(** Profiles whose settings cannot be had are left out. *)
Fixpoint settings_of (conns : list string) : Bus (list settings) :=
  match conns with
  | [] => ret []
  | c :: conns =>
      let! r := try_ (GetSettings c) in
      let! rest := settings_of conns in
      ret (match r with inl s => s :: rest | inr _ => rest end)%list
  end.

Definition getAllConnectionSettings : Bus (list settings) := let! conns := ListConnections in settings_of conns.

Definition saved_ssid (s : settings) : option string :=
  match dget "ssid" (section_of "802-11-wireless" s) with DBytes b => Some b | _ => None end.

Definition connectionSettingsToWifi (s : settings) : WiFi :=
  {| wf_SSID := default "" (saved_ssid s); wf_MAC := "";
     wf_SecurityType := sprint_dval (dget "key-mgmt" (section_of "802-11-wireless-security" s));
     wf_Signal := 0; wf_WPAFlags := 0; wf_RSNFlags := 0; wf_Flags := 0; wf_Frequency := 0; wf_Channel := 0; wf_Current := false; wf_Known := true |}.

Definition listed (ssid : string) (wifis : list WiFi) : bool := existsb (λ w, String.eqb (wf_SSID w) ssid) wifis.

Definition add_saved (wifis : list WiFi) (s : settings) : list WiFi :=
  match saved_ssid s with
  | None => wifis
  | Some ssid => if listed ssid wifis then wifis else wifis ++ [connectionSettingsToWifi s]
  end%list.

Definition ListWifiNetworks : Bus (list WiFi) :=
  let! d := getWirelessDevice in
  let! aps := GetAllAccessPoints d in
  let! wifis := accessPointsToWiFi aps in
  let! all := getAllConnectionSettings in
  ret (foldl add_saved wifis all).

(** ** Static addresses and DHCP *)

(** [if settings[k] != nil { delete(settings, k) }]. *)
Definition drop_key (k : string) (s : section) : section := match dget k s with DNil => s | _ => map_delete k s end.

(** [delete(settings[name], k)]: a missing section stays missing. *)
Definition delete_in (name k : string) (s : settings) : settings :=
  match map_get name s with Some c => map_set name (map_delete k c) s | None => s end.

Definition no_ipv6 (s : settings) : settings := delete_in "ipv6" "routes" (delete_in "ipv6" "addresses" s).
Definition set_ipv4 (f : section → section) (s : settings) : settings := map_set "ipv4" (f (section_of "ipv4" s)) s.

(** The gateway and the name servers the device has now. *)
Definition current_servers (gateway : string) (dns : list string) (c : section) : section :=
  map_set "dns" (DU32s (map ip2Long dns)) (map_set "gateway" (DStr gateway) c).

Definition static_section (servers : option (string * list string)) (ipAddress : string) (prefix : N) (c : section) : section :=
  let c := drop_key "dns" (drop_key "gateway" (drop_key "address-data" (drop_key "addresses" c))) in
  let c := match servers with Some (g, d) => current_servers g d c | None => c end in
  map_set "address-data" (DDicts [[("address", DStr ipAddress); ("prefix", DU32 prefix)]]) (map_set "method" (DStr "manual") c).

Definition dhcp_section (c : section) : section :=
  map_set "method" (DStr "auto") (drop_key "gateway" (drop_key "address-data" (drop_key "addresses" c))).

Definition activate_later (device : option string) (conn : string) : Bus unit :=
  match device with Some d => call (GoActivate conn d);; ret tt | None => ret tt end.

(** Asking a nil device for its addresses panics. *)
Definition updateIPv4Address (device : option string) (conn ipAddress : string) (prefix : N) : Bus unit :=
  let! s := GetSettings conn in
  match device with
  | None => panic
  | Some d =>
      let! cfg := GetPropertyIP4Config d in
      let! servers := (
        match cfg with
        | None => ret None
        | Some cfg =>
            let! gateway := GetPropertyGateway cfg in
            let! dns := GetPropertyNameservers cfg in
            ret (Some (gateway, dns))
        end) in
      callE (CallUpdate conn (set_ipv4 (static_section servers ipAddress prefix) (no_ipv6 s)));;
      activate_later device conn
  end.

Definition enableDHCP (device : option string) (conn : string) : Bus unit :=
  let! s := GetSettings conn in
  callE (CallUpdate conn (set_ipv4 dhcp_section (no_ipv6 s)));;
  activate_later device conn.

(** The device with a hardware address, if there is one, and the profile to change: the one
    active on it, else the one of the interface. *)
Definition device_and_profile (mac interfaceName : string) : Bus (option string * string) :=
  let! devices := GetAllDevices in
  let! dev := find_m (λ d, let! m := GetPropertyHwAddress d in ret (String.eqb m mac)) devices in
  let! ac := (match dev with Some d => GetPropertyActiveConnection (dev_Path d) | None => ret None end) in
  let! conn := (match ac with
                | Some ac => AC_GetPropertyConnection ac
                | None => getConnectionByInterfaceName interfaceName
                end) in
  ret (dev_Path <$> dev, conn).

Definition EnableDHCP (mac interfaceName : string) : Bus unit :=
  let! dc := device_and_profile mac interfaceName in enableDHCP dc.1 dc.2.

Definition SetIPv4Address (mac interfaceName ip : string) (prefix : N) : Bus unit :=
  let! dc := device_and_profile mac interfaceName in updateIPv4Address dc.1 dc.2 ip prefix.

(** ** Addresses of the devices *)

Definition optional_addresses (cfg : option string) (get : string → Bus (list AddressData)) : Bus (list AddressData) :=
  match cfg with Some c => get c | None => ret [] end.

Definition GetActiveWirelessDeviceConfig : Bus (list AddressData * list AddressData) :=
  let! d := getWirelessDevice in
  let! c4 := GetPropertyIP4Config d in
  let! c6 := GetPropertyIP6Config d in
  let! a4 := optional_addresses c4 IP4_GetPropertyAddressData in
  let! a6 := optional_addresses c6 IP6_GetPropertyAddressData in
  ret (a4, a6).

(** The addresses of a profile: a value of another type panics, and a prefix is truncated. *)
Fixpoint profile_addresses (l : list section) : option (list AddressData) :=
  match l with
  | [] => Some []
  | a :: l =>
      match dget "address" a, dget "prefix" a, profile_addresses l with
      | address, DU32 prefix, Some rest => Some ({| ad_Address := sprint_dval address; ad_Prefix := (prefix mod 256)%N |} :: rest)
      | _, _, _ => None
      end
  end%list.

Definition addresses_of_settings (s : settings) : Bus (list AddressData) :=
  match dget "address-data" (section_of "ipv4" s) with
  | DNil => ret []
  | DDicts l => match profile_addresses l with Some r => ret r | None => panic end
  | _ => panic
  end.

Definition method_of_settings (s : settings) : string :=
  match dget "method" (section_of "ipv4" s) with DNil => "" | v => sprint_dval v end.

(** The profile of an interface, if any; its error is dropped. *)
Definition profile_of (interfaceName : string) : Bus (option string) :=
  let! r := try_ (getConnectionByInterfaceName interfaceName) in
  ret (match r with inl c => Some c | inr _ => None end).

(** One wired device; [None] for one that is left out. *)
Definition ethernet_device (d : string) : Bus (option EthernetDevice) :=
  let! name := GetPropertyIpInterface d in
  let! name := (if String.eqb name "" then GetPropertyInterface d else ret name) in
  let! c4 := GetPropertyIP4Config d in
  let! a4 := (
    match c4 with
    | Some c => IP4_GetPropertyAddressData c
    | None =>
        let! p := profile_of name in
        match p with None => ret [] | Some p => let! s := GetSettings p in addresses_of_settings s end
    end) in
  let! c6 := GetPropertyIP6Config d in
  let! a6 := optional_addresses c6 IP6_GetPropertyAddressData in
  let! mac := GetPropertyPermHwAddress d in
  let! ac := GetPropertyActiveConnection d in
  let device method := {| ed_InterfaceName := name; ed_MAC := mac; ed_IPv4 := a4; ed_IPv6 := a6; ed_Method := method |} in
  match ac with
  | Some ac =>
      let! c := AC_GetPropertyConnection ac in
      let! s := GetSettings c in
      ret (Some (device (method_of_settings s)))
  | None =>
      if String.eqb name "" then ret None
      else
        let! p := profile_of name in
        match p with
        | None => ret (Some (device ""))
        | Some p => let! s := GetSettings p in ret (Some (device (method_of_settings s)))
        end
  end.

Fixpoint wired_devices (devices : list Device) : Bus (list string) :=
  match devices with
  | [] => ret []
  | d :: devices =>
      let! t := GetPropertyDeviceType (dev_Path d) in
      if (t =? DeviceTypeEthernet)%N
      then let! w := new_object (dev_Path d) in let! rest := wired_devices devices in ret (w :: rest)%list
      else wired_devices devices
  end.

Definition getEthernetDevices : Bus (list string) := let! devices := GetAllDevices in wired_devices devices.

Definition ListEthernetDevices : Bus (list EthernetDevice) :=
  let! devices := getEthernetDevices in
  let! l := map_m devices ethernet_device in
  ret (present l).
End network.
