(* ===== verification/NetworkSpec.v ===== *)
(** * What the network settings write and report *)
From S2P Require Import Prelude Errdefs GoValue Common Effects NetworkManager Network.
Open Scope go_scope.

(** ** Addresses *)

Lemma byte_of_lt n k : (byte_of n k < 256)%N. Proof. apply N.mod_lt. done. Qed.

Lemma split_dots a b c d : lacks "." a = true → lacks "." b = true → lacks "." c = true → lacks "." d = true →
  split_on "." (a +:+ "." +:+ b +:+ "." +:+ c +:+ "." +:+ d) = [a; b; c; d].
Proof.
  intros Ha Hb Hc Hd. cbn [String.append]. rewrite (split_on_app "." a) by done.
  rewrite (split_on_app "." b) by done. rewrite (split_on_app "." c) by done. by rewrite split_on_lacks.
Qed.

(** Every byte, as it is printed, is read back. *)
Lemma octet_itoa n : (n < 256)%N → octet (itoa n) = Some n.
Proof.
  assert (forallb (λ n, bool_decide (octet (itoa n) = Some n)) (map N.of_nat (seq 0 256)) = true) as Hall by (vm_compute; reflexivity).
  intros Hn. rewrite forallb_forall in Hall. specialize (Hall n). apply bool_decide_eq_true_1 in Hall; [done|].
  apply in_map_iff. exists (N.to_nat n). split; [lia|]. apply in_seq. lia.
Qed.

Lemma lor_disjoint a b n : (b < 2 ^ n)%N → N.lor (a * 2 ^ n) b = (a * 2 ^ n + b)%N.
Proof.
  intros Hb. rewrite <- N.shiftl_mul_pow2. assert (N.land (N.shiftl a n) b = 0%N) as Hd.
  { apply N.bits_inj. intros m. rewrite N.land_spec, N.bits_0. destruct (N.lt_ge_cases m n) as [Hm|Hm].
    - by rewrite N.shiftl_spec_low.
    - rewrite <- (N.mod_small b (2 ^ n)) by done. rewrite N.mod_pow2_bits_high by done. by rewrite andb_false_r. }
  rewrite <- N.lxor_lor by done. by rewrite <- N.add_nocarry_lxor.
Qed.

(** The bytes between two bits, as a number. *)
Lemma land_byte n k : N.land n (N.shiftl 255 (8 * k)) = (byte_of n k * 2 ^ (8 * k))%N.
Proof.
  unfold byte_of. replace 255%N with (N.ones 8) by done. rewrite <- N.shiftl_mul_pow2.
  rewrite <- (N.land_ones _ 8). apply N.bits_inj. intros m. rewrite N.land_spec. destruct (N.lt_ge_cases m (8 * k)) as [Hm|Hm].
  - rewrite !N.shiftl_spec_low by done. by rewrite andb_false_r.
  - rewrite !N.shiftl_spec_high' by done. rewrite N.land_spec, N.shiftr_spec'. do 2 f_equal. lia.
Qed.

(** Swapping puts the bytes in the other order. *)
Lemma swapUint32_bytes n : swapUint32 n = big_endian (byte_of n 0) (byte_of n 1) (byte_of n 2) (byte_of n 3).
Proof.
  unfold swapUint32, big_endian.
  pose proof (land_byte n 0) as L0. pose proof (land_byte n 1) as L1. pose proof (land_byte n 2) as L2. pose proof (land_byte n 3) as L3.
  change (N.shiftl 255 (8 * 0)) with 255%N in L0. change (N.shiftl 255 (8 * 1)) with 65280%N in L1.
  change (N.shiftl 255 (8 * 2)) with 16711680%N in L2. change (N.shiftl 255 (8 * 3)) with 4278190080%N in L3.
  rewrite L0, L1, L2, L3. clear L0 L1 L2 L3. pose proof (byte_of_lt n 0). pose proof (byte_of_lt n 1). pose proof (byte_of_lt n 2). pose proof (byte_of_lt n 3).
  generalize dependent (byte_of n 0). generalize dependent (byte_of n 1). generalize dependent (byte_of n 2). generalize dependent (byte_of n 3).
  clear. intros d Hd c Hc b Hb a Ha. rewrite !N.shiftl_mul_pow2, !N.shiftr_div_pow2.
  change (2 ^ (8 * 0))%N with 1%N. change (2 ^ (8 * 1))%N with 256%N. change (2 ^ (8 * 2))%N with 65536%N. change (2 ^ (8 * 3))%N with 16777216%N.
  change (2 ^ 24)%N with 16777216%N. change (2 ^ 8)%N with 256%N.
  rewrite N.mul_1_r. rewrite (N.mod_small (a * 16777216)) by (unfold two32; lia). rewrite (N.mod_small (b * 256 * 256)) by (unfold two32; lia).
  replace (c * 65536 / 256)%N with (c * 256)%N by (change 65536%N with (256 * 256)%N; rewrite N.mul_assoc, N.div_mul; done).
  rewrite (N.div_mul d) by done.
  replace (b * 256 * 256)%N with (b * 2 ^ 16)%N by (change (2 ^ 16)%N with 65536%N; lia).
  replace (a * 16777216)%N with (a * 2 ^ 24)%N by (change (2 ^ 24)%N with 16777216%N; lia).
  rewrite (lor_disjoint a (b * 2 ^ 16)) by (change (2 ^ 16)%N with 65536%N; change (2 ^ 24)%N with 16777216%N; lia).
  replace (a * 2 ^ 24 + b * 2 ^ 16)%N with ((a * 256 + b) * 2 ^ 16)%N by (change (2 ^ 16)%N with 65536%N; change (2 ^ 24)%N with 16777216%N; lia).
  rewrite (lor_disjoint _ (c * 256)) by (change (2 ^ 16)%N with 65536%N; lia).
  replace ((a * 256 + b) * 2 ^ 16 + c * 256)%N with (((a * 256 + b) * 256 + c) * 2 ^ 8)%N by (change (2 ^ 16)%N with 65536%N; change (2 ^ 8)%N with 256%N; lia).
  rewrite lor_disjoint by (change (2 ^ 8)%N with 256%N; lia). done.
Qed.

Lemma bytes_big_endian a b c d : (a < 256)%N → (b < 256)%N → (c < 256)%N → (d < 256)%N →
  let n := big_endian a b c d in byte_of n 0 = d ∧ byte_of n 1 = c ∧ byte_of n 2 = b ∧ byte_of n 3 = a.
Proof.
  intros Ha Hb Hc Hd. cbv zeta. unfold big_endian, byte_of. rewrite !N.shiftr_div_pow2.
  change (2 ^ (8 * 0))%N with 1%N. change (2 ^ (8 * 1))%N with 256%N. change (2 ^ (8 * 2))%N with 65536%N. change (2 ^ (8 * 3))%N with 16777216%N.
  zify. Z.to_euclidean_division_equations. lia.
Qed.

Lemma word_of_bytes n : (n < two32)%N → big_endian (byte_of n 3) (byte_of n 2) (byte_of n 1) (byte_of n 0) = n.
Proof.
  unfold two32, big_endian, byte_of. intros Hn. rewrite !N.shiftr_div_pow2.
  change (2 ^ (8 * 0))%N with 1%N. change (2 ^ (8 * 1))%N with 256%N. change (2 ^ (8 * 2))%N with 65536%N. change (2 ^ (8 * 3))%N with 16777216%N.
  zify. Z.to_euclidean_division_equations. lia.
Qed.

Section addresses.
Context `{NetHost}.

Lemma parse_quad a b c d : (a < 256)%N → (b < 256)%N → (c < 256)%N → (d < 256)%N →
  parse_ip4 (itoa a +:+ "." +:+ itoa b +:+ "." +:+ itoa c +:+ "." +:+ itoa d) = Some (big_endian a b c d).
Proof.
  intros Ha Hb Hc Hd. unfold parse_ip4. rewrite split_dots by (by apply itoa_lacks). cbn [map].
  by rewrite !octet_itoa.
Qed.

(** Every printed address of four bytes is an address for the expression, in which a part
    may also have leading zeros. *)
Lemma ip_part_itoa n : (n < 256)%N → ip_part (itoa n) = true.
Proof.
  assert (forallb (λ n, ip_part (itoa n)) (map N.of_nat (seq 0 256)) = true) as Hall by (vm_compute; reflexivity).
  intros Hn. rewrite forallb_forall in Hall. apply (Hall n), in_map_iff. exists (N.to_nat n). split; [lia|]. apply in_seq. lia.
Qed.

Lemma regexp_of_word n : IPv4RegExp (ip4ToString n) = true.
Proof. unfold IPv4RegExp, ip4ToString. rewrite split_dots by (apply itoa_lacks; reflexivity). by rewrite !ip_part_itoa by apply byte_of_lt. Qed.

Lemma addresses_wanted ifaces l : GetIPv4Addresses ifaces = inl l →
  ∀ a, a ∈ l → wanted_address (ia_InterfaceName a) (ia_Ip a) = true
    ∧ ∃ addrs, (ia_InterfaceName a, inl addrs) ∈ ifaces ∧ ia_Ip a ∈ addrs.
Proof.
  revert l. induction ifaces as [|[name [addrs|e]] ifaces IH]; intros l; [intros [= <-] a Ha; by apply elem_of_nil in Ha| |done].
  cbn [GetIPv4Addresses]. destruct (GetIPv4Addresses ifaces) as [rest|]; [|done]. intros [= <-] a [Ha|Ha]%elem_of_app.
  - apply list_elem_of_fmap in Ha as (ip & -> & Hip). apply list_elem_of_In, filter_In in Hip as [Hin Hw]. cbn. split; [done|].
    exists addrs. split; [by left|by apply list_elem_of_In].
  - destruct (IH rest eq_refl a Ha) as (Hw & addrs' & Hi & Hip). split; [done|]. exists addrs'. split; [by right|done].
Qed.

(** The fallback never is an address of the loopback, of docker or of a virtual interface. *)
Lemma primary_address ifaces : let ip := GetPrimaryLANIP None ifaces in
  ip = "" ∨ ∃ name addrs, (name, inl addrs) ∈ ifaces ∧ ip ∈ addrs ∧ wanted_address name ip = true ∧ virtual_interface name = false.
Proof.
  cbv zeta. unfold GetPrimaryLANIP. destruct (GetIPv4Addresses ifaces) as [l|] eqn:E; [|by left].
  destruct (List.find _ l) as [a|] eqn:Ef; [|by left]. right. apply find_some in Ef as [Hin Hv].
  destruct (addresses_wanted ifaces l E a) as (Hw & addrs & Hi & Hip); [by apply list_elem_of_In|].
  exists (ia_InterfaceName a), addrs. split_and!; [done|done|done|]. by apply negb_true_iff.
Qed.

(** the name servers of a device survive the static configuration that is written for it:
    NetworkManager's words become dotted addresses, and writing these down gives the same
    words, whatever the addresses. *)
Theorem nameserver_roundtrip n : (n < two32)%N → ip2Long (ip4ToString n) = n.
Proof.
  intros Hn. unfold ip2Long, ip4ToString. rewrite parse_quad by apply byte_of_lt. cbn [default from_option id].
  rewrite swapUint32_bytes.
  destruct (bytes_big_endian (byte_of n 0) (byte_of n 1) (byte_of n 2) (byte_of n 3)) as (-> & -> & -> & ->); [apply byte_of_lt..|].
  by apply word_of_bytes.
Qed.

(** Reversing the bytes twice gives the word back. *)
Lemma swapUint32_involutive n : (n < two32)%N → swapUint32 (swapUint32 n) = n.
Proof.
  intros Hn. rewrite (swapUint32_bytes n), swapUint32_bytes.
  destruct (bytes_big_endian (byte_of n 0) (byte_of n 1) (byte_of n 2) (byte_of n 3)) as (-> & -> & -> & ->); [apply byte_of_lt..|].
  by apply word_of_bytes.
Qed.
End addresses.

Definition ex_net : NetHost := {| print_dicts := λ _, "[]"; mapped_ip4 := λ _, None |}.

Lemma nameserver_roundtrip_witness : let H := ex_net in ip2Long (ip4ToString 16820416) = 16820416%N ∧ ip4ToString 16820416 = "192.168.0.1".
Proof.
  assert (16820416 < two32)%N as Hn by done. split; [exact (@nameserver_roundtrip ex_net 16820416%N Hn)|vm_compute; reflexivity].
Defined.

(** ** Channels *)

(** in every band the channel of a frequency is the one of the standards: 1 to 13 and 14
    in the 2.4 GHz band, the numbers of the 5 GHz band below 6 GHz, and of the 6 GHz band. *)
Theorem channels_of_bands c :
  ((1 ≤ c ≤ 13)%N → freqToChannel (2407 + 5 * c) = c)
  ∧ freqToChannel 2484 = 14%N
  ∧ ((c ≤ 184)%N → freqToChannel (5000 + 5 * c) = c)
  ∧ ((1 ≤ c ≤ 233)%N → freqToChannel (5950 + 5 * c) = c).
Proof.
  unfold freqToChannel, sub32, two32. split_and!.
  - intros Hc. assert (c = 1 ∨ c = 2 ∨ c = 3 ∨ c = 4 ∨ c = 5 ∨ c = 6 ∨ c = 7 ∨ c = 8 ∨ c = 9 ∨ c = 10 ∨ c = 11 ∨ c = 12 ∨ c = 13)%N as Hcs by lia.
    repeat (destruct Hcs as [->|Hcs]; [reflexivity|]). by subst.
  - reflexivity.
  - intros Hc. replace ((5000 + 5 * c =? 2484)%N) with false by (symmetry; apply N.eqb_neq; lia).
    replace ((5000 + 5 * c <? 2484)%N) with false by (symmetry; apply N.ltb_ge; lia).
    replace ((5000 + 5 * c <=? 4980)%N) with false by (symmetry; apply N.leb_gt; lia). rewrite andb_false_r.
    replace ((5000 + 5 * c <? 5925)%N) with true by (symmetry; apply N.ltb_lt; lia).
    zify. Z.to_euclidean_division_equations. lia.
  - intros Hc. replace ((5950 + 5 * c =? 2484)%N) with false by (symmetry; apply N.eqb_neq; lia).
    replace ((5950 + 5 * c <? 2484)%N) with false by (symmetry; apply N.ltb_ge; lia).
    replace ((5950 + 5 * c <=? 4980)%N) with false by (symmetry; apply N.leb_gt; lia). rewrite andb_false_r.
    replace ((5950 + 5 * c <? 5925)%N) with false by (symmetry; apply N.ltb_ge; lia).
    replace ((5950 + 5 * c =? 5935)%N) with false by (symmetry; apply N.eqb_neq; lia).
    replace ((5950 + 5 * c <=? 45000)%N) with true by (symmetry; apply N.leb_le; lia).
    zify. Z.to_euclidean_division_equations. lia.
Qed.

(** A frequency that is not known, and one between the bands, wrap around. *)
Example channel_of_no_frequency : freqToChannel 0 = 858992977%N ∧ freqToChannel 5930 = 858993455%N.
Proof. split; vm_compute; reflexivity. Qed.

(** Networks that announce only WPA3 or WPA2-Enterprise have no known security. *)
Example unknown_security : security_of (8 + 128 + 1024) = SecurityUnknown ∧ security_of (8 + 128 + 512) = SecurityUnknown.
Proof. split; vm_compute; reflexivity. Qed.

(** ** Profiles *)

Lemma map_get_delete {A} k k' (m : list (string * A)) : map_get k' (map_delete k m) = if String.eqb k' k then None else map_get k' m.
Proof.
  induction m as [|[j v] m IH]; cbn [map_delete map_get]; [by destruct (String.eqb k' k)|].
  destruct (String.eqb_spec k j) as [->|Hk]; [rewrite IH|cbn [map_get]; rewrite IH].
  - destruct (String.eqb_spec k' j); done.
  - destruct (String.eqb_spec k' j) as [->|]; [|done]. destruct (String.eqb_spec j k); congruence.
Qed.

Lemma dget_set k k' v s : dget k' (map_set k v s) = if String.eqb k' k then v else dget k' s.
Proof. unfold dget. rewrite map_get_set. by destruct (String.eqb k' k). Qed.

Lemma dget_delete k k' s : dget k' (map_delete k s) = if String.eqb k' k then DNil else dget k' s.
Proof. unfold dget. rewrite map_get_delete. by destruct (String.eqb k' k). Qed.

Lemma dget_drop k k' s : dget k' (drop_key k s) = if String.eqb k' k then DNil else dget k' s.
Proof.
  unfold drop_key. destruct (String.eqb_spec k' k) as [->|Hne].
  - destruct (dget k s) eqn:E; [by rewrite E|..]; by rewrite dget_delete, String.eqb_refl.
  - destruct (dget k s); [done|..]; rewrite dget_delete; by rewrite (proj2 (String.eqb_neq _ _) Hne).
Qed.

Lemma section_set name name' c s : section_of name' (map_set name c s) = if String.eqb name' name then c else section_of name' s.
Proof. unfold section_of. rewrite map_get_set. by destruct (String.eqb name' name). Qed.

Lemma section_delete_in name k name' s :
  section_of name' (delete_in name k s) = if String.eqb name' name then map_delete k (section_of name s) else section_of name' s.
Proof.
  unfold delete_in. destruct (map_get name s) as [c|] eqn:E.
  - rewrite section_set. unfold section_of. by rewrite E.
  - destruct (String.eqb_spec name' name) as [->|]; [|done]. unfold section_of. by rewrite E.
Qed.

(** A setting of a profile. *)
Definition setting (name k : string) (s : settings) : dval := dget k (section_of name s).

Lemma setting_ipv4 f s k : setting "ipv4" k (set_ipv4 f s) = dget k (f (section_of "ipv4" s)).
Proof. unfold setting, set_ipv4. by rewrite section_set, String.eqb_refl. Qed.

Lemma setting_other f s name k : name ≠ "ipv4" → setting name k (set_ipv4 f s) = setting name k s.
Proof. intros Hn. unfold setting, set_ipv4. rewrite section_set. by rewrite (proj2 (String.eqb_neq _ _) Hn). Qed.

Lemma setting_no_ipv6 s name k : setting name k (no_ipv6 s) =
  if String.eqb name "ipv6" && (String.eqb k "addresses" || String.eqb k "routes") then DNil else setting name k s.
Proof.
  unfold setting, no_ipv6. rewrite section_delete_in. destruct (String.eqb_spec name "ipv6") as [->|Hn]; cbn [andb].
  - rewrite section_delete_in, String.eqb_refl, !dget_delete. destruct (String.eqb k "routes"), (String.eqb k "addresses"); done.
  - rewrite section_delete_in. by rewrite (proj2 (String.eqb_neq _ _) Hn).
Qed.

Section profiles.
Context `{NetHost}.

(** The settings of IPv4 that a static address decides. *)
Definition static_value (servers : option (string * list string)) (ip : string) (prefix : N) (k : string) : option dval :=
  if String.eqb k "method" then Some (DStr "manual")
  else if String.eqb k "address-data" then Some (DDicts [[("address", DStr ip); ("prefix", DU32 prefix)]])
  else if String.eqb k "addresses" then Some DNil
  else if String.eqb k "gateway" then Some (match servers with Some (g, _) => DStr g | None => DNil end)
  else if String.eqb k "dns" then Some (match servers with Some (_, d) => DU32s (map ip2Long d) | None => DNil end)
  else None.

Lemma static_section_get servers ip prefix c k :
  dget k (static_section servers ip prefix c) = default (dget k c) (static_value servers ip prefix k).
Proof.
  unfold static_section, static_value, current_servers. rewrite dget_set.
  destruct (String.eqb_spec k "address-data") as [->|H1]; [done|]. rewrite dget_set.
  destruct (String.eqb_spec k "method") as [->|H2]; [done|].
  destruct servers as [[g d]|]; rewrite ?dget_set, !dget_drop;
    destruct (String.eqb_spec k "dns") as [->|]; try done;
    destruct (String.eqb_spec k "gateway") as [->|]; try done;
    rewrite (proj2 (String.eqb_neq _ _) H1); by destruct (String.eqb_spec k "addresses") as [->|].
Qed.

Definition static_profile (servers : option (string * list string)) (ip : string) (prefix : N) (s : settings) : settings :=
  set_ipv4 (static_section servers ip prefix) (no_ipv6 s).
Definition dhcp_profile (s : settings) : settings := set_ipv4 dhcp_section (no_ipv6 s).

(** C32: what a static address makes of a profile, setting by setting: the address, the method
    and the servers the device uses are written, the settings that would contradict them are
    gone, and everything else is as it was, except that the static addresses and routes of
    IPv6 are lost. *)
Theorem static_address_profile servers ip prefix s name k :
  setting name k (static_profile servers ip prefix s) =
    if String.eqb name "ipv4" then default (setting "ipv4" k s) (static_value servers ip prefix k)
    else if String.eqb name "ipv6" && (String.eqb k "addresses" || String.eqb k "routes") then DNil
    else setting name k s.
Proof.
  unfold static_profile. destruct (String.eqb_spec name "ipv4") as [->|Hn].
  - rewrite setting_ipv4, static_section_get. f_equal. apply (setting_no_ipv6 s "ipv4" k).
  - rewrite setting_other by done. apply setting_no_ipv6.
Qed.

Lemma dhcp_section_get c k : dget k (dhcp_section c) =
  if String.eqb k "method" then DStr "auto"
  else if String.eqb k "addresses" || String.eqb k "address-data" || String.eqb k "gateway" then DNil else dget k c.
Proof.
  unfold dhcp_section. rewrite dget_set. destruct (String.eqb k "method"); [done|]. rewrite !dget_drop.
  by destruct (String.eqb k "gateway"), (String.eqb k "address-data"), (String.eqb k "addresses").
Qed.

(** going back to DHCP after a static address removes the address and the gateway, but
    leaves the name servers that the static configuration had fixed. *)
Theorem dhcp_after_static gateway dns ip prefix s :
  let s' := dhcp_profile (static_profile (Some (gateway, dns)) ip prefix s) in
  setting "ipv4" "method" s' = DStr "auto" ∧ setting "ipv4" "address-data" s' = DNil ∧ setting "ipv4" "addresses" s' = DNil
  ∧ setting "ipv4" "gateway" s' = DNil ∧ setting "ipv4" "dns" s' = DU32s (map ip2Long dns).
Proof.
  cbv zeta. unfold dhcp_profile. rewrite !setting_ipv4, !dhcp_section_get. cbn [String.eqb]. split_and!; try reflexivity.
  change (dget "dns" (section_of "ipv4" (no_ipv6 (static_profile (Some (gateway, dns)) ip prefix s)))) with
    (setting "ipv4" "dns" (no_ipv6 (static_profile (Some (gateway, dns)) ip prefix s))).
  by rewrite setting_no_ipv6, static_address_profile.
Qed.

(** ** Which networks are listed *)

Lemma add_saved_listed l s ssid : listed ssid l = true → listed ssid (add_saved l s) = true.
Proof.
  intros Hl. unfold add_saved. destruct (saved_ssid s) as [x|]; [|done]. destruct (listed x l); [done|].
  unfold listed in *. by rewrite existsb_app, Hl.
Qed.

Lemma add_saved_adds l s ssid : saved_ssid s = Some ssid → listed ssid (add_saved l s) = true.
Proof.
  intros Hs. unfold add_saved. rewrite Hs. destruct (listed ssid l) eqn:E; [done|]. unfold listed. rewrite existsb_app. cbn.
  unfold connectionSettingsToWifi. cbn. by rewrite Hs, String.eqb_refl, orb_true_r.
Qed.

Lemma fold_saved_listed all : ∀ l ssid, listed ssid l = true → listed ssid (foldl add_saved l all) = true.
Proof. induction all as [|s all IH]; intros l ssid Hl; [done|]. cbn. by apply IH, add_saved_listed. Qed.

(** the list of networks is the access points in sight, as they were found, followed by
    every saved network that is not in sight, once each and marked as known. *)
Theorem saved_networks_listed all : ∀ wifis, ∃ extra, foldl add_saved wifis all = (wifis ++ extra)%list
  ∧ (∀ s ssid, s ∈ all → saved_ssid s = Some ssid → listed ssid (foldl add_saved wifis all) = true)
  ∧ NoDup (wf_SSID <$> extra)
  ∧ Forall (λ w, wf_Known w = true ∧ listed (wf_SSID w) wifis = false ∧ ∃ s, s ∈ all ∧ saved_ssid s = Some (wf_SSID w)) extra.
Proof.
  induction all as [|s all IH]; intros wifis.
  - exists []. rewrite app_nil_r. split_and!; [done|by intros ? ? ?%elem_of_nil|constructor|constructor].
  - cbn [foldl]. destruct (IH (add_saved wifis s)) as (extra & -> & Hall & Hnd & Hf).
    assert (∀ s' ssid, s' ∈ s :: all → saved_ssid s' = Some ssid → listed ssid (add_saved wifis s ++ extra)%list = true) as Hin.
    { intros s' ssid [->|Hs]%elem_of_cons Hid; [|by eapply Hall]. unfold listed. rewrite existsb_app.
      pose proof (add_saved_adds wifis s ssid Hid) as Ha. unfold listed in Ha. by rewrite Ha. }
    unfold add_saved in *. destruct (saved_ssid s) as [ssid|] eqn:Es; [destruct (listed ssid wifis) eqn:El|].
    1, 3: exists extra; split_and!; [done|exact Hin|done|]; eapply Forall_impl; [exact Hf|];
      intros w (? & ? & s' & ? & ?); split_and!; [done|done|]; exists s'; split; [by right|done].
    exists (connectionSettingsToWifi s :: extra). rewrite <- app_assoc in *. split_and!; [done|exact Hin| |].
    + cbn [fmap list_fmap]. apply NoDup_cons. split; [|done]. intros Hx. apply list_elem_of_fmap in Hx as (w & Hw & Hwin).
      rewrite Forall_forall in Hf. destruct (Hf w Hwin) as (_ & Hnot & _). unfold listed in Hnot. rewrite existsb_app in Hnot.
      apply orb_false_elim in Hnot as [_ Hnot]. cbn in Hnot. rewrite <- Hw in Hnot. unfold connectionSettingsToWifi in Hnot. cbn in Hnot.
      by rewrite Es, String.eqb_refl in Hnot.
    + constructor.
      * unfold connectionSettingsToWifi. cbn. rewrite Es. split_and!; [done|done|]. exists s. split; [by left|done].
      * eapply Forall_impl; [exact Hf|]. intros w (? & Hnot & s' & ? & ?). split_and!; [done| |exists s'; split; [by right|done]].
        unfold listed in *. rewrite existsb_app in Hnot. by apply orb_false_elim in Hnot as [? _].
Qed.
End profiles.

(** ** Profiles that never give up *)

Lemma setting_with_retries s name k : setting name k (with_retries s) =
  if String.eqb name "connection" && String.eqb k "autoconnect-retries" then DI32 0 else setting name k s.
Proof.
  unfold setting, with_retries. rewrite section_set. destruct (String.eqb_spec name "connection") as [->|]; [|done].
  cbn [andb]. by rewrite dget_set.
Qed.

(** The updates of profiles in a log, oldest first. *)
Fixpoint updates (l : list (@event DbusCall unit)) : list (string * settings) :=
  match l with
  | [] => []
  | Ev (CallUpdate c s) _ _ :: l => (updates l ++ [(c, s)])%list
  | _ :: l => updates l
  end.

Section retries.
Context `{NetHost}.
Variables (en : bus_env) (conns : list string) (profile : string → settings + error).

(** The profiles the bus answers with; an update may fail. *)
Definition serves_profiles : Prop :=
  (∀ lg, answer en _ (CallPaths "/org/freedesktop/NetworkManager/Settings" "ListConnections") lg = inl conns)
  ∧ (∀ p lg, answer en _ (BusObject p) lg = inl tt)
  ∧ (∀ c lg, answer en _ (CallGetSettings c) lg = profile c).
Hypothesis Hserves : serves_profiles.
#[local] Set Default Proof Using "Type*".

(** The profiles to change, as they are to be. *)
Fixpoint wanted (l : list string) : list (string * settings) :=
  match l with
  | [] => []
  | c :: l => match profile c with
              | inl s => if needs_retries s then (c, with_retries s) :: wanted l else wanted l
              | inr _ => wanted l
              end
  end.

Lemma bus_call {T} (c : DbusCall T) st : ∃ st', call c en st = (Ok (answer en T c (log st)), st')
  ∧ log st' = Ev c (answer en T c (log st)) (world st) :: log st.
Proof. by eexists. Qed.

Lemma new_object_ok p st : ∃ st', new_object p en st = (Ok p, st') ∧ updates (log st') = updates (log st).
Proof.
  destruct Hserves as (_ & Ho & _). unfold new_object, callE, bind. destruct (bus_call (BusObject p) st) as (st' & -> & Hl).
  rewrite Ho. exists st'. split; [done|]. by rewrite Hl.
Qed.

Lemma new_objects_ok l : ∀ st, ∃ st', new_objects l en st = (Ok l, st') ∧ updates (log st') = updates (log st).
Proof.
  induction l as [|p l IH]; intros st; [by exists st|]. unfold new_objects in *. cbn [map_m]. unfold bind.
  destruct (new_object_ok p st) as (st1 & -> & H1). destruct (IH st1) as (st2 & -> & H2). exists st2. split; [done|]. by rewrite H2, H1.
Qed.

Definition retry_profile (c : string) : Bus unit :=
  let! s := try_ (GetSettings c) in
  match s with
  | inr _ => ret tt
  | inl s => when (needs_retries s) (call (CallUpdate c (with_retries s));; ret tt)
  end.

Lemma retry_profile_ok c st : ∃ st', retry_profile c en st = (Ok tt, st') ∧ updates (log st') = (updates (log st) ++ wanted [c])%list.
Proof.
  destruct Hserves as (_ & _ & Hg). unfold retry_profile, GetSettings, callE, try_, bind, lift.
  destruct (bus_call (CallGetSettings c) st) as (st1 & -> & H1). rewrite Hg. cbn [wanted]. destruct (profile c) as [s|e]; cbn [ret throw].
  - destruct (needs_retries s); cbn [when].
    + unfold bind. destruct (bus_call (CallUpdate c (with_retries s)) st1) as (st2 & -> & H2). exists st2. split; [done|].
      rewrite H2. cbn [updates]. by rewrite H1.
    + exists st1. split; [done|]. rewrite H1. by rewrite app_nil_r.
  - exists st1. split; [done|]. rewrite H1. by rewrite app_nil_r.
Qed.

Lemma wanted_app l c : wanted (c :: l) = (wanted [c] ++ wanted l)%list.
Proof using Type. cbn. destruct (profile c) as [s|]; [|done]. by destruct (needs_retries s). Qed.

Lemma retry_all l : ∀ st, ∃ st', for_each l retry_profile en st = (Ok tt, st') ∧ updates (log st') = (updates (log st) ++ wanted l)%list.
Proof.
  induction l as [|c l IH]; intros st; [exists st; by rewrite app_nil_r|]. cbn [for_each]. unfold bind.
  destruct (retry_profile_ok c st) as (st1 & -> & H1). destruct (IH st1) as (st2 & -> & H2). exists st2. split; [done|].
  by rewrite H2, H1, (wanted_app l c), app_assoc.
Qed.

(** making the profiles retry for ever updates each ethernet and WiFi profile that would
    give up, once, with nothing changed but the number of retries, and no other; profiles
    that cannot be read and updates that fail do not keep the rest from it. *)
Theorem infinite_retries st : ∃ st', SetInfiniteAutoconnectRetries en st = (Ok tt, st')
  ∧ updates (log st') = (updates (log st) ++ wanted conns)%list
  ∧ ∀ c s, (c, s) ∈ wanted conns → ∃ s0, profile c = inl s0 ∧ needs_retries s0 = true
      ∧ ∀ name k, setting name k s = if String.eqb name "connection" && String.eqb k "autoconnect-retries" then DI32 0 else setting name k s0.
Proof.
  destruct Hserves as (Hl & _ & _). unfold SetInfiniteAutoconnectRetries, ListConnections, callE, bind, lift.
  destruct (bus_call (CallPaths "/org/freedesktop/NetworkManager/Settings" "ListConnections") st) as (st1 & -> & H1). rewrite Hl. cbn [ret].
  destruct (new_objects_ok conns st1) as (st2 & -> & H2). destruct (retry_all conns st2) as (st3 & E & H3).
  exists st3. split; [exact E|]. split; [by rewrite H3, H2, H1|]. clear. induction conns as [|c' l IH]; intros c s; [by intros ?%elem_of_nil|].
  rewrite wanted_app. intros [Hin|Hin]%elem_of_app; [|by apply IH]. cbn in Hin. destruct (profile c') as [s0|] eqn:Ep; [|by apply elem_of_nil in Hin].
  destruct (needs_retries s0) eqn:En; [|by apply elem_of_nil in Hin]. apply list_elem_of_singleton in Hin as [= -> ->].
  exists s0. split; [done|]. split; [done|]. apply setting_with_retries.
Qed.
End retries.

(** ** A device with one wired port *)

(** One wired device, its profile with static addresses of its own, and a profile that cannot
    be read. *)
Definition ex_profile : settings :=
  [("connection", [("id", DStr "eth"); ("type", DStr "802-3-ethernet"); ("interface-name", DStr "eth0")]);
   ("ipv4", [("method", DStr "auto")]); ("ipv6", [("method", DStr "manual"); ("addresses", DStrs ["2001:db8::1"])])].
Definition ex_profiles (c : string) : settings + error :=
  if String.eqb c "/c/1" then inl ex_profile else inr (Plain "no such object").

Definition one_port (T : Type) (c : DbusCall T) (_ : list (@event DbusCall unit)) : T :=
  match c in DbusCall T return T with
  | BusObject _ => inl tt
  | GetProp p prop =>
      if String.eqb prop "Device.DeviceType" then inl (DU32 1)
      else if String.eqb prop "Device.Wired.HwAddress" then inl (DStr "aa:bb:cc:dd:ee:ff")
      else if String.eqb prop "Device.ActiveConnection" then inl (DPath "/")
      else if String.eqb prop "Device.Ip4Config" then inl (DPath "/")
      else inr (Plain "no such property")
  | CallPaths _ m => if String.eqb m "ListConnections" then inl ["/c/0"; "/c/1"] else inl ["/d/1"]
  | CallUnit _ _ => inl tt
  | CallGetSettings c => if String.eqb c "/c/0" then inl [] else ex_profiles c
  | CallUpdate _ _ => inl tt
  | CallAddConnection _ => inl "/c/2"
  | CallActivate _ _ _ => inl "/a/1"
  | GoActivate _ _ => tt
  | CallMethod _ _ _ => inr (Plain "no such method")
  | CallAddAndActivate _ _ _ => inl ("/c/2", "/a/1")
  | CallRollback _ => inl []
  | GetDictProp _ _ => inl None
  | CallGetSecrets _ _ => inl []
  | ScanDeadlinePassed => false
  | SleepMs _ => tt
  end.
Definition one_port_env : bus_env := {| answer := one_port; interfere := λ _ s, s |}.
Definition idle_bus : bus_state := mk_state tt [].

(** A static address for a hardware address that no device has asks a nil device for its
    addresses; DHCP can be enabled there. *)
Example unmatched_device_panics :
  (@SetIPv4Address ex_net "00:00:00:00:00:00" "eth0" "10.0.0.2" 24 one_port_env idle_bus).1 = Panic
  ∧ (@SetIPv4Address ex_net "aa:bb:cc:dd:ee:ff" "eth0" "10.0.0.2" 24 one_port_env idle_bus).1 = Ok tt
  ∧ (@EnableDHCP ex_net "00:00:00:00:00:00" "eth0" one_port_env idle_bus).1 = Ok tt.
Proof. split_and!; vm_compute; reflexivity. Qed.

(** The profile's own IPv6 addresses are gone once its IPv4 address was set. *)
Example ipv6_addresses_lost :
  match updates (log (@SetIPv4Address ex_net "aa:bb:cc:dd:ee:ff" "eth0" "10.0.0.2" 24 one_port_env idle_bus).2) with
  | [(c, s)] => c = "/c/1" ∧ setting "ipv6" "method" s = DStr "manual" ∧ setting "ipv6" "addresses" s = DNil
  | _ => False
  end.
Proof. vm_compute. done. Qed.

Definition ex_retry_env : bus_env :=
  {| answer := λ T c lg, match c in DbusCall T return T with CallGetSettings c => ex_profiles c | c => one_port _ c lg end; interfere := λ _ s, s |}.

Lemma infinite_retries_witness : ∃ st', @SetInfiniteAutoconnectRetries ex_net ex_retry_env idle_bus = (Ok tt, st')
  ∧ updates (log st') = [("/c/1", with_retries ex_profile)].
Proof.
  assert (serves_profiles ex_retry_env ["/c/0"; "/c/1"] ex_profiles) as Hs by (split; [done|split; done]).
  destruct (@infinite_retries ex_net ex_retry_env ["/c/0"; "/c/1"] ex_profiles Hs idle_bus) as (st' & E & Hu & _).
  exists st'. split; [exact E|exact Hu].
Defined.

(** ** Scans that are refused *)

(** A WiFi device whose scans are always refused for their rate. *)
Definition refusing (T : Type) (c : DbusCall T) (lg : list (@event DbusCall unit)) : T :=
  match c in DbusCall T return T with
  | GetProp p prop =>
      if String.eqb prop "Device.DeviceType" then inl (DU32 2)
      else if String.eqb prop "Device.Wireless.LastScan" then inl (DI64 5)
      else if String.eqb prop "ActiveConnections" then inl (DPaths ["/a/1"])
      else if String.eqb prop "Connection.Active.Devices" then inl (DPaths ["/d/1"])
      else inr (Plain "no such property")
  | CallUnit _ _ => inr (Plain "Scanning not allowed immediately following previous scan")
  | ScanDeadlinePassed => true
  | c => one_port _ c lg
  end.
Definition refusing_env : bus_env := {| answer := refusing; interfere := λ _ s, s |}.

(** Each refusal starts over with a deadline of its own: however long, the scan neither
    finishes nor runs into its timeout. *)
Lemma refused_scan_never_ends retries turns st : (Scan retries turns refusing_env st).1 = Hang.
Proof.
  revert st. induction retries as [|retries IH]; intros st; [reflexivity|]. cbn [Scan]. unfold bind.
  assert ((getWirelessDevice refusing_env st).1 = Ok "/d/1") as E by (vm_compute; reflexivity).
  destruct (getWirelessDevice refusing_env st) as [o st1]. cbn [fst] in E. subst o.
  assert ((GetPropertyLastScan "/d/1" refusing_env st1).1 = Ok 5%Z) as E by (vm_compute; reflexivity).
  destruct (GetPropertyLastScan "/d/1" refusing_env st1) as [o st2]. cbn [fst] in E. subst o.
  assert ((RequestScan "/d/1" refusing_env st2).1 = Ok true) as E by (vm_compute; reflexivity).
  destruct (RequestScan "/d/1" refusing_env st2) as [o st3]. cbn [fst] in E. subst o. apply IH.
Qed.

(** ** The rest of the bindings *)

(** A checkpoint is asked for all devices, whichever were named. *)
Lemma checkpoint_forgets_devices devices timeout flags en st :
  CheckpointCreate devices timeout flags en st = CheckpointCreate [] timeout flags en st.
Proof. reflexivity. Qed.

Definition known_attribute (kv : string * dval) : Prop :=
  match kv with
  | (k, DStr _) => k = "dest" ∨ k = "next-hop"
  | (k, DU32 _) => k = "prefix" ∨ k = "metric"
  | _ => False
  end.

Lemma known_attribute_ok k v r : (∃ r', route_attribute k v r = Ok r') ↔ known_attribute (k, v).
Proof.
  unfold route_attribute, known_attribute.
  destruct (String.eqb_spec k "dest") as [->|]; [|destruct (String.eqb_spec k "prefix") as [->|]; [|destruct (String.eqb_spec k "next-hop") as [->|];
    [|destruct (String.eqb_spec k "metric") as [->|]]]]; destruct v; split; try (intros [r' Hr]; discriminate); try tauto; try (intros; eexists; reflexivity);
    try (intros [Hd|Hd]; discriminate); by auto.
Qed.

Lemma known_attributes_ok attributes : ∀ r, (∃ r', route_attributes attributes r = Ok r') ↔ Forall known_attribute attributes.
Proof.
  induction attributes as [|[k v] attributes IH]; intros r; cbn; [split; [constructor|by exists r]|]. rewrite Forall_cons, <- (known_attribute_ok k v r).
  destruct (route_attribute k v r) as [r1|e| |]; cbn.
  - rewrite (IH r1). split; [by eauto|by intros [_ ?]].
  - split; [by intros [? ?]|by intros [[? ?] ?]].
  - split; [by intros [? ?]|by intros [[? ?] ?]].
  - split; [by intros [? ?]|by intros [[? ?] ?]].
Qed.

(** The routes of a device are told exactly when none has an attribute besides the four, of
    their types; and then as many empty ones come before them. *)
Theorem route_data_told_iff data : (∃ l, route_data data = Ok l) ↔ Forall (Forall known_attribute) data.
Proof.
  unfold route_data. assert ((∃ l, routes_of data = Ok l) ↔ Forall (Forall known_attribute) data) as <-.
  - induction data as [|d data IH]; cbn; [split; [constructor|by exists []]|]. rewrite Forall_cons, <- IH, <- (known_attributes_ok d no_route).
    destruct (route_attributes d no_route) as [r|e| |]; [|split; [by intros [? ?]|by intros [[? ?] ?]]..].
    destruct (routes_of data) as [l|e| |]; cbn; split; try (by intros [? ?]); try (by intros [_ [? ?]]); by eauto.
  - destruct (routes_of data) as [l|e| |]; split; try (by intros [? ?]); by eauto.
Qed.

Lemma route_data_padded data l : route_data data = Ok l → ∃ routes, l = (replicate (length data) no_route ++ routes)%list ∧ length routes = length data.
Proof.
  unfold route_data. intros H. assert (∀ r, routes_of data = Ok r → length r = length data) as Hl.
  { clear H. induction data as [|d data IH]; cbn; intros r Hr; [by injection Hr as <-|]. destruct (route_attributes d no_route); [|done..].
    destruct (routes_of data) as [rs|e| |]; [|done..]. injection Hr as <-. cbn. f_equal. by apply IH. }
  destruct (routes_of data) as [r|e| |]; [|done..]. injection H as <-. exists r. split; [done|by apply Hl].
Qed.

(** The metric of a WiFi route, 600, is told as 88. *)
Example metric_truncated : route_data [[("dest", DStr "10.0.0.0"); ("prefix", DU32 24); ("metric", DU32 600)]]
  = Ok [no_route; {| rd_Destination := "10.0.0.0"; rd_Prefix := 24; rd_NextHop := ""; rd_Metric := 88 |}].
Proof. reflexivity. Qed.

(** A route of a table of its own. *)
Example foreign_attribute_panics : route_data [[("dest", DStr "10.0.0.0"); ("table", DU32 254)]] = Panic.
Proof. reflexivity. Qed.

Example absent_device_paths en st :
  ActivateConnection "/c/1" None "/" en st = (let! p := callE (CallActivate "/c/1" "/" "/") in new_object p) en st
  ∧ AddAndActivateConnection [] None en st = (let! r := callE (CallAddAndActivate [] "" "/") in new_object r.2) en st.
Proof. split; reflexivity. Qed.

(** The change of state of this connection that an event tells, and the events that do not end
    the goroutine. *)
Definition ours (ac : string) (e : watch_event) : option (N * N) :=
  match e with
  | SignalOf path name (DU32 s :: DU32 r :: _) => if String.eqb path ac && String.eqb name state_changed then Some (s, r) else None
  | _ => None
  end.
Definition readable (ac : string) (e : watch_event) : bool :=
  match e with
  | SignalOf path name body => if String.eqb path ac && String.eqb name state_changed then match body with DU32 _ :: DU32 _ :: _ => true | _ => false end else true
  | ChannelClosed | ExitAsked => false
  end.

(** A watched connection reports exactly its own changes, in their order. *)
Theorem watched_states ac es : Forall (λ e, readable ac e = true) es → watch_states ac es = (omap (ours ac) es, Watching).
Proof.
  induction 1 as [|e es He Hes IH]; [done|]. destruct e as [path name body| |]; [|done..]. cbn in *.
  destruct (String.eqb path ac), (String.eqb name state_changed); cbn in *; try (rewrite IH; by destruct body as [|[] [|[] ?]]).
Qed.
