(* ===== verification/ContainerTerminals.v ===== *)
(** * Terminals of containers (src/src/terminal/docker_term.go)

    A terminal session is a shell executed in a container, whose input comes from a topic and
    whose output goes to one.  The pure parts are plain functions; the goroutines of the
    sessions are a step relation over shared session objects and the map of the active ones. *)
From S2P Require Import Prelude Errdefs GoValue Common WampValues.
#[local] Open Scope list_scope.

(** ** Shells, topics and arguments *)

Definition supportedShells : list string := ["/bin/zsh"; "/bin/bash"].
Definition defaultShell : string := "/bin/sh".

Definition CR : ascii := Ascii.ascii_of_nat 13.
Definition LF : ascii := Ascii.ascii_of_nat 10.

(** A line without the one carriage return that belongs to its line break. *)
Fixpoint chop_cr (s : string) : string :=
  match s with
  | EmptyString => EmptyString
  | String a EmptyString => if Ascii.eqb a CR then EmptyString else s
  | String a s => String a (chop_cr s)
  end.

(** [regexp.MustCompile("\r?\n").Split]: the last piece has no line break. *)
Fixpoint chop_lines (l : list string) : list string :=
  match l with
  | [] => []
  | [s] => [s]
  | s :: l => chop_cr s :: chop_lines l
  end.
Definition shell_lines (text : string) : list string := chop_lines (split_on LF text).

Definition supported (shell : string) : bool := existsb (String.eqb shell) supportedShells.

(** The shell for what [cat /etc/shells] printed, or why it could not be read. *)
Definition getShell (etcShells : string + error) : string + error :=
  match etcShells with
  | inr e => inr e
  | inl text => inl (match List.find supported (shell_lines text) with Some shell => shell | None => defaultShell end)
  end.

Definition session_topic (serialNumber kind containerName sessionID : string) : string :=
  BuildExternalApiTopic serialNumber (kind +:+ "." +:+ containerName +:+ "." +:+ sessionID).
Definition DataTopic (serialNumber containerName sessionID : string) : string := session_topic serialNumber "term_data" containerName sessionID.
Definition WriteTopic (serialNumber containerName sessionID : string) : string := session_topic serialNumber "term_write" containerName sessionID.
Definition ResizeTopic (serialNumber containerName sessionID : string) : string := session_topic serialNumber "term_resize" containerName sessionID.

(** A handler that indexes its arguments blindly panics ([None]) when there are none. *)
Definition session_write_argument (args : list wval) : option (string + error) :=
  match args with
  | [] => None
  | a :: _ => Some (match as_string a with Some data => inl data | None => inr (Plain "failed to parse args") end)
  end.

(** Only unsigned integers are taken, of any size, zero included. *)
Definition session_resize_argument (args : list wval) : option (N * N + error) :=
  match args with
  | [] => None
  | a :: _ => Some (
      match as_plain_map a with
      | None => inr (Plain "failed to parse args")
      | Some payload =>
          match wget "height" payload with
          | WU64 height =>
              match wget "width" payload with
              | WU64 width => inl (height, width)
              | _ => inr (Plain "failed to parse width")
              end
          | _ => inr (Plain "failed to parse height")
          end
      end)
  end.

(** ** Sessions *)

Definition input_cap : nat := 5.
Definition error_cap : nat := 2.

(** Where a goroutine stands. *)
Inductive writer := WReceive | WWrite (data : string) | WReport | WDone | WPanic.
Inductive reader := RRead | RPublish (data : string) | RReport | RDone | RPanic.
Inductive cleaner := CCheck | CClose | CAnnounce | CUnregister | CUnsubscribe | CEvict | CDone.
Inductive handler := HSend (data : string) | HDone | HPanic.

Record Threads := {
  th_writers : list writer; th_readers : list reader; th_cleaners : list cleaner; th_handlers : list handler;
}.

(** The channels and the connection to the shell. *)
Record Channels := { ch_input : list string; ch_errors : nat; ch_closed : bool; ch_conn : bool }.

(** What went through: delivered by the topic, accepted by the channel, written to the shell,
    published, and how often the end was announced. *)
Record Traffic := { tr_delivered : list string; tr_accepted : list string; tr_written : list string; tr_published : list string; tr_announced : nat }.

Record TerminalSession := {
  ts_SessionID : string; ts_ContainerName : string; ts_RegistrationID : N;
  ts_threads : Threads; ts_channels : Channels; ts_traffic : Traffic;
}.

Definition on_threads (f : Threads → Threads) (s : TerminalSession) : TerminalSession :=
  {| ts_SessionID := ts_SessionID s; ts_ContainerName := ts_ContainerName s; ts_RegistrationID := ts_RegistrationID s;
     ts_threads := f (ts_threads s); ts_channels := ts_channels s; ts_traffic := ts_traffic s |}.
Definition on_channels (f : Channels → Channels) (s : TerminalSession) : TerminalSession :=
  {| ts_SessionID := ts_SessionID s; ts_ContainerName := ts_ContainerName s; ts_RegistrationID := ts_RegistrationID s;
     ts_threads := ts_threads s; ts_channels := f (ts_channels s); ts_traffic := ts_traffic s |}.
Definition on_traffic (f : Traffic → Traffic) (s : TerminalSession) : TerminalSession :=
  {| ts_SessionID := ts_SessionID s; ts_ContainerName := ts_ContainerName s; ts_RegistrationID := ts_RegistrationID s;
     ts_threads := ts_threads s; ts_channels := ts_channels s; ts_traffic := f (ts_traffic s) |}.
Definition set_registration (id : N) (s : TerminalSession) : TerminalSession :=
  {| ts_SessionID := ts_SessionID s; ts_ContainerName := ts_ContainerName s; ts_RegistrationID := id;
     ts_threads := ts_threads s; ts_channels := ts_channels s; ts_traffic := ts_traffic s |}.

Definition writer_at (i : nat) (x : writer) : TerminalSession → TerminalSession := on_threads (λ t,
  {| th_writers := <[i := x]> (th_writers t); th_readers := th_readers t; th_cleaners := th_cleaners t; th_handlers := th_handlers t |}).
Definition reader_at (i : nat) (x : reader) : TerminalSession → TerminalSession := on_threads (λ t,
  {| th_writers := th_writers t; th_readers := <[i := x]> (th_readers t); th_cleaners := th_cleaners t; th_handlers := th_handlers t |}).
Definition cleaner_at (i : nat) (x : cleaner) : TerminalSession → TerminalSession := on_threads (λ t,
  {| th_writers := th_writers t; th_readers := th_readers t; th_cleaners := <[i := x]> (th_cleaners t); th_handlers := th_handlers t |}).
Definition handler_at (i : nat) (x : handler) : TerminalSession → TerminalSession := on_threads (λ t,
  {| th_writers := th_writers t; th_readers := th_readers t; th_cleaners := th_cleaners t; th_handlers := <[i := x]> (th_handlers t) |}).
(** The two goroutines of a start. *)
Definition spawn_io : TerminalSession → TerminalSession := on_threads (λ t,
  {| th_writers := th_writers t ++ [WReceive]; th_readers := th_readers t ++ [RRead]; th_cleaners := th_cleaners t; th_handlers := th_handlers t |}).
Definition spawn_cleaner : TerminalSession → TerminalSession := on_threads (λ t,
  {| th_writers := th_writers t; th_readers := th_readers t; th_cleaners := th_cleaners t ++ [CCheck]; th_handlers := th_handlers t |}).

Definition set_input (l : list string) : TerminalSession → TerminalSession := on_channels (λ c,
  {| ch_input := l; ch_errors := ch_errors c; ch_closed := ch_closed c; ch_conn := ch_conn c |}).
Definition put_error : TerminalSession → TerminalSession := on_channels (λ c,
  {| ch_input := ch_input c; ch_errors := S (ch_errors c); ch_closed := ch_closed c; ch_conn := ch_conn c |}).
(** [Close]: both channels, once. *)
Definition Close : TerminalSession → TerminalSession := on_channels (λ c,
  {| ch_input := ch_input c; ch_errors := ch_errors c; ch_closed := true; ch_conn := ch_conn c |}).
(** [Session.Conn.Close()]. *)
Definition close_conn : TerminalSession → TerminalSession := on_channels (λ c,
  {| ch_input := ch_input c; ch_errors := ch_errors c; ch_closed := ch_closed c; ch_conn := false |}).

(** An event of the write topic: its handler is called. *)
Definition spawn_handler (data : string) (s : TerminalSession) : TerminalSession := on_traffic (λ t,
  {| tr_delivered := tr_delivered t ++ [data]; tr_accepted := tr_accepted t; tr_written := tr_written t; tr_published := tr_published t;
     tr_announced := tr_announced t |}) (on_threads (λ t,
  {| th_writers := th_writers t; th_readers := th_readers t; th_cleaners := th_cleaners t; th_handlers := th_handlers t ++ [HSend data] |}) s).

Definition accept (data : string) : TerminalSession → TerminalSession := on_traffic (λ t,
  {| tr_delivered := tr_delivered t; tr_accepted := tr_accepted t ++ [data]; tr_written := tr_written t; tr_published := tr_published t; tr_announced := tr_announced t |}).
Definition wrote (data : string) : TerminalSession → TerminalSession := on_traffic (λ t,
  {| tr_delivered := tr_delivered t; tr_accepted := tr_accepted t; tr_written := tr_written t ++ [data]; tr_published := tr_published t; tr_announced := tr_announced t |}).
Definition published (data : string) : TerminalSession → TerminalSession := on_traffic (λ t,
  {| tr_delivered := tr_delivered t; tr_accepted := tr_accepted t; tr_written := tr_written t; tr_published := tr_published t ++ [data]; tr_announced := tr_announced t |}).
(** The goroutine that publishes [TERMINAL_EOF] was started. *)
Definition announce : TerminalSession → TerminalSession := on_traffic (λ t,
  {| tr_delivered := tr_delivered t; tr_accepted := tr_accepted t; tr_written := tr_written t; tr_published := tr_published t; tr_announced := S (tr_announced t) |}).

Definition input (s : TerminalSession) : list string := ch_input (ts_channels s).
Definition errors (s : TerminalSession) : nat := ch_errors (ts_channels s).
Definition closed (s : TerminalSession) : bool := ch_closed (ts_channels s).
Definition conn (s : TerminalSession) : bool := ch_conn (ts_channels s).
Definition writers (s : TerminalSession) : list writer := th_writers (ts_threads s).
Definition readers (s : TerminalSession) : list reader := th_readers (ts_threads s).
Definition cleaners (s : TerminalSession) : list cleaner := th_cleaners (ts_threads s).
Definition handlers (s : TerminalSession) : list handler := th_handlers (ts_threads s).

Definition NewSession (containerName sessionID : string) : TerminalSession :=
  {| ts_SessionID := sessionID; ts_ContainerName := containerName; ts_RegistrationID := 0;
     ts_threads := {| th_writers := []; th_readers := []; th_cleaners := []; th_handlers := [] |};
     ts_channels := {| ch_input := []; ch_errors := 0; ch_closed := false; ch_conn := true |};
     ts_traffic := {| tr_delivered := []; tr_accepted := []; tr_written := []; tr_published := []; tr_announced := 0 |} |}.

(** What the read loop does with the error that ends it. *)
Inductive ending := EndCleanup | EndReport | EndQuiet.
Definition reader_end (err : string) : ending :=
  if String.eqb err "EOF" then EndCleanup
  else if str_contains "use of closed network connection" err then EndQuiet else EndReport.

Definition end_reader (i : nat) (err : string) (s : TerminalSession) : TerminalSession :=
  match reader_end err with
  | EndCleanup => spawn_cleaner (reader_at i RDone s)
  | EndReport => reader_at i RReport s
  | EndQuiet => reader_at i RDone s
  end.

(** The steps of the goroutines of one session that need only its object. *)
Inductive sstep : TerminalSession → TerminalSession → Prop :=
  (* the handler of the write topic: a send *)
  | step_accept s i d : handlers s !! i = Some (HSend d) → closed s = false → length (input s) < input_cap →
      sstep s (accept d (set_input (input s ++ [d]) (handler_at i HDone s)))
  | step_send_closed s i d : handlers s !! i = Some (HSend d) → closed s = true → sstep s (handler_at i HPanic s)
  (* the writer *)
  | step_receive s i d l : writers s !! i = Some WReceive → input s = d :: l → sstep s (set_input l (writer_at i (WWrite d) s))
  | step_receive_closed s i : writers s !! i = Some WReceive → input s = [] → closed s = true →
      sstep s (close_conn (writer_at i WDone s))
  | step_write s i d : writers s !! i = Some (WWrite d) → conn s = true → sstep s (wrote d (writer_at i WReceive s))
  | step_write_fails s i d : writers s !! i = Some (WWrite d) → sstep s (writer_at i WReport s)
  | step_writer_reports s i : writers s !! i = Some WReport → closed s = false → errors s < error_cap →
      sstep s (close_conn (put_error (writer_at i WDone s)))
  | step_writer_panics s i : writers s !! i = Some WReport → closed s = true → sstep s (close_conn (writer_at i WPanic s))
  (* the reader *)
  | step_read s i b : readers s !! i = Some RRead → conn s = true → sstep s (reader_at i (RPublish b) s)
  | step_read_nothing s i : readers s !! i = Some RRead → sstep s s
  | step_read_fails s i err : readers s !! i = Some RRead → sstep s (end_reader i err s)
  | step_publish s i b : readers s !! i = Some (RPublish b) → sstep s (published b (reader_at i RRead s))
  | step_publish_fails s i b err : readers s !! i = Some (RPublish b) → sstep s (end_reader i err s)
  | step_reader_reports s i : readers s !! i = Some RReport → closed s = false → errors s < error_cap →
      sstep s (put_error (reader_at i RDone s))
  | step_reader_panics s i : readers s !! i = Some RReport → closed s = true → sstep s (reader_at i RPanic s)
  (* the clean-up *)
  | step_close s i : cleaners s !! i = Some CClose → sstep s (Close (cleaner_at i CAnnounce s))
  | step_announce s i : cleaners s !! i = Some CAnnounce → sstep s (announce (cleaner_at i CUnregister s))
  | step_unregistered s i : cleaners s !! i = Some CUnregister → sstep s (cleaner_at i CUnsubscribe s)
  | step_unregister_fails s i : cleaners s !! i = Some CUnregister → sstep s (cleaner_at i CDone s)
  | step_unsubscribed s i : cleaners s !! i = Some CUnsubscribe → sstep s (cleaner_at i CEvict s)
  | step_unsubscribe_fails s i : cleaners s !! i = Some CUnsubscribe → sstep s (cleaner_at i CDone s).

(** ** The manager *)

Record TerminalManager := { sessions : list TerminalSession; ActiveSessions : gmap string nat }.

Definition put_session (p : nat) (s : TerminalSession) (tm : TerminalManager) : TerminalManager :=
  {| sessions := <[p := s]> (sessions tm); ActiveSessions := ActiveSessions tm |}.

Definition getSession (sessionID : string) (tm : TerminalManager) : nat + error :=
  match ActiveSessions tm !! sessionID with Some p => inl p | None => inr (Plain "session was not found") end.

Definition createTerminalSession (containerName sessionID : string) (tm : TerminalManager) : TerminalManager :=
  {| sessions := sessions tm ++ [NewSession containerName sessionID];
     ActiveSessions := <[sessionID := length (sessions tm)]> (ActiveSessions tm) |}.

(** The topics of a start: its subscription and its registration may fail. *)
Definition initTerminalMessagingChannels (subscribed registered : bool) (s : TerminalSession) : TerminalSession :=
  if subscribed && registered then spawn_io s else s.

Definition StartTerminalSession (p : nat) (registrationID : N) (subscribed registered : bool) (s : TerminalSession) (tm : TerminalManager)
    : TerminalManager :=
  put_session p (initTerminalMessagingChannels subscribed registered (set_registration registrationID s)) tm.

(** The first thing a clean-up does is to look whether the session is still there. *)
Definition cleanup_check (p i : nat) (s : TerminalSession) (tm : TerminalManager) : TerminalManager :=
  put_session p (cleaner_at i (match ActiveSessions tm !! ts_SessionID s with Some _ => CClose | None => CDone end) s) tm.
(** Its last is to take it out. *)
Definition cleanup_evict (p i : nat) (s : TerminalSession) (tm : TerminalManager) : TerminalManager :=
  {| sessions := <[p := cleaner_at i CDone s]> (sessions tm); ActiveSessions := delete (ts_SessionID s) (ActiveSessions tm) |}.

(** The resize of a session, up to the call of docker. *)
Definition ResizeTerminal (sessionID : string) (tm : TerminalManager) : nat + error := getSession sessionID tm.

(** An event names a registration by a value of some type: only an unsigned one is equal. *)
Definition names_registration (v : wval) (s : TerminalSession) : bool :=
  match v with WU64 n => (n =? ts_RegistrationID s)%N | _ => false end.

(** What the handlers of a session still have to send. *)
Definition pending_of (h : handler) : option string := match h with HSend d => Some d | _ => None end.
Definition pending (s : TerminalSession) : list string := omap pending_of (handlers s).

(** [serial]: the client hands the events of a subscription to its handler one after the
    other, the next when the handler has returned. *)
Inductive tmstep (serial : bool) : TerminalManager → TerminalManager → Prop :=
  | tm_create tm containerName sessionID : (∀ p s, sessions tm !! p = Some s → ts_SessionID s ≠ sessionID) →
      tmstep serial tm (createTerminalSession containerName sessionID tm)
  | tm_start tm sessionID p s registrationID subscribed registered : getSession sessionID tm = inl p → sessions tm !! p = Some s →
      tmstep serial tm (StartTerminalSession p registrationID subscribed registered s tm)
  (* an event of the write topic of a session *)
  | tm_write tm p s d : sessions tm !! p = Some s → (serial = true → pending s = []) → tmstep serial tm (put_session p (spawn_handler d s) tm)
  | tm_stop tm sessionID p s : getSession sessionID tm = inl p → sessions tm !! p = Some s → tmstep serial tm (put_session p (spawn_cleaner s) tm)
  (* the registration of an active session was unregistered *)
  | tm_unregistered tm sessionID p s v : ActiveSessions tm !! sessionID = Some p → sessions tm !! p = Some s → names_registration v s = true →
      tmstep serial tm (put_session p (spawn_cleaner s) tm)
  | tm_session tm p s s' : sessions tm !! p = Some s → sstep s s' → tmstep serial tm (put_session p s' tm)
  | tm_check tm p i s : sessions tm !! p = Some s → cleaners s !! i = Some CCheck → tmstep serial tm (cleanup_check p i s tm)
  | tm_evict tm p i s : sessions tm !! p = Some s → cleaners s !! i = Some CEvict → tmstep serial tm (cleanup_evict p i s tm).

Definition NewTerminalManager : TerminalManager := {| sessions := []; ActiveSessions := ∅ |}.
Definition served (serial : bool) (tm : TerminalManager) : Prop := rtc (tmstep serial) NewTerminalManager tm.

(** * What the terminals of containers guarantee

    Whatever the interleaving of the goroutines of the sessions, input reaches the shell in
    order, a session leaves the map only with its channels closed and its end announced,
    nothing panics before a session is being ended, and a session that a failed clean-up
    left behind can always be ended again. *)

(** ** Shells *)

(** The shell is the first supported one of the file, in the order of the file. *)
Lemma getShell_first text shell : getShell (inl text) = inl shell →
  shell = defaultShell ∧ Forall (λ l, supported l = false) (shell_lines text)
  ∨ supported shell = true ∧ ∃ before after, shell_lines text = before ++ shell :: after ∧ Forall (λ l, supported l = false) before.
Proof.
  unfold getShell. intros H. injection H as <-. induction (shell_lines text) as [|l ls IH]; [left; split; [done|constructor]|]. cbn [List.find].
  destruct (supported l) eqn:E; [right; split; [done|]; by exists [], ls|]. destruct IH as [[Hd IH]|(Hs & before & after & Hl & Hb)].
  - left. split; [exact Hd|]. by constructor.
  - right. split; [exact Hs|]. exists (l :: before), after. split; [cbn; by f_equal|]. by constructor.
Qed.

Example shells_of_debian : getShell (inl ("# /etc/shells" +:+ String LF "" +:+ "/bin/sh" +:+ String CR (String LF "") +:+ "/bin/bash" +:+ String LF "/bin/zsh"))
  = inl "/bin/bash".
Proof. vm_compute. done. Qed.

(** ** One session *)

Definition writer_panicked (x : writer) : bool := match x with WPanic => true | _ => false end.
Definition reader_panicked (x : reader) : bool := match x with RPanic => true | _ => false end.
Definition handler_panicked (x : handler) : bool := match x with HPanic => true | _ => false end.
Definition panicked (s : TerminalSession) : bool :=
  existsb writer_panicked (writers s) || existsb reader_panicked (readers s) || existsb handler_panicked (handlers s).

Definition past_close (c : cleaner) : bool := match c with CAnnounce | CUnregister | CUnsubscribe | CEvict => true | _ => false end.
Definition past_announce (c : cleaner) : bool := match c with CUnregister | CUnsubscribe | CEvict => true | _ => false end.

Definition delivered (s : TerminalSession) : list string := tr_delivered (ts_traffic s).
Definition accepted (s : TerminalSession) : list string := tr_accepted (ts_traffic s).
Definition written (s : TerminalSession) : list string := tr_written (ts_traffic s).
Definition announced (s : TerminalSession) : nat := tr_announced (ts_traffic s).

(** What the writers took from the channel and have not written; a failed write loses it. *)
Definition in_hand (ws : list writer) (lost : list string) : Prop :=
  match ws with
  | [] | [WReceive] => lost = []
  | [WWrite d] => lost = [d]
  | [_] => length lost ≤ 1
  | _ => True
  end%nat.

Definition in_order (s : TerminalSession) : Prop :=
  (length (writers s) ≤ 1)%nat → ∃ lost, accepted s = written s ++ lost ++ input s ∧ in_hand (writers s) lost.

Record session_ok (s : TerminalSession) : Prop := {
  so_panic : panicked s = true → closed s = true;
  so_close : ∀ c, c ∈ cleaners s → past_close c = true → closed s = true;
  so_announce : ∀ c, c ∈ cleaners s → past_announce c = true → (1 ≤ announced s)%nat;
  so_input : (length (input s) ≤ input_cap)%nat;
  so_errors : (errors s ≤ error_cap)%nat;
  so_order : in_order s;
}.

Lemma session_ok_new c id : session_ok (NewSession c id).
Proof. split; cbn; try done; try lia; try (intros ? Hc; by apply elem_of_nil in Hc). intros _. exists []. done. Qed.

(** A goroutine that moves to a state without a panic adds none. *)
Lemma existsb_insert {A} (f : A → bool) (l : list A) i x : existsb f (<[i := x]> l) = true → existsb f l = true ∨ f x = true.
Proof.
  rewrite !existsb_exists. intros (y & Hy & Hf). apply list_elem_of_In in Hy.
  apply list_elem_of_lookup in Hy as [j Hj]. destruct (decide (i = j)) as [->|Hne].
  - destruct (decide (j < length l)%nat) as [Hl|Hl].
    + rewrite list_lookup_insert_eq in Hj by done. right. by inversion Hj.
    + rewrite list_insert_ge in Hj by lia. left. exists y. split; [|done]. apply list_elem_of_In. by eapply list_elem_of_lookup_2.
  - rewrite list_lookup_insert_ne in Hj by done. left. exists y. split; [|done]. apply list_elem_of_In. by eapply list_elem_of_lookup_2.
Qed.

Lemma existsb_snoc {A} (f : A → bool) (l : list A) x : existsb f (l ++ [x]) = existsb f l || f x.
Proof. rewrite existsb_app. cbn. by rewrite orb_false_r. Qed.

Lemma elem_of_insert {A} (l : list A) i x y : y ∈ <[i := x]> l → y = x ∨ y ∈ l.
Proof.
  intros Hy. apply list_elem_of_lookup in Hy as [j Hj]. destruct (decide (i = j)) as [->|Hne].
  - destruct (decide (j < length l)%nat) as [Hl|Hl].
    + rewrite list_lookup_insert_eq in Hj by done. left. by inversion Hj.
    + rewrite list_insert_ge in Hj by lia. right. by eapply list_elem_of_lookup_2.
  - rewrite list_lookup_insert_ne in Hj by done. right. by eapply list_elem_of_lookup_2.
Qed.

(** One writer out of at most one. *)
Lemma only_writer (ws : list writer) i x y : ws !! i = Some x → (length (<[i := y]> ws) ≤ 1)%nat → ws = [x] ∧ <[i := y]> ws = [y].
Proof.
  rewrite length_insert. intros Hi Hl. destruct ws as [|w [|w' ws]]; [by destruct i| |cbn in Hl; lia].
  destruct i; [|by destruct i]. cbn in Hi. by inversion Hi.
Qed.

Ltac session_facts :=
  repeat match goal with
  | H : context [panicked] |- _ => unfold panicked in H
  | H : _ || _ = true |- _ => apply orb_true_iff in H as [H|H]
  | H : existsb _ (<[_ := _]> _) = true |- _ => apply existsb_insert in H as [H|H]; [|done]
  | H : _ ∈ <[_ := _]> _ |- _ => apply elem_of_insert in H as [->|H]
  | H : existsb _ (_ ++ [_]) = true |- _ => rewrite existsb_snoc in H
  | H : _ ∈ _ ++ [_] |- _ => apply elem_of_app in H as [H|H]
  | H : _ ∈ [_] |- _ => apply list_elem_of_singleton in H as ->
  end.

(** What a step must show for each part of the invariant but the order. *)
Lemma ok_by_parts s s' : session_ok s →
  (panicked s' = true → panicked s = true ∨ closed s' = true) → (closed s = true → closed s' = true) →
  (∀ c, c ∈ cleaners s' → c ∈ cleaners s ∨ (past_close c = true → closed s' = true) ∧ (past_announce c = true → (1 ≤ announced s')%nat)) →
  (announced s ≤ announced s')%nat → (length (input s') ≤ input_cap)%nat → (errors s' ≤ error_cap)%nat → in_order s' → session_ok s'.
Proof.
  intros [] Hp Hc Hcl Ha Hi He Ho. split; try done.
  - intros H. destruct (Hp H) as [H'|]; auto.
  - intros c Hin Hpc. destruct (Hcl c Hin) as [Hin'|[H _]]; eauto.
  - intros c Hin Hpa. destruct (Hcl c Hin) as [Hin'|[_ H]]; [|auto]. specialize (so_announce0 c Hin' Hpa). lia.
Qed.

(** Steps that leave the writers, the input and the traffic of the input alone keep the order. *)
Lemma in_order_same s s' : in_order s → writers s' = writers s → input s' = input s → accepted s' = accepted s → written s' = written s → in_order s'.
Proof. unfold in_order. intros H -> -> -> ->. exact H. Qed.

(** Only the writer moves, and it keeps or loses what it holds. *)
Lemma in_order_writer s i x y s' : in_order s → writers s !! i = Some x → writers s' = <[i := y]> (writers s) →
  (∀ lost, in_hand [x] lost → in_hand [y] lost) →
  input s' = input s → accepted s' = accepted s → written s' = written s → in_order s'.
Proof.
  unfold in_order. intros H Hx Hy Hm -> -> -> Hl. rewrite Hy in *. destruct (only_writer _ i x y Hx Hl) as [E E']. rewrite E'.
  rewrite E in H. destruct (H ltac:(done)) as (lost & Hacc & Hin). exists lost. split; [done|]. by apply Hm.
Qed.
Lemma sstep_in_order s s' : in_order s → sstep s s' → in_order s'.
Proof.
  intros Ho Hs. destruct Hs; try (by apply (in_order_same s)); try (unfold end_reader; destruct (reader_end err); by apply (in_order_same s)).
  - (* accept *) intros Hl. destruct (Ho Hl) as (lost & Hacc & Hin). exists lost.
    change (accepted s ++ [d] = written s ++ lost ++ (input s ++ [d]) ∧ in_hand (writers s) lost). by rewrite Hacc, <- !app_assoc.
  - (* receive *) unfold in_order in *. intros Hl. cbn in Hl. destruct (only_writer _ i WReceive (WWrite d) H Hl) as [E E'].
    rewrite E in Ho. destruct (Ho ltac:(done)) as (lost & Hacc & Hin). cbn in Hin. subst lost. exists [d].
    change (accepted s = written s ++ [d] ++ l ∧ in_hand (<[i := WWrite d]> (writers s)) [d]). rewrite E', Hacc, H0. done.
  - (* receive_closed *) apply (in_order_writer s i WReceive WDone); try done. intros lost ->. cbn. lia.
  - (* write *) unfold in_order in *. intros Hl. cbn in Hl. destruct (only_writer _ i (WWrite d) WReceive H Hl) as [E E'].
    rewrite E in Ho. destruct (Ho ltac:(done)) as (lost & Hacc & Hin). cbn in Hin. subst lost. exists [].
    change (accepted s = (written s ++ [d]) ++ [] ++ input s ∧ in_hand (<[i := WReceive]> (writers s)) []). rewrite E', Hacc, <- !app_assoc. done.
  - apply (in_order_writer s i (WWrite d) WReport); try done. intros lost ->. cbn. lia.
  - apply (in_order_writer s i WReport WDone); done.
  - apply (in_order_writer s i WReport WPanic); done.
Qed.

(** A clean-up that is past both goes on. *)
Lemma advances s i x y : session_ok s → cleaners s !! i = Some x → past_close x = true → past_announce x = true →
  ∀ c, c ∈ <[i := y]> (cleaners s) → c ∈ cleaners s ∨ (past_close c = true → closed s = true) ∧ (past_announce c = true → (1 ≤ announced s)%nat).
Proof.
  intros Hok Hx Hc Ha c Hin. apply elem_of_insert in Hin as [->|Hin]; [|by left]. right. apply list_elem_of_lookup_2 in Hx.
  split; intros _; [by apply (so_close s Hok x)|by apply (so_announce s Hok x)].
Qed.

Lemma sstep_ok s s' : session_ok s → sstep s s' → session_ok s'.
Proof.
  intros Hok Hs. pose proof (sstep_in_order s s' (so_order s Hok) Hs) as Ho. pose proof (so_input s Hok) as Hin. pose proof (so_errors s Hok) as Her.
  destruct Hs; try (unfold end_reader in *; destruct (reader_end err)).
  all: try exact Hok.
  all: apply (ok_by_parts s _ Hok); try exact Ho; cbn -[input_cap error_cap] in *; rewrite ?length_app; cbn [length]; try lia; try done.
  all: try (intros Hp; unfold panicked in *; cbn in Hp; rewrite ?orb_true_iff in *; by repeat match goal with
    | H : _ ∨ _ |- _ => destruct H as [H|H]
    | H : existsb _ (<[_ := _]> _) = true |- _ => apply existsb_insert in H as [H|H]
    | |- _ => by auto
    end).
  all: try (intros c Hc; session_facts; by auto).
  all: try (intros c Hc; session_facts; [left; exact Hc|right; split; discriminate]).
  all: try (intros c Hc; session_facts; [right; split; discriminate|left; exact Hc]).
  - rewrite H0 in Hin. cbn in Hin. lia.
  - intros c Hc. session_facts; [right; split; [done|discriminate]|left; exact Hc].
  - intros c Hc. session_facts; [right; split; [intros _|intros _; lia]|left; exact Hc].
    apply (so_close s Hok CAnnounce); [by eapply list_elem_of_lookup_2|done].
  - unfold announced. lia.
  - by apply (advances s i CUnregister).
  - by apply (advances s i CUnsubscribe).
Qed.

Lemma sstep_keeps s s' : sstep s s' →
  ts_SessionID s' = ts_SessionID s ∧ (closed s = true → closed s' = true) ∧ (announced s ≤ announced s')%nat.
Proof. intros Hs. destruct Hs; try (unfold end_reader; destruct (reader_end err)); split_and!; try done; cbn; try lia; unfold announced; cbn; lia. Qed.

(** What other code does to a session. *)
Lemma spawned_ok s : session_ok s → session_ok (spawn_cleaner s) ∧ (∀ d, session_ok (spawn_handler d s)) ∧ session_ok (spawn_io s)
  ∧ ∀ n, session_ok (set_registration n s).
Proof.
  intros Hok. pose proof (so_input s Hok) as Hin. pose proof (so_errors s Hok) as Her. pose proof (so_order s Hok) as Ho.
  split_and!; [|intros d| |intros n]; apply (ok_by_parts s _ Hok); try done; try (by left); try (intros c Hc; by left).
  all: try (unfold panicked; cbn; rewrite ?existsb_snoc; cbn; rewrite ?orb_false_r; by left).
  - intros c Hc. cbn in Hc. session_facts; [by left|]. right. split; discriminate.
  - intros Hl. cbn in Hl. rewrite length_app in Hl. cbn in Hl. assert (writers s = []) as E.
    { unfold writers. destruct (th_writers (ts_threads s)); [done|cbn in Hl; lia]. }
    destruct (Ho ltac:(rewrite E; cbn; lia)) as (lost & Hacc & Hlost). rewrite E in Hlost. cbn in Hlost. subst lost.
    exists []. split; [exact Hacc|]. change (in_hand (writers s ++ [WReceive]) []). by rewrite E.
Qed.

(** A clean-up that finds its session goes on, or ends when it does not; the last step ends it. *)
Lemma cleaner_harmless s i x : session_ok s → past_close x = false → past_announce x = false → session_ok (cleaner_at i x s).
Proof.
  intros Hok Hc Ha. apply (ok_by_parts s _ Hok); try done; try apply (so_input s Hok); try apply (so_errors s Hok); try (by left).
  - intros c Hin. cbn in Hin. apply elem_of_insert in Hin as [->|Hin]; [|by left]. right. split; congruence.
  - apply (so_order s Hok).
Qed.

(** ** All sessions *)

Record tm_ok (tm : TerminalManager) : Prop := {
  mo_sessions : ∀ p s, sessions tm !! p = Some s → session_ok s;
  mo_map : ∀ id p, ActiveSessions tm !! id = Some p → ∃ s, sessions tm !! p = Some s ∧ ts_SessionID s = id;
  mo_ids : ∀ p q s s', sessions tm !! p = Some s → sessions tm !! q = Some s' → ts_SessionID s = ts_SessionID s' → p = q;
  mo_gone : ∀ p s, sessions tm !! p = Some s →
    ActiveSessions tm !! ts_SessionID s = Some p ∨ closed s = true ∧ (1 ≤ announced s)%nat;
}.

Lemma lookup_put (p q : nat) (s s' : TerminalSession) (l : list TerminalSession) : l !! p = Some s → <[p := s']> l !! q = if decide (q = p) then Some s' else l !! q.
Proof.
  intros Hl. destruct (decide (q = p)) as [->|Hne]; [|by rewrite list_lookup_insert_ne].
  apply list_lookup_insert_eq. by eapply lookup_lt_Some.
Qed.

Ltac look H :=
  match type of H with <[?p := _]> _ !! ?q = Some _ =>
    destruct (decide (q = p)) as [->|];
    [rewrite list_lookup_insert_eq in H by (by eapply lookup_lt_Some); injection H as <-
    |rewrite list_lookup_insert_ne in H by done]
  end.

(** A session changes in place; [m] is the map, from which at most it was taken. *)
Lemma put_ok p s s' tm (m : gmap string nat) : tm_ok tm → sessions tm !! p = Some s → session_ok s' →
  ts_SessionID s' = ts_SessionID s → (closed s = true → closed s' = true) → (announced s ≤ announced s')%nat →
  m = ActiveSessions tm ∨ m = delete (ts_SessionID s) (ActiveSessions tm) ∧ closed s' = true ∧ (1 ≤ announced s')%nat →
  tm_ok {| sessions := <[p := s']> (sessions tm); ActiveSessions := m |}.
Proof.
  intros [Hs Hm Hi Hg] Hp Hok Hid Hc Ha Hmap. split; cbn.
  - intros q x Hq. look Hq; [done|by eapply Hs].
  - intros id q Hq. assert (ActiveSessions tm !! id = Some q) as Hq'.
    { destruct Hmap as [->|(-> & _)]; [done|]. by apply lookup_delete_Some in Hq as [_ ?]. }
    destruct (Hm id q Hq') as (x & Hx & <-). destruct (decide (q = p)) as [->|Hne].
    + rewrite Hp in Hx. injection Hx as <-. exists s'. rewrite (lookup_put p p s) by done. case_decide; [|done]. done.
    + exists x. rewrite list_lookup_insert_ne by done. done.
  - intros q r x y Hq Hr Hxy. look Hq; look Hr; try done.
    + apply (Hi p r s y); [done|done|]. by rewrite <- Hid.
    + apply (Hi q p x s); [done|done|]. by rewrite <- Hid.
    + by eapply (Hi q r x y).
  - intros q x Hq. look Hq.
    + rewrite Hid. destruct Hmap as [->|(-> & Hcl)]; [|by right]. destruct (Hg p s Hp) as [|[? ?]]; [by left|right].
      split; [by apply Hc|lia].
    + destruct (Hg q x Hq) as [Hx|]; [|by right]. left. destruct Hmap as [->|(-> & _)]; [done|].
      rewrite lookup_delete_ne; [done|]. intros E. destruct (Hm _ _ Hx) as (y & Hy & _). rewrite Hq in Hy. injection Hy as <-.
      by specialize (Hi p q s x Hp Hq E).
Qed.

Lemma create_ok tm c id : tm_ok tm → (∀ p s, sessions tm !! p = Some s → ts_SessionID s ≠ id) → tm_ok (createTerminalSession c id tm).
Proof.
  intros [Hs Hm Hi Hg] Hfresh. set (n := NewSession c id).
  assert (∀ q x, (sessions tm ++ [n]) !! q = Some x → sessions tm !! q = Some x ∨ q = length (sessions tm) ∧ x = n) as Hl.
  { intros q x [Hq|[Hq Hx]]%lookup_app_Some; [by left|]. right. destruct (q - length (sessions tm)) as [|k] eqn:E; [|by destruct k].
    injection Hx as <-. split; [lia|done]. }
  split; cbn.
  - intros q x Hq. destruct (Hl q x Hq) as [|[_ ->]]; [by eapply Hs|]. apply session_ok_new.
  - intros i q Hq. apply lookup_insert_Some in Hq as [[<- <-]|[Hne Hq]].
    + exists n. by rewrite lookup_app_r, Nat.sub_diag by lia.
    + destruct (Hm i q Hq) as (x & Hx & He). exists x. split; [|done]. by apply lookup_app_l_Some.
  - intros q r x y Hq Hr Hxy. destruct (Hl q x Hq) as [Hq'|[-> ->]], (Hl r y Hr) as [Hr'|[-> ->]]; [by eapply Hi| | |done].
    + by apply Hfresh in Hq'.
    + by apply Hfresh in Hr'.
  - intros q x Hq. destruct (Hl q x Hq) as [Hq'|[-> ->]]; [|left; by rewrite lookup_insert_eq].
    rewrite lookup_insert_ne by (intros E; by apply (Hfresh q x Hq')). by apply Hg.
Qed.

Lemma tmstep_ok serial tm tm' : tm_ok tm → tmstep serial tm tm' → tm_ok tm'.
Proof.
  intros Hok Hs. destruct Hs as [tm c id Hf|tm id p s n sub reg Hg Hp|tm p s d Hp Hser|tm id p s Hg Hp|tm id p s v Hg Hp Hv|tm p s s' Hp Hst|tm p i s Hp Hc|tm p i s Hp Hc].
  - by apply create_ok.
  - destruct (spawned_ok s) as (_ & _ & _ & H4); [by eapply mo_sessions|]. specialize (H4 n).
    assert (session_ok (initTerminalMessagingChannels sub reg (set_registration n s))) as H.
    { unfold initTerminalMessagingChannels. destruct (sub && reg); [|done]. by apply spawned_ok. }
    unfold StartTerminalSession, put_session. eapply put_ok; try done; try by left.
    all: unfold initTerminalMessagingChannels; destruct (sub && reg); done.
  - destruct (spawned_ok s) as (_ & H & _); [by eapply mo_sessions|]. unfold put_session. by eapply put_ok; eauto.
  - destruct (spawned_ok s) as (H & _); [by eapply mo_sessions|]. unfold put_session. by eapply put_ok; eauto.
  - destruct (spawned_ok s) as (H & _); [by eapply mo_sessions|]. unfold put_session. by eapply put_ok; eauto.
  - destruct (sstep_keeps s s' Hst) as (? & ? & ?). unfold put_session. eapply put_ok; eauto. eapply sstep_ok; [by eapply mo_sessions|done].
  - unfold cleanup_check, put_session. eapply put_ok; eauto.
    destruct (ActiveSessions tm !! ts_SessionID s); apply cleaner_harmless; try done; by eapply mo_sessions.
  - pose proof (mo_sessions _ Hok p s Hp) as Hso. apply list_elem_of_lookup_2 in Hc. unfold cleanup_evict. eapply put_ok; eauto.
    + by apply cleaner_harmless.
    + right. split; [done|]. split; [by apply (so_close s Hso CEvict)|by apply (so_announce s Hso CEvict)].
Qed.

Lemma served_ok serial tm : served serial tm → tm_ok tm.
Proof.
  intros Hr. assert (tm_ok NewTerminalManager) as H0.
  { split; cbn; intros *; rewrite ?lookup_nil, ?lookup_empty; done. }
  unfold served in Hr. revert H0. generalize NewTerminalManager, tm, Hr. clear. intros x y Hr.
  induction Hr as [|x y z Hxy Hyz IH]; [done|]. intros Hx. apply IH. by eapply tmstep_ok.
Qed.

(** ** What the topic delivered *)

(** Every delivered piece was accepted, waits with its handler, or was lost in a panic; with
    the events handed over one by one the accepted ones are the first ones, and while the
    channel is open at most one is missing. *)
Record flow_ok (serial : bool) (s : TerminalSession) : Prop := {
  fo_all : ∃ lost, delivered s ≡ₚ accepted s ++ pending s ++ lost ∧ (existsb handler_panicked (handlers s) = false → lost = []);
  fo_serial : serial = true → (length (pending s) ≤ 1)%nat ∧ accepted s `prefix_of` delivered s ∧ (closed s = false → delivered s = accepted s ++ pending s);
}.

Lemma flow_new serial c id : flow_ok serial (NewSession c id).
Proof. split; [by exists []|]. intros _. split; [cbn; lia|done]. Qed.

Lemma flow_same serial s s' : flow_ok serial s → delivered s' = delivered s → accepted s' = accepted s → handlers s' = handlers s →
  (closed s = true → closed s' = true) → flow_ok serial s'.
Proof.
  intros [Ha Hs] Hd Hac Hh Hc. split; unfold pending in *; rewrite Hd, Hac, Hh; [done|]. intros Hser. destruct (Hs Hser) as (H1 & H2 & H3).
  do 2 (split; [done|]). intros Hcl. apply H3. destruct (closed s); [by rewrite Hc in Hcl|done].
Qed.

Lemma pending_taken (hs : list handler) i d x : hs !! i = Some (HSend d) → pending_of x = None →
  omap pending_of hs ≡ₚ d :: omap pending_of (<[i := x]> hs).
Proof.
  intros Hi Hx. rewrite insert_take_drop by (by eapply lookup_lt_Some). rewrite <- (take_drop_middle hs i _ Hi) at 1.
  rewrite !omap_app. cbn. rewrite Hx. by rewrite <- Permutation_middle.
Qed.

Lemma panicked_done (hs : list handler) i d : hs !! i = Some (HSend d) →
  existsb handler_panicked (<[i := HDone]> hs) = false → existsb handler_panicked hs = false.
Proof.
  intros Hi He. apply not_true_iff_false. intros Ht. apply existsb_exists in Ht as (h & Hh & Hp). apply list_elem_of_In, list_elem_of_lookup in Hh as [j Hj].
  assert (existsb handler_panicked (<[i := HDone]> hs) = true); [|congruence]. apply existsb_exists. exists h. split; [|done].
  apply list_elem_of_In. apply (list_elem_of_lookup_2 _ j). rewrite list_lookup_insert_ne; [done|]. intros ->. simplify_eq.
Qed.

Lemma flow_accept serial s i d : flow_ok serial s → handlers s !! i = Some (HSend d) → closed s = false →
  flow_ok serial (accept d (set_input (input s ++ [d]) (handler_at i HDone s))).
Proof.
  intros [(lost & Hp & Hl) Hs] Hi Hc. pose proof (pending_taken (handlers s) i d HDone Hi eq_refl) as Hpend. split.
  - exists lost. split; [|intros He; apply Hl; by eapply panicked_done].
    change (delivered s ≡ₚ (accepted s ++ [d]) ++ omap pending_of (<[i := HDone]> (handlers s)) ++ lost). rewrite Hp. unfold pending. rewrite Hpend.
    by rewrite <- !app_assoc.
  - intros Hser. destruct (Hs Hser) as (H1 & H2 & H3). specialize (H3 Hc). unfold pending in *.
    assert (omap pending_of (<[i := HDone]> (handlers s)) = []) as E by (apply nil_length_inv; rewrite Hpend in H1; cbn in H1; lia).
    rewrite E in Hpend. apply Permutation_singleton_r in Hpend. rewrite Hpend in H3.
    change ((length (omap pending_of (<[i := HDone]> (handlers s))) ≤ 1)%nat ∧ accepted s ++ [d] `prefix_of` delivered s
      ∧ (closed s = false → delivered s = (accepted s ++ [d]) ++ omap pending_of (<[i := HDone]> (handlers s)))). rewrite E, H3, app_nil_r. split; [cbn; lia|done].
Qed.

Lemma flow_panics serial s i d : flow_ok serial s → handlers s !! i = Some (HSend d) → closed s = true → flow_ok serial (handler_at i HPanic s).
Proof.
  intros [(lost & Hp & Hl) Hs] Hi Hc. pose proof (pending_taken (handlers s) i d HPanic Hi eq_refl) as Hpend. split.
  - exists (d :: lost). split.
    + change (delivered s ≡ₚ accepted s ++ omap pending_of (<[i := HPanic]> (handlers s)) ++ d :: lost). rewrite Hp. unfold pending. rewrite Hpend.
      f_equiv. apply Permutation_middle.
    + intros He. exfalso. apply not_true_iff_false in He. apply He. apply existsb_exists. exists HPanic. split; [|done].
      apply list_elem_of_In, (list_elem_of_lookup_2 _ i). apply list_lookup_insert_eq. by eapply lookup_lt_Some.
  - intros Hser. destruct (Hs Hser) as (H1 & H2 & H3). unfold pending in *. rewrite Hpend in H1. cbn [length] in H1.
    split; [change (length (omap pending_of (<[i := HPanic]> (handlers s))) ≤ 1)%nat; lia|]. split; [done|]. intros E. change (closed s = false) in E. congruence.
Qed.

Lemma flow_delivers serial s d : flow_ok serial s → (serial = true → pending s = []) → flow_ok serial (spawn_handler d s).
Proof.
  intros [(lost & Hp & Hl) Hs] Hser. assert (pending (spawn_handler d s) = pending s ++ [d]) as Hpe by (unfold pending; cbn; by rewrite omap_app). split.
  - exists lost. rewrite Hpe. split.
    + change (delivered s ++ [d] ≡ₚ accepted s ++ (pending s ++ [d]) ++ lost). rewrite Hp, <- !app_assoc. do 2 f_equiv. by rewrite Permutation_app_comm.
    + intros He. apply Hl. cbn in He. rewrite existsb_snoc in He. by apply orb_false_iff in He as [He _].
  - intros H. destruct (Hs H) as (H1 & H2 & H3). rewrite Hpe, (Hser H). split; [cbn; lia|]. split; [by apply prefix_app_r|].
    intros Hc. change (delivered s ++ [d] = accepted s ++ [d]). by rewrite (H3 Hc), (Hser H), app_nil_r.
Qed.

Lemma flow_sstep serial s s' : flow_ok serial s → sstep s s' → flow_ok serial s'.
Proof.
  intros Hok Hs. destruct Hs; try (unfold end_reader; destruct (reader_end err)); try (by apply (flow_same serial s)).
  - by apply flow_accept.
  - by eapply flow_panics.
Qed.

Definition all_flow (serial : bool) (tm : TerminalManager) : Prop := ∀ p s, sessions tm !! p = Some s → flow_ok serial s.

Lemma all_flow_put serial p s s' tm m : all_flow serial tm → sessions tm !! p = Some s → flow_ok serial s' →
  all_flow serial {| sessions := <[p := s']> (sessions tm); ActiveSessions := m |}.
Proof. intros Ha Hp Hok q x Hq. cbn in Hq. look Hq; [done|by eapply Ha]. Qed.

Lemma flow_tmstep serial tm tm' : all_flow serial tm → tmstep serial tm tm' → all_flow serial tm'.
Proof.
  intros Ha Hs. destruct Hs as [tm c id Hf|tm id p s n sub reg Hg Hp|tm p s d Hp Hser|tm id p s Hg Hp|tm id p s v Hg Hp Hv|tm p s s' Hp Hst|tm p i s Hp Hc|tm p i s Hp Hc].
  1: { intros q x [Hq|[_ Hx]]%lookup_app_Some; [by eapply Ha|]. destruct (q - length (sessions tm)) as [|k]; [|by destruct k]. injection Hx as <-. apply flow_new. }
  all: pose proof (Ha p s Hp) as Hok; eapply all_flow_put; [done|exact Hp|].
  - unfold initTerminalMessagingChannels. destruct (sub && reg); by apply (flow_same serial s).
  - by apply flow_delivers.
  - by apply (flow_same serial s).
  - by apply (flow_same serial s).
  - by eapply flow_sstep.
  - by apply (flow_same serial s).
  - by apply (flow_same serial s).
Qed.

Lemma flow_served serial tm : served serial tm → all_flow serial tm.
Proof.
  unfold served. revert tm. apply rtc_ind_r; [by intros p s Hp|]. intros tm tm' _ Hs IH. by eapply flow_tmstep.
Qed.

(** C26: what is typed into a container's terminal reaches its shell in order and without gaps:
    under every interleaving, what was written to the shell of a session that was started once
    is a prefix of what the channel accepted, and until a write fails the rest of that is
    waiting in the channel or with the writer.  What the channel accepted are pieces the topic
    delivered, each once, and none that was delivered is missing unless its handler still waits
    or panicked at the closed channel; and if the client hands over the events of the topic
    one by one, they were accepted in the order of their delivery, so what was written is a
    prefix of what was delivered. *)
Theorem container_input_in_order serial tm p s : served serial tm → sessions tm !! p = Some s → (length (writers s) ≤ 1)%nat →
  written s `prefix_of` accepted s
  ∧ (writers s = [WReceive] → accepted s = written s ++ input s)
  ∧ (∀ d, writers s = [WWrite d] → accepted s = written s ++ d :: input s)
  ∧ (∃ lost, delivered s ≡ₚ accepted s ++ pending s ++ lost ∧ (existsb handler_panicked (handlers s) = false → lost = []))
  ∧ (serial = true → written s `prefix_of` delivered s ∧ accepted s `prefix_of` delivered s
      ∧ (closed s = false → delivered s = accepted s ++ pending s)).
Proof.
  intros Hr Hp Hl. destruct (so_order s (mo_sessions _ (served_ok serial tm Hr) p s Hp) Hl) as (lost & Hacc & Hin).
  destruct (flow_served serial tm Hr p s Hp) as [Hall Hser]. assert (written s `prefix_of` accepted s) as Hw by (by exists (lost ++ input s)).
  split; [done|]. split; [|split; [|split; [done|]]].
  - intros E. rewrite E in Hin. cbn in Hin. by subst lost.
  - intros d E. rewrite E in Hin. cbn in Hin. by subst lost.
  - intros H. destruct (Hser H) as (_ & H2 & H3). split; [by etransitivity|done].
Qed.

(** under every interleaving a session has left the map of active sessions only when its
    channels were closed and its end announced, and a goroutine of it has panicked, sending on
    a closed channel, only when it was being ended; the channels hold what they are made for. *)
Theorem container_sessions_end_announced serial tm p s : served serial tm → sessions tm !! p = Some s →
  (ActiveSessions tm !! ts_SessionID s = Some p ∨ closed s = true ∧ (1 ≤ announced s)%nat)
  ∧ (panicked s = true → closed s = true) ∧ (length (input s) ≤ 5)%nat ∧ (errors s ≤ 2)%nat.
Proof.
  intros Hr Hp. pose proof (served_ok serial tm Hr) as Hok. destruct (mo_sessions _ Hok p s Hp). split_and!; try done. by apply (mo_gone _ Hok).
Qed.

(** ** Ending a session again *)

Lemma cleaner_stands s i x : (i < length (cleaners s))%nat → cleaners (cleaner_at i x s) !! i = Some x.
Proof. apply list_lookup_insert_eq. Qed.

Lemma put_put p s s' tm : put_session p s' (put_session p s tm) = put_session p s' tm.
Proof. unfold put_session. cbn. by rewrite list_insert_insert_eq. Qed.

Lemma put_lookup p s s' tm : sessions tm !! p = Some s → sessions (put_session p s' tm) !! p = Some s'.
Proof. intros Hp. apply list_lookup_insert_eq. by eapply lookup_lt_Some. Qed.

Lemma put_same p s tm : sessions tm !! p = Some s → put_session p s tm = tm.
Proof. intros Hp. destruct tm. unfold put_session. cbn in *. by rewrite list_insert_id. Qed.

Lemma session_steps serial p s s' : rtc sstep s s' → ∀ tm, sessions tm !! p = Some s → rtc (tmstep serial) tm (put_session p s' tm).
Proof.
  intros Hs. induction Hs as [x|x y z Hxy Hyz IH]; intros tm Hp; [by rewrite put_same|].
  eapply rtc_l; [by apply (tm_session serial tm p x y)|]. rewrite <- (put_put p y z tm). apply IH. by apply (put_lookup p x).
Qed.

(** A clean-up whose calls succeed, from its check to its last step. *)
Lemma cleanup_runs s i : (i < length (cleaners s))%nat → cleaners s !! i = Some CClose →
  ∃ s', rtc sstep s s' ∧ cleaners s' !! i = Some CEvict ∧ ts_SessionID s' = ts_SessionID s.
Proof.
  intros Hi Hc. set (s1 := Close (cleaner_at i CAnnounce s)). set (s2 := announce (cleaner_at i CUnregister s1)).
  assert (length (cleaners s1) = length (cleaners s)) as L1 by apply length_insert.
  assert (length (cleaners s2) = length (cleaners s)) as L2 by (etransitivity; [apply length_insert|done]).
  assert (cleaners s1 !! i = Some CAnnounce) as C1 by by apply (cleaner_stands s).
  assert (cleaners s2 !! i = Some CUnregister) as C2 by (apply (cleaner_stands s1); by rewrite L1).
  set (s3 := cleaner_at i CUnsubscribe s2). assert (cleaners s3 !! i = Some CUnsubscribe) as C3 by (apply (cleaner_stands s2); by rewrite L2).
  assert (length (cleaners s3) = length (cleaners s)) as L3 by (etransitivity; [apply length_insert|done]).
  exists (cleaner_at i CEvict s3). split_and!; [|apply (cleaner_stands s3); by rewrite L3|done].
  eapply rtc_l; [by apply (step_close s i)|]. eapply rtc_l; [by apply (step_announce s1 i)|].
  eapply rtc_l; [by apply (step_unregistered s2 i)|]. eapply rtc_l; [by apply (step_unsubscribed s3 i)|]. done.
Qed.

(** a session can always be ended: whatever happened to it before, clean-ups that failed
    half way included, a stop whose calls succeed takes it, and nothing else, out of the map. *)
Theorem container_session_can_end serial tm id p : served serial tm → ActiveSessions tm !! id = Some p →
  ∃ tm', rtc (tmstep serial) tm tm' ∧ ActiveSessions tm' = delete id (ActiveSessions tm)
    ∧ ∀ q, q ≠ p → sessions tm' !! q = sessions tm !! q.
Proof.
  intros Hr Ha. destruct (mo_map _ (served_ok serial tm Hr) id p Ha) as (s & Hp & Hid). set (i := length (cleaners s)).
  set (s1 := spawn_cleaner s). set (s2 := cleaner_at i CClose s1).
  assert (length (cleaners s1) = S i) as L1 by (cbn; rewrite length_app; cbn; unfold i, cleaners; lia).
  assert (cleaners s1 !! i = Some CCheck) as C1 by (unfold i; cbn; by apply list_lookup_middle).
  assert (cleaners s2 !! i = Some CClose) as C2 by (apply cleaner_stands; lia).
  destruct (cleanup_runs s2 i) as (s3 & Hrun & C3 & Hid3); [rewrite <- (length_insert (cleaners s1) i CClose) in L1; cbn in *; lia|done|].
  exists (cleanup_evict p i s3 (put_session p s3 tm)). split_and!.
  - eapply rtc_l; [by apply (tm_stop serial tm id p s); [unfold getSession; rewrite Ha|]|].
    eapply rtc_l; [apply (tm_check serial _ p i s1); [by apply (put_lookup p s)|done]|].
    unfold cleanup_check. change (ts_SessionID s1) with (ts_SessionID s). cbn [ActiveSessions put_session]. rewrite Hid, Ha.
    fold s2. rewrite put_put. etransitivity; [apply (session_steps serial p s2 s3 Hrun); by apply (put_lookup p s)|]. rewrite put_put.
    eapply rtc_l; [apply (tm_evict serial _ p i s3); [by apply (put_lookup p s)|done]|]. done.
  - cbn. rewrite Hid3. change (ts_SessionID s2) with (ts_SessionID s). by rewrite Hid.
  - intros q Hq. cbn. by rewrite !list_lookup_insert_ne.
Qed.

(** ** Writes that nothing takes *)

Definition gone_writer (x : writer) : bool := match x with WReport | WDone | WPanic => true | _ => false end.

(** A write in the hands of its handler, a full channel and no writer that would take from it. *)
Definition stuck (i : nat) (d : string) (s : TerminalSession) : Prop :=
  handlers s !! i = Some (HSend d) ∧ length (input s) = input_cap ∧ Forall (λ x, gone_writer x = true) (writers s).

(** What can happen to a session short of a second start. *)
Inductive unrestarted : TerminalSession → TerminalSession → Prop :=
  | un_step s s' : sstep s s' → unrestarted s s'
  | un_stop s : unrestarted s (spawn_cleaner s)
  | un_write s d : unrestarted s (spawn_handler d s)
  | un_cleaner s i x : unrestarted s (cleaner_at i x s).

Lemma stuck_step i d s s' : unrestarted s s' → stuck i d s → stuck i d s' ∨ handlers s' !! i = Some HPanic.
Proof.
  intros Hs (Hh & Hin & Hw). destruct Hs as [s s' Hs| | |]; [|by left|left; split; [by apply lookup_app_l_Some|done]|by left].
  assert (∀ j x, writers s !! j = Some x → gone_writer x = true) as Hgone by (intros j x Hj; rewrite Forall_lookup in Hw; by eapply Hw).
  destruct Hs; try (unfold end_reader; destruct (reader_end err)); try (by left);
    try (match goal with H : writers _ !! _ = Some _ |- _ => by apply Hgone in H end).
  - lia.
  - destruct (decide (i0 = i)) as [->|Hne].
    + right. apply list_lookup_insert_eq. by eapply lookup_lt_Some.
    + left. split; [|done]. cbn. by rewrite list_lookup_insert_ne.
  - left. split; [done|]. split; [done|]. cbn. by apply Forall_insert.
  - left. split; [done|]. split; [done|]. cbn. by apply Forall_insert.
Qed.

Lemma panicked_stays i s s' : unrestarted s s' → handlers s !! i = Some HPanic → handlers s' !! i = Some HPanic.
Proof.
  intros Hs Hh. destruct Hs as [s s' Hs| | |]; [|done|by apply lookup_app_l_Some|done].
  destruct Hs; try (unfold end_reader; destruct (reader_end err)); try done; cbn;
    (destruct (decide (i0 = i)) as [->|Hne]; [congruence|by rewrite list_lookup_insert_ne]).
Qed.

(** once the writer of a session has died on a failed write and five more inputs have
    filled its channel, the next write is never accepted: its handler waits as long as the
    session lives, and panics when the session is ended. *)
Theorem blocked_write_only_panics i d s s' : stuck i d s → rtc unrestarted s s' →
  handlers s' !! i = Some (HSend d) ∨ handlers s' !! i = Some HPanic.
Proof.
  intros Hst Hr. assert (stuck i d s ∨ handlers s !! i = Some HPanic) as H by by left. clear Hst.
  induction Hr as [s|s s1 s' Hs Hr IH]; [destruct H as [(? & _)|]; by auto|]. apply IH.
  destruct H as [H|H]; [by eapply stuck_step|right; by eapply panicked_stays].
Qed.

(** *** A session whose shell is gone *)

Definition ex_session : TerminalSession := spawn_io (set_registration 7 (NewSession "prod_1_app" "s1")).

(** The first write fails, five are accepted after it, and a seventh comes. *)
Definition ex_accepted (k : nat) (s : TerminalSession) : TerminalSession :=
  accept "x" (set_input (input s ++ ["x"]) (handler_at k HDone (spawn_handler "x" s))).
Definition ex_failed : TerminalSession :=
  close_conn (put_error (writer_at 0 WDone (writer_at 0 WReport (set_input [] (writer_at 0 (WWrite "x") (ex_accepted 0 ex_session)))))).
Definition ex_full : TerminalSession := ex_accepted 5 (ex_accepted 4 (ex_accepted 3 (ex_accepted 2 (ex_accepted 1 ex_failed)))).
Definition ex_stuck : TerminalSession := spawn_handler "x" ex_full.

Lemma accept_runs k s : length (handlers s) = k → closed s = false → (length (input s) < input_cap)%nat → rtc unrestarted s (ex_accepted k s).
Proof.
  intros Hk Hc Hl. eapply rtc_l; [apply (un_write s "x")|]. eapply rtc_l; [|done]. apply un_step.
  apply (step_accept (spawn_handler "x" s) k "x"); [|done|done]. cbn. rewrite <- Hk. by apply list_lookup_middle.
Qed.

Lemma stuck_reached : rtc unrestarted ex_session ex_stuck.
Proof.
  etransitivity; [apply (accept_runs 0); vm_compute; by try lia|].
  eapply rtc_l; [by apply un_step, (step_receive _ 0 "x" [])|]. eapply rtc_l; [by apply un_step, (step_write_fails _ 0 "x")|].
  eapply rtc_l; [apply un_step, (step_writer_reports _ 0); [done|done|vm_compute; lia]|].
  do 5 (etransitivity; [apply accept_runs; [reflexivity|done|vm_compute; lia]|]). eapply rtc_l; [apply (un_write _ "x")|]. done.
Qed.

Lemma blocked_write_only_panics_witness : ∀ s', rtc unrestarted ex_stuck s' → handlers s' !! 6 = Some (HSend "x") ∨ handlers s' !! 6 = Some HPanic.
Proof.
  intros s' Hr. assert (stuck 6 "x" ex_stuck) as Hst by (split_and!; [reflexivity|reflexivity|vm_compute; by repeat constructor]).
  exact (blocked_write_only_panics 6 "x" ex_stuck s' Hst Hr).
Defined.

(** A stop whose unregistration fails leaves the session in the map, and its topic subscribed,
    with its channels closed: the next write panics in the handler of the event. *)
Definition ex_half_stopped : TerminalSession :=
  cleaner_at 0 CDone (announce (cleaner_at 0 CUnregister (Close (cleaner_at 0 CAnnounce (cleaner_at 0 CClose (spawn_cleaner ex_session)))))).

Definition ex_manager (s : TerminalSession) : TerminalManager := {| sessions := [s]; ActiveSessions := {["s1" := 0%nat]} |}.

Lemma ex_started serial : served serial (ex_manager ex_session).
Proof.
  eapply rtc_l; [apply (tm_create serial _ "prod_1_app" "s1"); by intros ? ? ?|]. eapply rtc_l; [|done].
  replace (ex_manager ex_session) with
    (StartTerminalSession 0 7 true true (NewSession "prod_1_app" "s1") (createTerminalSession "prod_1_app" "s1" NewTerminalManager)) by reflexivity.
  by apply (tm_start serial _ "s1").
Qed.

Lemma half_stopped_served : served true (ex_manager ex_half_stopped).
Proof.
  unfold served. etransitivity; [apply ex_started|]. eapply rtc_l; [by apply (tm_stop true _ "s1" 0 ex_session)|].
  eapply rtc_l; [by apply (tm_check true _ 0 0 (spawn_cleaner ex_session))|].
  set (s1 := cleaner_at 0 CClose (spawn_cleaner ex_session)).
  eapply rtc_l; [by apply (tm_session true _ 0 s1 (Close (cleaner_at 0 CAnnounce s1))); [|apply (step_close s1 0)]|].
  set (s2 := Close (cleaner_at 0 CAnnounce s1)).
  eapply rtc_l; [by apply (tm_session true _ 0 s2 (announce (cleaner_at 0 CUnregister s2))); [|apply (step_announce s2 0)]|].
  set (s3 := announce (cleaner_at 0 CUnregister s2)).
  eapply rtc_l; [by apply (tm_session true _ 0 s3 (cleaner_at 0 CDone s3)); [|apply (step_unregister_fails s3 0)]|]. done.
Qed.

Lemma write_after_failed_stop_panics : ∃ s, served true (ex_manager s) ∧ handlers s = [HPanic].
Proof.
  exists (handler_at 0 HPanic (spawn_handler "ls" ex_half_stopped)). split; [|done]. unfold served. etransitivity; [apply half_stopped_served|].
  eapply rtc_l; [by apply (tm_write true _ 0 ex_half_stopped "ls")|].
  eapply rtc_l; [by apply (tm_session true _ 0 (spawn_handler "ls" ex_half_stopped) (handler_at 0 HPanic (spawn_handler "ls" ex_half_stopped))); [|apply (step_send_closed _ 0 "ls")]|].
  done.
Qed.

(** Two pieces are delivered one after the other; the first is written while the second waits. *)
Definition ex_typed : TerminalSession :=
  wrote "ls" (writer_at 0 WReceive (accept "exit" (set_input ["exit"] (handler_at 1 HDone (spawn_handler "exit"
    (set_input [] (writer_at 0 (WWrite "ls") (accept "ls" (set_input ["ls"] (handler_at 0 HDone (spawn_handler "ls" ex_session))))))))))).

Lemma in_session serial s s' : sstep s s' → tmstep serial (ex_manager s) (ex_manager s').
Proof. intros Hs. by apply (tm_session serial (ex_manager s) 0 s s'). Qed.
Lemma delivers serial s d : (serial = true → pending s = []) → tmstep serial (ex_manager s) (ex_manager (spawn_handler d s)).
Proof. intros Hs. by apply (tm_write serial (ex_manager s) 0 s d). Qed.

Lemma typed_served : served true (ex_manager ex_typed).
Proof.
  unfold served. etransitivity; [apply ex_started|].
  eapply rtc_l; [by apply (delivers true _ "ls")|].
  eapply rtc_l; [apply in_session, (step_accept _ 0 "ls"); [done|done|vm_compute; lia]|].
  eapply rtc_l; [by apply in_session, (step_receive _ 0 "ls" [])|].
  eapply rtc_l; [by apply (delivers true _ "exit")|].
  eapply rtc_l; [apply in_session, (step_accept _ 1 "exit"); [done|done|vm_compute; lia]|].
  eapply rtc_l; [by apply in_session, (step_write _ 0 "ls")|]. done.
Qed.

Lemma container_input_in_order_witness : delivered ex_typed = ["ls"; "exit"] ∧ written ex_typed = ["ls"]
  ∧ accepted ex_typed = written ex_typed ++ input ex_typed ∧ written ex_typed `prefix_of` delivered ex_typed.
Proof.
  assert (sessions (ex_manager ex_typed) !! 0%nat = Some ex_typed) as Hp by reflexivity. assert (length (writers ex_typed) ≤ 1)%nat as Hl by (vm_compute; lia).
  destruct (container_input_in_order true (ex_manager ex_typed) 0 ex_typed typed_served Hp Hl) as (_ & Heq & _ & _ & Hs).
  split; [reflexivity|]. split; [reflexivity|]. split; [exact (Heq eq_refl)|exact (proj1 (Hs eq_refl))].
Defined.

(** A client that called the handlers of two events at once could swap them. *)
Definition ex_swapped : TerminalSession :=
  accept "ls" (set_input ["exit"; "ls"] (handler_at 0 HDone (accept "exit" (set_input ["exit"] (handler_at 1 HDone
    (spawn_handler "exit" (spawn_handler "ls" ex_session))))))).
Example concurrent_handlers_swap : served false (ex_manager ex_swapped) ∧ delivered ex_swapped = ["ls"; "exit"] ∧ accepted ex_swapped = ["exit"; "ls"].
Proof.
  split; [|done]. unfold served. etransitivity; [apply ex_started|].
  eapply rtc_l; [by apply (delivers false _ "ls")|]. eapply rtc_l; [by apply (delivers false _ "exit")|].
  eapply rtc_l; [apply in_session, (step_accept _ 1 "exit"); [done|done|vm_compute; lia]|].
  eapply rtc_l; [apply in_session, (step_accept _ 0 "ls"); [done|done|vm_compute; lia]|]. done.
Qed.

Lemma container_sessions_end_announced_witness : closed ex_half_stopped = true ∧ announced ex_half_stopped = 1%nat ∧ (length (input ex_half_stopped) ≤ 5)%nat.
Proof.
  assert (sessions (ex_manager ex_half_stopped) !! 0%nat = Some ex_half_stopped) as Hp by reflexivity.
  destruct (container_sessions_end_announced true (ex_manager ex_half_stopped) 0 ex_half_stopped half_stopped_served Hp) as (_ & _ & Hl & _).
  split_and!; [reflexivity|reflexivity|exact Hl].
Defined.

Lemma container_session_can_end_witness : ∃ tm', rtc (tmstep true) (ex_manager ex_half_stopped) tm' ∧ ActiveSessions tm' = ∅.
Proof.
  assert (ActiveSessions (ex_manager ex_half_stopped) !! "s1" = Some 0%nat) as Ha by reflexivity.
  destruct (container_session_can_end true (ex_manager ex_half_stopped) "s1" 0 half_stopped_served Ha) as (tm' & Hr & He & _).
  exists tm'. split; [exact Hr|]. rewrite He. reflexivity.
Defined.
