(* ===== verification/Service.v ===== *)
(** * The process, its service and its restarts (src/src/main.go, servicecmd.go,
      servicecmd_windows.go, service_windows.go, lifecycle/lifecycle.go)

    The command line of the process and of [service install], the installation and removal of
    the Windows service over the calls of the service manager, the control loop of the service
    and the broker of restart requests. *)
From S2P Require Import Prelude Errdefs GoValue Common Effects.
Open Scope go_scope.
#[local] Open Scope list_scope.

(** ** Text *)

Definition quote : ascii := Ascii.ascii_of_nat 34.
Definition backslash : ascii := Ascii.ascii_of_nat 92.
Definition quoted (s : string) : string := String quote (s +:+ String quote "").
Definition crlf : string := String (Ascii.ascii_of_nat 13) (String (Ascii.ascii_of_nat 10) "").
Definition newline : string := String (Ascii.ascii_of_nat 10) "".
Definition bs : string := String backslash "".

Definition serviceName : string := "reagent".
Definition serviceDisplayName : string := "IronFlock Device Agent".
Definition repairTaskName : string := "IronFlock Agent Repair".
Definition serviceConfigName : string := "device.flock".

Definition certImportArgs (store certPath : string) : list string := ["-addstore"; "-f"; store; certPath].
Definition certDeleteArgs (store name : string) : list string := ["-delstore"; store; name].
Definition defenderAddExclusionCmd (frpcPath : string) : string := "Add-MpPreference -ExclusionPath '" +:+ frpcPath +:+ "'".
Definition defenderRemoveExclusionCmd (frpcPath : string) : string := "Remove-MpPreference -ExclusionPath '" +:+ frpcPath +:+ "'".

(** *** Command lines *)

(** The field read so far, and whether a quote is open. *)
Fixpoint split_fields (s cur : string) (inQuote : bool) : list string :=
  let flush := if String.eqb cur "" then [] else [cur] in
  match s with
  | EmptyString => flush
  | String r s =>
      if Ascii.eqb r quote then split_fields s cur (negb inQuote)
      else if Ascii.eqb r " " && negb inQuote then flush ++ split_fields s "" inQuote
      else split_fields s (cur +:+ String r "") inQuote
  end.
Definition splitCommandLine (s : string) : list string := split_fields s "" false.

Fixpoint after_flag (name : string) (fields : list string) : string :=
  match fields with
  | [] => ""
  | f :: rest =>
      match rest with
      | [] => ""
      | v :: _ => if String.eqb f name then v else after_flag name rest
      end
  end.
Definition agentDirFromImagePath (imagePath : string) : string := after_flag "-agentDir" (splitCommandLine imagePath).

(** [syscall.EscapeArg]: [slashes] are the backslashes just before. *)
Definition blank (a : ascii) : bool := Ascii.eqb a " " || Ascii.eqb a (Ascii.ascii_of_nat 9).
Fixpoint str_repeat (s : string) (n : nat) : string := match n with O => "" | S n => s +:+ str_repeat s n end.
Fixpoint escape_from (s : string) (slashes : nat) (hasSpace : bool) : string :=
  match s with
  | EmptyString => if hasSpace then str_repeat bs slashes +:+ String quote "" else ""
  | String c s =>
      if Ascii.eqb c quote then str_repeat bs slashes +:+ bs +:+ String c (escape_from s 0 hasSpace)
      else if Ascii.eqb c backslash then String c (escape_from s (S slashes) hasSpace)
      else String c (escape_from s 0 hasSpace)
  end.
Definition EscapeArg (s : string) : string :=
  if String.eqb s "" then quoted ""
  else
    let hasSpace := contains_any blank s in
    let needsBackslash := contains_any (λ a, Ascii.eqb a quote || Ascii.eqb a backslash) s in
    if negb needsBackslash then (if hasSpace then quoted s else s)
    else (if hasSpace then String quote "" else "") +:+ escape_from s 0 hasSpace.

(** What the service manager is given to run. *)
Definition command_line (args : list string) : string := join_with " " (map EscapeArg args).

(** ** Flags

    What the programs use of Go's [flag] package: flags with values of three kinds, given as
    texts; the values a parse ends with are texts again, in the form their kind prints. *)

(** [strconv.ParseBool]. *)
Definition parse_bool (s : string) : option bool :=
  if existsb (String.eqb s) ["1"; "t"; "T"; "TRUE"; "true"; "True"] then Some true
  else if existsb (String.eqb s) ["0"; "f"; "F"; "FALSE"; "false"; "False"] then Some false
  else None.

(** [strconv.ParseUint] with the base taken from the text: a prefix for two, eight or sixteen, a
    leading zero for eight, and underscores between digits. *)
Definition digit_value (a : ascii) : option N :=
  let n := N_of_ascii (ascii_lower a) in
  if ((48 <=? n) && (n <=? 57))%N then Some (n - 48)%N
  else if ((97 <=? n) && (n <=? 122))%N then Some (n - 87)%N else None.

Fixpoint parse_base (base acc : N) (s : string) : option N :=
  match s with
  | EmptyString => Some acc
  | String "_" s => parse_base base acc s
  | String a s =>
      match digit_value a with
      | Some d => if (d <? base)%N && (acc * base + d <? two64)%N then parse_base base (acc * base + d)%N s else None
      | None => None
      end
  end.

(** The kind of the last character: a digit, an underscore, something else, or none yet. *)
Inductive last_char := LastDigit | LastUnderscore | LastOther | NoLast.
Fixpoint underscores_ok (hex : bool) (last : last_char) (s : string) : bool :=
  match s with
  | EmptyString => match last with LastUnderscore => false | _ => true end
  | String a s =>
      match digit_value a with
      | Some d => if (d <? 10)%N || hex && (d <? 16)%N then underscores_ok hex LastDigit s
          else match last with LastUnderscore => false | _ => underscores_ok hex LastOther s end
      | None =>
          if Ascii.eqb a "_" then match last with LastDigit => underscores_ok hex LastUnderscore s | _ => false end
          else match last with LastUnderscore => false | _ => underscores_ok hex LastOther s end
      end
  end.

(** The base of a text, its digits, and whether its underscores are well placed. *)
Definition base_of (s : string) : N * string * bool :=
  match s with
  | String "0" (String c (String d rest)) =>
      let l := ascii_lower c in let digits := String d rest in
      if Ascii.eqb l "b" then (2%N, digits, underscores_ok false LastDigit digits)
      else if Ascii.eqb l "o" then (8%N, digits, underscores_ok false LastDigit digits)
      else if Ascii.eqb l "x" then (16%N, digits, underscores_ok true LastDigit digits)
      else (8%N, String c digits, underscores_ok false NoLast s)
  | String "0" rest => (8%N, rest, underscores_ok false NoLast s)
  | _ => (10%N, s, underscores_ok false NoLast s)
  end.
Definition parse_uint0 (s : string) : option N :=
  if String.eqb s "" then None
  else let '(base, digits, ok) := base_of s in if ok then parse_base base 0 digits else None.

(** *** Arguments *)

(** [flag.FlagSet]: the kinds of flags and the values they got. *)
Inductive flag_kind := FlagString | FlagBool | FlagUint.
Definition flag_error (text : string) : error := Plain text.

(** A flag argument without its dashes: its name and the value after an equals sign. *)
Definition flag_name (arg : string) : option (string * option string) :=
  match arg with
  | String "-" rest =>
      let name := match rest with String "-" rest => rest | _ => rest end in
      match name with
      | EmptyString => None
      | String "-" _ | String "=" _ => None
      | String a rest =>
          match str_cut "=" rest with
          | (n, v, true) => Some (String a n, Some v)
          | (_, _, false) => Some (name, None)
          end
      end
  | _ => None
  end.

(** An argument that is no flag ends the parsing, and so does [--]. *)
Definition ends_flags (arg : string) : bool :=
  match arg with
  | String "-" (String "-" EmptyString) => true
  | String "-" EmptyString => true
  | String "-" _ => false
  | _ => true
  end.

Fixpoint parse_flags (kinds : list (string * flag_kind)) (args : list string) (values : list (string * string)) : list (string * string) + error :=
  match args with
  | [] => inl values
  | arg :: args =>
      if ends_flags arg then inl values
      else
        match flag_name arg with
        | None => inr (flag_error ("bad flag syntax: " +:+ arg))
        | Some (name, value) =>
            match map_get name kinds with
            | None =>
                if String.eqb name "help" || String.eqb name "h" then inr (flag_error "flag: help requested")
                else inr (flag_error ("flag provided but not defined: -" +:+ name))
            | Some FlagBool =>
                let v := default "true" value in
                match parse_bool v with
                | None => inr (flag_error ("invalid boolean value " +:+ v +:+ " for -" +:+ name))
                | Some b => parse_flags kinds args (map_set name (if b then "true" else "false") values)
                end
            | Some kind =>
                let set v args :=
                  match kind with
                  | FlagUint =>
                      match parse_uint0 v with
                      | Some n => parse_flags kinds args (map_set name (itoa n) values)
                      | None => inr (flag_error ("invalid value " +:+ v +:+ " for flag -" +:+ name))
                      end
                  | _ => parse_flags kinds args (map_set name v values)
                  end in
                match value, args with
                | Some v, _ => set v args
                | None, v :: args => set v args
                | None, [] => inr (flag_error ("flag needs an argument: -" +:+ name))
                end
            end
        end
  end.

(** ** Installing *)

Record serviceInstallOptions := {
  so_ConfigPath : string; so_AgentDir : string; so_AppsDir : string; so_Proxy : string; so_StartNow : bool; so_AgentDirSet : bool;
}.

Definition install_flags : list (string * flag_kind) :=
  [("config", FlagString); ("agentDir", FlagString); ("appsDir", FlagString); ("proxy", FlagString); ("noStart", FlagBool); ("start", FlagBool)].

(** *** The calls of the system and of the service manager *)

Inductive svc_state := SvcStopped | SvcStartPending | SvcStopPending | SvcRunning | SvcOther (n : N).

Inductive SvcCall : Type → Type :=
  | IsElevated : SvcCall bool
  | ExistingAgentDirs : SvcCall (list string)
  | StatPath (p : string) : SvcCall (unit + error)
  | MakeDirs (dirs : list string) : SvcCall (unit + error)
  | RunCommand (name : string) (args : list string) : SvcCall (unit + error)
  | Executable : SvcCall (string + error)
  | AbsPath (p : string) : SvcCall (string + error)
  | OpenSource (p : string) : SvcCall (string + error)       (* its whole content *)
  | CreateTemp (p : string) : SvcCall (unit + error)
  | CopyInto (p : string) : SvcCall (option (nat * error))   (* all of the source, or some bytes of it *)
  | CloseTemp (p : string) : SvcCall (unit + error)
  | RemoveTemp (p : string) : SvcCall bool
  | RenameTemp (p q : string) : SvcCall (unit + error)
  | WriteText (p text : string) : SvcCall (unit + error)
  | MgrConnect : SvcCall (unit + error)
  | OpenService : SvcCall (unit + error)
  | CreateService (exe : string) (args : list string) : SvcCall (unit + error)
  | SetRecoveryActions (delays : list N) : SvcCall (unit + error)
  | SetRecoveryOnNonCrash : SvcCall (unit + error)
  | InstallEventLog : SvcCall (unit + error)
  | SetServiceProxy (env : list string) : SvcCall (unit + error)
  | StartService : SvcCall (unit + error)
  | QueryService : SvcCall ((svc_state * N) + error)
  | ControlStop : SvcCall (svc_state + error)
  | DeleteService : SvcCall (unit + error)
  | ServiceImagePath : SvcCall (string + error)
  | RemoveEventLog : SvcCall (unit + error)
  | EmbeddedRoots : SvcCall (list (string * string * string))  (* file, common name, PEM *)
  | PastDeadline : SvcCall bool
  | SleepSecond : SvcCall unit
  | PrintLine (text : string) : SvcCall unit.

(** The files an installation writes, by path. *)
Abbreviation Svc := (M SvcCall (gmap string string)).
Abbreviation svc_env := (env SvcCall (gmap string string)).
Abbreviation svc_world := (state SvcCall (gmap string string)).

(** [filepath.Join] of the operating system, and [strings.EqualFold] of paths. *)
Class ServiceHost := { path_join : list string → string; equal_paths : string → string → bool }.

Section service.
Context `{ServiceHost}.

Definition parseServiceInstallFlags (args : list string) (programData : string) : serviceInstallOptions + error :=
  match parse_flags install_flags args [] with
  | inr e => inr e
  | inl values =>
      let get name := default "" (map_get name values) in
      if String.eqb (get "config") "" then inr (Plain "-config <path-to-.flock> is required")
      else if String.eqb (get "agentDir") "" && String.eqb programData "" then
        inr (Plain "%ProgramData% is not set and no -agentDir was given")
      else
        let agentDir := if String.eqb (get "agentDir") "" then path_join [programData; "IronFlock"; "Reagent"] else get "agentDir" in
        inl {| so_ConfigPath := get "config"; so_AgentDir := agentDir;
               so_AppsDir := if String.eqb (get "appsDir") "" then path_join [agentDir; "apps"] else get "appsDir";
               so_Proxy := get "proxy"; so_StartNow := negb (String.eqb (get "noStart") "true");
               so_AgentDirSet := negb (String.eqb (get "agentDir") "") |}
  end.

(** The directories of an installation. *)
Definition installCliArgs (o : serviceInstallOptions) : list string :=
  [so_AppsDir o; so_AppsDir o +:+ "/build"; so_AppsDir o +:+ "/compose"; so_AppsDir o +:+ "/shared"; so_AgentDir o +:+ "/downloads"].

Definition serviceBinaryArgs (o : serviceInstallOptions) : list string :=
  ["-config"; path_join [so_AgentDir o; serviceConfigName];
   "-agentDir"; so_AgentDir o;
   "-appsDir"; so_AppsDir o;
   "-dbFileName"; path_join [so_AgentDir o; "reagent.db"];
   "-logFile"; path_join [so_AgentDir o; "reagent.log"]].

Definition migrationAbortMessage (existingDirs : list string) (defaultAgentDir : string) : string :=
  "Found data from a previous agent installation:" +:+ newline
  +:+ String.concat "" (map (λ dir, "  " +:+ dir +:+ newline) existingDirs)
  +:+ newline +:+ "Re-run with an explicit -agentDir to choose:" +:+ newline
  +:+ "  keep using the existing device data:  -agentDir " +:+ quoted (default "" (head existingDirs)) +:+ newline
  +:+ "  start fresh (existing app data stays behind):  -agentDir " +:+ quoted defaultAgentDir +:+ newline.

Definition repairCmdContent (agentDir : string) : string :=
  let file name := quoted ("%AGENTDIR%" +:+ bs +:+ name) in
  String.concat crlf
    ["@echo off";
     "rem IronFlock agent repair (registered as scheduled task '" +:+ repairTaskName +:+ "')";
     "rem Restores the service binary if an interrupted self-update left it missing.";
     "set " +:+ quoted ("AGENTDIR=" +:+ agentDir);
     "if exist " +:+ file "reagent.exe" +:+ " goto start";
     "if exist " +:+ file "reagent-prev.exe" +:+ " (";
     "  ren " +:+ file "reagent-prev.exe" +:+ " " +:+ quoted "reagent.exe";
     "  goto start";
     ")";
     "for /f " +:+ quoted "delims=" +:+ " %%F in ('dir /b /o-d " +:+ file "reagent-v*.exe" +:+ " 2^>nul') do (";
     "  ren " +:+ file "%%F" +:+ " " +:+ quoted "reagent.exe";
     "  goto start";
     ")";
     ":start";
     "sc start reagent";
     ""].

(** A step whose failure is only printed. *)
Definition warned (c : SvcCall (unit + error)) : Svc unit := call c;; ret tt.
(** A step whose failure ends the installation, with a text of its own. *)
Definition required (text : string) (c : SvcCall (unit + error)) : Svc unit :=
  let! r := call c in match r with inl _ => ret tt | inr e => throw (Annotated text e) end.

Definition elevation_error : error := Plain "this command must be run from an elevated (Administrator) prompt".
Definition requireElevation : Svc unit :=
  let! e := call IsElevated in if e : bool then ret tt else throw elevation_error.

(** Copied to a temporary name first; a copy of a file onto itself does nothing. *)
Definition copyFileIfDifferent (src dst : string) : Svc unit :=
  let! srcAbs := callE (AbsPath src) in
  let! dstAbs := callE (AbsPath dst) in
  if equal_paths srcAbs dstAbs then ret tt
  else
    let! content := callE (OpenSource src) in
    let tmp := dst +:+ ".tmp" in
    callE (CreateTemp tmp);;
    modify (insert tmp "");;
    let! copied := call (CopyInto tmp) in
    let written := match copied with None => content | Some (n, _) => String.substring 0 n content end in
    modify (insert tmp written);;
    let! closed := call (CloseTemp tmp) in
    match copied, closed with
    | Some (_, e), _ | None, inr e =>
        let! removed := call (RemoveTemp tmp) in
        when removed (modify (delete tmp));;
        throw e
    | None, inl _ =>
        callE (RenameTemp tmp dst);;
        modify (λ files, delete tmp (<[dst := written]> files))
    end.

Definition trust_stores : list string := ["Root"; "TrustedPublisher"].

Definition installTrustAnchors (agentDir : string) : Svc unit :=
  let! roots := call EmbeddedRoots in
  for_each roots (λ root,
    let certPath := path_join [agentDir; root.1.1] in
    let! r := call (WriteText certPath root.2) in
    match r with
    | inr _ => ret tt
    | inl _ => for_each trust_stores (λ store, warned (RunCommand "certutil" (certImportArgs store certPath)))
    end).

Definition removeTrustAnchors (agentDir : string) : Svc unit :=
  let! roots := call EmbeddedRoots in
  for_each roots (λ root,
    for_each trust_stores (λ store, warned (RunCommand "certutil" (certDeleteArgs store root.1.2)));;
    call (RemoveTemp (path_join [agentDir; root.1.1]));; ret tt).

Definition sidSystem : string := "*S-1-5-18".
Definition sidAdministrators : string := "*S-1-5-32-544".
Definition sidUsers : string := "*S-1-5-32-545".

Definition harden_args (agentDir : string) : list string :=
  [agentDir; "/inheritance:r"; "/grant"; sidSystem +:+ ":(OI)(CI)F"; "/grant"; sidAdministrators +:+ ":(OI)(CI)F"].
Definition apps_grant_args (appsDir : string) : list string := [appsDir; "/grant"; sidUsers +:+ ":(OI)(CI)M"].

Definition timeout_error : error := Plain "the service did not report running within 30s".
Definition stopped_error (code : N) : error := Plain ("the service stopped immediately after starting (exit code " +:+ itoa code +:+ ")").

(** [turns] bounds the queries. *)
Fixpoint waitForRunning (turns : nat) : Svc unit :=
  match turns with
  | O => hang
  | S turns =>
      let! status := call QueryService in
      match status with
      | inr e => throw (Annotated "could not query the service after starting it" e)
      | inl (SvcRunning, _) => ret tt
      | inl (SvcStopped, code) => throw (stopped_error code)
      | inl _ =>
          let! late := call PastDeadline in
          if late : bool then throw timeout_error else call SleepSecond;; waitForRunning turns
      end
  end.

(** The files, the rights and the repair script; all of it is required. *)
Definition install_files (o : serviceInstallOptions) : Svc unit :=
  required "failed to create agent directories" (MakeDirs (installCliArgs o));;
  required "failed to restrict permissions" (RunCommand "icacls" (harden_args (so_AgentDir o)));;
  required "failed to grant app-data permissions" (RunCommand "icacls" (apps_grant_args (so_AppsDir o)));;
  let! currentExe := callE Executable in
  let! r := try_ (copyFileIfDifferent currentExe (path_join [so_AgentDir o; "reagent.exe"])) in
  match r with
  | inr e => throw (Annotated "failed to install the agent binary" e)
  | inl _ =>
      let! r := try_ (copyFileIfDifferent (so_ConfigPath o) (path_join [so_AgentDir o; serviceConfigName])) in
      match r with
      | inr e => throw (Annotated "failed to install the .flock config" e)
      | inl _ => required "failed to write repair.cmd" (WriteText (path_join [so_AgentDir o; "repair.cmd"]) (repairCmdContent (so_AgentDir o)))
      end
  end.

(** The entry in the service manager, unless there is one. *)
Definition create_service (o : serviceInstallOptions) : Svc unit :=
  required "failed to connect to the service manager" MgrConnect;;
  let! existing := call OpenService in
  match existing with
  | inl _ => throw (Plain "service is already installed - run 'reagent service uninstall' first")
  | inr _ => required "failed to create the service" (CreateService (path_join [so_AgentDir o; "reagent.exe"]) (serviceBinaryArgs o))
  end.

(** What only hardens the service, and the proxy, which does not. *)
Definition harden_service (o : serviceInstallOptions) : Svc unit :=
  warned (SetRecoveryActions [5; 30; 120]%N);;
  warned SetRecoveryOnNonCrash;;
  warned InstallEventLog;;
  warned (RunCommand "schtasks"
    ["/Create"; "/F"; "/TN"; repairTaskName; "/SC"; "ONSTART"; "/RU"; "SYSTEM"; "/TR"; quoted (path_join [so_AgentDir o; "repair.cmd"])]);;
  when (negb (String.eqb (so_Proxy o) ""))
    (required "failed to set the service proxy environment"
       (SetServiceProxy ["HTTP_PROXY=" +:+ so_Proxy o; "HTTPS_PROXY=" +:+ so_Proxy o; "NO_PROXY=localhost,127.0.0.1"]));;
  installTrustAnchors (so_AgentDir o);;
  warned (RunCommand "powershell" ["-NonInteractive"; "-Command"; defenderAddExclusionCmd (path_join [so_AgentDir o; "frpc.exe"])]).

Definition start_service (turns : nat) : Svc unit :=
  required "installed, but failed to start the service" StartService;;
  let! r := try_ (waitForRunning turns) in
  match r with
  | inl _ => call (PrintLine "Service started.")
  | inr _ => ret tt
  end.

Definition serviceInstall (turns : nat) (args : list string) (programData : string) : Svc unit :=
  requireElevation;;
  let! o := lift (parseServiceInstallFlags args programData) in
  let! existing := (if so_AgentDirSet o then ret [] else call ExistingAgentDirs) in
  if negb (Nat.eqb (length existing) 0) then throw (Plain (migrationAbortMessage existing (so_AgentDir o)))
  else
    required "cannot read the .flock config file" (StatPath (so_ConfigPath o));;
    install_files o;;
    create_service o;;
    harden_service o;;
    if so_StartNow o then start_service turns
    else call (PrintLine "Not started (-noStart). Start it with: reagent service start").

(** ** Controlling and removing *)

Definition not_installed : error := Plain "service is not installed".

(** The wait of a stop: at most thirty queries, a second apart. *)
Fixpoint await_stopped (n : nat) (state : svc_state) : Svc (svc_state + error) :=
  match n with
  | O => ret (inl state)
  | S n =>
      match state with
      | SvcStopped => ret (inl SvcStopped)
      | _ =>
          call SleepSecond;;
          let! status := call QueryService in
          match status with
          | inr e => ret (inr e)
          | inl (state, _) => await_stopped n state
          end
      end
  end.

Definition open_service : Svc unit :=
  required "failed to connect to the service manager" MgrConnect;;
  let! r := call OpenService in match r with inl _ => ret tt | inr _ => throw not_installed end.

Definition serviceControl (action : Svc unit) : Svc unit := requireElevation;; open_service;; action.

Definition serviceStop : Svc unit := serviceControl (
  let! status := callE ControlStop in
  let! r := await_stopped 30 status in
  match r with
  | inr e => throw e
  | inl SvcStopped => ret tt
  | inl _ => throw (Plain "service did not stop in time")
  end).

Definition state_name (s : svc_state) : string :=
  match s with
  | SvcStopped => "stopped" | SvcStartPending => "start pending" | SvcStopPending => "stop pending" | SvcRunning => "running"
  | SvcOther n =>
      match n with
      | 5%N => "continue pending" | 6%N => "pause pending" | 7%N => "paused"
      | n => "unknown (" +:+ itoa n +:+ ")"
      end
  end.
Definition serviceStatus : Svc unit := serviceControl (
  let! status := callE QueryService in call (PrintLine (state_name status.1))).

(** The stop before a removal is tried, its outcome ignored. *)
Definition serviceUninstall : Svc unit :=
  requireElevation;;
  open_service;;
  let! image := call ServiceImagePath in
  let agentDir := match image with inl path => agentDirFromImagePath path | inr _ => "" end in
  let! stop := call ControlStop in
  (match stop with inl status => await_stopped 30 status;; ret tt | inr _ => ret tt end);;
  required "failed to delete the service" DeleteService;;
  warned RemoveEventLog;;
  warned (RunCommand "schtasks" ["/Delete"; "/F"; "/TN"; repairTaskName]);;
  when (negb (String.eqb agentDir ""))
    (warned (RunCommand "powershell" ["-NonInteractive"; "-Command"; defenderRemoveExclusionCmd (path_join [agentDir; "frpc.exe"])]);;
     removeTrustAnchors agentDir).

(** The exit code of [reagent service ...]. *)
Definition runServiceCommand (turns : nat) (args : list string) (programData : string) : Svc N :=
  let run (m : Svc unit) : Svc N := let! r := try_ m in ret (match r with inl _ => 0 | inr _ => 1 end)%N in
  match args with
  | [] => ret 2%N
  | name :: args =>
      if String.eqb name "install" then run (serviceInstall turns args programData)
      else if String.eqb name "uninstall" then run serviceUninstall
      else if String.eqb name "start" then run (serviceControl (callE StartService))
      else if String.eqb name "stop" then run serviceStop
      else if String.eqb name "status" then run serviceStatus
      else ret 2%N
  end.
End service.

(** ** Restart requests (lifecycle.go) *)

(** The channel of requests, of capacity one, once someone subscribed. *)
Abbreviation broker := (option (list string)).
Definition ErrNotSupervised : error := Plain "no process supervisor available: the agent is not running as a service".
Definition Subscribe (b : broker) : broker := match b with None => Some [] | Some q => Some q end.
Definition Supervised (b : broker) : bool := match b with Some _ => true | None => false end.
Definition RequestRestart (reason : string) (b : broker) : broker * option error :=
  match b with
  | None => (None, Some ErrNotSupervised)
  | Some [] => (Some [reason], None)
  | Some q => (Some q, None)
  end.

(** ** The control loop of the service (service_windows.go) *)

Inductive svc_event :=
  | AgentStarted | AgentFailed (e : error) | RestartRequested (reason : string)
  | Interrogate (status : string) | StopRequest | ShutdownRequest | OtherRequest.
Inductive svc_report := ReportStartPending | ReportRunning | ReportStopPending | ReportCurrent (status : string) | AgentShutdown.
Inductive svc_end := ExitForRestart (reason : string) | CleanStop | StillRunning.

Definition shutdown_reports (agent : bool) : list svc_report := ReportStopPending :: (if agent then [AgentShutdown] else []).

Fixpoint control_loop (agent : bool) (events : list svc_event) : list svc_report * svc_end :=
  match events with
  | [] => ([], StillRunning)
  | e :: events =>
      match e with
      | AgentStarted => control_loop true events
      | AgentFailed _ => ([], ExitForRestart "agent startup failed")
      | RestartRequested reason => (shutdown_reports agent, ExitForRestart reason)
      | Interrogate status => let '(rs, end_) := control_loop agent events in (ReportCurrent status :: rs, end_)
      | StopRequest | ShutdownRequest => (shutdown_reports agent, CleanStop)
      | OtherRequest => control_loop agent events
      end
  end.

Definition Execute (rolledBack : bool) (events : list svc_event) : list svc_report * svc_end :=
  if rolledBack then ([ReportStartPending], ExitForRestart "rolled back a failed agent update")
  else let '(rs, end_) := control_loop false events in (ReportStartPending :: ReportRunning :: rs, end_).

(** ** The process (main.go) *)

Inductive process := ServiceCommand (args : list string) | PrintVersion | PrintArch | NeedConfig | LockFailed | RunService | RunConsole.

(** What the command line [args], with its parsed flags, makes the process do. *)
Definition main_dispatch (args : list string) (configFile : string) (version arch locked asService : bool) : process :=
  match args with
  | _ :: first :: rest => if String.eqb first "service" then ServiceCommand rest else
      if String.eqb configFile "" then (if version then PrintVersion else if arch then PrintArch else NeedConfig)
      else if negb locked then LockFailed else if asService then RunService else RunConsole
  | _ =>
      if String.eqb configFile "" then (if version then PrintVersion else if arch then PrintArch else NeedConfig)
      else if negb locked then LockFailed else if asService then RunService else RunConsole
  end.
