(* ===== verification/ServiceSpec.v ===== *)
(** * What the service of the agent guarantees *)
From S2P Require Import Prelude Errdefs GoValue Common Effects Service.
Open Scope go_scope.
#[local] Open Scope list_scope.

(** ** Command lines *)

(** The backslashes at the end, after [k] before the text. *)
Fixpoint trailing (s : string) (k : nat) : nat :=
  match s with EmptyString => k | String c s => if Ascii.eqb c backslash then trailing s (S k) else trailing s 0 end.

(** An argument whose escaping is read back: not empty, without quotes, and without a
    backslash at the end of one that has to be quoted. *)
Definition plain_arg (s : string) : Prop := s ≠ "" ∧ lacks quote s = true ∧ (contains_any blank s = true → trailing s 0 = 0%nat).

Lemma lacks_cons c a s : lacks c (String a s) = true → Ascii.eqb a c = false ∧ lacks c s = true.
Proof.
  unfold lacks. cbn [str_forall]. unfold not_char. intros [Ha Hs]%andb_true_iff. apply negb_true_iff in Ha. by split.
Qed.

Lemma escape_from_plain s : ∀ k b, lacks quote s = true →
  escape_from s k b = s +:+ (if b then str_repeat bs (trailing s k) +:+ String quote "" else "").
Proof.
  induction s as [|a s IH]; intros k b Hl; [done|]. apply lacks_cons in Hl as [Hq Hl]. cbn [escape_from trailing]. rewrite Hq.
  destruct (Ascii.eqb a backslash); by rewrite IH.
Qed.

Lemma escape_plain s : plain_arg s → EscapeArg s = if contains_any blank s then quoted s else s.
Proof.
  intros (Hne & Hq & Ht). unfold EscapeArg. rewrite (proj2 (String.eqb_neq _ _) Hne). destruct (negb _); [done|].
  rewrite escape_from_plain by done. destruct (contains_any blank s) eqn:Hb; [by rewrite (Ht eq_refl)|]. cbn. by rewrite str_app_nil_r.
Qed.

(** Within quotes everything is taken; without a quote or a space, too. *)
Lemma split_quoted s : ∀ cur rest, lacks quote s = true →
  split_fields (s +:+ String quote rest) cur true = split_fields rest (cur +:+ s) false.
Proof.
  induction s as [|a s IH]; intros cur rest Hl; cbn [String.append split_fields].
  - by rewrite Ascii.eqb_refl, str_app_nil_r.
  - apply lacks_cons in Hl as [Ha Hl]. rewrite Ha, andb_false_r, IH by done. by rewrite str_app_assoc.
Qed.

Lemma split_unquoted s : ∀ cur rest, lacks quote s = true → contains_any blank s = false →
  split_fields (s +:+ rest) cur false = split_fields rest (cur +:+ s) false.
Proof.
  induction s as [|a s IH]; intros cur rest Hl Hb; cbn [String.append split_fields]; [by rewrite str_app_nil_r|].
  apply lacks_cons in Hl as [Ha Hl]. unfold contains_any in Hb. cbn [str_forall] in Hb. rewrite negb_false_iff in Hb. apply andb_true_iff in Hb as [Hs Hb].
  unfold blank in Hs. apply negb_true_iff, orb_false_iff in Hs as [Hs _]. rewrite Ha, Hs. cbn [andb].
  rewrite IH by (try done; unfold contains_any; by rewrite Hb). by rewrite str_app_assoc.
Qed.

Lemma split_escaped s rest : plain_arg s → split_fields (EscapeArg s +:+ rest) "" false = split_fields rest s false.
Proof.
  intros Hs. rewrite escape_plain by done. destruct Hs as (_ & Hq & _). destruct (contains_any blank s) eqn:Hb.
  - unfold quoted. cbn [String.append split_fields]. rewrite Ascii.eqb_refl. cbn [negb]. rewrite str_app_assoc. cbn [String.append].
    by rewrite split_quoted.
  - by rewrite split_unquoted.
Qed.

(** A command line of plain arguments is split into them. *)
Lemma split_command_line args : Forall plain_arg args → splitCommandLine (command_line args) = args.
Proof.
  unfold splitCommandLine, command_line. induction args as [|s args IH]; intros Hf; [done|]. apply Forall_cons in Hf as [Hs Hf].
  assert (s ≠ "") as Hne by apply Hs. destruct args as [|s' args].
  - cbn [map join_with]. rewrite <- (str_app_nil_r (EscapeArg s)), split_escaped by done. cbn [split_fields].
    by rewrite (proj2 (String.eqb_neq _ _) Hne).
  - specialize (IH Hf). change (join_with " " (map EscapeArg (s :: s' :: args))) with (EscapeArg s +:+ String " " (join_with " " (map EscapeArg (s' :: args)))).
    rewrite split_escaped by done. cbn [split_fields]. change (Ascii.eqb " " quote) with false. cbn [Ascii.eqb andb negb].
    rewrite (proj2 (String.eqb_neq _ _) Hne). cbn. by f_equal.
Qed.

Section service.
Context `{ServiceHost}.

(** what the removal of the service reads from the command line that its installation had
    registered is the agent directory of the installation, with or without spaces. *)
Theorem agent_dir_recovered o exe : plain_arg exe → Forall plain_arg (serviceBinaryArgs o) →
  exe ≠ "-agentDir" → path_join [so_AgentDir o; serviceConfigName] ≠ "-agentDir" →
  agentDirFromImagePath (command_line (exe :: serviceBinaryArgs o)) = so_AgentDir o.
Proof.
  intros He Hf Hne Hc. unfold agentDirFromImagePath. rewrite split_command_line by by constructor. unfold serviceBinaryArgs. cbn [after_flag].
  rewrite (proj2 (String.eqb_neq _ _) Hne), (proj2 (String.eqb_neq _ _) Hc). done.
Qed.

(** ** Copies *)

Definition world_of (e : event SvcCall (gmap string string)) : gmap string string := match e with Ev _ _ w => w end.

Section copies.
Variable en : svc_env.
Variable dst : string.
(** Nobody else writes the file. *)
Hypothesis dst_private : ∀ lg (w : gmap string string), interfere en lg w !! dst = w !! dst.
#[local] Set Default Proof Using "Type*".

(** At every call since [st0] the file was as it was then. *)
Definition untouched (st0 st : svc_world) : Prop :=
  world st !! dst = world st0 !! dst
  ∧ ∃ new, log st = new ++ log st0 ∧ Forall (λ e, world_of e !! dst = world st0 !! dst) new.

Lemma untouched_call {T} (c : SvcCall T) st0 : keeps en (untouched st0) (call c).
Proof.
  apply keeps_call. intros st r (Hw & new & Hl & Hf). split; [cbn; by rewrite dst_private|].
  exists (Ev c r (world st) :: new). split; [cbn; by rewrite Hl|]. by constructor.
Qed.

Lemma untouched_modify f st0 : (∀ w : gmap string string, f w !! dst = w !! dst) → keeps en (untouched st0) (modify f).
Proof. intros Hf. apply keeps_modify. intros st (Hw & Hl). split; [cbn; by rewrite Hf|exact Hl]. Qed.

Lemma tmp_other : dst +:+ ".tmp" ≠ dst.
Proof using Type. clear. induction dst as [|a s IH]; [done|]. cbn. intros [= E]. by apply IH. Qed.

Lemma untouched_refl st : untouched st st.
Proof using Type. split; [done|]. by exists []. Qed.

Lemma tmp_insert (v : string) (w : gmap string string) : <[dst +:+ ".tmp" := v]> w !! dst = w !! dst.
Proof using Type. rewrite lookup_insert_ne; [done|]. apply tmp_other. Qed.
Lemma tmp_delete (w : gmap string string) : delete (dst +:+ ".tmp") w !! dst = w !! dst.
Proof using Type. rewrite lookup_delete_ne; [done|]. apply tmp_other. Qed.

Ltac whole := repeat (keeps_step || (apply untouched_call; done)
  || (apply untouched_modify; intros ?; first [apply tmp_insert|apply tmp_delete])).

(** The file was replaced by the whole source. *)
Definition replaced (src : string) (st0 st : svc_world) : Prop :=
  ∃ content w new, log st = new ++ log st0 ∧ Forall (λ e, world_of e !! dst = world st0 !! dst) new
    ∧ Ev (OpenSource src) (inl content) w ∈ log st ∧ world st !! dst = Some content.

(** The source was read, and the file is untouched. *)
Definition copying (src content : string) (st0 st : svc_world) : Prop :=
  untouched st0 st ∧ ∃ w, Ev (OpenSource src) (inl content) w ∈ log st.

Lemma copying_call {T} (c : SvcCall T) src content st0 : keeps en (copying src content st0) (call c).
Proof.
  intros st [Hu [w Hw]]. split; [by apply untouched_call|]. exists w. cbn. by right.
Qed.

Lemma copying_modify f src content st0 : (∀ w : gmap string string, f w !! dst = w !! dst) → keeps en (copying src content st0) (modify f).
Proof. intros Hf st [Hu Hw]. split; [by apply untouched_modify|exact Hw]. Qed.

Lemma step_then {A B} (P : svc_world → Prop) (m : Svc A) (f : A → Svc B) Q :
  keeps en P m → (∀ o st, P st → Q o st) → (∀ a, triple en P (f a) Q) → triple en P (bind m f) Q.
Proof.
  intros Hm HQ Hf. apply triple_bind with (R := λ _, P); [|done]. intros st Hst. specialize (Hm st Hst).
  unfold seq_post. destruct (m en st) as [[] st']; cbn in *; auto.
Qed.

Definition copied_whole (src : string) (st0 : svc_world) (o : outcome unit) (st : svc_world) : Prop :=
  untouched st0 st ∨ o = Ok tt ∧ replaced src st0 st.

Lemma rename_whole src content st0 :
  triple en (copying src content st0) (callE (RenameTemp (dst +:+ ".tmp") dst);; modify (λ files, delete (dst +:+ ".tmp") (<[dst := content]> files)))
    (copied_whole src st0).
Proof.
  apply step_then; [|intros o st [Hu _]; by left|].
  - unfold callE. apply keeps_bind; [apply copying_call|intros []; [apply keeps_ret|apply keeps_throw]].
  - intros _ st ((Hw & new & Hl & Hf) & w & Hin). right. split; [done|]. exists content, w, new. split_and!; [done|done|done|].
    cbn. rewrite lookup_delete_ne by apply tmp_other. apply lookup_insert_eq.
Qed.

Lemma copy_outcome src st0 : triple en (untouched st0) (copyFileIfDifferent src dst) (copied_whole src st0).
Proof.
  unfold copyFileIfDifferent.
  apply step_then; [unfold callE; whole|by left|intros srcAbs]. apply step_then; [unfold callE; whole|by left|intros dstAbs].
  destruct (equal_paths srcAbs dstAbs); [intros st Hst; by left|].
  apply triple_bind with (R := λ content, copying src content st0).
  { intros st Hst. unfold callE, bind, call, lift. pose proof (untouched_call (OpenSource src) st0 st Hst) as Hu. cbn in Hu |- *.
    destruct (answer en _ (OpenSource src) (log st)) as [content|e]; cbn; [|by left]. split; [exact Hu|]. eexists. left. }
  intros content. set (tmp := dst +:+ ".tmp").
  apply step_then; [|intros o st [Hu _]; by left|intros _].
  { unfold callE. apply keeps_bind; [apply copying_call|intros []; [apply keeps_ret|apply keeps_throw]]. }
  apply step_then; [apply copying_modify; intros w; apply tmp_insert|intros o st [Hu _]; by left|intros _].
  apply step_then; [apply copying_call|intros o st [Hu _]; by left|intros copied].
  apply step_then; [apply copying_modify; intros w; apply tmp_insert|intros o st [Hu _]; by left|intros _].
  apply step_then; [apply copying_call|intros o st [Hu _]; by left|intros closed].
  assert (∀ e, triple en (copying src content st0) (let! removed := call (RemoveTemp tmp) in when removed (modify (delete tmp));; throw e)
                 (copied_whole src st0)) as Hfail.
  { intros e. apply triple_post with (Q' := λ _, copying src content st0); [|intros o st [Hu _]; by left].
    apply keeps_bind; [apply copying_call|intros removed]. apply keeps_bind; [|intros _; apply keeps_throw].
    apply keeps_when, copying_modify. intros w. apply tmp_delete. }
  destruct copied as [[n e]|]; [apply Hfail|]. destruct closed as [|e]; [apply rename_whole|apply Hfail].
Qed.

(** an installed file is never torn: at every call of a copy, and after one that failed,
    the file at its place is the one that was there; after one that succeeded it is that file
    or all of the source. *)
Theorem copy_never_torn src st : untouched st (copyFileIfDifferent src dst en st).2
  ∨ (copyFileIfDifferent src dst en st).1 = Ok tt ∧ replaced src st (copyFileIfDifferent src dst en st).2.
Proof. apply (copy_outcome src st st), untouched_refl. Qed.
End copies.

(** ** Installing *)

Section installing.
Variable en : svc_env.

Definition hardened (l : list (event SvcCall (gmap string string))) : Prop :=
  ∃ dir u w, Ev (RunCommand "icacls" (harden_args dir)) (inl u) w ∈ l.
Definition created (l : list (event SvcCall (gmap string string))) : Prop :=
  ∃ exe args u w, Ev (CreateService exe args) (inl u) w ∈ l.

(** Files are placed and the service is created only once the rights of its directory were
    restricted; it is started only once it was created. *)
Definition prepared (l : list (event SvcCall (gmap string string))) (e : event SvcCall (gmap string string)) : Prop :=
  match e with
  | Ev c _ _ =>
      match c with
      | CreateTemp _ | WriteText _ _ | CreateService _ _ => hardened l
      | StartService => created l
      | _ => True
      end
  end.

Definition facts (h c : bool) (st : svc_world) : Prop := (h = true → hardened (log st)) ∧ (c = true → created (log st)).

Definition allowed {T} (c : SvcCall T) (h cr : bool) : bool :=
  match c with CreateTemp _ | WriteText _ _ | CreateService _ _ => h | StartService => cr | _ => true end.

Lemma facts_stable h c : stable en (facts h c).
Proof.
  intros st e [Hh Hc]. split; intros E; cbn.
  - destruct (Hh E) as (dir & u & w & Hin). exists dir, u, w. by right.
  - destruct (Hc E) as (exe & args & u & w & Hin). exists exe, args, u, w. by right.
Qed.

Lemma keeps_allowed {T} (c : SvcCall T) h cr : allowed c h cr = true → keeps en (known prepared (facts h cr)) (call c).
Proof.
  intros Ha. apply keeps_known_call; [apply facts_stable|]. intros st r [Hh Hc]. destruct c; cbn in *; auto.
Qed.

Ltac allowing := repeat (keeps_step || (apply keeps_allowed; reflexivity) || (apply keeps_modify; intros ? [? ?]; split; [done|done])).

Lemma keeps_copy src dst h cr : h = true → keeps en (known prepared (facts h cr)) (copyFileIfDifferent src dst).
Proof.
  intros ->. unfold copyFileIfDifferent, callE. allowing.
  match goal with |- keeps _ _ (match ?x with _ => _ end _) => destruct x as [[]|] end; cbv beta; allowing.
Qed.

Lemma keeps_waitForRunning h cr n : keeps en (known prepared (facts h cr)) (waitForRunning n).
Proof.
  induction n as [|n IH]; cbn [waitForRunning]; [apply keeps_hang|]. apply keeps_bind; [by apply keeps_allowed|intros r].
  destruct r as [[[] code]|e]; allowing; apply IH.
Qed.

(** From some facts to others, with the log in order however it ends. *)
Definition leads {A} (h cr : bool) (m : Svc A) (h' cr' : bool) : Prop :=
  triple en (known prepared (facts h cr)) m
    (λ o, match o with Ok _ => known prepared (facts h' cr') | _ => known prepared (λ _, True) end).

Lemma leads_keeps {A} h cr (m : Svc A) : keeps en (known prepared (facts h cr)) m → leads h cr m h cr.
Proof. intros Hm st Hst. pose proof (Hm st Hst) as [? ?]. destruct (m en st) as [[] st']; by split. Qed.

Lemma leads_bind {A B} h cr h' cr' h2 cr2 (m : Svc A) (f : A → Svc B) :
  leads h cr m h' cr' → (∀ a, leads h' cr' (f a) h2 cr2) → leads h cr (bind m f) h2 cr2.
Proof.
  intros Hm Hf st Hst. specialize (Hm st Hst). unfold bind. destruct (m en st) as [[a|e| |] st']; cbn in *; [by apply (Hf a)|done..].
Qed.

Lemma leads_then {A B} h cr h2 cr2 (m : Svc A) (f : A → Svc B) :
  keeps en (known prepared (facts h cr)) m → (∀ a, leads h cr (f a) h2 cr2) → leads h cr (bind m f) h2 cr2.
Proof. intros Hm. by apply leads_bind, leads_keeps. Qed.

Lemma leads_throw {A} h cr e h' cr' : leads h cr (@throw _ _ A e) h' cr'.
Proof. intros st [Hall _]. by split. Qed.

(** A required step that establishes a fact. *)
Lemma leads_required text (c : SvcCall (unit + error)) h cr h' cr' :
  allowed c h cr = true → (∀ st u w, facts h cr st → Ev c (inl u) w ∈ log st → facts h' cr' st) → leads h cr (required text c) h' cr'.
Proof.
  intros Ha Hf st Hst. unfold required, bind. pose proof (keeps_allowed c h cr Ha st Hst) as [Hall Hfacts]. unfold call in *. cbn in *.
  destruct (answer en _ c (log st)) as [u|e]; cbn; split; try done. eapply Hf; [exact Hfacts|]. cbn. left.
Qed.

Lemma files_lead o : leads false false (install_files o) true false.
Proof.
  unfold install_files. apply leads_then; [unfold required; allowing|intros _].
  apply leads_bind with (h' := true) (cr' := false).
  { apply leads_required; [done|]. intros st u w _ Hin. split; [|done]. intros _. by exists (so_AgentDir o), u, w. }
  intros _. apply leads_keeps. unfold required, callE. allowing; try (by apply keeps_copy).
Qed.

Lemma create_leads o : leads true false (create_service o) true true.
Proof.
  unfold create_service. apply leads_then; [unfold required; allowing|intros _]. apply leads_then; [by apply keeps_allowed|].
  intros [_|_]; [apply leads_throw|]. apply leads_required; [done|]. intros st u w [Hh _] Hin. split; [exact Hh|]. intros _. by eexists _, _, u, w.
Qed.

Lemma keeps_anchors dir cr : keeps en (known prepared (facts true cr)) (installTrustAnchors dir).
Proof. unfold installTrustAnchors, warned. allowing. Qed.

(** the installation places no file in the agent directory, registers no service, and
    starts none, before the rights of the directory were restricted; it starts only a service
    that it has created, whatever fails on the way. *)
Theorem install_in_order turns args programData :
  audited prepared (log (serviceInstall turns args programData en (mk_state ∅ [])).2).
Proof.
  assert (leads false false (serviceInstall turns args programData) true true) as Hl.
  { unfold serviceInstall. apply leads_then; [unfold requireElevation; allowing|intros _]. apply leads_then; [allowing|intros o].
    apply leads_then; [destruct (so_AgentDirSet o); allowing|intros existing].
    destruct (negb _); [apply leads_throw|]. apply leads_then; [unfold required; allowing|intros _].
    apply leads_bind with (h' := true) (cr' := false); [apply files_lead|intros _].
    apply leads_bind with (h' := true) (cr' := true); [apply create_leads|intros _]. apply leads_keeps.
    unfold harden_service, start_service, warned, required. allowing; try apply keeps_anchors; try apply keeps_waitForRunning. }
  specialize (Hl (mk_state ∅ []) ltac:(by split_and!)). destruct (serviceInstall turns args programData en (mk_state ∅ [])) as [[] st]; by destruct Hl.
Qed.
End installing.

(** ** Waiting, restarts and the control loop *)

Definition is_sleep (e : event SvcCall (gmap string string)) : nat := match e with Ev c _ _ => match c with SleepSecond => 1 | _ => 0 end end.
Fixpoint sleeps (l : list (event SvcCall (gmap string string))) : nat := match l with [] => 0 | e :: l => is_sleep e + sleeps l end.

(** The wait for a started service ends: with a deadline of [d] seconds after at most one
    query more than that, whatever the service manager answers. *)
Lemma start_wait_ends en d turns : (∀ lg, (d ≤ sleeps lg)%nat → answer en _ PastDeadline lg = true) →
  ∀ st, (d < turns + sleeps (log st))%nat → (0 < turns)%nat → (waitForRunning turns en st).1 ≠ Hang.
Proof.
  intros Hd. induction turns as [|turns IH]; intros st Hb Ht; [lia|]. cbn [waitForRunning]. unfold bind, call.
  destruct (answer en _ QueryService (log st)) as [[[] code]|e]; cbn; try done.
  all: match goal with |- context [answer ?en' bool PastDeadline ?l] => destruct (answer en' bool PastDeadline l) eqn:E; cbn; [done|];
    destruct (decide (d ≤ sleeps l)%nat) as [Hl|Hl]; [by rewrite Hd in E|]; cbn in Hl; apply IH; cbn; lia end.
Qed.

(** However many restarts are asked for while one is pending, one is delivered, with the
    reason of the first; none when nobody supervises the process. *)
Lemma requests_coalesce reason reasons : foldl (λ b r, (RequestRestart r b).1) (Subscribe None) (reason :: reasons) = Some [reason].
Proof. cbn. induction reasons as [|r rs IH]; [done|]. exact IH. Qed.

Lemma unsupervised_refused reason : RequestRestart reason None = (None, Some ErrNotSupervised).
Proof. done. Qed.

Definition decides (e : svc_event) : bool :=
  match e with AgentFailed _ | RestartRequested _ | StopRequest | ShutdownRequest => true | _ => false end.
Definition decision (e : svc_event) : svc_end :=
  match e with
  | AgentFailed _ => ExitForRestart "agent startup failed"
  | RestartRequested reason => ExitForRestart reason
  | StopRequest | ShutdownRequest => CleanStop
  | _ => StillRunning
  end.

(** the first event that decides decides how the service ends: only a stop or a shutdown
    ends it cleanly, and everything else that ends it makes the service manager start it
    again; an agent that had started is shut down before it, unless its start failed. *)
Theorem service_end_decided before e after : Forall (λ e, decides e = false) before → decides e = true →
  (Execute false (before ++ e :: after)).2 = decision e
  ∧ (AgentStarted ∈ before → (∀ err, e ≠ AgentFailed err) → last (Execute false (before ++ e :: after)).1 = Some AgentShutdown).
Proof.
  intros Hb He. unfold Execute.
  assert (∀ agent, (control_loop agent (before ++ e :: after)).2 = decision e
    ∧ ((agent = true ∨ AgentStarted ∈ before) → (∀ err, e ≠ AgentFailed err) →
       ∃ rs, (control_loop agent (before ++ e :: after)).1 = rs ++ [ReportStopPending; AgentShutdown])) as Hl.
  { induction Hb as [|e' before He' Hb IH]; intros agent.
    - cbn [app]. split; [by destruct e|]. intros [->|Ha] Hne; [|by apply elem_of_nil in Ha].
      destruct e; try done; [by specialize (Hne e)|exists []; done..].
    - destruct e'; try done; cbn [app control_loop].
      + destruct (IH true) as [H1 H2]. split; [exact H1|]. intros _ Hne. by apply H2; [left|].
      + destruct (IH agent) as [H1 H2]. destruct (control_loop agent (before ++ e :: after)) as [rs end_]. cbn in *. split; [exact H1|].
        intros Ha Hne. destruct H2 as [rs' ->]; [destruct Ha as [|Ha]; [by left|right; by apply elem_of_cons in Ha as [|]]|done|].
        by exists (ReportCurrent status :: rs').
      + destruct (IH agent) as [H1 H2]. split; [exact H1|]. intros Ha Hne. apply H2; [|done].
        destruct Ha as [|Ha]; [by left|right; by apply elem_of_cons in Ha as [|]]. }
  destruct (Hl false) as [H1 H2]. destruct (control_loop false (before ++ e :: after)) as [rs end_]. cbn [fst snd] in *. split; [exact H1|].
  intros Ha Hne. destruct H2 as [rs' ->]; [by right|done|].
  replace (ReportStartPending :: ReportRunning :: rs' ++ [ReportStopPending; AgentShutdown])
    with ((ReportStartPending :: ReportRunning :: rs' ++ [ReportStopPending]) ++ [AgentShutdown]) by (cbn; by rewrite <- app_assoc).
  by rewrite last_snoc.
Qed.
End service.

(** ** A device *)

Definition ex_windows : ServiceHost := {| path_join := String.concat bs; equal_paths := String.eqb |}.
Definition ex_options : serviceInstallOptions :=
  {| so_ConfigPath := "C:" +:+ bs +:+ "device.flock"; so_AgentDir := "D:" +:+ bs +:+ "My Agent"; so_AppsDir := "D:" +:+ bs +:+ "My Apps";
     so_Proxy := ""; so_StartNow := true; so_AgentDirSet := true |}.

Lemma agent_dir_recovered_witness : agentDirFromImagePath
    (command_line (("D:" +:+ bs +:+ "My Agent" +:+ bs +:+ "reagent.exe") :: @serviceBinaryArgs ex_windows ex_options)) = "D:" +:+ bs +:+ "My Agent".
Proof.
  assert (plain_arg ("D:" +:+ bs +:+ "My Agent" +:+ bs +:+ "reagent.exe")) as He by (split_and!; done).
  assert (Forall plain_arg (@serviceBinaryArgs ex_windows ex_options)) as Hf by (repeat (apply Forall_cons; split; [split_and!; done|]); apply Forall_nil; done).
  assert ("D:" +:+ bs +:+ "My Agent" +:+ bs +:+ "reagent.exe" ≠ "-agentDir") as Hne by done.
  assert (@path_join ex_windows [so_AgentDir ex_options; serviceConfigName] ≠ "-agentDir") as Hc by done.
  exact (@agent_dir_recovered ex_windows ex_options _ He Hf Hne Hc).
Defined.

(** Nothing fails but what is given. *)
Definition ex_services (fails : ∀ T, SvcCall T → option T) (T : Type) (c : SvcCall T) (lg : list (event SvcCall (gmap string string))) : T :=
  match fails T c with
  | Some r => r
  | None =>
      match c in SvcCall T return T with
      | IsElevated => true
      | ExistingAgentDirs => []
      | Executable => inl "C:/Downloads/reagent.exe"
      | AbsPath p => inl p
      | OpenSource p => inl ("content of " +:+ p)
      | CopyInto _ => None
      | RemoveTemp _ => true
      | OpenService => inr (Plain "no such service")
      | QueryService => inl (SvcRunning, 0%N)
      | ControlStop => inl SvcStopped
      | ServiceImagePath => inl ""
      | EmbeddedRoots => []
      | PastDeadline => true
      | SleepSecond | PrintLine _ => tt
      | StatPath _ | MakeDirs _ | RunCommand _ _ | CreateTemp _ | CloseTemp _ | RenameTemp _ _ | WriteText _ _ | MgrConnect
      | CreateService _ _ | SetRecoveryActions _ | SetRecoveryOnNonCrash | InstallEventLog | SetServiceProxy _ | StartService
      | DeleteService | RemoveEventLog => inl tt
      end
  end.
Definition ex_svc_env (fails : ∀ T, SvcCall T → option T) : svc_env := {| answer := ex_services fails; interfere := λ _ w, w |}.

Definition install_call {T} (c : SvcCall T) : option string :=
  match c with CreateService _ _ => Some "create" | StartService => Some "start" | _ => None end.
Fixpoint installation (l : list (event SvcCall (gmap string string))) : list string :=
  match l with [] => [] | Ev c _ _ :: l => installation l ++ match install_call c with Some s => [s] | None => [] end end.

(** A proxy that cannot be set leaves a service that is created and not started, although the
    remaining steps are said only to harden it; the next try is refused. *)
Example proxy_failure_leaves_service :
  let run := @serviceInstall ex_windows 5 ["-config"; "d.flock"; "--proxy=http://proxy"] "C:/ProgramData"
    (ex_svc_env (λ T c, match c in SvcCall T return option T with SetServiceProxy _ => Some (inr (Plain "access denied")) | _ => None end)) (mk_state ∅ []) in
  run.1 = Err (Annotated "failed to set the service proxy environment" (Plain "access denied"))
  ∧ installation (log run.2) = ["create"].
Proof. split; vm_compute; reflexivity. Qed.

Example installed_and_started :
  let run := @serviceInstall ex_windows 5 ["-config"; "d.flock"; "-start"] "C:/ProgramData" (ex_svc_env (λ _ _, None)) (mk_state ∅ []) in
  run.1 = Ok tt ∧ installation (log run.2) = ["create"; "start"]
  ∧ world run.2 !! ("C:/ProgramData" +:+ bs +:+ "IronFlock" +:+ bs +:+ "Reagent" +:+ bs +:+ "device.flock") = Some "content of d.flock".
Proof. split_and!; vm_compute; reflexivity. Qed.

(** A copy that breaks off half way. *)
Definition ex_torn : svc_env :=
  ex_svc_env (λ T c, match c in SvcCall T return option T with CopyInto _ => Some (Some (3%nat, Plain "disk full")) | _ => None end).
Lemma copy_never_torn_witness :
  let run := @copyFileIfDifferent ex_windows "a.exe" "b.exe" ex_torn (mk_state {["b.exe" := "old"]} []) in
  run.1 = Err (Plain "disk full") ∧ world run.2 !! "b.exe" = Some "old".
Proof.
  intros run. assert (∀ lg (w : gmap string string), interfere ex_torn lg w !! "b.exe" = w !! "b.exe") as Hp by done.
  assert (run.1 = Err (Plain "disk full")) as E by (vm_compute; reflexivity). split; [exact E|].
  destruct (@copy_never_torn ex_windows ex_torn "b.exe" Hp "a.exe" (mk_state {["b.exe" := "old"]} [])) as [[Hw _]|[Hok _]].
  - exact Hw.
  - change (run.1 = Ok tt) in Hok. rewrite E in Hok. discriminate.
Defined.

Lemma service_end_decided_witness :
  (Execute false [AgentStarted; Interrogate "running"; RestartRequested "update"; StopRequest]).2 = ExitForRestart "update".
Proof.
  assert (Forall (λ e, decides e = false) [AgentStarted; Interrogate "running"]) as Hb by (repeat constructor).
  assert (decides (RestartRequested "update") = true) as He by reflexivity.
  destruct (service_end_decided [AgentStarted; Interrogate "running"] (RestartRequested "update") [StopRequest] Hb He) as [H _]. exact H.
Defined.
