(* ===== verification/InstanceLock.v ===== *)
(** * One agent per machine (src/src/platform_other.go, platform_windows.go)

    On Unix the agents of a machine take an advisory lock on a file in /tmp; on Windows they
    create a named mutex.  The processes, the file their path names and the locks of the kernel
    are one state; the events are the system calls of the processes, their ends, and what
    others do to the path. *)
From S2P Require Import Prelude Errdefs.
From stdpp Require Import gmap.
#[local] Open Scope list_scope.

Definition singleInstanceLockPath : string := "/tmp/ironflock-reagent.lock".
Definition errAgentAlreadyRunning : error :=
  Plain "another reagent instance is already running on this machine (if it runs as a service, stop it with: systemctl stop reagent)".

(** ** Unix *)

(** What identifies a file: its device and its inode. *)
Abbreviation fileid := (N * N)%type.

(** How far a process has come in [acquireSingleInstanceLock]. *)
Inductive acquiring :=
  | Starting                    (* at the head of its loop *)
  | Opened (f : fileid)         (* before [Flock] *)
  | Locked (f : fileid)         (* before [Fstat] *)
  | Identified (f : fileid)     (* before [Stat] of the path *)
  | Holding (f : fileid)        (* returned nil; the descriptor stays open *)
  | Refused (e : error).        (* returned an error; the descriptor is closed *)

(** The open file of a process, and the one it has locked. *)
Definition open_file (a : acquiring) : option fileid :=
  match a with Opened f | Locked f | Identified f | Holding f => Some f | _ => None end.
Definition locked_file (a : acquiring) : option fileid :=
  match a with Locked f | Identified f | Holding f => Some f | _ => None end.

Record lock_world := {
  lw_path : option fileid;            (* what the path names *)
  lw_locks : gmap fileid nat;         (* the exclusive locks of the kernel and their owners *)
  lw_procs : gmap nat acquiring;      (* the living agents *)
}.
Definition no_agents : lock_world := {| lw_path := None; lw_locks := ∅; lw_procs := ∅ |}.

Inductive lock_event :=
  | Spawn (p : nat)
  | OpenLock (p : nat) (new : fileid)       (* [new]: what O_CREATE makes if nothing is there *)
  | OpenFails (p : nat) (e : error)
  | TryFlock (p : nat)
  | FlockFails (p : nat) (e : error)
  | FstatDone (p : nat) (ok : bool)
  | StatDone (p : nat) (ok : bool)
  | Exit (p : nat)
  | Unlink                                  (* somebody else removes the path *)
  | Replace (new : fileid).                 (* somebody else puts another file there *)

(** An identity is free if no path and no descriptor keeps its file alive. *)
Definition unused (f : fileid) (w : lock_world) : bool :=
  negb (bool_decide (lw_path w = Some f)) && forallb (λ a, negb (bool_decide (open_file a.2 = Some f))) (map_to_list (lw_procs w)).

Definition set_proc (p : nat) (a : acquiring) (w : lock_world) : lock_world :=
  {| lw_path := lw_path w; lw_locks := lw_locks w; lw_procs := <[p := a]> (lw_procs w) |}.

(** Closing the descriptor of [p] releases what it has locked. *)
Definition release (a : acquiring) (w : lock_world) : lock_world :=
  {| lw_path := lw_path w;
     lw_locks := match locked_file a with Some f => delete f (lw_locks w) | None => lw_locks w end;
     lw_procs := lw_procs w |}.

Definition open_error (e : error) : error := Annotated ("cannot open the machine-wide agent lock " +:+ singleInstanceLockPath) e.
Definition flock_error (e : error) : error := Annotated ("cannot lock the machine-wide agent lock " +:+ singleInstanceLockPath) e.

(** One event; [None] if it cannot happen. *)
Definition lock_step (w : lock_world) (ev : lock_event) : option lock_world :=
  match ev with
  | Spawn p => match lw_procs w !! p with None => Some (set_proc p Starting w) | Some _ => None end
  | OpenLock p new =>
      match lw_procs w !! p with
      | Some Starting =>
          match lw_path w with
          | Some f => Some (set_proc p (Opened f) w)
          | None =>
              if unused new w
              then Some (set_proc p (Opened new) {| lw_path := Some new; lw_locks := lw_locks w; lw_procs := lw_procs w |})
              else None
          end
      | _ => None
      end
  | OpenFails p e =>
      match lw_procs w !! p with Some Starting => Some (set_proc p (Refused (open_error e)) w) | _ => None end
  | TryFlock p =>
      match lw_procs w !! p with
      | Some (Opened f) =>
          match lw_locks w !! f with
          | None => Some (set_proc p (Locked f) {| lw_path := lw_path w; lw_locks := <[f := p]> (lw_locks w); lw_procs := lw_procs w |})
          | Some _ => Some (set_proc p (Refused errAgentAlreadyRunning) w)
          end
      | _ => None
      end
  | FlockFails p e =>
      match lw_procs w !! p with Some (Opened f) => Some (set_proc p (Refused (flock_error e)) w) | _ => None end
  | FstatDone p ok =>
      match lw_procs w !! p with
      | Some (Locked f) => Some (if ok then set_proc p (Identified f) w else set_proc p Starting (release (Locked f) w))
      | _ => None
      end
  | StatDone p ok =>
      match lw_procs w !! p with
      | Some (Identified f) =>
          (* a missing path makes [Stat] fail *)
          if ok && negb (bool_decide (lw_path w = None)) then
            Some (if bool_decide (lw_path w = Some f) then set_proc p (Holding f) w else set_proc p Starting (release (Identified f) w))
          else if ok then None else Some (set_proc p Starting (release (Identified f) w))
      | _ => None
      end
  | Exit p =>
      match lw_procs w !! p with
      | Some a => let w := release a w in Some {| lw_path := lw_path w; lw_locks := lw_locks w; lw_procs := delete p (lw_procs w) |}
      | None => None
      end
  | Unlink => Some {| lw_path := None; lw_locks := lw_locks w; lw_procs := lw_procs w |}
  | Replace new => if unused new w then Some {| lw_path := Some new; lw_locks := lw_locks w; lw_procs := lw_procs w |} else None
  end.

Fixpoint lock_run (w : lock_world) (evs : list lock_event) : option lock_world :=
  match evs with
  | [] => Some w
  | ev :: evs => match lock_step w ev with Some w => lock_run w evs | None => None end
  end.

(** The calls of one process that meets no failure. *)
Definition acquireSingleInstanceLock (p : nat) (new : fileid) : list lock_event :=
  [OpenLock p new; TryFlock p; FstatDone p true; StatDone p true].

(** ** Windows *)

Module Windows.
Inductive errno := ERROR_ALREADY_EXISTS | ERROR_ACCESS_DENIED | ERROR_FILE_NOT_FOUND | OtherErrno (text : string).
#[global] Instance errno_dec : EqDecision errno.
Proof. solve_decision. Defined.

Definition errServiceRunning : error :=
  Plain "another reagent instance is already running on this machine (if it runs as a service, stop it with: reagent service stop)".
Definition access_error : error :=
  Plain "cannot create the machine-wide agent lock: access denied — run the agent from an elevated (Administrator) context".

(** The mutex in the namespace of the machine: who keeps a handle on it, and who may open it. *)
Record mutex_world := {
  mx_owners : list nat;                (* processes with a handle; it exists while there is one *)
  mx_opens : nat → bool;               (* whether its access rights admit a process *)
  mx_creates : nat → bool;             (* whether a process may create objects of the machine *)
}.
Definition with_owners (l : list nat) (w : mutex_world) : mutex_world :=
  {| mx_owners := l; mx_opens := mx_opens w; mx_creates := mx_creates w |}.

(** [CreateMutex]: an existing mutex is opened, reporting that it exists. *)
Definition CreateMutex (p : nat) (w : mutex_world) : option errno * bool * mutex_world :=
  match mx_owners w with
  | [] => if mx_creates w p then (None, true, with_owners [p] w) else (Some ERROR_ACCESS_DENIED, false, w)
  | l => if mx_opens w p then (Some ERROR_ALREADY_EXISTS, true, with_owners (p :: l) w) else (Some ERROR_ACCESS_DENIED, false, w)
  end.

(** [OpenMutex] for synchronisation only; [sync] says whether the rights admit that. *)
Definition OpenMutex (sync : bool) (p : nat) (w : mutex_world) : option errno * bool * mutex_world :=
  match mx_owners w with
  | [] => (Some ERROR_FILE_NOT_FOUND, false, w)
  | l => if sync then (None, true, with_owners (p :: l) w) else (Some ERROR_ACCESS_DENIED, false, w)
  end.

Fixpoint drop_handle (p : nat) (l : list nat) : list nat :=
  match l with [] => [] | q :: l => if Nat.eqb p q then l else q :: drop_handle p l end.
Definition CloseHandle (p : nat) (w : mutex_world) : mutex_world := with_owners (drop_handle p (mx_owners w)) w.

Definition acquireMutex (sync : bool) (p : nat) (w : mutex_world) : option error * mutex_world :=
  let '(err, handle, w) := CreateMutex p w in
  match err with
  | None => (None, w)
  | Some ERROR_ALREADY_EXISTS => (Some errServiceRunning, if handle then CloseHandle p w else w)
  | Some ERROR_ACCESS_DENIED =>
      let '(oerr, probe, w) := OpenMutex sync p w in
      if negb (bool_decide (oerr = Some ERROR_FILE_NOT_FOUND)) then (Some errServiceRunning, if probe then CloseHandle p w else w)
      else (Some access_error, w)
  | Some (ERROR_FILE_NOT_FOUND as e) => (Some (Annotated "failed to create single-instance mutex" (Plain "The system cannot find the file specified.")), w)
  | Some (OtherErrno text) => (Some (Annotated "failed to create single-instance mutex" (Plain text)), w)
  end.
End Windows.

(** * One agent per machine: what the lock promises *)

(** ** What always holds *)

(** The locks are exactly those of the processes that have one. *)
Definition locks_owned (w : lock_world) : Prop :=
  ∀ f p, lw_locks w !! f = Some p ↔ ∃ a, lw_procs w !! p = Some a ∧ locked_file a = Some f.

(** Nobody takes the path away from an agent that returned with the lock. *)
Definition holders_named (w : lock_world) : Prop := ∀ p f, lw_procs w !! p = Some (Holding f) → lw_path w = Some f.

Definition someone_holds (w : lock_world) : Prop := ∃ p f, lw_procs w !! p = Some (Holding f).

(** The path is touched by others only while no agent holds the lock. *)
Definition considerate (w : lock_world) (ev : lock_event) : Prop :=
  match ev with Unlink | Replace _ => ¬ someone_holds w | _ => True end.

Inductive reached (allowed : lock_world → lock_event → Prop) : lock_world → Prop :=
  | reached_init : reached allowed no_agents
  | reached_step w ev w' : reached allowed w → allowed w ev → lock_step w ev = Some w' → reached allowed w'.

Lemma owned_set w p a a' : lw_procs w !! p = Some a → locked_file a = locked_file a' →
  locks_owned w → locks_owned (set_proc p a' w).
Proof.
  intros Hp Ha Ho f q. cbn. rewrite (Ho f q). destruct (decide (q = p)) as [->|Hn].
  - rewrite lookup_insert_eq, Hp. split; intros (b & Hb & Hf); simplify_eq; eexists; (split; [done|congruence]).
  - by rewrite lookup_insert_ne by done.
Qed.

(** A process without a lock of its own changes nobody's. *)
Lemma owned_new w p a' : lw_procs w !! p = None → locked_file a' = None → locks_owned w → locks_owned (set_proc p a' w).
Proof.
  intros Hp Ha Ho f q. cbn. rewrite (Ho f q). destruct (decide (q = p)) as [->|Hn].
  - rewrite lookup_insert_eq, Hp. split; intros (b & Hb & Hf); simplify_eq; congruence.
  - by rewrite lookup_insert_ne by done.
Qed.

Lemma owned_path w path : locks_owned w → locks_owned {| lw_path := path; lw_locks := lw_locks w; lw_procs := lw_procs w |}.
Proof. done. Qed.

Lemma owned_take w p f : lw_procs w !! p = Some (Opened f) → lw_locks w !! f = None → locks_owned w →
  locks_owned (set_proc p (Locked f) {| lw_path := lw_path w; lw_locks := <[f := p]> (lw_locks w); lw_procs := lw_procs w |}).
Proof.
  intros Hp Hf Ho g q. cbn. destruct (decide (g = f)) as [->|Hg]; destruct (decide (q = p)) as [->|Hn];
    rewrite ?lookup_insert_eq, ?lookup_insert_ne by done.
  - split; [eauto|done].
  - split; [naive_solver|]. intros (b & Hb & Hl). assert (lw_locks w !! f = Some q) by (apply Ho; eauto). congruence.
  - rewrite (Ho g p), Hp. naive_solver.
  - apply Ho.
Qed.

(** Closing the descriptor gives up exactly the lock of the process. *)
Lemma owned_release w p a : lw_procs w !! p = Some a → locks_owned w →
  ∀ f q, lw_locks (release a w) !! f = Some q ↔ q ≠ p ∧ ∃ b, lw_procs w !! q = Some b ∧ locked_file b = Some f.
Proof.
  intros Hp Ho f q. cbn. destruct (locked_file a) as [g|] eqn:Hl.
  - assert (lw_locks w !! g = Some p) as Hg by (apply Ho; eauto).
    destruct (decide (g = f)) as [->|Hn].
    + rewrite lookup_delete_eq. split; [done|]. intros (Hq & b & Hb). assert (lw_locks w !! f = Some q) by (apply Ho; eauto). congruence.
    + rewrite lookup_delete_ne by done. rewrite (Ho f q). split; [|naive_solver]. intros (b & Hb & Hf). split; [|eauto]. naive_solver.
  - rewrite (Ho f q). split; [|naive_solver]. intros (b & Hb & Hf). split; [|eauto]. naive_solver.
Qed.

Lemma owned_restart w p a a' : lw_procs w !! p = Some a → locked_file a' = None → locks_owned w → locks_owned (set_proc p a' (release a w)).
Proof.
  intros Hp Ha Ho f q. cbn [set_proc lw_locks lw_procs]. rewrite (owned_release w p a Hp Ho f q). cbn. destruct (decide (q = p)) as [->|Hn].
  - rewrite lookup_insert_eq. split; [naive_solver|]. intros (b & Hb & Hf). by simplify_eq.
  - rewrite lookup_insert_ne by done. naive_solver.
Qed.

Lemma owned_exit w p a : lw_procs w !! p = Some a → locks_owned w →
  locks_owned {| lw_path := lw_path w; lw_locks := lw_locks (release a w); lw_procs := delete p (lw_procs w) |}.
Proof.
  intros Hp Ho f q. cbn [lw_locks lw_procs]. rewrite (owned_release w p a Hp Ho f q). destruct (decide (q = p)) as [->|Hn].
  - rewrite lookup_delete_eq. naive_solver.
  - rewrite lookup_delete_ne by done. naive_solver.
Qed.

Ltac lock_cases H := unfold lock_step in H; repeat first [split_match_in H | discriminate H]; injection H as <-.

Lemma locks_owned_step w ev w' : locks_owned w → lock_step w ev = Some w' → locks_owned w'.
Proof.
  intros Ho H. destruct ev; lock_cases H; bool_to_prop;
    first [ by apply owned_new | by eapply owned_restart | by eapply owned_exit | by eapply owned_take
          | by eapply owned_set; [eassumption| |] | by apply (owned_set _ _ Starting); [| |apply owned_path] | by apply owned_path ].
Qed.

Lemma locks_owned_reached allowed w : reached allowed w → locks_owned w.
Proof.
  induction 1 as [|w ev w' Hr IH Ha Hs]; [|by eapply locks_owned_step].
  intros f p. cbn. rewrite !lookup_empty. naive_solver.
Qed.

Lemma holders_named_step w ev w' : holders_named w → considerate w ev → lock_step w ev = Some w' → holders_named w'.
Proof.
  assert (∀ p a (v : lock_world), (∀ g, a = Holding g → lw_path v = Some g) → holders_named v → holders_named (set_proc p a v)) as Hset.
  { intros p a v Ha Hv q g Hq. cbn in *. destruct (decide (q = p)) as [->|Hn]; rewrite ?lookup_insert_eq, ?lookup_insert_ne in Hq by done; [simplify_eq|]; eauto. }
  assert (∀ p (v : lock_world), holders_named v → holders_named {| lw_path := lw_path v; lw_locks := lw_locks v; lw_procs := delete p (lw_procs v) |}) as Hdel.
  { intros p v Hv q g Hq. cbn in *. apply lookup_delete_Some in Hq as [_ Hq]. eauto. }
  intros Hh Hc H. destruct ev; lock_cases H; bool_to_prop; try (apply Hset; [done || (by intros ? [= <-])|try done]); try done;
    try (intros q g Hq; cbn in *; first [by destruct Hc; eexists _, _|specialize (Hh q g Hq); congruence]).
  intros q g Hq. cbn in *. apply lookup_delete_Some in Hq as [_ Hq]. by eapply Hh.
Qed.

Lemma holders_named_reached w : reached considerate w → holders_named w.
Proof. induction 1 as [|w ev w' Hr IH Ha Hs]; [by intros ? ?|by eapply holders_named_step]. Qed.

(** C10: as long as the path of the lock is left alone while an agent has it, at most one agent
    returns with the lock, however the calls of any number of agents interleave and whenever
    they are killed. *)
Theorem one_agent w p q f g : reached considerate w →
  lw_procs w !! p = Some (Holding f) → lw_procs w !! q = Some (Holding g) → p = q.
Proof.
  intros Hr Hp Hq. pose proof (holders_named_reached w Hr) as Hn. pose proof (locks_owned_reached _ _ Hr) as Ho.
  pose proof (Hn p f Hp) as Ef. pose proof (Hn q g Hq) as Eg. assert (f = g) as <- by congruence.
  assert (lw_locks w !! f = Some p) by (apply Ho; eexists; split; [exact Hp|done]).
  assert (lw_locks w !! f = Some q) by (apply Ho; eexists; split; [exact Hq|done]). congruence.
Qed.

(** Another agent is then told so, and the first keeps the lock. *)
Lemma second_agent_refused w p q f new : reached considerate w → lw_procs w !! p = Some (Holding f) → lw_procs w !! q = Some Starting →
  ∃ w', lock_run w [OpenLock q new; TryFlock q] = Some w' ∧ lw_procs w' !! q = Some (Refused errAgentAlreadyRunning) ∧ lw_procs w' !! p = Some (Holding f).
Proof.
  intros Hr Hp Hq. assert (p ≠ q) by congruence. pose proof (holders_named_reached w Hr p f Hp) as Hf.
  assert (lw_locks w !! f = Some p) as Hl by (apply (locks_owned_reached _ _ Hr); eexists; split; [exact Hp|done]).
  eexists. cbn [lock_run lock_step]. rewrite Hq, Hf. cbn [lw_procs set_proc]. rewrite lookup_insert_eq. cbn [lw_locks set_proc]. rewrite Hl.
  split; [done|]. cbn. by rewrite lookup_insert_eq, !lookup_insert_ne.
Qed.

(** C11: a lock never outlives its agent: whatever was killed, unlinked or replaced before, an
    agent that finds no living process with a lock returns with it after its four calls. *)
Theorem no_stale_lock allowed w p new : reached allowed w → lw_procs w !! p = Some Starting →
  (∀ q a, lw_procs w !! q = Some a → locked_file a = None) → unused new w = true →
  ∃ w' f, lock_run w (acquireSingleInstanceLock p new) = Some w' ∧ lw_procs w' !! p = Some (Holding f) ∧ lw_path w' = Some f.
Proof.
  intros Hr Hp Hfree Hnew. pose proof (locks_owned_reached _ _ Hr) as Ho.
  assert (∀ f, lw_locks w !! f = None) as Hl.
  { intros f. destruct (lw_locks w !! f) as [q|] eqn:E; [|done]. apply Ho in E as (a & Hq & Ha). by rewrite (Hfree q a Hq) in Ha. }
  exists (set_proc p (Holding (default new (lw_path w))) {| lw_path := Some (default new (lw_path w)); lw_locks := <[default new (lw_path w) := p]> (lw_locks w);
    lw_procs := <[p := Identified (default new (lw_path w))]> (<[p := Locked (default new (lw_path w))]> (<[p := Opened (default new (lw_path w))]> (lw_procs w))) |}), (default new (lw_path w)).
  unfold acquireSingleInstanceLock. cbn [lock_run lock_step]. rewrite Hp.
  destruct (lw_path w) as [f|] eqn:Hpath; [|rewrite Hnew]; cbn; rewrite !lookup_insert_eq; cbn; rewrite Hl; cbn; rewrite !lookup_insert_eq; cbn;
rewrite !lookup_insert_eq; cbn; rewrite ?Hpath;
    (repeat case_bool_decide; try congruence; cbn; split_and!; first [done|by rewrite lookup_insert_eq|by repeat f_equal]).
Qed.

(** ** Concrete runs *)

Definition ex_file (n : N) : fileid := (1, n)%N.
Definition ex_first : list lock_event := Spawn 1 :: acquireSingleInstanceLock 1 (ex_file 10).

Lemma run_allowed (allowed : lock_world → lock_event → Prop) evs w w' : reached allowed w → (∀ v ev, ev ∈ evs → allowed v ev) →
  lock_run w evs = Some w' → reached allowed w'.
Proof.
  revert w. induction evs as [|ev evs IH]; intros w Hr Ha H; cbn in H; [by simplify_eq|].
  destruct (lock_step w ev) as [v|] eqn:Hs; [|done]. apply (IH v); [|set_solver|done]. eapply reached_step; [done| |done]. apply Ha. set_solver.
Qed.

Definition holder (w : option lock_world) (p : nat) : option acquiring := w ≫= λ w, lw_procs w !! p.

(** What cleans /tmp under a running agent lets a second one in. *)
Example unlink_admits_second :
  let w := lock_run no_agents (ex_first ++ Unlink :: Spawn 2 :: acquireSingleInstanceLock 2 (ex_file 11)) in
  holder w 1 = Some (Holding (ex_file 10)) ∧ holder w 2 = Some (Holding (ex_file 11)).
Proof. split; vm_compute; reflexivity. Qed.

(** A path that was replaced between the two calls of an agent is noticed. *)
Example replaced_path_noticed :
  let w := lock_run no_agents [Spawn 1; OpenLock 1 (ex_file 10); Unlink; TryFlock 1; Replace (ex_file 11); FstatDone 1 true; StatDone 1 true] in
  holder w 1 = Some Starting ∧ (lw_locks <$> w) = Some ∅.
Proof. split; vm_compute; reflexivity. Qed.

Lemma quiet_considerate (evs : list lock_event) : (∀ ev, ev ∈ evs → match ev with Unlink | Replace _ => False | _ => True end) → ∀ v ev, ev ∈ evs → considerate v ev.
Proof. intros H v ev Hin. specialize (H ev Hin). by destruct ev. Qed.

Definition ex_contended : list lock_event := ex_first ++ [Spawn 2; OpenLock 2 (ex_file 11)].
Definition ex_contended_world : lock_world := default no_agents (lock_run no_agents ex_contended).

Lemma one_agent_witness : (1 : nat) = 1.
Proof.
  assert (lock_run no_agents ex_contended = Some ex_contended_world) as Hrun by (vm_compute; reflexivity).
  assert (reached considerate ex_contended_world) as Hr.
  { apply (run_allowed considerate ex_contended no_agents); [constructor| |exact Hrun]. apply quiet_considerate. intros ev Hin.
    repeat (apply elem_of_cons in Hin as [->|Hin]; [exact I|]). by apply elem_of_nil in Hin. }
  assert (lw_procs ex_contended_world !! 1 = Some (Holding (ex_file 10))) as Hp by (vm_compute; reflexivity).
  exact (one_agent ex_contended_world 1 1 (ex_file 10) (ex_file 10) Hr Hp Hp).
Defined.

(** The first agent was killed and its file removed. *)
Definition ex_killed : list lock_event := ex_first ++ [Exit 1; Unlink; Spawn 2].
Definition ex_killed_world : lock_world := default no_agents (lock_run no_agents ex_killed).

Lemma no_stale_lock_witness : ∃ w' f, lock_run ex_killed_world (acquireSingleInstanceLock 2 (ex_file 10)) = Some w'
  ∧ lw_procs w' !! 2 = Some (Holding f) ∧ lw_path w' = Some f.
Proof.
  assert (lock_run no_agents ex_killed = Some ex_killed_world) as Hrun by (vm_compute; reflexivity).
  assert (reached (λ _ _, True) ex_killed_world) as Hr by (apply (run_allowed (λ _ _, True) ex_killed no_agents); [constructor|done|exact Hrun]).
  assert (lw_procs ex_killed_world !! 2 = Some Starting) as Hp by (vm_compute; reflexivity).
  assert (∀ q a, lw_procs ex_killed_world !! q = Some a → locked_file a = None) as Hfree.
  { intros q a Hq. assert (lw_procs ex_killed_world = {[2 := Starting]}) as E by (vm_compute; reflexivity).
    rewrite E in Hq. by apply lookup_singleton_Some in Hq as [<- <-]. }
  assert (unused (ex_file 10) ex_killed_world = true) as Hu by (vm_compute; reflexivity).
  exact (no_stale_lock _ ex_killed_world 2 (ex_file 10) Hr Hp Hfree Hu).
Defined.

(** ** Windows *)

Module WindowsSpec.
Import Windows.

(** On Windows only the process that made the mutex goes on; one that was refused leaves no
    handle behind, so the mutex goes with the agent that made it. *)
Theorem mutex_exclusive sync p w :
  let '(err, w') := acquireMutex sync p w in
  (err = None ↔ mx_owners w = [] ∧ mx_creates w p = true)
  ∧ (err = None → mx_owners w' = [p])
  ∧ (err ≠ None → mx_owners w' = mx_owners w)
  ∧ (err = Some errServiceRunning ↔ mx_owners w ≠ []).
Proof.
  unfold acquireMutex, CreateMutex, OpenMutex, CloseHandle, with_owners. destruct w as [[|q l] opens creates]; cbn.
  - destruct (creates p); cbn; split_and!; naive_solver.
  - destruct (opens p); cbn; [rewrite Nat.eqb_refl; split_and!; naive_solver|].
    destruct sync; cbn; rewrite ?Nat.eqb_refl; split_and!; naive_solver.
Qed.
End WindowsSpec.
