(* ===== verification/Codesign.v ===== *)
(** * Signatures of binaries (src/src/codesign/)

    The pinned roots, the choice of the certificate that is taken for the signer's, and the
    verdict over what Windows reports of a file. Certificates are what the standard library
    parsed; which certificate signed which is the cryptography, a parameter. *)
From S2P Require Import Prelude Errdefs Effects SelfUpdate SelfUpdateSpec.
#[local] Open Scope list_scope.

Inductive key_usage := CodeSigning | OtherUsage (n : N).
#[global] Instance key_usage_dec : EqDecision key_usage.
Proof. solve_decision. Defined.

Record certificate := { crt_Raw : string; crt_CommonName : string; crt_ExtKeyUsage : list key_usage }.
#[global] Instance certificate_dec : EqDecision certificate.
Proof. solve_decision. Defined.

Definition ErrUnsigned : error := Plain "binary is not signed".
Definition ErrTampered : error := Plain "binary signature does not match its contents".
Definition ErrWrongSigner : error := Plain "binary is not signed by a pinned IronFlock key".

(** ** The pinned roots *)

Record EmbeddedRoot := { er_FileName : string; er_CommonName : string; er_PEM : string }.

(** [ParseCertificate] of the standard library, and whether a certificate's key made the
    signature of another that is in force now. *)
Class Crypto := {
  ParseCertificate : string → certificate + error;
  signed_by : certificate → certificate → bool;      (* issuer, subject *)
}.

(** The answer of a system call, which may panic in its glue. *)
Inductive win_answer (T : Type) := Answer (t : T) | WinPanics (v : string).
Arguments Answer {T} t.
Arguments WinPanics {T} v.

Section codesign.
Context `{Crypto}.

(** An entry of the embedded directory: its name, whether it is a directory, and the PEM
    blocks of its content if it can be read (the text of each and its bytes). *)
Record root_entry := { re_Name : string; re_IsDir : bool; re_blocks : option (list (string * string)) }.

Fixpoint blocks_pinned (name : string) (blocks : list (string * string)) : list (certificate * EmbeddedRoot) :=
  match blocks with
  | [] => []
  | (text, bytes) :: blocks =>
      match ParseCertificate bytes with
      | inr _ => blocks_pinned name blocks
      | inl cert => (cert, {| er_FileName := name; er_CommonName := crt_CommonName cert; er_PEM := text |}) :: blocks_pinned name blocks
      end
  end.

(** [init]: the roots in the order of the directory; without a directory there are none. *)
Fixpoint entries_pinned (entries : list root_entry) : list (certificate * EmbeddedRoot) :=
  match entries with
  | [] => []
  | entry :: entries =>
      if re_IsDir entry || negb (has_suffix ".crt" (re_Name entry)) then entries_pinned entries
      else match re_blocks entry with
           | None => entries_pinned entries
           | Some blocks => blocks_pinned (re_Name entry) blocks ++ entries_pinned entries
           end
  end.
Definition init_roots (dir : option (list root_entry)) : list (certificate * EmbeddedRoot) :=
  match dir with None => [] | Some entries => entries_pinned entries end.
Definition pinned (roots : list (certificate * EmbeddedRoot)) : list certificate := map fst roots.
Definition EmbeddedRoots (roots : list (certificate * EmbeddedRoot)) : list EmbeddedRoot := map snd roots.

Definition Configured (pinnedRoots : list certificate) : bool := negb (Nat.eqb (length pinnedRoots) 0).
Definition Enforcing (enforce : bool) (enforceStr : string) (pinnedRoots : list certificate) : bool :=
  (enforce || String.eqb enforceStr "true") && Configured pinnedRoots.

(** ** Chains *)

(** [Certificate.Verify] with these roots only: the leaf is a root, was signed by one, or was
    signed by an intermediate, not used before, from which it goes on. *)
Fixpoint picks {A} (l : list A) : list (A * list A) :=
  match l with
  | [] => []
  | x :: l => (x, l) :: map (λ p, (p.1, x :: p.2)) (picks l)
  end.

Fixpoint chain_search (fuel : nat) (roots inters : list certificate) (c : certificate) : bool :=
  existsb (λ r, bool_decide (r = c) || signed_by r c) roots
  || match fuel with
     | O => false
     | S fuel => existsb (λ p, signed_by p.1 c && chain_search fuel roots p.2 p.1) (picks inters)
     end.
Definition chain_verify (roots inters : list certificate) (leaf : certificate) : bool := chain_search (length inters) roots inters leaf.

Definition verifyChainToPinnedRoots (roots : list certificate) (leaf : certificate) (intermediates : list certificate) : option error :=
  if chain_verify roots intermediates leaf then None else Some ErrWrongSigner.

(** ** What Windows says of a file *)

Definition trustENoSignature : N := 2148204800.
Definition trustEBadDigest : N := 2148098064.
Definition certEUntrustedRoot : N := 2148204809.
Definition trustESubjectFormUn : N := 2148204547.

Record pe_file := {
  pe_name : unit + error;                                       (* the path as UTF-16 *)
  pe_trust : win_answer (option (N * error));                   (* WinVerifyTrustEx: its code, zero for no Errno *)
  pe_store : win_answer (option (list (string)));               (* the certificates in the signature, if there is one *)
}.

Definition winVerifyTrust (f : pe_file) : win_answer (option error) :=
  match pe_name f with
  | inr e => Answer (Some e)
  | inl _ =>
      match pe_trust f with
      | WinPanics v => WinPanics v
      | Answer None => Answer None
      | Answer (Some (hres, e)) =>
          Answer (if (hres =? trustENoSignature)%N || (hres =? trustESubjectFormUn)%N then Some ErrUnsigned
                  else if (hres =? trustEBadDigest)%N then Some ErrTampered
                  else if (hres =? certEUntrustedRoot)%N then None
                  else Some (Annotated "WinVerifyTrust failed" e))
      end
  end.

Fixpoint parse_all (ders : list string) : list certificate :=
  match ders with
  | [] => []
  | der :: ders => match ParseCertificate der with inl c => c :: parse_all ders | inr _ => parse_all ders end
  end.

(** The index the two loops leave in [leafIdx]. *)
Fixpoint usage_loop (i leafIdx : nat) (usages : list key_usage) : nat :=
  match usages with
  | [] => leafIdx
  | eku :: usages => if bool_decide (eku = CodeSigning) then i else usage_loop i leafIdx usages
  end.
Fixpoint leaf_loop (i leafIdx : nat) (certs : list certificate) : nat :=
  match certs with
  | [] => leafIdx
  | c :: certs => leaf_loop (S i) (usage_loop i leafIdx (crt_ExtKeyUsage c)) certs
  end.
Definition leafIdx (certs : list certificate) : nat := leaf_loop 0 0 certs.

Definition extractSignerCerts (f : pe_file) : win_answer ((certificate * list certificate) + error) :=
  match pe_name f with
  | inr e => Answer (inr e)
  | inl _ =>
      match pe_store f with
      | WinPanics v => WinPanics v
      | Answer None => Answer (inr ErrUnsigned)
      | Answer (Some ders) =>
          let certs := parse_all ders in
          match certs !! leafIdx certs with
          | None => Answer (inr ErrUnsigned)
          | Some leaf => Answer (inl (leaf, delete (leafIdx certs) certs))
          end
      end
  end.

Definition panic_error (v : string) : error := Plain ("codesign: panic during verification: " +:+ v).

(** The verdict: [None] for a file that is accepted. *)
Definition platformVerify (pinnedRoots : list certificate) (f : pe_file) : option error :=
  match winVerifyTrust f with
  | WinPanics v => Some (panic_error v)
  | Answer (Some e) => Some e
  | Answer None =>
      match extractSignerCerts f with
      | WinPanics v => Some (panic_error v)
      | Answer (inr e) => Some e
      | Answer (inl (leaf, intermediates)) => verifyChainToPinnedRoots pinnedRoots leaf intermediates
      end
  end.

(** Without a pinned root, and off Windows, everything is accepted. *)
Definition Verify (windows : bool) (pinnedRoots : list certificate) (f : pe_file) : option error :=
  if Nat.eqb (length pinnedRoots) 0 then None else if windows then platformVerify pinnedRoots f else None.
End codesign.

(** * Signatures of binaries: what a verdict stands for *)

(** ** Chains *)

Lemma picks_spec {A} (l : list A) x rest : (x, rest) ∈ picks l → length l = S (length rest) ∧ ∀ y, y ∈ l ↔ y = x ∨ y ∈ rest.
Proof.
  revert x rest. induction l as [|z l IH]; intros x rest H; cbn in H; [by apply elem_of_nil in H|].
  apply elem_of_cons in H as [[= -> ->]|H]; [split; [done|]; intros y; by rewrite elem_of_cons|].
  apply list_elem_of_fmap in H as ([x' rest'] & [= -> ->] & H). destruct (IH _ _ H) as [Hl Hy]. cbn. split; [by rewrite Hl|].
  intros y. rewrite !elem_of_cons, Hy. tauto.
Qed.

Lemma picks_complete {A} (l : list A) x : x ∈ l → ∃ rest, (x, rest) ∈ picks l.
Proof.
  induction l as [|z l IH]; intros H; [by apply elem_of_nil in H|]. apply elem_of_cons in H as [->|H]; [eexists; by left|].
  destruct (IH H) as [rest Hr]. exists (z :: rest). right. apply list_elem_of_fmap. by exists (x, rest).
Qed.

Section chains.
Context `{Crypto}.
Variable roots : list certificate.

(** What a verdict is about: a chain of signatures, through some of [inters], to a root. *)
Inductive trusted (inters : list certificate) : certificate → Prop :=
  | trusted_root r c : r ∈ roots → r = c ∨ signed_by r c = true → trusted inters c
  | trusted_via i c : i ∈ inters → signed_by i c = true → trusted inters i → trusted inters c.

Lemma trusted_mono l l' c : (∀ x, x ∈ l → x ∈ l') → trusted l c → trusted l' c.
Proof. intros Hl. induction 1; [by eapply trusted_root|eapply trusted_via; eauto]. Qed.

(** A chain that comes back to a certificate can start there. *)
Lemma trusted_cut l l' i c : (∀ x, x ∈ l → x = i ∨ x ∈ l') → trusted l c → trusted l' c ∨ trusted l' i.
Proof.
  intros Hl. induction 1 as [r c Hr Hs|j c Hj Hs Hi IH]; [left; by eapply trusted_root|].
  destruct IH as [IH|IH]; [|by right]. destruct (Hl j Hj) as [->|Hj']; [by right|left; by eapply trusted_via].
Qed.

Lemma root_found fuel l c : (∃ r, r ∈ roots ∧ (r = c ∨ signed_by r c = true)) → chain_search fuel roots l c = true.
Proof.
  intros (r & Hr & Hs). destruct fuel; cbn; apply orb_true_iff; left; apply existsb_exists; exists r; (split; [by apply list_elem_of_In|]);
    (destruct Hs as [->| ->]; [apply orb_true_iff; left; by apply bool_decide_eq_true_2|apply orb_true_r]).
Qed.

Lemma search_sound fuel l c : chain_search fuel roots l c = true → trusted l c.
Proof.
  revert l c. induction fuel as [|fuel IH]; intros l c Hc; cbn in Hc; apply orb_true_iff in Hc as [Hc|Hc]; try done.
  1, 2: apply existsb_exists in Hc as (r & Hr & Hs); apply list_elem_of_In in Hr; apply trusted_root with r; [done|];
    apply orb_true_iff in Hs as [Hs|Hs]; [left; by eapply bool_decide_eq_true_1|by right].
  apply existsb_exists in Hc as ([i rest] & Hp & Hs). apply list_elem_of_In in Hp. apply andb_prop in Hs as [Hs Hc]. cbn in *.
  destruct (picks_spec l i rest Hp) as [_ Hy]. apply trusted_via with i; [apply Hy; by left|done|].
  eapply trusted_mono; [|exact (IH _ _ Hc)]. intros x Hx. apply Hy. by right.
Qed.

Lemma search_complete l c : trusted l c → chain_search (length l) roots l c = true.
Proof.
  remember (length l) as n eqn:Hn. revert l c Hn. induction n as [|n IH]; intros l c Hn Ht.
  - destruct l; [|done]. destruct Ht as [r c Hr Hs|i c Hi]; [apply root_found; eauto|by apply elem_of_nil in Hi].
  - destruct Ht as [r c Hr Hs|i c Hi Hs Ht]; [apply root_found; eauto|]. cbn. apply orb_true_iff. right.
    destruct (picks_complete l i Hi) as [rest Hp]. destruct (picks_spec l i rest Hp) as [Hlen Hy].
    apply existsb_exists. exists (i, rest). split; [by apply list_elem_of_In|]. cbn. rewrite Hs. cbn.
    apply IH; [congruence|]. destruct (trusted_cut l rest i i) as [?|?]; [|done..]. intros x Hx. by apply Hy.
Qed.

Lemma chain_verify_iff l c : chain_verify roots l c = true ↔ trusted l c.
Proof. split; [apply search_sound|apply search_complete]. Qed.

(** ** The verdict *)

(** The certificate the code takes for the signer's: the last one for signing code, or else
    the first of the signature. *)
Definition signs_code (c : certificate) : bool := bool_decide (CodeSigning ∈ crt_ExtKeyUsage c).
Definition leaf_of (certs : list certificate) (leaf : certificate) (others : list certificate) : Prop :=
  (∃ before after, certs = before ++ leaf :: after ∧ others = before ++ after ∧ signs_code leaf = true ∧ Forall (λ c, signs_code c = false) after)
  ∨ Forall (λ c, signs_code c = false) certs ∧ certs = leaf :: others.

Lemma usage_loop_spec i idx us : usage_loop i idx us = if bool_decide (CodeSigning ∈ us) then i else idx.
Proof. induction us as [|u us IH]; cbn; [case_bool_decide as Hn; [by apply elem_of_nil in Hn|done]|]. rewrite IH. repeat case_bool_decide; set_solver. Qed.

Lemma leaf_loop_app i idx a b : leaf_loop i idx (a ++ b) = leaf_loop (i + length a) (leaf_loop i idx a) b.
Proof. revert i idx. induction a as [|c a IH]; intros i idx; cbn; [by rewrite Nat.add_0_r|]. by rewrite IH, Nat.add_succ_r. Qed.

Lemma leaf_loop_none i idx certs : Forall (λ c, signs_code c = false) certs → leaf_loop i idx certs = idx.
Proof.
  revert i idx. induction certs as [|c certs IH]; intros i idx Hf; [done|]. inversion Hf as [|? ? Hc Hcs]; subst. cbn. rewrite usage_loop_spec.
  unfold signs_code in Hc. rewrite Hc. by apply IH.
Qed.

Lemma last_signing certs : Forall (λ c, signs_code c = false) certs
  ∨ ∃ before leaf after, certs = before ++ leaf :: after ∧ signs_code leaf = true ∧ Forall (λ c, signs_code c = false) after.
Proof.
  induction certs as [|c certs [IH|(before & leaf & after & -> & Hl & Ha)]]; [by left| |].
  - destruct (signs_code c) eqn:Hc; [right; by exists [], c, certs|left; by constructor].
  - right. by exists (c :: before), leaf, after.
Qed.

Lemma leaf_found certs leaf others : leaf_of certs leaf others →
  certs !! leafIdx certs = Some leaf ∧ delete (leafIdx certs) certs = others.
Proof.
  unfold leafIdx. intros [(before & after & -> & -> & Hl & Ha)|[Hf ->]].
  - rewrite leaf_loop_app. cbn. rewrite usage_loop_spec. unfold signs_code in Hl. rewrite Hl, leaf_loop_none by done.
    split; [by rewrite list_lookup_middle|]. clear. induction before as [|b before IH]; cbn; [done|]. by f_equal.
  - rewrite leaf_loop_none by done. done.
Qed.

Lemma leaf_exists certs leaf : certs !! leafIdx certs = Some leaf → leaf_of certs leaf (delete (leafIdx certs) certs).
Proof.
  intros Hk. destruct (last_signing certs) as [Hf|(before & l & after & -> & Hl & Ha)].
  - unfold leafIdx in *. rewrite leaf_loop_none in * by done. destruct certs as [|c certs]; [done|]. cbn in Hk. injection Hk as ->. by right.
  - assert (leaf_of (before ++ l :: after) l (before ++ after)) as Hof by (left; eauto 10).
    destruct (leaf_found _ _ _ Hof) as [H1 H2]. rewrite H2. congruence.
Qed.

Definition windows_accepts (f : pe_file) : Prop :=
  pe_trust f = Answer None ∨ ∃ e, pe_trust f = Answer (Some (certEUntrustedRoot, e)).

Lemma winVerifyTrust_accepts f : winVerifyTrust f = Answer None ↔ pe_name f = inl tt ∧ windows_accepts f.
Proof.
  unfold winVerifyTrust, windows_accepts. destruct (pe_name f) as [[]|e]; [|naive_solver].
  destruct (pe_trust f) as [[[hres e]|]|v]; [|naive_solver..].
  destruct (hres =? trustENoSignature)%N eqn:H1; [apply N.eqb_eq in H1; subst; naive_solver|].
  destruct (hres =? trustESubjectFormUn)%N eqn:H2; [apply N.eqb_eq in H2; subst; naive_solver|].
  destruct (hres =? trustEBadDigest)%N eqn:H3; [apply N.eqb_eq in H3; subst; naive_solver|].
  destruct (hres =? certEUntrustedRoot)%N eqn:H4; [apply N.eqb_eq in H4; subst; naive_solver|]. cbn. naive_solver.
Qed.

Definition well_signed (f : pe_file) : Prop := pe_name f = inl tt ∧ windows_accepts f
  ∧ ∃ ders leaf others, pe_store f = Answer (Some ders) ∧ leaf_of (parse_all ders) leaf others ∧ trusted others leaf.

Lemma configured : roots ≠ [] → Nat.eqb (length roots) 0 = false.
Proof. intros Hr. apply Nat.eqb_neq. intros E. by apply nil_length_inv in E. Qed.

Lemma accepted_well_signed f : roots ≠ [] → Verify true roots f = None → well_signed f.
Proof.
  intros Hr Hv. unfold Verify, platformVerify in Hv. rewrite (configured Hr) in Hv. destruct (winVerifyTrust f) as [[e|]|v] eqn:Hw; [done| |done].
  apply winVerifyTrust_accepts in Hw as [Hn Ha]. unfold extractSignerCerts in Hv. rewrite Hn in Hv.
  destruct (pe_store f) as [[ders|]|v] eqn:Hst; [|done..]. destruct (parse_all ders !! _) as [leaf|] eqn:Hleaf; [|done].
  unfold verifyChainToPinnedRoots in Hv. destruct (chain_verify _ _ leaf) eqn:Hc; [|done]. apply chain_verify_iff in Hc.
  split; [done|]. split; [done|]. eexists _, _, _. split; [done|]. split; [by apply leaf_exists|done].
Qed.

Lemma well_signed_accepted f : roots ≠ [] → well_signed f → Verify true roots f = None.
Proof.
  intros Hr (Hn & Ha & ders & leaf & others & Hst & Hof & Ht). unfold Verify, platformVerify. rewrite (configured Hr).
  rewrite (proj2 (winVerifyTrust_accepts f) (conj Hn Ha)). unfold extractSignerCerts. rewrite Hn, Hst.
  destruct (leaf_found _ _ _ Hof) as [-> ->]. unfold verifyChainToPinnedRoots. by rewrite (proj2 (chain_verify_iff others leaf) Ht).
Qed.

(** once a root is pinned, a file is accepted on Windows exactly when its signature is
    intact and the certificate taken for the signer's, the last one for signing code among
    those in the signature or else the first, has a chain of signatures through the others to
    a pinned root; the search for a chain finds one whenever there is one. *)
Theorem accepted_iff f : roots ≠ [] → Verify true roots f = None ↔ well_signed f.
Proof. intros Hr. split; [by apply accepted_well_signed|by apply well_signed_accepted]. Qed.

(** Whoever made the signature, a foreign root is excused and a certificate of the right chain,
    which any signed release carries, may be the last of those that come with it. *)
Lemma foreign_signature_accepted f e ders others genuine : roots ≠ [] → pe_name f = inl tt →
  pe_trust f = Answer (Some (certEUntrustedRoot, e)) → pe_store f = Answer (Some ders) → parse_all ders = others ++ [genuine] →
  signs_code genuine = true → trusted others genuine → Verify true roots f = None.
Proof.
  intros Hr Hn Ht Hst Hp Hg Hc. apply well_signed_accepted; [done|]. split; [done|]. split; [right; eauto|].
  exists ders, genuine, others. split; [done|]. split; [|done]. rewrite Hp. left. exists others, []. by rewrite app_nil_r.
Qed.

(** ** Activating an update under signatures *)

Context `{UpdateHost}.

(** What the updater was told of a file is the verdict over what the file then held; [pe]
    is what Windows reports of a file with a content. *)
Definition verdict (pe : file → pe_file) (e : event UpdCall Dir) : Prop :=
  match e with Ev c r d =>
    match c in UpdCall R return R → Prop with
    | VerifySignature name => λ r, ∀ f, files d !! name = Some f →
        r = match Verify true roots (pe f) with None => inl tt | Some e => inr e end
    | _ => λ _, True
    end r
  end.
Definition verdicts (pe : file → pe_file) (lg : list (event UpdCall Dir)) : Prop := Forall (verdict pe) lg.

(** Somebody was told that the content [f] of a file is properly signed. *)
Definition told_signed (name : string) (f : option file) (st : upd_state) : Prop :=
  ∃ d, Ev (VerifySignature name) (inl tt) d ∈ log st ∧ files d !! name = f.

Lemma told_keeps_call {T} en name f (c : UpdCall T) : keeps en (told_signed name f) (call c).
Proof. apply keeps_call. intros st r (d & Hd & Hf). exists d. split; [by right|done]. Qed.

Lemma told_keeps_modify en name f g : keeps en (told_signed name f) (modify g).
Proof. by apply keeps_modify. Qed.

Ltac told_tac := repeat first
  [ apply told_keeps_call | apply told_keeps_modify | apply keeps_ret | apply keeps_throw | apply keeps_lift | apply keeps_gets
  | apply keeps_bind; [|intros ?] | progress case_match ].

Lemma told_keeps_rename en name f a b : keeps en (told_signed name f) (retryRename a b).
Proof.
  unfold retryRename. generalize (inl tt : unit + error). induction renameRetries as [|n IH]; intros last; [apply keeps_ret|].
  cbn [rename_attempts]. apply keeps_bind; [unfold os_rename; told_tac|]. intros [u|e]; [apply keeps_ret|].
  apply keeps_bind; [apply told_keeps_call|intros _; apply IH].
Qed.

Lemma told_keeps_writeMarker en name f m : keeps en (told_signed name f) (writeMarker m).
Proof. unfold writeMarker, os_rename. told_tac. Qed.

Lemma told_keeps_clearMarker en name f : keeps en (told_signed name f) clearMarker.
Proof. unfold clearMarker, os_remove. told_tac. Qed.

Lemma told_keeps_swap en name f v w : keeps en (told_signed name f) (swap v w).
Proof.
  unfold swap. repeat first [apply told_keeps_rename|apply told_keeps_writeMarker|apply told_keeps_clearMarker|apply keeps_throw|apply keeps_ret
    |apply keeps_bind; [|intros ?]|case_match].
Qed.

(** Once signatures are enforced a download that passes was said to be signed as it is. *)
Lemma check_download_told en v st st' : files_private en → enforceSignature = true →
  check_download v en st = (Ok tt, st') → told_signed (versionedName v) (files (world st) !! versionedName v) st'.
Proof.
  intros Hpriv Hs Hok. assert (∀ T (c : UpdCall T) s r s', call c en s = (Ok r, s') → world s' = world s) as Hcall.
  { intros T c s r s' E. unfold call in E. injection E as _ <-. cbn. apply Hpriv. }
  unfold check_download in Hok. apply bind_returned in Hok as (exe & st1 & Hc1 & Hok).
  apply bind_returned in Hc1 as (r1 & st1' & Hc1 & Hl). apply Hcall in Hc1.
  assert (st1 = st1') as -> by (destruct r1; [by injection Hl|done]).
  destruct (negb _); [done|]. apply bind_returned in Hok as (size & st2 & Hc2 & Hok).
  assert (world st2 = world st1') as H2.
  { unfold os_stat in Hc2. apply bind_returned in Hc2 as (f & s & [= <- <-] & Hc2). destruct (files _ !! _); [by eapply Hcall|by injection Hc2 as _ <-]. }
  destruct size as [size|e]; [|done]. destruct (size =? 0)%N; [done|].
  apply bind_returned in Hok as (reported & st3 & Hc3 & Hok). apply Hcall in Hc3. destruct reported as [reported|e]; [|done]. destruct (negb _); [done|].
  apply bind_returned in Hok as (sig & st4 & Hc & Hok). rewrite Hs in Hok. destruct sig as [[]|e]; [|done]. injection Hok as <-.
  unfold call in Hc. injection Hc as Hr <-. exists (world st3). cbn [log]. rewrite Hr. split; [by left|congruence].
Qed.

(** A successful activation was told that the very content it put into place is signed. *)
Lemma activate_told en old v w d st' : files_private en → enforceSignature = true → files d !! activeName = Some old →
  Activate v w en (mk_state d []) = (Ok tt, st') →
  ∃ c, files d !! versionedName v = Some c ∧ files (world st') !! activeName = Some c ∧ told_signed (versionedName v) (Some c) st'.
Proof.
  intros Hpriv Hs Hold Hok. assert (intact old v (files d !! versionedName v) (files d)) as Hi by done.
  pose proof (Activate_spec en Hpriv old v w (files d !! versionedName v) _ (ends_swapped en Hpriv old v w _)
    (mk_state d []) Hi (List.Forall_nil _)) as HA. rewrite Hok in HA. destruct HA as (_ & [c Hc] & Ha & _).
  exists c. split; [done|]. rewrite Hc in Ha. split; [done|]. rewrite <- Hc.
  unfold Activate in Hok. apply bind_returned in Hok as ([] & st1 & Hb & Hok).
  pose proof (check_blocked_spec en Hpriv old v (files d !! versionedName v) (mk_state d []) Hi (List.Forall_nil _)) as HB.
  rewrite Hb in HB. destruct HB as (_ & _ & Hv1). apply bind_returned in Hok as ([] & st2 & Hd & Hok).
  apply (check_download_told en v st1 st2 Hpriv Hs) in Hd. rewrite Hv1 in Hd. revert Hok.
  match goal with |- ?m en st2 = _ → _ => assert (keeps en (told_signed (versionedName v) (files d !! versionedName v)) m) as Hk end.
  { apply keeps_bind; [unfold os_remove; told_tac|]. intros r. apply keeps_bind; [destruct r; told_tac|]. intros _.
    apply keeps_bind; [apply told_keeps_writeMarker|]. intros r'. apply keeps_bind; [apply keeps_lift|]. intros _. apply told_keeps_swap. }
  intros Hok. specialize (Hk st2 Hd). by rewrite Hok in Hk.
Qed.

(** C9: signatures and self update composed: once signatures are enforced and a binary is in
    place, an activation that succeeds, while nobody else moves the files, leaves as the
    active binary exactly the download, and the content that is now active is one whose
    signature Windows found intact (or found fault only with its root) and of whose
    certificates one, made for signing code if any of them is, leads through the others to
    a pinned root. *)
Theorem activated_is_signed enforce enforceStr en pe old newVersion currentVersion d st' : Enforcing enforce enforceStr roots = true →
  enforceSignature = Enforcing enforce enforceStr roots → files_private en → files d !! activeName = Some old →
  Activate newVersion currentVersion en (mk_state d []) = (Ok tt, st') → verdicts pe (log st') →
  ∃ c, files (world st') !! activeName = Some c ∧ files d !! versionedName newVersion = Some c ∧ windows_accepts (pe c)
    ∧ ∃ ders leaf others, pe_store (pe c) = Answer (Some ders) ∧ parse_all ders ≡ₚ leaf :: others
        ∧ (signs_code leaf = true ∨ Forall (λ c, signs_code c = false) (parse_all ders)) ∧ trusted others leaf.
Proof.
  intros He Hs Hpriv Hold Hok Hv. rewrite He in Hs.
  assert (roots ≠ []) as Hr by (intros E; unfold Enforcing, Configured in He; rewrite E in He; by rewrite andb_false_r in He).
  destruct (activate_told en old newVersion currentVersion d st' Hpriv Hs Hold Hok) as (c & Hnew & Hact & d' & Hd & Hf).
  exists c. split; [done|]. split; [done|]. pose proof (proj1 (List.Forall_forall _ _) Hv _ (proj1 (list_elem_of_In _ _) Hd) c Hf) as Hsigned. cbn in Hsigned.
  destruct (Verify true roots (pe c)) eqn:Hp; [done|].
  destruct (accepted_well_signed _ Hr Hp) as (_ & Ha & ders & leaf & others & Hst & Hof & Ht). split; [done|].
  exists ders, leaf, others. split; [done|]. destruct Hof as [(before & after & Heq & -> & Hl & _)|[Hn Heq]].
  - rewrite Heq. split; [by rewrite <- Permutation_middle|]. by split; [left|].
  - rewrite Heq. split; [done|]. split; [right; by rewrite <- Heq|done].
Qed.
End chains.

(** ** A release, and what a stranger can make of it *)

#[local] Instance ex_crypto : Crypto := {|
  ParseCertificate s := inl {| crt_Raw := s; crt_CommonName := s; crt_ExtKeyUsage := if existsb (String.eqb s) ["release"; "stranger"] then [CodeSigning] else [] |};
  signed_by i c := existsb (λ p, String.eqb (crt_Raw i) p.1 && String.eqb (crt_Raw c) p.2) [("root", "inter"); ("inter", "release")];
|}.
Definition ex_cert (s : string) : certificate := {| crt_Raw := s; crt_CommonName := s; crt_ExtKeyUsage := if existsb (String.eqb s) ["release"; "stranger"] then [CodeSigning] else [] |}.
Definition ex_roots : list certificate := [ex_cert "root"].
Definition ex_pe (certs : list string) : pe_file :=
  {| pe_name := inl tt; pe_trust := Answer (Some (certEUntrustedRoot, Plain "untrusted root")); pe_store := Answer (Some certs) |}.

Example verdicts_of_files :
  Verify true ex_roots (ex_pe ["release"; "inter"]) = None ∧ Verify true ex_roots (ex_pe ["stranger"]) = Some ErrWrongSigner
  ∧ Verify true ex_roots (ex_pe ["stranger"; "inter"; "release"]) = None ∧ Verify true ex_roots (ex_pe ["release"; "inter"; "stranger"]) = Some ErrWrongSigner
  ∧ Verify true [] (ex_pe ["stranger"]) = None.
Proof. vm_compute. split_and!; reflexivity. Qed.

Lemma accepted_iff_witness : Verify true ex_roots (ex_pe ["release"; "inter"]) = None ∧ well_signed ex_roots (ex_pe ["release"; "inter"]).
Proof.
  assert (ex_roots ≠ []) as Hr by done. assert (Verify true ex_roots (ex_pe ["release"; "inter"]) = None) as Hv by (vm_compute; reflexivity).
  split; [exact Hv|]. exact (proj1 (@accepted_iff ex_crypto ex_roots (ex_pe ["release"; "inter"]) Hr) Hv).
Defined.

(** An updater that asks for the verdicts. *)
Definition signed_update : upd_env := {|
  answer := λ (T : Type) (c : UpdCall T) _,
    match c in UpdCall R return R → R with
    | VerifySignature _ => λ _, match Verify true ex_roots (ex_pe ["release"; "inter"]) with None => inl tt | Some e => inr e end
    | _ => λ r, r
    end (working c);
  interfere := λ _ d, d |}.

(** The update is the file the release signed, the binary in place is not. *)
Definition ex_pe_of (f : file) : pe_file :=
  match f with Exe "two" => ex_pe ["release"; "inter"] | _ => ex_pe ["stranger"] end.
Definition signed_run : outcome unit * upd_state := @Activate ex_update "2.0" "1.0" signed_update (mk_state device_1 []).

Lemma signed_run_verdicts : verdicts ex_roots ex_pe_of (log signed_run.2).
Proof.
  unfold verdicts, signed_run. vm_compute log. repeat first [apply List.Forall_nil|apply List.Forall_cons; [exact I|]|apply List.Forall_cons].
  intros f [= <-]. vm_compute. reflexivity.
Qed.

Lemma activated_is_signed_witness : files (world signed_run.2) !! activeName = Some (Exe "two")
  ∧ files device_1 !! activeName = Some (Exe "one") ∧ windows_accepts (ex_pe ["release"; "inter"]).
Proof.
  assert (Enforcing false "true" ex_roots = true) as He by reflexivity.
  assert (@enforceSignature ex_update = Enforcing false "true" ex_roots) as Hs by reflexivity.
  assert (files device_1 !! activeName = Some (Exe "one")) as Hold by reflexivity.
  assert (@Activate ex_update "2.0" "1.0" signed_update (mk_state device_1 []) = (Ok tt, signed_run.2)) as Hok by (vm_compute; reflexivity).
  destruct (@activated_is_signed ex_crypto ex_roots ex_update false "true" signed_update ex_pe_of (Exe "one") "2.0" "1.0" device_1 _ He Hs
    (λ _ _, eq_refl) Hold Hok signed_run_verdicts) as (c & Hact & Hnew & Ha & _).
  assert (c = Exe "two") as -> by (vm_compute in Hnew; congruence). split; [exact Hact|]. split; [exact Hold|exact Ha].
Defined.
