(* ===== verification/Config.v ===== *)
(** * Command-line configuration and the build's identity (src/src/config/config.go,
      release/build.go, system/utils.go)

    The arguments of the agent with their defaults and what is derived from them, the
    architecture and the operating system an agent reports, and environment variables with a
    default. *)
From S2P Require Import Prelude Errdefs GoValue Common EnvVars Effects Service.
#[local] Open Scope list_scope.

Record CommandLineArguments := {
  cla_AppsDirectory : string; cla_AppsComposeDir : string; cla_AppsBuildDir : string; cla_AppsSharedDir : string;
  cla_AgentDir : string; cla_DownloadDir : string; cla_CompressedBuildExtension : string; cla_RemoteUpdateURL : string;
  cla_Environment : string; cla_Debug : bool; cla_DebugMessaging : bool; cla_Version : bool; cla_Arch : bool; cla_Offline : bool;
  cla_Profiling : bool; cla_ProfilingPort : N; cla_ShouldUpdateAgent : bool; cla_PrettyLogging : bool; cla_UseNetworkManager : bool;
  cla_LogFileLocation : string; cla_ConfigFileLocation : string; cla_DatabaseFileName : string;
  cla_PingPongTimeout : N; cla_ResponseTimeout : N; cla_ConnectionEstablishTimeout : N;
}.

(** The flags of the agent: name, kind and default, with the defaults of the directories. *)
Definition agent_flags (defaultAgentDir defaultLogFilePath defaultAppsDir defaultDatabaseFileName : string) : list (string * (flag_kind * string)) :=
  [("logFile", (FlagString, defaultLogFilePath)); ("debug", (FlagBool, "true")); ("update", (FlagBool, "true")); ("offline", (FlagBool, "false"));
   ("env", (FlagString, "production")); ("arch", (FlagBool, "false")); ("version", (FlagBool, "false")); ("profiling", (FlagBool, "false"));
   ("profilingPort", (FlagUint, "80")); ("prettyLogging", (FlagBool, "false")); ("remoteUpdateURL", (FlagString, "https://storage.googleapis.com"));
   ("agentDir", (FlagString, defaultAgentDir)); ("appsDir", (FlagString, defaultAppsDir)); ("dbFileName", (FlagString, defaultDatabaseFileName));
   ("debugMessaging", (FlagBool, "false")); ("nmw", (FlagBool, "true")); ("compressedBuildExtension", (FlagString, "tgz"));
   ("ppTimeout", (FlagUint, "5000")); ("respTimeout", (FlagUint, "7000")); ("connTimeout", (FlagUint, "1250")); ("config", (FlagString, ""))].

Fixpoint flag_kinds (flags : list (string * (flag_kind * string))) : list (string * flag_kind) :=
  match flags with [] => [] | (name, (kind, _)) :: flags => (name, kind) :: flag_kinds flags end.
Fixpoint flag_default (name : string) (flags : list (string * (flag_kind * string))) : string :=
  match flags with [] => "" | (n, (_, d)) :: flags => if String.eqb name n then d else flag_default name flags end.

Section config.
Context `{ServiceHost}.

(** [linux]: whether this is Linux; [home]: the home directory elsewhere. *)
Definition default_dirs (linux : bool) (home : string + error) : (string * string) + error :=
  if linux then inl ("/opt/reagent", "/var/log/reagent.log")
  else match home with
       | inr e => inr e
       | inl homeDir => inl (homeDir +:+ "/reagent", homeDir +:+ "/reagent/reagent.log")
       end.

(** A command line that cannot be parsed ends the process. *)
Definition GetCliArguments (linux : bool) (home : string + error) (args : list string) : CommandLineArguments + error :=
  match default_dirs linux home with
  | inr e => inr e
  | inl (defaultAgentDir, defaultLogFilePath) =>
      let flags := agent_flags defaultAgentDir defaultLogFilePath (path_join [defaultAgentDir; "apps"]) (path_join [defaultAgentDir; "reagent.db"]) in
      match parse_flags (flag_kinds flags) args [] with
      | inr e => inr e
      | inl values =>
          let get name := default (flag_default name flags) (map_get name values) in
          let on name := String.eqb (get name) "true" in
          let num name := default 0%N (parse_uint 64 (get name)) in
          inl {| cla_AppsDirectory := get "appsDir"; cla_AppsBuildDir := get "appsDir" +:+ "/build";
                 cla_AppsComposeDir := get "appsDir" +:+ "/compose"; cla_AppsSharedDir := get "appsDir" +:+ "/shared";
                 cla_DownloadDir := get "agentDir" +:+ "/downloads"; cla_AgentDir := get "agentDir"; cla_RemoteUpdateURL := get "remoteUpdateURL";
                 cla_CompressedBuildExtension := get "compressedBuildExtension"; cla_Debug := on "debug"; cla_Version := on "version";
                 cla_Offline := on "offline"; cla_Environment := get "env"; cla_PrettyLogging := on "prettyLogging";
                 cla_DebugMessaging := on "debugMessaging"; cla_LogFileLocation := get "logFile"; cla_ConfigFileLocation := get "config";
                 cla_Profiling := on "profiling"; cla_ProfilingPort := num "profilingPort"; cla_ShouldUpdateAgent := on "update";
                 cla_DatabaseFileName := get "dbFileName"; cla_PingPongTimeout := num "ppTimeout"; cla_ResponseTimeout := num "respTimeout";
                 cla_ConnectionEstablishTimeout := num "connTimeout"; cla_Arch := on "arch"; cla_UseNetworkManager := on "nmw" |}
      end
  end.
End config.

(** The directories [filesystem.InitDirectories] makes, in its order (setup.go). *)
Definition directories_of (c : CommandLineArguments) : list string :=
  [cla_AppsDirectory c; cla_AppsBuildDir c; cla_AppsComposeDir c; cla_AppsSharedDir c; cla_DownloadDir c].

(** Making them one after the other; a directory that exists is none of the failures. *)
Fixpoint InitDirectories (mkdir : string → unit + error) (is_exist : error → bool) (dirs : list string) : list string * option error :=
  match dirs with
  | [] => ([], None)
  | dir :: dirs =>
      match mkdir dir with
      | inr e => if is_exist e then let '(made, err) := InitDirectories mkdir is_exist dirs in (dir :: made, err) else ([dir], Some e)
      | inl _ => let '(made, err) := InitDirectories mkdir is_exist dirs in (dir :: made, err)
      end
  end.

(** ** What the agent is built for (release/build.go) *)

Record SystemInfo := { si_OS : string; si_Arch : string; si_Variant : string; si_DetailedOS : string }.

(** What gopsutil reports of the host. *)
Record host_info := { hi_Platform : string; hi_PlatformVersion : string; hi_KernelVersion : string }.
Inductive host_answer := HostInfo (i : host_info) | HostError (e : error) | HostPanics.

Definition getDetailedOS (goos : string) (host : host_answer) : string :=
  match host with
  | HostPanics | HostError _ => goos
  | HostInfo i =>
      join_with " "
        (goos :: (if negb (String.eqb (hi_Platform i) "") && negb (String.eqb (hi_Platform i) goos) then [hi_Platform i] else [])
              ++ (if negb (String.eqb (hi_PlatformVersion i) "") then [hi_PlatformVersion i] else [])
              ++ (if negb (String.eqb (hi_KernelVersion i) "") then [hi_KernelVersion i] else []))
  end.

(** The architecture and its variant. *)
Definition split_arch (arch : string) : string * string :=
  if str_contains "arm" arch then
    match split_on "v" arch with
    | [_; variant] => ("arm", "v" +:+ variant)
    | _ => (arch, "")
    end
  else (arch, "").

Definition GetSystemInfo (BuildArch goarch goos : string) (host : host_answer) : SystemInfo :=
  let arch := if String.eqb BuildArch "" then goarch else BuildArch in
  let '(arch, variant) := split_arch arch in
  {| si_OS := goos; si_Arch := arch; si_Variant := variant; si_DetailedOS := getDetailedOS goos host |}.

(** The answer, and the package variable afterwards. *)
Definition GetBuildArch (BuildArch goarch goos : string) (host : host_answer) : string * string :=
  let arch := if String.eqb BuildArch "" then let info := GetSystemInfo BuildArch goarch goos host in si_Arch info +:+ si_Variant info else BuildArch in
  (arch, arch).

Definition GetVersion (version : string) : string := trim_space version.

(** [system.GetEnv]: an empty variable counts as a missing one. *)
Definition GetEnv (value : string) (defaultValue : list string) : string :=
  match value, defaultValue with
  | EmptyString, d :: _ => d
  | _, _ => value
  end.

(** * The agent's arguments: what the installer and the agent agree on *)

(** ** Flags and values *)

(** A name a flag argument carries as it is. *)
Definition plain_name (name : string) : Prop := name ≠ "" ∧ has_prefix "-" name = false ∧ lacks "=" name = true.

Lemma flag_name_plain name : plain_name name → flag_name ("-" +:+ name) = Some (name, None) ∧ ends_flags ("-" +:+ name) = false.
Proof.
  intros (Hn & Hp & Hl). destruct name as [|a name]; [done|]. cbn [String.append].
  assert (a ≠ "-"%char) as Ha by (intros ->; unfold has_prefix in Hp; cbn in Hp; by destruct name). assert (a ≠ "="%char) as Hb by (intros ->; unfold lacks in Hl; cbn in Hl; done).
  apply andb_prop in Hl as [_ Hl].
  pose proof (split_on_lacks "=" name Hl) as Hs. unfold flag_name, ends_flags, str_cut.
  destruct a as [[] [] [] [] [] [] [] []]; try done; by rewrite Hs.
Qed.

(** Texts for flags that take them, written one after the other, are the values a parse ends
    with; the last of a name counts. *)
Fixpoint given (values : list (string * string)) : list string :=
  match values with [] => [] | (name, v) :: values => ("-" +:+ name) :: v :: given values end.
Fixpoint set_all (values m : list (string * string)) : list (string * string) :=
  match values with [] => m | (name, v) :: values => set_all values (map_set name v m) end.

Lemma parse_given kinds values m : Forall (λ p, plain_name p.1 ∧ map_get p.1 kinds = Some FlagString) values →
  parse_flags kinds (given values) m = inl (set_all values m).
Proof.
  intros Hv. revert m. induction Hv as [|[name v] values [Hp Hk] Hv IH]; intros m; [done|]. cbn [given parse_flags set_all] in *.
  destruct (flag_name_plain name Hp) as [-> ->]. cbn in Hk. rewrite Hk. apply IH.
Qed.

Section config.
Context `{ServiceHost}.

(** C12: an agent started with the command line that its installation registered uses exactly
    the directories the installation made, in the same order, and the configuration, the
    database and the log in the agent directory, whatever the paths are and whatever the
    defaults of the machine would have been. *)
Theorem installed_agent_finds_its_files o home :
  match GetCliArguments false (inl home) (serviceBinaryArgs o) with
  | inl c => directories_of c = installCliArgs o ∧ cla_AgentDir c = so_AgentDir o
      ∧ cla_ConfigFileLocation c = path_join [so_AgentDir o; serviceConfigName]
      ∧ cla_DatabaseFileName c = path_join [so_AgentDir o; "reagent.db"]
      ∧ cla_LogFileLocation c = path_join [so_AgentDir o; "reagent.log"]
      ∧ cla_Debug c = true ∧ cla_Offline c = false
  | inr _ => False
  end.
Proof.
  unfold GetCliArguments. cbn [default_dirs].
  pose (values := [("config", path_join [so_AgentDir o; serviceConfigName]); ("agentDir", so_AgentDir o); ("appsDir", so_AppsDir o);
    ("dbFileName", path_join [so_AgentDir o; "reagent.db"]); ("logFile", path_join [so_AgentDir o; "reagent.log"])]).
  change (serviceBinaryArgs o) with (given values). rewrite parse_given by (repeat constructor; done). done.
Qed.
End config.

(** ** Directories *)

(** The directories are made in order up to the first that fails with anything but being
    there; then nothing after it is tried and its error is the answer. *)
Lemma init_directories_spec mkdir is_exist dirs :
  let ok dir := match mkdir dir with inl _ => true | inr e => is_exist e end in
  (Forall (λ d, ok d = true) dirs ∧ InitDirectories mkdir is_exist dirs = (dirs, None))
  ∨ ∃ before dir after e, dirs = before ++ dir :: after ∧ Forall (λ d, ok d = true) before ∧ mkdir dir = inr e ∧ is_exist e = false
      ∧ InitDirectories mkdir is_exist dirs = (before ++ [dir], Some e).
Proof.
  intros ok. induction dirs as [|d dirs IH]; [by left|].
  destruct (ok d) eqn:Hok.
  - assert (InitDirectories mkdir is_exist (d :: dirs) = (d :: (InitDirectories mkdir is_exist dirs).1, (InitDirectories mkdir is_exist dirs).2)) as ->.
    { unfold ok in Hok. cbn [InitDirectories]. destruct (InitDirectories mkdir is_exist dirs). destruct (mkdir d) as [u|e]; [done|by rewrite Hok]. }
    destruct IH as [[Hf ->]|(before & x & after & e & -> & Hb & He & Hn & ->)].
    + left. split; [by constructor|done].
    + right. exists (d :: before), x, after, e. repeat (split; [done || by constructor|]). done.
  - right. unfold ok in Hok. destruct (mkdir d) as [u|e] eqn:Hm; [done|]. exists [], d, dirs, e. cbn [InitDirectories]. rewrite Hm, Hok. by repeat (split; [done|]).
Qed.

(** ** Architectures *)

(** The parts of an architecture are the architecture again, if it is no ARM one or begins
    with the name of the family. *)
Lemma arch_parts_join arch : str_contains "arm" arch = false ∨ (∃ v, arch = "arm" +:+ v ∧ lacks "v" v = true)
    ∨ (∃ v, arch = "armv" +:+ v ∧ lacks "v" v = true) →
  (split_arch arch).1 +:+ (split_arch arch).2 = arch.
Proof.
  assert (∀ v, str_contains "arm" ("arm" +:+ v) = true) as Harm by (intros v; cbn; by destruct v).
  intros [Hn|[(v & -> & Hv)|(v & -> & Hv)]]; unfold split_arch; [rewrite Hn; apply str_app_nil_r| |].
  - rewrite Harm, split_on_lacks by done. apply str_app_nil_r.
  - change ("armv" +:+ v) with ("arm" +:+ String "v" v). by rewrite Harm, split_on_app, split_on_lacks by done.
Qed.

(** The answer of the first call is the one of every later call. *)
Lemma build_arch_settles BuildArch goarch goos host goarch' goos' host' : (GetBuildArch BuildArch goarch goos host).1 ≠ "" →
  GetBuildArch (GetBuildArch BuildArch goarch goos host).2 goarch' goos' host' = GetBuildArch BuildArch goarch goos host.
Proof. intros Hn. unfold GetBuildArch at 1. cbn in *. by rewrite (proj2 (String.eqb_neq _ _) Hn). Qed.

Example architectures :
  (split_arch "armv7", split_arch "arm64", split_arch "amd64", GetVersion (" 1.2.3" +:+ newline)) = (("arm", "v7"), ("arm64", ""), ("amd64", ""), "1.2.3").
Proof. vm_compute. reflexivity. Qed.

Example command_line_of_a_device : match @GetCliArguments {| path_join := String.concat "/"; equal_paths := String.eqb |} true (inr (Plain "no home"))
    ["-config"; "d.flock"; "--offline"; "-connTimeout=0x10"; "-nmw=f"] with
  | inl c => (cla_ConfigFileLocation c, cla_Offline c, cla_ConnectionEstablishTimeout c, cla_UseNetworkManager c, cla_AppsBuildDir c)
  | inr _ => ("", false, 0%N, false, "")
  end = ("d.flock", true, 16%N, false, "/opt/reagent/apps/build").
Proof. vm_compute. reflexivity. Qed.
