(* ===== verification/AgentStart.v ===== *)
(** * The start of the agent (src/src/agent.go)

    [NewAgent] puts the parts together: the database, docker, the tunnel manager, the network,
    the disk guard with its callbacks into the app store, the local app states behind the gate
    of the docker daemon, and the session.  A fatal error ends the process.  Under it: the
    opening of the database and the scripts that bring its schema up (persistence/database.go),
    the end of the agent, and what the cloud is told of the device. *)
From S2P Require Import Prelude Errdefs Config GoValue Common Records Effects DiskGuard World Store Examples.
Open Scope go_scope.

(** ** The callbacks of the disk guard *)

Section callbacks.
Context `{Host}.

Definition installed_app_names (payloads : list TransitionPayload) : list string := map tp_AppName payloads.

Definition InstalledAppNames_callback : Agent (list string) :=
  let! payloads := GetRequestedStates in ret (installed_app_names payloads).

Definition add_versions (repo : string) (versions : list string) (wanted : list (string * bool)) : list (string * bool) :=
  foldl (λ wanted version, if String.eqb version "" then wanted else map_set (repo +:+ ":" +:+ version) true wanted) wanted versions.

Definition wanted_of (wanted : list (string * bool)) (p : TransitionPayload) : list (string * bool) :=
  foldl (λ wanted repo,
    if String.eqb repo "" then wanted
    else add_versions repo [tp_PresentVersion p; tp_NewestVersion p; tp_Version p] wanted)
    wanted [Prod (tp_RegistryImageName p); Dev (tp_RegistryImageName p)].

Definition wanted_app_images (payloads : list TransitionPayload) : list (string * bool) := foldl wanted_of [] payloads.

Definition WantedAppImages_callback : Agent (list (string * bool)) :=
  let! payloads := GetRequestedStates in ret (wanted_app_images payloads).

(** The configuration of the guard; [dataRoot] is empty when docker did not say. *)
Definition guard_config (dataRoot : string) : GuardConfig := withDefaults
  {| DataRoot := dataRoot; Interval := 0; EmergencyInterval := 0; WarnFreeBytes := 0; EmergencyFreeBytes := 0; LogMaxBytes := 0;
     AppsComposeDir := cfg_AppsComposeDir config; AppsBuildDir := cfg_AppsBuildDir config;
     AppImageRegistry := cfg_DockerRegistryURL config;
     has_InstalledAppNames := true; has_WantedAppImages := true; has_OnRecover := true; has_docker := true |}.
End callbacks.

(** ** The sequence of the start *)

Inductive StartCall : Type → Type :=
  | OpenDatabase : StartCall (unit + error)
  | InitDatabase : StartCall (unit + error)
  | SetupDocker : StartCall (unit + error)
  | SetupTunnelManager : StartCall (unit + error)
  | SetupNetwork : StartCall (unit + error)
  | InfiniteRetries : StartCall (unit + error)
  | EnsurePreventionConfig : StartCall unit
  | DataRootDir : StartCall (string + error)
  | GuardCheckNow (cfg : GuardConfig) : StartCall unit
  | GoGuardRun (cfg : GuardConfig) : StartCall unit
  | WaitForDaemonSeconds (n : nat) : StartCall (unit + error)
  | InitLocalAppStates (fatal : bool) : StartCall (unit + error)   (* [Startup.initLocalAppStates] *)
  | RefreshComposeSupport : StartCall unit
  | CloseDaemonReady : StartCall unit
  | GoLateDaemon : StartCall unit
  | StartupLog (text : string) : StartCall unit
  | NewWampSession : StartCall (unit + error)
  | SetMessengerOf (part : string) : StartCall unit
  | InitUnregisterWatcher : StartCall (unit + error)
  | SetRegistryGC : StartCall unit
  | SetReacquireFrpc : StartCall unit
  | SetTunnelCapableFunc : StartCall unit
  | SetOnConnect : StartCall unit.

Abbreviation Start := (M StartCall unit).
Abbreviation start_env := (env StartCall unit).
Abbreviation start_state := (state StartCall unit).

Section start.
Context `{Host}.
(** [runtime.GOOS == "linux"], the command line, and the model of the board. *)
Variables (linux UseNetworkManager : bool) (boardModel : string).

(** [log.Fatal] ends the process: what throws here never returns an agent. *)
Definition fatal (c : StartCall (unit + error)) : Start unit := callE c.
(** An error that is only logged. *)
Definition logged (c : StartCall (unit + error)) : Start unit := call c;; ret tt.

Definition start_network : Start unit :=
  if linux && UseNetworkManager then fatal SetupNetwork;; logged InfiniteRetries else ret tt.

(** The disk is evaluated before any local state is ensured. *)
Definition start_guard : Start unit :=
  if linux then
    call EnsurePreventionConfig;;
    let! root := call DataRootDir in
    let cfg := guard_config (match root with inl root => root | inr _ => "" end) in
    call (GuardCheckNow cfg);;
    call (GoGuardRun cfg)
  else ret tt.

Definition daemon_log : string :=
  "Docker daemon is not reachable yet, continuing startup; container features become available once Docker is up".

Definition start_local_states : Start unit :=
  let! up := call (WaitForDaemonSeconds 5) in
  match up with
  | inl _ => fatal (InitLocalAppStates true);; call CloseDaemonReady
  | inr _ => call (StartupLog daemon_log);; call GoLateDaemon
  end.

(** The goroutine that waits for a late daemon; [turns] bounds how often it asks. *)
Fixpoint late_daemon (turns : nat) : Start unit :=
  match turns with
  | O => hang
  | S turns =>
      let! up := call (WaitForDaemonSeconds 30) in
      match up with
      | inr _ => late_daemon turns
      | inl _ => call RefreshComposeSupport;; logged (InitLocalAppStates false);; call CloseDaemonReady
      end
  end.

(** Only an appliance host reaches the registry on its own disk. *)
Definition is_appliance : bool := negb (String.eqb (cfg_ApplianceDomain config) "") || String.eqb boardModel "appliance".

Definition start_session : Start unit :=
  call (StartupLog "Attempting to establish a socket connection...");;
  fatal NewWampSession;;
  call (StartupLog "Connected!");;
  call (SetMessengerOf "appStore");;
  call (SetMessengerOf "terminalManager");;
  logged InitUnregisterWatcher;;
  call (SetMessengerOf "logManager");;
  call (SetMessengerOf "tunnelManager");;
  when (linux && is_appliance) (call SetRegistryGC);;
  call SetReacquireFrpc;;
  call SetTunnelCapableFunc;;
  call SetOnConnect.

Definition NewAgent : Start unit :=
  fatal OpenDatabase;;
  fatal InitDatabase;;
  fatal SetupDocker;;
  fatal SetupTunnelManager;;
  start_network;;
  start_guard;;
  start_local_states;;
  start_session.
End start.

(** ** The database (src/src/persistence/database.go) *)

Inductive DbCall : Type → Type :=
  | SqlOpen (connection : string) : DbCall (unit + error)
  | ReadScriptDir : DbCall (list string + error)       (* sorted by name, as the embedded files are *)
  | ReadScript (path : string) : DbCall (string + error)
  | DbExec (request : string) : DbCall (unit + error)
  | GoUpdateQueue : DbCall unit
  | ScriptWarning (name : string) : DbCall unit.

Abbreviation Db := (M DbCall unit).

(** The name is relative when it begins with neither a slash nor a dot; what such a name gets is
    appended to it. *)
Definition database_file (windows : bool) (name : string) : option string :=
  match name with
  | EmptyString => None
  | String a _ => Some (if negb (Ascii.eqb a "/") && negb (Ascii.eqb a ".") && negb windows then name +:+ "./" else name)
  end.
Definition connection_string (file : string) : string := file +:+ "?cache=shared&_busy_timeout=2500&_journal_mode=WAL".

(** [databaseFileName[0:1]] of an empty name panics. *)
Definition NewSQLiteDb (windows : bool) (DatabaseFileName : string) : Db unit :=
  match database_file windows DatabaseFileName with
  | None => panic
  | Some file => callE (SqlOpen (connection_string file))
  end.

(** [strings.Split] at every semicolon that ends its line. *)
Fixpoint split_requests (s : string) : list string :=
  match s with
  | EmptyString => [""]
  | String a rest =>
      let on := match split_requests rest with [] => [String a ""] | w :: ws => String a w :: ws end in
      match rest with
      | String b rest' => if Ascii.eqb a ";" && Ascii.eqb b "010" then "" :: split_requests rest' else on
      | EmptyString => on
      end
  end.

Fixpoint exec_requests (requests : list string) : Db unit :=
  match requests with
  | [] => ret tt
  | request :: requests => callE (DbExec request);; exec_requests requests
  end.
Definition execute (fileName : string) : Db unit :=
  let! text := callE (ReadScript fileName) in exec_requests (split_requests text).

Definition scriptsDir : string := "update-scripts".
Definition script_path (name : string) : string := scriptsDir +:+ "/" +:+ name.
Definition single_run (name : string) : bool := str_contains "single-" name.

(** A script that is run every time although it works once: its failure is passed over, and
    logged unless the column was there already. *)
Definition run_script (name : string) : Db unit :=
  if single_run name then
    let! r := try_ (execute (script_path name)) in
    match r with
    | inl _ => ret tt
    | inr e => when (negb (str_contains "duplicate column" (error_text e))) (call (ScriptWarning name))
    end
  else execute (script_path name).

Definition Init : Db unit :=
  let! files := callE ReadScriptDir in
  for_each files run_script;;
  call GoUpdateQueue.

(** ** The end of the agent *)

Inductive close_action := CloseMessenger | CloseDatabase | CloseDone.
Definition closing (hasMessenger hasDatabase : bool) : list close_action :=
  ((if hasMessenger then [CloseMessenger] else []) ++ (if hasDatabase then [CloseDatabase] else []) ++ [CloseDone])%list.
(** [reached]: how many actions of the goroutine are over when the time is; the caller learns
    whether all of them are, and returns in either case. *)
Definition Shutdown (hasMessenger hasDatabase : bool) (reached : nat) : list close_action * bool :=
  let actions := closing hasMessenger hasDatabase in
  (firstn reached actions, (length actions <=? reached)%nat).

(** What the cloud is told of the device. *)
Definition updateRemoteDevice_payload (swarm_key device_key : Z) (version : string) (info : SystemInfo) : gomap :=
  [("swarm_key", VInt swarm_key); ("device_key", VInt device_key); ("architecture", VStr (si_Arch info +:+ si_Variant info));
   ("os", VStr (si_DetailedOS info)); ("arch", VStr (si_Arch info)); ("variant", VStr (si_Variant info)); ("agent_version", VStr version)].

(** * What the start of the agent wires together

    The disk guard and the app store, composed: whatever the guard reclaims, the images and
    the compose volumes of the apps on record are spared.  And the order of the start: the
    disk is looked at before any app state is ensured, and the gate of the docker daemon
    opens once, after the local states were reconciled. *)

(** ** The wanted images *)

Definition wanted_true (tag : string) (m : list (string * bool)) : Prop := map_get tag m = Some true.

Lemma wanted_set tag k m : wanted_true tag m → wanted_true tag (map_set k true m).
Proof. unfold wanted_true. intros Hm. rewrite map_get_set. by destruct (String.eqb tag k). Qed.

Lemma add_versions_keeps repo vs : ∀ m tag, wanted_true tag m → wanted_true tag (add_versions repo vs m).
Proof.
  induction vs as [|v vs IH]; intros m tag Hm; [done|]. unfold add_versions. cbn. apply IH. destruct (String.eqb v ""); [done|by apply wanted_set].
Qed.

Lemma add_versions_adds repo vs : ∀ m v, v ∈ vs → v ≠ "" → wanted_true (repo +:+ ":" +:+ v) (add_versions repo vs m).
Proof.
  induction vs as [|v' vs IH]; intros m v Hin Hv; [by apply elem_of_nil in Hin|]. unfold add_versions. cbn.
  apply elem_of_cons in Hin as [<-|Hin]; [|by apply IH]. apply add_versions_keeps.
  rewrite (proj2 (String.eqb_neq _ _) Hv). unfold wanted_true. by rewrite map_get_set, String.eqb_refl.
Qed.

Lemma wanted_of_keeps p m tag : wanted_true tag m → wanted_true tag (wanted_of m p).
Proof.
  intros Hm. unfold wanted_of. cbn [foldl]. destruct (String.eqb (Prod _) ""), (String.eqb (Dev _) ""); try done; by repeat apply add_versions_keeps.
Qed.

(** The versions of an app that the device may still start. *)
Definition versions_of (p : TransitionPayload) : list string := [tp_PresentVersion p; tp_NewestVersion p; tp_Version p].

Lemma wanted_of_adds p m repo v : repo ∈ [Prod (tp_RegistryImageName p); Dev (tp_RegistryImageName p)] → repo ≠ "" →
  v ∈ versions_of p → v ≠ "" → wanted_true (repo +:+ ":" +:+ v) (wanted_of m p).
Proof.
  intros Hr Hne Hv Hv'. unfold wanted_of. cbn [foldl]. apply elem_of_cons in Hr as [->|Hr].
  - rewrite (proj2 (String.eqb_neq _ _) Hne). destruct (String.eqb (Dev _) ""); [by apply add_versions_adds|].
    by apply add_versions_keeps, add_versions_adds.
  - apply list_elem_of_singleton in Hr as ->. rewrite (proj2 (String.eqb_neq _ _) Hne). by apply add_versions_adds.
Qed.

Lemma wanted_images_keep ps : ∀ m tag, wanted_true tag m → wanted_true tag (foldl wanted_of m ps).
Proof. induction ps as [|p ps IH]; intros m tag Hm; [done|]. cbn. by apply IH, wanted_of_keeps. Qed.

Lemma wanted_images_cover ps p repo v : p ∈ ps → repo ∈ [Prod (tp_RegistryImageName p); Dev (tp_RegistryImageName p)] → repo ≠ "" →
  v ∈ versions_of p → v ≠ "" → wanted_true (repo +:+ ":" +:+ v) (wanted_app_images ps).
Proof.
  intros Hp Hr Hne Hv Hv'. unfold wanted_app_images. generalize (@nil (string * bool)). induction ps as [|q ps IH]; intros m; [by apply elem_of_nil in Hp|].
  cbn [foldl]. apply elem_of_cons in Hp as [<-|Hp]; [by apply wanted_images_keep, wanted_of_adds|by apply IH].
Qed.

(** ** Answers in a log *)

(** Every event of a log is an answer of the environment to the log before it. *)
Definition answered (en : env GuardCall GuardState) (lg : list (event GuardCall GuardState)) (e : event GuardCall GuardState) : Prop :=
  match e with Ev c r _ => r = answer en _ c lg end.
Fixpoint genuine (en : env GuardCall GuardState) (l : list (event GuardCall GuardState)) : Prop :=
  match l with [] => True | e :: l => answered en l e ∧ genuine en l end.

Lemma genuine_answer en l e : genuine en l → e ∈ l → ∃ l1 lg, l = (l1 ++ e :: lg)%list ∧ answered en lg e.
Proof.
  induction l as [|e' l IH]; intros Hg Hin; [by apply elem_of_nil in Hin|]. destruct Hg as [He Hg].
  apply elem_of_cons in Hin as [->|Hin]; [by exists [], l|]. destruct (IH Hg Hin) as (l1 & lg & -> & Ha). by exists (e' :: l1), lg.
Qed.

Section genuine.
Variables (is_local_ip : string → bool) (cfg : GuardConfig) (en : env GuardCall GuardState).

Definition G_inv (st : state GuardCall GuardState) : Prop := genuine en (log st).

Lemma genuine_call {T} (c : GuardCall T) : keeps en G_inv (call c).
Proof. intros st Hg. split; [reflexivity|exact Hg]. Qed.

Lemma genuine_modify f : keeps en G_inv (modify f).
Proof. by intros st Hg. Qed.

Lemma genuine_dirs roots project : keeps en G_inv (hasAppDirIn roots project).
Proof. induction roots as [|root roots IH]; simpl; repeat (keeps_step || apply genuine_call); done. Qed.

Lemma genuine_runOnce : keeps en G_inv (runOnce is_local_ip cfg).
Proof.
  unfold runOnce, updateEmergency, setEmergency, stopForeignContainers, freeBytes, safeCleanup, triggerRegistryGC, pruneOrphanedVolumes,
    installedProjects, prune_volume, hasAppDirForProject, reclaimSupersededAppImages, reclaim_image, removeVolume, removeImageTag,
    truncateOversizedLogs, truncate_log, run_command.
  repeat (keeps_step || apply genuine_call || apply genuine_modify || apply genuine_dirs).
Qed.

Lemma genuine_passes n : keeps en G_inv (run_passes is_local_ip cfg n).
Proof.
  induction n as [|n IH]; simpl; [apply keeps_ret|]. apply keeps_bind; [|done]. unfold run_iteration.
  apply keeps_bind; [apply genuine_runOnce|]. intros ?. repeat (keeps_step || apply genuine_call || apply genuine_modify || apply genuine_runOnce).
Qed.
End genuine.

(** ** The guard over the store *)

Section composed.
Context `{Host}.
Variables (is_local_ip : string → bool) (en : env GuardCall GuardState) (dataRoot : string).
(** The requested states of the device at each moment of the guard's run. *)
Variable rows : list (event GuardCall GuardState) → list requested_row.

(** The callbacks answer from the store, or fail. *)
Record reads_store : Prop := {
  rs_flag : ∀ l s, emergency (interfere en l s) = emergency s;
  rs_images : ∀ lg, (∃ e, answer en _ WantedAppImages lg = inr e)
    ∨ answer en _ WantedAppImages lg = inl (wanted_app_images (map row_payload (rows lg)));
  rs_names : ∀ lg, (∃ e, answer en _ InstalledAppNames lg = inr e)
    ∨ answer en _ InstalledAppNames lg = inl (installed_app_names (map row_payload (rows lg)));
}.

(** The tag is that of a version of an app on record. *)
Definition tag_on_record (r : requested_row) (tag : string) : Prop :=
  ∃ repo v, repo ∈ [Prod (tp_RegistryImageName (row_payload r)); Dev (tp_RegistryImageName (row_payload r))]
    ∧ v ∈ [rr_present_version r; rr_newest_version r; rr_version r] ∧ repo ≠ "" ∧ v ≠ "" ∧ tag = repo +:+ ":" +:+ v.

(** A call of the run [l] was answered when the rows on record satisfied [P]. *)
Definition asked {A} (c : GuardCall (A + error)) (P : list requested_row → Prop) (l : list (event GuardCall GuardState)) : Prop :=
  ∃ l1 a w lg, l = (l1 ++ Ev c (inl a) w :: lg)%list ∧ P (rows lg).

(** What a deletion after the run [l] spares: the guard asked for the wanted images, and the
    tag was that of no app on record at that moment; docker listed the volume as dangling, and
    of the volume it listed either there are no labels at all, or the guard asked for the
    installed apps, and the project of its label was that of no app on record then. *)
Definition spares (l : list (event GuardCall GuardState)) (e : event GuardCall GuardState) : Prop :=
  match e with
  | Ev c _ _ =>
      match c with
      | RemoveImage tag => asked WantedAppImages (λ rs, ∀ r, r ∈ rs → ¬ tag_on_record r tag) l
      | RemoveVolume name => ∃ vs w v, Ev ListDanglingVolumes (inl vs) w ∈ l ∧ v ∈ vs ∧ vol_Name v = name
          ∧ (vol_Labels v = []
             ∨ ∃ project, map_get composeProjectLabel (vol_Labels v) = Some project
                 ∧ asked InstalledAppNames (λ rs, ∀ r, r ∈ rs → project ≠ normalizeProjectName (rr_app_name r)) l)
      | _ => True
      end
  end.

Lemma names_asked l names w project : genuine en l → reads_store → Ev InstalledAppNames (inl names) w ∈ l →
  project ∉ map normalizeProjectName names →
  asked InstalledAppNames (λ rs, ∀ r, r ∈ rs → project ≠ normalizeProjectName (rr_app_name r)) l.
Proof.
  intros Hg [_ _ Hnm] Hn Hnot. destruct (genuine_answer en l _ Hg Hn) as (l1 & lg & -> & Ha). cbn in Ha. exists l1, names, w, lg. split; [done|].
  intros r0 Hr0 ->. destruct (Hnm lg) as [[e' He]|He]; rewrite He in Ha; [done|]. injection Ha as ->. apply Hnot. unfold installed_app_names.
  rewrite !map_map. apply list_elem_of_In, in_map_iff. exists r0. split; [done|by apply list_elem_of_In].
Qed.

Lemma images_asked l wanted w tag : genuine en l → reads_store → Ev WantedAppImages (inl wanted) w ∈ l →
  map_get tag wanted ≠ Some true → asked WantedAppImages (λ rs, ∀ r, r ∈ rs → ¬ tag_on_record r tag) l.
Proof.
  intros Hg [_ Him _] Hw Hnot. destruct (genuine_answer en l _ Hg Hw) as (l1 & lg & -> & Ha). cbn in Ha. exists l1, wanted, w, lg. split; [done|].
  intros r0 Hr0 (repo & v & Hr & Hv & Hne & Hv' & ->). destruct (Him lg) as [[e' He]|He]; rewrite He in Ha; [done|]. injection Ha as ->.
  apply Hnot. apply (wanted_images_cover _ (row_payload r0) repo v); [|exact Hr|exact Hne|exact Hv|exact Hv'].
  apply list_elem_of_In, in_map_iff. exists r0. split; [done|by apply list_elem_of_In].
Qed.

Lemma audited_weaken (P Q : list (event GuardCall GuardState) → event GuardCall GuardState → Prop) l :
  (∀ l1 e l2, l = (l1 ++ e :: l2)%list → P l2 e → Q l2 e) → audited P l → audited Q l.
Proof.
  induction l as [|e l IH]; [done|]. intros HPQ [Ha He]. split; [|exact (HPQ [] e l eq_refl He)].
  apply IH; [|done]. intros l1 e' l2 ->. apply (HPQ (e :: l1)). done.
Qed.

Lemma genuine_suffix l1 l2 : genuine en (l1 ++ l2) → genuine en l2.
Proof. induction l1 as [|e l1 IH]; [done|]. intros [_ Hg]. by apply IH. Qed.

(** C18: the disk guard and the app store composed: however full the disk and whatever fails,
    every deletion in any number of passes spares the apps on record. Before a tag is removed
    the guard has asked the store, and no app then on record had it for its present, newest or
    current version; a volume it removes was listed by docker, and is one without any label,
    or the guard has asked the store and its project was that of no app then on record. *)
Theorem guard_spares_recorded_apps n s0 : reads_store →
  audited spares (log (run_passes is_local_ip (guard_config dataRoot) n en (mk_state s0 [])).2).
Proof.
  intros Hrs. set (cfg := guard_config dataRoot) in *.
  destruct (keeps_passes_safe is_local_ip cfg en (rs_flag Hrs) n (mk_state s0 [])) as [Hall _]; [done|].
  pose proof (genuine_passes is_local_ip cfg en n (mk_state s0 []) ltac:(done)) as Hg. unfold G_inv in Hg.
  eapply audited_weaken; [|exact Hall]. intros l1 e l2 El Hj. rewrite El in Hg. apply genuine_suffix in Hg as [_ Hg].
  destruct e as [T c r w]. destruct c; try exact I; cbn [justified spares] in *.
  - destruct Hj as (vs & w1 & v & Hl & Hv & Hname & Hrest). exists vs, w1, v. do 3 (split; [done|]).
    destruct Hrest as [[Hn _]|(project & Hp & _ & (names & w2 & Hn & Hnot) & _)]; [by left|right].
    exists project. split; [done|]. by eapply names_asked.
  - destruct Hj as (host & wanted & w1 & cs & w2 & imgs & w3 & img & _ & _ & Hw & Hnot & _). by eapply images_asked.
Qed.
End composed.

(** ** The order of the start *)

Section order.
Context `{Host}.
Variables (UseNetworkManager : bool) (boardModel : string) (en : start_env).

Definition checked (l : list (event StartCall unit)) : Prop := ∃ cfg r w, Ev (GuardCheckNow cfg) r w ∈ l.

(** Local states are ensured, here or by the goroutine of a late daemon, after the disk was
    looked at; the gate opens right after they were. *)
Definition in_turn (l : list (event StartCall unit)) (e : event StartCall unit) : Prop :=
  match e with
  | Ev c _ _ =>
      match c with
      | InitLocalAppStates _ | GoLateDaemon => checked l
      | CloseDaemonReady => ∃ fatal r w l', l = Ev (InitLocalAppStates fatal) r w :: l'
      | _ => True
      end
  end.

Definition plain {T} (c : StartCall T) : bool :=
  match c with InitLocalAppStates _ | GoLateDaemon | CloseDaemonReady => false | _ => true end.

Lemma keeps_plain {T} (c : StartCall T) K : stable en K → plain c = true → keeps en (known in_turn K) (call c).
Proof. intros HK Hc. apply keeps_known_call; [done|]. intros st r _. by destruct c. Qed.

Ltac plainly := repeat (keeps_step || (apply keeps_plain; [by repeat (apply stable_and || apply stable_seen || apply stable_pure)|reflexivity])).

Lemma network_in_turn linux : keeps en (known in_turn (λ _, True)) (start_network linux UseNetworkManager).
Proof. unfold start_network, fatal, logged, callE. destruct (linux && UseNetworkManager); plainly. Qed.

Lemma guard_in_turn : triple en (known in_turn (λ _, True)) (start_guard true)
  (on_ok (λ _, known in_turn (λ st, checked (log st)))).
Proof.
  intros st [Ha _]. unfold start_guard, bind, call. cbn [fst snd on_ok]. split; cbn [log audited].
  - split_and!; done.
  - eexists _, _, _. right. left.
Qed.

Lemma session_in_turn linux : keeps en (known in_turn (λ _, True)) (start_session linux boardModel).
Proof. unfold start_session, fatal, logged, callE, when. destruct (linux && is_appliance boardModel); plainly. Qed.

Lemma local_in_turn st : known in_turn (λ st, checked (log st)) st → known in_turn (λ _, True) (start_local_states en st).2.
Proof.
  intros [Ha Hc]. unfold start_local_states, fatal, callE, bind, call, lift, ret, throw. cbn.
  destruct (answer en _ (WaitForDaemonSeconds 5) (log st)) as [[]|e]; cbn.
  - destruct (answer en _ (InitLocalAppStates true) _) as [[]|e]; cbn; (split; [|done]); cbn; split_and!; try done.
    + destruct Hc as (cfg & r & w & Hin). exists cfg, r, w. by right.
    + by eexists _, _, _, _.
    + destruct Hc as (cfg & r & w & Hin). exists cfg, r, w. by right.
  - split; [|done]. cbn. split_and!; try done. destruct Hc as (cfg & r & w & Hin). exists cfg, r, w. by do 2 right.
Qed.

Lemma known_weaken K st : known in_turn K st → known in_turn (λ _, True) st.
Proof. by intros [? _]. Qed.

(** on linux the disk is evaluated before any app state is ensured, by the start itself or
    by the goroutine that waits for a late daemon, and the gate that every connection waits at
    opens only directly after the local states were reconciled, whatever fails on the way. *)
Theorem start_in_turn : audited in_turn (log (NewAgent true UseNetworkManager boardModel en (mk_state tt [])).2).
Proof.
  assert (keeps en (known in_turn (λ _, True)) (NewAgent true UseNetworkManager boardModel)) as Hk.
  { unfold NewAgent, fatal, callE. do 4 (apply keeps_bind; [plainly|intros _]). apply keeps_bind; [apply network_in_turn|intros _].
    apply triple_bind with (R := λ _, known in_turn (λ st, checked (log st))).
    - intros st Hst. pose proof (guard_in_turn st Hst) as Hg. unfold seq_post. destruct (start_guard true en st) as [[] st'] eqn:E; cbn in *; try done.
      all: unfold start_guard, bind, call in E; cbn in E; congruence.
    - intros _. apply triple_bind with (R := λ _, known in_turn (λ _, True)).
      + intros st Hst. pose proof (local_in_turn st Hst) as Hl. unfold seq_post. by destruct (start_local_states en st) as [[] st'].
      + intros _. apply session_in_turn. }
  by destruct (Hk (mk_state tt []) ltac:(done)).
Qed.

(** ** The gate opens once *)

Definition opens (e : event StartCall unit) : nat :=
  match e with Ev c _ _ => match c with CloseDaemonReady => 1 | _ => 0 end end.
Definition passes_on (e : event StartCall unit) : nat :=
  match e with Ev c _ _ => match c with GoLateDaemon => 1 | _ => 0 end end.
Fixpoint total (f : event StartCall unit → nat) (l : list (event StartCall unit)) : nat :=
  match l with [] => 0 | e :: l => f e + total f l end.

Definition opened (st : start_state) : nat := total opens (log st).
Definition passed_on (st : start_state) : nat := total passes_on (log st).

Definition gate (n : nat) (st : start_state) : Prop := (opened st + passed_on st = n)%nat.

Lemma keeps_gate {T} (c : StartCall T) n : plain c = true → keeps en (gate n) (call c).
Proof. intros Hc. apply keeps_call. intros st r Hg. unfold gate, opened, passed_on in *. cbn. destruct c; done. Qed.

Ltac gated := repeat (keeps_step || (apply keeps_gate; reflexivity)).

Lemma local_gate st n : gate n st → match start_local_states en st with (Ok _, st') => gate (S n) st' | _ => True end.
Proof.
  intros Hg. unfold start_local_states, fatal, callE, bind, call, lift, ret, throw. cbn.
  destruct (answer en _ (WaitForDaemonSeconds 5) (log st)) as [[]|e]; cbn.
  - destruct (answer en _ (InitLocalAppStates true) _) as [[]|e]; cbn; [|done]. unfold gate, opened, passed_on in *. cbn. lia.
  - unfold gate, opened, passed_on in *. cbn. lia.
Qed.

Lemma gate_then {A B} (I : start_state → Prop) (m : Start A) (f : A → Start B) Q :
  keeps en I m → (∀ a, triple en I (f a) (on_ok Q)) → triple en I (bind m f) (on_ok Q).
Proof.
  intros Hm Hf. apply triple_bind with (R := λ _, I); [|done]. intros st Hst. specialize (Hm st Hst). unfold seq_post.
  by destruct (m en st) as [[] st'].
Qed.

(** an agent that is returned has opened the gate of the daemon exactly once, or has
    started exactly one goroutine that will; that goroutine opens it exactly once, as soon as
    the daemon is there, so the gate is never closed twice and never forgotten. *)
Theorem gate_opens_once linux : 
  (∀ st', NewAgent linux UseNetworkManager boardModel en (mk_state tt []) = (Ok tt, st') → (opened st' + passed_on st' = 1)%nat)
  ∧ ∀ turns st st', late_daemon turns en st = (Ok tt, st') → opened st' = S (opened st) ∧ passed_on st' = passed_on st.
Proof.
  split.
  - intros st' E. assert (triple en (gate 0) (NewAgent linux UseNetworkManager boardModel) (on_ok (λ _, gate 1))) as Ht.
    { unfold NewAgent, fatal, callE. do 4 (apply gate_then; [gated|intros _]).
      apply gate_then; [unfold start_network, fatal, logged, callE; destruct (linux && _); gated|intros _].
      apply gate_then; [unfold start_guard; destruct linux; gated|intros _].
      apply triple_bind with (R := λ _, gate 1).
      - intros st Hst. pose proof (local_gate st 0 Hst) as Hl. unfold seq_post. by destruct (start_local_states en st) as [[] st''].
      - intros _ st Hst. assert (keeps en (gate 1) (start_session linux boardModel)) as Hk.
        { unfold start_session, fatal, logged, callE, when. destruct (linux && is_appliance boardModel); gated. }
        specialize (Hk st Hst). by destruct (start_session linux boardModel en st) as [[] st'']. }
    specialize (Ht (mk_state tt []) ltac:(done)). rewrite E in Ht. exact Ht.
  - induction turns as [|turns IH]; intros st st'; [done|]. cbn [late_daemon]. unfold bind, call.
    destruct (answer en _ (WaitForDaemonSeconds 30) (log st)) as [[]|e].
    + intros E. apply (f_equal snd) in E. cbn in E. subst st'. split; reflexivity.
    + intros E. apply IH in E as [-> ->]. unfold opened, passed_on. by cbn.
Qed.
End order.

(** ** A device with a full disk and an app on record *)

Definition appliance_config : Config :=
  {| cfg_SerialNumber := "serial"; cfg_DeviceKey := 42; cfg_SwarmKey := 9; cfg_Name := "device";
     cfg_SwarmName := "swarm"; cfg_SwarmOwnerName := "owner"; cfg_Secret := "secret";
     cfg_DockerRegistryURL := "localhost:15001/"; cfg_DockerMainRepository := "apps/";
     cfg_DeviceEndpointURL := "wss://cbw.example.com"; cfg_ReswarmBaseURL := "https://example.com";
     cfg_ApplianceDomain := "appliance.local"; cfg_Environment := "production"; cfg_AppsDirectory := "/opt/apps";
     cfg_AppsSharedDir := "/opt/shared"; cfg_AppsBuildDir := "/opt/build";
     cfg_AppsComposeDir := "/opt/compose"; cfg_AgentDir := "/opt/agent"; cfg_CompressedBuildExtension := "tgz" |}.
#[local] Instance appliance : Host :=
  {| config := appliance_config; imageArchName := "amd64"; buildArch := "amd64";
     hmac_sha256_base64 := λ key msg, key +:+ msg; url_hostname := λ _, None; url_port := λ _, "";
     url_with_host := λ u _, u; ip_is_loopback := λ _, false; os_is_exist := λ _, false;
     nat_new_port := λ proto port, inl (port +:+ "/" +:+ proto); nat_port_int := λ _, 0%N |}.

(** Version 2 of an app is installed and version 3 on its way; version 1 is left over. *)
Definition appliance_row : requested_row :=
  payload_row (with_Version "2" (with_PresentVersion "2" (with_NewestVersion "3"
    (BuildTransitionPayload imageArchName config 7 "demo" 3 PROD RUNNING RUNNING 11 12)))).
Definition app_tag (version : string) : string := "localhost:15001/apps/prod_amd64_7_demo:" +:+ version.

Definition appliance_answer (T : Type) (c : GuardCall T) (l : list (event GuardCall GuardState)) : T :=
  match c in GuardCall T return T with
  | WantedAppImages => inl (wanted_app_images (map row_payload [appliance_row]))
  | InstalledAppNames => inl (installed_app_names (map row_payload [appliance_row]))
  | ListImages => inl [{| img_ID := "sha256:3"; img_RepoTags := [app_tag "1"; app_tag "2"; app_tag "3"] |}]
  | c => DiskGuard.ex_answer DiskGuard.ex_readings _ c l
  end.
Definition appliance_env : env GuardCall GuardState := {| answer := appliance_answer; interfere := λ _ s, s |}.

Definition removed_images (l : list (event GuardCall GuardState)) : list string :=
  omap (λ e, match e with Ev c _ _ => match c with RemoveImage t => Some t | _ => None end end) l.

Lemma guard_spares_recorded_apps_witness :
  let l := log (run_passes (λ _, false) (guard_config "") 1 appliance_env (mk_state DiskGuard.ex_state [])).2 in
  removed_images l = [app_tag "1"] ∧ head (removed_volumes l) = Some "old" ∧ audited (spares (λ _, [appliance_row])) l.
Proof.
  intros l. assert (reads_store appliance_env (λ _, [appliance_row])) as Hr by (split; intros; first [reflexivity|right; reflexivity]).
  split; [vm_compute; reflexivity|]. split; [vm_compute; reflexivity|].
  exact (guard_spares_recorded_apps (λ _, false) appliance_env "" (λ _, [appliance_row]) 1 DiskGuard.ex_state Hr).
Defined.

(** ** The database *)

Abbreviation db_state := (state DbCall unit).

Section scripts.
#[local] Set Default Proof Using "Type*".
Variable en : env DbCall unit.

(** The request was executed and did not fail. *)
Definition executed (l : list (event DbCall unit)) (request : string) : Prop := ∃ w, Ev (DbExec request) (inl tt) w ∈ l.

Lemma callE_logged {A} (c : DbCall (A + error)) st a st' : callE c en st = (Ok a, st') →
  ∃ w, log st' = Ev c (inl a) w :: log st.
Proof.
  unfold callE, bind, call. destruct (answer en _ c (log st)) as [a'|e]; [|done]. intros [= -> <-]. by eexists.
Qed.

Definition extends {A} (m : Db A) : Prop := ∀ st, log st `suffix_of` log (m en st).2.

Lemma extends_ret {A} (a : A) : extends (ret a).
Proof. by intros st. Qed.
Lemma extends_call {T} (c : DbCall T) : extends (call c).
Proof. intros st. by eexists [_]. Qed.
Lemma extends_bind {A B} (m : Db A) (f : A → Db B) : extends m → (∀ a, extends (f a)) → extends (bind m f).
Proof.
  intros Hm Hf st. specialize (Hm st). unfold bind. destruct (m en st) as [[a|e| |] st1]; try done. etransitivity; [exact Hm|apply Hf].
Qed.
Lemma extends_lift {A} (r : A + error) : extends (lift r).
Proof. intros st. by destruct r. Qed.
Lemma extends_try {A} (m : Db A) : extends m → extends (try_ m).
Proof. intros Hm st. specialize (Hm st). unfold try_. by destruct (m en st) as [[a|e| |] st1]. Qed.
Lemma extends_execute f : extends (execute f).
Proof.
  apply extends_bind; [apply extends_bind; [apply extends_call|intros; apply extends_lift]|]. intros text. induction (split_requests text) as [|r rs IH]; [apply extends_ret|].
  apply extends_bind; [|done]. apply extends_bind; [apply extends_call|intros; apply extends_lift].
Qed.
Lemma extends_script name : extends (run_script name).
Proof.
  unfold run_script. destruct (single_run name); [|apply extends_execute]. apply extends_bind; [apply extends_try, extends_execute|].
  intros [?|e]; [apply extends_ret|]. destruct (negb _); [apply extends_call|apply extends_ret].
Qed.
Lemma extends_scripts names : extends (for_each names run_script).
Proof. induction names as [|n ns IH]; [apply extends_ret|]. apply extends_bind; [apply extends_script|done]. Qed.

Lemma extends_then {A B} (m : Db A) (f : A → Db B) st b st' : (∀ a, extends (f a)) → bind m f en st = (Ok b, st') →
  ∃ a st1, m en st = (Ok a, st1) ∧ f a en st1 = (Ok b, st') ∧ log st1 ⊆ log st'.
Proof.
  intros Hf Hm. apply bind_returned in Hm as (a & st1 & H1 & H2). exists a, st1. split_and!; [done..|].
  specialize (Hf a st1). rewrite H2 in Hf. cbn in Hf. destruct Hf as (l & ->). intros x Hx. apply elem_of_app. by right.
Qed.

Lemma extends_requests rs : extends (exec_requests rs).
Proof. induction rs as [|r rs IH]; [apply extends_ret|]. apply extends_bind; [|done]. apply extends_bind; [apply extends_call|intros; apply extends_lift]. Qed.

Lemma requests_executed rs : ∀ st st', exec_requests rs en st = (Ok tt, st') → ∀ r, r ∈ rs → executed (log st') r.
Proof.
  induction rs as [|r0 rs IH]; intros st st' Hm r Hr; [by apply elem_of_nil in Hr|].
  apply extends_then in Hm as ([] & st1 & H1 & H2 & Hsub); [|intros; apply extends_requests]. apply elem_of_cons in Hr as [->|Hr]; [|by eapply IH].
  apply callE_logged in H1 as (w & Hl). exists w. apply Hsub. rewrite Hl. by left.
Qed.

(** Every script but those of a single run was read, and each of its requests executed. *)
Definition script_done (l : list (event DbCall unit)) (name : string) : Prop :=
  ∃ text w, Ev (ReadScript (script_path name)) (inl text) w ∈ l ∧ ∀ r, r ∈ split_requests text → executed l r.

Lemma script_done_mono l l' name : l ⊆ l' → script_done l name → script_done l' name.
Proof. intros Hs (text & w & Hr & He). exists text, w. split; [by apply Hs|]. intros r Hin. destruct (He r Hin) as (w' & Hw). exists w'. by apply Hs. Qed.

Lemma execute_done name st st' : execute (script_path name) en st = (Ok tt, st') → script_done (log st') name.
Proof.
  intros Hm. apply extends_then in Hm as (text & st1 & H1 & H2 & Hsub); [|intros; apply extends_requests].
  apply callE_logged in H1 as (w & Hl). exists text, w. split; [apply Hsub; rewrite Hl; by left|]. by apply (requests_executed _ _ _ H2).
Qed.

Lemma scripts_done names : ∀ st st', for_each names run_script en st = (Ok tt, st') →
  ∀ n, n ∈ names → single_run n = false → script_done (log st') n.
Proof.
  induction names as [|n0 names IH]; intros st st' Hm n Hn Hs; [by apply elem_of_nil in Hn|].
  apply extends_then in Hm as ([] & st1 & H1 & H2 & Hsub); [|intros; apply (extends_scripts names)]. apply elem_of_cons in Hn as [->|Hn]; [|by eapply IH].
  unfold run_script in H1. rewrite Hs in H1. by eapply script_done_mono, execute_done.
Qed.

(** A database that is initialised has its schema: every request of every script that must
    succeed was executed, and none failed. *)
Theorem initialised_has_schema st st' : Init en st = (Ok tt, st') →
  ∃ names w, Ev ReadScriptDir (inl names) w ∈ log st' ∧ ∀ n, n ∈ names → single_run n = false → script_done (log st') n.
Proof.
  intros Hm. apply extends_then in Hm as (names & st1 & H1 & H2 & Hsub1); [|intros; apply extends_bind; [apply extends_scripts|intros; apply extends_call]].
  apply extends_then in H2 as ([] & st2 & H2 & H3 & Hsub2); [|intros; apply extends_call].
  apply callE_logged in H1 as (w & Hl). exists names, w. split; [apply Hsub1; rewrite Hl; by left|].
  intros n Hn Hs. eapply script_done_mono; [exact Hsub2|]. by eapply scripts_done.
Qed.

(** A script of a single run never keeps the agent from starting. *)
Lemma single_run_passes name st : single_run name = true → ∀ e, (run_script name en st).1 ≠ Err e.
Proof.
  intros Hs e. unfold run_script. rewrite Hs. unfold bind, try_. destruct (execute _ en st) as [[?|e'| |] st1]; try done.
  cbn. by destruct (negb _).
Qed.
End scripts.

(** Requests joined at the ends of lines come apart again. *)
Example requests_split : split_requests ("CREATE TABLE a;" +:+ String "010" ("INSERT INTO b VALUES (';');" +:+ String "010" "")) = ["CREATE TABLE a"; "INSERT INTO b VALUES (';')"; ""].
Proof. reflexivity. Qed.

(** The name of a relative database file is spoilt, not anchored. *)
Example relative_database_file : (database_file false "reagent.db", database_file true "reagent.db", database_file false "/opt/reagent.db", database_file false "")
  = (Some "reagent.db./", Some "reagent.db", Some "/opt/reagent.db", None).
Proof. reflexivity. Qed.

(** The caller is free when the time is up; a session that does not close leaves the database open. *)
Lemma shutdown_complete m d reached : (Shutdown m d reached).2 = true ↔ (Shutdown m d reached).1 = closing m d.
Proof.
  unfold Shutdown. cbn. rewrite Nat.leb_le. split; [apply take_ge|]. intros H. apply (f_equal length) in H. rewrite length_take in H. lia.
Qed.
Example blocked_session_keeps_database : Shutdown true true 0 = ([], false).
Proof. reflexivity. Qed.
