(* ===== verification/Files.v ===== *)
(** * Paths, archives and small files (src/src/filesystem/, diskguard/diskguard.go, logging/agentlog.go)

    The cleaning and joining of slash-separated paths, the extraction of an archive into a tree
    of directories and files whose operations may fail, the search of a file in an archive, the
    overwriting of a file, the script runner, the configuration that keeps the logs of docker
    and of the journal small, and the list of the agent's log files. *)
From S2P Require Import Prelude Errdefs GoValue Effects.
From stdpp Require Import gmap.
Open Scope go_scope.
#[local] Open Scope list_scope.

(** ** Paths *)

(** A cleaned path: whether it is rooted, and its elements. *)
Abbreviation path := (list string).

(** One element after those kept so far, the last first. *)
Definition clean_element (rooted : bool) (acc : list string) (e : string) : list string :=
  if String.eqb e "" || String.eqb e "." then acc
  else if String.eqb e ".." then
    match acc with
    | x :: acc' => if String.eqb x ".." then ".." :: acc else acc'
    | [] => if rooted then [] else [".."]
    end
  else e :: acc.
Fixpoint clean_elements (rooted : bool) (acc es : list string) : list string :=
  match es with
  | [] => rev acc
  | e :: es => clean_elements rooted (clean_element rooted acc e) es
  end.

Definition is_rooted (s : string) : bool := match s with String a _ => Ascii.eqb a "/" | EmptyString => false end.
Definition show_path (rooted : bool) (p : path) : string :=
  let s := (if rooted then "/" else "") +:+ join_with "/" p in if String.eqb s "" then "." else s.

(** [filepath.Clean] and [filepath.Join] on Unix. *)
Definition Clean (s : string) : string := show_path (is_rooted s) (clean_elements (is_rooted s) [] (split_on "/" s)).
Fixpoint Join (elems : list string) : string :=
  match elems with
  | [] => ""
  | e :: elems' => if String.eqb e "" then Join elems' else Clean (join_with "/" elems)
  end.

(** [path.Base]. *)
Definition last_element (es : list string) : string := default "" (last es).
Fixpoint strip_trailing (es : list string) : list string :=
  match es with
  | [] => []
  | e :: es => match strip_trailing es with
               | [] => if String.eqb e "" then [] else [e]
               | es' => e :: es'
               end
  end.
Definition Base (s : string) : string :=
  if String.eqb s "" then "."
  else match strip_trailing (split_on "/" s) with
       | [] => "/"
       | es => last_element es
       end.

(** [filepath.Dir]: what comes before the last slash, cleaned. *)
Definition Dir (s : string) : string :=
  match removelast (split_on "/" s) with
  | [] => "."
  | es => Clean (join_with "/" es +:+ "/")
  end.

(** ** The tree *)

(** The elements of a path as the system walks it, for rooted paths. *)
Definition walk (s : string) : path := clean_elements true [] (split_on "/" s).

Record tree := { tr_dirs : gset path; tr_files : gmap path string }.
Definition is_dir (t : tree) (p : path) : bool := match p with [] => true | _ => bool_decide (p ∈ tr_dirs t) end.
Definition is_file (t : tree) (p : path) : bool := match tr_files t !! p with Some _ => true | None => false end.
Definition with_file (p : path) (content : string) (t : tree) : tree := {| tr_dirs := tr_dirs t; tr_files := <[p := content]> (tr_files t) |}.
Definition with_dirs (ps : list path) (t : tree) : tree := {| tr_dirs := list_to_set ps ∪ tr_dirs t; tr_files := tr_files t |}.
Definition without_file (p : path) (t : tree) : tree := {| tr_dirs := tr_dirs t; tr_files := delete p (tr_files t) |}.

(** The paths of a directory and of those above it. *)
Fixpoint above (before : path) (p : path) : list path :=
  match p with
  | [] => []
  | e :: p => (before ++ [e]) :: above (before ++ [e]) p
  end.
Definition parent (p : path) : path := removelast p.

Inductive tar_type := TypeDir | TypeReg | OtherType (flag : ascii).
#[global] Instance tar_type_dec : EqDecision tar_type.
Proof. solve_decision. Defined.

(** An entry; the reading of its body may break off. *)
Record tar_entry := { te_Name : string; te_Typeflag : tar_type; te_Body : string; te_Broken : option (nat * error) }.
(** What the reader delivers, and how it ends. *)
Record archive := { ar_entries : list tar_entry; ar_end : option error }.

Inductive FileCall : Type → Type :=
  | OpenTarGz (path : string) : FileCall (archive + error)
  | OsFailure (op path : string) : FileCall (option error)     (* a failure that is not the tree's *)
  | WriteBreaks (path : string) : FileCall (option (nat * error))
  | NewUUID : FileCall string
  | TempDir : FileCall string
  | RunScript (interpreter path : string) : FileCall (string + error)
  | RunCommand (name : string) (args : list string) : FileCall (option error).

Abbreviation Fs := (M FileCall tree).
Abbreviation fs_env := (env FileCall tree).
Abbreviation fs_state := (state FileCall tree).

Definition not_exist : error := Plain "no such file or directory".
Definition not_a_directory : error := Plain "not a directory".
Definition is_a_directory : error := Plain "is a directory".

Definition os_may_fail (op path : string) : Fs unit :=
  let! r := call (OsFailure op path) in match r with Some e => throw e | None => ret tt end.

Definition MkdirAll (s : string) : Fs unit :=
  let p := walk s in
  let! t := gets (λ t, t) in
  if is_dir t p then ret tt
  else if existsb (is_file t) (above [] p) then throw not_a_directory
  else os_may_fail "mkdir" s;; modify (with_dirs (above [] p)).

(** Creates or truncates. *)
Definition Create (s : string) : Fs unit :=
  let p := walk s in
  let! t := gets (λ t, t) in
  if negb (is_dir t (parent p)) then throw (if existsb (is_file t) (above [] (parent p)) then not_a_directory else not_exist)
  else if is_dir t p then throw is_a_directory
  else os_may_fail "create" s;; modify (with_file p "").

(** ** Archives *)

Definition unknown_type (e : tar_entry) : error := Plain ("unknown type in " +:+ te_Name e).

Definition extract_entry (dest : string) (e : tar_entry) : Fs unit :=
  let target := Join [dest; te_Name e] in
  match te_Typeflag e with
  | TypeDir => MkdirAll target
  | TypeReg =>
      Create target;;
      let! breaks := call (WriteBreaks target) in
      let broken := match breaks with Some b => Some b | None => te_Broken e end in
      modify (with_file (walk target) (match broken with Some (n, _) => String.substring 0 n (te_Body e) | None => te_Body e end));;
      match broken with Some (_, err) => throw err | None => os_may_fail "chmod" target end
  | OtherType _ => throw (unknown_type e)
  end.

Definition ExtractTarGz (source dest : string) : Fs unit :=
  let! a := callE (OpenTarGz source) in
  for_each (ar_entries a) (extract_entry dest);;
  match ar_end a with Some e => throw e | None => ret tt end.

(** A tar reader on which [Next] was not called delivers nothing: what is copied is empty. *)
Definition decompressTgz (sourcePath targetPath targetFileName : string) : Fs unit :=
  callE (OpenTarGz sourcePath);;
  Create (Join [targetPath; targetFileName]).

Definition ErrNotFound : error := Plain "not found".

(** Found, absent, or a failure of the reader before it was found. *)
Fixpoint find_in_archive (entries : list tar_entry) (end_ : option error) (fileToFind : string) : option error :=
  match entries with
  | [] => match end_ with Some e => Some e | None => Some ErrNotFound end
  | e :: entries =>
      if bool_decide (te_Typeflag e = TypeReg) && String.eqb (Base (te_Name e)) fileToFind then None
      else find_in_archive entries end_ fileToFind
  end.
Definition ReadFileInTgz (tarPath fileToFind : string) : Fs unit :=
  let! a := callE (OpenTarGz tarPath) in
  match find_in_archive (ar_entries a) (ar_end a) fileToFind with None => ret tt | Some e => throw e end.

(** ** Single files *)

Definition PathExists (s : string) : Fs (bool + error) :=
  let! t := gets (λ t, t) in
  if is_dir t (walk s) || is_file t (walk s) then
    let! r := call (OsFailure "stat" s) in ret (match r with Some e => inr e | None => inl true end)
  else ret (inl false).

(** Truncates, and then writes; a write may break off. *)
Definition OverwriteFile (filePath value : string) : Fs unit :=
  let p := walk filePath in
  let! t := gets (λ t, t) in
  if negb (is_file t p) then throw not_exist
  else
    os_may_fail "open" filePath;;
    modify (with_file p "");;
    let! breaks := call (WriteBreaks filePath) in
    modify (with_file p (match breaks with Some (n, _) => String.substring 0 n value | None => value end));;
    match breaks with Some (_, e) => throw e | None => ret tt end.

(** Creates or truncates, and then writes; a write may break off. *)
Definition WriteFile (s content : string) : Fs unit :=
  Create s;;
  let! breaks := call (WriteBreaks s) in
  modify (with_file (walk s) (match breaks with Some (n, _) => String.substring 0 n content | None => content end));;
  match breaks with Some (_, e) => throw e | None => ret tt end.

Definition ReadFile (s : string) : Fs string :=
  let! t := gets (λ t, t) in
  match tr_files t !! walk s with
  | None => throw (if is_dir t (walk s) then is_a_directory else not_exist)
  | Some content => os_may_fail "read" s;; ret content
  end.

Definition resolv_conf : string := "/etc/resolv.conf".
Definition nameserver_entry : string := "nameserver 8.8.8.8" +:+ String (Ascii.ascii_of_nat 10) "".

Definition EnsureResolvConf : Fs unit :=
  let p := walk resolv_conf in
  let! t := gets (λ t, t) in
  (if is_file t p then os_may_fail "open" resolv_conf else Create resolv_conf);;
  let! content := gets (λ t, default "" (tr_files t !! p)) in
  os_may_fail "read" resolv_conf;;
  os_may_fail "close" resolv_conf;;
  if negb (str_contains "8.8.8.8" content) then OverwriteFile resolv_conf (nameserver_entry +:+ content) else ret tt.

(** ** Scripts *)

Definition DEFAULT_INTERPRETER : string := "/bin/bash".
Definition line_feed : string := String (Ascii.ascii_of_nat 10) "".
Definition script_text (command : string) : string := "#!" +:+ DEFAULT_INTERPRETER +:+ line_feed +:+ command +:+ line_feed +:+ "exit 0".

Definition writeScript (command : string) : Fs string :=
  let! id := call NewUUID in
  let! tmp := call TempDir in
  let scriptPath := tmp +:+ "/" +:+ id +:+ ".sh" in
  Create scriptPath;;
  let! breaks := call (WriteBreaks scriptPath) in
  modify (with_file (walk scriptPath) (match breaks with Some (n, _) => String.substring 0 n (script_text command) | None => script_text command end));;
  match breaks with Some (_, e) => throw e | None => ret scriptPath end.

Definition ExecuteAsScript (command : string) : Fs string :=
  let! scriptPath := writeScript command in
  let! output := callE (RunScript DEFAULT_INTERPRETER scriptPath) in
  os_may_fail "remove" scriptPath;;
  modify (without_file (walk scriptPath));;
  ret output.

(** ** Keeping logs small (src/src/diskguard/diskguard.go) *)

(** [encoding/json] on an object: [null] leaves Go's nil map, to which nothing can be added. *)
Class JsonObjects := {
  unmarshal_object : string → option gomap + error;
  marshal_indent : gomap → string + error;
}.

Definition daemonJSONPath : string := "/etc/docker/daemon.json".
Definition journaldDropin : string := "/etc/systemd/journald.conf.d/10-ironflock.conf".

(** A key that is absent or [null] gets its default. *)
Definition with_default (key : string) (value : goval) (cfg : gomap) : gomap :=
  match map_index key cfg with VNil => map_set key value cfg | _ => cfg end.
Definition log_opts : goval := VMap [("max-size", VStr "10m"); ("max-file", VStr "3")].
Definition with_rotation (cfg : gomap) : gomap := with_default "log-opts" log_opts (with_default "log-driver" (VStr "json-file") cfg).
Definition is_unset (key : string) (cfg : gomap) : bool := match map_index key cfg with VNil => true | _ => false end.
Definition lacks_rotation (cfg : gomap) : bool := is_unset "log-driver" cfg || is_unset "log-opts" cfg.

(** The failures are logged: nothing is returned. *)
Definition ensureJournaldCap_want : string := "[Journal]" +:+ line_feed +:+ "SystemMaxUse=200M" +:+ line_feed.
Definition write_cap : Fs unit :=
  let! dir := try_ (MkdirAll (Dir journaldDropin)) in
  match dir with
  | inr _ => ret tt
  | inl _ =>
      let! written := try_ (WriteFile journaldDropin ensureJournaldCap_want) in
      match written with inr _ => ret tt | inl _ => call (RunCommand "systemctl" ["restart"; "systemd-journald"]);; ret tt end
  end.
Definition ensureJournaldCap : Fs unit :=
  let! data := try_ (ReadFile journaldDropin) in
  if match data with inl text => String.eqb text ensureJournaldCap_want | inr _ => false end then ret tt else write_cap.

Section rotation.
Context `{JsonObjects}.

Definition write_rotation (cfg : gomap) : Fs unit :=
  match marshal_indent cfg with
  | inr _ => ret tt
  | inl out =>
      let! dir := try_ (MkdirAll (Dir daemonJSONPath)) in
      match dir with
      | inr _ => ret tt
      | inl _ => ignore (WriteFile daemonJSONPath (out +:+ line_feed))
      end
  end.

Definition ensureDockerLogRotation : Fs unit :=
  let! data := try_ (ReadFile daemonJSONPath) in
  match match data with inl text => if String.eqb text "" then inl (Some []) else unmarshal_object text | inr _ => inl (Some []) end with
  | inr _ => ret tt
  | inl None => panic
  | inl (Some cfg) => if lacks_rotation cfg then write_rotation (with_rotation cfg) else ret tt
  end.

Definition EnsurePreventionConfig : Fs unit := ensureDockerLogRotation;; ensureJournaldCap.
End rotation.

(** ** The files of the agent's log (src/src/logging/agentlog.go) *)

Definition is_blank (s : string) : bool :=
  str_forall (λ a, let n := N_of_ascii a in (((9 <=? n) && (n <=? 13)) || (n =? 32))%N) s.
(** [filepath.Ext] of a base name, and the name without it. *)
Definition Ext (name : string) : string :=
  match rev (split_on "." name) with e :: _ :: _ => "." +:+ e | _ => "" end.
Definition stem (name : string) : string := trim_suffix (Ext name) name.

Definition no_log_path : error := Plain "no agent log path configured".

(** A rotation of the log with this base name. *)
Definition is_backup (base name : string) : bool :=
  negb (String.eqb name base) && has_prefix (stem base +:+ "-") name && has_suffix (Ext base) name.

(** [entries]: the names of the directory, and whether each is a directory; [stat]: why the
    active file cannot be seen, if it cannot. *)
Definition agentLogFiles (path : string) (entries : list (string * bool) + error) (stat : option error) : list string + error :=
  if is_blank path then inr no_log_path
  else
    match entries with
    | inr e => match stat with None => inl [path] | Some _ => inr e end
    | inl entries =>
        let found := List.filter (λ en, negb en.2 && is_backup (Base path) en.1) entries in
        let backups := sort_strings (map (λ en, Join [Dir path; en.1]) found) in
        match stat with
        | None => inl (backups ++ [path])
        | Some e => match backups with [] => inr e | _ => inl backups end
        end
    end.

(** * What the paths and the archives guarantee *)

(** ** Paths *)

(** An element that cleaning leaves alone. *)
Definition plain_element (e : string) : Prop := e ≠ "" ∧ e ≠ "." ∧ e ≠ ".." ∧ lacks "/" e = true.

Lemma clean_plain rooted acc e : plain_element e → clean_element rooted acc e = e :: acc.
Proof. intros (H1 & H2 & H3 & _). unfold clean_element. by rewrite !(proj2 (String.eqb_neq _ _)) by done. Qed.

Lemma clean_all_plain rooted acc es : Forall plain_element es → clean_elements rooted acc es = rev acc ++ es.
Proof.
  intros He. revert acc. induction He as [|e es He Hes IH]; intros acc; cbn; [by rewrite app_nil_r|].
  rewrite clean_plain by done. rewrite IH. cbn. by rewrite <- app_assoc.
Qed.

Lemma clean_elements_app rooted acc es es' : clean_elements rooted acc (es ++ es') = clean_elements rooted (rev (clean_elements rooted acc es)) es'.
Proof.
  revert acc. induction es as [|e es IH]; intros acc; cbn [app clean_elements]; [by rewrite rev_involutive|apply IH].
Qed.

(** What the system walks has no element left to clean. *)
Lemma clean_elements_plain acc es : Forall plain_element acc → Forall (λ e, lacks "/" e = true) es → Forall plain_element (clean_elements true acc es).
Proof.
  intros Ha He. revert acc Ha. induction He as [|e es He Hes IH]; intros acc Ha; cbn [clean_elements]; [by apply Forall_rev|].
  apply IH. unfold clean_element. destruct (String.eqb_spec e ""); [done|]. destruct (String.eqb_spec e "."); [done|]. cbn [orb].
  destruct (String.eqb_spec e ".."); [|by constructor].
  destruct acc as [|x acc]; [done|]. inversion Ha as [|? ? Hx Hacc]; subst. by rewrite (proj2 (String.eqb_neq _ _) (proj1 (proj2 (proj2 Hx)))).
Qed.

Lemma walk_plain s : Forall plain_element (walk s).
Proof. apply clean_elements_plain; [constructor|apply split_on_parts]. Qed.

Lemma walk_show p : Forall plain_element p → walk (show_path true p) = p.
Proof.
  intros Hp. unfold walk, show_path. cbn [String.append]. rewrite (proj2 (String.eqb_neq _ _)) by done. cbn [split_on]. rewrite Ascii.eqb_refl.
  destruct p as [|e p]; [done|]. rewrite split_join; [|done|]. 
  - change (clean_elements true [] (e :: p) = e :: p). by rewrite clean_all_plain.
  - eapply Forall_impl; [exact Hp|]. by intros x (_ & _ & _ & Hx).
Qed.

Lemma walk_Clean s : is_rooted s = true → walk (Clean s) = walk s.
Proof. intros Hr. unfold Clean. rewrite Hr. apply walk_show, walk_plain. Qed.

(** cleaning a rooted path names the same place, and cleaning it again changes nothing. *)
Theorem Clean_stable s : is_rooted s = true → walk (Clean s) = walk s ∧ Clean (Clean s) = Clean s ∧ is_rooted (Clean s) = true.
Proof.
  intros Hr. split; [by apply walk_Clean|]. assert (is_rooted (Clean s) = true) as Hc.
  { unfold Clean, show_path. rewrite Hr. cbn [String.append]. by destruct (join_with _ _). }
  split; [|done]. unfold Clean at 1. rewrite Hc. change (clean_elements true [] (split_on "/" (Clean s))) with (walk (Clean s)).
  rewrite walk_Clean by done. unfold Clean. by rewrite Hr.
Qed.

Lemma split_on_slash c dest name : split_on c (dest +:+ String c name) = split_on c dest ++ split_on c name.
Proof.
  induction dest as [|a dest IH]; cbn; [by rewrite Ascii.eqb_refl|]. rewrite IH. destruct (Ascii.eqb a c); [done|].
  pose proof (split_on_nonempty c dest) as Hs. by destruct (split_on c dest).
Qed.

Lemma walk_Join dest name : is_rooted dest = true → walk (Join [dest; name]) = clean_elements true (rev (walk dest)) (split_on "/" name).
Proof.
  intros Hd. assert (dest ≠ "") as Hne by (intros ->; done). cbn [Join]. rewrite (proj2 (String.eqb_neq _ _) Hne). cbn [join_with].
  rewrite walk_Clean by by destruct dest. unfold walk. by rewrite split_on_slash, clean_elements_app.
Qed.

(** Names that never leave the directory they start in, [depth] levels below it. *)
Fixpoint stays (depth : nat) (es : list string) : bool :=
  match es with
  | [] => true
  | e :: es =>
      if String.eqb e "" || String.eqb e "." then stays depth es
      else if String.eqb e ".." then match depth with O => false | S depth => stays depth es end
      else stays (S depth) es
  end.
Definition local_name (name : string) : bool := stays 0 (split_on "/" name).

Lemma stays_below es : ∀ acc base, Forall plain_element acc → Forall (λ e, lacks "/" e = true) es → stays (length acc) es = true →
  ∃ rest, clean_elements true (acc ++ rev base) es = base ++ rest.
Proof.
  induction es as [|e es IH]; intros acc base Ha He Hs; cbn [clean_elements stays] in *.
  - exists (rev acc). by rewrite rev_app_distr, rev_involutive.
  - inversion He as [|? ? He1 Hes]; subst. unfold clean_element. destruct (String.eqb e "" || String.eqb e ".") eqn:E1; [by apply IH|].
    destruct (String.eqb_spec e "..") as [->|Hn]; [|apply (IH (e :: acc)); [constructor; [|done]|done|done]].
    + destruct acc as [|x acc]; [done|]. inversion Ha as [|? ? Hx Hacc]; subst. cbn [app]. rewrite (proj2 (String.eqb_neq _ _) (proj1 (proj2 (proj2 Hx)))). by apply IH.
    + apply orb_false_elim in E1 as [H1 H2]. apply String.eqb_neq in H1, H2. by split_and!.
Qed.

Lemma local_below dest name : is_rooted dest = true → local_name name = true → walk dest `prefix_of` walk (Join [dest; name]).
Proof.
  intros Hd Hl. rewrite walk_Join by done.
  destruct (stays_below (split_on "/" name) [] (walk dest)) as [rest Hr]; [constructor|apply split_on_parts|done|]. cbn [app] in Hr. rewrite Hr. by exists rest.
Qed.

(** A name that leads anywhere. *)
Fixpoint ups (n : nat) : list string := match n with O => [] | S n => ".." :: ups n end.

Lemma clean_ups p es : Forall plain_element p → clean_elements true (rev p) (ups (length p) ++ es) = clean_elements true [] es.
Proof.
  rewrite <- (rev_involutive p) at 1 3. generalize (rev p). clear p. intros p Hp. apply Forall_rev in Hp. rewrite rev_involutive in Hp.
  induction Hp as [|x p Hx Hp IH]; [done|]. rewrite length_rev in *. cbn [length ups app clean_elements].
  unfold clean_element at 1. cbn. rewrite (proj2 (String.eqb_neq _ _) (proj1 (proj2 (proj2 Hx)))). exact IH.
Qed.

Lemma names_reach_everything dest target : is_rooted dest = true → Forall plain_element target → target ≠ [] →
  walk (Join [dest; join_with "/" (ups (length (walk dest)) ++ target)]) = target.
Proof.
  intros Hd Ht Hne. assert (∀ n, Forall (λ e, lacks "/" e = true) (ups n ++ target)) as Hl.
  { intros n. apply Forall_app. split; [induction n; by constructor|]. eapply Forall_impl; [exact Ht|]. by intros x (_ & _ & _ & Hx). }
  assert (∀ n, ups n ++ target ≠ []) as Hn by (intros [|n]; [done|done]).
  rewrite walk_Join by done. rewrite split_join by done. rewrite clean_ups by apply walk_plain. by rewrite clean_all_plain.
Qed.

(** ** Extraction *)

Section extraction.
Variable en : fs_env.
(** Nobody else changes the tree meanwhile. *)
Hypothesis alone : ∀ lg t, interfere en lg t = t.
#[local] Set Default Proof Using "Type*".

(** The tree below [base] and the directories that lead there are all that differs. *)
Definition confined (base : path) (t t' : tree) : Prop :=
  (∀ p, ¬ base `prefix_of` p → tr_files t' !! p = tr_files t !! p)
  ∧ (∀ p, p ∈ tr_dirs t' → p ∈ tr_dirs t ∨ base `prefix_of` p ∨ p `prefix_of` base).

Lemma confined_refl base t : confined base t t.
Proof. split; [done|]. intros p Hp. by left. Qed.

Definition within (base : path) (t : tree) (st : fs_state) : Prop := confined base t (world st).

Lemma tree_call {T} base t (c : FileCall T) : keeps en (within base t) (call c).
Proof. apply keeps_call. intros st r Hst. unfold within. cbn. by rewrite alone. Qed.

Lemma within_file base t p content : base `prefix_of` p → keeps en (within base t) (modify (with_file p content)).
Proof.
  intros Hp. apply keeps_modify. intros st [Hf Hd]. split; cbn; [|exact Hd]. intros q Hq. rewrite lookup_insert_ne; [by apply Hf|]. by intros ->.
Qed.

Lemma above_prefix before p q : q ∈ above before p → q `prefix_of` before ++ p.
Proof.
  revert before. induction p as [|e p IH]; intros before Hq; cbn in Hq; [by apply elem_of_nil in Hq|].
  apply elem_of_cons in Hq as [->|Hq]; [exists p; by rewrite <- app_assoc|]. apply IH in Hq. by rewrite <- app_assoc in Hq.
Qed.

Lemma within_dirs base t p : base `prefix_of` p → keeps en (within base t) (modify (with_dirs (above [] p))).
Proof.
  intros Hp. apply keeps_modify. intros st [Hf Hd]. split; cbn; [exact Hf|]. intros q Hq. apply elem_of_union in Hq as [Hq|Hq]; [|by apply Hd].
  apply elem_of_list_to_set, above_prefix in Hq. cbn in Hq. right.
  destruct (prefix_weak_total q base p Hq Hp) as [H|H]; [by right|by left].
Qed.

#[local] Hint Resolve tree_call within_file within_dirs : agent.

Lemma within_may_fail base t op s : keeps en (within base t) (os_may_fail op s).
Proof. apply keeps_bind; [apply tree_call|]. intros [e|]; keeps_auto. Qed.

Lemma within_MkdirAll base t s : base `prefix_of` walk s → keeps en (within base t) (MkdirAll s).
Proof.
  intros Hp. apply keeps_bind; [apply keeps_gets|]. intros u. destruct (is_dir u _); [apply keeps_ret|]. destruct (existsb _ _); [apply keeps_throw|].
  apply keeps_bind; [apply within_may_fail|]. intros _. by apply within_dirs.
Qed.

Lemma within_Create base t s : base `prefix_of` walk s → keeps en (within base t) (Create s).
Proof.
  intros Hp. apply keeps_bind; [apply keeps_gets|]. intros u. destruct (negb _); [apply keeps_throw|]. destruct (is_dir u _); [apply keeps_throw|].
  apply keeps_bind; [apply within_may_fail|]. intros _. by apply within_file.
Qed.

Lemma within_entry base t dest e : base `prefix_of` walk (Join [dest; te_Name e]) → keeps en (within base t) (extract_entry dest e).
Proof.
  intros Hp. unfold extract_entry. destruct (te_Typeflag e); [by apply within_MkdirAll| |apply keeps_throw].
  apply keeps_bind; [by apply within_Create|]. intros _. apply keeps_bind; [apply tree_call|]. intros breaks.
  apply keeps_bind; [by apply within_file|]. intros _.
  destruct breaks as [[n err]|]; [apply keeps_throw|]. destruct (te_Broken e) as [[n err]|]; [apply keeps_throw|apply within_may_fail].
Qed.

(** C16: an archive whose names never climb above where they start is extracted below the
    destination only: whatever fails on the way, no file elsewhere changes, and no directory
    is made but there and on the way to it. *)
Theorem archive_confined source dest st : is_rooted dest = true →
  (∀ lg a, answer en _ (OpenTarGz source) lg = inl a → Forall (λ e, local_name (te_Name e) = true) (ar_entries a)) →
  confined (walk dest) (world st) (world (ExtractTarGz source dest en st).2).
Proof.
  intros Hd Hn. assert (keeps en (within (walk dest) (world st)) (ExtractTarGz source dest)) as Hk.
  { intros st0 H0. unfold ExtractTarGz, callE, bind at 1 2, call. specialize (Hn (log st0)). destruct (answer en _ (OpenTarGz source) (log st0)) as [a|e]; cbn.
    - specialize (Hn a eq_refl). assert (keeps en (within (walk dest) (world st))
        (for_each (ar_entries a) (extract_entry dest);; match ar_end a with Some e => throw e | None => ret tt end)) as Hb.
      { apply keeps_bind; [|intros _; destruct (ar_end a); keeps_auto]. apply keeps_for_each_in. intros e He. apply within_entry.
        rewrite Forall_forall in Hn. by apply local_below, Hn. }
      apply Hb. unfold within. cbn. by rewrite alone.
    - unfold within. cbn. by rewrite alone. }
  apply (Hk st). apply confined_refl.
Qed.

(** What the entries leave in the files, one after the other. *)
Definition put_entry (dest : string) (files : gmap path string) (e : tar_entry) : gmap path string :=
  match te_Typeflag e with TypeReg => <[walk (Join [dest; te_Name e]) := te_Body e]> files | _ => files end.

Lemma call_alone {T} (c : FileCall T) st r st' : call c en st = (Ok r, st') → world st' = world st.
Proof. unfold call. intros [= _ <-]. cbn. by rewrite alone. Qed.

Lemma may_fail_files op s st st' : os_may_fail op s en st = (Ok tt, st') → world st' = world st.
Proof. intros Hm. apply bind_returned in Hm as (r & st1 & Hc & Hr). apply call_alone in Hc. destruct r as [e|]; [done|]. by injection Hr as <-. Qed.

Lemma MkdirAll_files s st st' : MkdirAll s en st = (Ok tt, st') → tr_files (world st') = tr_files (world st).
Proof.
  intros Hm. unfold MkdirAll in Hm. apply bind_returned in Hm as (t & st1 & Hc & Hr). injection Hc as <- <-. destruct (is_dir _ _); [by injection Hr as <-|].
  destruct (existsb _ _); [done|]. apply bind_returned in Hr as ([] & st2 & Hf & Hr). apply may_fail_files in Hf. injection Hr as <-. cbn. by rewrite Hf.
Qed.

Lemma Create_files s st st' : Create s en st = (Ok tt, st') → tr_files (world st') = <[walk s := ""]> (tr_files (world st)).
Proof.
  intros Hm. unfold Create in Hm. apply bind_returned in Hm as (t & st1 & Hc & Hr). injection Hc as <- <-. destruct (negb _); [done|].
  destruct (is_dir _ _); [done|]. apply bind_returned in Hr as ([] & st2 & Hf & Hr). apply may_fail_files in Hf. injection Hr as <-. cbn. by rewrite Hf.
Qed.

Lemma entry_files dest e st st' : extract_entry dest e en st = (Ok tt, st') → tr_files (world st') = put_entry dest (tr_files (world st)) e.
Proof.
  unfold extract_entry, put_entry. destruct (te_Typeflag e); [apply MkdirAll_files| |done]. intros Hm.
  apply bind_returned in Hm as ([] & st1 & Hc & Hm). apply Create_files in Hc. apply bind_returned in Hm as (breaks & st2 & Hb & Hm). apply call_alone in Hb.
  apply bind_returned in Hm as ([] & st3 & Hw & Hm). injection Hw as <-.
  destruct breaks as [[n err]|]; [done|]. destruct (te_Broken e) as [[n err]|]; [done|]. apply may_fail_files in Hm. rewrite Hm. cbn. rewrite Hb, Hc.
  apply insert_insert_eq.
Qed.

Lemma entries_files dest es st st' : for_each es (extract_entry dest) en st = (Ok tt, st') → tr_files (world st') = foldl (put_entry dest) (tr_files (world st)) es.
Proof.
  revert st. induction es as [|e es IH]; intros st Hm; [by injection Hm as <-|]. apply bind_returned in Hm as ([] & st1 & He & Hm).
  apply entry_files in He. cbn. rewrite <- He. by apply IH.
Qed.

(** an extraction that succeeds has put every file of the archive in its place, whole, the
    last one where several have the same, and changed no other file. *)
Theorem extracted_contents source dest st st' : ExtractTarGz source dest en st = (Ok tt, st') →
  ∃ a, answer en _ (OpenTarGz source) (log st) = inl a ∧ ar_end a = None
    ∧ tr_files (world st') = foldl (put_entry dest) (tr_files (world st)) (ar_entries a).
Proof.
  intros Hm. unfold ExtractTarGz in Hm. apply bind_returned in Hm as (a & st1 & Ha & Hm). apply bind_returned in Ha as (r & st0 & Hc & Hl).
  pose proof (call_alone _ _ _ _ Hc) as H0. injection Hc as Hr _. destruct r as [a'|e]; [|done]. injection Hl as <- <-.
  apply bind_returned in Hm as ([] & st2 & He & Hend). apply entries_files in He. exists a'. destruct (ar_end a') as [e|]; [done|]. injection Hend as <-.
  split; [done|]. split; [done|]. by rewrite He, H0.
Qed.
End extraction.

(** ** Searching an archive *)

(** A file is found wherever it lies in the archive, if the reader comes that far. *)
Lemma found_iff entries end_ name : find_in_archive entries end_ name = None ↔
  ∃ e, e ∈ entries ∧ te_Typeflag e = TypeReg ∧ Base (te_Name e) = name.
Proof.
  induction entries as [|e entries IH]; cbn.
  - split; [by destruct end_|]. intros (e & He & _). by apply elem_of_nil in He.
  - case_bool_decide as Ht; cbn; [destruct (String.eqb_spec (Base (te_Name e)) name) as [Hb|Hb]|].
    + split; [|done]. intros _. exists e. split; [by left|done].
    + rewrite IH. split; intros (e' & He & H'); exists e'; (split; [|done]); [by right|]. apply elem_of_cons in He as [->|He]; [by destruct H'|done].
    + rewrite IH. split; intros (e' & He & H'); exists e'; (split; [|done]); [by right|]. apply elem_of_cons in He as [->|He]; [by destruct H'|done].
Qed.

(** ** Keeping logs small *)

Lemma index_set k k' v m : map_index k' (map_set k v m) = if String.eqb k' k then v else map_index k' m.
Proof. unfold map_index. rewrite map_get_set. by destruct (String.eqb k' k). Qed.

Lemma with_default_index key v cfg k : map_index k (with_default key v cfg) =
  if String.eqb k key then match map_index key cfg with VNil => v | w => w end else map_index k cfg.
Proof.
  unfold with_default. destruct (String.eqb_spec k key) as [->|Hne]; destruct (map_index key cfg) eqn:E;
    rewrite ?index_set, ?String.eqb_refl; try done; by destruct (String.eqb_spec k key).
Qed.

(** The rotation is set, and no setting that was there is changed. *)
Lemma with_rotation_index cfg k : map_index k (with_rotation cfg) =
  match map_index k cfg with
  | VNil => if String.eqb k "log-opts" then log_opts else if String.eqb k "log-driver" then VStr "json-file" else VNil
  | v => v
  end.
Proof.
  unfold with_rotation. rewrite !with_default_index. destruct (String.eqb_spec k "log-opts") as [->|]; [by destruct (map_index "log-opts" cfg)|].
  destruct (String.eqb_spec k "log-driver") as [->|]; by destruct (map_index _ cfg).
Qed.

Lemma same_settings cfg cfg' : (∀ k, map_index k cfg' = map_index k cfg) → lacks_rotation cfg' = lacks_rotation cfg.
Proof. intros H. unfold lacks_rotation, is_unset. by rewrite !H. Qed.

Lemma rotation_settled cfg : lacks_rotation (with_rotation cfg) = false.
Proof.
  unfold lacks_rotation, is_unset. rewrite !with_rotation_index.
  by destruct (map_index "log-driver" cfg), (map_index "log-opts" cfg).
Qed.

Section prevention.
#[local] Set Default Proof Using "Type*".
Variable en : fs_env.
Hypothesis alone : ∀ lg t, interfere en lg t = t.
(** No operation fails. *)
Hypothesis no_failure : ∀ op s lg, answer en _ (OsFailure op s) lg = None.
Hypothesis whole_writes : ∀ s lg, answer en _ (WriteBreaks s) lg = None.

Lemma may_fail_never op s st : ∃ st', os_may_fail op s en st = (Ok tt, st') ∧ world st' = world st.
Proof. unfold os_may_fail, bind, call. cbn. rewrite no_failure. eexists. split; [done|]. apply alone. Qed.

Lemma MkdirAll_there s st : is_dir (world st) (walk s) = true → MkdirAll s en st = (Ok tt, st).
Proof. intros Hd. unfold MkdirAll, bind, gets. cbn. by rewrite Hd. Qed.

Lemma ReadFile_whole s st content : tr_files (world st) !! walk s = Some content →
  ∃ st', ReadFile s en st = (Ok content, st') ∧ world st' = world st.
Proof.
  intros Hf. unfold ReadFile, bind at 1, gets at 1. cbn. rewrite Hf. destruct (may_fail_never "read" s st) as (st' & Hm & Hw).
  exists st'. split; [|done]. unfold bind. by rewrite Hm.
Qed.

Lemma WriteFile_whole s content st : is_dir (world st) (parent (walk s)) = true → is_dir (world st) (walk s) = false →
  ∃ st', WriteFile s content en st = (Ok tt, st') ∧ world st' = with_file (walk s) content (world st).
Proof.
  intros Hp Hd. unfold WriteFile, Create, bind, gets, modify. cbn. rewrite Hp, Hd. cbn. unfold os_may_fail, bind, call, ret. cbn.
  rewrite no_failure, whole_writes. eexists. split; [done|]. cbn. rewrite !alone. cbn. unfold with_file. cbn. by rewrite insert_insert_eq.
Qed.
Lemma ReadFile_absent s st : tr_files (world st) !! walk s = None → ∃ e, ReadFile s en st = (Err e, st).
Proof. intros Hf. unfold ReadFile, bind, gets. cbn. rewrite Hf. by eexists. Qed.

Lemma cap_written st : is_dir (world st) (walk (Dir journaldDropin)) = true → is_dir (world st) (walk journaldDropin) = false →
  ∃ st', write_cap en st = (Ok tt, st') ∧ tr_files (world st') !! walk journaldDropin = Some ensureJournaldCap_want.
Proof.
  intros Hdir Hno. destruct (WriteFile_whole journaldDropin ensureJournaldCap_want st Hdir Hno) as (st1 & Hwr & Hw).
  unfold write_cap, bind, try_. rewrite (MkdirAll_there _ _ Hdir), Hwr. eexists. split; [done|]. cbn. rewrite alone, Hw. apply lookup_insert_eq.
Qed.

(** The journal's cap: whatever was there, the file is the cap afterwards, and the daemon was
    told; once it is, nothing is written and no daemon restarted. *)
Theorem journal_cap_settles st : is_dir (world st) (walk (Dir journaldDropin)) = true → is_dir (world st) (walk journaldDropin) = false →
  ∃ st1 st2, ensureJournaldCap en st = (Ok tt, st1) ∧ ensureJournaldCap en st1 = (Ok tt, st2)
    ∧ tr_files (world st1) !! walk journaldDropin = Some ensureJournaldCap_want ∧ world st2 = world st1.
Proof.
  intros Hdir Hno.
  assert (∃ st1, ensureJournaldCap en st = (Ok tt, st1) ∧ tr_files (world st1) !! walk journaldDropin = Some ensureJournaldCap_want) as (st1 & H1 & Hf).
  { unfold ensureJournaldCap, bind at 1, try_ at 1. destruct (tr_files (world st) !! walk journaldDropin) as [text|] eqn:E.
    - destruct (ReadFile_whole _ _ _ E) as (st0 & -> & Hw). destruct (String.eqb_spec text ensureJournaldCap_want) as [->|_];
        [exists st0; split; [done|by rewrite Hw]|]. rewrite <- Hw in Hdir, Hno. by apply cap_written.
    - destruct (ReadFile_absent _ _ E) as (e & ->). by apply cap_written. }
  destruct (ReadFile_whole _ _ _ Hf) as (st2 & H2 & Hw). exists st1, st2. split; [done|]. split; [|done].
  unfold ensureJournaldCap, bind at 1, try_ at 1. by rewrite H2, String.eqb_refl.
Qed.

Context `{JsonObjects}.
(** What is written can be read, to the same settings. *)
Hypothesis written_back : ∀ cfg out, marshal_indent cfg = inl out →
  ∃ cfg', unmarshal_object (out +:+ line_feed) = inl (Some cfg') ∧ ∀ k, map_index k cfg' = map_index k cfg.

Lemma settled_rotation st cfg text : tr_files (world st) !! walk daemonJSONPath = Some text → text ≠ "" →
  unmarshal_object text = inl (Some cfg) → lacks_rotation cfg = false →
  ∃ st', ensureDockerLogRotation en st = (Ok tt, st') ∧ world st' = world st.
Proof.
  intros Hf Hne Hu Hl. destruct (ReadFile_whole _ _ _ Hf) as (st' & Hr & Hw). exists st'. split; [|done].
  unfold ensureDockerLogRotation, bind at 1, try_ at 1. rewrite Hr, Hu. destruct (String.eqb_spec text ""); [done|]. by rewrite Hl.
Qed.

(** The configuration of the docker daemon: its settings are kept and the rotation of the logs
    added, and the second start finds nothing to do. *)
Theorem rotation_settles st cfg text out : is_dir (world st) (walk (Dir daemonJSONPath)) = true → is_dir (world st) (walk daemonJSONPath) = false →
  tr_files (world st) !! walk daemonJSONPath = Some text → text ≠ "" → unmarshal_object text = inl (Some cfg) →
  marshal_indent (with_rotation cfg) = inl out →
  ∃ st1 st2 text' cfg', ensureDockerLogRotation en st = (Ok tt, st1) ∧ ensureDockerLogRotation en st1 = (Ok tt, st2) ∧ world st2 = world st1
    ∧ tr_files (world st1) !! walk daemonJSONPath = Some text' ∧ unmarshal_object text' = inl (Some cfg') ∧ lacks_rotation cfg' = false
    ∧ ∀ k, map_index k cfg ≠ VNil → map_index k cfg' = map_index k cfg.
Proof using Type*.
  intros Hdir Hno Hf Hne Hu Hm. destruct (lacks_rotation cfg) eqn:Hl.
  - destruct (ReadFile_whole _ _ _ Hf) as (st0 & Hr & Hw). rewrite <- Hw in Hdir, Hno.
    destruct (WriteFile_whole daemonJSONPath (out +:+ line_feed) st0 Hdir Hno) as (st1 & Hwr & Hw1).
    destruct (written_back _ _ Hm) as (cfg' & Hu' & Hsame).
    assert (tr_files (world st1) !! walk daemonJSONPath = Some (out +:+ line_feed)) as Hf1 by (rewrite Hw1; apply lookup_insert_eq).
    assert (lacks_rotation cfg' = false) as Hl' by (rewrite (same_settings _ _ Hsame); apply rotation_settled).
    assert (out +:+ line_feed ≠ "") as Hne' by (by destruct out).
    destruct (settled_rotation _ _ _ Hf1 Hne' Hu' Hl') as (st2 & H2 & Hw2). exists st1, st2, (out +:+ line_feed), cfg'.
    split_and!; try done.
    + unfold ensureDockerLogRotation, bind at 1, try_ at 1. rewrite Hr, Hu. destruct (String.eqb_spec text ""); [done|]. rewrite Hl.
      unfold write_rotation, bind at 1, try_ at 1. rewrite Hm, (MkdirAll_there _ _ Hdir). unfold ignore, bind, try_. by rewrite Hwr.
    + intros k Hk. rewrite Hsame, with_rotation_index. by destruct (map_index k cfg).
  - destruct (settled_rotation _ _ _ Hf Hne Hu Hl) as (st1 & H1 & Hw1). rewrite <- Hw1 in Hf.
    destruct (settled_rotation _ _ _ Hf Hne Hu Hl) as (st2 & H2 & Hw2). by exists st1, st2, text, cfg.
Qed.
End prevention.

(** ** The files of the agent's log *)

Lemma split_on_cons c s : ∃ e es, split_on c s = e :: es.
Proof. induction s as [|a s (e & es & IH)]; cbn; [by eexists _, _|]. rewrite IH. destruct (Ascii.eqb a c); by eexists _, _. Qed.

Lemma join_snoc c es e : es ≠ [] → join_with c (es ++ [e]) = join_with c es +:+ String c e.
Proof.
  induction es as [|x es IH]; [done|]. intros _. destruct es as [|y es]; [done|]. change (join_with c ((x :: y :: es) ++ [e])) with (x +:+ String c (join_with c ((y :: es) ++ [e]))).
  rewrite IH by done. change (join_with c (x :: y :: es)) with (x +:+ String c (join_with c (y :: es))). by rewrite str_app_assoc.
Qed.

(** A name is its stem and its extension. *)
Lemma stem_ext base : stem base +:+ Ext base = base.
Proof.
  unfold stem, Ext. destruct (rev (split_on "." base)) as [|e [|e' es]] eqn:E; [by rewrite <- (str_app_nil_r base) at 1; rewrite trim_suffix_app, str_app_nil_r..|].
  enough (base = join_with "." (rev (e' :: es)) +:+ ("." +:+ e)) as Hb by (rewrite Hb at 1; rewrite trim_suffix_app; by rewrite <- Hb).
  transitivity (join_with "." (split_on "." base)); [symmetry; apply join_split|]. apply (f_equal (@rev _)) in E. rewrite rev_involutive in E. rewrite E.
  apply (join_snoc "." (rev (e' :: es))). cbn. by destruct (rev es).
Qed.

Lemma app_leb p s t : str_le s t → str_le (p +:+ s) (p +:+ t).
Proof. intros H. induction p as [|a p IH]; [done|]. unfold str_le in *. cbn. rewrite str_leb_cons. unfold Ascii.compare. by rewrite N.compare_refl. Qed.

Lemma leb_app s t e : String.length s = String.length t → str_le s t → str_le (s +:+ e) (t +:+ e).
Proof.
  revert t. induction s as [|a s IH]; intros [|b t] Hl Hle; try done. injection Hl as Hl. unfold str_le in *. cbn.
  rewrite str_leb_cons in *. destruct (Ascii.compare a b); [by apply IH|done|done].
Qed.

(** The name the log library gives to a rotation. *)
Definition rotation_name (base stamp : string) : string := stem base +:+ "-" +:+ stamp +:+ Ext base.

(** Rotations sort by the time in their names. *)
Lemma rotations_in_order base t1 t2 : String.length t1 = String.length t2 → str_le t1 t2 → str_le (rotation_name base t1) (rotation_name base t2).
Proof. intros Hl Hle. apply app_leb, app_leb. by apply leb_app. Qed.

Lemma rotation_is_backup base stamp : is_backup base (rotation_name base stamp) = true.
Proof.
  unfold is_backup, rotation_name. rewrite <- str_app_assoc, has_prefix_app. rewrite <- str_app_assoc, has_suffix_app, !andb_true_r.
  apply negb_true_iff, String.eqb_neq. intros H. apply (f_equal String.length) in H. rewrite <- (stem_ext base) in H at 3. rewrite !str_length_app in H. cbn in H. lia.
Qed.

(** Every rotation the directory names is read, in the order of their names, and the active
    file after them. *)
Theorem log_files_in_order path entries files : agentLogFiles path (inl entries) None = inl files →
  ∃ backups, files = backups ++ [path] ∧ StronglySorted str_le backups
    ∧ ∀ f, f ∈ backups ↔ ∃ name, (name, false) ∈ entries ∧ is_backup (Base path) name = true ∧ f = Join [Dir path; name].
Proof.
  unfold agentLogFiles. destruct (is_blank path); [done|]. intros [= <-]. eexists. split; [done|]. split; [apply (StronglySorted_merge_sort _)|].
  intros f. rewrite sort_strings_perm. rewrite list_elem_of_In, in_map_iff. split.
  - intros ([name d] & <- & Hin). apply filter_In in Hin as (Hin & Hc). apply andb_prop in Hc as [Hd Hb]. destruct d; [done|].
    exists name. split_and!; [by apply list_elem_of_In|done|done].
  - intros (name & Hin & Hb & ->). exists (name, false). split; [done|]. apply filter_In. split; [by apply list_elem_of_In|]. cbn. by rewrite Hb.
Qed.

(** ** Archives of apps *)

Definition entry (name : string) (t : tar_type) (body : string) : tar_entry := {| te_Name := name; te_Typeflag := t; te_Body := body; te_Broken := None |}.
Definition ex_archive (es : list tar_entry) : archive := {| ar_entries := es; ar_end := None |}.
Definition ex_files (es : list tar_entry) : fs_env := {|
  answer := λ T c _, match c in FileCall R return R with
                     | OpenTarGz _ => inl (ex_archive es) | OsFailure _ _ => None | WriteBreaks _ => None
                     | NewUUID => "1" | TempDir => "/tmp" | RunScript _ _ => inl "" | RunCommand _ _ => None
                     end;
  interfere := λ _ t, t |}.
Definition ex_tree : tree := {| tr_dirs := {[["apps"]; ["apps"; "build"]; ["etc"]]}; tr_files := {[["etc"; "passwd"] := "root"]} |}.

Definition ex_app : list tar_entry := [entry "." TypeDir ""; entry "src/" TypeDir ""; entry "./src/../Dockerfile" TypeReg "FROM scratch"].

(** Nothing checks the names: one that climbs replaces a file of the system. *)
Example climbing_name_escapes :
  let run := ExtractTarGz "app.tgz" "/apps/build/app" (ex_files [entry "../../../etc/passwd" TypeReg "mine"]) (mk_state ex_tree []) in
  run.1 = Ok tt ∧ tr_files (world run.2) !! ["etc"; "passwd"] = Some "mine".
Proof. split; vm_compute; reflexivity. Qed.

(** Without an entry for the directory itself, which was removed before, nothing is extracted. *)
Example archive_needs_directories :
  (ExtractTarGz "app.tgz" "/apps/build/app" (ex_files [entry "Dockerfile" TypeReg "FROM scratch"]) (mk_state ex_tree [])).1 = Err not_exist.
Proof. vm_compute. reflexivity. Qed.

(** The file of an architecture counts although it is not where the build looks for it. *)
Example nested_file_found :
  (ReadFileInTgz "app.tgz" "Dockerfile.amd64" (ex_files [entry "docs/Dockerfile.amd64" TypeReg ""]) (mk_state ex_tree [])).1 = Ok tt.
Proof. vm_compute. reflexivity. Qed.

Example cleaned_paths : (Clean "/a//b/./c/..", Clean "a/../../b", Clean "", Join ["/apps"; "../etc"], Base "a/b//", Base "/", Base "")
  = ("/a/b", "../b", ".", "/etc", "b", "/", ".").
Proof. vm_compute. reflexivity. Qed.

(** A write that breaks off loses the old text: the file was truncated first. *)
Example failed_overwrite_loses_text :
  let en := {| answer := λ T c lg, match c in FileCall R return R → R with WriteBreaks _ => λ _, Some (3%nat, Plain "disk full") | _ => λ r, r end (answer (ex_files []) T c lg);
               interfere := λ _ t, t |} in
  let run := OverwriteFile "/etc/passwd" "nobody" en (mk_state ex_tree []) in
  run.1 = Err (Plain "disk full") ∧ tr_files (world run.2) !! ["etc"; "passwd"] = Some "nob".
Proof. split; vm_compute; reflexivity. Qed.

(** ** Two starts *)

(** A toy codec: a configuration is written as its keys, one per line. *)
#[local] Instance toy_json : JsonObjects := {
  unmarshal_object := λ s, if String.eqb s "null" then inl None else if String.eqb s "{}" then inl (Some []) else inr (Plain "unexpected end of JSON input");
  marshal_indent := λ m, inl "{rotation}" }.

Definition daemon_tree (text : string) : tree := {| tr_dirs := {[["etc"]; ["etc"; "docker"]]}; tr_files := {[["etc"; "docker"; "daemon.json"] := text]} |}.

(** [null] is valid JSON: the agent does not survive its first start with it. *)
Example null_configuration_panics : (ensureDockerLogRotation (ex_files []) (mk_state (daemon_tree "null") [])).1 = Panic.
Proof. vm_compute. reflexivity. Qed.

(** The file is truncated before it is written: what the docker daemon finds after a write that
    broke off is half a file, and the next start leaves it so. *)
Example broken_write_stays :
  let en := {| answer := λ T c lg, match c in FileCall R return R → R with WriteBreaks _ => λ _, Some (3%nat, Plain "no space left on device") | _ => λ r, r end (answer (ex_files []) T c lg);
               interfere := λ _ t, t |} in
  let run := ensureDockerLogRotation en (mk_state (daemon_tree "{}") []) in
  let again := ensureDockerLogRotation (ex_files []) run.2 in
  tr_files (world run.2) !! ["etc"; "docker"; "daemon.json"] = Some "{ro" ∧ again.1 = Ok tt ∧ tr_files (world again.2) = tr_files (world run.2).
Proof. split_and!; vm_compute; reflexivity. Qed.

(** The log of another program of the same prefix is read as a rotation. *)
Example foreign_log_is_read :
  agentLogFiles "/var/log/reagent.log" (inl [("reagent.log", false); ("reagent-2024-05-01T00-00-00.000.log", false); ("reagent-manager.log", false); ("reagent-old", false)]) None
  = inl ["/var/log/reagent-2024-05-01T00-00-00.000.log"; "/var/log/reagent-manager.log"; "/var/log/reagent.log"].
Proof. vm_compute. reflexivity. Qed.

Lemma Clean_stable_witness : Clean (Clean "/a//b/./c/..") = "/a/b".
Proof.
  assert (is_rooted "/a//b/./c/.." = true) as Hr by reflexivity. destruct (Clean_stable "/a//b/./c/.." Hr) as (_ & H & _). rewrite H. reflexivity.
Defined.

Lemma archive_confined_witness : confined ["apps"; "build"; "app"] ex_tree
  (world (ExtractTarGz "app.tgz" "/apps/build/app" (ex_files ex_app) (mk_state ex_tree [])).2).
Proof.
  assert (∀ lg t, interfere (ex_files ex_app) lg t = t) as Ha by done. assert (is_rooted "/apps/build/app" = true) as Hr by reflexivity.
  assert (∀ lg a, answer (ex_files ex_app) _ (OpenTarGz "app.tgz") lg = inl a → Forall (λ e, local_name (te_Name e) = true) (ar_entries a)) as Hn.
  { intros lg a [= <-]. repeat constructor. }
  exact (archive_confined (ex_files ex_app) Ha "app.tgz" "/apps/build/app" (mk_state ex_tree []) Hr Hn).
Defined.

Lemma extracted_contents_witness :
  let run := ExtractTarGz "app.tgz" "/apps/build/app" (ex_files ex_app) (mk_state ex_tree []) in
  run.1 = Ok tt ∧ tr_files (world run.2) = <[["apps"; "build"; "app"; "Dockerfile"] := "FROM scratch"]> (tr_files ex_tree).
Proof.
  intros run. assert (run = (Ok tt, run.2)) as Hrun by (vm_compute; reflexivity). split; [by rewrite Hrun|].
  assert (∀ lg t, interfere (ex_files ex_app) lg t = t) as Ha by done.
  destruct (extracted_contents (ex_files ex_app) Ha "app.tgz" "/apps/build/app" (mk_state ex_tree []) run.2 Hrun) as (a & [= <-] & _ & Hf). exact Hf.
Defined.
