(* ===== verification/Shells.v ===== *)
(** * The shells behind the terminals (src/src/terminal/pty_windows.go, pty_unix.go)

    Starting a shell with its handles, the choice of the program, and the use of its handles by
    any number of goroutines that resize, wait for and close it. *)
From S2P Require Import Prelude Errdefs Effects.
Open Scope go_scope.
#[local] Open Scope list_scope.

(** ** Starting on Windows *)

Definition defaultCols : Z := 80.
Definition defaultRows : Z := 25.
Definition powershellPreamble : string :=
  "[Console]::OutputEncoding = [System.Text.UTF8Encoding]::new($false); $OutputEncoding = [Console]::OutputEncoding".
Definition errPseudoConsoleUnsupported : error :=
  Plain "the device terminal requires the Windows pseudoconsole API, which needs Windows 10 version 1809 (build 17763) or newer".

(** What a start opens. *)
Inductive handle := PtyIn | ShellIn | ShellOut | PtyOut | Console | Attributes | Process | MainThread.
#[global] Instance handle_dec : EqDecision handle.
Proof. solve_decision. Defined.

Inductive StartCall : Type → Type :=
  | PseudoConsoleAvailable : StartCall bool
  | LookPath (file : string) : StartCall (string + error)
  | Getenv (name : string) : StartCall string
  | StatFile (path : string) : StartCall (unit + error)
  | Pipe (r w : handle) : StartCall (unit + error)
  | CloseOnExec (h : handle) : StartCall unit
  | CreatePseudoConsole (cols rows : Z) : StartCall (unit + error)
  | NewAttributeList : StartCall (unit + error)
  | UpdateAttribute : StartCall (unit + error)
  | UTF16 (s : string) : StartCall (unit + error)
  | CreateProcess (commandLine : string) : StartCall (unit + error).

(** The open handles, the last first. *)
Abbreviation Start := (M StartCall (list handle)).
Abbreviation start_env := (env StartCall (list handle)).
Abbreviation start_state := (state StartCall (list handle)).

Definition opened (h : handle) : Start unit := modify (λ hs, h :: hs).
Fixpoint drop_first (h : handle) (hs : list handle) : list handle :=
  match hs with [] => [] | x :: hs => if decide (x = h) then hs else x :: drop_first h hs end.
Definition close (h : handle) : Start unit := modify (drop_first h).

(** [windows.ComposeCommandLine] and [filepath.Join] of the system. *)
Class ShellHost := { ComposeCommandLine : list string → string; join_path : list string → string }.

Section start.
Context `{ShellHost}.

Definition powershellCommandLine (path : string) : string :=
  ComposeCommandLine [path; "-NoLogo"; "-NoExit"; "-Command"; powershellPreamble].
Definition no_shell_error : error :=
  Plain "no usable shell was found on this device (looked for pwsh.exe, powershell.exe and cmd.exe)".

Definition windows_dir : string := "C:" +:+ String (Ascii.ascii_of_nat 92) "Windows".
Definition shellCommandLine : Start string :=
  let! pwsh := call (LookPath "pwsh.exe") in
  match pwsh with
  | inl pwsh => ret (powershellCommandLine pwsh)
  | inr _ =>
      let! powershell := call (LookPath "powershell.exe") in
      match powershell with
      | inl powershell => ret (powershellCommandLine powershell)
      | inr _ =>
          let! systemRoot := call (Getenv "SystemRoot") in
          let systemRoot := if String.eqb systemRoot "" then windows_dir else systemRoot in
          let powershell := join_path [systemRoot; "System32"; "WindowsPowerShell"; "v1.0"; "powershell.exe"] in
          let! there := call (StatFile powershell) in
          match there with
          | inl _ => ret (powershellCommandLine powershell)
          | inr _ =>
              let! cmd := call (LookPath "cmd.exe") in
              match cmd with
              | inl cmd => ret (ComposeCommandLine [cmd])
              | inr _ => throw no_shell_error
              end
          end
      end
  end.

Definition failing {A} (text : string) (c : StartCall (A + error)) : Start A :=
  let! r := call c in match r with inl a => ret a | inr e => throw (Annotated text e) end.

Definition startAttachedProcess (commandLine : string) : Start unit :=
  failing "terminal: failed to allocate the process attribute list" NewAttributeList;;
  opened Attributes;;
  finally (
    failing "terminal: failed to attach the pseudoconsole to the shell" UpdateAttribute;;
    failing "terminal: failed to encode the shell command line" (UTF16 commandLine);;
    failing "terminal: failed to start the shell" (CreateProcess commandLine);;
    opened Process;; opened MainThread;;
    close MainThread)
  (close Attributes).

Definition startHostShell : Start unit :=
  let! available := call PseudoConsoleAvailable in
  if negb available then throw errPseudoConsoleUnsupported
  else
    let! commandLine := shellCommandLine in
    failing "terminal: failed to create the input pipe" (Pipe PtyIn ShellIn);;
    opened PtyIn;; opened ShellIn;;
    let! r := call (Pipe ShellOut PtyOut) in
    match r with
    | inr e => close PtyIn;; close ShellIn;; throw (Annotated "terminal: failed to create the output pipe" e)
    | inl _ =>
        opened ShellOut;; opened PtyOut;;
        call (CloseOnExec ShellIn);; call (CloseOnExec ShellOut);;
        let! created := call (CreatePseudoConsole defaultCols defaultRows) in
        (match created with inl _ => opened Console | inr _ => ret tt end);;
        close PtyIn;; close PtyOut;;
        match created with
        | inr e => close ShellIn;; close ShellOut;; throw (Annotated "terminal: failed to create the pseudoconsole" e)
        | inl _ =>
            let! started := try_ (startAttachedProcess commandLine) in
            match started with
            | inr e => close ShellIn;; close ShellOut;; close Console;; throw e
            | inl _ => ret tt
            end
        end
    end.
End start.

(** ** Using it from many goroutines *)

(** Where a goroutine is in [Resize], [Close] or [Wait]; each name is what comes next. *)
Inductive thread :=
  | ResizeRLock | ResizeCheck | ResizeCall | ResizeRUnlock | ResizeDone
  | CloseOnce | CloseLock | CloseMark | CloseUnlock | CloseProcLock | CloseTerminate | CloseIn | CloseOut | CloseConsole | CloseDone
  | WaitOnce | WaitProcLock | WaitRead | WaitObject | WaitExitCode | WaitReleaseLock | WaitCloseHandle | WaitZero | WaitDone.

#[global] Instance thread_dec : EqDecision thread.
Proof. solve_decision. Defined.

Inductive once := Fresh | Running (i : nat) | Finished.

Record windowsShell := {
  ws_console : bool; ws_in : bool; ws_out : bool;     (* open *)
  ws_closed : bool; ws_writer : option nat;           (* mu: who has it for writing; the readers are the threads in [Resize] *)
  ws_procMu : option nat; ws_process : bool;          (* the field is not zero *)
  ws_handle : bool; ws_alive : bool;                  (* the handle is open; the shell runs *)
  ws_closeOnce : once; ws_waitOnce : once;
  ws_threads : list thread;
  ws_misused : bool;                                  (* a closed handle was used, or closed again *)
}.

Definition reading (t : thread) : bool := match t with ResizeCheck | ResizeCall | ResizeRUnlock => true | _ => false end.
Definition no_readers (s : windowsShell) : bool := forallb (λ t, negb (reading t)) (ws_threads s).

(** The shell after a start, with the goroutines that will use it. *)
Definition new_shell (ts : list thread) : windowsShell :=
  {| ws_console := true; ws_in := true; ws_out := true; ws_closed := false; ws_writer := None; ws_procMu := None; ws_process := true;
     ws_handle := true; ws_alive := true; ws_closeOnce := Fresh; ws_waitOnce := Fresh; ws_threads := ts; ws_misused := false |}.

Definition at_ (j : nat) (t : thread) (s : windowsShell) : windowsShell :=
  {| ws_console := ws_console s; ws_in := ws_in s; ws_out := ws_out s; ws_closed := ws_closed s; ws_writer := ws_writer s;
     ws_procMu := ws_procMu s; ws_process := ws_process s; ws_handle := ws_handle s; ws_alive := ws_alive s; ws_closeOnce := ws_closeOnce s;
     ws_waitOnce := ws_waitOnce s; ws_threads := <[j := t]> (ws_threads s); ws_misused := ws_misused s |}.
Definition set_mu (closed : bool) (writer : option nat) (s : windowsShell) : windowsShell :=
  {| ws_console := ws_console s; ws_in := ws_in s; ws_out := ws_out s; ws_closed := closed; ws_writer := writer;
     ws_procMu := ws_procMu s; ws_process := ws_process s; ws_handle := ws_handle s; ws_alive := ws_alive s; ws_closeOnce := ws_closeOnce s;
     ws_waitOnce := ws_waitOnce s; ws_threads := ws_threads s; ws_misused := ws_misused s |}.
Definition set_proc (mu : option nat) (process handle alive : bool) (s : windowsShell) : windowsShell :=
  {| ws_console := ws_console s; ws_in := ws_in s; ws_out := ws_out s; ws_closed := ws_closed s; ws_writer := ws_writer s;
     ws_procMu := mu; ws_process := process; ws_handle := handle; ws_alive := alive; ws_closeOnce := ws_closeOnce s;
     ws_waitOnce := ws_waitOnce s; ws_threads := ws_threads s; ws_misused := ws_misused s |}.
Definition set_pipes (console in_ out : bool) (s : windowsShell) : windowsShell :=
  {| ws_console := console; ws_in := in_; ws_out := out; ws_closed := ws_closed s; ws_writer := ws_writer s;
     ws_procMu := ws_procMu s; ws_process := ws_process s; ws_handle := ws_handle s; ws_alive := ws_alive s; ws_closeOnce := ws_closeOnce s;
     ws_waitOnce := ws_waitOnce s; ws_threads := ws_threads s; ws_misused := ws_misused s |}.
Definition set_once (close wait : once) (s : windowsShell) : windowsShell :=
  {| ws_console := ws_console s; ws_in := ws_in s; ws_out := ws_out s; ws_closed := ws_closed s; ws_writer := ws_writer s;
     ws_procMu := ws_procMu s; ws_process := ws_process s; ws_handle := ws_handle s; ws_alive := ws_alive s; ws_closeOnce := close;
     ws_waitOnce := wait; ws_threads := ws_threads s; ws_misused := ws_misused s |}.
(** The use of something that has to be open. *)
Definition use (open : bool) (s : windowsShell) : windowsShell :=
  {| ws_console := ws_console s; ws_in := ws_in s; ws_out := ws_out s; ws_closed := ws_closed s; ws_writer := ws_writer s;
     ws_procMu := ws_procMu s; ws_process := ws_process s; ws_handle := ws_handle s; ws_alive := ws_alive s; ws_closeOnce := ws_closeOnce s;
     ws_waitOnce := ws_waitOnce s; ws_threads := ws_threads s; ws_misused := ws_misused s || negb open |}.

(** The next step of a goroutine; [None] while it has to wait, and at its end.  Nobody can be
    counted on to read on, so [ClosePseudoConsole] may wait for ever while the output is
    open; how a termination fails is among the steps below. *)
Definition shell_step (j : nat) (s : windowsShell) : option windowsShell :=
  let lock_proc t := match ws_procMu s with None => Some (at_ j t (set_proc (Some j) (ws_process s) (ws_handle s) (ws_alive s) s)) | Some _ => None end in
  let unlock_proc t := Some (at_ j t (set_proc None (ws_process s) (ws_handle s) (ws_alive s) s)) in
  match ws_threads s !! j with
  | None => None
  | Some t =>
      match t with
      (* Resize *)
      | ResizeRLock => match ws_writer s with None => Some (at_ j ResizeCheck s) | Some _ => None end
      | ResizeCheck => Some (at_ j (if ws_closed s then ResizeRUnlock else ResizeCall) s)
      | ResizeCall => Some (at_ j ResizeRUnlock (use (ws_console s) s))
      | ResizeRUnlock => Some (at_ j ResizeDone s)
      | ResizeDone => None
      (* Close *)
      | CloseOnce =>
          match ws_closeOnce s with
          | Fresh => Some (at_ j CloseLock (set_once (Running j) (ws_waitOnce s) s))
          | Running _ => None
          | Finished => Some (at_ j CloseDone s)
          end
      | CloseLock => match ws_writer s with
                     | None => if no_readers s then Some (at_ j CloseMark (set_mu (ws_closed s) (Some j) s)) else None
                     | Some _ => None
                     end
      | CloseMark => Some (at_ j CloseUnlock (set_mu true (ws_writer s) s))
      | CloseUnlock => Some (at_ j CloseProcLock (set_mu (ws_closed s) None s))
      | CloseProcLock => lock_proc CloseTerminate
      | CloseTerminate =>
          if ws_process s then Some (at_ j CloseIn (set_proc None true (ws_handle s) false (use (ws_handle s) s))) else unlock_proc CloseIn
      | CloseIn => Some (at_ j CloseOut (set_pipes (ws_console s) false (ws_out s) (use (ws_in s) s)))
      | CloseOut => Some (at_ j CloseConsole (set_pipes (ws_console s) (ws_in s) false (use (ws_out s) s)))
      | CloseConsole =>
          if ws_out s then None
          else Some (at_ j CloseDone (set_once Finished (ws_waitOnce s) (set_pipes false (ws_in s) (ws_out s) (use (ws_console s) s))))
      | CloseDone => None
      (* Wait *)
      | WaitOnce =>
          match ws_waitOnce s with
          | Fresh => Some (at_ j WaitProcLock (set_once (ws_closeOnce s) (Running j) s))
          | Running _ => None
          | Finished => Some (at_ j WaitDone s)
          end
      | WaitProcLock => lock_proc WaitRead
      | WaitRead => unlock_proc WaitObject
      | WaitObject => if ws_alive s then None else Some (at_ j WaitExitCode (use (ws_handle s) s))
      | WaitExitCode => Some (at_ j WaitReleaseLock (use (ws_handle s) s))
      | WaitReleaseLock => lock_proc WaitCloseHandle
      | WaitCloseHandle =>
          if ws_process s then Some (at_ j WaitZero (set_proc (ws_procMu s) true false (ws_alive s) (use (ws_handle s) s)))
          else Some (at_ j WaitDone (set_once (ws_closeOnce s) Finished (set_proc None false (ws_handle s) (ws_alive s) s)))
      | WaitZero => Some (at_ j WaitDone (set_once (ws_closeOnce s) Finished (set_proc None false (ws_handle s) (ws_alive s) s)))
      | WaitDone => None
      end
  end.

(** A goroutine's step, the end of the shell by itself, and, where the system may fail, a wait
    for it or a termination that fails. *)
Inductive sstep (may_fail : bool) : windowsShell → windowsShell → Prop :=
  | sstep_thread j s s' : shell_step j s = Some s' → sstep may_fail s s'
  | sstep_exit s : ws_alive s = true → sstep may_fail s (set_proc (ws_procMu s) (ws_process s) (ws_handle s) false s)
  | sstep_wait_fails j s : may_fail = true → ws_threads s !! j = Some WaitObject → sstep may_fail s (at_ j WaitReleaseLock (use (ws_handle s) s))
  | sstep_terminate_fails j s : may_fail = true → ws_threads s !! j = Some CloseTerminate → ws_process s = true →
      sstep may_fail s (at_ j CloseIn (set_proc None true (ws_handle s) (ws_alive s) (use (ws_handle s) s))).

(** How every goroutine begins. *)
Definition begins (t : thread) : bool := match t with ResizeRLock | CloseOnce | WaitOnce => true | _ => false end.
Definition ended (t : thread) : bool := match t with ResizeDone | CloseDone | WaitDone => true | _ => false end.

(** ** The Unix shell *)

(** What is left of it: the answers its two onces keep, and whether bash runs and the terminal
    is open. *)
Record unixShell := { us_waited : option (option error); us_closeDone : option (option error); us_running : bool; us_ptmx : bool; us_reaped : nat }.
Definition unix_shell : unixShell := {| us_waited := None; us_closeDone := None; us_running := true; us_ptmx := true; us_reaped := 0 |}.

(** [Wait], once bash has ended; [exit] is what it ended with. *)
Definition unix_Wait (exit : option error) (s : unixShell) : option error * unixShell :=
  match us_waited s with
  | Some e => (e, s)
  | None => (exit, {| us_waited := Some exit; us_closeDone := us_closeDone s; us_running := false; us_ptmx := us_ptmx s; us_reaped := S (us_reaped s) |})
  end.

(** [Close] kills bash, reaps it and closes the terminal; [closing] is the answer of that. *)
Definition unix_Close (killed closing : option error) (s : unixShell) : option error * unixShell :=
  match us_closeDone s with
  | Some e => (e, s)
  | None =>
      let s := (unix_Wait killed s).2 in
      (closing, {| us_waited := us_waited s; us_closeDone := Some closing; us_running := us_running s; us_ptmx := false; us_reaped := us_reaped s |})
  end.

(** * What the shells guarantee *)

(** ** A start that fails *)

Section starting.
Context `{ShellHost}.
Variable en : start_env.
Hypothesis alone : ∀ lg hs, interfere en lg hs = hs.
#[local] Set Default Proof Using "Type*".

Definition leaves {A} (m : Start A) (hs : list handle) (Q : outcome A → list handle → Prop) : Prop :=
  ∀ st, world st = hs → Q (m en st).1 (world (m en st).2).

Lemma leaves_bind {A B} (m : Start A) (f : A → Start B) hs R Q : leaves m hs R →
  (∀ a hs', R (Ok a) hs' → leaves (f a) hs' Q) → (∀ e hs', R (Err e) hs' → Q (Err e) hs') → (∀ hs', R Panic hs' → Q Panic hs') → (∀ hs', R Hang hs' → Q Hang hs') →
  leaves (bind m f) hs Q.
Proof.
  intros Hm Ha He Hp Hh st Hst. unfold bind. specialize (Hm st Hst). destruct (m en st) as [[a|e| |] st']; cbn in *; [|by apply He|by apply Hp|by apply Hh].
  by apply (Ha a (world st')).
Qed.

Lemma leaves_call {T B} (c : StartCall T) (f : T → Start B) hs Q : (∀ r, leaves (f r) hs Q) → leaves (bind (call c) f) hs Q.
Proof. intros Hf st Hst. unfold bind, call. cbn. apply Hf. cbn. by rewrite alone. Qed.

Lemma leaves_modify {B} g (f : unit → Start B) hs Q : leaves (f tt) (g hs) Q → leaves (bind (modify g) f) hs Q.
Proof. intros Hf st Hst. unfold bind, modify. cbn. apply Hf. cbn. by rewrite Hst. Qed.

Lemma leaves_modify_last g hs (Q : outcome unit → list handle → Prop) : Q (Ok tt) (g hs) → leaves (modify g) hs Q.
Proof. intros HQ st Hst. cbn. by rewrite Hst. Qed.

Lemma leaves_ret {A} (a : A) hs (Q : outcome A → list handle → Prop) : Q (Ok a) hs → leaves (ret a) hs Q.
Proof. intros HQ st Hst. cbn. by rewrite Hst. Qed.

Lemma leaves_throw {A} e hs (Q : outcome A → list handle → Prop) : Q (Err e) hs → leaves (throw e) hs Q.
Proof. intros HQ st Hst. cbn. by rewrite Hst. Qed.

Lemma leaves_failing {A B} text (c : StartCall (A + error)) (f : A → Start B) hs Q :
  (∀ a, leaves (f a) hs Q) → (∀ e, Q (Err e) hs) → leaves (bind (failing text c) f) hs Q.
Proof.
  intros Hf He st Hst. unfold failing, bind, call. cbn. destruct (answer en _ c (log st)) as [a|e]; cbn; [apply Hf; cbn; by rewrite alone|].
  rewrite alone, Hst. apply He.
Qed.

Lemma leaves_ret_then {A B} (a : A) (f : A → Start B) hs Q : leaves (f a) hs Q → leaves (bind (ret a) f) hs Q.
Proof. done. Qed.

(** The outcomes a start may have: a failure that leaves what was open, or success. *)
Definition clean_or (hs extra : list handle) {A} : outcome A → list handle → Prop := λ o hs', match o with
  | Ok _ => hs' = extra ++ hs
  | Err _ => hs' = hs
  | Panic | Hang => False
  end.

Lemma command_line_leaves hs : leaves shellCommandLine hs (clean_or hs []).
Proof.
  unfold shellCommandLine. apply leaves_call. intros [p|e]; [by apply leaves_ret|]. apply leaves_call. intros [p|e']; [by apply leaves_ret|].
  apply leaves_call. intros root. apply leaves_call. intros [u|e2]; [by apply leaves_ret|]. apply leaves_call. intros [p|e3]; [by apply leaves_ret|by apply leaves_throw].
Qed.

Lemma attached_leaves line hs : leaves (startAttachedProcess line) hs (clean_or hs [Process]).
Proof.
  unfold startAttachedProcess. apply leaves_failing; [|done]. intros _. apply leaves_modify.
  intros st Hst. unfold finally.
  assert (leaves (failing "terminal: failed to attach the pseudoconsole to the shell" UpdateAttribute;;
    failing "terminal: failed to encode the shell command line" (UTF16 line);;
    failing "terminal: failed to start the shell" (CreateProcess line);; opened Process;; opened MainThread;; close MainThread) (Attributes :: hs)
    (λ o hs', match o with Ok _ => hs' = Process :: Attributes :: hs | Err _ => hs' = Attributes :: hs | _ => False end)) as Hb.
  { apply leaves_failing; [intros _|done]. apply leaves_failing; [intros _|done]. apply leaves_failing; [intros _|done].
    apply leaves_modify, leaves_modify, leaves_modify_last. cbn. done. }
  specialize (Hb st Hst). destruct (bind _ _ en st) as [[a|e| |] st']; cbn in *; [by rewrite Hb|by rewrite Hb|done..].
Qed.

(** C15: a shell that cannot be started leaves no handle behind, wherever the start breaks off;
    one that is started keeps exactly its two pipe ends, its console and its process. *)
Theorem start_leaks_nothing st : ∀ o st', startHostShell en st = (o, st') →
  match o with Ok _ => Permutation (world st') ([ShellIn; ShellOut; Console; Process] ++ world st) | Err _ => world st' = world st | _ => False end.
Proof.
  intros o st' Hs. assert (leaves startHostShell (world st) (clean_or (world st) [Process; Console; ShellOut; ShellIn])) as Hl.
  { unfold startHostShell. apply leaves_call. intros available. destruct (negb _); [by apply leaves_throw|].
    eapply leaves_bind; [apply command_line_leaves| |cbn; done..]. intros line hs' ->. cbn [app]. apply leaves_failing; [|done]. intros _.
    apply leaves_modify, leaves_modify, leaves_call. intros [u|e]; [|by apply leaves_modify, leaves_modify, leaves_throw].
    apply leaves_modify, leaves_modify, leaves_call. intros _. apply leaves_call. intros _. apply leaves_call. intros created.
    destruct created as [u'|e]; cbn [decide].
    - apply leaves_modify, leaves_modify, leaves_modify. cbn.
      eapply leaves_bind with (R := λ o hs', match o with Ok (inl _) => hs' = [Process; Console; ShellOut; ShellIn] ++ world st
        | Ok (inr _) => hs' = [Console; ShellOut; ShellIn] ++ world st | _ => False end); [|intros [v|e] hs' ->|cbn; done..].
      + intros st0 H0. unfold try_. pose proof (attached_leaves line _ st0 H0) as Ha. destruct (startAttachedProcess line en st0) as [[a|e| |] st1]; cbn in *; done.
      + by apply leaves_ret.
      + cbn. by apply leaves_modify, leaves_modify, leaves_modify, leaves_throw.
    - apply leaves_ret_then, leaves_modify, leaves_modify, leaves_modify, leaves_modify, leaves_throw. done. }
  specialize (Hl st eq_refl). rewrite Hs in Hl. cbn in Hl. destruct o; try done. rewrite Hl. solve_Permutation.
Qed.
End starting.

(** ** Goroutines that share a shell *)

Definition closing (t : thread) : bool :=
  match t with CloseLock | CloseMark | CloseUnlock | CloseProcLock | CloseTerminate | CloseIn | CloseOut | CloseConsole => true | _ => false end.
Definition waiting (t : thread) : bool :=
  match t with WaitProcLock | WaitRead | WaitObject | WaitExitCode | WaitReleaseLock | WaitCloseHandle | WaitZero => true | _ => false end.
Definition has_proc (t : thread) : bool := match t with CloseTerminate | WaitRead | WaitCloseHandle | WaitZero => true | _ => false end.
Definition writing (t : thread) : bool := match t with CloseMark | CloseUnlock => true | _ => false end.
Definition marked (t : thread) : bool :=
  match t with CloseUnlock | CloseProcLock | CloseTerminate | CloseIn | CloseOut | CloseConsole => true | _ => false end.
Definition terminated (t : thread) : bool := match t with CloseIn | CloseOut | CloseConsole => true | _ => false end.
Definition calling (t : thread) : bool := match t with ResizeCall => true | _ => false end.
Definition in_closed (t : thread) : bool := match t with CloseOut | CloseConsole => true | _ => false end.
Definition out_closed (t : thread) : bool := match t with CloseConsole => true | _ => false end.
Definition handle_closed (t : thread) : bool := match t with WaitZero => true | _ => false end.
Definition waited (t : thread) : bool := match t with WaitExitCode | WaitReleaseLock | WaitCloseHandle | WaitZero => true | _ => false end.

(** What the place of a goroutine says of the shell it shares. *)
Record thread_ok (f : bool) (s : windowsShell) (j : nat) (t : thread) : Prop := {
  tk_reading : reading t = true → ws_writer s = None;
  tk_call : calling t = true → ws_closed s = false ∧ ws_writer s = None;
  tk_closing : closing t = true → ws_closeOnce s = Running j;
  tk_waiting : waiting t = true → ws_waitOnce s = Running j ∧ ws_process s = true;
  tk_proc : has_proc t = true → ws_procMu s = Some j;
  tk_writing : writing t = true → ws_writer s = Some j;
  tk_marked : marked t = true → ws_closed s = true;
  tk_terminated : terminated t = true → f = false → ws_alive s = false;
  tk_pipes : closing t = true → ws_in s = negb (in_closed t) ∧ ws_out s = negb (out_closed t);
  tk_handle : waiting t = true → ws_handle s = negb (handle_closed t);
  tk_done : t = CloseDone → ws_closeOnce s = Finished;
  tk_reaped : t = WaitDone → ws_waitOnce s = Finished;
  tk_gone : waited t = true → f = false → ws_alive s = false;
}.

(** What holds of the shell itself; [holders] name the goroutines behind the locks. *)
Record shell_ok (f : bool) (s : windowsShell) : Prop := {
  sk_fine : ws_misused s = false;
  sk_console : ws_console s = true ↔ ws_closeOnce s ≠ Finished;
  sk_closed : ws_closeOnce s = Finished → ws_closed s = true ∧ ws_in s = false ∧ ws_out s = false ∧ (f = false → ws_alive s = false);
  sk_fresh : ws_closeOnce s = Fresh → ws_in s = true ∧ ws_out s = true;
  sk_unwaited : ws_waitOnce s = Fresh → ws_process s = true ∧ ws_handle s = true;
  sk_waited : ws_waitOnce s = Finished → ws_process s = false ∧ ws_handle s = false ∧ (f = false → ws_alive s = false);
  sk_threads : ∀ j t, ws_threads s !! j = Some t → thread_ok f s j t;
  sk_writer : ∀ j, ws_writer s = Some j → ∃ t, ws_threads s !! j = Some t ∧ writing t = true;
  sk_procMu : ∀ j, ws_procMu s = Some j → ∃ t, ws_threads s !! j = Some t ∧ has_proc t = true;
  sk_closer : ∀ j, ws_closeOnce s = Running j → ∃ t, ws_threads s !! j = Some t ∧ closing t = true;
  sk_waiter : ∀ j, ws_waitOnce s = Running j → ∃ t, ws_threads s !! j = Some t ∧ waiting t = true;
}.

Lemma shell_ok_new f ts : Forall (λ t, begins t = true) ts → shell_ok f (new_shell ts).
Proof.
  intros Hb. split; try done. intros j t Ht. assert (begins t = true) as Hbt by (by eapply (Forall_lookup_1 _ _ _ _ Hb)). by destruct t.
Qed.

Lemma no_readers_lookup s j t : no_readers s = true → ws_threads s !! j = Some t → reading t = false.
Proof.
  intros Hn Ht. apply list_elem_of_lookup_2 in Ht. unfold no_readers in Hn. rewrite forallb_forall in Hn. apply list_elem_of_In in Ht.
  by apply negb_true_iff, Hn.
Qed.

Lemma lookup_at {s : windowsShell} {j t k u} : ws_threads s !! j = Some t → ∀ t', <[j := t']> (ws_threads s) !! k = Some u →
  (k = j ∧ u = t') ∨ (k ≠ j ∧ ws_threads s !! k = Some u).
Proof.
  intros Ht t' Hk. destruct (decide (k = j)) as [->|Hn]; [left; rewrite list_lookup_insert_eq in Hk by (by eapply lookup_lt_Some); by injection Hk|right].
  by rewrite list_lookup_insert_ne in Hk by done.
Qed.

Lemma holder_at {P : thread → bool} {s : windowsShell} {j t k} t' : ws_threads s !! j = Some t →
  (∃ u, ws_threads s !! k = Some u ∧ P u = true) → (P t = true → P t' = true) → ∃ u, <[j := t']> (ws_threads s) !! k = Some u ∧ P u = true.
Proof.
  intros Ht (u & Hu & HP) Hj. destruct (decide (k = j)) as [->|Hn].
  - exists t'. split; [by rewrite list_lookup_insert_eq by (by eapply lookup_lt_Some)|]. apply Hj. congruence.
  - exists u. by rewrite list_lookup_insert_ne.
Qed.

Lemma holder_new {P : thread → bool} {s : windowsShell} {j t} t' : ws_threads s !! j = Some t → P t' = true →
  ∃ u, <[j := t']> (ws_threads s) !! j = Some u ∧ P u = true.
Proof. intros Ht HP. exists t'. split; [by rewrite list_lookup_insert_eq by (by eapply lookup_lt_Some)|done]. Qed.

Ltac use_facts := repeat match goal with H : ?P → _, H' : ?P |- _ => match type of P with Prop => specialize (H H') end | H : ?x = ?x → _ |- _ => specialize (H eq_refl)
  | H : _ ∧ _ |- _ => destruct H end.

Section shell_facts.
Variable f : bool.
Variable s : windowsShell.
Hypothesis ok : shell_ok f s.
#[local] Set Default Proof Using "Type*".

Lemma console_open : ws_closed s = false → ws_console s = true.
Proof. intros Hc. apply (sk_console f s ok). intros E. destruct (sk_closed f s ok E) as [H _]. congruence. Qed.

(** Who has the lock of the process, and is not closing its handle, finds it open. *)
Lemma handle_open j t : ws_threads s !! j = Some t → has_proc t = true → handle_closed t = false → ws_process s = true → ws_handle s = true.
Proof.
  intros Ht Hp Hh Hz. destruct (ws_waitOnce s) as [|k|] eqn:Hw.
  - by destruct (sk_unwaited f s ok Hw).
  - destruct (sk_waiter f s ok k Hw) as (u & Hu & Hwu). pose proof (sk_threads f s ok k u Hu) as Hk.
    rewrite (tk_handle _ _ _ _ Hk Hwu). destruct u; try done. exfalso.
    pose proof (tk_proc _ _ _ _ Hk eq_refl). pose proof (tk_proc _ _ _ _ (sk_threads f s ok j t Ht) Hp). assert (k = j) as -> by congruence. by simplify_eq.
  - destruct (sk_waited f s ok Hw) as [H _]. congruence.
Qed.

Lemma zero_is_gone : ws_process s = false → f = false → ws_alive s = false.
Proof.
  intros Hz Hf. destruct (ws_waitOnce s) as [|k|] eqn:Hw.
  - destruct (sk_unwaited f s ok Hw). congruence.
  - destruct (sk_waiter f s ok k Hw) as (u & Hu & Hwu). destruct (tk_waiting _ _ _ _ (sk_threads f s ok k u Hu) Hwu). congruence.
  - destruct (sk_waited f s ok Hw) as (_ & _ & H). by apply H.
Qed.
End shell_facts.

Ltac other_thread :=
  split; cbn; intros; use_facts; repeat split; try congruence; try done; eauto;
  match goal with Hn : no_readers _ = true, Hu : _ !! _ = Some ?u |- _ => pose proof (no_readers_lookup _ _ _ Hn Hu); destruct u; discriminate end.

Lemma shell_ok_step f s s' j : shell_ok f s → shell_step j s = Some s' → shell_ok f s'.
Proof.
  intros Hok Hs. unfold shell_step in Hs. destruct (ws_threads s !! j) as [t|] eqn:Ht; [|done].
  pose proof (console_open f s Hok) as Hcon. pose proof (handle_open f s Hok j t Ht) as Hhan. pose proof (zero_is_gone f s Hok) as Hgone.
  destruct Hok. pose proof (sk_threads0 j t Ht) as Hj.
  destruct t; repeat first [split_match_in Hs | discriminate Hs]; injection Hs as <-; destruct Hj; cbn in *; use_facts; split; cbn.
  all: try (intros k u Hk; destruct (lookup_at Ht _ Hk) as [[-> ->]|[Hn Hu]]; [|pose proof (sk_threads0 k u Hu) as Hu'; destruct Hu']; other_thread).
  all: try done; try congruence.
  all: try (intros k Hk; first [injection Hk as <-; apply (holder_new _ Ht); reflexivity | apply (holder_at _ Ht); [by eauto|done]]).
  all: intros; use_facts; try done; try congruence.
  all: try (rewrite sk_fine0; apply negb_false_iff; congruence).
  all: try (rewrite sk_fine0; apply negb_false_iff, sk_console0; congruence).
  split; [done|]. intros _. apply sk_console0. congruence.
Qed.

Lemma shell_ok_sstep f s s' : shell_ok f s → sstep f s s' → shell_ok f s'.
Proof.
  intros Hok Hs. destruct Hs as [j s s' Hs|s Ha|j s Hf Ht|j s Hf Ht Hp]; [by eapply shell_ok_step| | |].
  - destruct Hok. split; cbn; try done; [intros E; by destruct (sk_closed0 E) as (? & ? & ? & ?)|intros E; by destruct (sk_waited0 E) as (? & ? & ?)|].
    intros k u Hu. destruct (sk_threads0 k u Hu). by split.
  - destruct Hok. pose proof (sk_threads0 j _ Ht) as Hj. destruct Hj. cbn in *. use_facts. split; cbn; try done.
    1: rewrite sk_fine0; apply negb_false_iff; congruence.
    1: intros k u Hk; destruct (lookup_at Ht _ Hk) as [[-> ->]|[Hn Hu]]; [|pose proof (sk_threads0 k u Hu) as Hu'; destruct Hu'];
      split; cbn; intros; use_facts; try congruence; done.
    all: intros k Hk; apply (holder_at _ Ht); [by eauto|done].
  - pose proof (handle_open f s Hok j _ Ht eq_refl eq_refl Hp) as Hhan.
    destruct Hok. pose proof (sk_threads0 j _ Ht) as Hj. destruct Hj. cbn in *. use_facts. split; cbn; try done.
    1: rewrite sk_fine0; apply negb_false_iff; congruence.
    all: try (intros k u Hk; destruct (lookup_at Ht _ Hk) as [[-> ->]|[Hn Hu]]; [|pose proof (sk_threads0 k u Hu) as Hu'; destruct Hu'];
      split; cbn; intros; use_facts; repeat split; try congruence; done).
    all: try (intros E; by destruct (sk_unwaited0 E)).
    all: try (intros E; destruct (sk_waited0 E); congruence).
    all: intros k Hk; apply (holder_at _ Ht); [by eauto|done].
Qed.

Lemma shell_ok_reached f ts s : Forall (λ t, begins t = true) ts → rtc (sstep f) (new_shell ts) s → shell_ok f s.
Proof. intros Hb. revert s. apply rtc_ind_r; [by apply shell_ok_new|]. intros s s' _ Hs Hok. by eapply shell_ok_sstep. Qed.

(** C13: whatever goroutines resize, wait for and close a shell, in whatever order their steps
    fall and whenever the shell ends, none of them uses a handle that was closed or closes one
    twice; and when a close has returned, the pipes and the console are closed and, unless a
    wait or the termination may fail, the shell has ended. *)
Theorem shell_never_misused may_fail ts s : Forall (λ t, begins t = true) ts → rtc (sstep may_fail) (new_shell ts) s →
  ws_misused s = false
  ∧ ∀ j, ws_threads s !! j = Some CloseDone → ws_console s = false ∧ ws_in s = false ∧ ws_out s = false ∧ (may_fail = false → ws_alive s = false).
Proof.
  intros Hb Hr. pose proof (shell_ok_reached _ _ _ Hb Hr) as Hok. split; [apply Hok|]. intros j Hj.
  pose proof (tk_done _ _ _ _ (sk_threads _ _ Hok j _ Hj) eq_refl) as Hf. destruct (sk_closed _ _ Hok Hf) as (_ & Hi & Ho & Ha).
  split; [|done]. destruct (ws_console s) eqn:Hc; [|done]. by apply (sk_console _ _ Hok) in Hc.
Qed.

(** *** Every goroutine comes to its end *)

Inductive doing := Resizing | Closing | AwaitingExit.
Definition kind (t : thread) : doing :=
  match t with
  | ResizeRLock | ResizeCheck | ResizeCall | ResizeRUnlock | ResizeDone => Resizing
  | CloseOnce | CloseLock | CloseMark | CloseUnlock | CloseProcLock | CloseTerminate | CloseIn | CloseOut | CloseConsole | CloseDone => Closing
  | _ => AwaitingExit
  end.
Definition rank (t : thread) : nat :=
  match t with
  | ResizeDone | CloseDone | WaitDone => 0
  | ResizeRUnlock | CloseConsole | WaitZero => 1 | ResizeCall | CloseOut | WaitCloseHandle => 2 | ResizeCheck | CloseIn | WaitReleaseLock => 3
  | ResizeRLock | CloseTerminate | WaitExitCode => 4 | CloseProcLock | WaitObject => 5 | CloseUnlock | WaitRead => 6
  | CloseMark | WaitProcLock => 7 | CloseLock | WaitOnce => 8 | CloseOnce => 9
  end.
Definition left_to_do (s : windowsShell) : nat := sum_list (rank <$> ws_threads s) + (if ws_alive s then 1 else 0).

Lemma shell_step_shape j s s' : shell_step j s = Some s' →
  ∃ t t', ws_threads s !! j = Some t ∧ ws_threads s' = <[j := t']> (ws_threads s) ∧ kind t' = kind t ∧ rank t' < rank t ∧ (ws_alive s' = true → ws_alive s = true).
Proof.
  unfold shell_step. destruct (ws_threads s !! j) as [t|] eqn:Ht; [|done]. intros Hs. exists t.
  destruct t; repeat first [split_match_in Hs | discriminate Hs]; injection Hs as <-; eexists; (split; [done|]); (split; [reflexivity|]);
    cbn; repeat split; first [lia|done|congruence].
Qed.

Lemma rank_insert (l : list thread) j t t' : l !! j = Some t → rank t' < rank t → sum_list (rank <$> <[j := t']> l) < sum_list (rank <$> l).
Proof.
  intros Hl Hr. rewrite insert_take_drop by (by eapply lookup_lt_Some). rewrite <- (take_drop_middle l j t Hl) at 3.
  rewrite !fmap_app, !sum_list_with_app || rewrite !fmap_app, !sum_list_app. cbn. lia.
Qed.

Lemma sstep_decreases f s s' : sstep f s s' → left_to_do s' < left_to_do s.
Proof.
  intros [j s1 s2 Hs|s1 Ha|j s1 _ Ht|j s1 _ Ht _].
  - destruct (shell_step_shape _ _ _ Hs) as (t & t' & Ht & E & _ & Hr & Ha). pose proof (rank_insert _ _ _ _ Ht Hr) as Hd. unfold left_to_do. rewrite E.
    destruct (ws_alive s2); [rewrite Ha by done; lia|]. destruct (ws_alive s1); lia.
  - unfold left_to_do. cbn. rewrite Ha. lia.
  - pose proof (rank_insert _ _ _ WaitReleaseLock Ht ltac:(cbn; lia)). unfold left_to_do. cbn. lia.
  - pose proof (rank_insert _ _ _ CloseIn Ht ltac:(cbn; lia)). unfold left_to_do. cbn. lia.
Qed.

Lemma steps_bounded f n s s' : nsteps (sstep f) n s s' → (n + left_to_do s' ≤ left_to_do s)%nat.
Proof. induction 1 as [|n s s1 s2 Hs Hn IH]; [lia|]. apply sstep_decreases in Hs. lia. Qed.

Lemma ranks_bound ts : (sum_list (rank <$> ts) ≤ 9 * length ts)%nat.
Proof. induction ts as [|t ts IH]; cbn; [lia|]. assert (rank t ≤ 9)%nat by (destruct t; cbn; lia). lia. Qed.

(** Somebody closes the shell. *)
Definition has_closer (s : windowsShell) : Prop := ∃ j t, ws_threads s !! j = Some t ∧ kind t = Closing.

Lemma has_closer_step f s s' : has_closer s → sstep f s s' → has_closer s'.
Proof.
  intros Hh Hs. destruct Hs as [j s1 s2 Hs|s1 Ha|j s1 Hf Ht|j s1 Hf Ht Hp]; destruct Hh as (c & u & Hu & Hk); [|by exists c, u|..].
  - destruct (shell_step_shape _ _ _ Hs) as (t & t' & Ht & E & Hk' & _). unfold has_closer. rewrite E. destruct (decide (c = j)) as [->|Hn].
    + exists j, t'. split; [by rewrite list_lookup_insert_eq by (by eapply lookup_lt_Some)|]. congruence.
    + exists c, u. by rewrite list_lookup_insert_ne.
  - exists c, u. cbn. split; [|done]. rewrite list_lookup_insert_ne; [done|]. intros ->. simplify_eq.
  - exists j, CloseIn. cbn. split; [|done]. by rewrite list_lookup_insert_eq by (by eapply lookup_lt_Some).
Qed.

Section progress.
Variable f : bool.
Variable s : windowsShell.
Hypothesis ok : shell_ok f s.
#[local] Set Default Proof Using "Type*".

Definition can_step : Prop := ∃ j s', shell_step j s = Some s'.

(** All is closed, and whoever has not returned waits for the shell to end. *)
Definition only_exit_awaited : Prop := ws_alive s = true ∧ ws_console s = false ∧ ws_in s = false ∧ ws_out s = false
  ∧ Forall (λ t, ended t = true ∨ t = WaitObject ∨ t = WaitOnce) (ws_threads s).

Ltac steps j Ht := exists j; unfold shell_step; rewrite Ht; eauto.

Lemma proc_holder_steps j : ws_procMu s = Some j → can_step.
Proof.
  intros Hp. destruct (sk_procMu _ _ ok j Hp) as (t & Ht & Hh). exists j. unfold shell_step. rewrite Ht. destruct t; try done; destruct (ws_process s); eauto.
Qed.

Lemma writer_steps j : ws_writer s = Some j → can_step.
Proof. intros Hw. destruct (sk_writer _ _ ok j Hw) as (t & Ht & Hh). exists j. unfold shell_step. rewrite Ht. destruct t; try done; eauto. Qed.

Lemma reader_steps : no_readers s = false → can_step.
Proof.
  unfold no_readers. intros Hn. apply not_true_iff_false in Hn. rewrite forallb_forall in Hn.
  destruct (decide (Exists (λ t, reading t = true) (ws_threads s))) as [He|He].
  - apply Exists_exists in He as (t & Ht & Hr). apply list_elem_of_lookup in Ht as [j Ht]. exists j. unfold shell_step. rewrite Ht. destruct t; try done; eauto.
  - destruct Hn. intros t Ht. apply list_elem_of_In in Ht. apply negb_true_iff. destruct (reading t) eqn:Hr; [|done]. destruct He. apply Exists_exists. eauto.
Qed.

Section free.
Hypothesis Hp : ws_procMu s = None.
Hypothesis Hw : ws_writer s = None.
Hypothesis Hn : no_readers s = true.

Lemma running_closer_steps j t : ws_threads s !! j = Some t → closing t = true → can_step.
Proof.
  intros Ht Hc. pose proof (tk_pipes _ _ _ _ (sk_threads _ _ ok j t Ht) Hc) as [_ Ho]. exists j. unfold shell_step. rewrite Ht, Hp, Hw, Hn.
  destruct t; try done; destruct (ws_process s); cbn in Ho; rewrite ?Ho; eauto.
Qed.

Lemma closer_steps j t : ws_threads s !! j = Some t → kind t = Closing → t ≠ CloseDone → can_step.
Proof.
  intros Ht Hk Hd. destruct (closing t) eqn:Hc; [by eapply running_closer_steps|]. destruct t; try done.
  destruct (ws_closeOnce s) as [|k|] eqn:Ho; [|destruct (sk_closer _ _ ok k Ho) as (u & Hu & Hcu); by eapply running_closer_steps|];
    (exists j; unfold shell_step; rewrite Ht, Ho; eauto).
Qed.

Lemma resizer_steps j t : ws_threads s !! j = Some t → kind t = Resizing → t ≠ ResizeDone → can_step.
Proof. intros Ht Hk Hd. exists j. unfold shell_step. rewrite Ht, Hw. destruct t; try done; eauto. Qed.

Lemma running_waiter_steps j t : ws_threads s !! j = Some t → waiting t = true → t ≠ WaitObject ∨ ws_alive s = false → can_step.
Proof.
  intros Ht Hk Hd. exists j. unfold shell_step. rewrite Ht, Hp. destruct (ws_process s); destruct t; try done; eauto; (destruct Hd as [Hd| ->]; [done|eauto]).
Qed.

Lemma waiter_steps j t : ws_threads s !! j = Some t → kind t = AwaitingExit → t ≠ WaitDone → ws_alive s = false → can_step.
Proof.
  intros Ht Hk Hd Ha. destruct (waiting t) eqn:Hc; [eapply running_waiter_steps; eauto|]. destruct t; try done.
  destruct (ws_waitOnce s) as [|k|] eqn:Ho; [|destruct (sk_waiter _ _ ok k Ho) as (u & Hu & Hcu); eapply running_waiter_steps; eauto|];
    (exists j; unfold shell_step; rewrite Ht, Ho; eauto).
Qed.
End free.

Lemma closed_progress : (∃ j, ws_threads s !! j = Some CloseDone) → ws_alive s = true → ws_procMu s = None → ws_writer s = None →
  no_readers s = true → can_step ∨ f = true ∧ only_exit_awaited.
Proof.
  intros [c Hc] Ha Hp Hw Hn. pose proof (tk_done _ _ _ _ (sk_threads _ _ ok c _ Hc) eq_refl) as Hfin.
  destruct (sk_closed _ _ ok Hfin) as (_ & Hi & Ho & Hf).
  assert (ws_console s = false) as Hcon by (destruct (ws_console s) eqn:E; [by apply (sk_console _ _ ok) in E|done]).
  assert (f = true) as Hft by (destruct f; [done|]; rewrite Hf in Ha by done; done).
  destruct (decide (Forall (λ t, ended t = true ∨ t = WaitObject ∨ t = WaitOnce) (ws_threads s))) as [Hall|He]; [by right|left].
  apply not_Forall_Exists in He; [|intros x; apply _]. apply Exists_exists in He as (t & Ht & Hne). apply list_elem_of_lookup in Ht as [j Ht].
  destruct (kind t) eqn:Hkt; [eapply resizer_steps|eapply closer_steps|eapply running_waiter_steps]; try eassumption; try (intros ->; apply Hne; by left).
  - destruct t; try done; exfalso; apply Hne; auto.
  - left. intros ->. apply Hne. auto.
Qed.

Lemma shell_progress : has_closer s → Forall (λ t, ended t = true) (ws_threads s) ∨ can_step ∨ f = true ∧ only_exit_awaited.
Proof.
  intros (c & u & Hu & Hk). destruct (decide (Forall (λ t, ended t = true) (ws_threads s))) as [Ha|Ha]; [by left|right].
  destruct (ws_procMu s) as [j|] eqn:Hp; [left; by eapply proc_holder_steps|]. destruct (ws_writer s) as [j|] eqn:Hw; [left; by eapply writer_steps|].
  destruct (no_readers s) eqn:Hn; [|left; by apply reader_steps].
  destruct (decide (u = CloseDone)) as [->|Hd]; [|left; by eapply closer_steps].
  destruct (ws_alive s) eqn:Halive; [apply closed_progress; eauto|left].
  apply not_Forall_Exists in Ha; [|intros x; apply _]. apply Exists_exists in Ha as (t & Ht & Hne). apply list_elem_of_lookup in Ht as [j Ht].
  destruct (kind t) eqn:Hkt; [eapply resizer_steps|eapply closer_steps|eapply waiter_steps]; try eassumption; intros ->; by apply Hne.
Qed.
End progress.

(** C14: with a close among them, the goroutines of a shell always finish: they take at most
    nine steps each, whatever fails, and as long as one of them has not returned, some
    goroutine can go on without anybody's help; nobody waits for ever at a lock, at a once, or
    in a [ClosePseudoConsole] that hangs while the output is open.  Only where the termination
    or a wait may fail it can come to this, that all is closed, the shell still runs, and
    whoever has not returned waits for its end; the next step is then the shell's. *)
Theorem shell_close_finishes may_fail ts : Forall (λ t, begins t = true) ts → CloseOnce ∈ ts →
  (∀ n s, nsteps (sstep may_fail) n (new_shell ts) s → (n ≤ 9 * length ts + 1)%nat)
  ∧ ∀ s, rtc (sstep may_fail) (new_shell ts) s →
      Forall (λ t, ended t = true) (ws_threads s) ∨ can_step s ∨ may_fail = true ∧ only_exit_awaited s.
Proof.
  intros Hb Hc. split.
  - intros n s Hn. apply steps_bounded in Hn. pose proof (ranks_bound ts). unfold left_to_do in *. cbn in *. lia.
  - intros s Hr. apply shell_progress; [by eapply shell_ok_reached|]. apply list_elem_of_lookup in Hc as [j Hj].
    revert s Hr. apply rtc_ind_r; [by exists j, CloseOnce|]. intros s s' _ Hs Hh. by eapply has_closer_step.
Qed.

(** ** The Unix shell *)

(** However often it is waited for and closed, bash is reaped once and the answers stay. *)
Lemma unix_reaped_once killed closing exits : let s := (unix_Close killed closing unix_shell).2 in
  (∀ e c, unix_Close e c s = (closing, s)) ∧ (∀ e, unix_Wait e s = (killed, s)) ∧ us_reaped s = 1 ∧ us_running s = false ∧ us_ptmx s = false
  ∧ us_reaped (unix_Close killed closing (unix_Wait exits unix_shell).2).2 = 1.
Proof. done. Qed.

(** ** Concrete shells *)

Definition ex_goroutines : list thread := [WaitOnce; ResizeRLock; CloseOnce; ResizeRLock; CloseOnce].

(** Goroutines that take a step when it is their turn and they can. *)
Fixpoint run_schedule (js : list nat) (s : windowsShell) : windowsShell :=
  match js with
  | [] => s
  | j :: js => run_schedule js (match shell_step j s with Some s' => s' | None => s end)
  end.
Definition rounds (k : nat) : list nat := concat (repeat [0; 1; 2; 3; 4]%nat k).

Lemma run_reached f js : ∀ s, rtc (sstep f) s (run_schedule js s).
Proof.
  induction js as [|j js IH]; intros s; [apply rtc_refl|]. cbn [run_schedule]. destruct (shell_step j s) as [s'|] eqn:Hs; [|apply IH].
  eapply rtc_l; [by eapply sstep_thread|apply IH].
Qed.

Lemma shell_never_misused_witness : let s := run_schedule (rounds 20) (new_shell ex_goroutines) in
  ws_threads s = [WaitDone; ResizeDone; CloseDone; ResizeDone; CloseDone] ∧ ws_misused s = false ∧ ws_console s = false ∧ ws_alive s = false.
Proof.
  intros s. assert (ws_threads s = [WaitDone; ResizeDone; CloseDone; ResizeDone; CloseDone]) as E by (vm_compute; reflexivity).
  assert (Forall (λ t, begins t = true) ex_goroutines) as Hb by (repeat constructor).
  assert (rtc (sstep false) (new_shell ex_goroutines) s) as Hr by apply run_reached.
  destruct (shell_never_misused false ex_goroutines s Hb Hr) as [Hm Hc]. split; [exact E|]. split; [exact Hm|].
  assert (ws_threads s !! 2 = Some CloseDone) as H2 by (rewrite E; reflexivity). destruct (Hc 2 H2) as (H & _ & _ & Ha). split; [exact H|exact (Ha eq_refl)].
Defined.

Lemma shell_close_finishes_witness : can_step (run_schedule (rounds 3) (new_shell ex_goroutines)).
Proof.
  assert (Forall (λ t, begins t = true) ex_goroutines) as Hb by (repeat constructor).
  assert (CloseOnce ∈ ex_goroutines) as Hc by (apply list_elem_of_In; cbn; auto).
  destruct (shell_close_finishes false ex_goroutines Hb Hc) as [_ Hp]. destruct (Hp _ (run_reached false (rounds 3) _)) as [He|[H|[H _]]]; [|exact H|discriminate H].
  exfalso. apply Forall_inv in He. vm_compute in He. discriminate.
Defined.

Definition ex_start (fails : string) : start_env := {|
  answer := λ T c _, match c in StartCall R return R with
    | PseudoConsoleAvailable => true | LookPath f => if String.eqb f "powershell.exe" then inl f else inr (Plain "not found")
    | Getenv _ => "" | StatFile _ => inl tt | Pipe _ _ => inl tt | CloseOnExec _ => tt
    | CreatePseudoConsole _ _ => if String.eqb fails "console" then inr (Plain "no console") else inl tt
    | NewAttributeList => inl tt | UpdateAttribute => inl tt | UTF16 _ => inl tt
    | CreateProcess _ => if String.eqb fails "process" then inr (Plain "no process") else inl tt
    end;
  interfere := λ _ hs, hs |}.
#[local] Instance ex_shell_host : ShellHost := {| ComposeCommandLine := String.concat " "; join_path := String.concat "/" |}.

Lemma start_leaks_nothing_witness : let run := startHostShell (ex_start "process") (mk_state [] []) in
  run.1 = Err (Annotated "terminal: failed to start the shell" (Plain "no process")) ∧ world run.2 = [].
Proof.
  intros run. assert (run = (Err (Annotated "terminal: failed to start the shell" (Plain "no process")), run.2)) as E by (vm_compute; reflexivity).
  split; [rewrite E; reflexivity|]. assert (∀ lg hs, interfere (ex_start "process") lg hs = hs) as Ha by done.
  exact (@start_leaks_nothing ex_shell_host (ex_start "process") Ha (mk_state [] []) _ _ E).
Defined.
