(* ===== verification/OsCalls.v ===== *)
(** * Installing system bundles, and other calls of the system (src/src/system/rauc.go,
      devicestatus.go, nvidia.go, system_unix.go, system_windows.go, filesystem/storage.go)

    The installation of a bundle over D-Bus and the goroutine that reports its progress, which
    share one connection; the device configuration of a payload; the commands that restart; the
    disks. *)
From S2P Require Import Prelude Errdefs GoValue Effects Service.
#[local] Open Scope list_scope.

(** ** Bundles *)

Definition raucDBusInterface : string := "de.pengutronix.rauc".
Definition raucDBusMethodBase : string := raucDBusInterface +:+ ".Installer".
Definition raucDBusMethodInstall : string := raucDBusMethodBase +:+ ".InstallBundle".
Definition raucDBusSignalFinish : string := raucDBusMethodBase +:+ ".Completed".

(** A signal of the connection: its name, and the code its body stores as, if it does. *)
Record signal := { sg_Name : string; sg_Code : Z + error }.
(** What the daemon says of its progress. *)
Record progress := { pg_Percentage : Z; pg_Message : string }.

Inductive install_state := Installing | Returned (e : option error).

Record bundle := {
  bd_install : install_state;
  bd_connected : bool;                     (* closed when the installation returns *)
  bd_reporting : bool;                     (* the goroutine of the progress is still at work *)
  bd_reports : list (string * N);          (* its callbacks, the last first *)
}.

Inductive bundle_event :=
  | SignalArrives (s : option signal)      (* [None]: the channel was closed *)
  | Poll (answer : progress + error).

(** [uint64] of a signed number. *)
Definition as_uint64 (z : Z) : N := Z.to_N (z mod Z.of_N two64)%Z.

Definition connection_closed : error := Plain "dbus: connection closed by user".
Definition no_channel : error := Plain "could not retrieve channel from RAUC DBus".

(** What a signal makes of the installation; [last_error] is asked for after a failure. *)
Definition on_signal (last_error : string + error) (s : option signal) : install_state :=
  match s with
  | None => Returned (Some no_channel)
  | Some s =>
      match sg_Code s with
      | inr e => Returned (Some e)
      | inl code =>
          if negb (code =? 0)%Z then Returned (Some (match last_error with inl text => Plain text | inr e => e end))
          else if String.eqb (sg_Name s) raucDBusSignalFinish then Returned None
          else Installing
      end
  end.

(** One poll of the progress, a fifth of a second after the one before; a failed one counts as
    nothing done. *)
Definition raucReportProgress (answer : progress + error) (b : bundle) : bundle :=
  let answer := if bd_connected b then answer else inr connection_closed in
  let p := match answer with inl p => p | inr _ => {| pg_Percentage := 0; pg_Message := "" |} end in
  {| bd_install := bd_install b; bd_connected := bd_connected b; bd_reporting := (as_uint64 (pg_Percentage p) <? 100)%N;
     bd_reports := (pg_Message p, as_uint64 (pg_Percentage p)) :: bd_reports b |}.

Definition bundle_step (last_error : string + error) (e : bundle_event) (b : bundle) : bundle :=
  match e with
  | SignalArrives s =>
      match bd_install b with
      | Installing =>
          match on_signal last_error s with
          | Installing => b
          | Returned r => {| bd_install := Returned r; bd_connected := false; bd_reporting := bd_reporting b; bd_reports := bd_reports b |}
          end
      | Returned _ => b
      end
  | Poll answer => if bd_reporting b then raucReportProgress answer b else b
  end.
Fixpoint bundle_run (last_error : string + error) (es : list bundle_event) (b : bundle) : bundle :=
  match es with [] => b | e :: es => bundle_run last_error es (bundle_step last_error e b) end.

(** [raucInstallBundle]: without a connection, or when the daemon refuses, nothing is started. *)
Definition raucInstallBundle (connects : unit + error) (accepts : unit + error) : bundle :=
  match connects, accepts with
  | inr _, _ => {| bd_install := Returned (Some (Plain "failed to set up new RAUC DBus instance")); bd_connected := false; bd_reporting := false; bd_reports := [] |}
  | inl _, inr e => {| bd_install := Returned (Some (Plain ("D-Bus call to " +:+ raucDBusMethodInstall +:+ " failed: " +:+ error_text e)));
                       bd_connected := false; bd_reporting := false; bd_reports := [] |}
  | inl _, inl _ => {| bd_install := Installing; bd_connected := true; bd_reporting := true; bd_reports := [] |}
  end.

(** ** The device configuration *)

Record DeviceConfig := { dc_BootConfig : string; dc_Cmdline : string; dc_NetworkInterfaces : string }.

(** The writes are commented out in the code: only the difference is reported. *)
Definition UpdateDeviceConfig (old new : DeviceConfig) : bool :=
  negb (String.eqb (dc_BootConfig old) (dc_BootConfig new)) || negb (String.eqb (dc_Cmdline old) (dc_Cmdline new))
  || negb (String.eqb (dc_NetworkInterfaces old) (dc_NetworkInterfaces new)).

Definition bootConfigPath : string := "/boot/config.txt".
Definition cmdlineConfigPath : string := "/boot/cmdline.txt".
Definition networkInterfacesPath : string := "/etc/network/interfaces".
Definition getDeviceConfig (read : string → string + error) : DeviceConfig + error :=
  match read bootConfigPath with
  | inr e => inr e
  | inl boot =>
      match read cmdlineConfigPath with
      | inr e => inr e
      | inl cmdline => match read networkInterfacesPath with
                       | inr e => inr e
                       | inl interfaces => inl {| dc_BootConfig := boot; dc_Cmdline := cmdline; dc_NetworkInterfaces := interfaces |}
                       end
      end
  end.

Definition bad_dict : error := Plain "failed to parse payload dict".
Definition bad_argument (name : string) : error := Plain ("failed to parse '" +:+ name +:+ "' argument").
(** Two indexings are unguarded. *)
Definition buildDeviceConfigFromPayload (arguments : list goval) : outcome DeviceConfig :=
  match arguments with
  | [] => Panic
  | first :: _ =>
      match as_list first with
      | None => Err bad_dict
      | Some [] => Panic
      | Some (dict :: _) =>
          match as_map dict with
          | None => Err bad_dict
          | Some m =>
              match as_str (map_index "boot_config" m) with
              | None => Err (bad_argument "boot_config")
              | Some boot =>
                  match as_str (map_index "cmdline" m) with
                  | None => Err (bad_argument "cmdline")
                  | Some cmdline => match as_str (map_index "network_interfaces" m) with
                                    | None => Err (bad_argument "network_interfaces")
                                    | Some interfaces => Ok {| dc_BootConfig := boot; dc_Cmdline := cmdline; dc_NetworkInterfaces := interfaces |}
                                    end
                  end
              end
          end
      end
  end.

(** ** Commands *)

Definition command := (string * list string)%type.
Definition Reboot (windows : bool) : command := if windows then ("shutdown", ["/r"; "/t"; "5"]) else ("reboot", []).
Definition Poweroff (windows : bool) : command := if windows then ("shutdown", ["/s"; "/t"; "5"]) else ("poweroff", []).
Definition RestartAgent_unix : command := ("systemctl", ["restart"; "reagent"]).
Definition RestartAgent (b : broker) : broker * option error := RequestRestart "system_restart_agent" b.

(** [output]: what the two commands print, if they succeed. *)
Definition HasNvidiaGPU (lib_exists : bool) (ldconfig model : option string) : bool :=
  lib_exists || match ldconfig with Some out => negb (String.eqb out "") | None => false end
  || match model with Some out => str_contains "nvidia" (to_lower out) | None => false end.

(** ** Disks *)

Record DiskUsage := { du_Filesystem : string; du_SizeInKb : N; du_Used : N; du_Available : N; du_UsePercent : N; du_MountedOn : string }.
Record disk_stat := { ds_Total : N; ds_Used : N; ds_Free : N; ds_Percent : N }.
Fixpoint disk_usages (partitions : list (string * string)) (usage : string → disk_stat + error) : list DiskUsage :=
  match partitions with
  | [] => []
  | (device, mount) :: partitions =>
      match usage mount with
      | inr _ => disk_usages partitions usage
      | inl u => {| du_Filesystem := device; du_SizeInKb := (ds_Total u / 1024)%N; du_Used := (ds_Used u / 1024)%N; du_Available := (ds_Free u / 1024)%N;
                    du_UsePercent := (ds_Percent u mod 256)%N; du_MountedOn := mount |} :: disk_usages partitions usage
      end
  end.
Definition AvailableDiskSpace (partitions : list (string * string) + error) (usage : string → disk_stat + error) : list DiskUsage + error :=
  match partitions with inr e => inr e | inl ps => inl (disk_usages ps usage) end.

(** * What an installation and its report guarantee *)

(** What a poll reports: the message and the percentage of an answer, a negative one as the
    huge number it wraps to; nothing done for a failed poll. *)
Definition nothing_done : string * N := ("", 0%N).
Definition said (answer : progress + error) : string * N :=
  match answer with
  | inl p => (pg_Message p, Z.to_N (if (pg_Percentage p <? 0)%Z then pg_Percentage p + 2 ^ 64 else pg_Percentage p)%Z)
  | inr _ => nothing_done
  end.

(** A poll that ends the report: a hundred percent or more, or less than nothing. *)
Definition final (answer : progress + error) : bool :=
  match answer with inl p => (100 <=? pg_Percentage p)%Z || (pg_Percentage p <? 0)%Z | inr _ => false end.

(** The polls answered while the connection is open. *)
Fixpoint answered (last_error : string + error) (es : list bundle_event) : list (progress + error) :=
  match es with
  | [] => []
  | SignalArrives s :: es => match on_signal last_error s with Installing => answered last_error es | Returned _ => [] end
  | Poll a :: es => a :: answered last_error es
  end.

(** All polls, and those up to the first that ends the report. *)
Fixpoint polls (es : list bundle_event) : nat :=
  match es with [] => O | SignalArrives _ :: es => polls es | Poll _ :: es => S (polls es) end.
Fixpoint until_final (l : list (progress + error)) : list (progress + error) :=
  match l with [] => [] | a :: l => a :: if final a then [] else until_final l end.

(** The percentages are 32-bit numbers. *)
Definition int32_event (e : bundle_event) : Prop :=
  match e with Poll (inl p) => (- 2 ^ 31 ≤ pg_Percentage p < 2 ^ 31)%Z | _ => True end.

Section bundles.
Variable last_error : string + error.

(** The unsigned percentage of a poll. *)
Lemma said_spec p : (- 2 ^ 31 ≤ pg_Percentage p < 2 ^ 31)%Z →
  (pg_Message p, as_uint64 (pg_Percentage p)) = said (inl p) ∧ (as_uint64 (pg_Percentage p) <? 100)%N = negb (final (inl p)).
Proof.
  destruct p as [z m]. cbn. unfold as_uint64. change (Z.of_N two64) with (2 ^ 64)%Z. intros Hz. destruct (Z.ltb_spec z 0) as [Hn|Hn].
  - assert (z mod 2 ^ 64 = z + 2 ^ 64)%Z as -> by (symmetry; apply (Z.mod_unique _ _ (-1)); lia). split; [done|].
    rewrite orb_true_r. apply N.ltb_ge. lia.
  - rewrite Z.mod_small by lia. split; [done|]. rewrite orb_false_r. apply eq_true_iff_eq. rewrite negb_true_iff, N.ltb_lt, Z.leb_gt. lia.
Qed.

(** Without a connection every poll fails, and the report goes on. *)
Lemma closed_reports_for_ever es b : bd_connected b = false → bd_reporting b = true → (∃ r, bd_install b = Returned r) →
  bd_reporting (bundle_run last_error es b) = true ∧ bd_reports (bundle_run last_error es b) = repeat nothing_done (polls es) ++ bd_reports b.
Proof.
  revert b. induction es as [|e es IH]; intros b Hc Hr [r Hi]; [done|]. cbn [bundle_run polls]. destruct e as [s|a]; cbn [bundle_step].
  - rewrite Hi. apply IH; eauto.
  - rewrite Hr. destruct (IH (raucReportProgress a b)) as [H1 H2]; [unfold raucReportProgress; cbn; rewrite ?Hc; eauto..|].
    split; [done|]. rewrite H2. unfold raucReportProgress. rewrite Hc. cbn [bd_reports pg_Message pg_Percentage].
    change (as_uint64 0) with 0%N. fold nothing_done. clear. induction (polls es) as [|n IH]; [done|]. cbn. by rewrite IH.
Qed.

Lemma done_stays es b : bd_reporting b = false →
  bd_reporting (bundle_run last_error es b) = false ∧ bd_reports (bundle_run last_error es b) = bd_reports b.
Proof.
  revert b. induction es as [|e es IH]; intros b Hr; [done|]. cbn [bundle_run]. destruct e; cbn [bundle_step]; [|rewrite Hr; by apply IH].
  destruct (bd_install b); [|by apply IH]. destruct (on_signal _ _); [by apply IH|]. by destruct (IH {| bd_install := Returned e; bd_connected := false; bd_reporting := bd_reporting b; bd_reports := bd_reports b |} Hr).
Qed.

(** What became of the report of an installation that [reports] came before. *)
Definition reported (es : list bundle_event) (reports : list (string * N)) (b : bundle) : Prop :=
  let early := answered last_error es in
  if existsb final early
  then bd_reporting b = false ∧ bd_reports b = rev (map said (until_final early)) ++ reports
  else bd_reporting b = true ∧ bd_reports b = repeat nothing_done (polls es - length early) ++ rev (map said early) ++ reports.

Lemma run_reported es reports : Forall int32_event es →
  reported es reports (bundle_run last_error es {| bd_install := Installing; bd_connected := true; bd_reporting := true; bd_reports := reports |}).
Proof.
  intros Hf. revert reports. induction Hf as [|e es He Hf IH]; intros reports; [done|]. unfold reported in *. cbn [bundle_run answered polls].
  destruct e as [s|a]; cbn [bundle_step bd_install bd_reporting].
  - destruct (on_signal last_error s) as [|r]; [apply IH|]. cbn [existsb]. rewrite Nat.sub_0_r. apply closed_reports_for_ever; [done|done|by eexists].
  - unfold raucReportProgress. cbn [bd_connected bd_install bd_reports]. cbn [existsb map until_final length rev Nat.sub].
    assert (∀ q, (pg_Message q, as_uint64 (pg_Percentage q)) = said a ∧ (as_uint64 (pg_Percentage q) <? 100)%N = negb (final a) →
      reported (Poll a :: es) reports (bundle_run last_error es {| bd_install := Installing; bd_connected := true;
        bd_reporting := (as_uint64 (pg_Percentage q) <? 100)%N; bd_reports := (pg_Message q, as_uint64 (pg_Percentage q)) :: reports |})) as Hgoal.
    { intros q [-> ->]. unfold reported. cbn [answered existsb map until_final length rev polls Nat.sub]. destruct (final a); cbn [negb orb].
      - apply done_stays. done.
      - specialize (IH (said a :: reports)). destruct (existsb _ _); rewrite <- app_assoc; exact IH. }
    destruct a as [p|err]; [apply Hgoal, said_spec, He|]. by apply (Hgoal {| pg_Percentage := 0; pg_Message := "" |}).
Qed.

(** C17: the goroutine that reports an installation calls back with exactly what the daemon
    answers, poll by poll, as long as the installation runs, and ends if and only if one of
    these answers was a hundred percent or more, or negative, which an unsigned number takes
    for a huge one; that answer is its last report. Otherwise it outlives the installation:
    the connection is closed, and every later poll, without end, reports that nothing is done. *)
Theorem report_ends_iff es : Forall int32_event es →
  let b := bundle_run last_error es (raucInstallBundle (inl tt) (inl tt)) in
  let early := answered last_error es in
  (bd_reporting b = false ↔ Exists (λ a, final a = true) early)
  ∧ (bd_reporting b = false → bd_reports b = rev (map said (until_final early)))
  ∧ (bd_reporting b = true → bd_reports b = repeat nothing_done (polls es - length early) ++ rev (map said early)).
Proof.
  intros Hf. pose proof (run_reported es [] Hf) as H. unfold reported in H. cbn. rewrite !app_nil_r in H.
  assert (existsb final (answered last_error es) = true ↔ Exists (λ a, final a = true) (answered last_error es)) as He
    by (rewrite existsb_exists, Exists_exists; by setoid_rewrite list_elem_of_In).
  destruct (existsb _ _) eqn:E; destruct H as [-> ->]; (split; [|by split]); [by rewrite <- He|].
  split; [done|]. intros Hx. by apply He in Hx.
Qed.

(** The installation ends with the first signal that says something; a signal of anything else
    on the connection ends it unless its body is the number zero. *)
Lemma install_ends_with es1 s es2 reports reporting : Forall (λ e, match e with SignalArrives s => on_signal last_error s = Installing | _ => True end) es1 →
  on_signal last_error s ≠ Installing →
  bd_install (bundle_run last_error (es1 ++ SignalArrives s :: es2) {| bd_install := Installing; bd_connected := true; bd_reporting := reporting; bd_reports := reports |})
  = on_signal last_error s.
Proof.
  intros Hf Hs. revert reports reporting. assert (∀ es b r, bd_install b = Returned r → bd_install (bundle_run last_error es b) = Returned r) as Hret.
  { induction es as [|e es IH]; intros b r Hr; [done|]. cbn [bundle_run]. apply IH. destruct e; cbn [bundle_step]; [by rewrite Hr|by destruct (bd_reporting b)]. }
  induction Hf as [|e es1 He Hf IH]; intros reports reporting; cbn [app bundle_run bundle_step bd_install].
  - destruct (on_signal last_error s) as [|r]; [done|]. by apply Hret.
  - destruct e as [s'|a]; cbn [bundle_step bd_install bd_reporting]; [rewrite He; apply IH|]. destruct reporting; [apply IH|apply IH].
Qed.
End bundles.

(** The daemon's last word comes before the next poll: the report never learns of it. *)
Definition ex_polls : list bundle_event :=
  [Poll (inl {| pg_Percentage := 99; pg_Message := "Copying" |}); SignalArrives (Some {| sg_Name := raucDBusSignalFinish; sg_Code := inl 0%Z |});
   Poll (inl {| pg_Percentage := 100; pg_Message := "Installing done." |}); Poll (inr (Plain ""))].
Example report_outlives_installation :
  let b := bundle_run (inl "") ex_polls (raucInstallBundle (inl tt) (inl tt)) in
  bd_install b = Returned None ∧ bd_reporting b = true ∧ bd_reports b = [("", 0%N); ("", 0%N); ("Copying", 99%N)].
Proof. vm_compute. done. Qed.

Lemma report_ends_iff_witness : bd_reporting (bundle_run (inl "") ex_polls (raucInstallBundle (inl tt) (inl tt))) = true
  ∧ bd_reports (bundle_run (inl "") ex_polls (raucInstallBundle (inl tt) (inl tt))) = [("", 0%N); ("", 0%N); ("Copying", 99%N)].
Proof.
  assert (Forall int32_event ex_polls) as Hf by (repeat constructor; cbn; lia).
  destruct (report_ends_iff (inl "") ex_polls Hf) as (_ & _ & H).
  assert (bd_reporting (bundle_run (inl "") ex_polls (raucInstallBundle (inl tt) (inl tt))) = true) as Hr by (vm_compute; reflexivity).
  split; [exact Hr|exact (H Hr)].
Defined.

(** A signal of another service on the same connection fails the installation. *)
Example foreign_signal_fails_installation :
  bd_install (bundle_run (inl "") [SignalArrives (Some {| sg_Name := "org.freedesktop.NetworkManager.StateChanged"; sg_Code := inl 70%Z |})] (raucInstallBundle (inl tt) (inl tt)))
  = Returned (Some (Plain "")).
Proof. vm_compute. done. Qed.

Example payload_without_arguments : buildDeviceConfigFromPayload [] = Panic ∧ buildDeviceConfigFromPayload [VList []] = Panic
  ∧ buildDeviceConfigFromPayload [VList [VMap [("boot_config", VStr "a"); ("cmdline", VStr "b"); ("network_interfaces", VStr "c")]]]
    = Ok {| dc_BootConfig := "a"; dc_Cmdline := "b"; dc_NetworkInterfaces := "c" |}.
Proof. done. Qed.
